(* ===== verification/_CoqProject ===== *)
-Q . S2P
Prelude.v
Machine.v
CString.v
Spinlock.v
Kalloc.v
PageTable.v
Vm.v
VmMap.v
VmUser.v
VmCopy.v
VmFork.v
Sched.v
Proc.v
ProcSpec.v
SleepWake.v
Sleeplock.v
Bio.v
BioSpec.v
Bcache.v
Log.v
LogSpec.v
LogCrash.v
LogTrans.v
Fs.v
FsCodec.v
FsView.v
FsAlloc.v
FsInode.v
FsFile.v
UserMem.v
Shared.v
Ring.v
Uart.v
Printf.v
Console.v
ConsoleSpec.v
UserCopy.v
Pipe.v
ProcUser.v
ConsoleProc.v
File.v
Args.v
Exec.v
Sysfile.v
Fork.v
Sysproc.v
Syscall.v
FsBoot.v
FsDir.v
FileSpec.v
Grep.v
Sh.v
Uprintf.v
Umalloc.v
UmallocSpec.v
UmallocRun.v
Virtio.v
VirtioSpec.v
VirtioRw.v
VirtioIntr.v
VirtioBoot.v
Trap.v
TrapSpec.v
TrapBoot.v
KvmBoot.v
Start.v
Main.v
User.v
Pool.v
Chain.v
Primes.v
Xargs.v
Ulib.v
Find.v
FindSpec.v
ShRun.v
Coreutils.v
CoreutilsSpec.v
Pingpong.v
