(* ===== verification/Prelude.v ===== *)
(** * xv6 (RISC-V): the kernel and its user programs

    The program is the teaching kernel of src/lab1/kernel with the programs of
    src/lab1/user.  This library models the C code as Rocq functions and proves what
    makes its parts correct.  Code is translated function by function, under the
    names of the source; a function of the library says in a comment which one it is.

    ** How code is modelled

    A piece of kernel code is a function from the state it works on to an [outcome]: a
    result with the new state, a call of panic(), a point where the thread gives up the processor ([Wait],
    with the rest of the computation), or a loop that has used up its fuel.
    The state of a component is a [Record] that contains the state of the components below it, and [zoom]
    runs an operation of a lower component on its part.  Integers are [Z]s, reduced to
    their width where the C does it ([u8], [u16], [u32], [u64], [s16], [s32]).  Pointers to entries of a table
    are indices, other pointers are addresses; physical memory is a map from addresses to bytes.

    Fuel.  Loops over a range recurse on its length.  Loops whose length depends
    on data take the largest number of turns as fuel, and the theorems show that the
    fuel the definitions pass is enough (walks over memory: the number of pages; readi() and
    writei(): the number of blocks plus one; the shell's parser: four per byte of the line).  An argument [fuel] of a kernel
    operation bounds how often a thread is woken from sleep() and has to sleep again, which the code does not bound; the theorems
    hold for every value, and say that the operation gives up only after that many wakeups ([serves]) or that it does not
    sleep at all.

    ** Parts, files and theorems

    Machine.v (param.h, memlayout.h, riscv.h), CString.v (string.c): the constants, Sv39 macros, memory and the byte routines, with
    the behaviour of each of them.

    Spinlock.v (spinlock.c): spinlocks on one hart, and, in the module [Harts], on several: mutual exclusion
    in every interleaving.

    Kalloc.v (kalloc.c): the page allocator with its free list in the free pages; from boot on no page is given out twice
    or lost, and it refines an abstract set of pages.

    PageTable.v, Vm.v, VmMap.v, VmUser.v, VmCopy.v, VmFork.v (vm.c): page tables as trees in memory; walk(), mappages() and
    uvmunmap(); growing, shrinking and copying address spaces without losing or sharing pages; copies
    between the kernel and user memory, across pages and up to the first page that is not mapped.

    Sched.v, Proc.v, ProcSpec.v, SleepWake.v (proc.c): [Sched] and [SchedOk] are what the rest of the kernel needs of processes; Proc.v
    models them, and ProcSpec.v proves the interface, the scheduler, sleep(), wakeup() and kill().
    SleepWake.v interleaves sleep() and wakeup() on several harts: no wakeup is lost.
    Fork.v: procinit(), userinit(), fork(), exit(), forkret(), which involve files.

    Sleeplock.v (sleeplock.c), Bio.v, BioSpec.v, Bcache.v (bio.c): sleep locks; the buffer cache with its list in order
    of use, which refines an abstract cache.  The disk is the interface [Driver] with the contract [DriverOk], which a disk in memory satisfies.

    Log.v, LogSpec.v, LogCrash.v, LogTrans.v (log.c): the write-ahead log; whatever prefix of the writes of a commit reaches
    the disk, recovery gives the state before or after the transaction; a transaction leaves its updates on the disk.

    Fs.v, FsCodec.v, FsView.v, FsAlloc.v, FsInode.v, FsFile.v, FsDir.v, FsBoot.v (fs.c): blocks, inodes, files, directories and paths.
    [frel] of FsView.v relates the state to a view of blocks and inodes on which the operations are rules; on it:
    block allocation, the inode cache, inodes kept across eviction, reading and writing
    at any offset, looking up a name.  FsBoot.v is a file system as mkfs makes it, for the witnesses.

    UserMem.v, UserCopy.v, ProcUser.v, Shared.v, Ring.v: what a system call relies on of its process ([UserMem]: its memory, and that
    it finds it unchanged after sleep()), implemented by the process layer; objects that threads share under a lock, with the
    effects of one thread and the gaps in which others run; ring buffers.

    Pipe.v (pipe.c): reading and writing a pipe in turns with other threads.

    Uart.v (uart.c), Printf.v (printf.c), Console.v, ConsoleSpec.v, ConsoleProc.v (console.c): the UART chip is the interface [Chip].  The console's
    input refines a line editor; reading gives lines in order; writing sends bytes in order, or panics
    when the transmit buffer is full.

    File.v, FileSpec.v (file.c, pipealloc()), Sysfile.v (sysfile.c), Args.v, Syscall.v (syscall.c), Exec.v (exec.c, elf.h),
    Sysproc.v (sysproc.c, the clock of trap.c): open files, system calls and their table, on [sys], the state of the whole kernel.
    Reference counts of files equal the number of descriptors and are kept by dup(); pipealloc() makes a pipe or changes nothing; sleep(n) ends.

    Virtio.v, VirtioSpec.v, VirtioRw.v, VirtioIntr.v, VirtioBoot.v (virtio_disk.c): the driver with the descriptors and rings it shares with the device, which is
    the interface [Device] with a step relation for what it may do.  A transfer moves the block of its buffer, and the interrupt handler wakes exactly the processes whose
    requests are finished ([told]), however the device, the handler and the other threads run in between.

    Trap.v, TrapSpec.v, TrapBoot.v (trap.c, plic.c): interrupts, exceptions and system calls, on [tst], the kernel with the supervisor registers and the interrupt controller: a
    timer interrupt in the kernel, a disk interrupt and a system call in a user program, from the trap to the return.

    Start.v (start.c, timervec of kernelvec.S), KvmBoot.v, Main.v (main.c): machine mode hands over to main(), and its timer interrupts
    are invisible; main() is the sequence of the initialisations.  From kinit() to procinit() it does not panic nor run out of memory, and the page table it makes is given, address by
    address: for this mappages() (VmMap.v) also says at which paths tables are added, and 77 tables and 64 stacks are all that is needed.

    ** User programs

    Uprintf.v (user/printf.c), Ulib.v (ulib.c), Umalloc.v, UmallocSpec.v, UmallocRun.v (umalloc.c): numbers are printed right, atoi() reads them back, and
    the kernel's and the user's printf() agree; memmove() is the kernel's; the heap stays well formed, and objects never overlap, for requests of less than 2^31 - 31 bytes
    ([op_ok]; [malloc_overflow] shows what happens with larger ones).

    User.v: a program is a [prog], a tree of system calls ([ucall], user.h) with loops and exits.  [runs] says that every run of a program that is alone ends as
    it should, in an environment ([Env]) that answers the calls: [streams] for pipes and files read and written in pieces.
    Pool.v: the processes of a program that forks, with their descriptors and pipes; [wstep] is a step of any of them.  Their pids are a parameter ([Pids]).  Chain.v: processes in a chain of pipes.

    Sh.v, ShRun.v (sh.c): the parser ends, and its words are the words of the line; the programs that a line launches, with their arguments, files and pipe ends, are
    those that the command says ([launches]).
    Primes.v (primes.c): the sieve prints the primes in every schedule, and ends.  Pingpong.v (pingpong.c): its stages, in every schedule.
    Xargs.v (xargs.c): one run of the command, with the words of the input.
    Find.v, FindSpec.v (find.c, ls.c): walking a tree of directories, which is a [tree] in the environment of the theorem.
    Grep.v (grep.c): the matcher decides its regular expressions, and grep() prints the matching lines.
    Coreutils.v, CoreutilsSpec.v (cat.c, wc.c, grep's main(), and the other small programs): what cat, wc and grep print of files.

    ** Parameters

    [Symbols]: addresses the linker script sets.  [Vectors]: addresses of assembly routines.  [Driver]: the disk as the buffer cache sees it.  [Device]: the virtio device.
    [Plic]: the interrupt controller.  [Chip]: the UART.  [KernelBuf]: where the kernel's stack buffers are.  The system's side of sbrk() in Umalloc.v and of the other calls
    in User.v.  [Pids]: which pids fork() gives.  What uninitialised memory holds, and the address of a buffer, are arguments of the functions that use them.

    ** Not modelled

    ramdisk.c (not part of the build), entry.S, swtch.S, trampoline.S and kernelvec (saving and loading registers; swtch() is a [Wait]), functions that nothing calls, and the
    test programs usertests.c and grind.c, whose assertions are about the calls that the kernel's theorems cover.
    The interleaving of harts is modelled for spinlocks and for sleep() with wakeup(); elsewhere a thread runs alone between two points
    where it gives up the processor, as its locks ensure.  The programs run on the calls as Pool.v and the environments answer them, not on the kernel's own definitions. *)
From stdpp Require Export base list strings relations.
From Stdlib Require Export ZArith Lia.
From Stdlib Require Import FunctionalExtensionality.

#[global] Open Scope Z_scope.

(** ** Outcomes and the state monad

    A piece of kernel code is a function from the state it works on to an
    [outcome].  [Panic] is a call of panic() (printf.c), which never returns;
    [Wait] is a point where the running thread gives up the processor or spins
    (swtch() in sched(), the test-and-set loop of acquire()) together with the
    rest of the computation, a function of the state found when the thread is
    resumed; [NoFuel] is a loop that used up the iterations it was given.

    A [chan] is an address that a process sleeps on: one constructor for each kind
    of kernel object whose address the code passes to sleep() and wakeup(). *)
Inductive chan : Type :=
| CNull
| CProc (i : Z)      (* &proc[i]: wait() *)
| CBuf (i : Z)       (* the sleep lock of &bcache.buf[i] *)
| CInode (i : Z)     (* the sleep lock of &icache.inode[i] *)
| CLog               (* &log *)
| CPipeRead (pi : Z) (* &pi->nread *)
| CPipeWrite (pi : Z) (* &pi->nwrite *)
| CTicks             (* &ticks *)
| CCons              (* &cons.r *)
| CUart              (* &uart_tx_r *)
| CDiskFree          (* &disk.free[0] *)
| CDiskBuf (i : Z).  (* the buffer virtio_disk_rw() waits for *)

#[global] Instance chan_eq_dec : EqDecision chan.
Proof. solve_decision. Defined.

Inductive wait_reason : Type :=
| WSpin              (* acquire() of a lock that is taken *)
| WSwtch (c : chan)  (* sched(): to the scheduler *)
| WRun (i : Z).      (* scheduler(): to process i *)

Inductive outcome (S A : Type) : Type :=
| Ret (a : A) (s : S)
| Panic (msg : string) (s : S)
| Wait (why : wait_reason) (s : S) (k : S → outcome S A)
| NoFuel.
Arguments Ret {S A} a s.
Arguments Panic {S A} msg s.
Arguments Wait {S A} why s k.
Arguments NoFuel {S A}.

Definition M (S A : Type) : Type := S → outcome S A.

Fixpoint obind {S A B} (o : outcome S A) (f : A → M S B) : outcome S B :=
  match o with
  | Ret a s => f a s
  | Panic msg s => Panic msg s
  | Wait why s k => Wait why s (λ s', obind (k s') f)
  | NoFuel => NoFuel
  end.

#[global] Instance M_ret {S} : MRet (M S) := λ A a s, Ret a s.
#[global] Instance M_bind {S} : MBind (M S) := λ A B f m s, obind (m s) f.

Definition get {S} : M S S := λ s, Ret s s.
Definition gets {S A} (f : S → A) : M S A := λ s, Ret (f s) s.
Definition modify {S} (f : S → S) : M S unit := λ s, Ret () (f s).
Definition panic {S A} (msg : string) : M S A := λ s, Panic msg s.
Definition no_fuel {S A} : M S A := λ _, NoFuel.
Definition when_ {S} (b : bool) (m : M S unit) : M S unit := if b then m else mret ().

(** Run a computation on a part [T] of a larger state [S]. *)
Fixpoint zoomo {S T A} (g : S → T) (p : T → S → S) (o : outcome T A) (s : S)
    : outcome S A :=
  match o with
  | Ret a t => Ret a (p t s)
  | Panic msg t => Panic msg (p t s)
  | Wait why t k => Wait why (p t s) (λ s', zoomo g p (k (g s')) s')
  | NoFuel => NoFuel
  end.

Definition zoom {S T A} (g : S → T) (p : T → S → S) (m : M T A) : M S A :=
  λ s, zoomo g p (m (g s)) s.

(** A field of a larger state: the object a pointer argument refers to. *)
Record lens (S T : Type) := mkLens { lget : S → T; lset : T → S → S }.
Arguments mkLens {S T} lget lset.
Arguments lget {S T} l s.
Arguments lset {S T} l t s.

Definition at_ {S T A} (l : lens S T) (m : M T A) : M S A := zoom (lget l) (lset l) m.

(** ** Fixed-width integers *)
Definition u8 (x : Z) : Z := x mod 2 ^ 8.
Definition u16 (x : Z) : Z := x mod 2 ^ 16.
Definition u32 (x : Z) : Z := x mod 2 ^ 32.
Definition u64 (x : Z) : Z := x mod 2 ^ 64.
Definition s16 (x : Z) : Z := (x + 2 ^ 15) mod 2 ^ 16 - 2 ^ 15.
Definition s32 (x : Z) : Z := (x + 2 ^ 31) mod 2 ^ 32 - 2 ^ 31.
Definition b2z (b : bool) : Z := if b then 1 else 0.

(** Point update of a total map on [Z]. *)
Definition upd {A} (f : Z → A) (k : Z) (v : A) : Z → A :=
  λ x, if x =? k then v else f x.

(** ** Total-correctness weakest preconditions

    [wp m Q s]: run from [s], [m] returns, without panicking, blocking or
    running out of fuel, a value and a state that satisfy [Q]. *)
Definition wp {S A} (m : M S A) (Q : A → S → Prop) (s : S) : Prop :=
  match m s with Ret a s' => Q a s' | _ => False end.

Section wp.
Context {S : Type}.

Lemma wp_elim {A} (m : M S A) Q s :
  wp m Q s → ∃ a s', m s = Ret a s' ∧ Q a s'.
Proof. unfold wp. destruct (m s); naive_solver. Qed.

Lemma wp_intro {A} (m : M S A) (Q : A → S → Prop) s a s' :
  m s = Ret a s' → Q a s' → wp m Q s.
Proof. unfold wp. by intros ->. Qed.

Lemma wp_ret {A} (a : A) (Q : A → S → Prop) s : Q a s → wp (mret a) Q s.
Proof. done. Qed.

Lemma wp_bind {A B} (m : M S A) (f : A → M S B) Q s :
  wp m (λ a s', wp (f a) Q s') s → wp (mbind f m) Q s.
Proof. unfold wp, mbind, M_bind. destruct (m s); simpl; done. Qed.

Lemma wp_bind_inv {A B} (m : M S A) (f : A → M S B) Q s :
  wp (mbind f m) Q s → wp m (λ a s', wp (f a) Q s') s.
Proof. unfold wp, mbind, M_bind. destruct (m s); simpl; done. Qed.

Lemma wp_mono {A} (m : M S A) (Q Q' : A → S → Prop) s :
  wp m Q s → (∀ a s', Q a s' → Q' a s') → wp m Q' s.
Proof. unfold wp. destruct (m s); naive_solver. Qed.

Lemma wp_and {A} (m : M S A) (Q Q' : A → S → Prop) s :
  wp m Q s → wp m Q' s → wp m (λ a s', Q a s' ∧ Q' a s') s.
Proof. unfold wp. destruct (m s); naive_solver. Qed.

Lemma wp_get (Q : S → S → Prop) s : Q s s → wp get Q s.
Proof. done. Qed.

Lemma wp_gets {A} (f : S → A) (Q : A → S → Prop) s : Q (f s) s → wp (gets f) Q s.
Proof. done. Qed.

Lemma wp_modify (f : S → S) (Q : unit → S → Prop) s :
  Q () (f s) → wp (modify f) Q s.
Proof. done. Qed.

Lemma wp_when (b : bool) (m : M S unit) (Q : unit → S → Prop) s :
  (b = true → wp m Q s) → (b = false → Q () s) → wp (when_ b m) Q s.
Proof. destruct b; simpl; intros Ht Hf; [by apply Ht | by apply Hf]. Qed.

Lemma wp_zoom {T A} (g : S → T) (p : T → S → S) (m : M T A) (Q : A → S → Prop) s :
  wp m (λ a t, Q a (p t s)) (g s) → wp (zoom g p m) Q s.
Proof. unfold wp, zoom. destruct (m (g s)); simpl; done. Qed.

Lemma bind_Ret {A B} (m : M S A) (f : A → M S B) s a s' :
  m s = Ret a s' → mbind f m s = f a s'.
Proof. unfold mbind, M_bind. by intros ->. Qed.

Lemma bind_Panic {A B} (m : M S A) (f : A → M S B) s msg s' :
  m s = Panic msg s' → mbind f m s = Panic msg s'.
Proof. unfold mbind, M_bind. by intros ->. Qed.

Lemma bind_Ret_inv {A B} (m : M S A) (f : A → M S B) s b s' :
  mbind f m s = Ret b s' → ∃ a s1, m s = Ret a s1 ∧ f a s1 = Ret b s'.
Proof.
  unfold mbind, M_bind. destruct (m s); simpl; naive_solver.
Qed.

(** [panics m msg s]: run from [s], [m] ends in panic(msg). *)
Definition panics {A} (m : M S A) (msg : string) (s : S) : Prop := ∃ s', m s = Panic msg s'.

Lemma panics_intro {A} msg s : panics (panic (A := A) msg) msg s.
Proof. by exists s. Qed.

Lemma panics_bind {A B} (m : M S A) (f : A → M S B) msg s :
  wp m (λ a s', panics (f a) msg s') s → panics (mbind f m) msg s.
Proof.
  intros (a & s' & E & s'' & E')%wp_elim. exists s''. unfold mbind, M_bind. by rewrite E.
Qed.

Lemma panics_head {A B} (m : M S A) (f : A → M S B) msg s : panics m msg s → panics (mbind f m) msg s.
Proof. intros (s' & E). exists s'. unfold mbind, M_bind. by rewrite E. Qed.
End wp.

(** ** Automation

    [wp_steps] pushes a [wp] goal through binds and the primitive operations;
    the database [wp] holds the specifications of the components' operations. *)
Create HintDb kern.
Create HintDb wp.

#[export] Hint Resolve wp_ret wp_get wp_gets wp_modify : wp.

Ltac wp_step :=
  first
    [ apply wp_bind
    | apply wp_ret
    | apply wp_get
    | apply wp_gets
    | apply wp_modify ].
Ltac wp_steps := repeat (wp_step; cbv beta).

(** Unfold the monad, to compute with equations between outcomes. *)
Ltac m_unfold :=
  unfold mbind, M_bind, mret, M_ret, modify, gets, get, panic, no_fuel; cbn [obind].

(** Divisions and remainders by constants, handed to [lia]. *)
Ltac zdm := Z.div_mod_to_equations; lia.

(** Case analysis on the boolean comparisons of the code. *)
Ltac zcmp :=
  match goal with
  | |- context [Z.eqb ?a ?b] => destruct (Z.eqb_spec a b)
  | |- context [Z.ltb ?a ?b] => destruct (Z.ltb_spec a b)
  | |- context [Z.leb ?a ?b] => destruct (Z.leb_spec a b)
  | H : context [Z.eqb ?a ?b] |- _ => destruct (Z.eqb_spec a b)
  | H : context [Z.ltb ?a ?b] |- _ => destruct (Z.ltb_spec a b)
  | H : context [Z.leb ?a ?b] |- _ => destruct (Z.leb_spec a b)
  end.

(** ** Lemmas on integers shared by the components *)
Lemma upd_eq {A} (f : Z → A) k v : upd f k v k = v.
Proof. unfold upd. by rewrite Z.eqb_refl. Qed.

Lemma upd_ne {A} (f : Z → A) k v x : x ≠ k → upd f k v x = f x.
Proof. unfold upd. intros. by destruct (Z.eqb_spec x k). Qed.

Lemma upd_upd {A} (f : Z → A) k v w : upd (upd f k v) k w = upd f k w.
Proof. apply functional_extensionality. intros x. unfold upd. by destruct (x =? k). Qed.

Lemma upd_id {A} (f : Z → A) k : upd f k (f k) = f.
Proof.
  apply functional_extensionality. intros x. unfold upd. by destruct (Z.eqb_spec x k) as [->|].
Qed.

Lemma upd_comm {A} (f : Z → A) j k v w : j ≠ k → upd (upd f j v) k w = upd (upd f k w) j v.
Proof.
  intros Hne. apply functional_extensionality. intros x. unfold upd.
  destruct (Z.eqb_spec x k), (Z.eqb_spec x j); congruence.
Qed.

Lemma u64_small x : 0 ≤ x < 2 ^ 64 → u64 x = x.
Proof. apply Z.mod_small. Qed.

Lemma u32_small x : 0 ≤ x < 2 ^ 32 → u32 x = x.
Proof. apply Z.mod_small. Qed.

Lemma u64_range x : 0 ≤ u64 x < 2 ^ 64.
Proof. apply Z.mod_pos_bound. lia. Qed.

Lemma u32_range x : 0 ≤ u32 x < 2 ^ 32.
Proof. apply Z.mod_pos_bound. lia. Qed.

Lemma u64_u64 x : u64 (u64 x) = u64 x.
Proof. apply u64_small, u64_range. Qed.

Lemma s32_range x : - 2 ^ 31 ≤ s32 x < 2 ^ 31.
Proof. unfold s32. pose proof (Z.mod_pos_bound (x + 2 ^ 31) (2 ^ 32)). lia. Qed.

Lemma s32_small x : - 2 ^ 31 ≤ x < 2 ^ 31 → s32 x = x.
Proof. intros. unfold s32. rewrite Z.mod_small; lia. Qed.

Lemma land_ones_mod x n : 0 ≤ n → Z.land x (2 ^ n - 1) = x mod 2 ^ n.
Proof. intros. rewrite <- Z.land_ones by done. by rewrite Z.ones_equiv, Z.sub_1_r. Qed.

(** Clearing the low [n] bits rounds down to a multiple of [2 ^ n]. *)
Lemma land_lnot_ones x n : 0 ≤ n → Z.land x (Z.lnot (2 ^ n - 1)) = x - x mod 2 ^ n.
Proof.
  intros. rewrite <- Z.ldiff_land.
  replace (2 ^ n - 1) with (Z.ones n) by (rewrite Z.ones_equiv; lia).
  rewrite Z.ldiff_ones_r by done.
  rewrite Z.shiftl_mul_pow2, Z.shiftr_div_pow2 by done.
  pose proof (Z.div_mod x (2 ^ n)). assert (2 ^ n ≠ 0) by (apply Z.pow_nonzero; lia). lia.
Qed.

(** Disjoint bit ranges: [lor] is addition. *)
Lemma lor_add_low x y n : 0 ≤ n → 0 ≤ y < 2 ^ n → Z.lor (x * 2 ^ n) y = x * 2 ^ n + y.
Proof.
  intros Hn Hy. rewrite <- Z.shiftl_mul_pow2 by done.
  rewrite <- Z.add_lor_land.
  enough (Z.land (Z.shiftl x n) y = 0) by lia.
  apply Z.bits_inj'. intros i Hi.
  rewrite Z.land_spec, Z.bits_0, Z.shiftl_spec by done.
  destruct (Z.ltb_spec i n).
  - rewrite (Z.testbit_neg_r x) by lia. done.
  - rewrite <- (Z.mod_small y (2 ^ n)) by done.
    rewrite Z.mod_pow2_bits_high by lia. apply andb_false_r.
Qed.

#[export] Hint Resolve u64_range u32_range s32_range : kern.

(** ** Lists *)
Lemma concat_nil {A} (l : list (list A)) : (∀ k x, l !! k = Some x → x = []) → concat l = [].
Proof.
  induction l as [|x l IH]; intros Hl; [done|]. cbn [concat]. rewrite (Hl 0%nat x eq_refl), IH; [done|]. intros k y Hy. by apply (Hl (S k)).
Qed.

Lemma elem_of_rev {A} (l : list A) x : x ∈ rev l ↔ x ∈ l.
Proof. rewrite rev_alt. apply elem_of_reverse. Qed.
