(* ===== verification/Machine.v ===== *)
(** Machine layer: the constants of param.h, memlayout.h and riscv.h, the
    Sv39 address and page-table-entry macros of riscv.h, and byte-addressable
    physical memory with little-endian loads and stores.

    Physical memory is a total map from addresses to bytes; a C object of
    [n] bytes at address [a] is the [n] cells from [a], least significant byte
    first, as on RISC-V.  Addresses and C integers are [Z]s; every operation
    that can leave its width is reduced where the C does it ([u64], [u32]). *)
From S2P Require Import Prelude.

(** ** param.h *)
Definition NPROC : Z := 64.
Definition NCPU : Z := 8.
Definition NOFILE : Z := 16.
Definition NFILE : Z := 100.
Definition NINODE : Z := 50.
Definition NDEV : Z := 10.
Definition ROOTDEV : Z := 1.
Definition MAXARG : Z := 32.
Definition MAXOPBLOCKS : Z := 10.
Definition LOGSIZE : Z := MAXOPBLOCKS * 3.
Definition NBUF : Z := MAXOPBLOCKS * 3.
Definition FSSIZE : Z := 1000.
Definition MAXPATH : Z := 128.

(** ** riscv.h: pages and Sv39 *)
Definition PGSIZE : Z := 4096.
Definition PGSHIFT : Z := 12.

Definition PGROUNDUP (sz : Z) : Z := Z.land (u64 (sz + PGSIZE - 1)) (Z.lnot (PGSIZE - 1)).
Definition PGROUNDDOWN (a : Z) : Z := Z.land a (Z.lnot (PGSIZE - 1)).

Definition PTE_V : Z := Z.shiftl 1 0.
Definition PTE_R : Z := Z.shiftl 1 1.
Definition PTE_W : Z := Z.shiftl 1 2.
Definition PTE_X : Z := Z.shiftl 1 3.
Definition PTE_U : Z := Z.shiftl 1 4.

Definition PA2PTE (pa : Z) : Z := u64 (Z.shiftl (Z.shiftr pa 12) 10).
Definition PTE2PA (pte : Z) : Z := u64 (Z.shiftl (Z.shiftr pte 10) 12).
Definition PTE_FLAGS (pte : Z) : Z := Z.land pte 0x3FF.

Definition PXMASK : Z := 0x1FF.
Definition PXSHIFT (level : Z) : Z := PGSHIFT + 9 * level.
Definition PX (level va : Z) : Z := Z.land (Z.shiftr va (PXSHIFT level)) PXMASK.

Definition MAXVA : Z := Z.shiftl 1 (9 + 9 + 9 + 12 - 1).

Definition SATP_SV39 : Z := Z.shiftl 8 60.
Definition MAKE_SATP (pagetable : Z) : Z := Z.lor SATP_SV39 (Z.shiftr pagetable 12).

(** ** memlayout.h *)
Definition UART0 : Z := 0x10000000.
Definition UART0_IRQ : Z := 10.
Definition VIRTIO0 : Z := 0x10001000.
Definition VIRTIO0_IRQ : Z := 1.
Definition CLINT : Z := 0x2000000.
Definition PLIC : Z := 0x0c000000.
Definition KERNBASE : Z := 0x80000000.
Definition PHYSTOP : Z := KERNBASE + 128 * 1024 * 1024.
Definition TRAMPOLINE : Z := MAXVA - PGSIZE.
Definition KSTACK (p : Z) : Z := TRAMPOLINE - (p + 1) * 2 * PGSIZE.
Definition TRAPFRAME : Z := TRAMPOLINE - PGSIZE.

(** ** Physical memory *)
Abbreviation mem := (Z → Z).

Definition mem_ok (m : mem) : Prop := ∀ a, 0 ≤ m a < 256.

Fixpoint load (n : nat) (m : mem) (a : Z) : Z :=
  match n with
  | O => 0
  | S n => m a + 256 * load n m (a + 1)
  end.

Fixpoint store (n : nat) (m : mem) (a v : Z) : mem :=
  match n with
  | O => m
  | S n => store n (upd m a (v mod 256)) (a + 1) (v / 256)
  end.

Definition load32 : mem → Z → Z := load 4.
Definition load64 : mem → Z → Z := load 8.
Definition store32 : mem → Z → Z → mem := store 4.
Definition store64 : mem → Z → Z → mem := store 8.

(** Two memories that agree on a region of [n] bytes from [a]. *)
Definition agree (m1 m2 : mem) (a n : Z) : Prop :=
  ∀ x, a ≤ x < a + n → m1 x = m2 x.

(** ** Loads and stores *)
Lemma store_spec n m a v x :
  store n m a v x =
  if (a <=? x) && (x <? a + Z.of_nat n) then v / 256 ^ (x - a) mod 256 else m x.
Proof.
  revert m a v. induction n as [|n IH]; intros m a v.
  - cbn [store]. repeat zcmp; try done; lia.
  - cbn [store]. rewrite IH. unfold upd.
    destruct (Z.eqb_spec x a) as [->|Hne].
    + replace (a - a) with 0 by lia. rewrite Z.pow_0_r, Z.div_1_r.
      repeat zcmp; simpl; try done; lia.
    + repeat zcmp; simpl; try done; try lia.
      rewrite Z.div_div by lia. f_equal. f_equal.
      replace (x - a) with (Z.succ (x - (a + 1))) by lia.
      by rewrite Z.pow_succ_r by lia.
Qed.

Lemma store_in n m a v x :
  a ≤ x < a + Z.of_nat n → store n m a v x = v / 256 ^ (x - a) mod 256.
Proof. intros. rewrite store_spec. repeat zcmp; simpl; try done; lia. Qed.

Lemma store_out n m a v x :
  ¬ (a ≤ x < a + Z.of_nat n) → store n m a v x = m x.
Proof. intros. rewrite store_spec. repeat zcmp; simpl; try done; lia. Qed.

Lemma load_ext n m1 m2 a : agree m1 m2 a (Z.of_nat n) → load n m1 a = load n m2 a.
Proof.
  revert a. induction n as [|n IH]; intros a Hag; [done|].
  cbn [load]. rewrite (Hag a), (IH (a + 1)); [done| |lia].
  intros x Hx. apply Hag. lia.
Qed.

Lemma load_store_eq n m a v : load n (store n m a v) a = v mod 256 ^ Z.of_nat n.
Proof.
  revert m a v. induction n as [|n IH]; intros m a v.
  - simpl. by rewrite Z.mod_1_r.
  - cbn [load]. cbn [store]. rewrite IH, store_out, upd_eq by lia.
    replace (Z.of_nat (S n)) with (1 + Z.of_nat n) by lia.
    rewrite Z.pow_add_r, Z.pow_1_r by lia.
    by rewrite Z.rem_mul_r by lia.
Qed.

Lemma load_store_ne n k m a b v :
  b + Z.of_nat k ≤ a ∨ a + Z.of_nat n ≤ b →
  load k (store n m a v) b = load k m b.
Proof. intros. apply load_ext. intros x Hx. apply store_out. lia. Qed.

Lemma load_range n m a : mem_ok m → 0 ≤ load n m a < 256 ^ Z.of_nat n.
Proof.
  intros Hok. revert a. induction n as [|n IH]; intros a; [done|].
  cbn [load]. specialize (IH (a + 1)). specialize (Hok a).
  replace (Z.of_nat (S n)) with (1 + Z.of_nat n) by lia.
  rewrite Z.pow_add_r, Z.pow_1_r by lia. nia.
Qed.

Lemma store_ok n m a v : mem_ok m → mem_ok (store n m a v).
Proof.
  intros Hok x. rewrite store_spec. case_match; [|done].
  apply Z.mod_pos_bound. lia.
Qed.

Lemma load64_store64_eq m a v : 0 ≤ v < 2 ^ 64 → load64 (store64 m a v) a = v.
Proof. intros. unfold load64, store64. rewrite load_store_eq. apply Z.mod_small. lia. Qed.

Lemma load64_store64_ne m a b v :
  b + 8 ≤ a ∨ a + 8 ≤ b → load64 (store64 m a v) b = load64 m b.
Proof. intros. apply load_store_ne. lia. Qed.

Lemma load64_range m a : mem_ok m → 0 ≤ load64 m a < 2 ^ 64.
Proof. intros. by apply (load_range 8). Qed.

#[export] Hint Resolve store_ok load64_range : kern.

(** ** Page arithmetic *)
Lemma PGROUNDDOWN_eq a : PGROUNDDOWN a = a - a mod PGSIZE.
Proof. exact (land_lnot_ones a 12 ltac:(lia)). Qed.

Lemma PGROUNDUP_eq sz :
  0 ≤ sz → sz + PGSIZE - 1 < 2 ^ 64 →
  PGROUNDUP sz = (sz + PGSIZE - 1) / PGSIZE * PGSIZE.
Proof.
  intros. unfold PGROUNDUP. unfold PGSIZE in *. rewrite u64_small by lia.
  rewrite (land_lnot_ones _ 12) by lia. change (2 ^ 12) with 4096. zdm.
Qed.

(** PGROUNDUP is the least multiple of the page size that is not below [sz]. *)
Lemma PGROUNDUP_bounds sz :
  0 ≤ sz → sz + PGSIZE - 1 < 2 ^ 64 →
  sz ≤ PGROUNDUP sz < sz + PGSIZE ∧ PGROUNDUP sz mod PGSIZE = 0.
Proof.
  intros. rewrite PGROUNDUP_eq by done. unfold PGSIZE in *.
  split; [zdm|]. by rewrite Z.mod_mul.
Qed.

Lemma PGROUNDUP_aligned sz :
  0 ≤ sz → sz + PGSIZE - 1 < 2 ^ 64 → sz mod PGSIZE = 0 → PGROUNDUP sz = sz.
Proof. intros. rewrite PGROUNDUP_eq by done. unfold PGSIZE in *. zdm. Qed.

(** ** Page-table entries *)
Lemma PA2PTE_eq pa : 0 ≤ pa < 2 ^ 56 → PA2PTE pa = pa / 4096 * 1024.
Proof.
  intros. unfold PA2PTE. rewrite Z.shiftl_mul_pow2, Z.shiftr_div_pow2 by lia.
  change (2 ^ 12) with 4096. change (2 ^ 10) with 1024.
  apply u64_small. zdm.
Qed.

Lemma PTE2PA_eq pte : 0 ≤ pte < 2 ^ 54 → PTE2PA pte = pte / 1024 * 4096.
Proof.
  intros. unfold PTE2PA. rewrite Z.shiftl_mul_pow2, Z.shiftr_div_pow2 by lia.
  change (2 ^ 12) with 4096. change (2 ^ 10) with 1024.
  apply u64_small. zdm.
Qed.

Lemma PTE_FLAGS_eq pte : PTE_FLAGS pte = pte mod 1024.
Proof. exact (land_ones_mod pte 10 ltac:(lia)). Qed.

(** A page-table entry built from a page address and flags. *)
Lemma mk_pte_eq pa perm :
  0 ≤ pa < 2 ^ 56 → 0 ≤ perm < 1024 →
  Z.lor (PA2PTE pa) perm = pa / 4096 * 1024 + perm.
Proof. intros. rewrite PA2PTE_eq by done. by apply (lor_add_low _ _ 10). Qed.

Lemma PTE2PA_mk_pte pa perm :
  0 ≤ pa < 2 ^ 56 → pa mod PGSIZE = 0 → 0 ≤ perm < 1024 →
  PTE2PA (Z.lor (PA2PTE pa) perm) = pa.
Proof.
  intros. unfold PGSIZE in *. rewrite mk_pte_eq by done.
  rewrite PTE2PA_eq by zdm. zdm.
Qed.

Lemma PTE_FLAGS_mk_pte pa perm :
  0 ≤ pa < 2 ^ 56 → 0 ≤ perm < 1024 → PTE_FLAGS (Z.lor (PA2PTE pa) perm) = perm.
Proof. intros. rewrite mk_pte_eq, PTE_FLAGS_eq by done. zdm. Qed.

(** ** Virtual addresses *)
Lemma PX_eq level va :
  0 ≤ level → PX level va = va / 2 ^ (12 + 9 * level) mod 512.
Proof.
  intros. unfold PX, PXSHIFT, PGSHIFT. rewrite Z.shiftr_div_pow2 by lia.
  apply (land_ones_mod _ 9). lia.
Qed.

Lemma PX_range level va : 0 ≤ PX level va < 512.
Proof.
  unfold PX. change PXMASK with (2 ^ 9 - 1). rewrite land_ones_mod by lia.
  apply Z.mod_pos_bound. lia.
Qed.

(** A virtual address below MAXVA is its three indices and its page offset. *)
Lemma va_split va :
  0 ≤ va < MAXVA →
  va = PX 2 va * 2 ^ 30 + PX 1 va * 2 ^ 21 + PX 0 va * 2 ^ 12 + va mod PGSIZE.
Proof.
  intros Hva. change MAXVA with (2 ^ 38) in Hva. rewrite !PX_eq by lia.
  change (12 + 9 * 2) with 30. change (12 + 9 * 1) with 21. change (12 + 9 * 0) with 12.
  unfold PGSIZE. change (2 ^ 30) with 1073741824. change (2 ^ 21) with 2097152.
  change (2 ^ 12) with 4096. change (2 ^ 38) with 274877906944 in Hva. zdm.
Qed.

(** The indices identify the page. *)
Lemma PX_inj va vb :
  0 ≤ va < MAXVA → 0 ≤ vb < MAXVA →
  PX 2 va = PX 2 vb → PX 1 va = PX 1 vb → PX 0 va = PX 0 vb →
  va / PGSIZE = vb / PGSIZE.
Proof.
  intros Ha Hb H2 H1 H0.
  pose proof (va_split va Ha) as Sa. pose proof (va_split vb Hb) as Sb.
  rewrite H2, H1, H0 in Sa. unfold PGSIZE in *. zdm.
Qed.

Lemma PX_page level va : 0 ≤ level → PX level (PGROUNDDOWN va) = PX level va.
Proof.
  intros. rewrite !PX_eq by done. f_equal. rewrite PGROUNDDOWN_eq. unfold PGSIZE.
  rewrite Z.pow_add_r by lia. change (2 ^ 12) with 4096.
  rewrite <- !Z.div_div by lia. f_equal. zdm.
Qed.
