(* ===== verification/CString.v ===== *)
(** string.c: the kernel's byte and string routines on physical memory.

    A routine that only writes memory is a function from the memory before to
    the memory after (the C functions return their first argument, which the
    callers ignore).  Loops on a count recurse on that count; the loops that
    look for a NUL recurse on a fuel argument and return [None] when the fuel
    runs out, and [strlen_total], [strncmp_ok] and the others show how much is
    enough.  [char] is unsigned on RISC-V, so a byte is its value in [0..255]. *)
From S2P Require Import Prelude Machine.

(** memset(): [k] iterations are left, the index is [i]. *)
Fixpoint memset_loop (k : nat) (m : mem) (dst c i : Z) : mem :=
  match k with
  | O => m
  | S k => memset_loop k (upd m (dst + i) (u8 c)) dst c (i + 1)
  end.

Definition memset (m : mem) (dst c n : Z) : mem :=
  memset_loop (Z.to_nat (u32 n)) m dst c 0.

(** memcmp() *)
Fixpoint memcmp_loop (n : nat) (m : mem) (s1 s2 : Z) : Z :=
  match n with
  | O => 0
  | S n =>
    if negb (m s1 =? m s2) then m s1 - m s2 else memcmp_loop n m (s1 + 1) (s2 + 1)
  end.

Definition memcmp (m : mem) (v1 v2 n : Z) : Z := memcmp_loop (Z.to_nat (u32 n)) m v1 v2.

(** memmove(): the descending loop [*--d = *--s] and the ascending one. *)
Fixpoint memmove_down (n : nat) (m : mem) (d s : Z) : mem :=
  match n with
  | O => m
  | S n => memmove_down n (upd m (d - 1) (m (s - 1))) (d - 1) (s - 1)
  end.

Fixpoint memmove_up (n : nat) (m : mem) (d s : Z) : mem :=
  match n with
  | O => m
  | S n => memmove_up n (upd m d (m s)) (d + 1) (s + 1)
  end.

Definition memmove (m : mem) (dst src n : Z) : mem :=
  let n := u32 n in
  if (src <? dst) && (dst <? src + n) then
    memmove_down (Z.to_nat n) m (dst + n) (src + n)
  else
    memmove_up (Z.to_nat n) m dst src.

(** memcpy() *)
Definition memcpy (m : mem) (dst src n : Z) : mem := memmove m dst src n.

(** strncmp() *)
Fixpoint strncmp_loop (n : nat) (m : mem) (p q : Z) : Z :=
  match n with
  | O => 0
  | S n' =>
    if negb (m p =? 0) && (m p =? m q) then strncmp_loop n' m (p + 1) (q + 1)
    else m p - m q
  end.

Definition strncmp (m : mem) (p q n : Z) : Z := strncmp_loop (Z.to_nat (u32 n)) m p q.

(** strncpy(): copy up to and including a NUL, then fill with NULs. *)
Fixpoint strncpy_fill (n : nat) (m : mem) (s : Z) : mem :=
  match n with
  | O => m
  | S n => strncpy_fill n (upd m s 0) (s + 1)
  end.

Fixpoint strncpy_loop (n : nat) (m : mem) (s t : Z) : mem :=
  match n with
  | O => m
  | S n =>
    let c := m t in
    let m' := upd m s c in
    if c =? 0 then strncpy_fill n m' (s + 1) else strncpy_loop n m' (s + 1) (t + 1)
  end.

Definition strncpy (m : mem) (s t n : Z) : mem := strncpy_loop (Z.to_nat n) m s t.

(** safestrcpy(): the loop is left with [*s = 0] still to be done. *)
Fixpoint safestrcpy_loop (n : nat) (m : mem) (s t : Z) : mem :=
  match n with
  | O => upd m s 0
  | S n =>
    let c := m t in
    let m' := upd m s c in
    if c =? 0 then upd m' (s + 1) 0 else safestrcpy_loop n m' (s + 1) (t + 1)
  end.

Definition safestrcpy (m : mem) (s t n : Z) : mem :=
  if n <=? 0 then m else safestrcpy_loop (Z.to_nat (n - 1)) m s t.

(** strlen() *)
Fixpoint strlen_loop (fuel : nat) (m : mem) (s n : Z) : option Z :=
  match fuel with
  | O => None
  | S fuel => if m (s + n) =? 0 then Some n else strlen_loop fuel m s (n + 1)
  end.

Definition strlen (fuel : nat) (m : mem) (s : Z) : option Z := strlen_loop fuel m s 0.

(** ** Specifications *)

(** The bytes [m a, ..., m (a + n - 1)]. *)
Fixpoint bytes (n : nat) (m : mem) (a : Z) : list Z :=
  match n with
  | O => []
  | S n => m a :: bytes n m (a + 1)
  end.

(** There is a C string of length [len] (without its NUL) at [a]. *)
Definition cstring (m : mem) (a len : Z) : Prop :=
  0 ≤ len ∧ m (a + len) = 0 ∧ ∀ i, 0 ≤ i < len → m (a + i) ≠ 0.

Lemma memset_loop_spec k m dst c i x :
  memset_loop k m dst c i x =
  if (dst + i <=? x) && (x <? dst + i + Z.of_nat k) then u8 c else m x.
Proof.
  revert m i. induction k as [|k IH]; intros m i; cbn [memset_loop].
  - repeat zcmp; simpl; try done; lia.
  - rewrite IH. unfold upd. repeat zcmp; simpl; try done; lia.
Qed.

Lemma memset_spec m dst c n x :
  0 ≤ n < 2 ^ 32 →
  memset m dst c n x = if (dst <=? x) && (x <? dst + n) then u8 c else m x.
Proof.
  intros. unfold memset. rewrite memset_loop_spec, u32_small by done.
  by rewrite Z.add_0_r, Z2Nat.id by lia.
Qed.

Lemma memset_out m dst c n x :
  0 ≤ n < 2 ^ 32 → ¬ (dst ≤ x < dst + n) → memset m dst c n x = m x.
Proof. intros. rewrite memset_spec by done. repeat zcmp; simpl; try done; lia. Qed.

Lemma memset_ok m dst c n : mem_ok m → mem_ok (memset m dst c n).
Proof.
  intros Hok x. unfold memset. rewrite memset_loop_spec. case_match; [|done].
  apply Z.mod_pos_bound. lia.
Qed.

Lemma load_memset_0 k m dst n a :
  0 ≤ n < 2 ^ 32 → dst ≤ a → a + Z.of_nat k ≤ dst + n → load k (memset m dst 0 n) a = 0.
Proof.
  intros Hn. revert a. induction k as [|k IH]; intros a Hlo Hhi; [done|].
  cbn [load]. rewrite IH by lia. rewrite memset_spec by done.
  repeat zcmp; simpl; try done; lia.
Qed.

Lemma load64_memset_out m dst c n a :
  0 ≤ n < 2 ^ 32 → a + 8 ≤ dst ∨ dst + n ≤ a →
  load64 (memset m dst c n) a = load64 m a.
Proof. intros. apply load_ext. intros x Hx. apply memset_out; lia. Qed.

Lemma memmove_up_spec n m d s x :
  d ≤ s ∨ s + Z.of_nat n ≤ d →
  memmove_up n m d s x =
  if (d <=? x) && (x <? d + Z.of_nat n) then m (s + (x - d)) else m x.
Proof.
  revert m d s. induction n as [|n IH]; intros m d s Hov; cbn [memmove_up].
  - repeat zcmp; simpl; try done; lia.
  - rewrite IH by lia. unfold upd. repeat zcmp; simpl; try done; try lia; f_equal; lia.
Qed.

Lemma memmove_down_spec n m d s x :
  s ≤ d ∨ d + Z.of_nat n ≤ s →
  memmove_down n m (d + Z.of_nat n) (s + Z.of_nat n) x =
  if (d <=? x) && (x <? d + Z.of_nat n) then m (s + (x - d)) else m x.
Proof.
  revert m. induction n as [|n IH]; intros m Hov; cbn [memmove_down].
  - repeat zcmp; simpl; try done; lia.
  - replace (d + Z.of_nat (S n) - 1) with (d + Z.of_nat n) by lia.
    replace (s + Z.of_nat (S n) - 1) with (s + Z.of_nat n) by lia.
    rewrite IH by lia. unfold upd. repeat zcmp; simpl; try done; try lia; f_equal; lia.
Qed.

(** memmove copies the source as it was before the call, whether or not the two
    regions overlap, and changes nothing else. *)
Lemma memmove_spec m dst src n x :
  0 ≤ n < 2 ^ 32 →
  memmove m dst src n x =
  if (dst <=? x) && (x <? dst + n) then m (src + (x - dst)) else m x.
Proof.
  intros Hn. unfold memmove. rewrite u32_small by done.
  destruct ((src <? dst) && (dst <? src + n)) eqn:E.
  - rewrite <- (Z2Nat.id n) at 2 3 by lia.
    rewrite memmove_down_spec by lia. by rewrite Z2Nat.id by lia.
  - rewrite memmove_up_spec by (rewrite Z2Nat.id by lia; lia).
    by rewrite Z2Nat.id by lia.
Qed.

Lemma memmove_in m dst src n x :
  0 ≤ n < 2 ^ 32 → dst ≤ x < dst + n → memmove m dst src n x = m (src + (x - dst)).
Proof. intros. rewrite memmove_spec by done. repeat zcmp; simpl; try done; lia. Qed.

Lemma memmove_out m dst src n x :
  0 ≤ n < 2 ^ 32 → ¬ (dst ≤ x < dst + n) → memmove m dst src n x = m x.
Proof. intros. rewrite memmove_spec by done. repeat zcmp; simpl; try done; lia. Qed.

Lemma memmove_ok m dst src n :
  0 ≤ n < 2 ^ 32 → mem_ok m → mem_ok (memmove m dst src n).
Proof. intros ? Hok x. rewrite memmove_spec by done. by case_match. Qed.

#[export] Hint Resolve memset_ok memmove_ok : kern.

(** The bytes of a counted string: up to its NUL, at most [n] of them. *)
Fixpoint cstr (n : nat) (m : mem) (a : Z) : list Z :=
  match n with
  | O => []
  | S n => if m a =? 0 then [] else m a :: cstr n m (a + 1)
  end.

Lemma cstr_ext n m1 m2 a : agree m1 m2 a (Z.of_nat n) → cstr n m1 a = cstr n m2 a.
Proof.
  revert a. induction n as [|n IH]; intros a Hag; [done|].
  cbn [cstr]. rewrite (Hag a) by lia. rewrite (IH (a + 1)); [done|].
  intros x Hx. apply Hag. lia.
Qed.

Lemma strncmp_loop_zero n m p q :
  strncmp_loop n m p q = 0 ↔ cstr n m p = cstr n m q.
Proof.
  revert p q. induction n as [|n IH]; intros p q; [done|].
  cbn [strncmp_loop cstr].
  destruct (Z.eqb_spec (m p) 0), (Z.eqb_spec (m q) 0), (Z.eqb_spec (m p) (m q));
    simpl; rewrite ?IH; split; intros; simplify_eq; try congruence; try lia.
Qed.

Lemma memcmp_loop_zero n m p q :
  memcmp_loop n m p q = 0 ↔ bytes n m p = bytes n m q.
Proof.
  revert p q. induction n as [|n IH]; intros p q; [done|].
  cbn [memcmp_loop bytes].
  destruct (Z.eqb_spec (m p) (m q)) as [E|E]; simpl.
  - rewrite IH, E. split; intros; simplify_eq; try done. by f_equal.
  - split; intros; simplify_eq; lia.
Qed.

Lemma strncpy_fill_spec n m s x :
  strncpy_fill n m s x = if (s <=? x) && (x <? s + Z.of_nat n) then 0 else m x.
Proof.
  revert m s. induction n as [|n IH]; intros m s; cbn [strncpy_fill].
  - repeat zcmp; simpl; try done; lia.
  - rewrite IH. unfold upd. repeat zcmp; simpl; try done; lia.
Qed.

Lemma strncpy_loop_out n m s t x :
  ¬ (s ≤ x < s + Z.of_nat n) → strncpy_loop n m s t x = m x.
Proof.
  revert m s t. induction n as [|n IH]; intros m s t Hx; [done|]. cbn [strncpy_loop].
  destruct (m t =? 0).
  - rewrite strncpy_fill_spec. unfold upd. repeat zcmp; simpl; try done; lia.
  - rewrite IH by lia. apply upd_ne. lia.
Qed.

Lemma cstr_strncpy_loop n m s t :
  s + Z.of_nat n ≤ t ∨ t + Z.of_nat n ≤ s →
  cstr n (strncpy_loop n m s t) s = cstr n m t.
Proof.
  revert m s t. induction n as [|n IH]; intros m s t Hov; [done|]. cbn [strncpy_loop cstr].
  destruct (Z.eqb_spec (m t) 0) as [E|E].
  - rewrite strncpy_fill_spec, E. unfold upd. repeat zcmp; simpl; try done; lia.
  - rewrite strncpy_loop_out by lia. rewrite upd_eq.
    destruct (Z.eqb_spec (m t) 0); [done|]. rewrite IH by lia. f_equal.
    apply cstr_ext. intros x Hx. apply upd_ne. lia.
Qed.

Lemma safestrcpy_loop_out n m s t x :
  ¬ (s ≤ x ≤ s + Z.of_nat n) → safestrcpy_loop n m s t x = m x.
Proof.
  revert m s t. induction n as [|n IH]; intros m s t Hx; cbn [safestrcpy_loop].
  - apply upd_ne. lia.
  - destruct (m t =? 0).
    + rewrite !upd_ne by lia. done.
    + rewrite IH by lia. apply upd_ne. lia.
Qed.

(** The copy is the source cut to [n] bytes, and it has a NUL within [n + 1]. *)
Lemma safestrcpy_loop_spec n m s t :
  s + Z.of_nat n < t ∨ t + Z.of_nat n ≤ s →
  cstr (S n) (safestrcpy_loop n m s t) s = cstr n m t ∧
  cstring (safestrcpy_loop n m s t) s (Z.of_nat (length (cstr n m t))).
Proof.
  revert m s t. induction n as [|n IH]; intros m s t Hov.
  - cbn [safestrcpy_loop cstr length]. rewrite upd_eq. simpl.
    split; [done|]. split; [done|]. rewrite Z.add_0_r, upd_eq. split; [done|lia].
  - assert (Hag : cstr n (upd m s (m t)) (t + 1) = cstr n m (t + 1)).
    { apply cstr_ext. intros x Hx. apply upd_ne. lia. }
    cbn [safestrcpy_loop]. cbn [cstr] in *. destruct (Z.eqb_spec (m t) 0) as [E|E].
    + rewrite upd_ne, upd_eq, E by lia. simpl. split; [done|].
      split; [done|]. rewrite Z.add_0_r, upd_ne, upd_eq by lia. split; [done|lia].
    + specialize (IH (upd m s (m t)) (s + 1) (t + 1) ltac:(lia)) as [IHe IHs].
      rewrite Hag in IHe, IHs.
      rewrite safestrcpy_loop_out, upd_eq by lia.
      destruct (Z.eqb_spec (m t) 0); [done|].
      split; [by rewrite IHe|].
      destruct IHs as (_ & Hnul & Hpre). cbn [length]. split; [lia|].
      replace (s + Z.of_nat (S (length (cstr n m (t + 1)))))
        with (s + 1 + Z.of_nat (length (cstr n m (t + 1)))) by lia.
      split; [done|]. intros i Hi. destruct (Z.eqb_spec i 0) as [->|].
      * rewrite Z.add_0_r, safestrcpy_loop_out, upd_eq by lia. done.
      * replace (s + i) with (s + 1 + (i - 1)) by lia. apply Hpre. lia.
Qed.

Lemma strlen_loop_spec fuel m s n len :
  cstring m s len → 0 ≤ n ≤ len → (Z.to_nat (len - n) < fuel)%nat →
  strlen_loop fuel m s n = Some len.
Proof.
  intros (Hlen & Hnul & Hpre) Hn. revert n Hn.
  induction fuel as [|fuel IH]; intros n Hn Hf; [lia|]. cbn [strlen_loop].
  destruct (Z.eqb_spec (m (s + n)) 0) as [E|E].
  - f_equal. destruct (Z.eqb_spec n len); [done|]. exfalso. apply (Hpre n); lia || done.
  - assert (n ≠ len) by congruence. apply IH; lia.
Qed.

Lemma strlen_total fuel m s len :
  cstring m s len → (Z.to_nat len < fuel)%nat → strlen fuel m s = Some len.
Proof. intros Hs Hf. apply strlen_loop_spec; [done| |]; destruct Hs; lia. Qed.

(** ** The routines' contracts *)

(** memmove copies the [n] source bytes as they were before the call to the
    destination, also when the regions overlap in either direction, and leaves
    every other byte alone; memcpy is the same routine. *)
Theorem memmove_correct m dst src n :
  0 ≤ n < 2 ^ 32 →
  (∀ i, 0 ≤ i < n → memmove m dst src n (dst + i) = m (src + i)) ∧
  (∀ x, ¬ (dst ≤ x < dst + n) → memmove m dst src n x = m x) ∧
  memcpy m dst src n = memmove m dst src n.
Proof.
  intros Hn. split_and!; [|by intros; apply memmove_out|done].
  intros i Hi. rewrite memmove_in by lia. f_equal. lia.
Qed.

Lemma memmove_correct_witness :
  0 ≤ 3 < 2 ^ 32 ∧ memmove (λ a, a) 11 10 3 12 = 11.
Proof.
  split; [lia|]. exact (proj1 (memmove_correct (λ a, a) 11 10 3 ltac:(lia)) 1 ltac:(lia)).
Defined.

(** the bounded string routines agree with each other: strncmp returns 0
    exactly when the two counted strings are equal, so after
    strncpy(s, t, n) into a separate buffer strncmp(s, t, n) is 0 (as dirlink()
    followed by dirlookup() needs), and strncpy writes only the [n] bytes of [s]. *)
Theorem strncpy_strncmp m s t n :
  0 ≤ n < 2 ^ 31 → s + n ≤ t ∨ t + n ≤ s →
  (∀ m p q, strncmp m p q n = 0 ↔ cstr (Z.to_nat n) m p = cstr (Z.to_nat n) m q) ∧
  strncmp (strncpy m s t n) s t n = 0 ∧
  (∀ x, ¬ (s ≤ x < s + n) → strncpy m s t n x = m x).
Proof.
  intros Hn Hov. unfold strncmp, strncpy. rewrite u32_small by lia.
  split_and!.
  - intros. apply strncmp_loop_zero.
  - apply strncmp_loop_zero. rewrite cstr_strncpy_loop by lia. symmetry.
    apply cstr_ext. intros x Hx. apply strncpy_loop_out. lia.
  - intros x Hx. apply strncpy_loop_out. lia.
Qed.

Definition str_mem : mem := λ a, if (100 <=? a) && (a <? 105) then 97 + (a - 100) else 0.

Lemma strncpy_strncmp_witness :
  0 ≤ 14 < 2 ^ 31 ∧ strncmp (strncpy str_mem 10 100 14) 10 100 14 = 0.
Proof.
  split; [lia|].
  exact (proj1 (proj2 (strncpy_strncmp str_mem 10 100 14 ltac:(lia) ltac:(lia)))).
Defined.

(** safestrcpy(s, t, n) into a separate buffer always leaves a NUL-terminated
    string within the [n] bytes of [s]: the source cut to [n - 1] bytes. strlen of
    the result is its length, and nothing outside the buffer changes. *)
Theorem safestrcpy_terminates m s t n :
  0 < n < 2 ^ 31 → s + n ≤ t ∨ t + n ≤ s →
  let src := cstr (Z.to_nat (n - 1)) m t in
  let m' := safestrcpy m s t n in
  cstr (Z.to_nat n) m' s = src ∧
  strlen (Z.to_nat n) m' s = Some (Z.of_nat (length src)) ∧
  Z.of_nat (length src) < n ∧
  (∀ x, ¬ (s ≤ x < s + n) → m' x = m x).
Proof.
  intros Hn Hov src m'.
  assert (Hl : ∀ k a, (length (cstr k m a) ≤ k)%nat).
  { induction k as [|k IH]; intros a; cbn [cstr]; [done|]. case_match; simpl; [lia|].
    specialize (IH (a + 1)). lia. }
  assert (m' = safestrcpy_loop (Z.to_nat (n - 1)) m s t) as Hm'.
  { unfold m', safestrcpy. zcmp; [lia|done]. }
  destruct (safestrcpy_loop_spec (Z.to_nat (n - 1)) m s t ltac:(lia)) as [He Hs].
  replace (S (Z.to_nat (n - 1))) with (Z.to_nat n) in He by lia.
  specialize (Hl (Z.to_nat (n - 1)) t). rewrite Hm'. split_and!.
  - done.
  - apply strlen_total; [done|]. unfold src. lia.
  - unfold src. lia.
  - intros x Hx. apply safestrcpy_loop_out. lia.
Qed.

Lemma safestrcpy_terminates_witness :
  0 < 4 < 2 ^ 31 ∧ cstr 4 (safestrcpy str_mem 10 100 4) 10 = [97; 98; 99].
Proof.
  split; [lia|].
  exact (proj1 (safestrcpy_terminates str_mem 10 100 4 ltac:(lia) ltac:(lia))).
Defined.
