(* ===== verification/Spinlock.v ===== *)
(** spinlock.c, with the interrupt-enable helpers of riscv.h: the spinlocks
    that every other component brackets its shared data with.

    [hart] is what one hart's code sees of itself: its [tp] register (its
    number), its [sstatus] register and the push_off() bookkeeping of its
    [struct cpu] (proc.h).  [acquire] and [release] run on the pair of the
    running hart and the lock; a contended acquire() is a [Wait], whose
    continuation is run at the moment the atomic swap returns 0.  The module
    [Harts] interleaves several harts at the granularity of the individual
    accesses to the lock word and the owner field. *)
From S2P Require Import Prelude Machine.

(** struct spinlock; the [cpu] pointer is the index in [cpus], if not null. *)
Record spinlock := mkSpinlock {
  locked : Z;
  lname : string;
  lcpu : option Z
}.

(** The running hart: registers, and its struct cpu's [noff] and [intena]. *)
Record hart := mkHart {
  tp : Z;
  sstatus : Z;
  noff : Z;
  intena : Z
}.

Definition SSTATUS_SIE : Z := Z.shiftl 1 1.

Definition set_sstatus (v : Z) (h : hart) : hart := mkHart (tp h) v (noff h) (intena h).
Definition set_noff (v : Z) (h : hart) : hart := mkHart (tp h) (sstatus h) v (intena h).
Definition set_intena (v : Z) (h : hart) : hart := mkHart (tp h) (sstatus h) (noff h) v.

(** riscv.h: intr_on(), intr_off(), intr_get() *)
Definition intr_on (h : hart) : hart := set_sstatus (Z.lor (sstatus h) SSTATUS_SIE) h.
Definition intr_off (h : hart) : hart :=
  set_sstatus (Z.land (sstatus h) (Z.lnot SSTATUS_SIE)) h.
Definition intr_get (h : hart) : bool := negb (Z.land (sstatus h) SSTATUS_SIE =? 0).

(** initlock() *)
Definition initlock (name : string) : spinlock := mkSpinlock 0 name None.

(** push_off() *)
Definition push_off (h : hart) : hart :=
  let old := intr_get h in
  let h := intr_off h in
  let h := if noff h =? 0 then set_intena (b2z old) h else h in
  set_noff (noff h + 1) h.

(** pop_off() *)
Definition pop_off : M hart unit := λ h,
  if intr_get h then Panic "pop_off - interruptible" h
  else if noff h <? 1 then Panic "pop_off" h
  else
    let h := set_noff (noff h - 1) h in
    Ret () (if (noff h =? 0) && negb (intena h =? 0) then intr_on h else h).

(** holding() *)
Definition holding (h : hart) (lk : spinlock) : bool :=
  negb (locked lk =? 0) && bool_decide (lcpu lk = Some (tp h)).

(** __sync_lock_test_and_set(&lk->locked, 1) that returned 0, then lk->cpu = mycpu() *)
Definition take_lock (h : hart) (lk : spinlock) : spinlock :=
  mkSpinlock 1 (lname lk) (Some (tp h)).

(** acquire() *)
Definition acquire : M (hart * spinlock) unit := λ '(h, lk),
  let h := push_off h in
  if holding h lk then Panic "acquire" (h, lk)
  else if locked lk =? 0 then Ret () (h, take_lock h lk)
  else Wait WSpin (h, lk) (λ '(h, lk),
         if locked lk =? 0 then Ret () (h, take_lock h lk) else NoFuel).

(** release() *)
Definition release : M (hart * spinlock) unit := λ '(h, lk),
  if negb (holding h lk) then Panic "release" (h, lk)
  else
    let lk := mkSpinlock (locked lk) (lname lk) None in
    let lk := mkSpinlock 0 (lname lk) (lcpu lk) in
    zoom fst (λ h '(_, lk), (h, lk)) pop_off (h, lk).

(** ** Sequential behaviour *)

(** The nesting count is not negative, and interrupts are off inside push_off(). *)
Definition hart_ok (h : hart) : Prop :=
  0 ≤ noff h ∧ (0 < noff h → intr_get h = false).

(** What a balanced push_off()/pop_off() pair leaves behind: at nesting depth 0
    the saved interrupt state, nothing else. *)
Definition settle (h : hart) : hart :=
  if noff h =? 0 then set_intena (b2z (intr_get h)) h else h.

Definition lock_free (lk : spinlock) : Prop := locked lk = 0 ∧ lcpu lk = None.
Definition lock_held (h : hart) (lk : spinlock) : Prop :=
  locked lk = 1 ∧ lcpu lk = Some (tp h).

Lemma SIE_bit x : Z.land x SSTATUS_SIE = if Z.testbit x 1 then 2 else 0.
Proof.
  change SSTATUS_SIE with (2 ^ 1). apply Z.bits_inj'. intros n Hn.
  rewrite Z.land_spec, Z.pow2_bits_eqb by lia.
  destruct (Z.eqb_spec 1 n) as [<-|].
  - destruct (Z.testbit x 1); done.
  - rewrite andb_false_r. destruct (Z.testbit x 1); [|by rewrite Z.bits_0].
    change 2 with (2 ^ 1). rewrite Z.pow2_bits_eqb by lia. by destruct (Z.eqb_spec 1 n).
Qed.

Lemma intr_get_bit h : intr_get h = Z.testbit (sstatus h) 1.
Proof. unfold intr_get. rewrite SIE_bit. by destruct (Z.testbit _ _). Qed.

Lemma intr_get_off h : intr_get (intr_off h) = false.
Proof.
  rewrite intr_get_bit. cbn [intr_off set_sstatus sstatus].
  rewrite Z.land_spec, Z.lnot_spec by lia. apply andb_false_r.
Qed.

Lemma intr_off_id h : intr_get h = false → intr_off h = h.
Proof.
  rewrite intr_get_bit. destruct h as [t s n i]. unfold intr_off, set_sstatus.
  cbn [sstatus tp noff intena]. intros Hb. f_equal. apply Z.bits_inj'. intros k Hk.
  rewrite Z.land_spec, Z.lnot_spec by lia. change SSTATUS_SIE with (2 ^ 1).
  rewrite Z.pow2_bits_eqb by lia. destruct (Z.eqb_spec 1 k) as [<-|].
  - by rewrite Hb.
  - apply andb_true_r.
Qed.

Lemma intr_on_off h : intr_get h = true → intr_on (intr_off h) = h.
Proof.
  rewrite intr_get_bit. destruct h as [t s n i]. unfold intr_on, intr_off, set_sstatus.
  cbn [sstatus tp noff intena]. intros Hb. f_equal. apply Z.bits_inj'. intros k Hk.
  rewrite Z.lor_spec, Z.land_spec, Z.lnot_spec by lia. change SSTATUS_SIE with (2 ^ 1).
  rewrite Z.pow2_bits_eqb by lia. destruct (Z.eqb_spec 1 k) as [<-|].
  - by rewrite Hb.
  - by rewrite orb_false_r, andb_true_r.
Qed.

Lemma tp_push_off h : tp (push_off h) = tp h.
Proof. unfold push_off. simpl. by case_match. Qed.

Lemma noff_push_off h : noff (push_off h) = noff h + 1.
Proof. unfold push_off. simpl. by case_match. Qed.

Lemma intr_get_push_off h : intr_get (push_off h) = false.
Proof.
  unfold push_off. simpl. rewrite intr_get_bit. pose proof (intr_get_off h) as E.
  rewrite intr_get_bit in E. by case_match.
Qed.

Lemma push_off_ok h : hart_ok h → hart_ok (push_off h).
Proof.
  intros [Hn _]. split; [rewrite noff_push_off; lia|]. intros _. apply intr_get_push_off.
Qed.

Lemma pop_push h : hart_ok h → pop_off (push_off h) = Ret () (settle h).
Proof.
  intros [Hn Hoff]. unfold pop_off. rewrite intr_get_push_off, noff_push_off.
  destruct (Z.ltb_spec (noff h + 1) 1); [lia|]. f_equal. unfold settle.
  unfold push_off at 1. simpl.
  destruct (Z.eqb_spec (noff h) 0) as [E|E].
  - unfold push_off. simpl. rewrite E. simpl.
    destruct (intr_get h) eqn:G; simpl.
    + pose proof (intr_on_off h G) as Hon. destruct h as [t s n i]. simpl in *.
      unfold intr_on, intr_off, set_noff, set_intena, set_sstatus in *. simpl in *.
      injection Hon as Hon. rewrite Hon. by subst n.
    + pose proof (intr_off_id h G) as Ho. destruct h as [t s n i]. simpl in *.
      unfold intr_off, set_noff, set_intena, set_sstatus in *. simpl in *.
      injection Ho as Ho. rewrite Ho. by subst n.
  - assert (G : intr_get h = false) by (apply Hoff; lia).
    unfold push_off. rewrite (intr_off_id _ G). destruct (Z.eqb_spec (noff h) 0) as [|_]; [done|].
    simpl. destruct (Z.eqb_spec (noff h + 1 - 1) 0) as [|_]; [lia|]. simpl.
    destruct h as [t s n i]. unfold set_noff. simpl in *. f_equal. lia.
Qed.

Lemma settle_ok h : hart_ok h → hart_ok (settle h).
Proof.
  intros [Hn Hoff]. unfold settle. destruct (Z.eqb_spec (noff h) 0) as [E|]; [|done].
  split; simpl; lia.
Qed.

Lemma settle_settle h : settle (settle h) = settle h.
Proof. unfold settle. destruct (Z.eqb_spec (noff h) 0) as [E|E]; simpl; by zcmp. Qed.

Lemma noff_settle h : noff (settle h) = noff h.
Proof. unfold settle. by destruct (noff h =? 0). Qed.

Lemma tp_settle h : tp (settle h) = tp h.
Proof. unfold settle. by case_match. Qed.

#[export] Hint Resolve push_off_ok settle_ok : kern.

Lemma acquire_free h lk :
  lock_free lk → acquire (h, lk) = Ret () (push_off h, take_lock (push_off h) lk).
Proof. intros [Hl Hc]. unfold acquire, holding. by rewrite Hl. Qed.

Lemma take_lock_held h lk : lock_held h (take_lock h lk).
Proof. done. Qed.

Lemma release_held h lk :
  hart_ok h → lock_held (push_off h) lk →
  release (push_off h, lk) = Ret () (settle h, mkSpinlock 0 (lname lk) None).
Proof.
  intros Hok [Hl Hc]. unfold release, holding. rewrite Hl, Hc.
  rewrite bool_decide_eq_true_2 by done. cbv beta iota zeta.
  unfold zoom. simpl fst. by rewrite (pop_push h Hok).
Qed.

(** ** Several harts on one lock

    Each hart runs acquire(), a critical section and release() over and over.
    A step is one access: the entry of acquire() with its holding() test, one
    turn of the test-and-set loop, the store of the owner, the holding() test of
    release(), the store that clears the owner, the store that clears the lock
    word, and pop_off(). *)
Module Harts.

Inductive pc : Type :=
| Idle | Spinning | Swapped | Critical | Clearing | Unlocking | Popping | Panicked.

Record sys := mkSys { lk : spinlock; harts : Z → hart * pc }.

Definition set_locked (v : Z) (l : spinlock) : spinlock := mkSpinlock v (lname l) (lcpu l).
Definition set_cpu (v : option Z) (l : spinlock) : spinlock :=
  mkSpinlock (locked l) (lname l) v.

(** pop_off() as a step of the hart that runs it. *)
Definition pop_result (h : hart) : hart * pc :=
  match pop_off h with
  | Ret _ h' => (h', Idle)
  | _ => (h, Panicked)
  end.

Inductive step (s : sys) : sys → Prop :=
| step_acquire i h :
    harts s i = (h, Idle) →
    let h' := push_off h in
    step s (mkSys (lk s) (upd (harts s) i
              (h', if holding h' (lk s) then Panicked else Spinning)))
| step_spin i h :
    harts s i = (h, Spinning) → locked (lk s) ≠ 0 → step s s
| step_swap i h :
    harts s i = (h, Spinning) → locked (lk s) = 0 →
    step s (mkSys (set_locked 1 (lk s)) (upd (harts s) i (h, Swapped)))
| step_own i h :
    harts s i = (h, Swapped) →
    step s (mkSys (set_cpu (Some (tp h)) (lk s)) (upd (harts s) i (h, Critical)))
| step_release i h :
    harts s i = (h, Critical) →
    step s (mkSys (lk s) (upd (harts s) i
              (h, if holding h (lk s) then Clearing else Panicked)))
| step_clear i h :
    harts s i = (h, Clearing) →
    step s (mkSys (set_cpu None (lk s)) (upd (harts s) i (h, Unlocking)))
| step_unlock i h :
    harts s i = (h, Unlocking) →
    step s (mkSys (set_locked 0 (lk s)) (upd (harts s) i (h, Popping)))
| step_pop i h :
    harts s i = (h, Popping) →
    step s (mkSys (lk s) (upd (harts s) i (pop_result h))).

Definition init (s : sys) : Prop :=
  (∃ name, lk s = initlock name) ∧
  ∀ i, hart_ok (harts s i).1 ∧ tp (harts s i).1 = i ∧ (harts s i).2 = Idle.

(** Taken by one hart without the others in between, the steps are acquire() and release(). *)
Lemma steps_acquire s i h h' l' : harts s i = (h, Idle) → acquire (h, lk s) = Ret () (h', l') →
  ∃ s', rtc step s s' ∧ lk s' = l' ∧ harts s' i = (h', Critical) ∧ ∀ j, j ≠ i → harts s' j = harts s j.
Proof.
  intros E Ha. unfold acquire in Ha. destruct (holding (push_off h) (lk s)) eqn:Eh; [done|].
  destruct (Z.eqb_spec (locked (lk s)) 0) as [E0|]; [|done]. injection Ha as <- <-. eexists. split; [|split; [|split]].
  - eapply rtc_l; [by apply (step_acquire s i h)|]. rewrite Eh. eapply rtc_l; [apply (step_swap _ i (push_off h)); [by cbn; rewrite upd_eq|done]|].
    eapply rtc_l; [apply (step_own _ i (push_off h)); by cbn; rewrite upd_eq|apply rtc_refl].
  - done.
  - cbn. by rewrite upd_eq.
  - intros j Hj. cbn. by rewrite !upd_ne.
Qed.

Lemma steps_release s i h h' l' : harts s i = (h, Critical) → release (h, lk s) = Ret () (h', l') →
  ∃ s', rtc step s s' ∧ lk s' = l' ∧ harts s' i = (h', Idle) ∧ ∀ j, j ≠ i → harts s' j = harts s j.
Proof.
  intros E Hr. unfold release in Hr. destruct (holding h (lk s)) eqn:Eh; [|done]. cbn [negb] in Hr. unfold zoom in Hr. cbn [fst] in Hr.
  destruct (pop_off h) as [[] h2|msg h2|why h2 k|] eqn:Ep; cbn [zoomo] in Hr; try done. injection Hr as <- <-. eexists. split; [|split; [|split]].
  - eapply rtc_l; [by apply (step_release s i h)|]. rewrite Eh. eapply rtc_l; [apply (step_clear _ i h); by cbn; rewrite upd_eq|].
    eapply rtc_l; [apply (step_unlock _ i h); by cbn; rewrite upd_eq|]. eapply rtc_l; [apply (step_pop _ i h); by cbn; rewrite upd_eq|apply rtc_refl].
  - done.
  - cbn. rewrite upd_eq. unfold pop_result. by rewrite Ep.
  - intros j Hj. cbn. by rewrite !upd_ne.
Qed.

(** The hart has swapped a 1 into the lock word and not yet stored the 0. *)
Definition owns (p : pc) : bool :=
  match p with Swapped | Critical | Clearing | Unlocking => true | _ => false end.

(** The owner field names the hart in this part of the code. *)
Definition named (p : pc) : bool :=
  match p with Critical | Clearing => true | _ => false end.

Definition hart_inv (i : Z) (hp : hart * pc) : Prop :=
  tp hp.1 = i ∧ hp.2 ≠ Panicked ∧
  match hp.2 with
  | Idle => hart_ok hp.1
  | _ => ∃ h0, hart_ok h0 ∧ hp.1 = push_off h0
  end.

Definition lock_inv (s : sys) : Prop :=
  (locked (lk s) = 0 ∧ lcpu (lk s) = None ∧ ∀ i, owns (harts s i).2 = false) ∨
  (locked (lk s) = 1 ∧
   ∃ o, owns (harts s o).2 = true ∧
        (∀ i, owns (harts s i).2 = true → i = o) ∧
        lcpu (lk s) = if named (harts s o).2 then Some o else None).

Definition inv (s : sys) : Prop := (∀ i, hart_inv i (harts s i)) ∧ lock_inv s.

Lemma hart_inv_upd s i hp :
  (∀ j, hart_inv j (harts s j)) → hart_inv i hp → ∀ j, hart_inv j (upd (harts s) i hp j).
Proof. intros H Hi j. unfold upd. destruct (Z.eqb_spec j i) as [->|]; auto. Qed.

(** Only the owner is named, so holding() is false in a hart that has not
    taken the lock and true in the one that runs its critical section. *)
Lemma holding_owner s i h p :
  inv s → harts s i = (h, p) → holding h (lk s) = named p.
Proof.
  intros [Hh Hl] E. destruct (Hh i) as (Htp & _). rewrite E in Htp. simpl in Htp.
  unfold holding. destruct Hl as [(-> & _ & Hno)|(-> & o & Ho & Huniq & ->)]; simpl.
  - specialize (Hno i). rewrite E in Hno. by destruct p.
  - destruct (named (harts s o).2) eqn:Hn.
    + case_bool_decide as Hd.
      * injection Hd as ->. rewrite Htp in *. rewrite E in Hn. by simpl in Hn.
      * destruct p; try done; simpl in *; destruct Hd; rewrite Htp; f_equal; symmetry;
          apply Huniq; by rewrite E.
    + destruct p; try done; simpl;
        rewrite <- (Huniq i) in Hn by (by rewrite E); by rewrite E in Hn.
Qed.

(** Moving one hart between positions that own the lock or not alike, and
    named alike, keeps the lock invariant. *)
Lemma lock_inv_move s i h p h' p' :
  lock_inv s → harts s i = (h, p) → owns p' = owns p → named p' = named p →
  lock_inv (mkSys (lk s) (upd (harts s) i (h', p'))).
Proof.
  intros Hl E Ho Hn.
  assert (Hs : ∀ j, owns (upd (harts s) i (h', p') j).2 = owns (harts s j).2 ∧
                    named (upd (harts s) i (h', p') j).2 = named (harts s j).2).
  { intros j. unfold upd. destruct (Z.eqb_spec j i) as [->|]; [|done]. by rewrite E. }
  destruct Hl as [(H0 & Hc & Hno)|(H1 & o & Hown & Huniq & Hc)].
  - left. split_and!; [done..|]. intros j. simpl. by rewrite (proj1 (Hs j)).
  - right. split; [done|]. exists o. simpl. destruct (Hs o) as [-> ->].
    split_and!; [done| |done]. intros j. rewrite (proj1 (Hs j)). apply Huniq.
Qed.

Lemma owner_unique s i h p :
  inv s → harts s i = (h, p) → owns p = true →
  locked (lk s) = 1 ∧ (∀ j, owns (harts s j).2 = true → j = i) ∧
  lcpu (lk s) = if named p then Some i else None.
Proof.
  intros [_ Hl] E Hp. destruct Hl as [(_ & _ & Hno)|(H1 & o & Hown & Huniq & Hc)].
  - specialize (Hno i). rewrite E in Hno. simpl in Hno. congruence.
  - assert (i = o) as <- by (apply Huniq; by rewrite E). by rewrite E in Hc.
Qed.

Lemma pop_result_inv i h :
  tp h = i → (∃ h0, hart_ok h0 ∧ h = push_off h0) → hart_inv i (pop_result h).
Proof.
  intros Htp (h0 & Hok & ->). unfold pop_result. rewrite (pop_push h0 Hok).
  split_and!; simpl; [|done|auto with kern]. by rewrite tp_settle, <- Htp, tp_push_off.
Qed.

Lemma inv_init s : init s → inv s.
Proof.
  intros [[name Hlk] Hh]. split.
  - intros i. destruct (Hh i) as (Hok & Htp & Hpc). unfold hart_inv. by rewrite Hpc.
  - left. rewrite Hlk. split_and!; [done..|]. intros i. destruct (Hh i) as (_ & _ & ->). done.
Qed.

Lemma inv_step s s' : inv s → step s s' → inv s'.
Proof.
  intros Hinv Hst. pose proof Hinv as [Hh Hl].
  destruct Hst as [i h E h'|i h E Hl1|i h E Hl0|i h E|i h E|i h E|i h E|i h E];
    pose proof (Hh i) as Hi; rewrite E in Hi; destruct Hi as (Htp & _ & Hi);
    simpl in Htp, Hi.
  - assert (Hhold : holding h' (lk s) = false).
    { pose proof (holding_owner s i h Idle Hinv E) as Hf.
      unfold holding, h' in *. by rewrite tp_push_off. }
    rewrite Hhold. split; simpl.
    + apply hart_inv_upd; [done|]. split_and!; cbn [fst snd]; [|done|by exists h].
      unfold h'. by rewrite tp_push_off.
    + by eapply lock_inv_move.
  - done.
  - split; simpl; [by apply hart_inv_upd|]. right. split; [done|]. exists i. simpl.
    rewrite upd_eq. split_and!; [done| |].
    + intros j. unfold upd. destruct (Z.eqb_spec j i); [done|].
      destruct Hl as [(_ & _ & Hno)|(Hone & _)]; [|lia]. by rewrite Hno.
    + destruct Hl as [(_ & Hc & _)|(Hone & _)]; [done|lia].
  - destruct (owner_unique s i h _ Hinv E eq_refl) as (H1 & Huniq & Hc).
    split; simpl; [by apply hart_inv_upd|]. right. split; [done|]. exists i. simpl.
    rewrite upd_eq. split_and!; [done| |by rewrite Htp].
    intros j. unfold upd. destruct (Z.eqb_spec j i); [done|]. apply Huniq.
  - rewrite (holding_owner s i h Critical Hinv E). split; simpl; [by apply hart_inv_upd|].
    by eapply lock_inv_move.
  - destruct (owner_unique s i h _ Hinv E eq_refl) as (H1 & Huniq & Hc).
    split; simpl; [by apply hart_inv_upd|]. right. split; [done|]. exists i. simpl.
    rewrite upd_eq. split_and!; [done| |done].
    intros j. unfold upd. destruct (Z.eqb_spec j i); [done|]. apply Huniq.
  - destruct (owner_unique s i h _ Hinv E eq_refl) as (H1 & Huniq & Hc).
    split; simpl; [by apply hart_inv_upd|]. left. split_and!; [done..|].
    intros j. simpl. unfold upd. destruct (Z.eqb_spec j i) as [->|Hne]; [done|].
    destruct (owns (harts s j).2) eqn:Ho; [|done]. by apply Huniq in Ho.
  - split; simpl; [apply hart_inv_upd; [done|by apply pop_result_inv]|].
    destruct Hi as (h0 & Hok & ->). unfold pop_result. rewrite (pop_push h0 Hok).
    by eapply lock_inv_move.
Qed.

Lemma inv_reachable s0 s : init s0 → rtc step s0 s → inv s.
Proof.
  intros Hi Hr. apply inv_init in Hi. induction Hr; [done|]. eauto using inv_step.
Qed.

(** C29: mutual exclusion. In every state reachable from harts that are idle and a
    lock set up by initlock(), two harts that are past the atomic swap of
    acquire() and not past the store of release() are the same hart; that hart
    has interrupts off; and no hart has panicked in acquire(), release() or
    pop_off(). *)
Theorem mutual_exclusion s0 s :
  init s0 → rtc step s0 s →
  (∀ i j, owns (harts s i).2 = true → owns (harts s j).2 = true → i = j) ∧
  (∀ i, owns (harts s i).2 = true → intr_get (harts s i).1 = false) ∧
  (∀ i, (harts s i).2 ≠ Panicked).
Proof.
  intros Hi Hr. pose proof (inv_reachable _ _ Hi Hr) as Hinv. split_and!.
  - intros i j Hoi Hoj. destruct (harts s i) as [h p] eqn:E.
    destruct (owner_unique s i h p Hinv E Hoi) as (_ & Huniq & _). symmetry. auto.
  - intros i Ho. destruct Hinv as [Hh _]. destruct (Hh i) as (_ & _ & Hm).
    destruct (harts s i) as [h p]. simpl in *.
    destruct p; try done; destruct Hm as (h0 & _ & ->); apply intr_get_push_off.
  - intros i. by destruct Hinv as [Hh _]; destruct (Hh i) as (_ & ? & _).
Qed.

Definition sys0 : sys := mkSys (initlock "kmem") (λ i, (mkHart i 2 0 0, Idle)).

Lemma mutual_exclusion_witness :
  init sys0 ∧ ∃ s, rtc step sys0 s ∧ (harts s 0).2 = Swapped ∧ (harts s 1).2 = Spinning ∧
    ∀ i j, owns (harts s i).2 = true → owns (harts s j).2 = true → i = j.
Proof.
  assert (Hi : init sys0).
  { split; [by eexists|]. intros i. by split_and!. }
  split; [done|].
  assert (Hr : ∃ s, rtc step sys0 s ∧ (harts s 0).2 = Swapped ∧ (harts s 1).2 = Spinning).
  { eexists. split.
    - eapply rtc_l; [by apply (step_acquire _ 0)|].
      eapply rtc_l; [by apply (step_acquire _ 1)|].
      eapply rtc_l; [by apply (step_swap _ 0)|]. apply rtc_refl.
    - by vm_compute. }
  destruct Hr as (s & Hr & H0 & H1). exists s. split_and!; [done..|].
  exact (proj1 (mutual_exclusion sys0 s Hi Hr)).
Defined.
End Harts.

(** acquire() on a free lock followed by release() returns without panicking,
    leaves the lock free and gives the hart back its interrupt state and nesting
    depth, at every nesting depth; a second acquire() by the same hart panics. *)
Theorem acquire_release h lk :
  hart_ok h → lock_free lk →
  ∃ h1 lk1, acquire (h, lk) = Ret () (h1, lk1) ∧ lock_held h1 lk1 ∧ intr_get h1 = false ∧
    release (h1, lk1) = Ret () (settle h, lk) ∧
    intr_get (settle h) = intr_get h ∧ noff (settle h) = noff h ∧
    ∃ s, acquire (h1, lk1) = Panic "acquire" s.
Proof.
  intros Hok Hfree. exists (push_off h), (take_lock (push_off h) lk).
  split_and!.
  - by apply acquire_free.
  - apply take_lock_held.
  - apply intr_get_push_off.
  - rewrite release_held; [|done|apply take_lock_held].
    destruct lk, Hfree; simpl in *. by subst.
  - unfold settle. by case_match.
  - unfold settle. by case_match.
  - eexists. unfold acquire, holding. cbn [locked take_lock lcpu].
    rewrite !tp_push_off, bool_decide_eq_true_2 by reflexivity. reflexivity.
Qed.

Lemma acquire_release_witness :
  hart_ok (mkHart 3 2 0 0) ∧ lock_free (initlock "x") ∧
  ∃ h1 lk1, acquire (mkHart 3 2 0 0, initlock "x") = Ret () (h1, lk1) ∧
            release (h1, lk1) = Ret () (mkHart 3 2 0 1, initlock "x").
Proof.
  assert (H1 : hart_ok (mkHart 3 2 0 0)) by (split; simpl; lia).
  assert (H2 : lock_free (initlock "x")) by done.
  split_and!; [done..|].
  destruct (acquire_release _ _ H1 H2) as (h1 & lk1 & Ha & _ & _ & Hr & _).
  by exists h1, lk1.
Defined.
