(* ===== verification/Kalloc.v ===== *)
(** kalloc.c: the physical page allocator, a free list threaded through the
    free pages themselves.

    [pmem] is the state the memory subsystem works on: the running hart, the
    lock and head pointer of [kmem], and physical memory.  [r->next] is the first
    eight bytes of the page at [r].  [end_], the first address after the kernel,
    is set by the linker script. *)
From stdpp Require Import gmap.
From S2P Require Import Prelude Machine CString Spinlock.

(** Addresses the linker chooses (kernel.ld). *)
Class Symbols := {
  end_ : Z;
  etext : Z;
  trampoline : Z
}.

(** kernel.ld puts everything above KERNBASE, the trampoline page in the text, the
    end of the text on a page boundary, and [end] after all of them. *)
Class SymbolsOk `{Symbols} : Prop := {
  tramp_lo : KERNBASE ≤ trampoline;
  tramp_aligned : trampoline mod PGSIZE = 0;
  tramp_etext : trampoline + PGSIZE ≤ etext;
  etext_aligned : etext mod PGSIZE = 0;
  etext_end : etext ≤ end_;
  end_physTOP : end_ ≤ PHYSTOP
}.

Record pmem := mkPmem {
  pm_hart : hart;
  kmem_lock : spinlock;
  freelist : Z;
  pm_mem : mem
}.

Definition set_freelist (v : Z) (s : pmem) : pmem :=
  mkPmem (pm_hart s) (kmem_lock s) v (pm_mem s).
Definition set_mem (m : mem) (s : pmem) : pmem :=
  mkPmem (pm_hart s) (kmem_lock s) (freelist s) m.

(** acquire(&kmem.lock), release(&kmem.lock) *)
Definition with_kmem {A} (m : M (hart * spinlock) A) : M pmem A :=
  zoom (λ s, (pm_hart s, kmem_lock s)) (λ '(h, lk) s, mkPmem h lk (freelist s) (pm_mem s)) m.

Definition read64 (a : Z) : M pmem Z := gets (λ s, load64 (pm_mem s) a).
Definition write64 (a v : Z) : M pmem unit := modify (λ s, set_mem (store64 (pm_mem s) a v) s).
Definition do_memset (dst c n : Z) : M pmem unit :=
  modify (λ s, set_mem (memset (pm_mem s) dst c n) s).
Definition do_memmove (dst src n : Z) : M pmem unit :=
  modify (λ s, set_mem (memmove (pm_mem s) dst src n) s).

Section kalloc.
Context `{Symbols}.

(** kfree() *)
Definition kfree (pa : Z) : M pmem unit :=
  if negb (pa mod PGSIZE =? 0) || (pa <? end_) || (PHYSTOP <=? pa) then panic "kfree"
  else
    do_memset pa 1 PGSIZE;;
    let r := pa in
    with_kmem acquire;;
    fl ← gets freelist;
    write64 r fl;;
    modify (set_freelist r);;
    with_kmem release.

(** kalloc() *)
Definition kalloc : M pmem Z :=
  with_kmem acquire;;
  r ← gets freelist;
  (if negb (r =? 0) then next ← read64 r; modify (set_freelist next) else mret ());;
  with_kmem release;;
  (if negb (r =? 0) then do_memset r 5 PGSIZE else mret ());;
  mret r.

(** freerange(): the loop from [p], with [fuel] turns. *)
Fixpoint freerange_loop (fuel : nat) (p pa_end : Z) : M pmem unit :=
  if p + PGSIZE <=? pa_end then
    match fuel with
    | O => no_fuel
    | S fuel => kfree p;; freerange_loop fuel (p + PGSIZE) pa_end
    end
  else mret ().

Definition freerange (pa_start pa_end : Z) : M pmem unit :=
  let p := PGROUNDUP pa_start in
  freerange_loop (Z.to_nat ((pa_end - p) / PGSIZE)) p pa_end.

(** kinit() *)
Definition kinit : M pmem unit :=
  modify (λ s, mkPmem (pm_hart s) (initlock "kmem") (freelist s) (pm_mem s));;
  freerange end_ PHYSTOP.
End kalloc.

(** ** The invariant of the free list *)

(** [l] is the chain of pages that starts at [head]. *)
Fixpoint free_list (m : mem) (head : Z) (l : list Z) : Prop :=
  match l with
  | [] => head = 0
  | p :: l => head = p ∧ free_list m (load64 m p) l
  end.

(** A page the allocator may hand out. *)
Definition page_ok `{Symbols} (p : Z) : Prop :=
  p mod PGSIZE = 0 ∧ end_ ≤ p ∧ p + PGSIZE ≤ PHYSTOP ∧ 0 < p.

Record kinv `{Symbols} (s : pmem) (l : list Z) : Prop := {
  ki_hart : hart_ok (pm_hart s);
  ki_lock : lock_free (kmem_lock s);
  ki_mem : mem_ok (pm_mem s);
  ki_list : free_list (pm_mem s) (freelist s) l;
  ki_pages : Forall page_ok l;
  ki_nodup : NoDup l
}.

(** Memory is unchanged except in the page at [p]. *)
Definition only_page (p : Z) (m m' : mem) : Prop :=
  ∀ x, ¬ (p ≤ x < p + PGSIZE) → m' x = m x.

(** Two distinct page-aligned pages are disjoint. *)
Lemma pages_disjoint p q :
  p mod PGSIZE = 0 → q mod PGSIZE = 0 → p ≠ q → p + PGSIZE ≤ q ∨ q + PGSIZE ≤ p.
Proof. unfold PGSIZE. intros. zdm. Qed.

Lemma only_page_memset p c m : only_page p m (memset m p c PGSIZE).
Proof. intros x Hx. by apply memset_out. Qed.

Lemma only_page_store64 p a v m :
  p ≤ a → a + 8 ≤ p + PGSIZE → only_page p m (store64 m a v).
Proof. intros H1 H2 x Hx. apply store_out. lia. Qed.

Lemma only_page_trans p m1 m2 m3 : only_page p m1 m2 → only_page p m2 m3 → only_page p m1 m3.
Proof. intros H1 H2 x Hx. rewrite H2, H1 by done. done. Qed.

Lemma only_page_load64 p m m' a :
  only_page p m m' → a + 8 ≤ p ∨ p + PGSIZE ≤ a → load64 m' a = load64 m a.
Proof. intros Ho Ha. apply load_ext. intros x Hx. apply Ho. lia. Qed.

#[export] Hint Resolve only_page_memset only_page_trans : kern.

Lemma free_list_ext m m' head l :
  (∀ p, p ∈ l → load64 m' p = load64 m p) → free_list m head l → free_list m' head l.
Proof.
  revert head. induction l as [|p l IH]; intros head Hag Hl; [done|].
  destruct Hl as [-> Hl]. split; [done|]. rewrite Hag by left.
  apply IH; [|done]. intros q Hq. apply Hag. by right.
Qed.

(** Memory of a page that is not in the list may change freely. *)
Lemma free_list_only_page `{Symbols} m m' head l p :
  only_page p m m' → p mod PGSIZE = 0 → p ∉ l → Forall page_ok l →
  free_list m head l → free_list m' head l.
Proof.
  intros Ho Hp Hnin Hpg. apply free_list_ext. intros q Hq.
  eapply only_page_load64; [done|].
  rewrite Forall_forall in Hpg. destruct (Hpg q Hq) as (Hq0 & _).
  destruct (pages_disjoint p q) as [?|?]; try done; [congruence|right|left]; unfold PGSIZE in *; lia.
Qed.

Section kalloc_specs.
Context `{Symbols}.

Lemma with_kmem_acquire s :
  lock_free (kmem_lock s) →
  with_kmem acquire s =
  Ret () (mkPmem (push_off (pm_hart s)) (take_lock (push_off (pm_hart s)) (kmem_lock s))
                 (freelist s) (pm_mem s)).
Proof. intros Hf. unfold with_kmem, zoom. by rewrite acquire_free. Qed.

Lemma with_kmem_release h lk fl m :
  hart_ok h → lock_free lk →
  with_kmem release (mkPmem (push_off h) (take_lock (push_off h) lk) fl m) =
  Ret () (mkPmem (settle h) lk fl m).
Proof.
  intros Hok [Hl Hc]. unfold with_kmem, zoom. cbn [pm_hart kmem_lock].
  rewrite release_held; [|done|apply take_lock_held]. destruct lk. simpl in *. by subst.
Qed.

(** kalloc() as a function of the state. *)
Lemma kalloc_eq s :
  hart_ok (pm_hart s) → lock_free (kmem_lock s) →
  kalloc s =
  let r := freelist s in
  if r =? 0 then Ret 0 (mkPmem (settle (pm_hart s)) (kmem_lock s) r (pm_mem s))
  else Ret r (mkPmem (settle (pm_hart s)) (kmem_lock s) (load64 (pm_mem s) r)
                     (memset (pm_mem s) r 5 PGSIZE)).
Proof.
  intros Hok Hfree. unfold kalloc, read64, do_memset, set_freelist, set_mem. m_unfold.
  rewrite with_kmem_acquire by done. cbn [obind freelist].
  destruct (Z.eqb_spec (freelist s) 0) as [E|E]; cbn [negb obind pm_hart kmem_lock freelist pm_mem].
  - rewrite with_kmem_release by done. cbn [obind]. by rewrite E.
  - by rewrite with_kmem_release.
Qed.

Lemma kfree_eq s pa :
  hart_ok (pm_hart s) → lock_free (kmem_lock s) → page_ok pa →
  kfree pa s =
  Ret () (mkPmem (settle (pm_hart s)) (kmem_lock s) pa
                 (store64 (memset (pm_mem s) pa 1 PGSIZE) pa (freelist s))).
Proof.
  intros Hok Hfree (Hal & Hlo & Hhi & _). unfold kfree.
  rewrite Hal. destruct (Z.ltb_spec pa end_); [lia|].
  destruct (Z.leb_spec PHYSTOP pa); [unfold PGSIZE in *; lia|]. cbn [negb orb Z.eqb].
  unfold do_memset, write64, set_freelist, set_mem. m_unfold.
  rewrite with_kmem_acquire by done. cbn [obind freelist pm_hart kmem_lock pm_mem].
  by rewrite with_kmem_release.
Qed.

Lemma kinv_alloc s p l :
  kinv s (p :: l) →
  kinv (mkPmem (settle (pm_hart s)) (kmem_lock s) (load64 (pm_mem s) p)
               (memset (pm_mem s) p 5 PGSIZE)) l.
Proof.
  intros [Hh Hlk Hm [_ Hl] Hpg Hnd]. apply Forall_cons in Hpg as [Hp Hpg].
  apply NoDup_cons in Hnd as [Hnin Hnd].
  split; simpl; auto with kern.
  eapply (free_list_only_page (pm_mem s)); eauto using only_page_memset. apply Hp.
Qed.

Lemma kinv_free s p l :
  kinv s l → page_ok p → p ∉ l → 0 ≤ freelist s < 2 ^ 64 →
  kinv (mkPmem (settle (pm_hart s)) (kmem_lock s) p
               (store64 (memset (pm_mem s) p 1 PGSIZE) p (freelist s))) (p :: l).
Proof.
  intros [Hh Hlk Hm Hl Hpg Hnd] Hp Hnin Hfl.
  split; simpl; auto with kern.
  - unfold store64. auto with kern.
  - split; [done|]. rewrite load64_store64_eq by done.
    eapply (free_list_only_page (pm_mem s) _ _ l p); [|apply Hp|done..].
    eapply only_page_trans; [apply only_page_memset|].
    apply only_page_store64; unfold PGSIZE; lia.
  - constructor; done.
Qed.

Lemma freelist_range s l : kinv s l → 0 ≤ freelist s < 2 ^ 64.
Proof.
  intros [_ _ Hm Hl Hpg _]. destruct l as [|p l]; simpl in Hl; [lia|].
  destruct Hl as [-> _]. apply Forall_cons in Hpg as [(_ & _ & Hhi & Hlo) _].
  unfold PHYSTOP, KERNBASE, PGSIZE in *. lia.
Qed.

Lemma freelist_nonzero s p l : kinv s (p :: l) → freelist s = p ∧ p ≠ 0.
Proof.
  intros [_ _ _ [Hf _] Hpg _]. apply Forall_cons in Hpg as [(_ & _ & _ & Hlo) _]. lia.
Qed.

(** The state after kalloc() and kfree(), apart from memory and the list. *)
Definition same_locks (s s' : pmem) : Prop :=
  pm_hart s' = settle (pm_hart s) ∧ kmem_lock s' = kmem_lock s.

Lemma wp_kalloc s l (Q : Z → pmem → Prop) :
  kinv s l →
  (l = [] → ∀ s', kinv s' [] → pm_mem s' = pm_mem s → Q 0 s') →
  (∀ p l' s', l = p :: l' → kinv s' l' → page_ok p → p ∉ l' →
     only_page p (pm_mem s) (pm_mem s') → Q p s') →
  wp kalloc Q s.
Proof.
  intros Hk H0 H1. pose proof Hk as [Hh Hlk Hm Hl Hpg Hnd].
  unfold wp. rewrite kalloc_eq by done. cbv zeta. destruct l as [|p l].
  - simpl in Hl. rewrite Hl. simpl. apply H0; [done| |done].
    split; simpl; auto with kern.
  - destruct (freelist_nonzero _ _ _ Hk) as [Hf Hp0]. rewrite Hf.
    destruct (Z.eqb_spec p 0); [done|].
    apply NoDup_cons in Hnd as [Hnin Hnd]. apply Forall_cons in Hpg as [Hp _].
    apply (H1 p l); [done|by apply kinv_alloc|done..|apply only_page_memset].
Qed.

Lemma wp_kfree s l p (Q : unit → pmem → Prop) :
  kinv s l → page_ok p → p ∉ l →
  (∀ s', kinv s' (p :: l) → only_page p (pm_mem s) (pm_mem s') → Q () s') →
  wp (kfree p) Q s.
Proof.
  intros Hk Hp Hnin HQ. pose proof Hk as [Hh Hlk Hm Hl Hpg Hnd].
  unfold wp. rewrite kfree_eq by done. apply HQ.
  - apply kinv_free; eauto using freelist_range.
  - simpl. eapply only_page_trans; [apply only_page_memset|].
    apply only_page_store64; unfold PGSIZE; lia.
Qed.
End kalloc_specs.

(** ** Booting the allocator *)

(** [k] consecutive pages from [p]. *)
Fixpoint page_range (k : nat) (p : Z) : list Z :=
  match k with
  | O => []
  | S k => p :: page_range k (p + PGSIZE)
  end.

Lemma elem_of_page_range k p q :
  q ∈ page_range k p ↔ ∃ i, 0 ≤ i < Z.of_nat k ∧ q = p + i * PGSIZE.
Proof.
  revert p. induction k as [|k IH]; intros p; cbn [page_range].
  - rewrite elem_of_nil. split; [done|]. intros (i & Hi & _). lia.
  - rewrite elem_of_cons, IH. unfold PGSIZE. split.
    + intros [->|(i & Hi & ->)]; [exists 0; lia|exists (i + 1); lia].
    + intros (i & Hi & ->). destruct (Z.eqb_spec i 0) as [->|]; [left; lia|].
      right. exists (i - 1). lia.
Qed.

Section boot.
Context `{Symbols}.

Lemma wp_freerange_loop fuel s l p pa_end (Q : unit → pmem → Prop) :
  kinv s l → p mod PGSIZE = 0 → end_ ≤ p → 0 < p → pa_end ≤ PHYSTOP →
  fuel = Z.to_nat ((pa_end - p) / PGSIZE) → Forall (λ q, q < p) l →
  (∀ s', kinv s' (rev (page_range fuel p) ++ l) → Q () s') →
  wp (freerange_loop fuel p pa_end) Q s.
Proof.
  revert s l p. induction fuel as [|fuel IH]; intros s l p Hk Hal Hlo Hp0 Hhi Hf Hlt HQ;
    cbn [freerange_loop page_range rev].
  - destruct (Z.leb_spec (p + PGSIZE) pa_end) as [Hc|Hc].
    + unfold PGSIZE in *. zdm.
    + apply wp_ret. by apply HQ.
  - destruct (Z.leb_spec (p + PGSIZE) pa_end) as [Hc|Hc].
    2: { exfalso. unfold PGSIZE in *. zdm. }
    apply wp_bind. eapply wp_kfree; [done| | |].
    + unfold page_ok. split_and!; lia || done.
    + intros Hin. rewrite Forall_forall in Hlt. specialize (Hlt p Hin). lia.
    + intros s' Hk' _. eapply IH; [done|..|].
      * unfold PGSIZE in *. zdm.
      * unfold PGSIZE. lia.
      * unfold PGSIZE. lia.
      * done.
      * unfold PGSIZE in *. zdm.
      * constructor; [unfold PGSIZE; lia|].
        eapply Forall_impl; [done|]. simpl. unfold PGSIZE. lia.
      * intros s'' Hk''. apply HQ. cbn [page_range rev]. by rewrite <- app_assoc.
Qed.

Definition boot_pages : list Z :=
  let p := PGROUNDUP end_ in rev (page_range (Z.to_nat ((PHYSTOP - p) / PGSIZE)) p).

(** The kernel's data before kinit() runs: the list head is in zeroed bss. *)
Definition boot_state (s : pmem) : Prop :=
  hart_ok (pm_hart s) ∧ mem_ok (pm_mem s) ∧ freelist s = 0.

Lemma wp_kinit s (Q : unit → pmem → Prop) :
  0 < end_ ≤ PHYSTOP → boot_state s →
  (∀ s', kinv s' boot_pages → Q () s') → wp kinit Q s.
Proof.
  intros Hend (Hh & Hm & Hfl) HQ. unfold kinit, freerange. wp_steps.
  destruct (PGROUNDUP_bounds end_) as [Hb Hmod];
    [unfold PHYSTOP, KERNBASE, PGSIZE in *; lia..|].
  eapply (wp_freerange_loop _ _ []); try done; [|lia|lia|].
  - split; simpl; try done; constructor.
  - intros s' Hk. rewrite app_nil_r in Hk. by apply HQ.
Qed.
End boot.

(** ** Refinement to an abstract allocator

    The contract of the component: a set of free pages; allocation takes any
    member, and fails only when there is none. *)
Module AllocSpec.
Inductive alloc : gset Z → Z → gset Z → Prop :=
| alloc_page F p : p ∈ F → p ≠ 0 → alloc F p (F ∖ {[p]})
| alloc_none : alloc ∅ 0 ∅.

Inductive free : gset Z → Z → gset Z → Prop :=
| free_page F p : p ∉ F → free F p ({[p]} ∪ F).
End AllocSpec.

(** kalloc() and kfree() refine the abstract allocator. Under the free-list
    invariant kalloc() returns (it neither panics nor blocks), it returns 0 only if
    no page is free, and otherwise removes exactly the returned page from the free
    set; kfree() of an allocatable page that is not free returns and adds exactly
    that page; both keep the invariant and write to no other page. *)
Theorem kalloc_refines `{Symbols} s l :
  kinv s l →
  (∃ r s' l', kalloc s = Ret r s' ∧ kinv s' l' ∧
     AllocSpec.alloc (list_to_set l) r (list_to_set l') ∧ only_page r (pm_mem s) (pm_mem s')) ∧
  (∀ p, page_ok p → p ∉ l →
     ∃ s' l', kfree p s = Ret () s' ∧ kinv s' l' ∧
     AllocSpec.free (list_to_set l) p (list_to_set l') ∧ only_page p (pm_mem s) (pm_mem s')).
Proof.
  intros Hk. split.
  - assert (Hwp : wp kalloc (λ r s', ∃ l', kinv s' l' ∧
              AllocSpec.alloc (list_to_set l) r (list_to_set l') ∧
              only_page r (pm_mem s) (pm_mem s')) s).
    { eapply wp_kalloc; [done|..].
      - intros -> s' Hk' Hm. exists []. split_and!; [done|apply AllocSpec.alloc_none|]. intros x _. by rewrite Hm.
      - intros p l' s' -> Hk' Hp Hnin Ho. exists l'. split_and!; [done| |done].
        replace (list_to_set l' : gset Z) with (list_to_set (p :: l') ∖ {[p]} : gset Z) by set_solver.
        constructor; [set_solver|]. destruct Hp as (_ & _ & _ & ?). lia. }
    apply wp_elim in Hwp as (r & s' & E & l' & ?). by exists r, s', l'.
  - intros p Hp Hnin.
    assert (Hwp : wp (kfree p) (λ _ s', kinv s' (p :: l) ∧ only_page p (pm_mem s) (pm_mem s')) s)
      by (eapply wp_kfree; eauto).
    apply wp_elim in Hwp as ([] & s' & E & Hk' & Ho). exists s', (p :: l).
    split_and!; [done..| |done]. rewrite list_to_set_cons. constructor. set_solver.
Qed.

(** ** Use of the allocator

    A client owns the pages that kalloc() gave it and frees only those. *)
Section clients.
Context `{Symbols}.

Inductive use : pmem * gset Z → pmem * gset Z → Prop :=
| use_alloc s O r s' :
    kalloc s = Ret r s' → use (s, O) (s', if r =? 0 then O else {[r]} ∪ O)
| use_free s O p s' :
    p ∈ O → kfree p s = Ret () s' → use (s, O) (s', O ∖ {[p]}).

(** The free pages and the owned ones partition the pages [U] found at boot. *)
Definition partition (U : list Z) (c : pmem * gset Z) : Prop :=
  ∃ l, kinv c.1 l ∧ (∀ p, p ∈ U ↔ p ∈ l ∨ p ∈ c.2) ∧ (∀ p, p ∈ l → p ∉ c.2) ∧
       (∀ p, p ∈ c.2 → page_ok p).

Lemma partition_use U c c' : partition U c → use c c' → partition U c'.
Proof.
  intros (l & Hk & HU & Hd & Ho) Hst. destruct Hst as [s O r s' E|s O p s' Hin E]; simpl in *.
  - assert (Hwp : wp kalloc (λ r s', partition U (s', if r =? 0 then O else {[r]} ∪ O)) s).
    { eapply wp_kalloc; [done|..].
      - intros -> s1 Hk1 _. simpl. by exists [].
      - intros p l' s1 -> Hk1 Hp Hnin _.
        assert (p ≠ 0) by (destruct Hp as (_ & _ & _ & ?); lia).
        destruct (Z.eqb_spec p 0); [done|]. exists l'. split_and!; simpl; [done|..].
        + intros q. rewrite HU. set_solver.
        + intros q Hq. rewrite elem_of_union, elem_of_singleton.
          intros [->|Hq']; [done|]. apply (Hd q); [by right|done].
        + intros q. rewrite elem_of_union, elem_of_singleton. intros [->|?]; auto. }
    unfold wp in Hwp. by rewrite E in Hwp.
  - assert (Hwp : wp (kfree p) (λ _ s', partition U (s', O ∖ {[p]})) s).
    { eapply wp_kfree; [done|auto|intros Hl; by apply (Hd p)|].
      intros s1 Hk1 _. exists (p :: l). split_and!; simpl; [done|..].
      - intros q. rewrite HU, elem_of_cons, elem_of_difference, elem_of_singleton.
        destruct (decide (q = p)) as [->|]; naive_solver.
      - intros q. rewrite elem_of_cons, elem_of_difference, elem_of_singleton.
        intros [->|Hq]; [naive_solver|]. intros [? _]. by apply (Hd q).
      - intros q [Hq _]%elem_of_difference. auto. }
    unfold wp in Hwp. by rewrite E in Hwp.
Qed.

Lemma partition_rtc U c c' : partition U c → rtc use c c' → partition U c'.
Proof. intros Hp Hr. induction Hr; eauto using partition_use. Qed.

(** C4: from boot on, whatever clients do, no page is handed out twice and none is
    lost. kinit() returns with every whole page between [end] and PHYSTOP free;
    after any sequence of kalloc() calls and kfree() calls on owned pages, the
    next kalloc() returns a page no client owns, or 0 exactly when the clients own
    every page, and kfree() of an owned page returns without panicking. *)
Theorem allocator_no_overlap s s0 c :
  0 < end_ ≤ PHYSTOP → boot_state s → kinit s = Ret () s0 → rtc use (s0, ∅) c →
  (∃ r s', kalloc c.1 = Ret r s' ∧ (r ∉ c.2) ∧
     (r ≠ 0 → r ∈ boot_pages ∧ page_ok r) ∧ (r = 0 ↔ (∀ p, p ∈ boot_pages → p ∈ c.2))) ∧
  (∀ p, p ∈ c.2 → ∃ s', kfree p c.1 = Ret () s').
Proof.
  intros Hend Hb E Hr.
  assert (Hp : partition boot_pages (s0, ∅)).
  { assert (Hwp : wp kinit (λ _ s', kinv s' boot_pages) s) by (apply wp_kinit; auto).
    unfold wp in Hwp. rewrite E in Hwp. exists boot_pages. split_and!; set_solver. }
  destruct (partition_rtc _ _ _ Hp Hr) as (l & Hk & HU & Hd & Ho). split.
  - pose proof (ki_pages _ _ Hk) as Hpg. rewrite Forall_forall in Hpg.
    assert (Hz : 0 ∉ c.2) by (intros Hin; destruct (Ho 0 Hin) as (_ & _ & _ & ?); lia).
    apply (wp_elim kalloc (λ r _, (r ∉ c.2) ∧ (r ≠ 0 → r ∈ boot_pages ∧ page_ok r) ∧
                             (r = 0 ↔ (∀ p, p ∈ boot_pages → p ∈ c.2)))).
    eapply wp_kalloc; [done|..].
    + intros -> s' _ _. split_and!; [done|done|]. split; [|done]. intros _ p.
      rewrite HU. set_solver.
    + intros p l' s' -> _ Hpk _ _. split_and!; [apply Hd; left| |].
      * intros _. split; [|done]. rewrite HU. left. left.
      * destruct Hpk as (_ & _ & _ & Hpos). split; [lia|]. intros Hall.
        exfalso. apply (Hd p); [left|]. apply Hall, HU. left. left.
  - intros p Hin. assert (Hwp : wp (kfree p) (λ _ _, True) c.1).
    { eapply wp_kfree; [done|auto| |done]. intros Hl. by apply (Hd p). }
    apply wp_elim in Hwp as ([] & s' & ? & _). eauto.
Qed.
End clients.

(** A machine with three whole free pages above the kernel. *)
Definition syms3 : Symbols :=
  {| end_ := PHYSTOP - 3 * PGSIZE - 10; etext := KERNBASE + 0x8000; trampoline := KERNBASE + 0x7000 |}.
Definition pmem3 : pmem := mkPmem (mkHart 0 2 0 0) (initlock "") 0 (λ _, 0).

Lemma pmem3_boot : boot_state pmem3.
Proof. by split_and!. Qed.

Lemma allocator_no_overlap_witness :
  ∃ s0 r s1, @kinit syms3 pmem3 = Ret () s0 ∧ kalloc s0 = Ret r s1 ∧
             r ∈ @boot_pages syms3.
Proof.
  destruct (wp_elim (@kinit syms3) (λ _ s', @kinv syms3 s' (@boot_pages syms3)) pmem3)
    as ([] & s0 & E & _).
  { apply (@wp_kinit syms3); [vm_compute; split; congruence|apply pmem3_boot|done]. }
  destruct (@allocator_no_overlap syms3 pmem3 s0 (s0, ∅) ltac:(vm_compute; split; congruence)
              pmem3_boot E (rtc_refl _ _)) as [(r & s1 & Ea & Hn & Hin & Hz) _].
  exists s0, r, s1. split; [assumption|]. split; [assumption|]. apply Hin. intros ->.
  assert (H : (PHYSTOP - PGSIZE ∈ (∅ : gset Z))).
  { apply Hz; [done|]. vm_compute. left. }
  exact (not_elem_of_empty _ H).
Defined.

Lemma kalloc_refines_witness :
  ∃ s l, @kinv syms3 s l ∧ l = @boot_pages syms3 ∧
  ∃ r s' l', kalloc s = Ret r s' ∧
    AllocSpec.alloc (list_to_set l) r (list_to_set l').
Proof.
  destruct (wp_elim (@kinit syms3) (λ _ s', @kinv syms3 s' (@boot_pages syms3)) pmem3)
    as ([] & s0 & E & Hk).
  { apply (@wp_kinit syms3); [vm_compute; split; congruence|apply pmem3_boot|done]. }
  exists s0, (@boot_pages syms3). split; [assumption|]. split; [reflexivity|].
  destruct (@kalloc_refines syms3 s0 _ Hk) as [(r & s' & l' & ? & _ & ? & _) _].
  exists r, s', l'. split; assumption.
Defined.
