(* ===== verification/PageTable.v ===== *)
(** Sv39 page tables in physical memory, as a tree of pages.

    This file has no code of its own: it is the vocabulary in which Vm.v states
    what walk(), mappages(), uvmunmap() and the others do.  [node m root path]
    is the page-table page reached from [root] by following valid entries at the
    indices of [path]; [pview m root va] is the leaf entry for [va], 0 when the
    table has no page for it; [pt_wf] says that the pages of the tree are
    page-aligned RAM pages, all different. *)
From S2P Require Import Prelude Machine CString Spinlock Kalloc.

(** (pte & PTE_V) != 0 *)
Definition pte_v (v : Z) : bool := negb (Z.land v PTE_V =? 0).

(** The page that entry [i] of the page-table page at [p] points to. *)
Definition child (m : mem) (p i : Z) : option Z :=
  let v := load64 m (p + 8 * i) in if pte_v v then Some (PTE2PA v) else None.

Fixpoint node (m : mem) (p : Z) (path : list Z) : option Z :=
  match path with
  | [] => Some p
  | i :: path => match child m p i with Some q => node m q path | None => None end
  end.

Definition path_ok (path : list Z) : Prop :=
  Forall (λ i, 0 ≤ i < 512) path ∧ (length path ≤ 2)%nat.

(** The leaf entry for [va], and the address it is stored at. *)
Definition leaf (m : mem) (root va : Z) : option Z :=
  match node m root [PX 2 va; PX 1 va] with
  | Some p => Some (p + 8 * PX 0 va)
  | None => None
  end.

Definition pview (m : mem) (root va : Z) : Z :=
  match leaf m root va with Some a => load64 m a | None => 0 end.

Record pt_wf `{Symbols} (m : mem) (root : Z) : Prop := {
  wf_page : ∀ path p, path_ok path → node m root path = Some p → page_ok p;
  wf_inj : ∀ path1 path2 p, path_ok path1 → path_ok path2 →
    node m root path1 = Some p → node m root path2 = Some p → path1 = path2
}.

(** [p] is a page of the tree. *)
Definition in_tree (m : mem) (root p : Z) : Prop :=
  ∃ path, path_ok path ∧ node m root path = Some p.

(** [va] and [vb] lie in the same page. *)
Definition same_page (va vb : Z) : bool := va / PGSIZE =? vb / PGSIZE.

(** ** Entries *)
Lemma pte_v_odd v : pte_v v = Z.odd v.
Proof.
  unfold pte_v. change PTE_V with (2 ^ 1 - 1). rewrite land_ones_mod by lia.
  change (2 ^ 1) with 2. rewrite Zmod_odd. by destruct (Z.odd v).
Qed.

Lemma pte_v_lor v : pte_v (Z.lor v PTE_V) = true.
Proof. rewrite pte_v_odd. rewrite <- Z.bit0_odd, Z.lor_spec. apply orb_true_r. Qed.

Lemma path_ok_nil : path_ok [].
Proof. split; [constructor|simpl; lia]. Qed.

Lemma path_ok_1 i : 0 ≤ i < 512 → path_ok [i].
Proof. split; [by rewrite ?Forall_cons, Forall_nil|simpl; lia]. Qed.

Lemma path_ok_2 i j : 0 ≤ i < 512 → 0 ≤ j < 512 → path_ok [i; j].
Proof. split; [by rewrite ?Forall_cons, Forall_nil|simpl; lia]. Qed.

Lemma path_ok_PX1 va : path_ok [PX 2 va].
Proof. apply path_ok_1, PX_range. Qed.

Lemma path_ok_PX va : path_ok [PX 2 va; PX 1 va].
Proof. apply path_ok_2; apply PX_range. Qed.

#[export] Hint Resolve path_ok_nil path_ok_1 path_ok_2 path_ok_PX1 path_ok_PX PX_range : kern.

Lemma node_app m p path1 path2 :
  node m p (path1 ++ path2) =
  match node m p path1 with Some q => node m q path2 | None => None end.
Proof. revert p. induction path1 as [|i path1 IH]; intros p; simpl; [done|]. by case_match. Qed.

Lemma child_ext m m' p i : load64 m' (p + 8 * i) = load64 m (p + 8 * i) → child m' p i = child m p i.
Proof. unfold child. by intros ->. Qed.

(** An access to an entry stays in its page. *)
Lemma entry_disjoint p q i j :
  p mod PGSIZE = 0 → q mod PGSIZE = 0 → 0 ≤ i < 512 → 0 ≤ j < 512 → (p, i) ≠ (q, j) →
  p + 8 * i + 8 ≤ q + 8 * j ∨ q + 8 * j + 8 ≤ p + 8 * i.
Proof.
  intros Hp Hq Hi Hj Hne. destruct (Z.eqb_spec p q) as [->|Hpq].
  - assert (i ≠ j) by congruence. lia.
  - destruct (pages_disjoint p q) as [?|?]; try done; unfold PGSIZE in *; lia.
Qed.

Lemma entry_in_page p i : 0 ≤ i < 512 → p ≤ p + 8 * i ∧ p + 8 * i + 8 ≤ p + PGSIZE.
Proof. unfold PGSIZE. lia. Qed.

Lemma load64_only_page q m m' p i :
  only_page q m m' → p mod PGSIZE = 0 → q mod PGSIZE = 0 → p ≠ q → 0 ≤ i < 512 →
  load64 m' (p + 8 * i) = load64 m (p + 8 * i).
Proof.
  intros Ho Hp Hq Hne Hi. eapply only_page_load64; [done|].
  destruct (pages_disjoint p q) as [?|?]; try done; unfold PGSIZE in *; lia.
Qed.

Section pt.
Context `{Symbols}.

Lemma wf_root m root : pt_wf m root → page_ok root.
Proof. intros Hwf. apply (wf_page _ _ Hwf []); auto with kern. Qed.

(** The tree depends only on the entries of the root and of the level-1 pages. *)
Lemma node_ext m m' root path :
  (∀ i, 0 ≤ i < 512 → child m' root i = child m root i) →
  (∀ i p j, 0 ≤ i < 512 → 0 ≤ j < 512 → child m root i = Some p → child m' p j = child m p j) →
  path_ok path → node m' root path = node m root path.
Proof.
  intros Hr H1 [Hf Hlen]. destruct path as [|i [|j [|? ?]]]; simpl in *; [done|..|lia].
  - apply Forall_cons in Hf as [Hi _]. by rewrite Hr.
  - apply Forall_cons in Hf as [Hi Hf]. apply Forall_cons in Hf as [Hj _].
    rewrite Hr by done. destruct (child m root i) as [p|] eqn:E; [|done].
    by rewrite (H1 i p j).
Qed.

Lemma pt_wf_ext m m' root :
  (∀ path, path_ok path → node m' root path = node m root path) → pt_wf m root → pt_wf m' root.
Proof.
  intros Hn [Hp Hi]. split.
  - intros path p Hok. rewrite Hn by done. by apply Hp.
  - intros p1 p2 p Hok1 Hok2. rewrite !Hn by done. by apply Hi.
Qed.

(** Changes outside the tree do not matter. *)
Lemma node_frame m m' root path :
  pt_wf m root →
  (∀ p, in_tree m root p → agree m' m p PGSIZE) →
  path_ok path → node m' root path = node m root path.
Proof.
  intros Hwf Hag. apply node_ext.
  - intros i Hi. apply child_ext, load_ext. intros x Hx. apply (Hag root).
    + exists []. auto with kern.
    + pose proof (entry_in_page root i Hi). lia.
  - intros i p j Hi Hj E. apply child_ext, load_ext. intros x Hx. apply (Hag p).
    + exists [i]. simpl. rewrite E. auto with kern.
    + pose proof (entry_in_page p j Hj). lia.
Qed.

Lemma pview_frame m m' root va :
  pt_wf m root →
  (∀ p, in_tree m root p → agree m' m p PGSIZE) → pview m' root va = pview m root va.
Proof.
  intros Hwf Hag. unfold pview, leaf. rewrite (node_frame m m') by auto with kern.
  destruct (node m root _) as [p|] eqn:E; [|done].
  apply load_ext. intros x Hx. apply (Hag p).
  - exists [PX 2 va; PX 1 va]. auto with kern.
  - pose proof (entry_in_page p (PX 0 va) (PX_range 0 va)). lia.
Qed.

(** ** Storing a leaf entry *)
Section store_leaf.
Context (m : mem) (root va p0 v : Z).
Context (Hwf : pt_wf m root).
Context (Hn : node m root [PX 2 va; PX 1 va] = Some p0).

Let m' := store64 m (p0 + 8 * PX 0 va) v.

Lemma leaf_page_ok : page_ok p0.
Proof. apply (wf_page _ _ Hwf _ _ (path_ok_PX va) Hn). Qed.

Lemma store_leaf_load p i :
  p mod PGSIZE = 0 → 0 ≤ i < 512 → (p, i) ≠ (p0, PX 0 va) →
  load64 m' (p + 8 * i) = load64 m (p + 8 * i).
Proof.
  intros Hp Hi Hne. apply load64_store64_ne. destruct leaf_page_ok as (Hp0 & _).
  apply entry_disjoint; auto with kern.
Qed.

Lemma store_leaf_child p i path :
  path_ok path → node m root path = Some p → path ≠ [PX 2 va; PX 1 va] → 0 ≤ i < 512 →
  child m' p i = child m p i.
Proof.
  intros Hok Hp Hne Hi. apply child_ext. apply store_leaf_load; [|done|].
  - by apply (wf_page _ _ Hwf path).
  - intros [= -> _]. apply Hne. eapply (wf_inj _ _ Hwf); eauto with kern.
Qed.

Lemma store_leaf_node path : path_ok path → node m' root path = node m root path.
Proof.
  apply node_ext.
  - intros i Hi. by apply (store_leaf_child root i []); auto with kern.
  - intros i p j Hi Hj E. apply (store_leaf_child p j [i]); auto with kern; try done.
    simpl. by rewrite E.
Qed.

Lemma store_leaf_wf : pt_wf m' root.
Proof. eapply pt_wf_ext; [|done]. apply store_leaf_node. Qed.

Lemma store_leaf_pview vb :
  0 ≤ va < MAXVA → 0 ≤ vb < MAXVA → 0 ≤ v < 2 ^ 64 →
  pview m' root vb = if same_page va vb then v else pview m root vb.
Proof.
  intros Hva Hvb Hv. unfold pview, leaf. rewrite store_leaf_node by auto with kern.
  unfold same_page. destruct (Z.eqb_spec (va / PGSIZE) (vb / PGSIZE)) as [E|E].
  - assert (Hpx : ∀ l, 0 ≤ l → PX l va = PX l vb).
    { intros l Hl. rewrite <- (PX_page l va), <- (PX_page l vb) by done.
      rewrite !PGROUNDDOWN_eq. f_equal. unfold PGSIZE in *. zdm. }
    rewrite <- !Hpx by lia. rewrite Hn. by apply load64_store64_eq.
  - destruct (node m root [PX 2 vb; PX 1 vb]) as [q|] eqn:Hq; [|done].
    apply store_leaf_load; [|apply PX_range|].
    + by apply (wf_page _ _ Hwf _ _ (path_ok_PX vb) Hq).
    + intros [= -> H0]. apply E.
      pose proof (wf_inj _ _ Hwf _ _ _ (path_ok_PX va) (path_ok_PX vb) Hn Hq) as Epath.
      apply PX_inj; done || congruence.
Qed.
End store_leaf.

(** ** Linking a fresh, zeroed page into the tree *)
Section link.
Context (m m1 : mem) (root p k pg : Z) (path : list Z).
Context (Hwf : pt_wf m root) (Hpath : path_ok path) (Hlen : (length path < 2)%nat).
Context (Hp : node m root path = Some p) (Hk : 0 ≤ k < 512) (Hnone : child m p k = None).
Context (Hpg : page_ok pg) (Hfresh : ¬ in_tree m root pg).
Context (Honly : only_page pg m m1).
Context (Hzero : ∀ i, 0 ≤ i < 512 → load64 m1 (pg + 8 * i) = 0).

Let v := Z.lor (PA2PTE pg) PTE_V.
Let m' := store64 m1 (p + 8 * k) v.

Lemma link_v : 0 ≤ v < 2 ^ 64 ∧ pte_v v = true ∧ PTE2PA v = pg.
Proof.
  destruct Hpg as (Hal & Hlo & Hhi & Hpos).
  assert (0 ≤ pg < 2 ^ 56) by (unfold PHYSTOP, KERNBASE, PGSIZE in *; lia).
  unfold v. split; [|split].
  - change PTE_V with 1. rewrite mk_pte_eq by lia. zdm.
  - apply pte_v_lor.
  - by apply PTE2PA_mk_pte.
Qed.

Lemma link_load q i path' :
  path_ok path' → node m root path' = Some q → 0 ≤ i < 512 → (q, i) ≠ (p, k) →
  load64 m' (q + 8 * i) = load64 m (q + 8 * i).
Proof.
  intros Hok Hq Hi Hne.
  assert (Hqp : page_ok q) by by apply (wf_page _ _ Hwf path').
  assert (Hpp : page_ok p) by by apply (wf_page _ _ Hwf path).
  unfold m'. rewrite load64_store64_ne.
  - apply (load64_only_page pg); [done|apply Hqp|apply Hpg| |done].
    intros ->. apply Hfresh. by exists path'.
  - apply entry_disjoint; [apply Hqp|apply Hpp|done..].
Qed.

Lemma link_child_new : child m' p k = Some pg.
Proof.
  destruct link_v as (Hv & Hvv & Hpa). unfold child, m'. rewrite load64_store64_eq by done.
  by rewrite Hvv, Hpa.
Qed.

Lemma link_pg_load i : 0 ≤ i < 512 → load64 m' (pg + 8 * i) = 0.
Proof.
  intros Hi. unfold m'. rewrite load64_store64_ne; [by apply Hzero|].
  apply entry_disjoint; [apply Hpg| |done|done|].
  - by apply (wf_page _ _ Hwf path).
  - intros [= -> _]. apply Hfresh. by exists path.
Qed.

Lemma link_child_pg i : 0 ≤ i < 512 → child m' pg i = None.
Proof. intros Hi. unfold child. by rewrite link_pg_load. Qed.

Lemma link_child_old q i path' :
  path_ok path' → node m root path' = Some q → 0 ≤ i < 512 → (path', i) ≠ (path, k) →
  child m' q i = child m q i.
Proof.
  intros Hok Hq Hi Hne. apply child_ext. eapply link_load; eauto.
  intros [= -> ->]. apply Hne. f_equal. eapply (wf_inj _ _ Hwf); eauto.
Qed.

(** The new page is at [path ++ [k]]; below it there is nothing; the rest of
    the tree is as before. *)
Lemma link_node path' :
  path_ok path' →
  node m' root path' =
  if decide (path' = path ++ [k]) then Some pg else node m root path'.
Proof.
  intros Hok. pose proof Hok as [Hf Hl].
  pose proof link_child_new as Hnew. pose proof link_child_pg as Hpgc.
  pose proof link_child_old as Hold. pose proof Hp as Hp'. pose proof Hnone as Hnone'.
  pose proof Hlen as Hlen'. clearbody m'. clear Hwf Hpath Hlen Hp Hnone Hfresh.
  assert (Hr : ∀ i, 0 ≤ i < 512 → path ≠ [] ∨ i ≠ k → child m' root i = child m root i).
  { intros i Hi Hor. apply (Hold root i []); auto with kern.
    intros [= <- ->]. destruct Hor; done. }
  destruct path' as [|i [|j [|? ?]]]; simpl in Hl; [..|lia].
  - rewrite decide_False; [done|]. by destruct path.
  - apply Forall_cons in Hf as [Hi _]. case_decide as E.
    + destruct path as [|? [|? ?]]; simplify_eq/=. by rewrite Hnew.
    + simpl. rewrite Hr; [done..|].
      destruct path; [right; intros ->; by destruct E|by left].
  - apply Forall_cons in Hf as [Hi Hf]. apply Forall_cons in Hf as [Hj _]. case_decide as E.
    + destruct path as [|a [|? ?]]; simpl in E; [done| |simpl in Hlen'; lia].
      injection E as <- <-. simpl in Hp' |- *.
      rewrite Hr by (done || by left). destruct (child m root i) as [q|] eqn:Eq; [|done].
      injection Hp' as ->. by rewrite Hnew.
    + simpl. destruct (decide (path = [] ∧ i = k)) as [[-> ->]|Hne].
      * simpl in Hp'. injection Hp' as <-. rewrite Hnew, Hnone'.
        by rewrite Hpgc.
      * rewrite Hr; [|done|].
        2: { destruct path; [right; intros ->; by apply Hne|by left]. }
        destruct (child m root i) as [q|] eqn:Eq; [|done].
        rewrite (Hold q j [i]); auto with kern.
        -- simpl. by rewrite Eq.
        -- intros [= <- ->]. by apply E.
Qed.

Lemma link_path_ok : path_ok (path ++ [k]).
Proof.
  destruct Hpath as [Hf Hl]. split.
  - apply Forall_app. split; [done|by rewrite Forall_cons, Forall_nil].
  - rewrite length_app. simpl. lia.
Qed.

Lemma link_old_none : node m root (path ++ [k]) = None.
Proof. rewrite node_app, Hp. simpl. by rewrite Hnone. Qed.

Lemma link_wf : pt_wf m' root.
Proof.
  split.
  - intros path' q Hok. rewrite link_node by done. case_decide; [by intros [= <-]|].
    by apply (wf_page _ _ Hwf).
  - intros path1 path2 q Hok1 Hok2. rewrite !link_node by done.
    repeat case_decide; intros E1 E2; simplify_eq; [done| | |].
    + exfalso. apply Hfresh. by exists path2.
    + exfalso. apply Hfresh. by exists path1.
    + by eapply (wf_inj _ _ Hwf).
Qed.

Lemma link_in_tree q : in_tree m' root q ↔ q = pg ∨ in_tree m root q.
Proof.
  split.
  - intros (path' & Hok & Hq). rewrite link_node in Hq by done.
    case_decide; [left; congruence|right; by exists path'].
  - intros [->|(path' & Hok & Hq)].
    + exists (path ++ [k]). split; [apply link_path_ok|].
      rewrite link_node by apply link_path_ok. by rewrite decide_True.
    + exists path'. split; [done|]. rewrite link_node by done. case_decide as E; [|done].
      subst. by rewrite link_old_none in Hq.
Qed.

Lemma link_pview va : pview m' root va = pview m root va.
Proof.
  unfold pview, leaf. rewrite link_node by auto with kern. case_decide as E.
  - rewrite E, link_old_none. apply link_pg_load. apply PX_range.
  - destruct (node m root [PX 2 va; PX 1 va]) as [q|] eqn:Hq; [|done].
    eapply link_load; [apply path_ok_PX|done|apply PX_range|].
    intros [= -> Hk'].
    assert (Ep : [PX 2 va; PX 1 va] = path)
      by (eapply (wf_inj _ _ Hwf); eauto with kern).
    rewrite <- Ep in Hlen. simpl in Hlen. lia.
Qed.
End link.
End pt.
