(* ===== verification/Vm.v ===== *)
(** vm.c: page tables and user memory.

    The definitions follow the C line by line on [pmem] (the hart, the page
    allocator and physical memory); pointers are physical addresses, a null
    pointer is 0, and kernel buffers are ranges of physical memory (the kernel
    direct-maps RAM).  Loops take the number of turns they can make as fuel; the
    theorems show that the fuel the definitions pass is enough. *)
From S2P Require Import Prelude Machine CString Spinlock Kalloc PageTable.

Definition read8 (a : Z) : M pmem Z := gets (λ s, pm_mem s a).
Definition write8 (a v : Z) : M pmem unit := modify (λ s, set_mem (upd (pm_mem s) a (u8 v)) s).

(** walk(): the loop over levels 2 and 1, then the address of the level-0 entry. *)
Fixpoint walk_loop (level : nat) (pagetable va : Z) (alloc : bool) : M pmem Z :=
  match level with
  | O => mret (pagetable + 8 * PX 0 va)
  | S l =>
    let pte := pagetable + 8 * PX (Z.of_nat level) va in
    v ← read64 pte;
    if pte_v v then walk_loop l (PTE2PA v) va alloc
    else if negb alloc then mret 0
    else
      pg ← kalloc;
      if pg =? 0 then mret 0
      else
        do_memset pg 0 PGSIZE;;
        write64 pte (Z.lor (PA2PTE pg) PTE_V);;
        walk_loop l pg va alloc
  end.

Definition walk (pagetable va : Z) (alloc : bool) : M pmem Z :=
  if MAXVA <=? va then panic "walk" else walk_loop 2 pagetable va alloc.

(** walkaddr() *)
Definition walkaddr (pagetable va : Z) : M pmem Z :=
  if MAXVA <=? va then mret 0
  else
    pte ← walk pagetable va false;
    if pte =? 0 then mret 0
    else
      v ← read64 pte;
      if Z.land v PTE_V =? 0 then mret 0
      else if Z.land v PTE_U =? 0 then mret 0
      else mret (PTE2PA v).

(** mappages(): the loop; 0 on success, -1 when walk() cannot allocate. *)
Fixpoint mappages_loop (fuel : nat) (pagetable a last pa perm : Z) : M pmem Z :=
  match fuel with
  | O => no_fuel
  | S fuel =>
    pte ← walk pagetable a true;
    if pte =? 0 then mret (-1)
    else
      v ← read64 pte;
      if negb (Z.land v PTE_V =? 0) then panic "remap"
      else
        write64 pte (Z.lor (Z.lor (PA2PTE pa) perm) PTE_V);;
        if a =? last then mret 0
        else mappages_loop fuel pagetable (u64 (a + PGSIZE)) last (u64 (pa + PGSIZE)) perm
  end.

(** The turns until [a == last]; if [last] is behind, until walk() panics. *)
Definition mappages_fuel (a last : Z) : nat :=
  Z.to_nat (if a <=? last then (last - a) / PGSIZE + 1 else (MAXVA - a) / PGSIZE + 1).

Definition mappages (pagetable va size pa perm : Z) : M pmem Z :=
  let a := PGROUNDDOWN va in
  let last := PGROUNDDOWN (u64 (va + size - 1)) in
  mappages_loop (mappages_fuel a last) pagetable a last pa perm.

Section vm.
Context `{Symbols}.

(** uvmunmap() *)
Fixpoint uvmunmap_loop (fuel : nat) (pagetable a limit : Z) (do_free : bool) : M pmem unit :=
  if a <? limit then
    match fuel with
    | O => no_fuel
    | S fuel =>
      pte ← walk pagetable a false;
      if pte =? 0 then panic "uvmunmap: walk"
      else
        v ← read64 pte;
        if Z.land v PTE_V =? 0 then panic "uvmunmap: not mapped"
        else if PTE_FLAGS v =? PTE_V then panic "uvmunmap: not a leaf"
        else
          when_ do_free (kfree (PTE2PA v));;
          write64 pte 0;;
          uvmunmap_loop fuel pagetable (u64 (a + PGSIZE)) limit do_free
    end
  else mret ().

Definition uvmunmap (pagetable va npages : Z) (do_free : bool) : M pmem unit :=
  if negb (va mod PGSIZE =? 0) then panic "uvmunmap: not aligned"
  else
    uvmunmap_loop (Z.to_nat npages) pagetable va (u64 (va + u64 (npages * PGSIZE))) do_free.

(** uvmcreate() *)
Definition uvmcreate : M pmem Z :=
  pagetable ← kalloc;
  if pagetable =? 0 then mret 0
  else do_memset pagetable 0 PGSIZE;; mret pagetable.

(** uvminit() *)
Definition uvminit (pagetable src sz : Z) : M pmem unit :=
  if PGSIZE <=? sz then panic "inituvm: more than a page"
  else
    page ← kalloc;
    do_memset page 0 PGSIZE;;
    mappages pagetable 0 PGSIZE page (Z.lor (Z.lor (Z.lor PTE_W PTE_R) PTE_X) PTE_U);;
    do_memmove page src sz.

(** uvmdealloc(); [npages] is a C int. *)
Definition uvmdealloc (pagetable oldsz newsz : Z) : M pmem Z :=
  if oldsz <=? newsz then mret oldsz
  else
    when_ (PGROUNDUP newsz <? PGROUNDUP oldsz)
      (let npages := s32 ((PGROUNDUP oldsz - PGROUNDUP newsz) / PGSIZE) in
       uvmunmap pagetable (PGROUNDUP newsz) (u64 npages) true);;
    mret newsz.

(** uvmalloc() *)
Fixpoint uvmalloc_loop (fuel : nat) (pagetable oldsz a newsz : Z) : M pmem Z :=
  if a <? newsz then
    match fuel with
    | O => no_fuel
    | S fuel =>
      page ← kalloc;
      if page =? 0 then uvmdealloc pagetable a oldsz;; mret 0
      else
        do_memset page 0 PGSIZE;;
        r ← mappages pagetable a PGSIZE page (Z.lor (Z.lor (Z.lor PTE_W PTE_X) PTE_R) PTE_U);
        if negb (r =? 0) then kfree page;; uvmdealloc pagetable a oldsz;; mret 0
        else uvmalloc_loop fuel pagetable oldsz (u64 (a + PGSIZE)) newsz
    end
  else mret newsz.

Definition uvmalloc (pagetable oldsz newsz : Z) : M pmem Z :=
  if newsz <? oldsz then mret oldsz
  else
    let oldsz := PGROUNDUP oldsz in
    uvmalloc_loop (Z.to_nat ((newsz - oldsz) / PGSIZE + 1)) pagetable oldsz oldsz newsz.

(** freewalk(): [rec] frees a lower-level table; [k] entries are left from [i]. *)
Fixpoint freewalk_loop (rec : Z → M pmem unit) (k : nat) (pagetable i : Z) : M pmem unit :=
  match k with
  | O => mret ()
  | S k =>
    pte ← read64 (pagetable + 8 * i);
    (if pte_v pte && (Z.land pte (Z.lor (Z.lor PTE_R PTE_W) PTE_X) =? 0) then
       rec (PTE2PA pte);; write64 (pagetable + 8 * i) 0
     else if pte_v pte then panic "freewalk: leaf"
     else mret ());;
    freewalk_loop rec k pagetable (i + 1)
  end.

Fixpoint freewalk (fuel : nat) (pagetable : Z) : M pmem unit :=
  match fuel with
  | O => no_fuel
  | S fuel => freewalk_loop (freewalk fuel) 512 pagetable 0;; kfree pagetable
  end.

(** uvmfree(); a page table has three levels. *)
Definition uvmfree (pagetable sz : Z) : M pmem unit :=
  when_ (0 <? sz) (uvmunmap pagetable 0 (PGROUNDUP sz / PGSIZE) true);;
  freewalk 3 pagetable.

(** uvmcopy() *)
Definition uvmcopy_err (new i : Z) : M pmem Z :=
  uvmunmap new 0 (i / PGSIZE) true;; mret (-1).

Fixpoint uvmcopy_loop (fuel : nat) (old new i sz : Z) : M pmem Z :=
  if i <? sz then
    match fuel with
    | O => no_fuel
    | S fuel =>
      pte ← walk old i false;
      if pte =? 0 then panic "uvmcopy: pte should exist"
      else
        v ← read64 pte;
        if Z.land v PTE_V =? 0 then panic "uvmcopy: page not present"
        else
          let pa := PTE2PA v in
          let flags := PTE_FLAGS v in
          page ← kalloc;
          if page =? 0 then uvmcopy_err new i
          else
            do_memmove page pa PGSIZE;;
            r ← mappages new i PGSIZE page flags;
            if negb (r =? 0) then kfree page;; uvmcopy_err new i
            else uvmcopy_loop fuel old new (u64 (i + PGSIZE)) sz
    end
  else mret 0.

Definition uvmcopy (old new sz : Z) : M pmem Z :=
  uvmcopy_loop (Z.to_nat (sz / PGSIZE + 1)) old new 0 sz.
End vm.

(** uvmclear() *)
Definition uvmclear (pagetable va : Z) : M pmem unit :=
  pte ← walk pagetable va false;
  if pte =? 0 then panic "uvmclear"
  else v ← read64 pte; write64 pte (Z.land v (Z.lnot PTE_U)).

(** copyout() *)
Fixpoint copyout_loop (fuel : nat) (pagetable dstva src len : Z) : M pmem Z :=
  if 0 <? len then
    match fuel with
    | O => no_fuel
    | S fuel =>
      let va0 := PGROUNDDOWN dstva in
      pa0 ← walkaddr pagetable va0;
      if pa0 =? 0 then mret (-1)
      else
        let n := PGSIZE - (dstva - va0) in
        let n := if len <? n then len else n in
        do_memmove (pa0 + (dstva - va0)) src n;;
        copyout_loop fuel pagetable (u64 (va0 + PGSIZE)) (src + n) (len - n)
    end
  else mret 0.

Definition copyout (pagetable dstva src len : Z) : M pmem Z :=
  copyout_loop (Z.to_nat (len / PGSIZE + 2)) pagetable dstva src len.

(** copyin() *)
Fixpoint copyin_loop (fuel : nat) (pagetable dst srcva len : Z) : M pmem Z :=
  if 0 <? len then
    match fuel with
    | O => no_fuel
    | S fuel =>
      let va0 := PGROUNDDOWN srcva in
      pa0 ← walkaddr pagetable va0;
      if pa0 =? 0 then mret (-1)
      else
        let n := PGSIZE - (srcva - va0) in
        let n := if len <? n then len else n in
        do_memmove dst (pa0 + (srcva - va0)) n;;
        copyin_loop fuel pagetable (dst + n) (u64 (va0 + PGSIZE)) (len - n)
    end
  else mret 0.

Definition copyin (pagetable dst srcva len : Z) : M pmem Z :=
  copyin_loop (Z.to_nat (len / PGSIZE + 2)) pagetable dst srcva len.

(** copyinstr(): the loop over one page, returning got_null, dst and max. *)
Fixpoint copyinstr_page (n : nat) (p dst max : Z) : M pmem (bool * Z * Z) :=
  match n with
  | O => mret (false, dst, max)
  | S n =>
    c ← read8 p;
    if c =? 0 then write8 dst 0;; mret (true, dst, max)
    else write8 dst c;; copyinstr_page n (p + 1) (dst + 1) (max - 1)
  end.

Fixpoint copyinstr_loop (fuel : nat) (pagetable dst srcva max : Z) (got_null : bool) : M pmem Z :=
  if negb got_null && (0 <? max) then
    match fuel with
    | O => no_fuel
    | S fuel =>
      let va0 := PGROUNDDOWN srcva in
      pa0 ← walkaddr pagetable va0;
      if pa0 =? 0 then mret (-1)
      else
        let n := PGSIZE - (srcva - va0) in
        let n := if max <? n then max else n in
        r ← copyinstr_page (Z.to_nat n) (pa0 + (srcva - va0)) dst max;
        let '(got_null, dst, max) := r in
        copyinstr_loop fuel pagetable dst (u64 (va0 + PGSIZE)) max got_null
    end
  else mret (if got_null then 0 else -1).

Definition copyinstr (pagetable dst srcva max : Z) : M pmem Z :=
  copyinstr_loop (Z.to_nat (max / PGSIZE + 2)) pagetable dst srcva max false.

(** ** The kernel's own page table *)

(** [kernel_pagetable] and the hart's satp register, with the memory subsystem. *)
Record kvm := mkKvm { kv_pm : pmem; kernel_pagetable : Z; satp : Z }.

Definition lift_pm {A} (m : M pmem A) : M kvm A :=
  zoom kv_pm (λ p s, mkKvm p (kernel_pagetable s) (satp s)) m.

(** kvmmap() *)
Definition kvmmap (va pa sz perm : Z) : M kvm unit :=
  pt ← gets kernel_pagetable;
  r ← lift_pm (mappages pt va sz pa perm);
  if negb (r =? 0) then panic "kvmmap" else mret ().

(** kvminit() *)
Definition kvminit `{Symbols} : M kvm unit :=
  pt ← lift_pm kalloc;
  modify (λ s, mkKvm (kv_pm s) pt (satp s));;
  lift_pm (do_memset pt 0 PGSIZE);;
  kvmmap UART0 UART0 PGSIZE (Z.lor PTE_R PTE_W);;
  kvmmap VIRTIO0 VIRTIO0 PGSIZE (Z.lor PTE_R PTE_W);;
  kvmmap CLINT CLINT 0x10000 (Z.lor PTE_R PTE_W);;
  kvmmap PLIC PLIC 0x400000 (Z.lor PTE_R PTE_W);;
  kvmmap KERNBASE KERNBASE (u64 (etext - KERNBASE)) (Z.lor PTE_R PTE_X);;
  kvmmap etext etext (u64 (PHYSTOP - etext)) (Z.lor PTE_R PTE_W);;
  kvmmap TRAMPOLINE trampoline PGSIZE (Z.lor PTE_R PTE_X).

(** kvminithart() (sfence.vma has no effect on the modelled state) *)
Definition kvminithart : M kvm unit :=
  modify (λ s, mkKvm (kv_pm s) (kernel_pagetable s) (MAKE_SATP (kernel_pagetable s))).

(** kvmpa() *)
Definition kvmpa (va : Z) : M kvm Z :=
  let off := va mod PGSIZE in
  pt ← gets kernel_pagetable;
  pte ← lift_pm (walk pt va false);
  if pte =? 0 then panic "kvmpa"
  else
    v ← lift_pm (read64 pte);
    if Z.land v PTE_V =? 0 then panic "kvmpa"
    else mret (u64 (PTE2PA v + off)).
