(* ===== verification/VmMap.v ===== *)
(** Specifications of walk(), mappages() and uvmunmap() (vm.c) over the tree
    of PageTable.v. *)
From S2P Require Import Prelude Machine CString Spinlock Kalloc PageTable Vm.

(** Memory is unchanged outside the pages of [P]. *)
Definition off_pages (P : Z → Prop) (m m' : mem) : Prop :=
  ∀ x, (∀ p, P p → ¬ (p ≤ x < p + PGSIZE)) → m' x = m x.

(** The address space rooted at [root] is well formed and its page-table pages are
    not free; [l] is the free list. *)
Record vm_inv `{Symbols} (s : pmem) (l : list Z) (root : Z) : Prop := {
  vi_kinv : kinv s l;
  vi_wf : pt_wf (pm_mem s) root;
  vi_tree : ∀ p, in_tree (pm_mem s) root p → p ∉ l
}.

(** The pages that allocating a mapping may write: the tree and the free list. *)
Definition owned (s : pmem) (l : list Z) (root p : Z) : Prop :=
  p ∈ l ∨ in_tree (pm_mem s) root p.

(** The table may have grown by free pages; no mapping has changed. *)
Record grow `{Symbols} (root : Z) (s : pmem) (l : list Z) (s' : pmem) (l' : list Z) : Prop := {
  gr_inv : vm_inv s' l' root;
  gr_view : ∀ vb, pview (pm_mem s') root vb = pview (pm_mem s) root vb;
  gr_owned : ∀ p, owned s' l' root p ↔ owned s l root p;
  gr_suffix : l' `suffix_of` l;
  gr_frame : off_pages (owned s l root) (pm_mem s) (pm_mem s')
}.

(** The tables that exist in [m'] are those of [m], and some at paths in [U]. *)
Definition adds (U : list Z → Prop) (root : Z) (m m' : mem) : Prop :=
  ∀ path, path_ok path → is_Some (node m' root path) → is_Some (node m root path) ∨ U path.
(** The tables on the way to the entry of [va] *)
Definition on_path (va : Z) (path : list Z) : Prop := path = [PX 2 va] ∨ path = [PX 2 va; PX 1 va].

Lemma adds_refl U root m : adds U root m m.
Proof. intros path _ Hn. by left. Qed.

Lemma adds_trans U root m1 m2 m3 : adds U root m1 m2 → adds U root m2 m3 → adds U root m1 m3.
Proof. intros H1 H2 path Hp Hn. destruct (H2 path Hp Hn) as [Hn2|]; [|by right]. by apply H1. Qed.

Lemma adds_mono (U U' : list Z → Prop) root m m' : (∀ path, U path → U' path) → adds U root m m' → adds U' root m m'.
Proof. intros HU Ha path Hp Hn. destruct (Ha path Hp Hn) as [|Hu]; [by left|right; by apply HU]. Qed.

Lemma off_pages_refl P m : off_pages P m m.
Proof. by intros x _. Qed.

Lemma off_pages_trans P m1 m2 m3 : off_pages P m1 m2 → off_pages P m2 m3 → off_pages P m1 m3.
Proof. intros H1 H2 x Hx. by rewrite H2, H1. Qed.

Lemma off_pages_mono (P P' : Z → Prop) m m' :
  (∀ p, P p → P' p) → off_pages P m m' → off_pages P' m m'.
Proof. intros HP Hoff x Hx. apply Hoff. auto. Qed.

Lemma off_pages_only (P : Z → Prop) p m m' : P p → only_page p m m' → off_pages P m m'.
Proof. intros Hp Ho x Hx. apply Ho. by apply Hx. Qed.

(** A page-aligned page that is not in [P] keeps its contents. *)
Lemma off_pages_agree (P : Z → Prop) m m' q :
  off_pages P m m' → (∀ p, P p → p mod PGSIZE = 0) → q mod PGSIZE = 0 → ¬ P q →
  agree m' m q PGSIZE.
Proof.
  intros Hoff Hal Hq Hnq x Hx. apply Hoff. intros p Hp Hx'. apply Hnq.
  destruct (Z.eqb_spec p q) as [->|Hne]; [done|].
  destruct (pages_disjoint p q) as [?|?]; auto; unfold PGSIZE in *; lia.
Qed.

#[export] Hint Resolve off_pages_refl off_pages_trans : kern.

Section map.
Context `{Symbols}.

Lemma owned_aligned s l root p : vm_inv s l root → owned s l root p → page_ok p.
Proof.
  intros [Hk Hwf _] [Hl|(path & Hok & Hn)].
  - pose proof (ki_pages _ _ Hk) as Hpg. rewrite Forall_forall in Hpg. auto.
  - by apply (wf_page _ _ Hwf path).
Qed.

Lemma grow_refl root s l : vm_inv s l root → grow root s l s l.
Proof. intros Hv. by split; auto with kern. Qed.

Lemma grow_trans root s1 l1 s2 l2 s3 l3 :
  grow root s1 l1 s2 l2 → grow root s2 l2 s3 l3 → grow root s1 l1 s3 l3.
Proof.
  intros [_ Hv1 Ho1 Hs1 Hf1] [Hi Hv2 Ho2 Hs2 Hf2]. split.
  - done.
  - intros vb. by rewrite Hv2, Hv1.
  - intros p. by rewrite Ho2, Ho1.
  - by etrans.
  - eapply off_pages_trans; [done|]. eapply off_pages_mono; [|done]. intros p. apply Ho1.
Qed.

(** ** walk() *)

Lemma walk_false root va s :
  0 ≤ va < MAXVA →
  walk root va false s =
  Ret (match leaf (pm_mem s) root va with Some a => a | None => 0 end) s.
Proof.
  intros Hva. unfold walk. destruct (Z.leb_spec MAXVA va); [lia|].
  unfold walk_loop, read64. m_unfold. unfold leaf, node, child.
  change (Z.of_nat 2) with 2. change (Z.of_nat 1) with 1. cbn [negb].
  destruct (pte_v (load64 (pm_mem s) (root + 8 * PX 2 va))); [|done].
  by destruct (pte_v _).
Qed.

Lemma wp_walk_false root va s (Q : Z → pmem → Prop) :
  0 ≤ va < MAXVA →
  (leaf (pm_mem s) root va = None → Q 0 s) →
  (∀ a, leaf (pm_mem s) root va = Some a → Q a s) →
  wp (walk root va false) Q s.
Proof.
  intros Hva H0 H1. unfold wp. rewrite walk_false by done.
  destruct (leaf _ _ _) eqn:E; auto.
Qed.

Lemma leaf_pos s l root va a : vm_inv s l root → leaf (pm_mem s) root va = Some a → a ≠ 0.
Proof.
  intros [_ Hwf _]. unfold leaf. destruct (node _ _ _) as [p|] eqn:E; [|done].
  intros [= <-]. apply (wf_page _ _ Hwf) in E as (_ & _ & _ & Hp); [|auto with kern].
  pose proof (PX_range 0 va). lia.
Qed.

(** kalloc() and linking the zeroed page at [path ++ [k]]. *)
Lemma grow_link s l root path p k (Q : Z → pmem → Prop) :
  vm_inv s l root → path_ok path → (length path < 2)%nat →
  node (pm_mem s) root path = Some p → 0 ≤ k < 512 → child (pm_mem s) p k = None →
  (∀ s', grow root s l s' [] → adds (eq (path ++ [k])) root (pm_mem s) (pm_mem s') → Q 0 s') →
  (∀ pg s' l', pg ≠ 0 → grow root s l s' l' → adds (eq (path ++ [k])) root (pm_mem s) (pm_mem s') →
     node (pm_mem s') root (path ++ [k]) = Some pg → Q pg s') →
  wp (pg ← kalloc;
      if pg =? 0 then mret 0
      else do_memset pg 0 PGSIZE;; write64 (p + 8 * k) (Z.lor (PA2PTE pg) PTE_V);; mret pg) Q s.
Proof.
  intros [Hk Hwf Ht] Hpath Hlen Hp Hkk Hnone H0 H1. apply wp_bind.
  eapply wp_kalloc; [done|..].
  - intros -> s' Hk' Hm. apply wp_ret. apply H0; [|rewrite Hm; apply adds_refl].
    split; rewrite ?Hm; auto with kern; unfold owned; rewrite ?Hm; try done.
    split; rewrite ?Hm; auto.
  - intros pg l' s' -> Hk' Hpg Hnin Ho.
    assert (pg ≠ 0) by (destruct Hpg as (_ & _ & _ & ?); lia).
    destruct (Z.eqb_spec pg 0); [done|].
    unfold do_memset, write64. wp_steps. unfold set_mem; cbn [pm_mem pm_hart kmem_lock freelist].
    set (m1 := memset (pm_mem s') pg 0 PGSIZE).
    assert (Hfresh : ¬ in_tree (pm_mem s) root pg) by (intros Hin; apply (Ht pg Hin); left).
    assert (Ho1 : only_page pg (pm_mem s) m1)
      by (eapply only_page_trans; [done|apply only_page_memset]).
    assert (Hz : ∀ i, 0 ≤ i < 512 → load64 m1 (pg + 8 * i) = 0).
    { intros i Hi. apply load_memset_0; unfold PGSIZE; lia. }
    set (m' := store64 m1 (p + 8 * k) (Z.lor (PA2PTE pg) PTE_V)).
    assert (Hwf' : pt_wf m' root) by by eapply (link_wf (pm_mem s)).
    assert (Htree : ∀ q, in_tree m' root q ↔ q = pg ∨ in_tree (pm_mem s) root q)
      by by intros q; eapply (link_in_tree (pm_mem s)).
    assert (Hpok : page_ok p) by by apply (wf_page _ _ Hwf path).
    pose proof (entry_in_page p k Hkk) as [Hlo Hhi].
    assert (Hpl : p ∉ pg :: l') by (apply Ht; by exists path).
    apply (H1 pg _ l'); [done|split| |].
    + split; simpl; [|done|].
      * destruct Hk' as [? ? ? Hfl Hpgs ?]. split; simpl; auto.
        -- unfold m', m1, store64. auto with kern.
        -- eapply (free_list_only_page m1); [by apply only_page_store64|apply Hpok|set_solver|done|].
           eapply (free_list_only_page (pm_mem s')); [apply only_page_memset|apply Hpg|done..].
      * intros q Hq%Htree. destruct Hq as [->|Hq]; [done|]. apply Ht in Hq. set_solver.
    + intros vb. by eapply (link_pview (pm_mem s)).
    + intros q. unfold owned. cbn [pm_mem]. rewrite Htree, elem_of_cons. tauto.
    + by exists [pg].
    + cbn [pm_mem]. eapply off_pages_trans.
      * eapply (off_pages_only _ pg); [left; left|done].
      * eapply (off_pages_only _ p); [right; by exists path|by apply only_page_store64].
    + intros path' Hpath' [q Hq]. cbn [pm_mem] in Hq. unfold m' in Hq. rewrite (link_node (pm_mem s) m1 root p k pg path) in Hq by done.
      case_decide; [by right|left; by exists q].
    + cbn [pm_mem]. unfold m'. erewrite (link_node (pm_mem s)); eauto.
      * by rewrite decide_True.
      * by apply link_path_ok.
Qed.

(** One level of walk(): follow the entry, or allocate the table below it. *)
Lemma wp_walk_level s l root path p k (f : Z → M pmem Z) (Q : Z → pmem → Prop) :
  vm_inv s l root → path_ok path → (length path < 2)%nat →
  node (pm_mem s) root path = Some p → 0 ≤ k < 512 →
  (∀ s', grow root s l s' [] → adds (eq (path ++ [k])) root (pm_mem s) (pm_mem s') → Q 0 s') →
  (∀ q s' l', grow root s l s' l' → adds (eq (path ++ [k])) root (pm_mem s) (pm_mem s') → node (pm_mem s') root (path ++ [k]) = Some q →
     wp (f q) Q s') →
  wp (v ← read64 (p + 8 * k);
      if pte_v v then f (PTE2PA v)
      else if negb true then mret 0
      else
        pg ← kalloc;
        if pg =? 0 then mret 0
        else
          do_memset pg 0 PGSIZE;;
          write64 (p + 8 * k) (Z.lor (PA2PTE pg) PTE_V);;
          f pg) Q s.
Proof.
  intros Hv Hpath Hlen Hp Hk H0 H1. unfold read64. wp_steps.
  destruct (pte_v (load64 (pm_mem s) (p + 8 * k))) eqn:Ev; cbn [negb].
  - eapply H1; [by apply grow_refl|apply adds_refl|]. rewrite node_app, Hp. simpl. unfold child. by rewrite Ev.
  - assert (Hnone : child (pm_mem s) p k = None) by (unfold child; by rewrite Ev).
    pose proof (grow_link s l root path p k
      (λ r s', if r =? 0 then Q 0 s' else wp (f r) Q s') Hv Hpath Hlen Hp Hk Hnone) as Hg.
    unshelve epose proof (Hg H0 _) as Hg'.
    { intros pg s' l' Hne Hgr Had Hn. cbv beta. destruct (Z.eqb_spec pg 0); [done|by eapply H1]. }
    apply wp_bind_inv in Hg'. apply wp_bind. eapply wp_mono; [exact Hg'|].
    intros pg s'. cbv beta. destruct (Z.eqb_spec pg 0) as [->|Hne]; [done|].
    unfold do_memset, write64. intros Hw. do 2 apply wp_bind_inv in Hw.
    wp_steps. unfold wp in Hw at 1 2 3. simpl in Hw. by destruct (Z.eqb_spec pg 0).
Qed.

(** walk() with allocation: the leaf entry's address, or 0 when memory is out;
    the table may have grown, but no mapping has changed. *)
Lemma wp_walk_alloc s l root va (Q : Z → pmem → Prop) :
  vm_inv s l root → 0 ≤ va < MAXVA →
  (∀ s', grow root s l s' [] → adds (on_path va) root (pm_mem s) (pm_mem s') → Q 0 s') →
  (∀ a s' l', grow root s l s' l' → adds (on_path va) root (pm_mem s) (pm_mem s') → a ≠ 0 → leaf (pm_mem s') root va = Some a → Q a s') →
  wp (walk root va true) Q s.
Proof.
  intros Hv Hva H0 H1. unfold walk. destruct (Z.leb_spec MAXVA va); [lia|].
  eapply (wp_walk_level s l root [] root (PX 2 va) (λ q, walk_loop 1 q va true));
    [done|auto with kern|simpl; lia|done|apply PX_range|intros s' G' A'; apply H0; [done|]; eapply adds_mono; [|done]; by intros ? <-; left|].
  intros p1 s1 l1 G1 A1 N1.
  eapply (wp_walk_level s1 l1 root [PX 2 va] p1 (PX 1 va) (λ q, walk_loop 0 q va true));
    [apply G1|auto with kern|simpl; lia|done|apply PX_range| |].
  - intros s' G' A'. apply H0; [by eapply grow_trans|]. eapply adds_trans; (eapply adds_mono; [|done]); intros ? <-; [by left|by right].
  - intros p0 s2 l2 G2 A2 N2. simpl in N2. apply wp_ret.
    assert (G : grow root s l s2 l2) by by eapply grow_trans.
    assert (Hl : leaf (pm_mem s2) root va = Some (p0 + 8 * PX 0 va))
      by (unfold leaf; simpl; by rewrite N2).
    eapply H1; [done| | |done].
    + eapply adds_trans; (eapply adds_mono; [|done]); intros ? <-; [by left|by right].
    + eapply leaf_pos; [apply G|done].
Qed.

(** Storing an entry through the address walk() returned. *)
Lemma vm_inv_store s l root va a v :
  vm_inv s l root → leaf (pm_mem s) root va = Some a →
  vm_inv (set_mem (store64 (pm_mem s) a v) s) l root ∧
  (∀ p, owned (set_mem (store64 (pm_mem s) a v) s) l root p ↔ owned s l root p) ∧
  off_pages (owned s l root) (pm_mem s) (store64 (pm_mem s) a v).
Proof.
  intros [Hk Hwf Ht] Ha. unfold leaf in Ha.
  destruct (node (pm_mem s) root [PX 2 va; PX 1 va]) as [p0|] eqn:En; [|done].
  injection Ha as <-.
  assert (Hp0 : page_ok p0) by (apply (wf_page _ _ Hwf _ _ (path_ok_PX va) En)).
  assert (Hin : in_tree (pm_mem s) root p0) by (exists [PX 2 va; PX 1 va]; auto with kern).
  pose proof (entry_in_page p0 (PX 0 va) (PX_range 0 va)) as [Hlo Hhi].
  assert (Htree : ∀ p, in_tree (store64 (pm_mem s) (p0 + 8 * PX 0 va) v) root p ↔
                       in_tree (pm_mem s) root p).
  { intros p. split; intros (path & Hok & Hn); exists path; (split; [done|]).
    - by erewrite store_leaf_node in Hn.
    - by erewrite store_leaf_node. }
  split_and!.
  - split; simpl.
    + destruct Hk as [? ? ? Hfl Hpgs ?]. split; simpl; auto.
      * unfold store64. auto with kern.
      * eapply (free_list_only_page (pm_mem s)); [by apply only_page_store64|apply Hp0| |done..].
        by apply Ht.
    + by apply store_leaf_wf.
    + intros p Hp%Htree. by apply Ht.
  - intros p. unfold owned. cbn [set_mem pm_mem]. by rewrite Htree.
  - eapply (off_pages_only _ p0); [by right|by apply only_page_store64].
Qed.

Lemma pview_store s l root va vb a v :
  vm_inv s l root → leaf (pm_mem s) root va = Some a →
  0 ≤ va < MAXVA → 0 ≤ vb < MAXVA → 0 ≤ v < 2 ^ 64 →
  pview (store64 (pm_mem s) a v) root vb = if same_page va vb then v else pview (pm_mem s) root vb.
Proof.
  intros [_ Hwf _] Ha. unfold leaf in Ha.
  destruct (node (pm_mem s) root [PX 2 va; PX 1 va]) as [p0|] eqn:En; [|done].
  injection Ha as <-. intros. by eapply store_leaf_pview.
Qed.

(** ** mappages() *)

(** The entry mappages() stores. *)
Definition map_pte (pa perm : Z) : Z := Z.lor (Z.lor (PA2PTE pa) perm) PTE_V.

Lemma lor_V_range perm : 0 ≤ perm < 1024 → 0 ≤ Z.lor perm PTE_V < 1024.
Proof.
  intros Hp. change PTE_V with 1. split; [apply Z.lor_nonneg; lia|].
  apply (Z.log2_lt_cancel _ 1024). rewrite Z.log2_lor by lia.
  change (Z.log2 1) with 0. change (Z.log2 1024) with 10.
  destruct (Z.eqb_spec perm 0) as [->|]; [done|].
  pose proof (Z.log2_lt_pow2 perm 10). lia.
Qed.

Lemma map_pte_alt pa perm : map_pte pa perm = Z.lor (PA2PTE pa) (Z.lor perm PTE_V).
Proof. unfold map_pte. by rewrite Z.lor_assoc. Qed.

Lemma map_pte_range pa perm : 0 ≤ pa < 2 ^ 56 → 0 ≤ perm < 1024 → 0 ≤ map_pte pa perm < 2 ^ 64.
Proof.
  intros Hpa Hp. pose proof (lor_V_range perm Hp). rewrite map_pte_alt, mk_pte_eq by done. zdm.
Qed.

Lemma map_pte_v pa perm : pte_v (map_pte pa perm) = true.
Proof. apply pte_v_lor. Qed.

Lemma map_pte_PA pa perm :
  0 ≤ pa < 2 ^ 56 → pa mod PGSIZE = 0 → 0 ≤ perm < 1024 → PTE2PA (map_pte pa perm) = pa.
Proof.
  intros. rewrite map_pte_alt. apply PTE2PA_mk_pte; auto using lor_V_range.
Qed.

Lemma map_pte_flags pa perm :
  0 ≤ pa < 2 ^ 56 → 0 ≤ perm < 1024 → PTE_FLAGS (map_pte pa perm) = Z.lor perm PTE_V.
Proof. intros. rewrite map_pte_alt. apply PTE_FLAGS_mk_pte; auto using lor_V_range. Qed.

(** [n] pages from [a] have been mapped to the physical pages from [pa]. *)
Record mapped (root a pa perm n : Z) (s : pmem) (l : list Z) (s' : pmem) (l' : list Z) : Prop := {
  mp_inv : vm_inv s' l' root;
  mp_view : ∀ vb, 0 ≤ vb < MAXVA →
    pview (pm_mem s') root vb =
    if (a <=? vb) && (vb <? a + n * PGSIZE) then map_pte (pa + (PGROUNDDOWN vb - a)) perm
    else pview (pm_mem s) root vb;
  mp_owned : ∀ p, owned s' l' root p ↔ owned s l root p;
  mp_suffix : l' `suffix_of` l;
  mp_frame : off_pages (owned s l root) (pm_mem s) (pm_mem s');
  mp_paths : adds (λ path, ∃ vb, a ≤ vb ≤ a + n * PGSIZE ∧ on_path vb path) root (pm_mem s) (pm_mem s')
}.

Lemma grow_mapped root a pa perm s l s' l' :
  grow root s l s' l' → adds (on_path a) root (pm_mem s) (pm_mem s') → mapped root a pa perm 0 s l s' l'.
Proof.
  intros [Hi Hv Ho Hs Hf] Ha. split; auto; [|eapply adds_mono; [|done]; intros path Hp; exists a; split; [lia|done]]. intros vb _. rewrite Hv.
  destruct (Z.leb_spec a vb), (Z.ltb_spec vb (a + 0 * PGSIZE)); simpl; done || lia.
Qed.

Lemma same_page_range a vb :
  a mod PGSIZE = 0 → same_page a vb = (a <=? vb) && (vb <? a + PGSIZE).
Proof.
  intros Ha. unfold same_page, PGSIZE in *.
  destruct (Z.eqb_spec (a / 4096) (vb / 4096)), (Z.leb_spec a vb), (Z.ltb_spec vb (a + 4096));
    simpl; try done; zdm.
Qed.

Lemma PGROUNDDOWN_in a vb :
  a mod PGSIZE = 0 → a ≤ vb < a + PGSIZE → PGROUNDDOWN vb = a.
Proof. rewrite PGROUNDDOWN_eq. unfold PGSIZE. intros. zdm. Qed.

(** Mapping one page, then [n] pages from the next one. *)
Lemma mapped_cons root a pa perm n s l s1 l1 v s' l' :
  a mod PGSIZE = 0 → 0 ≤ a < MAXVA → 0 ≤ n → 0 ≤ pa < 2 ^ 56 → 0 ≤ perm < 1024 →
  grow root s l s1 l1 → adds (on_path a) root (pm_mem s) (pm_mem s1) → leaf (pm_mem s1) root a = Some v →
  mapped root (a + PGSIZE) (pa + PGSIZE) perm n
    (set_mem (store64 (pm_mem s1) v (map_pte pa perm)) s1) l1 s' l' →
  mapped root a pa perm (n + 1) s l s' l'.
Proof.
  intros Hal Ha Hn Hpa Hperm G A Hleaf [Hi Hv Ho Hs Hf Hp].
  destruct (vm_inv_store s1 l1 root a v (map_pte pa perm) (gr_inv _ _ _ _ _ G) Hleaf)
    as (Hi1 & Ho1 & Hf1).
  split; [done|..].
  - intros vb Hvb. rewrite Hv by done. cbn [set_mem pm_mem].
    rewrite (pview_store s1 l1 root a vb v) by (done || apply G || by apply map_pte_range).
    rewrite same_page_range, (gr_view _ _ _ _ _ G) by done.
    destruct (Z.leb_spec a vb), (Z.ltb_spec vb (a + PGSIZE)), (Z.leb_spec (a + PGSIZE) vb),
      (Z.ltb_spec vb (a + PGSIZE + n * PGSIZE)), (Z.ltb_spec vb (a + (n + 1) * PGSIZE));
      simpl; try done; try (unfold PGSIZE in *; lia).
    + rewrite (PGROUNDDOWN_in a vb) by (done || lia). f_equal. lia.
    + f_equal. lia.
  - intros p. rewrite Ho, Ho1. apply G.
  - etrans; [done|]. apply G.
  - eapply off_pages_trans; [apply G|]. eapply off_pages_mono; [apply G|].
    eapply off_pages_trans; [done|]. eapply off_pages_mono; [apply Ho1|]. done.
  - assert (0 < PGSIZE) by done. eapply adds_trans; [eapply adds_mono; [|exact A]; intros path Hon; exists a; split; [lia|done]|].
    intros path Hok Hnode. destruct (Hp path Hok Hnode) as [Hnode'|(vb & Hvb & Hon)]; [left|right; exists vb; split; [lia|done]].
    cbn [set_mem pm_mem] in Hnode'. unfold leaf in Hleaf. destruct (node (pm_mem s1) root [PX 2 a; PX 1 a]) as [p0|] eqn:En; [|done]. injection Hleaf as <-.
    erewrite store_leaf_node in Hnode'; [done|apply G|exact En|done].
Qed.

Lemma pages_step' last a : (last - a) / PGSIZE = (last - (a + PGSIZE)) / PGSIZE + 1.
Proof.
  replace (last - a) with (last - (a + PGSIZE) + 1 * PGSIZE) by lia.
  by rewrite Z.div_add.
Qed.

Lemma pages_step last a : (last - a) / PGSIZE + 1 = (last - (a + PGSIZE)) / PGSIZE + 1 + 1.
Proof. by rewrite pages_step'. Qed.

Lemma pages_nonneg a b : a ≤ b → 0 ≤ (b - a) / PGSIZE + 1.
Proof. intros. unfold PGSIZE. zdm. Qed.

Lemma wp_mappages_loop fuel s l root a last pa perm (Q : Z → pmem → Prop) :
  vm_inv s l root → a mod PGSIZE = 0 → last mod PGSIZE = 0 → 0 ≤ a → a ≤ last < MAXVA →
  Z.of_nat fuel = (last - a) / PGSIZE + 1 → 0 ≤ pa → pa + (last - a) < 2 ^ 56 →
  0 ≤ perm < 1024 →
  (∀ vb, a ≤ vb < last + PGSIZE → pte_v (pview (pm_mem s) root vb) = false) →
  (∀ s' l', mapped root a pa perm ((last - a) / PGSIZE + 1) s l s' l' → Q 0 s') →
  (∀ n s', 0 ≤ n ≤ (last - a) / PGSIZE → mapped root a pa perm n s l s' [] → Q (-1) s') →
  wp (mappages_loop fuel root a last pa perm) Q s.
Proof.
  revert s l a pa Q. induction fuel as [|fuel IH];
    intros s l a pa Q Hv Hal Hll Ha0 Hlast Hfuel Hpa0 Hpa Hperm Hun H0 H1.
  { exfalso. unfold PGSIZE in *. zdm. }
  cbn [mappages_loop]. apply wp_bind. eapply wp_walk_alloc; [done|lia|..].
  - intros s' G A. simpl. apply wp_ret. apply (H1 0); [unfold PGSIZE in *; zdm|].
    by apply grow_mapped.
  - intros v s1 l1 G A Hv0 Hleaf. destruct (Z.eqb_spec v 0); [done|].
    unfold read64. wp_steps.
    assert (Hpv : pview (pm_mem s1) root a = load64 (pm_mem s1) v)
      by (unfold pview; by rewrite Hleaf).
    assert (Hnv : pte_v (load64 (pm_mem s1) v) = false).
    { rewrite <- Hpv, (gr_view _ _ _ _ _ G). apply Hun. unfold PGSIZE. lia. }
    unfold pte_v in Hnv. rewrite Hnv. unfold write64. wp_steps.
    fold (map_pte pa perm).
    destruct (vm_inv_store s1 l1 root a v (map_pte pa perm) (gr_inv _ _ _ _ _ G) Hleaf)
      as (Hi1 & Ho1 & Hf1).
    set (s2 := set_mem (store64 (pm_mem s1) v (map_pte pa perm)) s1) in *.
    destruct (Z.eqb_spec a last) as [->|Hne].
    + apply wp_ret. apply (H0 _ l1).
      replace ((last - last) / PGSIZE + 1) with (0 + 1) by (unfold PGSIZE; zdm).
      eapply mapped_cons; try done; [lia..|]. apply grow_mapped; [by apply grow_refl|apply adds_refl].
    + assert (a + PGSIZE ≤ last) by (unfold PGSIZE in *; zdm).
      assert (Hmx : MAXVA = 2 ^ 38) by done.
      rewrite !u64_small by (unfold PGSIZE in *; lia).
      apply (IH s2 l1); try done; try lia.
      * unfold PGSIZE in *. zdm.
      * unfold PGSIZE. lia.
      * unfold PGSIZE in *. zdm.
      * unfold PGSIZE in *. lia.
      * intros vb Hvb. unfold s2. cbn [set_mem pm_mem].
        destruct (Z.ltb_spec vb MAXVA).
        -- rewrite (pview_store s1 l1 root a vb v) by
             (done || apply G || (apply map_pte_range; done || lia) || (unfold PGSIZE in *; lia)).
           rewrite same_page_range by done.
           destruct (Z.leb_spec a vb), (Z.ltb_spec vb (a + PGSIZE)); simpl;
             try (unfold PGSIZE in *; lia).
           rewrite (gr_view _ _ _ _ _ G). apply Hun. lia.
        -- unfold PGSIZE in *. zdm.
      * intros s' l' Hm. apply (H0 s' l').
        rewrite (pages_step last a).
        eapply mapped_cons; try done; try lia. apply pages_nonneg. lia.
      * intros k s' Hk Hm. apply (H1 (k + 1)); [rewrite (pages_step' last a); lia|].
        eapply mapped_cons; try done; lia.
Qed.

(** mappages() of [n] whole pages from an aligned address: on success all of them
    are mapped; when a page-table page cannot be allocated the result is -1 and a
    prefix of them is mapped. *)
Lemma wp_mappages s l root va n pa perm (Q : Z → pmem → Prop) :
  vm_inv s l root → va mod PGSIZE = 0 → 0 ≤ va → 0 < n → va + n * PGSIZE ≤ MAXVA →
  0 ≤ pa → pa + n * PGSIZE ≤ 2 ^ 56 → 0 ≤ perm < 1024 →
  (∀ vb, va ≤ vb < va + n * PGSIZE → pte_v (pview (pm_mem s) root vb) = false) →
  (∀ s' l', mapped root va pa perm n s l s' l' → Q 0 s') →
  (∀ k s', 0 ≤ k < n → mapped root va pa perm k s l s' [] → Q (-1) s') →
  wp (mappages root va (n * PGSIZE) pa perm) Q s.
Proof.
  intros Hv Hal H0 Hn Hmax Hpa0 Hpa Hperm Hun HQ0 HQ1. unfold mappages.
  assert (Hmx : MAXVA = 2 ^ 38) by done.
  assert (Ea : PGROUNDDOWN va = va) by (apply PGROUNDDOWN_in; [done|unfold PGSIZE; lia]).
  assert (El : PGROUNDDOWN (u64 (va + n * PGSIZE - 1)) = va + (n - 1) * PGSIZE).
  { unfold PGSIZE in *. rewrite u64_small by lia. apply PGROUNDDOWN_in; unfold PGSIZE; zdm. }
  rewrite Ea, El.
  assert (Ed : (va + (n - 1) * PGSIZE - va) / PGSIZE = n - 1).
  { replace (va + (n - 1) * PGSIZE - va) with ((n - 1) * PGSIZE) by lia. by apply Z.div_mul. }
  eapply (wp_mappages_loop _ s l); rewrite ?Ed; try done.
  - unfold PGSIZE in *. zdm.
  - unfold PGSIZE in *. lia.
  - unfold mappages_fuel. destruct (Z.leb_spec va (va + (n - 1) * PGSIZE));
      [|unfold PGSIZE in *; lia]. rewrite Ed. lia.
  - unfold PGSIZE in *. lia.
  - intros vb Hvb. apply Hun. unfold PGSIZE in *. lia.
  - intros s' l'. rewrite Z.sub_add. apply HQ0.
  - intros k s' Hk. apply HQ1. lia.
Qed.

(** ** Changes outside the table *)

(** The tree at [root] is the same in both memories. *)
Record same_tree (root : Z) (m m' : mem) : Prop := {
  st_node : ∀ path, path_ok path → node m' root path = node m root path;
  st_leaf : ∀ vb, leaf m' root vb = leaf m root vb;
  st_view : ∀ vb, pview m' root vb = pview m root vb;
  st_tree : ∀ p, in_tree m' root p ↔ in_tree m root p
}.

Lemma same_tree_agree root m m' :
  pt_wf m root → (∀ p, in_tree m root p → agree m' m p PGSIZE) → same_tree root m m'.
Proof.
  intros Hwf Hag.
  assert (Hn : ∀ path, path_ok path → node m' root path = node m root path)
    by (intros; by apply node_frame).
  split; [done|..].
  - intros vb. unfold leaf. by rewrite Hn by auto with kern.
  - intros vb. by apply pview_frame.
  - intros p. split; intros (path & Hok & Hp); exists path; [rewrite <- Hn|rewrite Hn]; auto.
Qed.

Lemma same_tree_off root m m' (P : Z → Prop) :
  pt_wf m root → off_pages P m m' → (∀ p, P p → page_ok p) →
  (∀ p, P p → ¬ in_tree m root p) → same_tree root m m'.
Proof.
  intros Hwf Hoff Hok Hnt. apply same_tree_agree; [done|]. intros p Hp.
  eapply off_pages_agree; [done| | |].
  - intros q Hq. by apply Hok.
  - destruct Hp as (path & Hpath & Hn). by apply (wf_page _ _ Hwf path).
  - intros HP. by apply (Hnt p).
Qed.

Lemma vm_inv_same_tree root s l s' l' :
  vm_inv s l root → same_tree root (pm_mem s) (pm_mem s') → kinv s' l' →
  (∀ p, in_tree (pm_mem s) root p → p ∉ l') → vm_inv s' l' root.
Proof.
  intros [_ Hwf _] [Hn _ _ Ht] Hk Hnl. split; [done| |].
  - by eapply pt_wf_ext.
  - intros p Hp%Ht. auto.
Qed.

(** ** uvmunmap() *)

(** The pages [n] pages from [a] have been unmapped, and handed to kfree() in
    order if [fr] is set. *)
Record unmapped (root a n : Z) (fr : list Z) (s : pmem) (l : list Z) (s' : pmem) : Prop := {
  um_inv : vm_inv s' (fr ++ l) root;
  um_view : ∀ vb, 0 ≤ vb < MAXVA →
    pview (pm_mem s') root vb =
    if (a <=? vb) && (vb <? a + n * PGSIZE) then 0 else pview (pm_mem s) root vb;
  um_tree : ∀ p, in_tree (pm_mem s') root p ↔ in_tree (pm_mem s) root p;
  um_frame : off_pages (λ p, p ∈ fr ∨ in_tree (pm_mem s) root p) (pm_mem s) (pm_mem s')
}.

(** The physical pages that [k] pages from [a] are mapped to. *)
Fixpoint pas (m : mem) (root : Z) (k : nat) (a : Z) : list Z :=
  match k with
  | O => []
  | S k => PTE2PA (pview m root a) :: pas m root k (a + PGSIZE)
  end.

Lemma pas_ext m m' root k a :
  (∀ vb, a ≤ vb < a + Z.of_nat k * PGSIZE → pview m' root vb = pview m root vb) →
  pas m' root k a = pas m root k a.
Proof.
  revert a. induction k as [|k IH]; intros a Hv; simpl; [done|]. f_equal.
  - rewrite Hv; [done|]. unfold PGSIZE. lia.
  - apply IH. intros vb Hvb. apply Hv. unfold PGSIZE in *. lia.
Qed.

Lemma elem_of_pas m root k a p :
  p ∈ pas m root k a ↔ ∃ i, 0 ≤ i < Z.of_nat k ∧ p = PTE2PA (pview m root (a + i * PGSIZE)).
Proof.
  revert a. induction k as [|k IH]; intros a; cbn [pas].
  - rewrite elem_of_nil. split; [done|]. intros (i & Hi & _). lia.
  - rewrite elem_of_cons, IH. split.
    + intros [->|(i & Hi & ->)].
      * exists 0. split; [lia|]. do 2 f_equal. lia.
      * exists (i + 1). split; [lia|]. do 2 f_equal. lia.
    + intros (i & Hi & ->). destruct (Z.eqb_spec i 0) as [->|].
      * left. do 2 f_equal. lia.
      * right. exists (i - 1). split; [lia|]. do 2 f_equal. lia.
Qed.

Lemma pview_valid_leaf m root va :
  pte_v (pview m root va) = true → ∃ a, leaf m root va = Some a ∧ load64 m a = pview m root va.
Proof. unfold pview. destruct (leaf m root va) as [a|]; [by exists a|done]. Qed.

(** One turn of uvmunmap(): the page goes to the allocator, if it must, and the
    entry is cleared. *)
Lemma unmap_one s l root a v do_free (Q : unit → pmem → Prop) :
  vm_inv s l root → 0 ≤ a < MAXVA → leaf (pm_mem s) root a = Some v →
  let pa := PTE2PA (load64 (pm_mem s) v) in
  (do_free = true → page_ok pa ∧ ¬ owned s l root pa) →
  (∀ s', a mod PGSIZE = 0 → unmapped root a 1 (if do_free then [pa] else []) s l s' → Q () s') →
  a mod PGSIZE = 0 →
  wp (when_ do_free (kfree pa);; write64 v 0) Q s.
Proof.
  intros Hv Ha Hleaf pa Hfr HQ Hal. apply wp_bind.
  assert (Hrest : ∀ l1 fr s1, l1 = fr ++ l → vm_inv s1 l1 root →
            same_tree root (pm_mem s) (pm_mem s1) →
            off_pages (λ p, p ∈ fr ∨ in_tree (pm_mem s) root p) (pm_mem s) (pm_mem s1) →
            unmapped root a 1 fr s l (set_mem (store64 (pm_mem s1) v 0) s1)).
  { intros l1 fr s1 -> Hv1 Hst Hoff.
    assert (Hleaf1 : leaf (pm_mem s1) root a = Some v) by by rewrite (st_leaf _ _ _ Hst).
    destruct (vm_inv_store s1 _ root a v 0 Hv1 Hleaf1) as (Hi & Ho & Hf).
    assert (Ht : ∀ p, in_tree (store64 (pm_mem s1) v 0) root p ↔ in_tree (pm_mem s1) root p).
    { unfold leaf in Hleaf1. destruct (node (pm_mem s1) root _) as [p0|] eqn:En; [|done].
      injection Hleaf1 as <-. intros p.
      split; intros (path & Hok & Hn); exists path; (split; [done|]);
        [erewrite store_leaf_node in Hn|erewrite store_leaf_node]; eauto; apply Hv1. }
    split; [done|..]; cbn [set_mem pm_mem].
    - intros vb Hvb. rewrite (pview_store s1 (fr ++ l) root a vb v 0) by (eassumption || lia).
      rewrite same_page_range by done. rewrite Z.mul_1_l. destruct (_ && _); [done|apply Hst].
    - intros p. by rewrite Ht, (st_tree _ _ _ Hst).
    - eapply off_pages_trans; [done|]. eapply (off_pages_mono (in_tree (pm_mem s1) root)).
      + intros p Hp. right. by apply Hst.
      + unfold leaf in Hleaf1. destruct (node (pm_mem s1) root _) as [p0|] eqn:En; [|done].
        injection Hleaf1 as <-. pose proof (entry_in_page p0 (PX 0 a) (PX_range 0 a)) as [? ?].
        eapply (off_pages_only _ p0); [eexists; eauto with kern|by apply only_page_store64]. }
  destruct do_free; simpl.
  - destruct Hfr as [Hpok Hno]; [done|].
    eapply wp_kfree; [apply Hv|done|intros Hin; apply Hno; by left|].
    intros s1 Hk1 Honly. unfold write64. wp_steps. apply HQ; [done|].
    assert (Hnt : ¬ in_tree (pm_mem s) root pa) by (intros Hin; apply Hno; by right).
    assert (Hst : same_tree root (pm_mem s) (pm_mem s1)).
    { eapply (same_tree_off _ _ _ (eq pa)); [apply Hv| |by intros ? <-|by intros ? <-].
      by eapply off_pages_only. }
    apply (Hrest (pa :: l)); [done| |done|].
    + eapply vm_inv_same_tree; [done..|]. intros p Hp. apply not_elem_of_cons. split.
      * by intros ->.
      * by apply (vi_tree _ _ _ Hv).
    + eapply off_pages_only; [|done]. left. by left.
  - apply wp_ret. unfold write64. wp_steps. apply HQ; [done|].
    apply (Hrest l); [done|done|by apply same_tree_agree; [apply Hv|]|auto with kern].
Qed.

(** Unmapping one page, then [n] from the next one. *)
Lemma unmapped_cons root a n fr1 fr2 s l s1 s' :
  0 ≤ n → unmapped root a 1 fr1 s l s1 →
  unmapped root (a + PGSIZE) n fr2 s1 (fr1 ++ l) s' →
  unmapped root a (n + 1) (fr2 ++ fr1) s l s'.
Proof.
  intros Hn [_ Hv1 Ht1 Hf1] [Hi Hv2 Ht2 Hf2]. split.
  - by rewrite <- app_assoc.
  - intros vb Hvb. rewrite Hv2, Hv1 by done.
    destruct (Z.leb_spec a vb), (Z.ltb_spec vb (a + 1 * PGSIZE)), (Z.leb_spec (a + PGSIZE) vb),
      (Z.ltb_spec vb (a + PGSIZE + n * PGSIZE)), (Z.ltb_spec vb (a + (n + 1) * PGSIZE));
      simpl; done || (unfold PGSIZE in *; lia).
  - intros p. by rewrite Ht2, Ht1.
  - eapply off_pages_trans.
    + eapply off_pages_mono; [|done]. set_solver.
    + eapply off_pages_mono; [|done]. intros p. cbv beta. rewrite Ht1. set_solver.
Qed.

Lemma unmapped_nil root a s l : vm_inv s l root → unmapped root a 0 [] s l s.
Proof.
  intros Hv. split; auto with kern. intros vb _.
  destruct (Z.leb_spec a vb), (Z.ltb_spec vb (a + 0 * PGSIZE)); simpl; done || lia.
Qed.

(** What uvmunmap() checks of the entry of each page. *)
Definition is_leaf_pte (v : Z) : Prop := pte_v v = true ∧ PTE_FLAGS v ≠ PTE_V.

(** The pages uvmunmap() gives to kfree(): RAM pages, all different, neither free
    nor part of the table. *)
Definition freeable (s : pmem) (l : list Z) (root : Z) (ps : list Z) : Prop :=
  NoDup ps ∧ ∀ p, p ∈ ps → page_ok p ∧ ¬ owned s l root p.

Lemma wp_uvmunmap_loop k s l root a do_free (Q : unit → pmem → Prop) :
  vm_inv s l root → a mod PGSIZE = 0 → 0 ≤ a → a + Z.of_nat k * PGSIZE ≤ MAXVA →
  (∀ i, 0 ≤ i < Z.of_nat k → is_leaf_pte (pview (pm_mem s) root (a + i * PGSIZE))) →
  let ps := pas (pm_mem s) root k a in
  (do_free = true → freeable s l root ps) →
  (∀ s', unmapped root a (Z.of_nat k) (if do_free then rev ps else []) s l s' → Q () s') →
  wp (uvmunmap_loop k root a (a + Z.of_nat k * PGSIZE) do_free) Q s.
Proof.
  revert s l a Q. induction k as [|k IH]; intros s l a Q Hv Hal Ha0 Hmax Hleaf ps Hfr HQ.
  { cbn [uvmunmap_loop]. destruct (Z.ltb_spec a (a + Z.of_nat 0 * PGSIZE)); [lia|].
    apply wp_ret, HQ. destruct do_free; by apply unmapped_nil. }
  assert (Hmx : MAXVA = 2 ^ 38) by done.
  cbn [uvmunmap_loop]. destruct (Z.ltb_spec a (a + Z.of_nat (S k) * PGSIZE));
    [|unfold PGSIZE in *; lia].
  assert (Ha : 0 ≤ a < MAXVA) by (unfold PGSIZE in *; lia).
  destruct (Hleaf 0) as [Hpv Hpf]; [lia|]. rewrite Z.mul_0_l, Z.add_0_r in Hpv, Hpf.
  destruct (pview_valid_leaf _ _ _ Hpv) as (v & El & Ev).
  apply wp_bind, wp_walk_false; [done|by rewrite El|]. intros v' Ev'. simplify_eq.
  destruct (Z.eqb_spec v 0) as [->|]; [by apply leaf_pos with (l := l) in El|].
  unfold read64. wp_step. wp_step. cbv beta. rewrite Ev.
  unfold pte_v in Hpv. apply negb_true_iff in Hpv as ->.
  destruct (Z.eqb_spec (PTE_FLAGS (pview (pm_mem s) root a)) PTE_V); [done|].
  set (pa := PTE2PA (pview (pm_mem s) root a)) in *.
  assert (Hone : wp (when_ do_free (kfree pa);; write64 v 0)
            (λ _ s1, unmapped root a 1 (if do_free then [pa] else []) s l s1) s).
  { unfold pa. rewrite <- Ev. apply (unmap_one s l root a v do_free); rewrite ?Ev; try done.
    intros Hd. destruct (Hfr Hd) as [_ Hps]. apply Hps. unfold ps. cbn [pas]. left. }
  apply wp_bind_inv in Hone. apply wp_bind. eapply wp_mono; [exact Hone|].
  intros [] s0 Hw. apply wp_bind. eapply wp_mono; [exact Hw|]. intros [] s1 Hu.
  rewrite u64_small by (unfold PGSIZE in *; lia).
  replace (a + Z.of_nat (S k) * PGSIZE) with (a + PGSIZE + Z.of_nat k * PGSIZE) by lia.
  assert (Hvw : ∀ vb, a + PGSIZE ≤ vb < a + PGSIZE + Z.of_nat k * PGSIZE →
            pview (pm_mem s1) root vb = pview (pm_mem s) root vb).
  { intros vb Hvb. rewrite (um_view _ _ _ _ _ _ _ Hu) by (unfold PGSIZE in *; lia).
    destruct (Z.leb_spec a vb), (Z.ltb_spec vb (a + 1 * PGSIZE)); simpl; done || lia. }
  assert (Hpas : pas (pm_mem s1) root k (a + PGSIZE) = pas (pm_mem s) root k (a + PGSIZE))
    by by apply pas_ext.
  eapply (IH s1 ((if do_free then [pa] else []) ++ l)); [apply Hu|..].
  - unfold PGSIZE in *. zdm.
  - unfold PGSIZE. lia.
  - unfold PGSIZE in *. lia.
  - intros i Hi. rewrite Hvw by (unfold PGSIZE in *; lia).
    replace (a + PGSIZE + i * PGSIZE) with (a + (i + 1) * PGSIZE) by lia. apply Hleaf. lia.
  - intros Hd. rewrite Hpas. rewrite Hd in *. destruct (Hfr eq_refl) as [Hnd Hps].
    unfold ps in *. cbn [pas] in *. apply NoDup_cons in Hnd as [Hnin Hnd].
    split; [done|]. intros p Hp. destruct (Hps p) as [Hok Hno]; [by right|]. split; [done|].
    unfold owned in *. rewrite (um_tree _ _ _ _ _ _ _ Hu). intros [Hin|Hin]; [|by apply Hno; right].
    apply elem_of_app in Hin as [->%list_elem_of_singleton|Hin]; [done|by apply Hno; left].
  - intros s' Hu'. apply HQ. replace (Z.of_nat (S k)) with (Z.of_nat k + 1) by lia.
    rewrite Hpas in Hu'. destruct do_free; unfold ps; cbn [pas rev].
    + by eapply unmapped_cons; [lia|..].
    + by eapply (unmapped_cons _ _ _ [] []); [lia|..].
Qed.

Lemma wp_uvmunmap n s l root a do_free (Q : unit → pmem → Prop) :
  vm_inv s l root → a mod PGSIZE = 0 → 0 ≤ a → 0 ≤ n → a + n * PGSIZE ≤ MAXVA →
  (∀ i, 0 ≤ i < n → is_leaf_pte (pview (pm_mem s) root (a + i * PGSIZE))) →
  let ps := pas (pm_mem s) root (Z.to_nat n) a in
  (do_free = true → freeable s l root ps) →
  (∀ s', unmapped root a n (if do_free then rev ps else []) s l s' → Q () s') →
  wp (uvmunmap root a n do_free) Q s.
Proof.
  intros Hv Hal Ha Hn Hmax Hleaf ps Hfr HQ. unfold uvmunmap. rewrite Hal. cbn [Z.eqb negb].
  assert (Hmx : MAXVA = 2 ^ 38) by done.
  rewrite (u64_small (n * PGSIZE)) by (unfold PGSIZE in *; lia).
  rewrite u64_small by (unfold PGSIZE in *; lia).
  replace (a + n * PGSIZE) with (a + Z.of_nat (Z.to_nat n) * PGSIZE) by by rewrite Z2Nat.id.
  eapply wp_uvmunmap_loop; rewrite ?Z2Nat.id by done; done.
Qed.

End map.
