(* ===== verification/VmUser.v ===== *)
(** User address spaces: uvmalloc(), uvmdealloc(), uvmcreate(), uvminit() and
    walkaddr() (vm.c) keep an address space in order.

    A process of size [sz] has the pages below PGROUNDUP(sz) mapped, each to a
    physical page of its own; between there and the trapframe nothing is mapped. *)
From S2P Require Import Prelude Machine CString Spinlock Kalloc PageTable Vm VmMap.

(** The byte a user program finds at virtual address [va]. *)
Definition upa (m : mem) (root va : Z) : Z := PTE2PA (pview m root va) + va mod PGSIZE.
Definition uread (m : mem) (root va : Z) : Z := m (upa m root va).

Definition pages (n : nat) : Z := Z.of_nat n * PGSIZE.

Record as_inv `{Symbols} (s : pmem) (l : list Z) (root : Z) (n : nat) : Prop := {
  ai_vm : vm_inv s l root;
  ai_max : pages n ≤ TRAPFRAME;
  ai_leaf : ∀ i, 0 ≤ i < Z.of_nat n → is_leaf_pte (pview (pm_mem s) root (i * PGSIZE));
  ai_free : freeable s l root (pas (pm_mem s) root n 0);
  ai_none : ∀ vb, pages n ≤ vb < TRAPFRAME → pte_v (pview (pm_mem s) root vb) = false
}.

(** The pages at the disposal of the address space: free ones, its table's and its own. *)
Definition space (s : pmem) (l : list Z) (root : Z) (n : nat) (p : Z) : Prop :=
  owned s l root p ∨ p ∈ pas (pm_mem s) root n 0.

(** The pages uvmalloc() maps: zero, the user's, with all rights. *)
Definition uflags : Z := Z.lor (Z.lor (Z.lor PTE_W PTE_X) PTE_R) PTE_U.
Definition fresh_page (va flags byte : Z) : Prop := flags = Z.lor uflags PTE_V ∧ byte = 0.

(** From [n] to [n'] pages: old pages are untouched, the flags and the contents of
    new ones are as [N] says; no page is lost. *)
Record extends `{Symbols} (N : Z → Z → Z → Prop) (root : Z) (s : pmem) (l : list Z) (n : nat)
    (s' : pmem) (l' : list Z) (n' : nat) : Prop := {
  ex_inv : as_inv s' l' root n';
  ex_view : ∀ vb, 0 ≤ vb < MAXVA → (vb < pages n ∨ TRAPFRAME ≤ vb) →
    pview (pm_mem s') root vb = pview (pm_mem s) root vb;
  ex_new : ∀ vb, pages n ≤ vb < pages n' →
    N vb (PTE_FLAGS (pview (pm_mem s') root vb)) (uread (pm_mem s') root vb);
  ex_space : ∀ p, space s' l' root n' p ↔ space s l root n p;
  ex_owned : ∀ p, owned s' l' root p → owned s l root p;
  ex_frame : off_pages (owned s l root) (pm_mem s) (pm_mem s')
}.

Lemma TRAPFRAME_lt : TRAPFRAME < MAXVA.
Proof. by vm_compute. Qed.

Lemma PTE_FLAGS_0 : PTE_FLAGS 0 = 0.
Proof. done. Qed.

Lemma pages_S n : pages (S n) = pages n + PGSIZE.
Proof. unfold pages. lia. Qed.

Lemma pages_mod n : pages n mod PGSIZE = 0.
Proof. unfold pages. by apply Z.mod_mul. Qed.

Lemma pages_pos n : 0 ≤ pages n.
Proof. unfold pages, PGSIZE. lia. Qed.

#[export] Hint Resolve pages_mod pages_pos TRAPFRAME_lt : kern.

Lemma pas_app m root k1 k2 a :
  pas m root (k1 + k2) a = pas m root k1 a ++ pas m root k2 (a + pages k1).
Proof.
  revert a. induction k1 as [|k1 IH]; intros a; simpl.
  - unfold pages. by rewrite Z.mul_0_l, Z.add_0_r.
  - by rewrite IH, pages_S, (Z.add_comm (pages k1)), Z.add_assoc.
Qed.

Lemma pas_S m root k a : pas m root (S k) a = pas m root k a ++ [PTE2PA (pview m root (a + pages k))].
Proof. rewrite <- Nat.add_1_r, pas_app. done. Qed.

Lemma elem_of_pas_sub m root n k N p :
  (n + k ≤ N)%nat → p ∈ pas m root k (pages n) → p ∈ pas m root N 0.
Proof.
  intros Hle Hp. replace N with (n + (k + (N - n - k)))%nat by lia.
  rewrite !pas_app, Z.add_0_l, !elem_of_app. auto.
Qed.

(** The page of [va] as an index. *)
Lemma page_index va n : 0 ≤ va < pages n → 0 ≤ va / PGSIZE < Z.of_nat n.
Proof. unfold pages, PGSIZE. intros. zdm. Qed.

Lemma pview_page m root va : pview m root (va / PGSIZE * PGSIZE) = pview m root va.
Proof.
  replace (va / PGSIZE * PGSIZE) with (PGROUNDDOWN va).
  - unfold pview, leaf. by rewrite !PX_page by lia.
  - rewrite PGROUNDDOWN_eq. unfold PGSIZE. zdm.
Qed.

Section user.
Context `{Symbols}.

Lemma ai_page s l root n va :
  as_inv s l root n → 0 ≤ va < pages n →
  is_leaf_pte (pview (pm_mem s) root va) ∧ page_ok (PTE2PA (pview (pm_mem s) root va)) ∧
  ¬ owned s l root (PTE2PA (pview (pm_mem s) root va)).
Proof.
  intros Ha Hva. pose proof (page_index va n Hva) as Hi.
  rewrite <- (pview_page _ _ va). split; [by apply Ha|].
  destruct (ai_free _ _ _ _ Ha) as [_ Hf]. apply Hf. apply elem_of_pas.
  exists (va / PGSIZE). by rewrite Z.add_0_l.
Qed.

(** Two addresses that share a physical page lie in the same virtual page. *)
Lemma pas_lookup m root k a i :
  0 ≤ i < Z.of_nat k → pas m root k a !! Z.to_nat i = Some (PTE2PA (pview m root (a + i * PGSIZE))).
Proof.
  revert a i. induction k as [|k IH]; intros a i Hi; [lia|]. cbn [pas].
  destruct (Z.eqb_spec i 0) as [->|].
  - simpl. by rewrite Z.mul_0_l, Z.add_0_r.
  - replace (Z.to_nat i) with (S (Z.to_nat (i - 1))) by lia. simpl.
    rewrite IH by lia. do 3 f_equal. lia.
Qed.

Lemma ai_inj s l root n va vb :
  as_inv s l root n → 0 ≤ va < pages n → 0 ≤ vb < pages n →
  PTE2PA (pview (pm_mem s) root va) = PTE2PA (pview (pm_mem s) root vb) →
  va / PGSIZE = vb / PGSIZE.
Proof.
  intros Ha Hva Hvb E. destruct (ai_free _ _ _ _ Ha) as [Hnd _].
  pose proof (page_index va n Hva). pose proof (page_index vb n Hvb).
  assert (Z.to_nat (va / PGSIZE) = Z.to_nat (vb / PGSIZE)); [|lia].
  eapply NoDup_lookup; [done|..]; rewrite pas_lookup by done; [done|].
  rewrite !Z.add_0_l, !pview_page. by f_equal.
Qed.

Lemma space_pages s l root n p : as_inv s l root n → space s l root n p → page_ok p.
Proof.
  intros Ha [Ho|Hp]; [eapply owned_aligned; [apply Ha|done]|]. by apply Ha in Hp as [? _].
Qed.

Lemma extends_refl N s l root n : as_inv s l root n → extends N root s l n s l n.
Proof. intros Ha. split; auto with kern; try done. lia. Qed.

(** What an extension leaves of the old data. *)
Lemma extends_uread N root s l n s' l' n' va :
  as_inv s l root n → extends N root s l n s' l' n' → 0 ≤ va < pages n →
  uread (pm_mem s') root va = uread (pm_mem s) root va.
Proof.
  intros Ha He Hva. pose proof (ai_max _ _ _ _ Ha). pose proof TRAPFRAME_lt.
  unfold uread, upa. rewrite (ex_view _ _ _ _ _ _ _ _ He) by lia.
  destruct (ai_page _ _ _ _ _ Ha Hva) as (_ & Hok & Hno).
  eapply (off_pages_agree (owned s l root)); [apply He| |apply Hok|done|].
  - intros p Hp. by apply (owned_aligned s l root p (ai_vm _ _ _ _ Ha)).
  - unfold PGSIZE. zdm.
Qed.

Lemma extends_trans N root s l n s1 l1 n1 s2 l2 n2 :
  (n ≤ n1)%nat → (n1 ≤ n2)%nat → as_inv s1 l1 root n1 →
  extends N root s l n s1 l1 n1 → extends N root s1 l1 n1 s2 l2 n2 → extends N root s l n s2 l2 n2.
Proof.
  intros Hn1 Hn2 Ha1 E1 E2.
  assert (pages n ≤ pages n1 ≤ pages n2) by (unfold pages, PGSIZE; lia).
  pose proof (ai_max _ _ _ _ (ex_inv _ _ _ _ _ _ _ _ E2)). pose proof TRAPFRAME_lt.
  pose proof (pages_pos n).
  split.
  - apply E2.
  - intros vb Hvb Hor. rewrite (ex_view _ _ _ _ _ _ _ _ E2), (ex_view _ _ _ _ _ _ _ _ E1); [done|lia..].
  - intros vb Hvb. destruct (Z.ltb_spec vb (pages n1)) as [Hlt|Hge].
    + rewrite (extends_uread N root s1 l1 n1 s2 l2 n2 vb) by (done || lia).
      rewrite (ex_view _ _ _ _ _ _ _ _ E2) by lia. apply (ex_new _ _ _ _ _ _ _ _ E1). lia.
    + apply (ex_new _ _ _ _ _ _ _ _ E2). lia.
  - intros p. by rewrite (ex_space _ _ _ _ _ _ _ _ E2), (ex_space _ _ _ _ _ _ _ _ E1).
  - intros p Hp. apply E1, E2, Hp.
  - eapply off_pages_trans; [apply E1|]. eapply off_pages_mono; [apply E1|apply E2].
Qed.
(** ** Mapping one more page *)

Lemma kalloc_vm_inv s p l s1 root :
  vm_inv s (p :: l) root → kinv s1 l → only_page p (pm_mem s) (pm_mem s1) →
  same_tree root (pm_mem s) (pm_mem s1) ∧ vm_inv s1 l root ∧ ¬ in_tree (pm_mem s1) root p.
Proof.
  intros Hv Hk Ho. assert (Hnt : ¬ in_tree (pm_mem s) root p)
    by (intros Hin; apply (vi_tree _ _ _ Hv p Hin); left).
  assert (Hp : page_ok p) by (apply (owned_aligned s (p :: l) root); [done|left; left]).
  assert (Hst : same_tree root (pm_mem s) (pm_mem s1)).
  { eapply (same_tree_off _ _ _ (eq p)); [apply Hv| |by intros ? <-|by intros ? <-].
    by eapply off_pages_only. }
  split_and!; [done| |by rewrite (st_tree _ _ _ Hst)].
  eapply vm_inv_same_tree; [done..|]. intros q Hq. apply (vi_tree _ _ _ Hv) in Hq. set_solver.
Qed.

(** The state between kalloc() and mappages(): page [p] has been taken from the
    free list and written; the address space is as it was. *)
Record taken (root : Z) (n : nat) (s : pmem) (p : Z) (l : list Z) (s1 : pmem) : Prop := {
  tk_as : as_inv s (p :: l) root n;
  tk_kinv : kinv s1 l;
  tk_only : only_page p (pm_mem s) (pm_mem s1)
}.

Lemma taken_vm root n s p l s1 :
  taken root n s p l s1 →
  same_tree root (pm_mem s) (pm_mem s1) ∧ vm_inv s1 l root ∧ ¬ owned s1 l root p ∧ page_ok p.
Proof.
  intros [Ha Hk Ho]. destruct (kalloc_vm_inv s p l s1 root (ai_vm _ _ _ _ Ha) Hk Ho) as (? & ? & ?).
  split_and!; try done.
  - intros [Hin|Hin]; [|done]. pose proof (ki_nodup _ _ (vi_kinv _ _ _ (ai_vm _ _ _ _ Ha))) as Hnd.
    by apply NoDup_cons in Hnd as [? _].
  - apply (owned_aligned s (p :: l) root); [apply Ha|left; left].
Qed.

(** ... and the free and table pages are those from before, less [p]. *)
Lemma taken_owned root n s p l s1 q :
  taken root n s p l s1 → owned s1 l root q ↔ owned s (p :: l) root q ∧ q ≠ p.
Proof.
  intros Htk. destruct (taken_vm _ _ _ _ _ _ Htk) as (Hst & _ & Hno & _).
  unfold owned in *. rewrite (st_tree _ _ _ Hst) in *. rewrite elem_of_cons.
  destruct (decide (q = p)) as [->|]; tauto.
Qed.

Lemma extends_map (N : Z → Z → Z → Prop) root n s p l s1 perm s2 l2 :
  taken root n s p l s1 → pages (S n) ≤ TRAPFRAME → 0 ≤ perm < 1024 → Z.lor perm PTE_V ≠ PTE_V →
  (∀ vb, pages n ≤ vb < pages (S n) → N vb (Z.lor perm PTE_V) (pm_mem s1 (p + vb mod PGSIZE))) →
  mapped root (pages n) p perm 1 s1 l s2 l2 → extends N root s (p :: l) n s2 l2 (S n).
Proof.
  intros Htk Hmax Hperm Hpl HN Hm. pose proof Htk as [Ha Hk Ho].
  destruct (taken_vm _ _ _ _ _ _ Htk) as (Hst & Hv1 & Hno & Hp).
  pose proof TRAPFRAME_lt as HT. pose proof (pages_pos n) as Hp0. pose proof (pages_S n) as HS.
  assert (Hpr : 0 ≤ p < 2 ^ 56)
    by (destruct Hp as (_ & _ & ? & ?); unfold PHYSTOP, KERNBASE, PGSIZE in *; lia).
  assert (Hold : ∀ vb, 0 ≤ vb < MAXVA → (vb < pages n ∨ pages (S n) ≤ vb) →
            pview (pm_mem s2) root vb = pview (pm_mem s) root vb).
  { intros vb Hvb Hor. rewrite (mp_view _ _ _ _ _ _ _ _ _ Hm), (st_view _ _ _ Hst) by done.
    rewrite Z.mul_1_l. destruct (Z.leb_spec (pages n) vb), (Z.ltb_spec vb (pages n + PGSIZE));
      simpl; done || lia. }
  assert (Hnew : ∀ vb, pages n ≤ vb < pages (S n) → pview (pm_mem s2) root vb = map_pte p perm).
  { intros vb Hvb. rewrite (mp_view _ _ _ _ _ _ _ _ _ Hm) by lia. rewrite Z.mul_1_l.
    destruct (Z.leb_spec (pages n) vb), (Z.ltb_spec vb (pages n + PGSIZE)); try lia. simpl.
    rewrite (PGROUNDDOWN_in (pages n)) by (auto with kern; lia). f_equal. lia. }
  assert (HPA : PTE2PA (map_pte p perm) = p) by (apply map_pte_PA; try done; apply Hp).
  assert (Hpas : pas (pm_mem s2) root (S n) 0 = pas (pm_mem s) root n 0 ++ [p]).
  { rewrite pas_S, Z.add_0_l, Hnew, HPA by (unfold PGSIZE in *; lia). f_equal.
    apply pas_ext. intros vb Hvb. fold (pages n) in Hvb. apply Hold; unfold PGSIZE in *; lia. }
  assert (Hown : ∀ q, owned s2 l2 root q ↔ owned s (p :: l) root q ∧ q ≠ p).
  { intros q. rewrite (mp_owned _ _ _ _ _ _ _ _ _ Hm). by eapply taken_owned. }
  destruct (ai_free _ _ _ _ Ha) as [Hnd Hfr].
  split.
  - split; [apply Hm|done|..].
    + intros i Hi. destruct (Z.eqb_spec i (Z.of_nat n)) as [->|].
      * fold (pages n). rewrite Hnew by (unfold PGSIZE in *; lia). split; [apply map_pte_v|].
        by rewrite map_pte_flags.
      * rewrite Hold; [apply Ha; lia|unfold pages, PGSIZE in *; lia..].
    + rewrite Hpas. split.
      * apply NoDup_app. split_and!; [done| |apply NoDup_singleton].
        intros q Hq ->%list_elem_of_singleton. apply Hfr in Hq as [_ Hq]. apply Hq. left. left.
      * intros q [Hq| ->%list_elem_of_singleton]%elem_of_app; rewrite Hown; [|tauto].
        apply Hfr in Hq as [? ?]. tauto.
    + intros vb Hvb. rewrite Hold by (unfold PGSIZE in *; lia).
      apply (ai_none _ _ _ _ Ha). unfold PGSIZE in *. lia.
  - intros vb Hvb Hor. apply Hold; lia.
  - intros vb Hvb. unfold uread, upa. rewrite Hnew, map_pte_flags, HPA by done.
    replace (pm_mem s2 (p + vb mod PGSIZE)) with (pm_mem s1 (p + vb mod PGSIZE)); [auto|].
    symmetry. eapply (off_pages_agree (owned s1 l root)); [apply Hm| |apply Hp|done|].
    + intros q Hq. by apply (owned_aligned _ _ _ _ Hv1 Hq).
    + unfold PGSIZE. zdm.
  - intros q. unfold space. rewrite Hown, Hpas, elem_of_app, list_elem_of_singleton.
    unfold owned. rewrite elem_of_cons. destruct (decide (q = p)) as [->|]; tauto.
  - intros q Hq. by apply Hown in Hq as [? _].
  - eapply off_pages_trans.
    + eapply (off_pages_only _ p); [left; left|done].
    + eapply off_pages_mono; [|apply Hm]. intros q Hq.
      by apply (taken_owned _ _ _ _ _ _ _ Htk) in Hq as [? _].
Qed.
(** kalloc() found no page. *)
Lemma extends_nomem N root n s s' :
  as_inv s [] root n → kinv s' [] → pm_mem s' = pm_mem s → extends N root s [] n s' [] n.
Proof.
  intros Ha Hk Hm. pose proof Ha as [[_ Hwf Ht] Hmax Hleaf Hfr Hnone].
  split; unfold space, owned; rewrite ?Hm; auto with kern; try done; [|lia].
  split; unfold freeable, owned in *; rewrite ?Hm; auto. split; rewrite ?Hm; auto.
Qed.

(** mappages() found no page for the table, and kfree() took back the page. *)
Lemma extends_fail N root n s p l s1 perm s2 s3 :
  taken root n s p l s1 → mapped root (pages n) p perm 0 s1 l s2 [] →
  kinv s3 [p] → only_page p (pm_mem s2) (pm_mem s3) → extends N root s (p :: l) n s3 [p] n.
Proof.
  intros Htk Hm Hk3 Ho3. pose proof Htk as [Ha Hk Ho].
  destruct (taken_vm _ _ _ _ _ _ Htk) as (Hst & Hv1 & Hno & Hp).
  pose proof (mp_inv _ _ _ _ _ _ _ _ _ Hm) as Hv2.
  assert (Hnt2 : ¬ in_tree (pm_mem s2) root p).
  { intros Hin. apply Hno, (mp_owned _ _ _ _ _ _ _ _ _ Hm). by right. }
  assert (Hst3 : same_tree root (pm_mem s2) (pm_mem s3)).
  { eapply (same_tree_off _ _ _ (eq p)); [apply Hv2| |by intros ? <-|by intros ? <-].
    by eapply off_pages_only. }
  assert (Hview : ∀ vb, 0 ≤ vb < MAXVA → pview (pm_mem s3) root vb = pview (pm_mem s) root vb).
  { intros vb Hvb. rewrite (st_view _ _ _ Hst3), (mp_view _ _ _ _ _ _ _ _ _ Hm), (st_view _ _ _ Hst) by done.
    destruct (Z.leb_spec (pages n) vb), (Z.ltb_spec vb (pages n + 0 * PGSIZE)); simpl; done || lia. }
  assert (Hown : ∀ q, owned s3 [p] root q ↔ owned s (p :: l) root q).
  { intros q. pose proof (mp_owned _ _ _ _ _ _ _ _ _ Hm q) as Hq2.
    pose proof (taken_owned _ _ _ _ _ _ q Htk) as Hq1. unfold owned in *.
    rewrite (st_tree _ _ _ Hst3). rewrite elem_of_nil in Hq2. rewrite list_elem_of_singleton.
    destruct (decide (q = p)) as [->|Hne]; [|tauto].
    split; [|by left]. intros _. left. left. }
  pose proof (ai_max _ _ _ _ Ha) as Hmax. pose proof TRAPFRAME_lt. pose proof (pages_pos n).
  assert (Hpas : pas (pm_mem s3) root n 0 = pas (pm_mem s) root n 0).
  { apply pas_ext. intros vb Hvb. fold (pages n) in Hvb. apply Hview. lia. }
  split.
  - split; [|done|..].
    + eapply vm_inv_same_tree; [apply Hv2|done..|]. intros q Hq ->%list_elem_of_singleton. done.
    + intros i Hi. rewrite Hview by (unfold pages, PGSIZE in *; lia). by apply Ha.
    + unfold freeable. rewrite Hpas. destruct (ai_free _ _ _ _ Ha) as [Hnd Hfr].
      split; [done|]. intros q Hq. rewrite Hown. auto.
    + intros vb Hvb. rewrite Hview by lia. exact (ai_none _ _ _ _ Ha vb Hvb).
  - auto.
  - lia.
  - intros q. unfold space. by rewrite Hown, Hpas.
  - intros q. apply Hown.
  - eapply off_pages_trans; [|eapply off_pages_trans].
    + eapply (off_pages_only _ p); [left; left|apply Ho].
    + eapply off_pages_mono; [|apply Hm]. intros q Hq.
      by apply (taken_owned _ _ _ _ _ _ _ Htk) in Hq as [? _].
    + eapply (off_pages_only _ p); [left; left|done].
Qed.

(** ** Unmapping the pages from [n] on *)
Record shrinks (root : Z) (s : pmem) (l : list Z) (k n : nat) (s' : pmem) (l' : list Z) : Prop := {
  sh_inv : as_inv s' l' root n;
  sh_view : ∀ vb, 0 ≤ vb < MAXVA → (vb < pages n ∨ pages (n + k) ≤ vb) →
    pview (pm_mem s') root vb = pview (pm_mem s) root vb;
  sh_freed : l' = rev (pas (pm_mem s) root k (pages n)) ++ l;
  sh_tree : ∀ p, in_tree (pm_mem s') root p ↔ in_tree (pm_mem s) root p;
  sh_frame : off_pages (λ p, p ∈ pas (pm_mem s) root k (pages n) ∨ in_tree (pm_mem s) root p)
               (pm_mem s) (pm_mem s')
}.

Lemma pages_add n k : pages (n + k) = pages n + pages k.
Proof. unfold pages. lia. Qed.

Lemma unmapped_shrinks root s l k n s' :
  as_inv s l root (n + k) →
  unmapped root (pages n) (Z.of_nat k) (rev (pas (pm_mem s) root k (pages n))) s l s' →
  shrinks root s l k n s' (rev (pas (pm_mem s) root k (pages n)) ++ l).
Proof.
  intros [Hv Hmax Hleaf [Hnd Hfr] Hnone] [Hi Hview Htree Hfrm]. fold (pages k) in Hview.
  pose proof TRAPFRAME_lt. pose proof (pages_pos n). pose proof (pages_pos k).
  rewrite pages_add in *. rewrite pas_app, Z.add_0_l in Hnd, Hfr.
  apply NoDup_app in Hnd as (Hnd1 & Hd & Hnd2).
  assert (Hold : ∀ vb, 0 ≤ vb < MAXVA → (vb < pages n ∨ pages n + pages k ≤ vb) →
            pview (pm_mem s') root vb = pview (pm_mem s) root vb).
  { intros vb Hvb Hor. rewrite Hview by done.
    destruct (Z.leb_spec (pages n) vb), (Z.ltb_spec vb (pages n + pages k)); simpl; done || lia. }
  assert (Hpas : pas (pm_mem s') root n 0 = pas (pm_mem s) root n 0).
  { apply pas_ext. intros vb Hvb. fold (pages n) in Hvb. apply Hold; lia. }
  split; try done.
  - split; [done|lia|..].
    + intros i Hi'. rewrite Hold by (unfold pages, PGSIZE in *; lia). apply Hleaf. lia.
    + rewrite Hpas. split; [done|]. intros p Hp. destruct (Hfr p) as [Hok Hno]; [apply elem_of_app; by left|].
      split; [done|]. unfold owned in *. rewrite Htree, elem_of_app, elem_of_rev.
      intros [[Hin|Hin]|Hin]; [by apply (Hd p)|tauto..].
    + intros vb Hvb. rewrite Hview by lia.
      destruct (Z.leb_spec (pages n) vb), (Z.ltb_spec vb (pages n + pages k)); simpl;
        [done|apply Hnone; lia|lia..].
  - rewrite pages_add. done.
  - eapply off_pages_mono; [|done]. intros p. cbv beta. by rewrite elem_of_rev.
Qed.
Lemma extends_shrinks N root s l n s1 l1 k s2 l2 :
  as_inv s l root n → extends N root s l n s1 l1 (n + k) → shrinks root s1 l1 k n s2 l2 →
  extends N root s l n s2 l2 n.
Proof.
  intros Ha E Sh.
  pose proof (ex_inv _ _ _ _ _ _ _ _ E) as [_ Hmax1 _ [Hnd1 _] _].
  pose proof TRAPFRAME_lt. pose proof (pages_pos n). pose proof (pages_pos k).
  rewrite pages_add in Hmax1. rewrite pas_app, Z.add_0_l in Hnd1.
  apply NoDup_app in Hnd1 as (_ & Hd & _).
  assert (Hv1 : ∀ vb, 0 ≤ vb < pages n → pview (pm_mem s1) root vb = pview (pm_mem s) root vb).
  { intros vb Hvb. apply (ex_view _ _ _ _ _ _ _ _ E); lia. }
  assert (Hv2 : ∀ vb, 0 ≤ vb < pages n → pview (pm_mem s2) root vb = pview (pm_mem s1) root vb).
  { intros vb Hvb. apply (sh_view _ _ _ _ _ _ _ Sh); lia. }
  assert (Hp1 : pas (pm_mem s1) root n 0 = pas (pm_mem s) root n 0).
  { apply pas_ext. intros vb Hvb. fold (pages n) in Hvb. apply Hv1. lia. }
  assert (Hp2 : pas (pm_mem s2) root n 0 = pas (pm_mem s) root n 0).
  { rewrite <- Hp1. apply pas_ext. intros vb Hvb. fold (pages n) in Hvb. apply Hv2. lia. }
  assert (Hback : ∀ p, p ∈ pas (pm_mem s1) root k (pages n) → owned s l root p).
  { intros p Hp. assert (Hsp : space s1 l1 root (n + k) p).
    { right. rewrite pas_app, Z.add_0_l. apply elem_of_app. by right. }
    apply (ex_space _ _ _ _ _ _ _ _ E) in Hsp as [?|Hin]; [done|].
    exfalso. apply (Hd p); [by rewrite Hp1|done]. }
  assert (Hown2 : ∀ p, owned s2 l2 root p ↔ p ∈ pas (pm_mem s1) root k (pages n) ∨ owned s1 l1 root p).
  { intros p. unfold owned. rewrite (sh_tree _ _ _ _ _ _ _ Sh), (sh_freed _ _ _ _ _ _ _ Sh).
    rewrite elem_of_app, elem_of_rev. tauto. }
  split.
  - apply Sh.
  - intros vb Hvb Hor. rewrite (sh_view _ _ _ _ _ _ _ Sh) by (rewrite ?pages_add; lia).
    apply (ex_view _ _ _ _ _ _ _ _ E); lia.
  - lia.
  - intros p. unfold space. rewrite Hown2, Hp2.
    pose proof (ex_space _ _ _ _ _ _ _ _ E p) as Hsp. unfold space in Hsp.
    rewrite pas_app, Z.add_0_l, elem_of_app, Hp1 in Hsp. tauto.
  - intros p [Hp|Hp]%Hown2; [auto|]. by apply (ex_owned _ _ _ _ _ _ _ _ E).
  - eapply off_pages_trans; [apply E|]. eapply off_pages_mono; [|apply Sh].
    intros p [Hp|Hp]; [auto|]. apply (ex_owned _ _ _ _ _ _ _ _ E). by right.
Qed.
(** ** uvmdealloc() *)

(** The pages of a process of size [sz]. *)
Definition npages (sz : Z) : nat := Z.to_nat (PGROUNDUP sz / PGSIZE).

Lemma npages_eq sz : 0 ≤ sz ≤ TRAPFRAME → PGROUNDUP sz = pages (npages sz).
Proof.
  intros Hsz. assert (Hmx : TRAPFRAME < 2 ^ 38) by by vm_compute.
  destruct (PGROUNDUP_bounds sz) as [Hb Hm]; [lia|unfold PGSIZE; lia|].
  unfold pages, npages. unfold PGSIZE in *. zdm.
Qed.

Lemma npages_bounds sz : 0 ≤ sz ≤ TRAPFRAME → sz ≤ pages (npages sz) < sz + PGSIZE.
Proof.
  intros Hsz. rewrite <- npages_eq by done. assert (Hmx : TRAPFRAME < 2 ^ 38) by by vm_compute.
  apply PGROUNDUP_bounds; [lia|unfold PGSIZE; lia].
Qed.

Lemma npages_mono a b : 0 ≤ a ≤ b → b ≤ TRAPFRAME → (npages a ≤ npages b)%nat.
Proof.
  intros Hab Hb. pose proof (npages_bounds a). pose proof (npages_bounds b).
  unfold pages, PGSIZE in *. lia.
Qed.

Lemma npages_pages n : pages n ≤ TRAPFRAME → npages (pages n) = n.
Proof.
  intros Hn. pose proof (npages_bounds (pages n)). pose proof (pages_pos n).
  unfold pages, PGSIZE in *. lia.
Qed.

Lemma wp_uvmdealloc s l root oldsz newsz (Q : Z → pmem → Prop) :
  as_inv s l root (npages oldsz) → 0 ≤ newsz ≤ oldsz → oldsz ≤ TRAPFRAME →
  (∀ s' l', shrinks root s l (npages oldsz - npages newsz) (npages newsz) s' l' → Q newsz s') →
  wp (uvmdealloc root oldsz newsz) Q s.
Proof.
  intros Ha Hsz Hmax HQ. pose proof (npages_mono newsz oldsz) as Hmono.
  assert (Hmx : TRAPFRAME < 2 ^ 38) by by vm_compute.
  pose proof (ai_max _ _ _ _ Ha) as Hm2. pose proof TRAPFRAME_lt as HT.
  set (n := npages newsz) in *. set (k := (npages oldsz - n)%nat) in *.
  replace (npages oldsz) with (n + k)%nat in Ha, Hm2 by lia.
  assert (Hnil : k = 0%nat → shrinks root s l k n s l).
  { intros Ek. rewrite Ek in *. rewrite Nat.add_0_r in Ha.
    split; simpl; auto with kern; done. }
  unfold uvmdealloc. destruct (Z.leb_spec oldsz newsz) as [Hle|Hgt].
  { assert (oldsz = newsz) by lia. subst oldsz. apply wp_ret, (HQ s l), Hnil. lia. }
  apply wp_bind. rewrite !npages_eq by lia. fold n.
  replace (pages (npages oldsz)) with (pages (n + k)) by (f_equal; lia). rewrite pages_add.
  apply wp_when; intros Hc.
  - apply Z.ltb_lt in Hc.
    assert (Ek : (pages n + pages k - pages n) / PGSIZE = Z.of_nat k).
    { replace (pages n + pages k - pages n) with (pages k) by lia. by apply Z.div_mul. }
    rewrite Ek. pose proof (pages_pos n). rewrite pages_add in Hm2.
    assert (Z.of_nat k < 2 ^ 31) by (unfold pages, PGSIZE in *; lia).
    rewrite s32_small, u64_small by lia.
    eapply (wp_uvmunmap _ s l); rewrite ?Nat2Z.id; auto with kern.
    + apply Ha.
    + lia.
    + fold (pages k). lia.
    + intros i Hi. replace (pages n + i * PGSIZE) with ((Z.of_nat n + i) * PGSIZE) by (unfold pages; lia).
      apply Ha. lia.
    + intros _. destruct (ai_free _ _ _ _ Ha) as [Hnd Hfr]. rewrite pas_app, Z.add_0_l in Hnd, Hfr.
      apply NoDup_app in Hnd as (_ & _ & Hnd). split; [done|].
      intros p Hp. apply Hfr. apply elem_of_app. by right.
    + intros s' Hu. apply wp_ret. eapply HQ. by apply unmapped_shrinks.
  - apply wp_ret. apply (HQ s l), Hnil. apply Z.ltb_ge in Hc. unfold pages, PGSIZE in *. lia.
Qed.
(** ** uvmcreate(): the empty address space *)
Lemma empty_table m root :
  page_ok root → (∀ i, 0 ≤ i < 512 → load64 m (root + 8 * i) = 0) →
  pt_wf m root ∧ (∀ p, in_tree m root p → p = root) ∧ (∀ vb, pview m root vb = 0).
Proof.
  intros Hr Hz.
  assert (Hn : ∀ path p, path_ok path → node m root path = Some p → path = [] ∧ p = root).
  { intros [|i path] p [Hf _] Hn; [by simplify_eq/=|]. apply Forall_cons in Hf as [Hi _].
    simpl in Hn. unfold child in Hn. by rewrite Hz in Hn. }
  split_and!; [split|..].
  - intros path p Hok Hp. by apply Hn in Hp as [_ ->].
  - intros p1 p2 p Hok1 Hok2 H1 H2. apply Hn in H1 as [-> _], H2 as [-> _]; done.
  - intros p (path & Hok & Hp). by apply Hn in Hp as [_ ->].
  - intros vb. unfold pview, leaf. simpl. unfold child. by rewrite Hz by apply PX_range.
Qed.

Lemma wp_uvmcreate s l (Q : Z → pmem → Prop) :
  kinv s l →
  (l = [] → ∀ s', kinv s' [] → pm_mem s' = pm_mem s → Q 0 s') →
  (∀ root l' s', l = root :: l' → root ≠ 0 → as_inv s' l' root 0 →
     only_page root (pm_mem s) (pm_mem s') →
     (∀ p, in_tree (pm_mem s') root p → p = root) →
     (∀ vb, pview (pm_mem s') root vb = 0) → Q root s') →
  wp uvmcreate Q s.
Proof.
  intros Hk H0 H1. unfold uvmcreate. apply wp_bind. eapply wp_kalloc; [done|..].
  - intros -> s' Hk' Hm. apply wp_ret. auto.
  - intros p l' s' -> Hk' Hp Hnin Ho. assert (p ≠ 0) by (destruct Hp as (_ & _ & _ & ?); lia).
    destruct (Z.eqb_spec p 0); [done|]. unfold do_memset. wp_steps.
    set (m1 := memset (pm_mem s') p 0 PGSIZE).
    destruct (empty_table m1 p Hp) as (Hwf & Ht & Hv).
    { intros i Hi. apply load_memset_0; unfold PGSIZE; lia. }
    apply (H1 p l'); [done|done| | |exact Ht|exact Hv].
    + split; cbn [set_mem pm_mem]; [|by vm_compute|lia|split; [constructor|set_solver]|].
      * split; cbn [set_mem pm_mem]; [|done|by intros q ->%Ht].
        destruct Hk' as [? ? ? Hfl ? ?]. split; simpl; auto.
        -- by apply memset_ok.
        -- eapply (free_list_only_page (pm_mem s')); [apply only_page_memset|apply Hp|done..].
      * intros vb _. fold m1. by rewrite Hv.
    + eapply only_page_trans; [done|apply only_page_memset].
Qed.

(** ** Undoing a partial extension *)

Lemma wp_undo N s0 l0 root n k s l (Q : Z → pmem → Prop) :
  as_inv s0 l0 root n → extends N root s0 l0 n s l (n + k) →
  (∀ s' l', extends N root s0 l0 n s' l' n → Q (pages n) s') →
  wp (uvmdealloc root (pages (n + k)) (pages n)) Q s.
Proof.
  intros Ha E HQ. pose proof (ex_inv _ _ _ _ _ _ _ _ E) as Ha1.
  pose proof (ai_max _ _ _ _ Ha1). pose proof (ai_max _ _ _ _ Ha). pose proof (pages_pos k).
  pose proof (pages_pos n). pose proof (pages_add n k).
  eapply (wp_uvmdealloc s l); rewrite ?npages_pages by lia; [done|lia|lia|].
  replace (n + k - n)%nat with k by lia. intros s' l' Sh. eapply HQ. by eapply extends_shrinks.
Qed.

(** ** uvmalloc() *)
Lemma zeroed_page m p vb : memset m p 0 PGSIZE (p + vb mod PGSIZE) = 0.
Proof.
  rewrite memset_spec by done. pose proof (Z.mod_pos_bound vb PGSIZE). unfold PGSIZE in *.
  destruct (Z.leb_spec p (p + vb mod 4096)), (Z.ltb_spec (p + vb mod 4096) (p + 4096)); simpl; lia || done.
Qed.

(** The caller may write to the page it got. *)
Lemma taken_write root n s p l s1 m' :
  taken root n s p l s1 → only_page p (pm_mem s1) m' → mem_ok m' →
  taken root n s p l (set_mem m' s1).
Proof.
  intros Htk Ho Hok. destruct (taken_vm _ _ _ _ _ _ Htk) as (_ & _ & Hno & Hp).
  destruct Htk as [Ha [? ? ? Hfl ? ?] Hof]. split; [done| |by eapply only_page_trans].
  split; simpl; auto. eapply (free_list_only_page (pm_mem s1)); [done|apply Hp| |done..].
  intros Hin. apply Hno. by left.
Qed.

(** mappages() of the page just taken, at the end of the address space. *)
Lemma wp_map_taken root n s p l s1 perm (Q : Z → pmem → Prop) :
  taken root n s p l s1 → pages (S n) ≤ TRAPFRAME → 0 ≤ perm < 1024 →
  (∀ s2 l2, mapped root (pages n) p perm 1 s1 l s2 l2 → Q 0 s2) →
  (∀ s2, mapped root (pages n) p perm 0 s1 l s2 [] → Q (-1) s2) →
  wp (mappages root (pages n) PGSIZE p perm) Q s1.
Proof.
  intros Htk Hmax Hperm HQ1 HQ0. destruct (taken_vm _ _ _ _ _ _ Htk) as (Hst & Hv & Hno & Hp).
  pose proof (pages_pos n). pose proof TRAPFRAME_lt. rewrite pages_S in Hmax.
  destruct Hp as (_ & _ & Hp1 & Hp2).
  rewrite <- (Z.mul_1_l PGSIZE) at 1.
  eapply (wp_mappages s1 l); [done|auto with kern|done|lia|lia|lia| |done|..].
  - unfold PHYSTOP, KERNBASE, PGSIZE in *; lia.
  - intros vb Hvb. rewrite (st_view _ _ _ Hst). apply (ai_none _ _ _ _ (tk_as _ _ _ _ _ _ Htk)).
    rewrite Z.mul_1_l in Hvb. lia.
  - done.
  - intros k s2 Hk. assert (k = 0) as -> by lia. apply HQ0.
Qed.

Lemma wp_uvmalloc_loop fuel s0 l0 root n s l k newsz (Q : Z → pmem → Prop) :
  as_inv s0 l0 root n → extends fresh_page root s0 l0 n s l (n + k) →
  0 ≤ newsz ≤ TRAPFRAME → (n + k ≤ npages newsz)%nat →
  (npages newsz ≤ n + k + fuel)%nat →
  (∀ s' l', extends fresh_page root s0 l0 n s' l' (npages newsz) → Q newsz s') →
  (∀ s' l', extends fresh_page root s0 l0 n s' l' n → Q 0 s') →
  wp (uvmalloc_loop fuel root (pages n) (pages (n + k)) newsz) Q s.
Proof.
  intros Ha0. assert (Hmx : TRAPFRAME < 2 ^ 38) by by vm_compute.
  revert s l k. induction fuel as [|fuel IH]; intros s l k E Hsz Hle Hfuel HQ1 HQ0;
    cbn [uvmalloc_loop]; pose proof (npages_bounds newsz Hsz) as Hb.
  - destruct (Z.ltb_spec (pages (n + k)) newsz).
    { unfold pages, PGSIZE in *. lia. }
    apply wp_ret, (HQ1 s l). by replace (npages newsz) with (n + k)%nat by lia.
  - destruct (Z.ltb_spec (pages (n + k)) newsz).
    2: { apply wp_ret, (HQ1 s l).
         replace (npages newsz) with (n + k)%nat; [done|]. unfold pages, PGSIZE in *. lia. }
    pose proof (ex_inv _ _ _ _ _ _ _ _ E) as Ha.
    assert (Hmax : pages (S (n + k)) ≤ TRAPFRAME).
    { assert (HT : TRAPFRAME mod PGSIZE = 0) by done.
      unfold pages, PGSIZE in *. zdm. }
    apply wp_bind. eapply wp_kalloc; [apply Ha|..].
    + intros -> s' Hk Hm. rewrite Z.eqb_refl. apply wp_bind.
      eapply (wp_undo _ s0 l0); [done| |intros s2 l2 E2; by eapply wp_ret, HQ0].
      eapply extends_trans; [| |exact Ha|exact E|by apply extends_nomem]; lia.
    + intros p l' s1 -> Hk Hp Hnin Ho.
      assert (p ≠ 0) by (destruct Hp as (_ & _ & _ & ?); lia).
      destruct (Z.eqb_spec p 0); [done|].
      unfold do_memset. wp_steps.
      set (s2 := set_mem (memset (pm_mem s1) p 0 PGSIZE) s1).
      assert (Htk : taken root (n + k) s p l' s2).
      { apply taken_write; [by split|apply only_page_memset|]. apply memset_ok. apply Hk. }
      pose proof (pages_pos (n + k)). pose proof (pages_S (n + k)).
      eapply (wp_map_taken root (n + k) s p l' s2); [done|done|by vm_compute|..].
      * intros s3 l3 Hm. rewrite Z.eqb_refl. cbn [negb].
        rewrite u64_small, <- pages_S by (unfold PGSIZE in *; lia). rewrite plus_n_Sm.
        eapply IH; [|done| |lia|done..].
        -- rewrite <- plus_n_Sm. eapply extends_trans; [| |exact Ha|exact E|]; [lia..|].
           eapply (extends_map _ _ _ _ _ _ _ uflags); [exact Htk|done|by vm_compute..| |exact Hm].
           intros vb _. split; [done|]. apply zeroed_page.
        -- unfold pages, PGSIZE in *. lia.
      * intros s3 Hm. cbn [Z.eqb negb].
        apply wp_bind. eapply wp_kfree; [apply Hm|done|apply not_elem_of_nil|].
        intros s4 Hk4 Ho4. apply wp_bind.
        eapply (wp_undo _ s0 l0); [done| |intros s5 l5 E5; by eapply wp_ret, HQ0].
        eapply extends_trans; [| |exact Ha|exact E|by eapply extends_fail]; lia.
Qed.

Lemma wp_uvmalloc s l root oldsz newsz (Q : Z → pmem → Prop) :
  as_inv s l root (npages oldsz) → 0 ≤ oldsz ≤ newsz → newsz ≤ TRAPFRAME →
  (∀ s' l', extends fresh_page root s l (npages oldsz) s' l' (npages newsz) → Q newsz s') →
  (∀ s' l', extends fresh_page root s l (npages oldsz) s' l' (npages oldsz) → Q 0 s') →
  wp (uvmalloc root oldsz newsz) Q s.
Proof.
  intros Ha Hsz Hmax HQ1 HQ0.
  pose proof (npages_bounds oldsz) as Hb. pose proof (npages_bounds newsz) as Hb2.
  pose proof (npages_mono oldsz newsz) as Hmono. set (n := npages oldsz) in *.
  unfold uvmalloc. destruct (Z.ltb_spec newsz oldsz); [lia|]. rewrite npages_eq by lia.
  fold n. replace (pages n) with (pages (n + 0)) at 3 by (f_equal; lia).
  eapply (wp_uvmalloc_loop _ s l);
    [done|rewrite Nat.add_0_r; by apply extends_refl|lia|lia| |done|done].
  unfold pages, PGSIZE in *. zdm.
Qed.

(** C5: uvmalloc() grows a process or leaves it as it was. From an address space with
    the pages of [oldsz] mapped, and for any larger [newsz] below the trapframe, it
    returns (no panic, enough turns). Either the result is [newsz]: the pages of
    [newsz] are mapped to distinct RAM pages that are neither free nor table pages,
    the new ones read as zero and carry the flags R, W, X and U, and old pages are
    unchanged; or the result is 0: the address space maps exactly the old pages,
    unchanged. In both cases no page is lost, and only pages that were free or of the
    table have been written. *)
Theorem uvmalloc_correct s l root oldsz newsz :
  as_inv s l root (npages oldsz) → 0 ≤ oldsz ≤ newsz → newsz ≤ TRAPFRAME →
  ∃ r s' l', uvmalloc root oldsz newsz s = Ret r s' ∧
    (r = newsz ∧ extends fresh_page root s l (npages oldsz) s' l' (npages newsz) ∨
     r = 0 ∧ extends fresh_page root s l (npages oldsz) s' l' (npages oldsz)) ∧
    (∀ va, 0 ≤ va < oldsz → uread (pm_mem s') root va = uread (pm_mem s) root va).
Proof.
  intros Ha Hsz Hmax. pose proof (npages_bounds oldsz) as Hb. set (n := npages oldsz) in *.
  assert (Hwp : wp (uvmalloc root oldsz newsz) (λ r s', ∃ l',
     r = newsz ∧ extends fresh_page root s l n s' l' (npages newsz) ∨
     r = 0 ∧ extends fresh_page root s l n s' l' n) s)
    by (eapply wp_uvmalloc; eauto 6).
  apply wp_elim in Hwp as (r & s' & E & l' & Hor). exists r, s', l'. split_and!; [done..|].
  intros va Hva. destruct Hor as [[_ Ex]|[_ Ex]]; eapply extends_uread; try done; lia.
Qed.

(** uvmdealloc() shrinks a process: it returns [newsz]; exactly the pages between
    the two sizes are unmapped and put on the free list; pages below [newsz] keep
    their mapping and their contents. *)
Theorem uvmdealloc_correct s l root oldsz newsz :
  as_inv s l root (npages oldsz) → 0 ≤ newsz ≤ oldsz → oldsz ≤ TRAPFRAME →
  ∃ s' l', uvmdealloc root oldsz newsz s = Ret newsz s' ∧ as_inv s' l' root (npages newsz) ∧
    (∀ p, p ∈ l' ↔ p ∈ l ∨ ∃ va, newsz ≤ va < pages (npages oldsz) ∧ pages (npages newsz) ≤ va ∧
                               p = PTE2PA (pview (pm_mem s) root va)) ∧
    (∀ va, 0 ≤ va < newsz → pview (pm_mem s') root va = pview (pm_mem s) root va ∧
       uread (pm_mem s') root va = uread (pm_mem s) root va).
Proof.
  intros Ha Hsz Hmax. pose proof (npages_mono newsz oldsz) as Hmono.
  pose proof (npages_bounds newsz) as Hbn. pose proof (npages_bounds oldsz) as Hbo.
  assert (Hwp : wp (uvmdealloc root oldsz newsz) (λ r s', r = newsz ∧ ∃ l',
    shrinks root s l (npages oldsz - npages newsz) (npages newsz) s' l') s).
  { eapply wp_uvmdealloc; [done..|]. intros s' l' Sh. split; [done|]. by exists l'. }
  apply wp_elim in Hwp as (r & s' & E & -> & l' & Sh). exists s', l'.
  pose proof (ai_max _ _ _ _ Ha) as Hm2. pose proof TRAPFRAME_lt.
  split_and!; [done|apply Sh|..].
  - intros p. rewrite (sh_freed _ _ _ _ _ _ _ Sh), elem_of_app, elem_of_rev, elem_of_pas.
    split.
    + intros [Hp|Hp]; [|by left]. right. destruct Hp as (i & Hi & ->). exists (pages (npages newsz) + i * PGSIZE).
      unfold pages, PGSIZE in *. split_and!; [lia..|done].
    + intros [Hp|Hp]; [by right|]. left. destruct Hp as (va & Hva & Hva2 & ->). exists (va / PGSIZE - Z.of_nat (npages newsz)).
      split; [unfold pages, PGSIZE in *; zdm|].
      rewrite <- (pview_page _ _ va). do 2 f_equal. unfold pages. lia.
  - intros va Hva. assert (Hv : pview (pm_mem s') root va = pview (pm_mem s) root va)
      by (apply (sh_view _ _ _ _ _ _ _ Sh); lia).
    split; [done|]. unfold uread, upa. rewrite Hv.
    destruct (ai_page _ _ _ _ va Ha) as (_ & Hok & Hno); [lia|].
    eapply off_pages_agree; [apply Sh| |apply Hok| |unfold PGSIZE; zdm].
    + intros p [Hp|Hp].
      * apply (space_pages _ _ _ _ p Ha). right. eapply elem_of_pas_sub; [|done]. lia.
      * by apply (owned_aligned s l root p (ai_vm _ _ _ _ Ha)); right.
    + intros [Hp|Hp]; [|apply Hno; by right].
      apply elem_of_pas in Hp as (i & Hi & Hp).
      apply (ai_inj _ _ _ _ _ _ Ha) in Hp; unfold pages, PGSIZE in *; [|lia..]. zdm.
Qed.
End user.

(** ** Witnesses: a machine with eight whole free pages *)
Definition syms8 : Symbols :=
  {| end_ := PHYSTOP - 8 * PGSIZE; etext := KERNBASE + 0x8000; trampoline := KERNBASE + 0x7000 |}.

Lemma boot8 : ∃ s, @kinv syms8 s (@boot_pages syms8).
Proof.
  destruct (wp_elim (@kinit syms8) (λ _ s', @kinv syms8 s' (@boot_pages syms8)) pmem3)
    as ([] & s0 & E & Hk); [|by exists s0].
  apply (@wp_kinit syms8); [vm_compute; split; congruence|apply pmem3_boot|done].
Qed.

Lemma empty8 : ∃ root s l, @as_inv syms8 s l root 0.
Proof.
  destruct boot8 as [s0 Hk].
  destruct (wp_elim uvmcreate (λ root s', ∃ l, @as_inv syms8 s' l root 0) s0) as (root & s & _ & l & Ha).
  - eapply (@wp_uvmcreate syms8); [exact Hk|..].
    + intros E. vm_compute in E. congruence.
    + intros root l s' _ _ Ha _ _ _. by exists l.
  - by exists root, s, l.
Qed.

(** An address space that uvmalloc() has tried to grow. *)
Lemma sized8 : ∃ root s l r, @as_inv syms8 s l root (npages r) ∧ 0 ≤ r ∧ r ≤ TRAPFRAME.
Proof.
  destruct empty8 as (root & s & l & Ha).
  destruct (wp_elim (@uvmalloc syms8 root 0 5000) (λ r s', ∃ l', @as_inv syms8 s' l' root (npages r) ∧
    0 ≤ r ∧ r ≤ TRAPFRAME) s) as (r & s' & _ & l' & Hi).
  - eapply (@wp_uvmalloc syms8); [exact Ha|lia|vm_compute; congruence|..];
      intros s' l' E; exists l'; (split; [apply E|vm_compute; split; congruence]).
  - exists root, s', l', r. exact Hi.
Qed.

Lemma uvmalloc_correct_witness :
  ∃ root s r s', @uvmalloc syms8 root 0 5000 s = Ret r s' ∧ (r = 5000 ∨ r = 0).
Proof.
  destruct empty8 as (root & s & l & Ha).
  destruct (@uvmalloc_correct syms8 s l root 0 5000 Ha ltac:(lia) ltac:(vm_compute; congruence))
    as (r & s' & l' & E & Hor & _).
  exists root, s, r, s'. split; [exact E|]. destruct Hor as [[Hr _]|[Hr _]]; auto.
Defined.

Lemma uvmdealloc_correct_witness :
  ∃ root s l r s', @as_inv syms8 s l root (npages r) ∧ @uvmdealloc syms8 root r 0 s = Ret 0 s'.
Proof.
  destruct sized8 as (root & s1 & l1 & r & Hi & H0 & Hm).
  destruct (@uvmdealloc_correct syms8 s1 l1 root r 0 Hi (conj (Z.le_refl 0) H0) Hm)
    as (s' & l' & E & _).
  exists root, s1, l1, r, s'. split; assumption.
Defined.
