(* ===== verification/VmCopy.v ===== *)
(** copyin(), copyout() and copyinstr() (vm.c): moving bytes between kernel buffers
    and user memory through the page table. *)
From S2P Require Import Prelude Machine CString Spinlock Kalloc PageTable Vm VmMap VmUser.

(** What walkaddr() returns: the physical page of [va] if a user program may access
    it, 0 otherwise. *)
Definition uaddr (m : mem) (root va : Z) : Z :=
  let v := pview m root va in
  if MAXVA <=? va then 0
  else if Z.land v PTE_V =? 0 then 0
  else if Z.land v PTE_U =? 0 then 0
  else PTE2PA v.

(** [p] is a page that user programs of this address space can access. *)
Definition upage (m : mem) (root p : Z) : Prop := ∃ va, 0 ≤ va ∧ uaddr m root va = p ∧ p ≠ 0.

(** User pages are RAM pages apart from the table, and each is mapped once. *)
Record uspace `{Symbols} (m : mem) (root : Z) : Prop := {
  us_wf : pt_wf m root;
  us_page : ∀ p, upage m root p → page_ok p ∧ ¬ in_tree m root p;
  us_inj : ∀ va vb, 0 ≤ va → 0 ≤ vb → uaddr m root va ≠ 0 →
    uaddr m root va = uaddr m root vb → va / PGSIZE = vb / PGSIZE
}.

(** A kernel buffer lies outside the table and the user's pages. *)
Definition kbuf (m : mem) (root dst len : Z) : Prop :=
  ∀ x p, dst ≤ x < dst + len → in_tree m root p ∨ upage m root p → ¬ (p ≤ x < p + PGSIZE).

(** The pages of [m] that translation and user accesses depend on are the same in [m']. *)
Record same_user (m m' : mem) (root : Z) : Prop := {
  su_tree : same_tree root m m';
  su_data : ∀ p x, upage m root p → p ≤ x < p + PGSIZE → m' x = m x
}.

Lemma PGROUNDDOWN_lt_MAXVA va : 0 ≤ va → (MAXVA <=? PGROUNDDOWN va) = (MAXVA <=? va).
Proof.
  intros. rewrite PGROUNDDOWN_eq. change MAXVA with (2 ^ 38).
  destruct (Z.leb_spec (2 ^ 38) va), (Z.leb_spec (2 ^ 38) (va - va mod PGSIZE));
    try done; unfold PGSIZE in *; zdm.
Qed.

Lemma pview_round m root va : pview m root (PGROUNDDOWN va) = pview m root va.
Proof. unfold pview, leaf. by rewrite !PX_page by lia. Qed.

Lemma uaddr_round m root va : 0 ≤ va → uaddr m root (PGROUNDDOWN va) = uaddr m root va.
Proof. intros. unfold uaddr. by rewrite pview_round, PGROUNDDOWN_lt_MAXVA. Qed.

Lemma uaddr_same_page m root va vb :
  0 ≤ va → 0 ≤ vb → va / PGSIZE = vb / PGSIZE → uaddr m root va = uaddr m root vb.
Proof.
  intros. rewrite <- (uaddr_round _ _ va), <- (uaddr_round _ _ vb) by done. f_equal.
  rewrite !PGROUNDDOWN_eq. unfold PGSIZE in *. zdm.
Qed.

Lemma uread_uaddr m root va :
  uaddr m root va ≠ 0 → uread m root va = m (uaddr m root va + va mod PGSIZE).
Proof.
  unfold uread, upa, uaddr. destruct (MAXVA <=? va); [done|].
  destruct (Z.land _ PTE_V =? 0); [done|]. by destruct (Z.land _ PTE_U =? 0).
Qed.

Lemma uaddr_ext m m' root va : (∀ vb, pview m' root vb = pview m root vb) → uaddr m' root va = uaddr m root va.
Proof. intros E. unfold uaddr. by rewrite E. Qed.

Section copy.
Context `{Symbols}.

Lemma walkaddr_eq root va s :
  pt_wf (pm_mem s) root → 0 ≤ va → walkaddr root va s = Ret (uaddr (pm_mem s) root va) s.
Proof.
  intros Hwf Hva. unfold walkaddr, uaddr. destruct (Z.leb_spec MAXVA va); [done|].
  m_unfold. rewrite walk_false by lia. cbn [obind]. unfold pview.
  destruct (leaf (pm_mem s) root va) as [a|] eqn:El; [|done].
  destruct (Z.eqb_spec a 0) as [->|].
  - exfalso. unfold leaf in El. destruct (node _ _ _) as [p|] eqn:En; [|done].
    apply (wf_page _ _ Hwf) in En as (_ & _ & _ & ?); [|auto with kern].
    pose proof (PX_range 0 va). injection El. lia.
  - unfold read64. m_unfold. destruct (Z.land _ PTE_V =? 0); [done|].
    by destruct (Z.land _ PTE_U =? 0).
Qed.

Lemma same_user_refl m root : pt_wf m root → same_user m m root.
Proof. intros. split; [by apply same_tree_agree|done]. Qed.

Lemma same_user_uaddr m m' root va : same_user m m' root → uaddr m' root va = uaddr m root va.
Proof. intros [Hst _]. apply uaddr_ext, Hst. Qed.

Lemma same_user_wf m m' root : pt_wf m root → same_user m m' root → pt_wf m' root.
Proof. intros Hwf [Hst _]. eapply pt_wf_ext; [apply Hst|done]. Qed.

(** Writes to a kernel buffer keep the user's memory. *)
Lemma same_user_kbuf m m1 m2 root dst len n :
  pt_wf m root → same_user m m1 root → kbuf m root dst len → n ≤ len →
  (∀ x, ¬ (dst ≤ x < dst + n) → m2 x = m1 x) → same_user m m2 root.
Proof.
  intros Hwf Hsu Hkb Hn Hm2.
  assert (Htr : same_tree root m1 m2).
  { apply same_tree_agree; [by eapply same_user_wf|]. intros p Hp x Hx. apply Hm2.
    intros Hin. apply (Hkb x p); [lia| |done]. left. by apply (su_tree _ _ _ Hsu). }
  destruct Hsu as [[Hn1 Hl1 Hv1 Ht1] Hd1]. destruct Htr as [Hn2 Hl2 Hv2 Ht2]. split.
  - split.
    + intros path Hok. by rewrite Hn2, Hn1.
    + intros vb. by rewrite Hl2, Hl1.
    + intros vb. by rewrite Hv2, Hv1.
    + intros p. by rewrite Ht2, Ht1.
  - intros p x Hp Hx. rewrite Hm2; [by apply (Hd1 p)|].
    intros Hin. apply (Hkb x p); [lia|by right|done].
Qed.

(** ** The turns of the copy loops *)

(** The bytes of one turn: as far as the end of the page. *)
Lemma page_chunk m root va i :
  0 ≤ va → 0 ≤ i < PGSIZE - (va - PGROUNDDOWN va) →
  uaddr m root (va + i) = uaddr m root va ∧
  (uaddr m root va ≠ 0 →
   uread m root (va + i) = m (uaddr m root va + (va - PGROUNDDOWN va) + i)).
Proof.
  intros Hva Hi. rewrite PGROUNDDOWN_eq in *.
  assert (E : uaddr m root (va + i) = uaddr m root va).
  { apply uaddr_same_page; [lia..|]. unfold PGSIZE in *. zdm. }
  split; [done|]. intros Hne. rewrite uread_uaddr, E by by rewrite E.
  f_equal. unfold PGSIZE in *. zdm.
Qed.

(** The number of bytes of one turn, and the address of the next. *)
Definition chunk (va len : Z) : Z :=
  let n := PGSIZE - (va - PGROUNDDOWN va) in if len <? n then len else n.
Definition next (va : Z) : Z := u64 (PGROUNDDOWN va + PGSIZE).

Record chunk_ok (va len n va' : Z) : Prop := {
  ck_n : 0 < n ≤ len;
  ck_page : n ≤ PGSIZE - va mod PGSIZE;
  ck_next : n = len ∨ va' = va + n;
  ck_va : 0 ≤ va' < 2 ^ 64 ∧ va' mod PGSIZE = 0
}.

Lemma chunk_spec m root va len :
  0 ≤ va → 0 < len → uaddr m root va ≠ 0 → chunk_ok va len (chunk va len) (next va).
Proof.
  intros Hva Hlen Hne. assert (Hmax : va < 2 ^ 38).
  { unfold uaddr in Hne. change MAXVA with (2 ^ 38) in Hne. by destruct (Z.leb_spec (2 ^ 38) va). }
  pose proof (Z.mod_pos_bound va PGSIZE ltac:(done)) as Hmod.
  unfold next. rewrite u64_small by (rewrite PGROUNDDOWN_eq; unfold PGSIZE in *; lia).
  unfold chunk. rewrite PGROUNDDOWN_eq. replace (va - (va - va mod PGSIZE)) with (va mod PGSIZE) by lia.
  destruct (Z.ltb_spec len (PGSIZE - va mod PGSIZE)); split; try lia; unfold PGSIZE in *; try lia;
    split; try lia; zdm.
Qed.

Lemma chunk_fuel va len n va' fuel :
  chunk_ok va len n va' → 0 ≤ va → len + va mod PGSIZE ≤ Z.of_nat (S fuel) * PGSIZE →
  len - n + va' mod PGSIZE ≤ Z.of_nat fuel * PGSIZE.
Proof.
  intros [Hn Hpg Hnx [_ Hm]] Hva Hf. rewrite Hm.
  destruct Hnx as [->| ->]; [unfold PGSIZE; lia|].
  assert (n = PGSIZE - va mod PGSIZE) by (unfold PGSIZE in *; zdm). unfold PGSIZE in *. lia.
Qed.

(** [k] of [len] bytes were accessible, the last of them before [va + len] or before
    a byte that is not; [r] is what the loop returns. *)
Record prefix (m : mem) (root va len k r : Z) : Prop := {
  px_range : 0 ≤ k ≤ len;
  px_acc : ∀ i, 0 ≤ i < k → uaddr m root (va + i) ≠ 0;
  px_stop : k < len → uaddr m root (va + k) = 0;
  px_ret : r = if k =? len then 0 else -1
}.

Lemma prefix_zero m root va : prefix m root va 0 0 0.
Proof. split; done || lia. Qed.

Lemma prefix_stop m root va len : 0 < len → uaddr m root va = 0 → prefix m root va len 0 (-1).
Proof.
  intros Hl Hz. split; try lia.
  - intros _. by rewrite Z.add_0_r.
  - by destruct (Z.eqb_spec 0 len); [lia|].
Qed.

Lemma prefix_chunk m root va len n va' k r :
  0 ≤ va → uaddr m root va ≠ 0 → chunk_ok va len n va' →
  prefix m root va' (len - n) k r → prefix m root va len (n + k) r.
Proof.
  intros Hva Hpa [Hn Hpg Hnx _] [Hk Ha Hst Hr]. split.
  - lia.
  - intros i Hi. destruct (Z.ltb_spec i n).
    + destruct (page_chunk m root va i) as [-> _]; [lia|rewrite PGROUNDDOWN_eq; lia|done].
    + destruct Hnx as [?| ->]; [lia|]. replace (va + i) with (va + n + (i - n)) by lia. apply Ha. lia.
  - intros Hlt. destruct Hnx as [?| ->]; [lia|]. rewrite Z.add_assoc. apply Hst. lia.
  - rewrite Hr. destruct (Z.eqb_spec k (len - n)), (Z.eqb_spec (n + k) len); done || lia.
Qed.

Lemma prefix_all m root va len k r :
  prefix m root va len k r → (r = 0 ↔ ∀ i, 0 ≤ i < len → uaddr m root (va + i) ≠ 0).
Proof.
  intros [Hk Ha Hst ->]. destruct (Z.eqb_spec k len) as [->|]; [done|]. split; [done|].
  intros Hall. exfalso. apply (Hall k); [lia|]. apply Hst. lia.
Qed.

(** ** copyin() *)

(** The accessible bytes before the first that is not have been copied to [dst]. *)
Record copied_in (m : mem) (root dst va len k : Z) (r : Z) (s s' : pmem) : Prop := {
  ci_prefix : prefix m root va len k r;
  ci_rest : s' = set_mem (pm_mem s') s;
  ci_mem : ∀ x, pm_mem s' x =
    if (dst <=? x) && (x <? dst + k) then uread m root (va + (x - dst)) else pm_mem s x
}.

Lemma copied_in_nil m root dst va len r s :
  prefix m root va len 0 r → copied_in m root dst va len 0 r s s.
Proof.
  intros Hp. split; [done|by destruct s|]. intros x.
  destruct (Z.leb_spec dst x), (Z.ltb_spec x (dst + 0)); simpl; done || lia.
Qed.

(** The memory after one turn of copyin(). *)
Lemma copyin_chunk m root s dst va len n va' :
  pt_wf m root → same_user m (pm_mem s) root → kbuf m root dst len → 0 ≤ va →
  uaddr m root va ≠ 0 → chunk_ok va len n va' →
  let m1 := memmove (pm_mem s) dst (uaddr m root va + (va - PGROUNDDOWN va)) n in
  same_user m m1 root ∧
  (∀ x, ¬ (dst ≤ x < dst + n) → m1 x = pm_mem s x) ∧
  (∀ x, dst ≤ x < dst + n → m1 x = uread m root (va + (x - dst))).
Proof.
  intros Hwf Hsu Hkb Hva Hpa [Hn Hpg _ _] m1.
  pose proof (Z.mod_pos_bound va PGSIZE ltac:(done)) as Hmod.
  assert (Hm1o : ∀ x, ¬ (dst ≤ x < dst + n) → m1 x = pm_mem s x).
  { intros x Hx. apply memmove_out; [unfold PGSIZE in *; lia|done]. }
  split_and!; [|done|].
  - apply (same_user_kbuf m (pm_mem s) m1 root dst len n); done || lia.
  - intros x Hx. unfold m1. rewrite memmove_in by (unfold PGSIZE in *; lia).
    destruct (page_chunk m root va (x - dst)) as [_ Hu]; [lia|rewrite PGROUNDDOWN_eq; lia|].
    rewrite Hu by done. apply (su_data _ _ _ Hsu (uaddr m root va)); [by exists va|].
    rewrite PGROUNDDOWN_eq. lia.
Qed.

Lemma wp_copyin_loop m root fuel s dst va len :
  pt_wf m root → same_user m (pm_mem s) root → kbuf m root dst len →
  0 ≤ va < 2 ^ 64 → 0 ≤ len → len + va mod PGSIZE ≤ Z.of_nat fuel * PGSIZE →
  wp (copyin_loop fuel root dst va len)
     (λ r s', ∃ k, copied_in m root dst va len k r s s') s.
Proof.
  intros Hwf. revert s dst va len.
  induction fuel as [|fuel IH]; intros s dst va len Hsu Hkb Hva Hlen Hfuel; cbn [copyin_loop];
    destruct (Z.ltb_spec 0 len) as [Hpos|Hz].
  1: { pose proof (Z.mod_pos_bound va PGSIZE). unfold PGSIZE in *. lia. }
  1,3: apply wp_ret; exists 0; assert (len = 0) as -> by lia; apply copied_in_nil, prefix_zero.
  apply wp_bind. unfold wp. rewrite walkaddr_eq;
    [|by eapply same_user_wf|rewrite PGROUNDDOWN_eq; unfold PGSIZE; zdm].
  fold (wp (S := pmem) (A := Z)). rewrite (same_user_uaddr m), uaddr_round by (done || lia).
  destruct (Z.eqb_spec (uaddr m root va) 0) as [Hpa|Hpa].
  { apply wp_ret. exists 0. by apply copied_in_nil, prefix_stop. }
  pose proof (chunk_spec m root va len ltac:(lia) Hpos Hpa) as Hck.
  fold (next va). fold (chunk va len).
  set (n := chunk va len) in *. set (va' := next va) in *.
  destruct (copyin_chunk m root s dst va len n va') as (Hsu1 & Hm1o & Hm1i); try done; [lia|].
  unfold do_memmove. apply wp_bind, wp_modify.
  eapply wp_mono.
  - apply (IH _ (dst + n) va' (len - n)); [done| |apply Hck|destruct Hck; lia|].
    + intros x p Hx. apply Hkb. destruct Hck; lia.
    + eapply chunk_fuel; [done|lia|done].
  - intros r s' (k & [Hp Hrest Hm]). exists (n + k).
    split; [by apply (prefix_chunk m root va len n va'); [lia|..]|by rewrite Hrest|].
    intros x. rewrite Hm. cbn [set_mem pm_mem]. destruct Hck as [Hn _ Hnx _].
    pose proof (px_range _ _ _ _ _ _ Hp).
    destruct (Z.leb_spec (dst + n) x), (Z.ltb_spec x (dst + n + k)), (Z.leb_spec dst x),
      (Z.ltb_spec x (dst + (n + k))); simpl; try lia;
      try (rewrite Hm1o by lia; done); try (rewrite Hm1i by lia; done).
    destruct Hnx as [?| ->]; [lia|]. f_equal. lia.
Qed.

(** ** copyout() *)

(** Only user pages may differ. *)
Definition user_only (m m' : mem) (root : Z) : Prop :=
  ∀ x, (∀ p, upage m root p → ¬ (p ≤ x < p + PGSIZE)) → m' x = m x.

Lemma user_only_tree m m' root : uspace m root → user_only m m' root → same_tree root m m'.
Proof.
  intros [Hwf Hpg _] Hu. eapply (same_tree_off _ _ _ (upage m root)); [done|exact Hu|..];
    intros p Hp; by apply Hpg.
Qed.

Record copied_out (m : mem) (root va src len k : Z) (r : Z) (s s' : pmem) : Prop := {
  co_prefix : prefix m root va len k r;
  co_rest : s' = set_mem (pm_mem s') s;
  co_frame : user_only m (pm_mem s') root;
  co_mem : ∀ vb, 0 ≤ vb → uaddr m root vb ≠ 0 →
    pm_mem s' (uaddr m root vb + vb mod PGSIZE) =
    if (va <=? vb) && (vb <? va + k) then m (src + (vb - va))
    else pm_mem s (uaddr m root vb + vb mod PGSIZE)
}.

Lemma copied_out_nil m root va src len r s :
  user_only m (pm_mem s) root → prefix m root va len 0 r → copied_out m root va src len 0 r s s.
Proof.
  intros Huo Hp. split; [done|by destruct s|done|]. intros vb _ _.
  destruct (Z.leb_spec va vb), (Z.ltb_spec vb (va + 0)); simpl; done || lia.
Qed.

(** Distinct user addresses have distinct physical addresses. *)
Lemma uspace_sep m root va vb x :
  uspace m root → 0 ≤ va → 0 ≤ vb → uaddr m root va ≠ 0 → uaddr m root vb ≠ 0 →
  uaddr m root va ≤ x < uaddr m root va + PGSIZE →
  x = uaddr m root vb + vb mod PGSIZE → va / PGSIZE = vb / PGSIZE.
Proof.
  intros Hus Hva Hvb Ha Hb Hx ->. apply (us_inj _ _ Hus); [done..|].
  destruct (us_page _ _ Hus (uaddr m root va)) as [(Hala & _) _]; [by exists va|].
  destruct (us_page _ _ Hus (uaddr m root vb)) as [(Halb & _) _]; [by exists vb|].
  unfold PGSIZE in *. zdm.
Qed.

(** The memory after one turn of copyout(). *)
Lemma copyout_chunk m root s va src len n va' :
  uspace m root → user_only m (pm_mem s) root → kbuf m root src len → 0 ≤ va →
  uaddr m root va ≠ 0 → chunk_ok va len n va' →
  let m1 := memmove (pm_mem s) (uaddr m root va + (va - PGROUNDDOWN va)) src n in
  user_only m m1 root ∧
  (∀ vb, 0 ≤ vb → uaddr m root vb ≠ 0 →
     m1 (uaddr m root vb + vb mod PGSIZE) =
     if (va <=? vb) && (vb <? va + n) then m (src + (vb - va))
     else pm_mem s (uaddr m root vb + vb mod PGSIZE)).
Proof.
  intros Hus Huo Hkb Hva Hpa [Hn Hpg _ _].
  pose proof (Z.mod_pos_bound va PGSIZE ltac:(done)) as Hmod.
  assert (Hoff : va - PGROUNDDOWN va = va mod PGSIZE) by (rewrite PGROUNDDOWN_eq; lia).
  rewrite Hoff. intros m1. set (pa := uaddr m root va) in *.
  assert (Hup : upage m root pa) by by exists va.
  assert (Hm1o : ∀ x, ¬ (pa + va mod PGSIZE ≤ x < pa + va mod PGSIZE + n) → m1 x = pm_mem s x).
  { intros x Hx. apply memmove_out; [unfold PGSIZE in *; lia|done]. }
  split.
  { intros x Hx. rewrite Hm1o; [by apply Huo|]. intros Hin. apply (Hx pa Hup). lia. }
  intros vb Hvb Hb. destruct (decide (vb / PGSIZE = va / PGSIZE)) as [E|E].
  - rewrite (uaddr_same_page m root vb va) by (done || lia). fold pa.
    destruct (Z.leb_spec va vb), (Z.ltb_spec vb (va + n)); simpl;
      try (apply Hm1o; unfold PGSIZE in *; zdm).
    unfold m1. rewrite memmove_in by (unfold PGSIZE in *; zdm).
    replace (pa + vb mod PGSIZE - (pa + va mod PGSIZE)) with (vb - va) by (unfold PGSIZE in *; zdm).
    apply Huo. intros p Hp. apply (Hkb _ p); [lia|by right].
  - rewrite Hm1o.
    + destruct (Z.leb_spec va vb), (Z.ltb_spec vb (va + n)); simpl; try done.
      exfalso. apply E. unfold PGSIZE in *. zdm.
    + intros Hin. apply E. symmetry.
      apply (uspace_sep m root va vb (uaddr m root vb + vb mod PGSIZE)); try done. fold pa. lia.
Qed.

Lemma wp_copyout_loop m root fuel s va src len :
  uspace m root → user_only m (pm_mem s) root → kbuf m root src len →
  0 ≤ va < 2 ^ 64 → 0 ≤ len → len + va mod PGSIZE ≤ Z.of_nat fuel * PGSIZE →
  wp (copyout_loop fuel root va src len)
     (λ r s', ∃ k, copied_out m root va src len k r s s') s.
Proof.
  intros Hus. revert s va src len.
  induction fuel as [|fuel IH]; intros s va src len Huo Hkb Hva Hlen Hfuel; cbn [copyout_loop];
    destruct (Z.ltb_spec 0 len) as [Hpos|Hz].
  1: { pose proof (Z.mod_pos_bound va PGSIZE). unfold PGSIZE in *. lia. }
  1,3: apply wp_ret; exists 0; assert (len = 0) as -> by lia; apply copied_out_nil, prefix_zero; done.
  pose proof (user_only_tree _ _ _ Hus Huo) as Hst.
  apply wp_bind. unfold wp. rewrite walkaddr_eq;
    [|eapply pt_wf_ext; [apply Hst|apply Hus]|rewrite PGROUNDDOWN_eq; unfold PGSIZE; zdm].
  fold (wp (S := pmem) (A := Z)). rewrite (uaddr_ext m), uaddr_round by (lia || apply Hst).
  destruct (Z.eqb_spec (uaddr m root va) 0) as [Hpa|Hpa].
  { apply wp_ret. exists 0. by apply copied_out_nil, prefix_stop. }
  pose proof (chunk_spec m root va len ltac:(lia) Hpos Hpa) as Hck.
  fold (next va). fold (chunk va len).
  set (n := chunk va len) in *. set (va' := next va) in *.
  destruct (copyout_chunk m root s va src len n va') as (Huo1 & Hm1); try done; [lia|].
  unfold do_memmove. apply wp_bind, wp_modify.
  eapply wp_mono.
  - apply (IH _ va' (src + n) (len - n)); [done| |apply Hck|destruct Hck; lia|].
    + intros x p Hx. apply Hkb. destruct Hck; lia.
    + eapply chunk_fuel; [done|lia|done].
  - intros r s' (k & [Hp Hrest Hfr Hm]). exists (n + k).
    split; [by apply (prefix_chunk m root va len n va'); [lia|..]|by rewrite Hrest|done|].
    intros vb Hvb Hb. rewrite (Hm vb Hvb Hb). cbn [set_mem pm_mem]. rewrite (Hm1 vb Hvb Hb).
    pose proof (px_range _ _ _ _ _ _ Hp). destruct Hck as [Hn _ Hnx _].
    destruct (decide (k = 0)) as [->|].
    + destruct (Z.leb_spec va' vb), (Z.ltb_spec vb (va' + 0)); simpl; try lia; by rewrite Z.add_0_r.
    + destruct Hnx as [?| ->]; [lia|].
      destruct (Z.leb_spec (va + n) vb), (Z.ltb_spec vb (va + n + k)), (Z.leb_spec va vb),
        (Z.ltb_spec vb (va + n)), (Z.ltb_spec vb (va + (n + k))); simpl; try lia; try done.
      f_equal. lia.
Qed.
(** ** copyinstr() *)

(** The bytes of the string that are copied: [k] bytes that are accessible and not
    zero, then a zero byte ([fin]), a byte that is not accessible, or the limit. *)
Record copied_str (m : mem) (root dst va max k : Z) (fin : bool) (r : Z) (s s' : pmem) : Prop := {
  cs_range : 0 ≤ k ≤ max;
  cs_acc : ∀ i, 0 ≤ i < k → uaddr m root (va + i) ≠ 0 ∧ uread m root (va + i) ≠ 0;
  cs_fin : if fin then k < max ∧ uaddr m root (va + k) ≠ 0 ∧ uread m root (va + k) = 0
           else k < max → uaddr m root (va + k) = 0;
  cs_ret : r = if fin then 0 else -1;
  cs_rest : s' = set_mem (pm_mem s') s;
  cs_mem : ∀ x, pm_mem s' x =
    if (dst <=? x) && (x <? dst + k + b2z fin) then uread m root (va + (x - dst)) else pm_mem s x
}.

(** The loop over one page copies up to and including the first zero byte. *)
Record copied_page (f : Z → Z) (dst max n k : Z) (fin : bool) (r : bool * Z * Z) (s s' : pmem) : Prop := {
  cp_range : 0 ≤ k ≤ n;
  cp_acc : ∀ i, 0 ≤ i < k → f i ≠ 0;
  cp_fin : if fin then k < n ∧ f k = 0 else k = n;
  cp_ret : r = (fin, dst + k, max - k);
  cp_rest : s' = set_mem (pm_mem s') s;
  cp_mem : ∀ x, pm_mem s' x =
    if (dst <=? x) && (x <? dst + k + b2z fin) then f (x - dst) else pm_mem s x
}.

Lemma wp_copyinstr_page f n p dst max s :
  (∀ i, 0 ≤ i < Z.of_nat n → pm_mem s (p + i) = f i ∧ 0 ≤ f i < 256) →
  (∀ i j, 0 ≤ i < Z.of_nat n → 0 ≤ j < Z.of_nat n → p + i ≠ dst + j) →
  wp (copyinstr_page n p dst max) (λ r s', ∃ k fin, copied_page f dst max (Z.of_nat n) k fin r s s') s.
Proof.
  revert f p dst max s. induction n as [|n IH]; intros f p dst max s Hf Hd; cbn [copyinstr_page].
  { apply wp_ret. exists 0, false. split; try done; try lia.
    - by rewrite Z.add_0_r, Z.sub_0_r.
    - by destruct s.
    - intros x. destruct (Z.leb_spec dst x), (Z.ltb_spec x (dst + 0 + b2z false)); simpl in *; done || lia. }
  unfold read8, write8. apply wp_bind, wp_gets.
  destruct (Hf 0) as [Hf0 Hr0]; [lia|]. rewrite Z.add_0_r in Hf0. rewrite Hf0.
  assert (Hu8 : ∀ v, 0 ≤ v < 256 → u8 v = v) by (intros; by apply Z.mod_small).
  destruct (Z.eqb_spec (f 0) 0) as [E|E]; apply wp_bind, wp_modify.
  { apply wp_ret. exists 0, true. split; try done; try lia.
    - by rewrite Z.add_0_r, Z.sub_0_r.
    - intros x. cbn [set_mem pm_mem]. unfold upd.
      destruct (Z.eqb_spec x dst) as [Ex|Ex], (Z.leb_spec dst x), (Z.ltb_spec x (dst + 0 + b2z true));
        simpl in *; try lia; try done.
      by rewrite Ex, Z.sub_diag, E. }
  eapply wp_mono.
  - apply (IH (λ i, f (i + 1)) (p + 1) (dst + 1) (max - 1)).
    + intros i Hi. destruct (Hf (i + 1)) as [<- ?]; [lia|]. split; [|done].
      cbn [set_mem pm_mem]. rewrite upd_ne.
      * f_equal. lia.
      * specialize (Hd (i + 1) 0). lia.
    + intros i j Hi Hj. specialize (Hd (i + 1) (j + 1)). lia.
  - intros r s' (k & fin & [Hk Ha Hfi Hr Hrest Hm]). exists (k + 1), fin. split.
    + lia.
    + intros i Hi. destruct (Z.eqb_spec i 0) as [->|]; [done|].
      replace i with (i - 1 + 1) by lia. apply Ha. lia.
    + destruct fin; [|lia]. split; [lia|apply Hfi].
    + rewrite Hr. f_equal; [f_equal; lia|lia].
    + by rewrite Hrest.
    + intros x. rewrite Hm. cbn [set_mem pm_mem]. unfold upd.
      assert (0 ≤ b2z fin) by by destruct fin.
      destruct (Z.leb_spec (dst + 1) x), (Z.ltb_spec x (dst + 1 + k + b2z fin)), (Z.eqb_spec x dst),
        (Z.leb_spec dst x), (Z.ltb_spec x (dst + (k + 1) + b2z fin)); simpl; try lia; try done.
      * f_equal. lia.
      * subst x. rewrite Z.sub_diag. by apply Hu8.
Qed.
Lemma copyinstr_loop_stop fuel root dst va max :
  max ≤ 0 → copyinstr_loop fuel root dst va max false = mret (-1).
Proof. intros. by destruct fuel; simpl; destruct (Z.ltb_spec 0 max); [lia| |lia|]. Qed.

Lemma copyinstr_loop_null fuel root dst va max : copyinstr_loop fuel root dst va max true = mret 0.
Proof. by destruct fuel. Qed.

Lemma copied_str_nil m root dst va max s :
  0 ≤ max → (0 < max → uaddr m root va = 0) → copied_str m root dst va max 0 false (-1) s s.
Proof.
  intros Hm Hz. split; try done; try lia.
  - intros Hlt. by rewrite Z.add_0_r, Hz.
  - by destruct s.
  - intros x. cbn [b2z]. destruct (Z.leb_spec dst x), (Z.ltb_spec x (dst + 0 + 0)); simpl; done || lia.
Qed.

(** What one turn of copyinstr() reads. *)
Lemma str_chunk_in m root s va max n va' i :
  mem_ok m → same_user m (pm_mem s) root → 0 ≤ va → uaddr m root va ≠ 0 →
  chunk_ok va max n va' → 0 ≤ i < n →
  pm_mem s (uaddr m root va + (va - PGROUNDDOWN va) + i) = uread m root (va + i) ∧
  0 ≤ uread m root (va + i) < 256.
Proof.
  intros Hok Hsu Hva Hpa [Hn Hpg _ _] Hi. pose proof (Z.mod_pos_bound va PGSIZE ltac:(done)).
  destruct (page_chunk m root va i) as [_ Hu]; [lia|rewrite PGROUNDDOWN_eq; lia|].
  rewrite Hu by done. split; [|apply Hok].
  apply (su_data _ _ _ Hsu (uaddr m root va)); [by exists va|]. rewrite PGROUNDDOWN_eq. lia.
Qed.

Lemma copied_str_last m root dst va max n va' k s s1 :
  0 ≤ va → uaddr m root va ≠ 0 → chunk_ok va max n va' →
  copied_page (λ i, uread m root (va + i)) dst max n k true (true, dst + k, max - k) s s1 →
  copied_str m root dst va max k true 0 s s1.
Proof.
  intros Hva Hpa [Hn Hpg _ _] [Hk Ha [Hkn Hfi] _ Hrest Hm].
  assert (Hacc : ∀ i, 0 ≤ i < n → uaddr m root (va + i) ≠ 0).
  { intros i Hi. destruct (page_chunk m root va i) as [-> _]; [lia|rewrite PGROUNDDOWN_eq; lia|done]. }
  split; try done; [lia| |].
  - intros i Hi. split; [apply Hacc; lia|auto].
  - split_and!; [lia|apply Hacc; lia|done].
Qed.

Lemma copied_str_cons m root dst va max n va' k fin r s s1 s' :
  0 ≤ va → uaddr m root va ≠ 0 → chunk_ok va max n va' →
  copied_page (λ i, uread m root (va + i)) dst max n n false (false, dst + n, max - n) s s1 →
  copied_str m root (dst + n) va' (max - n) k fin r s1 s' →
  copied_str m root dst va max (n + k) fin r s s'.
Proof.
  intros Hva Hpa [Hn Hpg Hnx _] [_ Ha _ _ Hrest1 Hm1] [Hk Ha2 Hfi Hr Hrest Hm].
  assert (Hacc : ∀ i, 0 ≤ i < n → uaddr m root (va + i) ≠ 0).
  { intros i Hi. destruct (page_chunk m root va i) as [-> _]; [lia|rewrite PGROUNDDOWN_eq; lia|done]. }
  assert (Hnx' : n = max ∧ k = 0 ∧ fin = false ∨ va' = va + n).
  { destruct Hnx as [->|?]; [left|by right]. destruct fin; lia. }
  split.
  - lia.
  - intros i Hi. destruct (Z.ltb_spec i n); [split; [apply Hacc; lia|apply Ha; lia]|].
    destruct Hnx' as [?| ->]; [lia|]. replace (va + i) with (va + n + (i - n)) by lia. apply Ha2. lia.
  - destruct Hnx' as [(? & ? & ->)| ->]; [lia|]. rewrite <- Z.add_assoc in Hfi.
    destruct fin; [split; [lia|apply Hfi]|]. intros ?. apply Hfi. lia.
  - done.
  - by rewrite Hrest, Hrest1.
  - intros x. rewrite Hm, Hm1. cbn [b2z]. assert (0 ≤ b2z fin) by by destruct fin.
    destruct (Z.leb_spec (dst + n) x), (Z.ltb_spec x (dst + n + k + b2z fin)), (Z.leb_spec dst x),
      (Z.ltb_spec x (dst + n + 0)), (Z.ltb_spec x (dst + (n + k) + b2z fin)); simpl; try lia; try done.
    destruct Hnx' as [(? & ? & ->)| ->]; [simpl in *; lia|]. f_equal. lia.
Qed.

Lemma wp_copyinstr_loop m root fuel s dst va max :
  uspace m root → mem_ok m → same_user m (pm_mem s) root → kbuf m root dst max →
  0 ≤ va < 2 ^ 64 → 0 ≤ max → max + va mod PGSIZE ≤ Z.of_nat fuel * PGSIZE →
  wp (copyinstr_loop fuel root dst va max false)
     (λ r s', ∃ k fin, copied_str m root dst va max k fin r s s') s.
Proof.
  intros Hus Hok. pose proof (us_wf _ _ Hus) as Hwf. revert s dst va max.
  induction fuel as [|fuel IH]; intros s dst va max Hsu Hkb Hva Hmax Hfuel;
    destruct (Z.ltb_spec 0 max) as [Hpos|Hz];
    try (exfalso; pose proof (Z.mod_pos_bound va PGSIZE); unfold PGSIZE in *; lia);
    try (rewrite copyinstr_loop_stop by lia; apply wp_ret; exists 0, false;
         assert (max = 0) as -> by lia; apply copied_str_nil; done || lia).
  cbn [copyinstr_loop]. destruct (Z.ltb_spec 0 max); [|lia]. cbn [andb negb].
  apply wp_bind. unfold wp. rewrite walkaddr_eq;
    [|by eapply same_user_wf|rewrite PGROUNDDOWN_eq; unfold PGSIZE; zdm].
  fold (wp (S := pmem) (A := Z)). rewrite (same_user_uaddr m), uaddr_round by (done || lia).
  destruct (Z.eqb_spec (uaddr m root va) 0) as [Hpa|Hpa].
  { apply wp_ret. exists 0, false. by apply copied_str_nil. }
  pose proof (chunk_spec m root va max ltac:(lia) Hpos Hpa) as Hck.
  fold (next va). fold (chunk va max).
  set (n := chunk va max) in *. set (va' := next va) in *.
  apply wp_bind. eapply wp_mono; [apply (wp_copyinstr_page (λ i, uread m root (va + i)))|].
  - intros i Hi. rewrite Z2Nat.id in Hi by (destruct Hck; lia).
    apply (str_chunk_in m root s va max n va' i); try done; lia.
  - intros i j Hi Hj E. rewrite Z2Nat.id in Hi, Hj by (destruct Hck; lia).
    destruct Hck as [Hn Hpg _ _]. pose proof (Z.mod_pos_bound va PGSIZE ltac:(done)).
    apply (Hkb (dst + j) (uaddr m root va)); [lia|right; by exists va; split_and!; [lia| |]|].
    rewrite <- E, PGROUNDDOWN_eq. lia.
  - intros r s1 (k & fin & Hcp). rewrite Z2Nat.id in Hcp by (destruct Hck; lia).
    pose proof Hcp as [Hk Ha Hfi -> Hrest Hm].
    destruct fin; cbv iota.
    + rewrite copyinstr_loop_null. apply wp_ret. exists k, true.
      by eapply copied_str_last; [lia|..].
    + assert (Hsu1 : same_user m (pm_mem s1) root).
      { eapply (same_user_kbuf m (pm_mem s) _ root dst max n); try done; [destruct Hck; lia|].
        intros x Hx. rewrite Hm. cbn [b2z] in *.
        destruct (Z.leb_spec dst x), (Z.ltb_spec x (dst + k + 0)); simpl; done || lia. }
      subst k. eapply wp_mono.
      * apply (IH s1 (dst + n) va' (max - n)); [done| |apply Hck|destruct Hck; lia|].
        -- intros x p Hx. apply Hkb. destruct Hck; lia.
        -- eapply chunk_fuel; [done|lia|done].
      * intros r s' (k & fin & Hcs). exists (n + k), fin.
        by eapply copied_str_cons; [lia|..].
Qed.
(** ** Address spaces in order *)

(** The trampoline and the trapframe are not for the user. *)
Definition user_below (m : mem) (root : Z) : Prop :=
  ∀ va, TRAPFRAME ≤ va < MAXVA → Z.land (pview m root va) PTE_U = 0.

Lemma as_inv_uaddr s l root n va :
  as_inv s l root n → user_below (pm_mem s) root → 0 ≤ va → uaddr (pm_mem s) root va ≠ 0 →
  va < pages n ∧ uaddr (pm_mem s) root va = PTE2PA (pview (pm_mem s) root va).
Proof.
  intros Ha Hub Hva. unfold uaddr.
  destruct (Z.leb_spec MAXVA va); [done|].
  destruct (Z.eqb_spec (Z.land (pview (pm_mem s) root va) PTE_V) 0) as [|HV]; [done|].
  destruct (Z.eqb_spec (Z.land (pview (pm_mem s) root va) PTE_U) 0) as [|HU]; [done|].
  intros _. split; [|done]. destruct (Z.ltb_spec va TRAPFRAME).
  - destruct (Z.ltb_spec va (pages n)); [done|].
    pose proof (ai_none _ _ _ _ Ha va ltac:(lia)) as Hnv. unfold pte_v in Hnv.
    apply negb_false_iff, Z.eqb_eq in Hnv. done.
  - by destruct HU; apply Hub; lia.
Qed.

Lemma as_inv_uspace s l root n :
  as_inv s l root n → user_below (pm_mem s) root → uspace (pm_mem s) root.
Proof.
  intros Ha Hub. split; [apply Ha| |].
  - intros p (va & Hva & <- & Hne). destruct (as_inv_uaddr _ _ _ _ va Ha Hub Hva Hne) as [Hlt ->].
    destruct (ai_page _ _ _ _ va Ha) as (_ & Hok & Hno); [lia|]. split; [done|].
    intros Ht. apply Hno. by right.
  - intros va vb Hva Hvb Hne E.
    destruct (as_inv_uaddr _ _ _ _ va Ha Hub Hva Hne) as [Hlta Ea].
    destruct (as_inv_uaddr _ _ _ _ vb Ha Hub Hvb) as [Hltb Eb]; [by rewrite <- E|].
    apply (ai_inj _ _ _ _ va vb Ha); [lia..|]. congruence.
Qed.

Lemma fuel_enough len va : 0 ≤ len → len + va mod PGSIZE ≤ Z.of_nat (Z.to_nat (len / PGSIZE + 2)) * PGSIZE.
Proof. intros. unfold PGSIZE. zdm. Qed.

(** Copyin() reads user memory through the page table. For any user address and
    length it returns: 0 if every byte of the range lies in a page mapped valid and
    user-accessible, and then the kernel buffer holds exactly the user's bytes; -1
    otherwise, with the bytes before the first inaccessible one copied. Nothing
    outside the buffer changes. *)
Theorem copyin_correct s root dst srcva len :
  uspace (pm_mem s) root → kbuf (pm_mem s) root dst len → 0 ≤ srcva < 2 ^ 64 → 0 ≤ len →
  ∃ r s' k, copyin root dst srcva len s = Ret r s' ∧
    copied_in (pm_mem s) root dst srcva len k r s s' ∧
    (r = 0 ↔ ∀ i, 0 ≤ i < len → uaddr (pm_mem s) root (srcva + i) ≠ 0).
Proof.
  intros Hus Hkb Hva Hlen.
  pose proof (wp_copyin_loop (pm_mem s) root (Z.to_nat (len / PGSIZE + 2)) s dst srcva len
    (us_wf _ _ Hus) (same_user_refl _ _ (us_wf _ _ Hus)) Hkb Hva Hlen (fuel_enough len srcva Hlen)) as Hwp.
  apply wp_elim in Hwp as (r & s' & E & k & Hc). exists r, s', k. split_and!; [done..|].
  eapply prefix_all, Hc.
Qed.


(** Copyinstr() copies a NUL-terminated string from user memory: it returns 0
    exactly when a zero byte is found before [max] bytes and before an inaccessible
    page, and then the buffer holds the string with its zero byte; otherwise it
    returns -1. Nothing outside the buffer changes. *)
Theorem copyinstr_correct s root dst srcva max :
  uspace (pm_mem s) root → mem_ok (pm_mem s) → kbuf (pm_mem s) root dst max →
  0 ≤ srcva < 2 ^ 64 → 0 ≤ max →
  ∃ r s' k fin, copyinstr root dst srcva max s = Ret r s' ∧
    copied_str (pm_mem s) root dst srcva max k fin r s s'.
Proof.
  intros Hus Hok Hkb Hva Hmax.
  pose proof (wp_copyinstr_loop (pm_mem s) root (Z.to_nat (max / PGSIZE + 2)) s dst srcva max
    Hus Hok (same_user_refl _ _ (us_wf _ _ Hus)) Hkb Hva Hmax (fuel_enough max srcva Hmax)) as Hwp.
  apply wp_elim in Hwp as (r & s' & E & k & fin & Hc). by exists r, s', k, fin.
Qed.
End copy.

(** ** Witnesses *)
(** A machine with eight free pages boots, and gives a process 5000 bytes. *)
Definition space8 : outcome pmem (Z * Z) :=
  (@kinit syms8;; root ← uvmcreate; r ← @uvmalloc syms8 root 0 5000; mret (root, r)) pmem3.

Lemma space8_ok : ∃ root r s l n, space8 = Ret (root, r) s ∧ @as_inv syms8 s l root n ∧ user_below (pm_mem s) root.
Proof.
  destruct (wp_elim (@kinit syms8;; root ← uvmcreate; r ← @uvmalloc syms8 root 0 5000; mret (root, r))
    (λ a s, ∃ l n, @as_inv syms8 s l (fst a) n ∧ user_below (pm_mem s) (fst a)) pmem3)
    as ([root r] & s & E & l & n & Ha & Hu); [|exists root, r, s, l, n; split; [exact E|split; [exact Ha|exact Hu]]].
  apply wp_bind, (@wp_kinit syms8); [vm_compute; split; congruence|apply pmem3_boot|]. intros s0 Hk.
  apply wp_bind. eapply (@wp_uvmcreate syms8); [exact Hk|intros E; vm_compute in E; congruence|].
  intros root l s' _ _ Ha _ _ Hz. assert (Hub : user_below (pm_mem s') root) by (intros va _; by rewrite Hz).
  apply wp_bind. eapply (@wp_uvmalloc syms8); [exact Ha|lia|vm_compute; congruence|..];
    intros s2 l2 E; apply wp_ret; eexists l2, _; (split; [apply E|]); cbn [fst];
    intros va Hva; rewrite (ex_view _ _ _ _ _ _ _ _ E);
    [by apply Hub|assert (0 < TRAPFRAME) by (by vm_compute); lia|by right; lia
    |by apply Hub|assert (0 < TRAPFRAME) by (by vm_compute); lia|by right; lia].
Qed.

(** Both pages are there. *)
Lemma space8_mapped :
  match space8 with Ret (root, _) s => (uaddr (pm_mem s) root 0 =? 0) || (uaddr (pm_mem s) root 4096 =? 0) | _ => true end = false.
Proof. vm_compute. reflexivity. Qed.

Lemma user8 : ∃ root s, @uspace syms8 (pm_mem s) root ∧ mem_ok (pm_mem s) ∧
  (∀ len, len ≤ 4096 → kbuf (pm_mem s) root 16 len) ∧ (∀ va, 0 ≤ va < 8192 → uaddr (pm_mem s) root va ≠ 0).
Proof.
  destruct space8_ok as (root & r & s' & l' & n & E & Hi & Hu). pose proof space8_mapped as Hm. rewrite E in Hm.
  apply orb_false_iff in Hm as [Hm0%Z.eqb_neq Hm1%Z.eqb_neq].
  exists root, s'. pose proof (@as_inv_uspace syms8 _ _ _ _ Hi Hu) as Hus.
  split_and!; [done|apply Hi| |].
  - intros len Hlen x p Hx Hp. assert (Hpo : @page_ok syms8 p).
    { destruct Hp as [(path & Hok & Hn)|Hp]; [by apply (wf_page _ _ (us_wf _ _ Hus) path)|].
      by apply Hus in Hp as [? _]. }
    destruct Hpo as (_ & Hlo & _). cbn [end_ syms8] in Hlo.
    change (PHYSTOP - 8 * PGSIZE) with 2281668608 in Hlo. lia.
  - clear E. intros va Hva. destruct (Z.ltb_spec va 4096).
    + rewrite (uaddr_same_page _ _ va 0); [done|lia|lia|]. unfold PGSIZE. zdm.
    + rewrite (uaddr_same_page _ _ va 4096); [done|lia|lia|]. unfold PGSIZE. zdm.
Qed.

Lemma copyin_correct_witness : ∃ root s r s', copyin root 16 4090 10 s = Ret r s'.
Proof.
  destruct user8 as (root & s & Hus & _ & Hkb & _).
  destruct (@copyin_correct syms8 s root 16 4090 10 Hus (Hkb 10 ltac:(lia)) ltac:(lia) ltac:(lia))
    as (r & s' & k & E & _). exists root, s, r, s'. exact E.
Defined.


Lemma copyinstr_correct_witness : ∃ root s r s', copyinstr root 16 4090 10 s = Ret r s'.
Proof.
  destruct user8 as (root & s & Hus & Hok & Hkb & _).
  destruct (@copyinstr_correct syms8 s root 16 4090 10 Hus Hok (Hkb 10 ltac:(lia)) ltac:(lia) ltac:(lia))
    as (r & s' & k & fin & E & _). exists root, s, r, s'. exact E.
Defined.
