(* ===== verification/VmFork.v ===== *)
(** uvmcopy() (vm.c): the memory of a new process is a copy of its parent's. *)
From S2P Require Import Prelude Machine CString Spinlock Kalloc PageTable Vm VmMap VmUser.

(** A page of the child holds the parent's bytes and has the parent's flags. *)
Definition copy_page (m : mem) (old va flags byte : Z) : Prop :=
  flags = PTE_FLAGS (pview m old va) ∧ byte = uread m old va.

(** The table of the child shares no page with the parent. *)
Definition apart (m : mem) (old : Z) (n : nat) (new : Z) : Prop :=
  ∀ p, in_tree m new p → ¬ in_tree m old p ∧ p ∉ pas m old n 0.

(** The parent is as it was. *)
Record untouched (old : Z) (n : nat) (m m' : mem) : Prop := {
  ut_tree : same_tree old m m';
  ut_data : ∀ va, 0 ≤ va < pages n → m' (upa m old va) = m (upa m old va);
  ut_pages : ∀ p x, p ∈ pas m old n 0 → p ≤ x < p + PGSIZE → m' x = m x
}.

Lemma PTE_FLAGS_V v : pte_v v = true → 0 ≤ v → Z.lor (PTE_FLAGS v) PTE_V = PTE_FLAGS v.
Proof.
  intros Hv Hpos. unfold PTE_FLAGS, pte_v in *. change PTE_V with 1 in *.
  apply negb_true_iff, Z.eqb_neq in Hv.
  apply Z.bits_inj'. intros i Hi. rewrite Z.lor_spec.
  destruct (Z.eqb_spec i 0) as [->|].
  - change 0x3FF with (Z.ones 10). rewrite Z.land_spec, Z.ones_spec_low by lia.
    replace (Z.testbit v 0) with true; [done|]. symmetry.
    rewrite Z.bit0_odd. change 1 with (2 ^ 1 - 1) in Hv. rewrite land_ones_mod in Hv by lia.
    change (2 ^ 1) with 2 in Hv. rewrite Zmod_odd in Hv. by destruct (Z.odd v).
  - replace (Z.testbit 1 i) with false; [by rewrite orb_false_r|]. symmetry.
    change 1 with (2 ^ 0). apply Z.pow2_bits_false. lia.
Qed.

Lemma PTE_FLAGS_range v : 0 ≤ v → 0 ≤ PTE_FLAGS v < 1024.
Proof.
  intros. unfold PTE_FLAGS. change 0x3FF with (2 ^ 10 - 1). rewrite land_ones_mod by lia. zdm.
Qed.

Lemma load_nonneg k m a : mem_ok m → 0 ≤ load k m a.
Proof.
  intros Hok. revert a. induction k as [|k IH]; intros a; cbn [load]; [lia|].
  pose proof (Hok a). specialize (IH (a + 1)). lia.
Qed.

Lemma pview_nonneg m root va : mem_ok m → 0 ≤ pview m root va.
Proof.
  intros Hok. unfold pview. destruct (leaf m root va); [|lia]. by apply load_nonneg.
Qed.

Section fork.
Context `{Symbols}.

Lemma owned_untouched s l root old n s' :
  as_inv s l old n → vm_inv s l root → apart (pm_mem s) old n root →
  off_pages (owned s l root) (pm_mem s) (pm_mem s') → untouched old n (pm_mem s) (pm_mem s').
Proof.
  intros Ha Hv Hap Hoff.
  assert (Hpa : ∀ p, p ∈ pas (pm_mem s) old n 0 → page_ok p ∧ ¬ owned s l root p).
  { intros p Hp. destruct (ai_free _ _ _ _ Ha) as [_ Hfr]. destruct (Hfr p Hp) as [Hok Hno].
    split; [done|]. intros [Hl|Ht]; [apply Hno; by left|]. by apply Hap in Ht as [_ Ht]. }
  assert (Hag : ∀ p, p ∈ pas (pm_mem s) old n 0 → agree (pm_mem s') (pm_mem s) p PGSIZE).
  { intros p Hp. destruct (Hpa p Hp) as [Hok Hno].
    eapply off_pages_agree; [done| |apply Hok|done].
    intros q Hq. by apply (owned_aligned s l root q Hv). }
  split.
  - eapply same_tree_off; [apply Ha|done|..]; intros p Hp.
    + by apply (owned_aligned s l root p Hv).
    + intros Ht. destruct Hp as [Hl|Hp]; [by apply (vi_tree _ _ _ (ai_vm _ _ _ _ Ha) p)|].
      by apply Hap in Hp as [? _].
  - intros va Hva. unfold upa. apply (Hag (PTE2PA (pview (pm_mem s) old va))).
    + apply elem_of_pas. exists (va / PGSIZE). rewrite Z.add_0_l, pview_page.
      split; [by apply page_index|done].
    + unfold PGSIZE. zdm.
  - intros p x Hp Hx. by apply (Hag p Hp).
Qed.

(** An extension of the child leaves the parent in order. *)
Lemma extends_parent N s l root old n k s' l' k' :
  as_inv s l old n → apart (pm_mem s) old n root → vm_inv s l root →
  extends N root s l k s' l' k' → as_inv s' l' old n.
Proof.
  intros Ha Hap Hv E.
  pose proof (owned_untouched s l root old n s' Ha Hv Hap (ex_frame _ _ _ _ _ _ _ _ E)) as [Hst _ _].
  assert (Hnl : ∀ p, p ∈ l' → owned s l root p) by (intros p Hp; apply (ex_owned _ _ _ _ _ _ _ _ E); by left).
  assert (Hpas : pas (pm_mem s') old n 0 = pas (pm_mem s) old n 0)
    by (apply pas_ext; intros; apply Hst).
  pose proof (ai_free _ _ _ _ Ha) as [Hnd Hfr]. split.
  - eapply vm_inv_same_tree; [apply Ha|done|apply (ex_inv _ _ _ _ _ _ _ _ E)|].
    intros p Hp Hl. apply Hnl in Hl as [Hl|Hl].
    + by apply (vi_tree _ _ _ (ai_vm _ _ _ _ Ha) p).
    + by apply Hap in Hl as [? _].
  - apply Ha.
  - intros i Hi. rewrite (st_view _ _ _ Hst). by apply Ha.
  - unfold freeable. rewrite Hpas. split; [done|]. intros p Hp. destruct (Hfr p Hp) as [Hok Hno].
    split; [done|]. intros [Hl|Ht].
    + apply Hnl in Hl as [Hl|Hl]; [apply Hno; by left|]. by apply Hap in Hl as [_ ?].
    + apply (st_tree _ _ _ Hst) in Ht. apply Hno. by right.
  - intros vb Hvb. rewrite (st_view _ _ _ Hst). exact (ai_none _ _ _ _ Ha vb Hvb).
Qed.

(** The error path of uvmcopy(). *)
Lemma wp_uvmcopy_err N s0 l0 new s l k (Q : Z → pmem → Prop) :
  as_inv s0 l0 new 0 → extends N new s0 l0 0 s l k →
  (∀ s' l', extends N new s0 l0 0 s' l' 0 → Q (-1) s') → wp (uvmcopy_err new (pages k)) Q s.
Proof.
  intros Ha0 E HQ. pose proof (ex_inv _ _ _ _ _ _ _ _ E) as Ha. unfold uvmcopy_err.
  replace (pages k / PGSIZE) with (Z.of_nat k) by (unfold pages; by rewrite Z.div_mul).
  pose proof (ai_max _ _ _ _ Ha). pose proof TRAPFRAME_lt.
  apply wp_bind. eapply (wp_uvmunmap _ s l); rewrite ?Nat2Z.id; try done; try lia.
  - apply Ha.
  - fold (pages k). lia.
  - intros i Hi. rewrite Z.add_0_l. by apply Ha.
  - intros _. apply Ha.
  - intros s' Hu. apply wp_ret. eapply HQ. eapply (extends_shrinks _ _ _ _ 0 _ _ k); [done..|].
    apply (unmapped_shrinks new s l k 0); done.
Qed.

Lemma wp_uvmcopy_loop fuel s0 l0 old new sz s l k (Q : Z → pmem → Prop) :
  let N := copy_page (pm_mem s0) old in
  0 ≤ sz ≤ TRAPFRAME →
  as_inv s0 l0 old (npages sz) → as_inv s0 l0 new 0 → apart (pm_mem s0) old (npages sz) new →
  extends N new s0 l0 0 s l k → (k ≤ npages sz)%nat → (npages sz ≤ k + fuel)%nat →
  (∀ s' l', extends N new s0 l0 0 s' l' (npages sz) → Q 0 s') →
  (∀ s' l', extends N new s0 l0 0 s' l' 0 → Q (-1) s') →
  wp (uvmcopy_loop fuel old new (pages k) sz) Q s.
Proof.
  intros N Hsz Hold Hnew0 Hap. assert (Hmx : TRAPFRAME < 2 ^ 38) by by vm_compute.
  pose proof TRAPFRAME_lt as HT. pose proof (npages_bounds sz Hsz) as Hb.
  revert s l k. induction fuel as [|fuel IH]; intros s l k E Hle Hfuel HQ1 HQ0; cbn [uvmcopy_loop];
    (destruct (Z.ltb_spec (pages k) sz) as [Hlt|Hge];
      [|apply wp_ret, (HQ1 s l); replace (npages sz) with k; [done|unfold pages, PGSIZE in *; lia]]).
  { unfold pages, PGSIZE in *. lia. }
  pose proof (ex_inv _ _ _ _ _ _ _ _ E) as Hnew. pose proof (pages_pos k) as Hk0.
  assert (Hkn : pages k < pages (npages sz)) by lia.
  destruct (owned_untouched s0 l0 new old _ s Hold (ai_vm _ _ _ _ Hnew0) Hap
              (ex_frame _ _ _ _ _ _ _ _ E)) as [Hst Hdata Hpgs].
  destruct (ai_page _ _ _ _ (pages k) Hold) as ([Hpv Hpf] & Hpok & Hpno); [lia|].
  rewrite <- (st_view _ _ _ Hst) in Hpv, Hpf. destruct (pview_valid_leaf _ _ _ Hpv) as (a & Hl & Hla).
  apply wp_bind, wp_walk_false; [lia|by rewrite Hl|]. intros a' Ha'. simplify_eq.
  assert (Hane : a ≠ 0).
  { apply (leaf_pos s l old (pages k)); [|done].
    apply (extends_parent _ _ _ _ _ _ _ _ _ _ Hold Hap (ai_vm _ _ _ _ Hnew0) E). }
  destruct (Z.eqb_spec a 0); [done|]. unfold read64. apply wp_bind, wp_gets. rewrite Hla.
  pose proof Hpv as Hpv'. unfold pte_v in Hpv'. apply negb_true_iff in Hpv' as ->.
  rewrite (st_view _ _ _ Hst) in *. set (v := pview (pm_mem s0) old (pages k)) in *.
  assert (Hmax : pages (S k) ≤ TRAPFRAME).
  { pose proof (ai_max _ _ _ _ Hold). unfold pages, PGSIZE in *. lia. }
  assert (Hvn : 0 ≤ v) by (apply pview_nonneg; apply Hold).
  apply wp_bind. eapply wp_kalloc; [apply Hnew|..].
  - intros -> s1 Hk1 Hm1. rewrite Z.eqb_refl.
    eapply wp_uvmcopy_err; [done| |done].
    eapply extends_trans; [| |exact Hnew|exact E|by apply extends_nomem]; lia.
  - intros p l' s1 -> Hk1 Hp Hnin Ho1.
    assert (p ≠ 0) by (destruct Hp as (_ & _ & _ & ?); lia).
    destruct (Z.eqb_spec p 0); [done|].
    unfold do_memmove. apply wp_bind, wp_modify. cbv beta.
    set (s2 := set_mem (memmove (pm_mem s1) p (PTE2PA v) PGSIZE) s1).
    assert (Htk : taken new k s p l' s2).
    { apply taken_write; [by split| |apply memmove_ok; [done|apply Hk1]].
      intros x Hx. by apply memmove_out. }
    assert (Hpin : PTE2PA v ∈ pas (pm_mem s0) old (npages sz) 0).
    { apply elem_of_pas. exists (Z.of_nat k). split; [|by rewrite Z.add_0_l].
      unfold pages, PGSIZE in *. lia. }
    assert (Hpne : PTE2PA v ≠ p).
    { intros Ep. apply (extends_parent _ _ _ _ _ _ _ _ _ _ Hold Hap (ai_vm _ _ _ _ Hnew0)) in E as Hpar.
      destruct (ai_page _ _ _ _ (pages k) Hpar) as (_ & _ & Hno'); [lia|].
      rewrite (st_view _ _ _ Hst) in Hno'. fold v in Hno'. rewrite Ep in Hno'. apply Hno'. left. left. }
    assert (Hsrc : ∀ x, PTE2PA v ≤ x < PTE2PA v + PGSIZE → pm_mem s1 x = pm_mem s0 x).
    { intros x Hx. rewrite Ho1; [by apply (Hpgs (PTE2PA v))|].
      destruct (pages_disjoint (PTE2PA v) p) as [?|?]; [apply Hpok|apply Hp|done|..]; lia. }
    pose proof (pages_S k). apply wp_bind.
    eapply (wp_map_taken new k s p l' s2); [done|done|by apply PTE_FLAGS_range|..].
    + intros s3 l3 Hm. rewrite Z.eqb_refl. cbn [negb].
      rewrite u64_small, <- pages_S by (unfold PGSIZE in *; lia).
      eapply IH; [| |lia|done..].
      * eapply extends_trans; [| |exact Hnew|exact E|]; [lia..|].
        eapply (extends_map _ _ _ _ _ _ _ (PTE_FLAGS v)); [exact Htk|done|
          by apply PTE_FLAGS_range|by rewrite PTE_FLAGS_V| |exact Hm].
        intros vb Hvb. assert (Evb : pview (pm_mem s0) old vb = v).
        { unfold v. rewrite <- (pview_page _ _ vb). f_equal. unfold pages, PGSIZE in *. zdm. }
        rewrite PTE_FLAGS_V by done. split; [by rewrite Evb|].
        unfold uread, upa. rewrite Evb. cbn [s2 set_mem pm_mem].
        pose proof (Z.mod_pos_bound vb PGSIZE ltac:(done)).
        rewrite memmove_in by (done || lia). rewrite Hsrc by lia. f_equal. lia.
      * unfold pages, PGSIZE in *. lia.
    + intros s3 Hm. cbn [Z.eqb negb].
      apply wp_bind. eapply wp_kfree; [apply Hm|done|apply not_elem_of_nil|].
      intros s4 Hk4 Ho4. eapply wp_uvmcopy_err; [done| |done].
      eapply extends_trans; [| |exact Hnew|exact E|by eapply extends_fail]; lia.
Qed.
(** C8: uvmcopy() gives the child a copy of the parent's memory or nothing. With the
    parent's pages of size [sz] and an empty child table, it returns 0 or -1. On 0 the
    child has the same pages mapped, each with the parent's flags and the parent's
    bytes, at physical pages of its own; on -1 the child is empty again and every page
    taken has been given back. In both cases the parent's mappings and memory are
    unchanged. *)
Theorem uvmcopy_correct s l old new sz :
  0 ≤ sz ≤ TRAPFRAME →
  as_inv s l old (npages sz) → as_inv s l new 0 → apart (pm_mem s) old (npages sz) new →
  ∃ r s' l', uvmcopy old new sz s = Ret r s' ∧
    (r = 0 ∧ extends (copy_page (pm_mem s) old) new s l 0 s' l' (npages sz) ∨
     r = -1 ∧ extends (copy_page (pm_mem s) old) new s l 0 s' l' 0) ∧
    as_inv s' l' old (npages sz) ∧ untouched old (npages sz) (pm_mem s) (pm_mem s').
Proof.
  intros Hsz Hold Hnew Hap.
  assert (Hwp : wp (uvmcopy old new sz) (λ r s', ∃ l' k,
    (r = 0 ∧ k = npages sz ∨ r = -1 ∧ k = 0%nat) ∧
    extends (copy_page (pm_mem s) old) new s l 0 s' l' k) s).
  { unfold uvmcopy. pose proof (npages_bounds sz Hsz).
    eapply (wp_uvmcopy_loop _ s l old new sz s l 0); [done..|by apply extends_refl|lia| | |].
    - unfold pages, PGSIZE in *. zdm.
    - intros s' l' E. exists l', (npages sz). auto.
    - intros s' l' E. exists l', 0%nat. auto. }
  apply wp_elim in Hwp as (r & s' & E & l' & k & Hor & Ex). exists r, s', l'. split_and!; [done|..].
  - destruct Hor as [[-> ->]|[-> ->]]; auto.
  - by eapply extends_parent; [done..|apply Hnew|].
  - eapply owned_untouched; [done|apply Hnew|done|apply Ex].
Qed.

(** Creating the child's table beside the parent (as fork() does). *)
Lemma as_inv_kalloc s p l s1 old n :
  as_inv s (p :: l) old n → kinv s1 l → only_page p (pm_mem s) (pm_mem s1) → as_inv s1 l old n.
Proof.
  intros Ha Hk Ho. destruct (kalloc_vm_inv s p l s1 old (ai_vm _ _ _ _ Ha) Hk Ho) as (Hst & Hv & Hnt).
  assert (Hpas : pas (pm_mem s1) old n 0 = pas (pm_mem s) old n 0)
    by (apply pas_ext; intros; apply Hst).
  pose proof (ai_free _ _ _ _ Ha) as [Hnd Hfr]. split; [done|apply Ha|..].
  - intros i Hi. rewrite (st_view _ _ _ Hst). by apply Ha.
  - unfold freeable. rewrite Hpas. split; [done|]. intros q Hq. destruct (Hfr q Hq) as [Hok Hno].
    split; [done|]. intros [Hl|Ht]; apply Hno; [left; by right|right; by apply Hst].
  - intros vb Hvb. rewrite (st_view _ _ _ Hst). exact (ai_none _ _ _ _ Ha vb Hvb).
Qed.

Lemma wp_uvmcreate_child s l old n (Q : Z → pmem → Prop) :
  as_inv s l old n →
  (∀ s', l = [] → Q 0 s') →
  (∀ new s' l', new ≠ 0 → as_inv s' l' new 0 → as_inv s' l' old n → apart (pm_mem s') old n new →
     Q new s') → wp uvmcreate Q s.
Proof.
  intros Ha H0 H1. eapply wp_uvmcreate; [apply Ha|by auto|].
  intros new l' s' -> Hne Hnew Ho Ht _. apply (H1 new s' l'); [done|done|..].
  - eapply as_inv_kalloc; [done|apply Hnew|done].
  - intros p ->%Ht.
    destruct (kalloc_vm_inv s new l' s' old (ai_vm _ _ _ _ Ha) (vi_kinv _ _ _ (ai_vm _ _ _ _ Hnew)) Ho)
      as (Hst & _ & Hnt).
    split; [done|]. rewrite (pas_ext (pm_mem s)) by (intros; apply Hst).
    intros Hin. apply (ai_free _ _ _ _ Ha) in Hin as [_ Hno]. apply Hno. left. left.
Qed.
(** ... and growing the parent beside the child's empty table. *)
Lemma extends_child N s l old new s' l' n :
  as_inv s l old 0 → as_inv s l new 0 → apart (pm_mem s) old 0 new →
  extends N old s l 0 s' l' n → as_inv s' l' new 0 ∧ apart (pm_mem s') old n new.
Proof.
  intros Hold Hnew Hap E.
  assert (Hap' : apart (pm_mem s) new 0 old).
  { intros p Hp. split; [|apply not_elem_of_nil]. intros Hp'. by apply Hap in Hp' as [? _]. }
  split; [by eapply extends_parent; [..|apply Hold|]|].
  destruct (owned_untouched s l old new 0 s' Hnew (ai_vm _ _ _ _ Hold) Hap'
              (ex_frame _ _ _ _ _ _ _ _ E)) as [Hst _ _].
  intros p Hp. apply (st_tree _ _ _ Hst) in Hp.
  assert (Hno : ¬ space s' l' old n p).
  { rewrite (ex_space _ _ _ _ _ _ _ _ E). intros [[Hl|Ht]|Hin%elem_of_nil]; [|by apply Hap in Hp as [? _]|done].
    by apply (vi_tree _ _ _ (ai_vm _ _ _ _ Hnew) p). }
  split; intros Hin; apply Hno; [left; by right|by right].
Qed.
End fork.

(** ** Witness: two tables, and a parent of 5000 bytes (or none) *)
Lemma family8 : ∃ s l old new r, 0 ≤ r ≤ TRAPFRAME ∧ @as_inv syms8 s l old (npages r) ∧
  @as_inv syms8 s l new 0 ∧ apart (pm_mem s) old (npages r) new.
Proof.
  destruct boot8 as [s0 Hk].
  destruct (wp_elim uvmcreate (λ root s', ∃ l, @as_inv syms8 s' l root 0 ∧ l ≠ []) s0)
    as (old & s1 & _ & l1 & Ho1 & Hl1).
  { eapply (@wp_uvmcreate syms8); [exact Hk|intros E; vm_compute in E; congruence|].
    intros root l s' E _ Ha _ _ _. exists l. split; [exact Ha|]. intros ->. vm_compute in E. congruence. }
  destruct (wp_elim uvmcreate (λ new s', ∃ l', @as_inv syms8 s' l' new 0 ∧
    @as_inv syms8 s' l' old 0 ∧ apart (pm_mem s') old 0 new) s1) as (new & s2 & _ & l2 & Hn2 & Ho2 & Hap2).
  { eapply (@wp_uvmcreate_child syms8); [exact Ho1|intros ? ?; contradiction|].
    intros new s' l' _ Hn Ho Hap. exists l'. auto. }
  destruct (wp_elim (@uvmalloc syms8 old 0 5000) (λ r s', ∃ l', 0 ≤ r ≤ TRAPFRAME ∧
    @extends syms8 fresh_page old s2 l2 0 s' l' (npages r)) s2) as (r & s3 & _ & l3 & Hr & E).
  { eapply (@wp_uvmalloc syms8); [exact Ho2|lia|vm_compute; congruence|..];
      intros s' l' E; exists l'; (split; [vm_compute; split; congruence|exact E]). }
  destruct (@extends_child syms8 _ _ _ _ _ _ _ _ Ho2 Hn2 Hap2 E) as [Hn3 Hap3].
  exists s3, l3, old, new, r. split; [exact Hr|]. split; [apply E|]. split; assumption.
Qed.

Lemma uvmcopy_correct_witness :
  ∃ s old new r res s', @uvmcopy syms8 old new r s = Ret res s' ∧ (res = 0 ∨ res = -1).
Proof.
  destruct family8 as (s & l & old & new & r & Hr & Ho & Hn & Hap).
  destruct (@uvmcopy_correct syms8 s l old new r Hr Ho Hn Hap) as (res & s' & l' & E & Hor & _).
  exists s, old, new, r, res, s'. split; [exact E|]. destruct Hor as [[Hres _]|[Hres _]]; auto.
Defined.
