(* ===== verification/Sched.v ===== *)
(** What the rest of the kernel relies on of the process layer (proc.c).

    Locks, the buffer cache, the log and pipes call myproc(), sleep() and wakeup(), and
    run on some hart.  [Sched] names those operations on a state [P] and [SchedOk] what
    the callers need of them; the components below are written and proved against this
    interface, and Proc.v implements it. *)
From S2P Require Import Prelude Machine Spinlock.

Class Sched (P : Type) := {
  sc_hart : lens P hart;          (* the running hart *)
  sc_pid : M P Z;                 (* myproc()->pid *)
  sc_killed : M P bool;           (* myproc()->killed *)
  sc_enter : M P unit;            (* sleep(): acquire(&p->lock) *)
  sc_block : chan → M P unit;     (* sleep(): p->chan = chan ... release(&p->lock) *)
  sc_wakeup : chan → M P unit     (* wakeup(chan) *)
}.

Class SchedOk (P : Type) `{Sched P} := {
  so_inv : P → Prop;              (* a thread that holds no process lock *)
  so_id : P → Z;                  (* the running process *)
  so_kill : P → bool;
  so_hart_ok p : so_inv p → hart_ok (lget sc_hart p);
  so_get_set p h : lget sc_hart (lset sc_hart h p) = h;
  so_set_set p h h' : lset sc_hart h' (lset sc_hart h p) = lset sc_hart h' p;
  so_set_get p : lset sc_hart (lget sc_hart p) p = p;
  so_set_inv p h : so_inv p → hart_ok h → tp h = tp (lget sc_hart p) → so_inv (lset sc_hart h p);
  so_set_id p h : so_id (lset sc_hart h p) = so_id p;
  so_set_kill p h : so_kill (lset sc_hart h p) = so_kill p;
  so_pid p : so_inv p → sc_pid p = Ret (so_id p) (lset sc_hart (settle (lget sc_hart p)) p);
  so_killed p : so_inv p → sc_killed p = Ret (so_kill p) (lset sc_hart (settle (lget sc_hart p)) p);
  so_wakeup p c : so_inv p →
    ∃ p', sc_wakeup c p = Ret () p' ∧ so_inv p' ∧ lget sc_hart p' = settle (lget sc_hart p) ∧
          so_id p' = so_id p ∧ so_kill p' = so_kill p
}.

Section sched.
Context {P : Type} `{Sched P}.

(** acquire(lk), release(lk) and sleep(chan, lk) for a lock that is not a process lock. *)
Definition lock_at : (P * spinlock) → hart * spinlock := λ '(p, lk), (lget sc_hart p, lk).
Definition lock_to : hart * spinlock → P * spinlock → P * spinlock :=
  λ '(h, lk) '(p, _), (lset sc_hart h p, lk).
Definition acq : M (P * spinlock) unit := zoom lock_at lock_to acquire.
Definition rel : M (P * spinlock) unit := zoom lock_at lock_to release.
Definition on_sched {L A} (m : M P A) : M (P * L) A := zoom fst (λ p '(_, lk), (p, lk)) m.
Definition sleep (c : chan) : M (P * spinlock) unit :=
  on_sched sc_enter;; rel;; on_sched (sc_block c);; acq.
End sched.

Section sched_ok.
Context {P : Type} `{SchedOk P}.

(** The same thread, at the same depth of push_off(). *)
Record calm (p p' : P) : Prop := {
  cm_inv : so_inv p';
  cm_id : so_id p' = so_id p;
  cm_kill : so_kill p' = so_kill p;
  cm_hart : settle (lget sc_hart p') = settle (lget sc_hart p)
}.

Lemma calm_refl p : so_inv p → calm p p.
Proof. by split. Qed.

Lemma calm_trans p1 p2 p3 : calm p1 p2 → calm p2 p3 → calm p1 p3.
Proof. intros [] []. split; congruence. Qed.

Lemma settle_push_off h : hart_ok h → settle (push_off h) = push_off h.
Proof.
  intros [Hn _]. unfold settle. rewrite noff_push_off.
  by destruct (Z.eqb_spec (noff h + 1) 0); [lia|].
Qed.

Lemma calm_settle p : so_inv p → calm p (lset sc_hart (settle (lget sc_hart p)) p).
Proof.
  intros Hp. pose proof (so_hart_ok p Hp). split.
  - apply so_set_inv; auto with kern. by rewrite tp_settle.
  - apply so_set_id.
  - apply so_set_kill.
  - by rewrite so_get_set, settle_settle.
Qed.

(** A thread inside one more push_off(). *)
Record within (p q : P) : Prop := {
  wi_inv : so_inv q;
  wi_id : so_id q = so_id p;
  wi_kill : so_kill q = so_kill p;
  wi_hart : lget sc_hart q = push_off (lget sc_hart p);
  wi_ok : so_inv p
}.

Lemma wp_acq p lk (Q : unit → P * spinlock → Prop) :
  so_inv p → lock_free lk →
  (∀ q, within p q → Q () (q, take_lock (push_off (lget sc_hart p)) lk)) →
  wp acq Q (p, lk).
Proof.
  intros Hp Hlk HQ. unfold acq. apply wp_zoom. cbn [lock_at].
  unfold wp. rewrite acquire_free by done. cbn [lock_to]. apply HQ.
  pose proof (so_hart_ok p Hp). split.
  - apply so_set_inv; auto with kern. apply tp_push_off.
  - apply so_set_id.
  - apply so_set_kill.
  - apply so_get_set.
  - done.
Qed.

Lemma wp_rel p q lk (Q : unit → P * spinlock → Prop) :
  within p q → lock_held (push_off (lget sc_hart p)) lk →
  (∀ p', calm p p' → Q () (p', mkSpinlock 0 (lname lk) None)) →
  wp rel Q (q, lk).
Proof.
  intros [Hq Hid Hk Hh Hp] Hlk HQ. unfold rel. apply wp_zoom. cbn [lock_at]. rewrite Hh.
  pose proof (so_hart_ok p Hp). unfold wp. rewrite release_held by done. cbn [lock_to]. apply HQ.
  split.
  - apply so_set_inv; auto with kern. by rewrite Hh, tp_settle, tp_push_off.
  - by rewrite so_set_id.
  - by rewrite so_set_kill.
  - by rewrite so_get_set, settle_settle.
Qed.

Lemma within_wakeup p q c (Q : unit → P → Prop) :
  within p q → (∀ q', within p q' → Q () q') → wp (sc_wakeup c) Q q.
Proof.
  intros [Hq Hid Hk Hh Hp] HQ. destruct (so_wakeup q c Hq) as (q' & E & Hi & Hh' & Hid' & Hk').
  unfold wp. rewrite E. apply HQ. pose proof (so_hart_ok p Hp). split; try done; try congruence.
  by rewrite Hh', Hh, settle_push_off.
Qed.

Lemma calm_wakeup p c (Q : unit → P → Prop) :
  so_inv p → (∀ p', calm p p' → Q () p') → wp (sc_wakeup c) Q p.
Proof.
  intros Hp HQ. destruct (so_wakeup p c Hp) as (q' & E & Hi & Hh' & Hid' & Hk').
  unfold wp. rewrite E. apply HQ. split; try done. by rewrite Hh', settle_settle.
Qed.

Lemma within_pid p q (Q : Z → P → Prop) :
  within p q → (∀ q', within p q' → Q (so_id p) q') → wp sc_pid Q q.
Proof.
  intros [Hq Hid Hk Hh Hp] HQ. unfold wp. rewrite so_pid by done. rewrite Hid. apply HQ.
  pose proof (so_hart_ok p Hp). rewrite Hh, settle_push_off, <- Hh, so_set_get by done. done.
Qed.

Lemma wp_on_sched {L A} (m : M P A) (p : P) (lk : L) Q :
  wp m (λ a p', Q a (p', lk)) p → wp (on_sched m) Q (p, lk).
Proof. intros Hw. by apply wp_zoom. Qed.

Lemma take_lock_released h lk : lock_free lk → mkSpinlock 0 (lname (take_lock h lk)) None = lk.
Proof. destruct lk. unfold lock_free. simpl. intros [-> ->]. done. Qed.

Lemma wp_rel_taken p q lk (Q : unit → P * spinlock → Prop) :
  within p q → lock_free lk → (∀ p', calm p p' → Q () (p', lk)) →
  wp rel Q (q, take_lock (push_off (lget sc_hart p)) lk).
Proof.
  intros Hw Hlk HQ. eapply wp_rel; [done|apply take_lock_held|]. intros p' Hp'.
  rewrite take_lock_released by done. auto.
Qed.
End sched_ok.

#[export] Hint Resolve calm_refl calm_trans calm_settle : kern.
