(* ===== verification/Proc.v ===== *)
(** proc.c: processes, and the operations of the process layer that the rest of the
    kernel uses (the interface of Sched.v).

    [kst] is the state of the process layer on one hart: memory and the page allocator,
    with the hart's registers; [c->proc]; the process table; [nextpid] and its lock;
    [initproc].  Pointers to struct proc are indices into the table, a null pointer is
    [None].  swtch() is a [Wait]: the thread goes on when the scheduler switches back to
    it, in the state it finds then. *)
From S2P Require Import Prelude Machine CString Spinlock Kalloc PageTable Vm Sched.

(** enum procstate *)
Inductive procstate := UNUSED | SLEEPING | RUNNABLE | RUNNING | ZOMBIE.
#[global] Instance procstate_eq_dec : EqDecision procstate.
Proof. solve_decision. Defined.

(** The fields of struct context that allocproc() sets; swtch.S saves the others. *)
Record context := mkContext { ctx_ra : Z; ctx_sp : Z }.

(** struct proc *)
Record proc := mkProc {
  p_lock : spinlock;
  p_state : procstate;
  p_parent : option Z;
  p_chan : chan;
  p_killed : Z;
  p_xstate : Z;
  p_pid : Z;
  p_kstack : Z;
  p_sz : Z;
  p_pagetable : Z;
  p_trapframe : Z;
  p_context : context;
  p_ofile : Z → option Z;
  p_cwd : option Z;
  p_name : list Z
}.

Definition set_plock v p := mkProc v (p_state p) (p_parent p) (p_chan p) (p_killed p) (p_xstate p) (p_pid p) (p_kstack p) (p_sz p) (p_pagetable p) (p_trapframe p) (p_context p) (p_ofile p) (p_cwd p) (p_name p).
Definition set_state v p := mkProc (p_lock p) v (p_parent p) (p_chan p) (p_killed p) (p_xstate p) (p_pid p) (p_kstack p) (p_sz p) (p_pagetable p) (p_trapframe p) (p_context p) (p_ofile p) (p_cwd p) (p_name p).
Definition set_parent v p := mkProc (p_lock p) (p_state p) v (p_chan p) (p_killed p) (p_xstate p) (p_pid p) (p_kstack p) (p_sz p) (p_pagetable p) (p_trapframe p) (p_context p) (p_ofile p) (p_cwd p) (p_name p).
Definition set_chan v p := mkProc (p_lock p) (p_state p) (p_parent p) v (p_killed p) (p_xstate p) (p_pid p) (p_kstack p) (p_sz p) (p_pagetable p) (p_trapframe p) (p_context p) (p_ofile p) (p_cwd p) (p_name p).
Definition set_killed v p := mkProc (p_lock p) (p_state p) (p_parent p) (p_chan p) v (p_xstate p) (p_pid p) (p_kstack p) (p_sz p) (p_pagetable p) (p_trapframe p) (p_context p) (p_ofile p) (p_cwd p) (p_name p).
Definition set_xstate v p := mkProc (p_lock p) (p_state p) (p_parent p) (p_chan p) (p_killed p) v (p_pid p) (p_kstack p) (p_sz p) (p_pagetable p) (p_trapframe p) (p_context p) (p_ofile p) (p_cwd p) (p_name p).
Definition set_pid v p := mkProc (p_lock p) (p_state p) (p_parent p) (p_chan p) (p_killed p) (p_xstate p) v (p_kstack p) (p_sz p) (p_pagetable p) (p_trapframe p) (p_context p) (p_ofile p) (p_cwd p) (p_name p).
Definition set_sz v p := mkProc (p_lock p) (p_state p) (p_parent p) (p_chan p) (p_killed p) (p_xstate p) (p_pid p) (p_kstack p) v (p_pagetable p) (p_trapframe p) (p_context p) (p_ofile p) (p_cwd p) (p_name p).
Definition set_pagetable v p := mkProc (p_lock p) (p_state p) (p_parent p) (p_chan p) (p_killed p) (p_xstate p) (p_pid p) (p_kstack p) (p_sz p) v (p_trapframe p) (p_context p) (p_ofile p) (p_cwd p) (p_name p).
Definition set_trapframe v p := mkProc (p_lock p) (p_state p) (p_parent p) (p_chan p) (p_killed p) (p_xstate p) (p_pid p) (p_kstack p) (p_sz p) (p_pagetable p) v (p_context p) (p_ofile p) (p_cwd p) (p_name p).
Definition set_context v p := mkProc (p_lock p) (p_state p) (p_parent p) (p_chan p) (p_killed p) (p_xstate p) (p_pid p) (p_kstack p) (p_sz p) (p_pagetable p) (p_trapframe p) v (p_ofile p) (p_cwd p) (p_name p).
Definition set_name v p := mkProc (p_lock p) (p_state p) (p_parent p) (p_chan p) (p_killed p) (p_xstate p) (p_pid p) (p_kstack p) (p_sz p) (p_pagetable p) (p_trapframe p) (p_context p) (p_ofile p) (p_cwd p) v.

Record kst := mkK {
  k_pm : pmem;
  c_proc : option Z;
  procs : Z → proc;
  pid_lock : spinlock;
  nextpid : Z;
  initproc : option Z
}.

Definition set_pm v (s : kst) := mkK v (c_proc s) (procs s) (pid_lock s) (nextpid s) (initproc s).
Definition set_cproc v (s : kst) := mkK (k_pm s) v (procs s) (pid_lock s) (nextpid s) (initproc s).
Definition set_procs v (s : kst) := mkK (k_pm s) (c_proc s) v (pid_lock s) (nextpid s) (initproc s).
Definition set_pidlock v (s : kst) := mkK (k_pm s) (c_proc s) (procs s) v (nextpid s) (initproc s).
Definition set_nextpid v (s : kst) := mkK (k_pm s) (c_proc s) (procs s) (pid_lock s) v (initproc s).

Definition k_hart (s : kst) : hart := pm_hart (k_pm s).
Definition pm_set_hart (h : hart) (m : pmem) : pmem := mkPmem h (kmem_lock m) (freelist m) (pm_mem m).
Definition set_khart (h : hart) (s : kst) : kst := set_pm (pm_set_hart h (k_pm s)) s.

Definition on_hart {A} (m : M hart A) : M kst A := zoom k_hart set_khart m.
Definition on_pm {A} (m : M pmem A) : M kst A := zoom k_pm set_pm m.
Definition getp (i : Z) : M kst proc := gets (λ s, procs s i).
Definition putp (i : Z) (f : proc → proc) : M kst unit :=
  modify (λ s, set_procs (upd (procs s) i (f (procs s i))) s).

(** acquire(&proc[i].lock), release(&proc[i].lock) *)
Definition on_plock {A} (i : Z) (m : M (hart * spinlock) A) : M kst A :=
  zoom (λ s, (k_hart s, p_lock (procs s i)))
       (λ '(h, lk) s, set_procs (upd (procs s) i (set_plock lk (procs s i))) (set_khart h s)) m.
Definition on_pidlock {A} (m : M (hart * spinlock) A) : M kst A :=
  zoom (λ s, (k_hart s, pid_lock s)) (λ '(h, lk) s, set_pidlock lk (set_khart h s)) m.

(** cpuid() *)
Definition cpuid (s : kst) : Z := tp (k_hart s).

(** myproc() *)
Definition myproc : M kst (option Z) :=
  on_hart (modify push_off);;
  p ← gets c_proc;
  on_hart pop_off;;
  mret p.

(** Following a pointer to a process; a null pointer faults, and kerneltrap() panics. *)
Definition deref {A} (p : option A) : M kst A :=
  match p with Some i => mret i | None => panic "kerneltrap" end.

(** allocpid() *)
Definition allocpid : M kst Z :=
  on_pidlock acquire;;
  pid ← gets nextpid;
  modify (λ s, set_nextpid (s32 (nextpid s + 1)) s);;
  on_pidlock release;;
  mret pid.

(** sched(); intena is saved across the switch *)
Definition sched : M kst unit :=
  mp ← myproc;
  p ← deref mp;
  s ← get;
  if negb (holding (k_hart s) (p_lock (procs s p))) then panic "sched p->lock"
  else if negb (noff (k_hart s) =? 1) then panic "sched locks"
  else if decide (p_state (procs s p) = RUNNING) then panic "sched running"
  else if intr_get (k_hart s) then panic "sched interruptible"
  else
    let intena := intena (k_hart s) in
    (λ s, Wait (WSwtch (p_chan (procs s p))) s (λ s, Ret () s));;
    on_hart (modify (set_intena intena)).

(** yield() *)
Definition yield : M kst unit :=
  mp ← myproc;
  p ← deref mp;
  on_plock p acquire;;
  putp p (set_state RUNNABLE);;
  sched;;
  on_plock p release.

(** sleep(chan, lk): its parts before and after release(lk), for lk other than p->lock *)
Definition sleep_enter : M kst unit :=
  mp ← myproc;
  p ← deref mp;
  on_plock p acquire.

Definition sleep_block (c : chan) : M kst unit :=
  mp ← gets c_proc;
  p ← deref mp;
  putp p (set_chan c);;
  putp p (set_state SLEEPING);;
  sched;;
  putp p (set_chan CNull);;
  on_plock p release.

(** sleep(chan, &p->lock) *)
Definition sleep_self (c : chan) : M kst unit :=
  mp ← myproc;
  p ← deref mp;
  putp p (set_chan c);;
  putp p (set_state SLEEPING);;
  sched;;
  putp p (set_chan CNull).

(** wakeup() *)
Definition wakeup_one (c : chan) (i : Z) : M kst unit :=
  on_plock i acquire;;
  p ← getp i;
  (if decide (p_state p = SLEEPING ∧ p_chan p = c) then putp i (set_state RUNNABLE) else mret ());;
  on_plock i release.

Fixpoint wakeup_loop (k : nat) (i : Z) (c : chan) : M kst unit :=
  match k with
  | O => mret ()
  | S k => wakeup_one c i;; wakeup_loop k (i + 1) c
  end.

Definition wakeup (c : chan) : M kst unit := wakeup_loop (Z.to_nat NPROC) 0 c.

(** wakeup1() *)
Definition wakeup1 (i : Z) : M kst unit :=
  s ← get;
  if negb (holding (k_hart s) (p_lock (procs s i))) then panic "wakeup1"
  else if decide (p_chan (procs s i) = CProc i ∧ p_state (procs s i) = SLEEPING)
  then putp i (set_state RUNNABLE)
  else mret ().

(** kill() *)
Fixpoint kill_loop (k : nat) (i pid : Z) : M kst Z :=
  match k with
  | O => mret (-1)
  | S k =>
    on_plock i acquire;;
    p ← getp i;
    if p_pid p =? pid then
      putp i (set_killed 1);;
      (if decide (p_state p = SLEEPING) then putp i (set_state RUNNABLE) else mret ());;
      on_plock i release;;
      mret 0
    else
      on_plock i release;;
      kill_loop k (i + 1) pid
  end.

Definition kill (pid : Z) : M kst Z := kill_loop (Z.to_nat NPROC) 0 pid.

(** reparent() *)
Fixpoint reparent_loop (k : nat) (pp p : Z) : M kst unit :=
  match k with
  | O => mret ()
  | S k =>
    x ← getp pp;
    (if decide (p_parent x = Some p) then
       on_plock pp acquire;;
       ip ← gets initproc;
       putp pp (set_parent ip);;
       on_plock pp release
     else mret ());;
    reparent_loop k (pp + 1) p
  end.

Definition reparent (p : Z) : M kst unit := reparent_loop (Z.to_nat NPROC) 0 p.

Section procs.
Context `{Symbols}.

(** proc_pagetable() *)
Definition proc_pagetable (p : Z) : M kst Z :=
  pagetable ← on_pm uvmcreate;
  if pagetable =? 0 then mret 0
  else
    r ← on_pm (mappages pagetable TRAMPOLINE PGSIZE trampoline (Z.lor PTE_R PTE_X));
    if r <? 0 then on_pm (uvmfree pagetable 0);; mret 0
    else
      x ← getp p;
      r ← on_pm (mappages pagetable TRAPFRAME PGSIZE (p_trapframe x) (Z.lor PTE_R PTE_W));
      if r <? 0 then
        on_pm (uvmunmap pagetable TRAMPOLINE 1 false);;
        on_pm (uvmfree pagetable 0);;
        mret 0
      else mret pagetable.

(** proc_freepagetable() *)
Definition proc_freepagetable (pagetable sz : Z) : M kst unit :=
  on_pm (uvmunmap pagetable TRAMPOLINE 1 false);;
  on_pm (uvmunmap pagetable TRAPFRAME 1 false);;
  on_pm (uvmfree pagetable sz).

(** freeproc() *)
Definition freeproc (p : Z) : M kst unit :=
  x ← getp p;
  when_ (negb (p_trapframe x =? 0)) (on_pm (kfree (p_trapframe x)));;
  putp p (set_trapframe 0);;
  x ← getp p;
  when_ (negb (p_pagetable x =? 0)) (proc_freepagetable (p_pagetable x) (p_sz x));;
  putp p (set_pagetable 0);;
  putp p (set_sz 0);;
  putp p (set_pid 0);;
  putp p (set_parent None);;
  putp p (λ x, set_name (<[0%nat := 0]> (p_name x)) x);;
  putp p (set_chan CNull);;
  putp p (set_killed 0);;
  putp p (set_xstate 0);;
  putp p (set_state UNUSED).

(** allocproc(): the search, then the part from found: on; [forkret] is its address *)
Fixpoint allocproc_find (k : nat) (i : Z) : M kst (option Z) :=
  match k with
  | O => mret None
  | S k =>
    on_plock i acquire;;
    p ← getp i;
    if decide (p_state p = UNUSED) then mret (Some i)
    else on_plock i release;; allocproc_find k (i + 1)
  end.

Definition allocproc (forkret : Z) : M kst (option Z) :=
  r ← allocproc_find (Z.to_nat NPROC) 0;
  match r with
  | None => mret None
  | Some p =>
    pid ← allocpid;
    putp p (set_pid pid);;
    tf ← on_pm kalloc;
    putp p (set_trapframe tf);;
    if tf =? 0 then on_plock p release;; mret None
    else
      pt ← proc_pagetable p;
      putp p (set_pagetable pt);;
      if pt =? 0 then freeproc p;; on_plock p release;; mret None
      else
        putp p (set_context (mkContext 0 0));;
        putp p (λ x, set_context (mkContext forkret (ctx_sp (p_context x))) x);;
        putp p (λ x, set_context (mkContext (ctx_ra (p_context x)) (u64 (p_kstack x + PGSIZE))) x);;
        mret (Some p)
  end.

(** growproc(); [sz] is a C uint *)
Definition growproc (n : Z) : M kst Z :=
  mp ← myproc;
  p ← deref mp;
  x ← getp p;
  let sz := u32 (p_sz x) in
  if 0 <? n then
    sz ← (r ← on_pm (uvmalloc (p_pagetable x) sz (u32 (sz + n))); mret (u32 r));
    if sz =? 0 then mret (-1) else putp p (set_sz sz);; mret 0
  else if n <? 0 then
    sz ← (r ← on_pm (uvmdealloc (p_pagetable x) sz (u32 (sz + n))); mret (u32 r));
    putp p (set_sz sz);; mret 0
  else putp p (set_sz sz);; mret 0.

(** either_copyout(), either_copyin(); kernel pointers are physical addresses *)
Definition either_copyout (user_dst : bool) (dst src len : Z) : M kst Z :=
  mp ← myproc;
  p ← deref mp;
  x ← getp p;
  if user_dst then on_pm (copyout (p_pagetable x) dst src len)
  else on_pm (do_memmove dst src len);; mret 0.

Definition either_copyin (dst : Z) (user_src : bool) (src len : Z) : M kst Z :=
  mp ← myproc;
  p ← deref mp;
  x ← getp p;
  if user_src then on_pm (copyin (p_pagetable x) dst src len)
  else on_pm (do_memmove dst src len);; mret 0.

(** wait(): one scan of the table for children of [p]; the exit status is copied
    out through a kernel address [tmp] that holds it *)
Fixpoint wait_scan (k : nat) (np p addr tmp : Z) (havekids : bool) : M kst (Z + bool) :=
  match k with
  | O => mret (inr havekids)
  | S k =>
    x ← getp np;
    if decide (p_parent x = Some p) then
      on_plock np acquire;;
      x ← getp np;
      if decide (p_state x = ZOMBIE) then
        let pid := p_pid x in
        me ← getp p;
        r ← (if addr =? 0 then mret 0
             else
               on_pm (modify (λ m, set_mem (store32 (pm_mem m) tmp (p_xstate x)) m));;
               on_pm (copyout (p_pagetable me) addr tmp 4));
        if r <? 0 then
          on_plock np release;; on_plock p release;; mret (inl (-1))
        else
          freeproc np;; on_plock np release;; on_plock p release;; mret (inl pid)
      else
        on_plock np release;; wait_scan k (np + 1) p addr tmp true
    else wait_scan k (np + 1) p addr tmp havekids
  end.

Fixpoint wait_loop (fuel : nat) (p addr tmp : Z) : M kst Z :=
  r ← wait_scan (Z.to_nat NPROC) 0 p addr tmp false;
  match r with
  | inl v => mret v
  | inr havekids =>
    x ← getp p;
    if negb havekids || negb (p_killed x =? 0) then on_plock p release;; mret (-1)
    else
      match fuel with
      | O => no_fuel
      | S fuel => sleep_self (CProc p);; wait_loop fuel p addr tmp
      end
  end.

Definition wait (fuel : nat) (addr tmp : Z) : M kst Z :=
  mp ← myproc;
  p ← deref mp;
  on_plock p acquire;;
  wait_loop fuel p addr tmp.
End procs.

(** scheduler(): the pass over the process table, one round with the idle case, and
    the first [turns] rounds *)
Fixpoint scheduler_loop (k : nat) (i : Z) (found : bool) : M kst bool :=
  match k with
  | O => mret found
  | S k =>
    on_plock i acquire;;
    p ← getp i;
    found ← (if decide (p_state p = RUNNABLE) then
               putp i (set_state RUNNING);;
               modify (set_cproc (Some i));;
               (λ s, Wait (WRun i) s (λ s, Ret () s));;
               modify (set_cproc None);;
               mret true
             else mret found);
    on_plock i release;;
    scheduler_loop k (i + 1) found
  end.

Definition scheduler_turn : M kst unit :=
  on_hart (modify intr_on);;
  found ← scheduler_loop (Z.to_nat NPROC) 0 false;
  when_ (negb found) (on_hart (modify intr_on)).

Fixpoint scheduler_turns (turns : nat) : M kst unit :=
  match turns with
  | O => mret ()
  | S turns => scheduler_turn;; scheduler_turns turns
  end.

Definition scheduler (turns : nat) : M kst unit :=
  modify (set_cproc None);;
  scheduler_turns turns.

(** ** The interface for the rest of the kernel *)
#[global] Instance kst_sched : Sched kst := {|
  sc_hart := mkLens k_hart set_khart;
  sc_pid := mp ← myproc; p ← deref mp; x ← getp p; mret (p_pid x);
  sc_killed := mp ← myproc; p ← deref mp; x ← getp p; mret (negb (p_killed x =? 0));
  sc_enter := sleep_enter;
  sc_block := sleep_block;
  sc_wakeup := wakeup
|}.
