(* ===== verification/ProcSpec.v ===== *)
(** proc.c: what wakeup(), kill() and the scheduler do to the process table, and the
    proof that the process layer keeps the promises of Sched.v. *)
From S2P Require Import Prelude Machine CString Spinlock Kalloc PageTable Vm Sched Proc.
From Stdlib Require Import FunctionalExtensionality.

(** ** Invariant

    A thread of process [i] runs on the hart; it holds no process lock, and neither does
    any other hart at the moment it takes one. *)
Record kst_ok (s : kst) : Prop := {
  ko_hart : hart_ok (k_hart s);
  ko_proc : ∃ i, c_proc s = Some i ∧ 0 ≤ i < NPROC;
  ko_locks : ∀ i, 0 ≤ i < NPROC → lock_free (p_lock (procs s i))
}.

Lemma set_khart_get s : set_khart (k_hart s) s = s.
Proof. destruct s as [[h ? ? ?] ? ? ? ? ?]. done. Qed.

Lemma set_procs_get s : set_procs (procs s) s = s.
Proof. by destruct s. Qed.

(** [table f s]: [f] applied to every entry of the process table, after the locks were
    taken and given back. *)
Definition table (f : Z → proc → proc) (s : kst) : kst :=
  set_khart (settle (k_hart s)) (set_procs (λ i, f i (procs s i)) s).

Definition keeps_lock (f : proc → proc) : Prop := ∀ p, p_lock (f p) = p_lock p.

Lemma kst_ok_table f s : (∀ i, keeps_lock (f i)) → kst_ok s → kst_ok (table f s).
Proof.
  intros Hf [Hh Hp Hl]. split; [|done|].
  - by apply settle_ok.
  - intros i Hi. cbn. rewrite Hf. auto.
Qed.

Lemma table_table f g s : table g (table f s) = table (λ i p, g i (f i p)) s.
Proof.
  unfold table. cbn. by rewrite settle_settle.
Qed.

Lemma table_ext f g s : (∀ i, f i (procs s i) = g i (procs s i)) → table f s = table g s.
Proof. intros E. unfold table. do 2 f_equal. by apply functional_extensionality. Qed.

Lemma table_id s : table (λ _ p, p) s = set_khart (settle (k_hart s)) s.
Proof. unfold table. by destruct s. Qed.

(** [at_entry i f]: change entry [i] only. *)
Definition at_entry (i : Z) (f : proc → proc) : Z → proc → proc :=
  λ j p, if j =? i then f p else p.

Lemma on_plock_acquire i s (Q : unit → kst → Prop) :
  lock_free (p_lock (procs s i)) →
  Q () (set_procs (upd (procs s) i (set_plock (take_lock (push_off (k_hart s)) (p_lock (procs s i))) (procs s i)))
         (set_khart (push_off (k_hart s)) s)) →
  wp (on_plock i acquire) Q s.
Proof.
  intros Hl HQ. apply wp_zoom. unfold wp. rewrite acquire_free by done. exact HQ.
Qed.

(** release(&proc[i].lock) after acquire() of a free lock and any change of the entry
    that leaves the lock field alone. *)
Lemma on_plock_release i s0 s p (Q : unit → kst → Prop) :
  hart_ok (k_hart s0) → lock_free (p_lock (procs s0 i)) → keeps_lock p →
  s = set_procs (upd (procs s0) i (p (set_plock (take_lock (push_off (k_hart s0)) (p_lock (procs s0 i))) (procs s0 i))))
        (set_khart (push_off (k_hart s0)) s0) →
  (∀ l x, p (set_plock l x) = set_plock l (p x)) →
  Q () (table (at_entry i p) s0) →
  wp (on_plock i release) Q s.
Proof.
  intros Hh Hl Hp -> Hc HQ. apply wp_zoom. cbn. rewrite upd_eq, Hp. cbn. unfold wp.
  rewrite release_held by done. cbn.
  replace (set_procs _ _) with (table (at_entry i p) s0); [exact HQ|].
  unfold table. destruct s0 as [[h ? ? ?] ? ps ? ? ?]. unfold set_procs, set_khart, set_pm. cbn in *.
  f_equal. rewrite upd_upd, upd_eq, Hc. apply functional_extensionality. intros j. unfold at_entry, upd.
  destruct (Z.eqb_spec j i) as [->|]; [|done].
  destruct Hl as [Hl1 Hl2]. pose proof (Hp (ps i)) as E. destruct (p (ps i)) as [q]. cbn in *. subst q.
  unfold set_plock. cbn. f_equal. destruct (p_lock (ps i)). cbn in *. by subst.
Qed.

Lemma kst_locks_table f s i :
  (∀ j, keeps_lock (f j)) → lock_free (p_lock (procs s i)) → lock_free (p_lock (procs (table f s) i)).
Proof. intros Hf. cbn. by rewrite Hf. Qed.

Lemma at_entry_keeps i f j : keeps_lock f → keeps_lock (at_entry i f j).
Proof. intros Hf p. unfold at_entry. destruct (j =? i); [apply Hf|done]. Qed.

#[local] Hint Resolve kst_ok_table at_entry_keeps : kern.

(** ** wakeup() *)
Definition wake (c : chan) (p : proc) : proc :=
  if decide (p_state p = SLEEPING ∧ p_chan p = c) then set_state RUNNABLE p else p.

Lemma wake_lock c : keeps_lock (wake c).
Proof. intros p. unfold wake. by case_decide. Qed.

Lemma wake_set_plock c l x : wake c (set_plock l x) = set_plock l (wake c x).
Proof. unfold wake. cbn. by case_decide. Qed.

Lemma wp_wakeup_one c i s (Q : unit → kst → Prop) :
  hart_ok (k_hart s) → lock_free (p_lock (procs s i)) →
  Q () (table (at_entry i (wake c)) s) → wp (wakeup_one c i) Q s.
Proof.
  intros Hh Hl HQ. unfold wakeup_one. apply wp_bind. apply on_plock_acquire; [done|].
  apply wp_bind. unfold getp. apply wp_gets. apply wp_bind. cbn. rewrite upd_eq. cbn.
  case_decide as D.
  - unfold putp. apply wp_modify. eapply (on_plock_release i s _ (wake c)); eauto using wake_lock, wake_set_plock.
    unfold wake. cbn. rewrite decide_True by done. unfold set_procs. cbn. by rewrite upd_upd, upd_eq.
  - apply wp_ret. eapply (on_plock_release i s _ (wake c)); eauto using wake_lock, wake_set_plock.
    unfold wake. cbn. by rewrite decide_False by done.
Qed.

(** Entries [i .. i + k - 1] of the table. *)
Definition entries (i : Z) (k : nat) (f : proc → proc) : Z → proc → proc :=
  λ j p, if (i <=? j) && (j <? i + Z.of_nat k) then f p else p.

Lemma entries_S i k f j p :
  entries (i + 1) k f j (at_entry i f j p) = entries i (S k) f j p.
Proof.
  unfold entries, at_entry.
  destruct (Z.leb_spec (i + 1) j), (Z.ltb_spec j (i + 1 + Z.of_nat k)), (Z.leb_spec i j),
    (Z.ltb_spec j (i + Z.of_nat (S k))), (Z.eqb_spec j i); cbn; done || lia.
Qed.

Lemma entries_keeps i k f j : keeps_lock f → keeps_lock (entries i k f j).
Proof. intros Hf p. unfold entries. destruct (_ && _); [apply Hf|done]. Qed.

Lemma wp_wakeup_loop c k i s (Q : unit → kst → Prop) :
  hart_ok (k_hart s) → (∀ j, i ≤ j < i + Z.of_nat k → lock_free (p_lock (procs s j))) →
  settle (k_hart s) = k_hart s →
  Q () (table (entries i k (wake c)) s) → wp (wakeup_loop k i c) Q s.
Proof.
  revert i s. induction k as [|k IH]; intros i s Hh Hl Hs HQ; cbn [wakeup_loop].
  - apply wp_ret. replace (table _ s) with s in HQ; [exact HQ|].
    rewrite (table_ext _ (λ _ p, p)), table_id, Hs; [by rewrite set_khart_get|].
    intros j. unfold entries. destruct (Z.leb_spec i j), (Z.ltb_spec j (i + Z.of_nat 0)); cbn; done || lia.
  - apply wp_bind, wp_wakeup_one; [done|apply Hl; lia|]. apply IH.
    + by apply settle_ok.
    + intros j Hj. apply kst_locks_table; [eauto using at_entry_keeps, wake_lock|]. apply Hl. lia.
    + apply settle_settle.
    + rewrite table_table. erewrite table_ext; [exact HQ|]. intros j. apply entries_S.
Qed.

Definition all_entries (f : proc → proc) : Z → proc → proc := entries 0 (Z.to_nat NPROC) f.

Lemma wp_wakeup c s (Q : unit → kst → Prop) :
  kst_ok s → Q () (table (all_entries (wake c)) s) → wp (wakeup c) Q s.
Proof.
  intros [Hh _ Hl] HQ. unfold wakeup.
  change (Z.to_nat NPROC) with (S (Z.to_nat (NPROC - 1))). cbn [wakeup_loop].
  apply wp_bind, wp_wakeup_one; [done|apply Hl; done|]. apply wp_wakeup_loop.
  - by apply settle_ok.
  - intros j Hj. apply kst_locks_table; [eauto using at_entry_keeps, wake_lock|]. apply Hl.
    change (Z.of_nat _) with (NPROC - 1) in Hj. lia.
  - apply settle_settle.
  - rewrite table_table. erewrite table_ext; [exact HQ|]. intros j. apply entries_S.
Qed.

(** ** myproc() and the interface of Sched.v *)
Lemma wp_myproc s (Q : option Z → kst → Prop) :
  hart_ok (k_hart s) → Q (c_proc s) (set_khart (settle (k_hart s)) s) → wp myproc Q s.
Proof.
  intros Hh HQ. unfold myproc, on_hart. apply wp_bind, wp_zoom, wp_modify, wp_bind, wp_gets, wp_bind, wp_zoom.
  cbn. unfold wp at 1. rewrite pop_push by done. exact HQ.
Qed.

Lemma myproc_eq s :
  hart_ok (k_hart s) → myproc s = Ret (c_proc s) (set_khart (settle (k_hart s)) s).
Proof.
  intros Hh. destruct (wp_elim myproc (λ r s', r = c_proc s ∧ s' = set_khart (settle (k_hart s)) s) s)
    as (r & s' & E & -> & ->); [|done]. by apply wp_myproc.
Qed.

(** The entry of the running process. *)
Definition cur (s : kst) : proc := procs s (default 0 (c_proc s)).

Lemma so_field {A} (f : proc → A) s :
  kst_ok s →
  (mp ← myproc; p ← deref mp; x ← getp p; mret (f x)) s =
  Ret (f (cur s)) (set_khart (settle (k_hart s)) s).
Proof.
  intros [Hh (i & Hi & _) _]. unfold mbind, M_bind. rewrite myproc_eq by done. cbn [obind].
  rewrite Hi. unfold deref, getp, gets, mret, M_ret. cbn [obind]. unfold cur. by rewrite Hi.
Qed.

Lemma kst_wakeup s c :
  kst_ok s → ∃ s', wakeup c s = Ret () s' ∧ kst_ok s' ∧ k_hart s' = settle (k_hart s) ∧
    p_pid (cur s') = p_pid (cur s) ∧
    negb (p_killed (cur s') =? 0) = negb (p_killed (cur s) =? 0).
Proof.
  intros Hs. destruct (wp_elim (wakeup c) (λ _ s', s' = table (all_entries (wake c)) s) s)
    as ([] & s' & E & ->); [by apply wp_wakeup|].
  eexists. split; [exact E|]. split; [|split; [done|]].
  - apply kst_ok_table; [|done]. intros i. apply entries_keeps, wake_lock.
  - unfold cur. cbn. unfold all_entries, entries. destruct (_ && _); [|done].
    unfold wake. by case_decide.
Qed.

#[global] Instance kst_sched_ok : SchedOk kst.
Proof.
  refine {| so_inv := kst_ok; so_id s := p_pid (cur s); so_kill s := negb (p_killed (cur s) =? 0) |}.
  - apply ko_hart.
  - done.
  - done.
  - apply set_khart_get.
  - intros s h [? ? ?] Hh Ht. by split.
  - done.
  - done.
  - intros s Hs. by apply so_field.
  - intros s Hs. by apply (so_field (λ x, negb (p_killed x =? 0))).
  - apply kst_wakeup.
Defined.

(** ** kill() *)
Definition mark_killed (p : proc) : proc :=
  let q := set_killed 1 p in if decide (p_state p = SLEEPING) then set_state RUNNABLE q else q.

Lemma mark_killed_lock : keeps_lock mark_killed.
Proof. intros p. unfold mark_killed. by case_decide. Qed.

Lemma mark_killed_plock l x : mark_killed (set_plock l x) = set_plock l (mark_killed x).
Proof. unfold mark_killed. cbn. by case_decide. Qed.

(** Entries [i .. i + k - 1] searched for a pid. *)
Fixpoint find_pid (k : nat) (i pid : Z) (s : kst) : option Z :=
  match k with
  | O => None
  | S k => if p_pid (procs s i) =? pid then Some i else find_pid k (i + 1) pid s
  end.

Lemma find_pid_Some k i pid s j :
  find_pid k i pid s = Some j →
  i ≤ j < i + Z.of_nat k ∧ p_pid (procs s j) = pid ∧ ∀ l, i ≤ l < j → p_pid (procs s l) ≠ pid.
Proof.
  revert i. induction k as [|k IH]; intros i; cbn [find_pid]; [done|].
  destruct (Z.eqb_spec (p_pid (procs s i)) pid) as [E|E].
  - intros [= <-]. split; [lia|]. split; [done|]. intros; lia.
  - intros Hj. destruct (IH _ Hj) as (? & ? & Hlt). split; [lia|]. split; [done|].
    intros l Hl. destruct (decide (l = i)) as [->|]; [done|]. apply Hlt. lia.
Qed.

Lemma find_pid_None k i pid s l :
  find_pid k i pid s = None → i ≤ l < i + Z.of_nat k → p_pid (procs s l) ≠ pid.
Proof.
  revert i. induction k as [|k IH]; intros i; cbn [find_pid]; [lia|].
  destruct (Z.eqb_spec (p_pid (procs s i)) pid) as [E|E]; [done|].
  intros Hn Hl. destruct (decide (l = i)) as [->|]; [done|]. eapply IH; [done|lia].
Qed.

Lemma find_pid_table k i pid s f :
  (∀ j p, p_pid (f j p) = p_pid p) → find_pid k i pid (table f s) = find_pid k i pid s.
Proof.
  intros Hf. revert i. induction k as [|k IH]; intros i; cbn [find_pid]; [done|].
  cbn. rewrite Hf, IH. done.
Qed.

(** Taking and giving back the lock of an entry. *)
Lemma wp_plock_pass i s (Q : unit → kst → Prop) :
  hart_ok (k_hart s) → lock_free (p_lock (procs s i)) →
  Q () (table (λ _ p, p) s) →
  wp (on_plock i release) Q
     (set_procs (upd (procs s) i (set_plock (take_lock (push_off (k_hart s)) (p_lock (procs s i))) (procs s i)))
         (set_khart (push_off (k_hart s)) s)).
Proof.
  intros Hh Hl HQ. eapply (on_plock_release i s _ (λ p, p)); [done|done|done|done|done|].
  erewrite table_ext; [exact HQ|]. intros j. unfold at_entry. by destruct (j =? i).
Qed.

Definition kill_post (r : option Z) (s : kst) (v : Z) (s' : kst) : Prop :=
  match r with
  | Some j => v = 0 ∧ s' = table (at_entry j mark_killed) s
  | None => v = -1 ∧ s' = table (λ _ p, p) s
  end.

Lemma wp_kill_loop k i pid s (Q : Z → kst → Prop) :
  hart_ok (k_hart s) → (∀ j, i ≤ j < i + Z.of_nat k → lock_free (p_lock (procs s j))) →
  (0 < Z.of_nat k ∨ settle (k_hart s) = k_hart s) →
  (∀ v s', kill_post (find_pid k i pid s) s v s' → Q v s') →
  wp (kill_loop k i pid) Q s.
Proof.
  revert i s. induction k as [|k IH]; intros i s Hh Hl Hs HQ; cbn [kill_loop find_pid] in *.
  - apply wp_ret. apply HQ. split; [done|]. rewrite table_id. destruct Hs as [|Hs]; [lia|].
    by rewrite Hs, set_khart_get.
  - apply wp_bind, on_plock_acquire; [apply Hl; lia|].
    apply wp_bind. unfold getp. apply wp_gets. cbn. rewrite upd_eq. cbn.
    destruct (Z.eqb_spec (p_pid (procs s i)) pid) as [E|E].
    + unfold putp. apply wp_bind, wp_modify, wp_bind.
      assert (Hpost : Q 0 (table (at_entry i mark_killed) s)) by by apply HQ.
      case_decide as D; [apply wp_modify|apply wp_ret]; apply wp_bind;
        (eapply (on_plock_release i s _ mark_killed);
          [done|apply Hl; lia|apply mark_killed_lock| |apply mark_killed_plock|by apply wp_ret]);
        unfold mark_killed; cbn; rewrite ?(decide_True _ _ D), ?(decide_False _ _ D);
        unfold set_procs; cbn; by rewrite ?upd_upd, ?upd_eq, ?upd_upd.
    + apply wp_bind, wp_plock_pass; [done|apply Hl; lia|]. apply IH.
      * by apply settle_ok.
      * intros j Hj. apply kst_locks_table; [done|]. apply Hl. lia.
      * right. apply settle_settle.
      * intros v s' Hv. apply HQ. revert Hv. rewrite find_pid_table by done.
        unfold kill_post. destruct (find_pid k (i + 1) pid s); by rewrite table_table.
Qed.

Lemma wp_kill pid s (Q : Z → kst → Prop) :
  kst_ok s →
  (∀ v s', kill_post (find_pid (Z.to_nat NPROC) 0 pid s) s v s' → Q v s') →
  wp (kill pid) Q s.
Proof.
  intros [Hh _ Hl] HQ. apply wp_kill_loop; [done| |left; by vm_compute|done].
  intros j Hj. apply Hl. by rewrite Z2Nat.id in Hj by done.
Qed.

(** ** allocproc() does not reset [killed] *)
Definition stays {A B} (f : kst → B) (m : M kst A) : Prop :=
  ∀ s a s', m s = Ret a s' → f s' = f s.

Lemma stays_ret {A B} (f : kst → B) (a : A) : stays f (mret a).
Proof. by intros s a' s' [= <- <-]. Qed.

Lemma stays_bind {A A' B} (f : kst → B) (m : M kst A) (k : A → M kst A') :
  stays f m → (∀ a, stays f (k a)) → stays f (mbind k m).
Proof.
  intros Hm Hk s a s' E. apply bind_Ret_inv in E as (b & s1 & E1 & E2).
  by rewrite (Hk _ _ _ _ E2), (Hm _ _ _ E1).
Qed.

Lemma stays_zoom {A T B} (f : kst → B) g (p : T → kst → kst) (m : M T A) :
  (∀ t s, f (p t s) = f s) → stays f (zoom g p m).
Proof.
  intros Hp s a s'. unfold zoom. destruct (m (g s)); cbn; try done.
  intros [= <- <-]. apply Hp.
Qed.

Lemma stays_gets {A B} (f : kst → B) (g : kst → A) : stays f (gets g).
Proof. by intros s a s' [= <- <-]. Qed.

Lemma stays_modify {B} (f : kst → B) g : (∀ s, f (g s) = f s) → stays f (modify g).
Proof. intros Hg s a s' [= <- <-]. apply Hg. Qed.

Create HintDb stays.
#[local] Hint Resolve stays_ret stays_bind stays_zoom stays_gets stays_modify : stays.

Definition killed_at (p : Z) (s : kst) : Z := p_killed (procs s p).

Lemma stays_putp p i f : (∀ x, p_killed (f x) = p_killed x) → stays (killed_at p) (putp i f).
Proof.
  intros Hf. apply stays_modify. intros s. unfold killed_at. cbn. unfold upd.
  destruct (Z.eqb_spec p i) as [->|]; [apply Hf|done].
Qed.

Lemma stays_plock {A} p i (m : M (hart * spinlock) A) : stays (killed_at p) (on_plock i m).
Proof.
  apply stays_zoom. intros [h lk] s. unfold killed_at. cbn. unfold upd.
  by destruct (Z.eqb_spec p i) as [->|].
Qed.

Lemma stays_pm {A} p (m : M pmem A) : stays (killed_at p) (on_pm m).
Proof. by apply stays_zoom. Qed.

#[local] Hint Resolve stays_putp stays_plock stays_pm : stays.

Lemma stays_allocpid p : stays (killed_at p) allocpid.
Proof.
  unfold allocpid. apply stays_bind; [by apply stays_zoom; intros []|]. intros _.
  apply stays_bind; [apply stays_gets|]. intros pid.
  apply stays_bind; [by apply stays_modify|]. intros _.
  apply stays_bind; [by apply stays_zoom; intros []|]. auto with stays.
Qed.

Lemma stays_find p k i : stays (killed_at p) (allocproc_find k i).
Proof.
  revert i. induction k as [|k IH]; intros i; cbn [allocproc_find]; auto with stays.
  apply stays_bind; [auto with stays|]. intros _. apply stays_bind; [apply stays_gets|]. intros x.
  case_decide; auto with stays.
Qed.

Section alloc.
Context `{Symbols}.

Lemma stays_proc_pagetable p i : stays (killed_at p) (proc_pagetable i).
Proof.
  unfold proc_pagetable, getp. apply stays_bind; [auto with stays|]. intros pt.
  destruct (pt =? 0); [auto with stays|].
  apply stays_bind; [auto with stays|]. intros r. destruct (r <? 0); [auto with stays|].
  apply stays_bind; [auto with stays|]. intros x.
  apply stays_bind; [auto with stays|]. intros r'. destruct (r' <? 0); auto 10 with stays.
Qed.

(** Step over the first operation of a bind that leaves [killed] alone. *)
Ltac stay r E lem :=
  let x := fresh "x" in let s1 := fresh "s" in let E1 := fresh "E" in
  apply bind_Ret_inv in E as (x & s1 & E1 & E); apply lem with (p := r) in E1; [|done ..];
  unfold killed_at in E1; rewrite <- E1; clear E1.

Lemma allocproc_Some fr s r s' :
  allocproc fr s = Ret (Some r) s' →
  (∃ s1, allocproc_find (Z.to_nat NPROC) 0 s = Ret (Some r) s1) ∧
  p_killed (procs s' r) = p_killed (procs s r).
Proof.
  unfold allocproc. intros E. apply bind_Ret_inv in E as (o & s1 & E1 & E).
  pose proof (stays_find r _ _ _ _ _ E1) as Hk. unfold killed_at in Hk. rewrite <- Hk. clear Hk.
  destruct o as [q|]; [|done].
  stay r E @stays_allocpid. stay r E @stays_putp. stay r E @stays_pm. stay r E @stays_putp.
  zcmp; [by apply bind_Ret_inv in E as (? & ? & _ & [=])|].
  stay r E @stays_proc_pagetable. stay r E @stays_putp.
  zcmp.
  { apply bind_Ret_inv in E as (? & ? & _ & E). by apply bind_Ret_inv in E as (? & ? & _ & [=]). }
  do 3 stay r E @stays_putp. injection E as <- <-. eauto.
Qed.

Lemma allocproc_find_first k i s r s' :
  hart_ok (k_hart s) → (∀ j, i ≤ j < i + Z.of_nat k → lock_free (p_lock (procs s j))) →
  allocproc_find k i s = Ret (Some r) s' →
  i ≤ r < i + Z.of_nat k ∧ p_state (procs s r) = UNUSED ∧
  ∀ j, i ≤ j < r → p_state (procs s j) ≠ UNUSED.
Proof.
  revert i s. induction k as [|k IH]; intros i s Hh Hl; cbn [allocproc_find]; [done|].
  intros E. apply bind_Ret_inv in E as (u & s1 & E1 & E).
  destruct (wp_elim _ _ _ (on_plock_acquire i s (λ _ t, t = _) (Hl i ltac:(lia)) eq_refl))
    as (? & ? & E1' & ->). rewrite E1' in E1. injection E1 as _ <-.
  unfold getp in E. apply bind_Ret_inv in E as (y & s2 & E2 & E); injection E2 as <- <-. cbn in E. rewrite upd_eq in E.
  cbn in E. case_decide as D.
  - injection E as <- _. split; [lia|]. split; [done|]. intros; lia.
  - apply bind_Ret_inv in E as (? & s3 & E3 & E).
    destruct (wp_elim _ _ _ (wp_plock_pass i s (λ _ t, t = _) Hh (Hl i ltac:(lia)) eq_refl))
      as (? & ? & E3' & ->). rewrite E3' in E3. injection E3 as _ <-.
    apply IH in E as (? & ? & Hlt).
    + split; [lia|]. split; [done|]. intros j Hj. destruct (decide (j = i)) as [->|]; [done|].
      apply Hlt. lia.
    + by apply settle_ok.
    + intros j Hj. apply kst_locks_table; [done|]. apply Hl. lia.
Qed.
End alloc.

(** ** scheduler() *)

(** A state of the scheduler on an idle hart. *)
Record sched_ok (s : kst) : Prop := {
  sk_hart : hart_ok (k_hart s);
  sk_proc : c_proc s = None;
  sk_locks : ∀ i, 0 ≤ i < NPROC → lock_free (p_lock (procs s i))
}.

(** The switch to process [i]: it is RUNNING and current, its lock is held. *)
Record picked (i : Z) (s s' : kst) : Prop := {
  pk_cur : c_proc s' = Some i;
  pk_run : procs s' i = set_state RUNNING (set_plock (p_lock (procs s' i)) (procs s i));
  pk_lock : lock_held (k_hart s') (p_lock (procs s' i));
  pk_others : ∀ j, j ≠ i → procs s' j = procs s j;
  pk_noff : noff (k_hart s') = noff (k_hart s) + 1;
  pk_intr : intr_get (k_hart s') = false
}.

Lemma intr_get_on h : intr_get (intr_on h) = true.
Proof.
  rewrite intr_get_bit. unfold intr_on. cbn [sstatus set_sstatus]. rewrite Z.lor_spec. apply orb_true_r.
Qed.

Lemma scheduler_loop_spec k i found s :
  hart_ok (k_hart s) → c_proc s = None →
  (∀ j, i ≤ j < i + Z.of_nat k → lock_free (p_lock (procs s j))) →
  (∃ j s' c, i ≤ j < i + Z.of_nat k ∧ p_state (procs s j) = RUNNABLE ∧
     (∀ l, i ≤ l < j → p_state (procs s l) ≠ RUNNABLE) ∧
     scheduler_loop k i found s = Wait (WRun j) s' c ∧ picked j s s') ∨
  ((∀ j, i ≤ j < i + Z.of_nat k → p_state (procs s j) ≠ RUNNABLE) ∧
   scheduler_loop k i found s = Ret found (match k with O => s | _ => table (λ _ p, p) s end)).
Proof.
  revert i s. induction k as [|k IH]; intros i s Hh Hc Hl; cbn [scheduler_loop].
  { right. split; [intros; lia|done]. }
  destruct (wp_elim _ _ _ (on_plock_acquire i s (λ _ t, t = _) (Hl i ltac:(lia)) eq_refl))
    as ([] & ? & E1 & ->). rewrite (bind_Ret _ _ _ _ _ E1). clear E1.
  rewrite (bind_Ret (getp i) _ _ _ _ eq_refl). cbn [procs set_procs set_khart set_pm]. rewrite upd_eq. cbn [p_state set_plock].
  destruct (decide (p_state (procs s i) = RUNNABLE)) as [D|D].
  - left. do 3 eexists. split; [|split; [exact D|split; [|split; [reflexivity|]]]]; [lia|intros; lia|].
    split; cbn; rewrite ?upd_eq; cbn; try done.
    + intros j Hj. by rewrite !upd_ne.
    + apply noff_push_off.
    + apply intr_get_push_off.
  - rewrite (bind_Ret (mret found) _ _ _ _ eq_refl).
    destruct (wp_elim _ _ _ (wp_plock_pass i s (λ _ t, t = _) Hh (Hl i ltac:(lia)) eq_refl))
      as ([] & ? & E3 & ->). rewrite (bind_Ret _ _ _ _ _ E3). clear E3.
    set (s1 := table (λ _ p, p) s).
    destruct (IH (i + 1) s1) as [(j & s' & c & Hj & Hr & Hlt & E & Hp)|[Hno E]].
    + by apply settle_ok.
    + done.
    + intros j Hj. apply Hl. lia.
    + left. exists j, s', c. split; [lia|]. split; [done|]. split; [|split; [exact E|]].
      * intros l Hl'. destruct (decide (l = i)) as [->|]; [done|]. apply Hlt. lia.
      * destruct Hp as [? ? ? ? Hn ?]. split; try done. rewrite Hn. unfold s1. cbn [k_hart table set_khart set_pm k_pm pm_set_hart pm_hart set_procs]. by rewrite noff_settle.
    + right. split.
      * intros j Hj. destruct (decide (j = i)) as [->|]; [done|]. apply Hno. lia.
      * rewrite E. destruct k; [done|]. unfold s1. by rewrite table_table.
Qed.

(** ** The theorems *)

(** wakeup(chan) returns, makes exactly the processes that sleep on chan RUNNABLE and
    changes nothing else: no other process, no other field, no lock, and not the
    interrupt state of the hart (only the [intena] that acquire() saves at depth 0). *)
Theorem wakeup_correct (s : kst) (c : chan) :
  kst_ok s →
  ∃ s', wakeup c s = Ret () s' ∧ kst_ok s' ∧
    s' = set_khart (settle (k_hart s)) (set_procs (procs s') s) ∧
    (∀ i, 0 ≤ i < NPROC → p_state (procs s i) = SLEEPING → p_chan (procs s i) = c →
       procs s' i = set_state RUNNABLE (procs s i)) ∧
    (∀ i, p_state (procs s i) ≠ SLEEPING ∨ p_chan (procs s i) ≠ c → procs s' i = procs s i).
Proof.
  intros Hs. destruct (wp_elim (wakeup c) (λ _ s', s' = table (all_entries (wake c)) s) s)
    as ([] & s' & E & ->); [by apply wp_wakeup|].
  eexists. split; [exact E|]. split; [|split; [done|split]].
  - apply kst_ok_table; [|done]. intros i. apply entries_keeps, wake_lock.
  - intros i Hi Hst Hc. cbn [procs table set_khart set_pm set_procs]. unfold all_entries, entries.
    rewrite Z2Nat.id by done. rewrite (proj2 (Z.leb_le 0 i)), (proj2 (Z.ltb_lt i _)) by lia.
    unfold wake. by rewrite decide_True.
  - intros i Hi. cbn [procs table set_khart set_pm set_procs]. unfold all_entries, entries.
    destruct (_ && _); [|done]. unfold wake. rewrite decide_False; [done|]. intros []. naive_solver.
Qed.

(** Kill(pid) returns.  If some entry of the table has that pid it returns 0 and changes the
    first such entry only: its killed flag is set, and it is made RUNNABLE if it slept;
    otherwise it returns -1 and changes no process. *)
Theorem kill_correct (s : kst) (pid : Z) :
  kst_ok s →
  ∃ v s', kill pid s = Ret v s' ∧ kst_ok s' ∧
    ((v = 0 ∧ ∃ i, 0 ≤ i < NPROC ∧ p_pid (procs s i) = pid ∧
        (∀ j, 0 ≤ j < i → p_pid (procs s j) ≠ pid) ∧
        p_killed (procs s' i) = 1 ∧ p_pid (procs s' i) = pid ∧
        p_state (procs s' i) =
          (if decide (p_state (procs s i) = SLEEPING) then RUNNABLE else p_state (procs s i)) ∧
        (∀ j, j ≠ i → procs s' j = procs s j))
     ∨ (v = -1 ∧ (∀ i, 0 ≤ i < NPROC → p_pid (procs s i) ≠ pid) ∧ procs s' = procs s)).
Proof.
  intros Hs. destruct (wp_elim (kill pid) (kill_post (find_pid (Z.to_nat NPROC) 0 pid s) s) s)
    as (v & s' & E & Hp); [by apply wp_kill|].
  exists v, s'. split; [exact E|]. destruct (find_pid _ _ _ _) as [i|] eqn:F; destruct Hp as [-> ->].
  - apply find_pid_Some in F as (Hi & Hpid & Hlt). rewrite Z2Nat.id in Hi by done.
    split; [eauto using kst_ok_table, at_entry_keeps, mark_killed_lock|].
    left. split; [done|]. exists i. split; [lia|]. split; [done|]. split; [auto|].
    cbn [procs table set_khart set_pm set_procs]. unfold at_entry. rewrite Z.eqb_refl.
    unfold mark_killed. repeat split; try by case_decide.
    intros j Hj. by rewrite (proj2 (Z.eqb_neq j i)).
  - split; [by apply kst_ok_table|]. right. split; [done|]. split; [|done].
    intros i Hi. eapply find_pid_None; [exact F|]. rewrite Z2Nat.id; done.
Qed.

(** Kill(0) when the first free slot of the table is the first entry with pid 0: it
    returns 0 although no process has that pid, leaves the slot UNUSED with killed = 1,
    and if the next allocproc() succeeds it hands out that slot with killed still 1, so the
    new process is killed before it has run. *)
Theorem kill_zero_poisons `{Symbols} (s : kst) (i fr : Z) :
  kst_ok s → 0 ≤ i < NPROC → p_pid (procs s i) = 0 → p_state (procs s i) = UNUSED →
  (∀ j, 0 ≤ j < i → p_pid (procs s j) ≠ 0 ∧ p_state (procs s j) ≠ UNUSED) →
  ∃ s1, kill 0 s = Ret 0 s1 ∧ p_state (procs s1 i) = UNUSED ∧ p_killed (procs s1 i) = 1 ∧
    ∀ r s2, allocproc fr s1 = Ret (Some r) s2 → r = i ∧ p_killed (procs s2 r) = 1.
Proof.
  intros Hs Hi Hpid Hst Hlt.
  destruct (wp_elim (kill 0) (kill_post (find_pid (Z.to_nat NPROC) 0 0 s) s) s)
    as (v & s1 & E & Hp); [by apply wp_kill|].
  destruct (find_pid _ _ _ _) as [j|] eqn:F.
  2:{ destruct (find_pid_None _ _ _ _ i F); [rewrite Z2Nat.id; done|done]. }
  apply find_pid_Some in F as (Hj & Hjp & Hjl). destruct Hp as [-> ->].
  assert (j = i) as ->.
  { destruct (Z.lt_trichotomy j i) as [Hc|[Hc|Hc]]; [|done|].
    - by destruct (Hlt j ltac:(lia)).
    - by destruct (Hjl i ltac:(lia)). }
  assert (K : kst_ok (table (at_entry i mark_killed) s))
    by eauto using kst_ok_table, at_entry_keeps, mark_killed_lock.
  assert (Hst' : ∀ l, 0 ≤ l < NPROC → p_state (procs s l) ≠ SLEEPING →
            p_state (procs (table (at_entry i mark_killed) s) l) = p_state (procs s l)).
  { intros l _ Hl. cbn. unfold at_entry. destruct (l =? i); [|done]. unfold mark_killed.
    by rewrite decide_False. }
  assert (Hk : p_killed (procs (table (at_entry i mark_killed) s) i) = 1).
  { cbn. unfold at_entry. rewrite Z.eqb_refl. unfold mark_killed. by case_decide. }
  eexists. split; [exact E|]. split; [rewrite Hst'; congruence|]. split; [done|].
  intros r s2 Ha. apply allocproc_Some in Ha as [(s3 & Hf) Hr].
  apply allocproc_find_first in Hf as (Hr0 & Hru & Hrl); [|apply K|].
  2:{ intros l Hl. apply K. rewrite Z2Nat.id in Hl by done. lia. }
  rewrite Z2Nat.id in Hr0 by done.
  assert (r = i) as ->; [|by rewrite Hr].
  destruct (Z.lt_trichotomy r i) as [Hc|[Hc|Hc]]; [|done|].
  - destruct (Hlt r ltac:(lia)) as [_ Hn]. exfalso. cbn in Hru. unfold at_entry in Hru.
    rewrite (proj2 (Z.eqb_neq r i)) in Hru by lia. done.
  - destruct (Hrl i ltac:(lia)). rewrite Hst'; congruence.
Qed.

(** One round of scheduler() on an idle hart. If some process is RUNNABLE the round switches to
    the first one in the table, which is then RUNNING and the hart's current process, with
    its lock held by the hart and interrupts off, and no other process has changed; if none is, the
    round ends with the table unchanged and interrupts on. *)
Theorem scheduler_turn_picks (s : kst) :
  sched_ok s → noff (k_hart s) = 0 →
  (∃ j s' c, 0 ≤ j < NPROC ∧ p_state (procs s j) = RUNNABLE ∧
     (∀ l, 0 ≤ l < j → p_state (procs s l) ≠ RUNNABLE) ∧
     scheduler_turn s = Wait (WRun j) s' c ∧ picked j s s') ∨
  ((∀ j, 0 ≤ j < NPROC → p_state (procs s j) ≠ RUNNABLE) ∧
   ∃ s', scheduler_turn s = Ret () s' ∧ procs s' = procs s ∧ c_proc s' = None ∧ intr_get (k_hart s') = true).
Proof.
  intros [Hh Hc Hl] Hn. unfold scheduler_turn.
  rewrite (bind_Ret (on_hart (modify intr_on)) _ s () (set_khart (intr_on (k_hart s)) s) eq_refl).
  destruct (scheduler_loop_spec (Z.to_nat NPROC) 0 false (set_khart (intr_on (k_hart s)) s))
    as [(j & s' & c & Hj & Hr & Hlt & E & Hp)|[Hno E]].
  - split; cbn; rewrite Hn; lia.
  - done.
  - intros j Hj. apply Hl. rewrite Z2Nat.id in Hj by done. lia.
  - left. rewrite Z2Nat.id in Hj by done. exists j, s'. eexists. split; [lia|]. split; [done|].
    split; [done|]. split; [unfold mbind, M_bind; rewrite E; reflexivity|].
    destruct Hp as [? ? ? ? Hnf ?]. by split.
  - right. rewrite Z2Nat.id in Hno by done. split; [done|].
    rewrite (bind_Ret _ _ _ _ _ E). eexists. split; [reflexivity|]. split; [done|]. split; [done|].
    apply intr_get_on.
Qed.

(** ** sleep() *)

(** The thread of process [i] holds exactly one spinlock, and no process lock. *)
Record one_lock (i : Z) (s : kst) : Prop := {
  ol_noff : noff (k_hart s) = 1;
  ol_intr : intr_get (k_hart s) = false;
  ol_cur : c_proc s = Some i
}.

Lemma one_lock_hart i s : one_lock i s → hart_ok (k_hart s) ∧ settle (k_hart s) = k_hart s.
Proof.
  intros [Hn Hi _]. split; [split; [lia|done]|]. unfold settle. by rewrite Hn.
Qed.

Lemma myproc_one i s : one_lock i s → myproc s = Ret (Some i) s.
Proof.
  intros Ho. destruct (one_lock_hart i s Ho) as [Hok Hs]. rewrite myproc_eq by done.
  rewrite Hs, set_khart_get. by rewrite (ol_cur _ _ Ho).
Qed.

(** sched() with only p->lock held. *)
Lemma sched_switch i s :
  one_lock i s → lock_held (k_hart s) (p_lock (procs s i)) → p_state (procs s i) ≠ RUNNING →
  sched s = Wait (WSwtch (p_chan (procs s i))) s (λ s2, Ret () (set_khart (set_intena (intena (k_hart s)) (k_hart s2)) s2)).
Proof.
  intros Ho [Hl1 Hl2] Hst. unfold sched. rewrite (bind_Ret _ _ _ _ _ (myproc_one i s Ho)).
  cbn [deref]. rewrite (bind_Ret (mret i) _ _ _ _ eq_refl), (bind_Ret get _ _ _ _ eq_refl).
  unfold holding. rewrite Hl1, Hl2, bool_decide_eq_true_2 by done. rewrite (ol_noff _ _ Ho), (ol_intr _ _ Ho).
  cbn [negb andb Z.eqb Pos.eqb]. rewrite decide_False by done. reflexivity.
Qed.

(** pop_off() of the last lock. *)
Lemma pop_last h : noff h = 1 → intr_get h = false → ∃ h', pop_off h = Ret () h' ∧ noff h' = 0 ∧ tp h' = tp h ∧ hart_ok h'.
Proof.
  intros Hn Hi. unfold pop_off. rewrite Hi, Hn. change (1 <? 1) with false. cbv iota.
  eexists. split; [reflexivity|]. unfold hart_ok.
  match goal with |- context [if ?b then _ else _] => destruct b end; cbn; repeat split; intros; lia || done.
Qed.

(** The process as sleep() leaves it when it switches away, and as it goes on. *)
Definition asleep (c : chan) (h : hart) (p : proc) : proc :=
  set_state SLEEPING (set_chan c (set_plock (take_lock h (p_lock p)) p)).
Definition awake (p : proc) : proc :=
  set_plock (mkSpinlock 0 (lname (p_lock p)) None) (set_chan CNull p).

Lemma sleep_enter_eq i s :
  one_lock i s → lock_free (p_lock (procs s i)) →
  sleep_enter s = Ret () (set_procs (upd (procs s) i (set_plock (take_lock (push_off (k_hart s)) (p_lock (procs s i))) (procs s i)))
         (set_khart (push_off (k_hart s)) s)).
Proof.
  intros Ho Hl. unfold sleep_enter. rewrite (bind_Ret _ _ _ _ _ (myproc_one i s Ho)). cbn [deref].
  rewrite (bind_Ret (mret i) _ _ _ _ eq_refl).
  destruct (wp_elim _ _ _ (on_plock_acquire i s (λ _ t, t = _) Hl eq_refl)) as ([] & ? & E & ->). exact E.
Qed.

(** From the switch back to the end of sc_block. *)
Lemma sleep_wake i s2 v :
  one_lock i s2 → lock_held (k_hart s2) (p_lock (procs s2 i)) →
  ∃ h3, (putp i (set_chan CNull);; on_plock i release) (set_khart (set_intena v (k_hart s2)) s2) =
        Ret () (set_procs (upd (procs s2) i (awake (procs s2 i))) (set_khart h3 s2)) ∧
        noff h3 = 0 ∧ tp h3 = tp (k_hart s2) ∧ hart_ok h3.
Proof.
  intros [Hn Hi Hc] [Hl1 Hl2]. rewrite (bind_Ret (putp i (set_chan CNull)) _ _ _ _ eq_refl).
  destruct (pop_last (set_intena v (k_hart s2)) Hn Hi) as (h3 & E & H3). exists h3. split; [|exact H3].
  unfold on_plock, zoom. cbn [procs set_procs set_khart set_pm k_hart k_pm pm_set_hart pm_hart].
  rewrite upd_eq. unfold release, holding. cbn [p_lock set_chan]. rewrite Hl1, Hl2.
  rewrite bool_decide_eq_true_2 by done. cbn [negb andb Z.eqb]. cbv zeta. unfold zoom. cbn [fst].
  rewrite E. cbn [zoomo]. unfold set_khart, set_procs, set_pm, pm_set_hart.
  cbn [k_pm procs c_proc pid_lock nextpid initproc kmem_lock freelist pm_mem]. by rewrite upd_upd, upd_eq.
Qed.

(** sleep() with only lk held, and how it goes on when it is switched back to *)
Lemma sleep_eq (i : Z) (c : chan) (s : kst) (lk : spinlock) :
  one_lock i s → lock_free (p_lock (procs s i)) → lock_held (k_hart s) lk →
  ∃ k, sleep c (s, lk) =
    Wait (WSwtch c)
      (set_procs (upd (procs s) i (asleep c (push_off (k_hart s)) (procs s i))) s, mkSpinlock 0 (lname lk) None) k ∧
    ∀ s2 lk2, one_lock i s2 → lock_held (k_hart s2) (p_lock (procs s2 i)) → lock_free lk2 →
      ∃ h3, k (s2, lk2) =
        Ret () (set_khart (push_off h3) (set_procs (upd (procs s2) i (awake (procs s2 i))) s2), take_lock (push_off h3) lk2) ∧
        noff h3 = 0 ∧ tp h3 = tp (k_hart s2) ∧ hart_ok h3.
Proof.
  intros Ho Hl Hlk. destruct (one_lock_hart i s Ho) as [Hok Hset].
  pose proof Ho as [Hn Hi Hc]. unfold sleep.
  set (h := k_hart s) in *. set (s1 := set_procs (upd (procs s) i (set_plock (take_lock (push_off h) (p_lock (procs s i))) (procs s i))) s).
  assert (E1 : on_sched sc_enter (s, lk) = Ret () (set_khart (push_off h) s1, lk)).
  { unfold on_sched, zoom. cbn [fst sc_enter kst_sched]. by rewrite (sleep_enter_eq i s Ho Hl). }
  rewrite (bind_Ret _ _ _ _ _ E1). clear E1.
  assert (E2 : rel (set_khart (push_off h) s1, lk) = Ret () (s1, mkSpinlock 0 (lname lk) None)).
  { unfold rel, zoom. cbn [lock_at lget sc_hart kst_sched]. change (k_hart (set_khart (push_off h) s1)) with (push_off h).
    rewrite release_held; [|done|]. 2:{ destruct Hlk. split; [done|]. by rewrite tp_push_off. }
    cbn [zoomo lock_to lset sc_hart kst_sched]. rewrite Hset. f_equal. f_equal.
    change (set_khart h (set_khart (push_off h) s1)) with (set_khart (k_hart s1) s1). apply set_khart_get. }
  rewrite (bind_Ret _ _ _ _ _ E2). clear E2.
  set (s2 := set_procs (upd (procs s) i (asleep c (push_off h) (procs s i))) s).
  assert (E3 : sleep_block c s1 = Wait (WSwtch c) s2 (λ s4,
      (putp i (set_chan CNull);; on_plock i release) (set_khart (set_intena (intena h) (k_hart s4)) s4))).
  { unfold sleep_block. rewrite (bind_Ret (gets c_proc) _ s1 _ _ eq_refl).
    change (c_proc s1) with (c_proc s). rewrite Hc. cbn [deref]. rewrite (bind_Ret (mret i) _ _ _ _ eq_refl).
    rewrite (bind_Ret (putp i (set_chan c)) _ _ _ _ eq_refl), (bind_Ret (putp i (set_state SLEEPING)) _ _ _ _ eq_refl).
    match goal with |- mbind _ _ ?t = _ => assert (Et : t = s2) end.
    { unfold s2, s1, set_procs. cbn [procs k_pm c_proc pid_lock nextpid initproc]. by rewrite !upd_upd, !upd_eq. }
    rewrite Et. unfold mbind at 1. unfold M_bind at 1. rewrite (sched_switch i s2).
    - cbn [obind]. f_equal. unfold s2. cbn [procs set_procs]. by rewrite upd_eq.
    - by split.
    - unfold s2. cbn [procs set_procs]. rewrite upd_eq. split; [done|]. change (Some (tp (push_off h)) = Some (tp h)). by rewrite tp_push_off.
    - unfold s2. cbn [procs set_procs]. by rewrite upd_eq. }
  eexists. split.
  - unfold mbind at 1. unfold M_bind at 1. unfold on_sched at 1, zoom at 1. cbn [fst sc_block kst_sched].
    rewrite E3. cbn [zoomo obind]. reflexivity.
  - intros s4 lk2 Ho4 Hl4 Hf. cbn [fst].
    destruct (sleep_wake i s4 (intena h) Ho4 Hl4) as (h3 & E & Hn3 & Ht3 & Hok3). rewrite E. cbn [zoomo obind].
    unfold acq, zoom. cbn [lock_at lget sc_hart kst_sched]. rewrite acquire_free by done. cbn [zoomo lock_to lset sc_hart kst_sched].
    exists h3. split; [reflexivity|]. done.
Qed.

(** sleep(chan, lk) gives up lk and the processor together. Called with only lk held, it
    switches to the scheduler with lk released and the process SLEEPING on chan, its own lock
    still held, so that a wakeup() on another hart either comes before the caller's test of its
    condition (lk is held) or finds the process asleep (p->lock is held until
    it is); nothing else has changed. When the scheduler switches back, sleep() clears the channel,
    releases p->lock, takes lk again and returns. *)
Theorem sleep_atomic (i : Z) (c : chan) (s : kst) (lk : spinlock) :
  one_lock i s → lock_free (p_lock (procs s i)) → lock_held (k_hart s) lk →
  ∃ k, sleep c (s, lk) =
    Wait (WSwtch c)
      (set_procs (upd (procs s) i (asleep c (push_off (k_hart s)) (procs s i))) s, mkSpinlock 0 (lname lk) None) k ∧
    ∀ s2 lk2, one_lock i s2 → lock_held (k_hart s2) (p_lock (procs s2 i)) → lock_free lk2 →
      ∃ s3, k (s2, lk2) = Ret () (s3, take_lock (k_hart s3) lk2) ∧ one_lock i s3 ∧
        procs s3 = upd (procs s2) i (awake (procs s2 i)).
Proof.
  intros Ho Hl Hlk. destruct (sleep_eq i c s lk Ho Hl Hlk) as (k & E & Hk). exists k. split; [exact E|].
  intros s2 lk2 Ho2 Hl2 Hf. destruct (Hk s2 lk2 Ho2 Hl2 Hf) as (h3 & E3 & Hn3 & _ & _).
  eexists. split; [exact E3|]. split; [|done]. split; [|apply intr_get_push_off|apply Ho2].
  change (noff (push_off h3) = 1). rewrite noff_push_off. lia.
Qed.

(** ** A small process table, for the witnesses: process 1 runs, 2 sleeps on &ticks, 3 on
    &log, the other entries are free. *)
Definition slot (st : procstate) (c : chan) (pid : Z) : proc :=
  mkProc (initlock "proc") st None c 0 0 pid 0 0 0 0 (mkContext 0 0) (λ _, None) None [].

Definition procs3 (i : Z) : proc :=
  if i =? 0 then slot RUNNING CNull 1 else if i =? 1 then slot SLEEPING CTicks 2
  else if i =? 2 then slot SLEEPING CLog 3 else slot UNUSED CNull 0.

Definition kst3 : kst :=
  mkK (mkPmem (mkHart 0 2 0 0) (initlock "kmem") 0 (λ _, 0)) (Some 0) procs3
      (initlock "nextpid") 4 (Some 0).

Lemma kst3_ok : kst_ok kst3.
Proof.
  split.
  - split; vm_compute; congruence.
  - by exists 0.
  - intros i _. cbn. unfold procs3. by repeat case_match.
Qed.

Lemma wakeup_correct_witness :
  ∃ s', wakeup CTicks kst3 = Ret () s' ∧ procs s' 1 = slot RUNNABLE CTicks 2 ∧ procs s' 2 = procs3 2.
Proof.
  destruct (wakeup_correct kst3 CTicks kst3_ok) as (s' & E & _ & _ & Hc & Hn).
  exists s'. split; [exact E|]. clear E. split.
  - apply (Hc 1); [split; [discriminate|reflexivity]|reflexivity|reflexivity].
  - apply (Hn 2). by right.
Defined.

Lemma kill_correct_witness :
  ∃ v s', kill 3 kst3 = Ret v s' ∧
    ((v = 0 ∧ ∃ i, p_pid (procs3 i) = 3 ∧ p_killed (procs s' i) = 1) ∨
     (∀ i, 0 ≤ i < NPROC → p_pid (procs3 i) ≠ 3)).
Proof.
  destruct (kill_correct kst3 3 kst3_ok) as (v & s' & E & _ & H).
  exists v, s'. split; [exact E|]. destruct H as [(-> & i & _ & ? & _ & ? & _)|(_ & ? & _)]; eauto.
Defined.

Lemma kill_zero_poisons_witness :
  ∃ s1, kill 0 kst3 = Ret 0 s1 ∧ p_state (procs s1 3) = UNUSED ∧ p_killed (procs s1 3) = 1.
Proof.
  destruct (@kill_zero_poisons (Build_Symbols 2147516416 2147487744 2147483648) kst3 3 0)
    as (s1 & E & Hu & Hk & _); [exact kst3_ok|done|done|done| |eauto].
  intros j Hj. assert (j = 0 ∨ j = 1 ∨ j = 2) as [->|[->| ->]] by lia; done.
Defined.

(** The same table seen by an idle hart, after wakeup(&ticks). *)
Definition idle3 : kst :=
  set_cproc None (set_procs (λ i, if i =? 1 then slot RUNNABLE CTicks 2 else procs3 i) kst3).

Lemma scheduler_turn_picks_witness :
  ∃ s' c, scheduler_turn idle3 = Wait (WRun 1) s' c ∧ c_proc s' = Some 1.
Proof.
  destruct (scheduler_turn_picks idle3) as [(j & s' & c & Hj & Hr & Hl & E & Hp)|[Hno _]].
  - split; [split; vm_compute; congruence|reflexivity|].
    intros i _. cbn. unfold procs3. by repeat case_match.
  - reflexivity.
  - assert (j = 1) as ->.
    { destruct (Z.lt_trichotomy j 1) as [Hc|[Hc|Hc]]; [|done|].
      - assert (j = 0) as -> by lia. discriminate Hr.
      - destruct (Hl 1 ltac:(lia)). reflexivity. }
    exists s', c. split; [exact E|apply Hp].
  - destruct (Hno 1); [split; [discriminate|reflexivity]|reflexivity].
Defined.

(** Process 1 with interrupts off and one lock. *)
Definition locked3 : kst := set_khart (mkHart 0 0 1 1) kst3.

Lemma sleep_atomic_witness :
  ∃ s' lk' k, sleep CLog (locked3, mkSpinlock 1 "log" (Some 0)) = Wait (WSwtch CLog) (s', lk') k ∧
    p_state (procs s' 0) = SLEEPING ∧ lock_free lk'.
Proof.
  destruct (sleep_atomic 0 CLog locked3 (mkSpinlock 1 "log" (Some 0))) as (k & E & _); [by split|done|done|].
  eexists _, _, k. split; [exact E|]. split; [reflexivity|done].
Defined.
