(* ===== verification/SleepWake.v ===== *)
(** sleep() and wakeup() on different harts (proc.c): no wakeup is lost.

    A process waits for a condition that the lock lk protects, the way every caller of
    sleep() does: acquire(lk); while(!cond) sleep(chan, lk); then it uses up the condition
    and releases lk.  Any number of harts make the condition true and call wakeup(chan)
    under lk.  A step is one access of shared state: taking or giving back lk or p->lock,
    the test of the condition, the stores of sleep(), the switch to the scheduler (which
    gives p->lock back), the scheduler's switch to the process (which takes p->lock),
    the test and store of wakeup(). *)
From stdpp Require Import relations.
From S2P Require Import Prelude Machine Spinlock Sched Proc ProcSpec.

(** Who holds a lock: the process, or hart [w]. *)
Inductive owner : Type := Me | Hart (w : Z).
#[global] Instance owner_eq_dec : EqDecision owner.
Proof. solve_decision. Defined.

(** Where the process is. *)
Inductive spc : Type :=
| SAcquire   (* acquire(lk) *)
| STest      (* while(!cond) *)
| SLockP     (* sleep(): acquire(&p->lock) *)
| SRelease   (* release(lk) *)
| SStore     (* p->chan = chan; p->state = SLEEPING *)
| SSwtch     (* sched(), with p->lock held *)
| SOff       (* switched away *)
| SBack      (* switched back to; p->chan = 0; release(&p->lock) *)
| SDone.     (* the loop is left *)

(** Where a hart is in: acquire(lk); cond = 1; wakeup(chan); release(lk). *)
Inductive wpc : Type :=
| WAcquire | WSet | WLockP | WCheck | WReleaseP | WRelease.

Record sys := mkSys {
  lk : option owner;
  pl : option owner;
  cond : bool;
  self : proc;
  sat : spc;
  wat : Z → wpc
}.

Section steps.
Context (c : chan).

Inductive step : sys → sys → Prop :=
| s_acquire pl cond p w : step (mkSys None pl cond p SAcquire w) (mkSys (Some Me) pl cond p STest w)
| s_true lk pl p w : step (mkSys lk pl true p STest w) (mkSys lk pl true p SDone w)
| s_false lk pl p w : step (mkSys lk pl false p STest w) (mkSys lk pl false p SLockP w)
| s_lockp lk cond p w : step (mkSys lk None cond p SLockP w) (mkSys lk (Some Me) cond p SRelease w)
| s_release lk pl cond p w : step (mkSys lk pl cond p SRelease w) (mkSys None pl cond p SStore w)
| s_store lk pl cond p w :
    step (mkSys lk pl cond p SStore w) (mkSys lk pl cond (set_state SLEEPING (set_chan c p)) SSwtch w)
| s_swtch lk pl cond p w : step (mkSys lk pl cond p SSwtch w) (mkSys lk None cond p SOff w)
| s_run lk cond p w : p_state p = RUNNABLE →
    step (mkSys lk None cond p SOff w) (mkSys lk (Some Me) cond (set_state RUNNING p) SBack w)
| s_back lk pl cond p w : step (mkSys lk pl cond p SBack w) (mkSys lk None cond (set_chan CNull p) SAcquire w)
| s_use lk pl cond p w : step (mkSys lk pl cond p SDone w) (mkSys None pl false p SAcquire w)
| w_acquire pl cond p s w i : w i = WAcquire →
    step (mkSys None pl cond p s w) (mkSys (Some (Hart i)) pl cond p s (upd w i WSet))
| w_set lk pl cond p s w i : w i = WSet →
    step (mkSys lk pl cond p s w) (mkSys lk pl true p s (upd w i WLockP))
| w_lockp lk cond p s w i : w i = WLockP →
    step (mkSys lk None cond p s w) (mkSys lk (Some (Hart i)) cond p s (upd w i WCheck))
| w_check lk pl cond p s w i : w i = WCheck →
    step (mkSys lk pl cond p s w) (mkSys lk pl cond (wake c p) s (upd w i WReleaseP))
| w_releasep lk pl cond p s w i : w i = WReleaseP →
    step (mkSys lk pl cond p s w) (mkSys lk None cond p s (upd w i WRelease))
| w_release lk pl cond p s w i : w i = WRelease →
    step (mkSys lk pl cond p s w) (mkSys None pl cond p s (upd w i WAcquire)).

Definition initial (s : sys) : Prop :=
  lk s = None ∧ pl s = None ∧ p_state (self s) = RUNNING ∧ sat s = SAcquire ∧ ∀ i, wat s i = WAcquire.

(** Which points of the programs hold which lock. *)
Definition s_lk (s : spc) : bool := match s with STest | SLockP | SRelease | SDone => true | _ => false end.
Definition s_pl (s : spc) : bool := match s with SRelease | SStore | SSwtch | SBack => true | _ => false end.
Definition w_lk (w : wpc) : bool := match w with WAcquire => false | _ => true end.
Definition w_pl (w : wpc) : bool := match w with WCheck | WReleaseP => true | _ => false end.

(** The process's state, where it can be known. *)
Definition p_ok (s : spc) (p : proc) : Prop :=
  match s with
  | SSwtch => p_state p = SLEEPING ∧ p_chan p = c
  | SOff => (p_state p = SLEEPING ∨ p_state p = RUNNABLE) ∧ p_chan p = c
  | _ => p_state p = RUNNING
  end.

(** While the process goes to sleep and sleeps, a true condition has a hart about to wake it. *)
Definition pending (s : sys) : Prop := ∃ i, wat s i = WLockP ∨ wat s i = WCheck.

(** [o] is the owner of a lock that the process holds if [a] and hart [i] if [b i]. *)
Definition own (o : option owner) (a : bool) (b : Z → bool) : Prop :=
  a = bool_decide (o = Some Me) ∧ ∀ i, b i = bool_decide (o = Some (Hart i)).

Record inv (s : sys) : Prop := {
  i_lk : own (lk s) (s_lk (sat s)) (λ i, w_lk (wat s i));
  i_pl : own (pl s) (s_pl (sat s)) (λ i, w_pl (wat s i));
  i_p : p_ok (sat s) (self s);
  i_no : sat s = SLockP ∨ sat s = SRelease → cond s = false;
  i_go : sat s = SStore → cond s = true → pending s;
  i_pend : p_state (self s) = SLEEPING → cond s = true → pending s
}.

(** Taking and giving back a lock. *)
Lemma own_me b : own None false b → own (Some Me) true b.
Proof. intros [_ Hb]. split; [done|]. intros i. by rewrite Hb. Qed.

Lemma own_me_drop o b : own o true b → own None false b.
Proof.
  intros [Ha Hb]. symmetry in Ha. apply bool_decide_eq_true_1 in Ha as ->.
  split; [done|]. intros i. by rewrite Hb.
Qed.

Lemma own_hart a (w : Z → wpc) (f : wpc → bool) i v :
  own None a (λ j, f (w j)) → f v = true → own (Some (Hart i)) a (λ j, f (upd w i v j)).
Proof.
  intros [Ha Hb] Hv. split; [done|]. intros j. unfold upd. destruct (Z.eqb_spec j i) as [->|Hne].
  - by rewrite bool_decide_eq_true_2.
  - rewrite (Hb j). rewrite (bool_decide_eq_false_2 (Some _ = _)); [done|]. congruence.
Qed.

Lemma own_hart_drop o a (w : Z → wpc) (f : wpc → bool) i v :
  own o a (λ j, f (w j)) → f (w i) = true → f v = false → own None a (λ j, f (upd w i v j)).
Proof.
  intros [Ha Hb] Hw Hv. pose proof (Hb i) as Hi. cbv beta in Hi. rewrite Hw in Hi.
  symmetry in Hi. apply bool_decide_eq_true_1 in Hi as ->. split; [done|].
  intros j. unfold upd. destruct (Z.eqb_spec j i) as [->|Hne]; [done|].
  rewrite (Hb j). rewrite bool_decide_eq_false_2; [done|]. congruence.
Qed.

Lemma own_hart_same o a (w : Z → wpc) (f : wpc → bool) i v :
  own o a (λ j, f (w j)) → f v = f (w i) → own o a (λ j, f (upd w i v j)).
Proof.
  intros [Ha Hb] Hv. split; [done|]. intros j. unfold upd. destruct (Z.eqb_spec j i) as [->|]; [|done].
  by rewrite Hv.
Qed.

(** The process and a hart do not hold the same lock. *)
Lemma own_excl o b i : own o true b → b i = true → False.
Proof.
  intros [Ha Hb] Hi. rewrite Hb in Hi. symmetry in Ha. apply bool_decide_eq_true_1 in Ha, Hi. congruence.
Qed.

Lemma pending_upd lk pl cond p s w i v lk' pl' cond' p' s' :
  pending (mkSys lk pl cond p s w) → (w i = WLockP ∨ w i = WCheck → v = WLockP ∨ v = WCheck) →
  pending (mkSys lk' pl' cond' p' s' (upd w i v)).
Proof.
  intros (j & Hj) Hv. exists j. cbn in *. unfold upd. destruct (Z.eqb_spec j i) as [->|]; auto.
Qed.

Lemma pending_new lk pl cond p s w i v : v = WLockP ∨ v = WCheck → pending (mkSys lk pl cond p s (upd w i v)).
Proof. intros Hv. exists i. cbn. rewrite upd_eq. auto. Qed.

Lemma inv_initial s : initial s → inv s.
Proof.
  destruct s. unfold initial. cbn. intros (-> & -> & Hp & -> & Hw).
  split; cbn; try done; try (split; [done|]; intros i; by rewrite Hw); naive_solver congruence.
Qed.

(** wakeup()'s test and store on the process. *)
Lemma wake_ok s p : s_pl s = false → p_ok s p → p_ok s (wake c p) ∧ p_state (wake c p) ≠ SLEEPING.
Proof.
  intros Hs Hp. unfold wake. case_decide as Dc; cbn.
  - split; [|done]. destruct s; cbn in *; try done; destruct Dc; naive_solver congruence.
  - split; [done|]. intros Hsl. apply Dc. split; [done|]. destruct s; cbn in *; try done; naive_solver congruence.
Qed.

Lemma hart_not_me s lk pl cond p w i :
  inv (mkSys lk pl cond p s w) →
  (w_lk (w i) = true → s_lk s = false) ∧ (w_pl (w i) = true → s_pl s = false).
Proof.
  intros [A B _ _ _ _]. cbn in *. split; intros Hw.
  - destruct (s_lk s); [|done]. by destruct (own_excl _ _ i A).
  - destruct (s_pl s); [|done]. by destruct (own_excl _ _ i B).
Qed.

Lemma sys_inv_step s s' : inv s → step s s' → inv s'.
Proof.
  intros Hinv Hst. pose proof Hinv as [A B E F G Hp].
  destruct Hst; cbn in *; split; cbn; eauto using own_me, own_me_drop; try done;
    try (intros [?|?]; discriminate);
    try (match goal with Hw : @eq wpc _ _ |- own _ _ _ =>
           solve [eapply own_hart; [eassumption|done] | eapply own_hart_drop; [eassumption|by rewrite Hw|done]
                 | eapply own_hart_same; [eassumption|by rewrite Hw]] end);
    try (match goal with Hw : @eq wpc _ _ |- _ =>
           solve [intros; eapply pending_upd; [eauto|rewrite Hw; naive_solver]
                 | intros; apply pending_new; auto] end).
  - (* release(lk) *) intros _ Hc. rewrite F in Hc by auto. done.
  - (* the switch *) destruct E. auto.
  - (* cond = 1 *) intros Hs. destruct (hart_not_me s lk0 pl0 cond0 p w i Hinv) as [Hl _].
    rewrite H in Hl. destruct Hs as [-> | ->]; discriminate (Hl eq_refl).
  - (* wakeup() *) destruct (hart_not_me s lk0 pl0 cond0 p w i Hinv) as [_ Hl]. rewrite H in Hl.
    by apply wake_ok; [apply Hl|].
  - intros ->. destruct (hart_not_me SStore lk0 pl0 cond0 p w i Hinv) as [_ Hl]. rewrite H in Hl. discriminate (Hl eq_refl).
  - destruct (hart_not_me s lk0 pl0 cond0 p w i Hinv) as [_ Hl]. rewrite H in Hl.
    by destruct (wake_ok s p (Hl eq_refl) E).
Qed.

Lemma sys_inv_reachable s s' : initial s → rtc step s s' → inv s'.
Proof.
  intros Hi Hr. apply inv_initial in Hi. induction Hr as [|s1 s2 s3 Hst _ IH]; [done|].
  apply IH. by eapply sys_inv_step.
Qed.
End steps.

(** C11: no wakeup is lost. In every state reached by interleaving the process and the harts, if
    the condition is true while the process is SLEEPING, then some hart that made it true is
    still before wakeup()'s test of the process, holds lk, and will make it RUNNABLE: the
    process is never left asleep with the condition true and nobody to wake it. *)
Theorem no_lost_wakeup c (s s' : sys) :
  initial s → rtc (step c) s s' → cond s' = true → p_state (self s') = SLEEPING →
  ∃ i, (wat s' i = WLockP ∨ wat s' i = WCheck) ∧ lk s' = Some (Hart i) ∧
    ∀ s2, wat s' i = WCheck → step c s' s2 → wat s2 i = WReleaseP → p_state (self s2) = RUNNABLE.
Proof.
  intros Hi Hr Hc Hp. pose proof (sys_inv_reachable c s s' Hi Hr) as [A B E F G Hpend].
  destruct (Hpend Hp Hc) as [i Hw]. exists i. split; [done|]. split.
  - destruct A as [_ Hl]. specialize (Hl i). cbv beta in Hl. destruct Hw as [Hw|Hw]; rewrite Hw in Hl;
      symmetry in Hl; by apply bool_decide_eq_true_1 in Hl.
  - intros s2 Hwi Hst Hw2. destruct Hst; cbn in *; try congruence; try (unfold upd in Hw2; destruct (Z.eqb_spec i i0) as [->|]; congruence).
    unfold wake. rewrite decide_True; [done|]. split; [done|].
    match goal with Ep : p_ok c ?x p |- _ => destruct x end; cbn in *; try congruence; naive_solver.
Qed.

(** mutual exclusion of the two locks in the same interleavings: lk is held by the process exactly
    in its critical section, p->lock exactly from sleep()'s acquire to the switch and from the
    switch back to its release; no hart holds either at the same time. *)
Theorem sleep_locks c (s s' : sys) :
  initial s → rtc (step c) s s' →
  (lk s' = Some Me ↔ s_lk (sat s') = true) ∧ (pl s' = Some Me ↔ s_pl (sat s') = true) ∧
  ∀ i, (lk s' = Some (Hart i) ↔ w_lk (wat s' i) = true) ∧ (pl s' = Some (Hart i) ↔ w_pl (wat s' i) = true).
Proof.
  intros Hi Hr. destruct (sys_inv_reachable c s s' Hi Hr) as [[A1 A2] [B1 B2] _ _ _ _].
  rewrite A1, B1, !bool_decide_eq_true. split; [done|]. split; [done|].
  intros i. by rewrite (A2 i), (B2 i), !bool_decide_eq_true.
Qed.

(** A run: the process goes to sleep, then hart 5 makes the condition true. *)
Definition sys0 : sys := mkSys None None false (slot RUNNING CNull 1) SAcquire (λ _, WAcquire).
Definition sys8 : sys :=
  mkSys (Some (Hart 5)) None true (slot SLEEPING CTicks 1) SOff (upd (upd (λ _, WAcquire) 5 WSet) 5 WLockP).

Lemma sys0_initial : initial sys0.
Proof. done. Qed.

Lemma sys0_sys8 : rtc (step CTicks) sys0 sys8.
Proof.
  unfold sys0, sys8.
  eapply rtc_l; [apply s_acquire|]. eapply rtc_l; [apply s_false|]. eapply rtc_l; [apply s_lockp|].
  eapply rtc_l; [apply s_release|]. eapply rtc_l; [apply s_store|]. eapply rtc_l; [apply s_swtch|].
  eapply rtc_l; [apply (w_acquire _ _ _ _ _ _ 5); reflexivity|].
  eapply rtc_l; [apply (w_set _ _ _ _ _ _ _ 5); reflexivity|]. apply rtc_refl.
Qed.

Lemma no_lost_wakeup_witness : ∃ i, lk sys8 = Some (Hart i) ∧ (wat sys8 i = WLockP ∨ wat sys8 i = WCheck).
Proof.
  destruct (no_lost_wakeup CTicks sys0 sys8 sys0_initial sys0_sys8 eq_refl eq_refl) as (i & Hw & Hl & _).
  exists i. split; [exact Hl|exact Hw].
Defined.

Lemma sleep_locks_witness : pl sys8 = Some Me ↔ s_pl SOff = true.
Proof. exact (proj1 (proj2 (sleep_locks CTicks sys0 sys8 sys0_initial sys0_sys8))). Defined.
