(* ===== verification/Sleeplock.v ===== *)
(** sleeplock.c: locks that are held across sleep().

    Each operation runs on the process layer and the lock; [c] is the lock's address,
    the channel its waiters sleep on. *)
From S2P Require Import Prelude Machine Spinlock Sched.

(** struct sleeplock *)
Record sleeplock := mkSleeplock {
  sl_locked : Z;
  sl_lk : spinlock;
  sl_name : string;
  sl_pid : Z
}.

Definition set_sl_locked (v : Z) (l : sleeplock) : sleeplock :=
  mkSleeplock v (sl_lk l) (sl_name l) (sl_pid l).
Definition set_sl_pid (v : Z) (l : sleeplock) : sleeplock :=
  mkSleeplock (sl_locked l) (sl_lk l) (sl_name l) v.

(** initsleeplock() *)
Definition initsleeplock (name : string) : sleeplock :=
  mkSleeplock 0 (initlock "sleep lock") name 0.

Section sleeplock.
Context {P : Type} `{Sched P}.

(** The inner spinlock of the sleep lock. *)
Definition on_lk {A} (m : M (P * spinlock) A) : M (P * sleeplock) A :=
  zoom (λ '(p, l), (p, sl_lk l))
       (λ '(p, lk) '(_, l), (p, mkSleeplock (sl_locked l) lk (sl_name l) (sl_pid l))) m.
Definition set_lock (f : sleeplock → sleeplock) : M (P * sleeplock) unit :=
  modify (λ '(p, l), (p, f l)).

(** acquiresleep(): the loop [while (lk->locked) sleep(lk, &lk->lk)]; [fuel] bounds how
    often the thread may be woken and find the lock taken again. *)
Fixpoint acquiresleep_loop (fuel : nat) (c : chan) : M (P * sleeplock) unit :=
  l ← gets snd;
  if sl_locked l =? 0 then mret ()
  else
    match fuel with
    | O => no_fuel
    | S fuel => on_lk (sleep c);; acquiresleep_loop fuel c
    end.

Definition acquiresleep (fuel : nat) (c : chan) : M (P * sleeplock) unit :=
  on_lk acq;;
  acquiresleep_loop fuel c;;
  set_lock (set_sl_locked 1);;
  pid ← on_sched sc_pid;
  set_lock (set_sl_pid pid);;
  on_lk rel.

(** releasesleep() *)
Definition releasesleep (c : chan) : M (P * sleeplock) unit :=
  on_lk acq;;
  set_lock (set_sl_locked 0);;
  set_lock (set_sl_pid 0);;
  on_sched (sc_wakeup c);;
  on_lk rel.

(** holdingsleep() *)
Definition holdingsleep : M (P * sleeplock) bool :=
  on_lk acq;;
  l ← gets snd;
  r ← (if sl_locked l =? 0 then mret false
       else pid ← on_sched sc_pid; mret (sl_pid l =? pid));
  on_lk rel;;
  mret r.
End sleeplock.

(** ** Sequential behaviour *)
Definition sl_free (l : sleeplock) : Prop := sl_locked l = 0 ∧ sl_pid l = 0 ∧ lock_free (sl_lk l).
Definition sl_held (pid : Z) (l : sleeplock) : Prop :=
  sl_locked l = 1 ∧ sl_pid l = pid ∧ lock_free (sl_lk l).

(** The lock after acquiresleep() by process [pid]. *)
Definition sl_take (pid : Z) (l : sleeplock) : sleeplock := mkSleeplock 1 (sl_lk l) (sl_name l) pid.
Definition sl_drop (l : sleeplock) : sleeplock := mkSleeplock 0 (sl_lk l) (sl_name l) 0.

Section specs.
Context {P : Type} `{SchedOk P}.

Lemma wp_acquiresleep fuel c p l (Q : unit → P * sleeplock → Prop) :
  so_inv p → sl_free l →
  (∀ p', calm p p' → Q () (p', sl_take (so_id p) l)) → wp (acquiresleep fuel c) Q (p, l).
Proof.
  intros Hp (Hl & _ & Hlk) HQ. unfold acquiresleep.
  apply wp_bind, wp_zoom, wp_acq; [done..|]. intros q Hq.
  apply wp_bind. destruct fuel; cbn [acquiresleep_loop]; apply wp_bind, wp_gets; simpl; rewrite Hl;
  (apply wp_ret; apply wp_bind, wp_modify, wp_bind, wp_on_sched, (within_pid p); [done|];
   intros q' Hq'; apply wp_bind, wp_modify, wp_zoom; eapply wp_rel; [done|apply take_lock_held|];
   intros p' Hp'; apply HQ in Hp'; unfold sl_take in Hp';
   by rewrite <- (take_lock_released (push_off (lget sc_hart p)) (sl_lk l)) in Hp').
Qed.

Lemma wp_releasesleep c p l (Q : unit → P * sleeplock → Prop) :
  so_inv p → lock_free (sl_lk l) →
  (∀ p', calm p p' → Q () (p', sl_drop l)) → wp (releasesleep c) Q (p, l).
Proof.
  intros Hp Hlk HQ. unfold releasesleep.
  apply wp_bind, wp_zoom, wp_acq; [done..|]. intros q Hq.
  apply wp_bind, wp_modify, wp_bind, wp_modify, wp_bind, wp_on_sched. eapply within_wakeup; [done|].
  intros q' Hq'. apply wp_zoom. eapply wp_rel; [done|apply take_lock_held|].
  intros p' Hp'. apply HQ in Hp'. unfold sl_drop in Hp'.
  by rewrite <- (take_lock_released (push_off (lget sc_hart p)) (sl_lk l)) in Hp'.
Qed.

Lemma wp_holdingsleep p l (Q : bool → P * sleeplock → Prop) :
  so_inv p → lock_free (sl_lk l) →
  (∀ p', calm p p' → Q (negb (sl_locked l =? 0) && (sl_pid l =? so_id p)) (p', l)) →
  wp holdingsleep Q (p, l).
Proof.
  intros Hp Hlk HQ. unfold holdingsleep.
  apply wp_bind, wp_zoom, wp_acq; [done..|]. intros q Hq.
  apply wp_bind, wp_gets. cbn [snd sl_locked].
  assert (Hend : ∀ r q', within p q' → r = negb (sl_locked l =? 0) && (sl_pid l =? so_id p) →
    wp (on_lk rel;; mret r) Q (q', mkSleeplock (sl_locked l) (take_lock (push_off (lget sc_hart p)) (sl_lk l))
                            (sl_name l) (sl_pid l))).
  { intros r q' Hq' ->. apply wp_bind, wp_zoom. eapply wp_rel; [done|apply take_lock_held|].
    intros p' Hp'. apply wp_ret. apply HQ in Hp'.
    destruct l as [? [? ? ?] ? ?], Hlk as [Hl0 Hl1]. simpl in *. by subst. }
  apply wp_bind. destruct (Z.eqb_spec (sl_locked l) 0) as [E|E].
  - apply wp_ret. by apply Hend.
  - apply wp_bind, wp_on_sched. eapply within_pid; [done|]. intros q' Hq'. apply wp_ret.
    by apply Hend.
Qed.
End specs.
