(* ===== verification/Bio.v ===== *)
(** bio.c: the buffer cache, buffers on a doubly linked list in order of use.

    [bst] is the state of the block layer: the process layer [P], the disk driver [D],
    and [bcache].  Buffer pointers are indices into [bufs]; index NBUF is
    [bcache.head].  The driver (virtio_disk.c) is an interface, [Driver], with the
    contract [DriverOk]. *)
From S2P Require Import Prelude Machine Spinlock Sched Sleeplock.

(** fs.h *)
Definition BSIZE : Z := 1024.

(** struct buf (buf.h) *)
Record buf := mkBuf {
  b_valid : Z;
  b_disk : Z;
  b_dev : Z;
  b_blockno : Z;
  b_lock : sleeplock;
  b_refcnt : Z;
  b_prev : Z;
  b_next : Z;
  b_data : list Z
}.

Definition set_valid v b := mkBuf v (b_disk b) (b_dev b) (b_blockno b) (b_lock b) (b_refcnt b) (b_prev b) (b_next b) (b_data b).
Definition set_disk v b := mkBuf (b_valid b) v (b_dev b) (b_blockno b) (b_lock b) (b_refcnt b) (b_prev b) (b_next b) (b_data b).
Definition set_dev v b := mkBuf (b_valid b) (b_disk b) v (b_blockno b) (b_lock b) (b_refcnt b) (b_prev b) (b_next b) (b_data b).
Definition set_blockno v b := mkBuf (b_valid b) (b_disk b) (b_dev b) v (b_lock b) (b_refcnt b) (b_prev b) (b_next b) (b_data b).
Definition set_block v b := mkBuf (b_valid b) (b_disk b) (b_dev b) (b_blockno b) v (b_refcnt b) (b_prev b) (b_next b) (b_data b).
Definition set_refcnt v b := mkBuf (b_valid b) (b_disk b) (b_dev b) (b_blockno b) (b_lock b) v (b_prev b) (b_next b) (b_data b).
Definition set_prev v b := mkBuf (b_valid b) (b_disk b) (b_dev b) (b_blockno b) (b_lock b) (b_refcnt b) v (b_next b) (b_data b).
Definition set_next v b := mkBuf (b_valid b) (b_disk b) (b_dev b) (b_blockno b) (b_lock b) (b_refcnt b) (b_prev b) v (b_data b).
Definition set_data v b := mkBuf (b_valid b) (b_disk b) (b_dev b) (b_blockno b) (b_lock b) (b_refcnt b) (b_prev b) (b_next b) v.

(** ** The disk driver

    virtio_disk_rw(b, write) on the buffer it is given; [i] is the buffer's address. *)
Class Driver (P D : Type) := {
  virtio_disk_rw : Z → bool → M (P * D * buf) unit
}.

(** The contract: a read fills the buffer with the block, a write stores the buffer in
    the block, and the writes reach the disk one after the other ([dv_hist]). *)
Class DriverOk (P D : Type) `{SchedOk P} `{!Driver P D} := {
  dv_inv : D → Prop;
  dv_block : D → Z → list Z;
  dv_hist : D → list (Z * list Z);
  dv_len d n : dv_inv d → length (dv_block d n) = Z.to_nat BSIZE;
  dv_read i p d b : so_inv p → dv_inv d →
    wp (virtio_disk_rw i false) (λ _ '(p', d', b'),
      calm p p' ∧ dv_inv d' ∧ (∀ n, dv_block d' n = dv_block d n) ∧ dv_hist d' = dv_hist d ∧
      b' = set_disk 0 (set_data (dv_block d (b_blockno b)) b)) (p, d, b);
  dv_write i p d b : so_inv p → dv_inv d → length (b_data b) = Z.to_nat BSIZE →
    wp (virtio_disk_rw i true) (λ _ '(p', d', b'),
      calm p p' ∧ dv_inv d' ∧
      (∀ n, dv_block d' n = upd (dv_block d) (b_blockno b) (b_data b) n) ∧
      dv_hist d' = dv_hist d ++ [(b_blockno b, b_data b)] ∧ b' = set_disk 0 b) (p, d, b)
}.

Record bst (P D : Type) := mkB {
  b_p : P;
  b_d : D;
  bc_lock : spinlock;
  bufs : Z → buf
}.
Arguments mkB {P D}.
Arguments b_p {P D}.
Arguments b_d {P D}.
Arguments bc_lock {P D}.
Arguments bufs {P D}.

(** &bcache.head *)
Definition head : Z := NBUF.

Section bio.
Context {P D : Type} `{Sched P} `{!Driver P D}.
Abbreviation st := (bst P D).

Definition set_bufs (f : (Z → buf) → Z → buf) : M st unit :=
  modify (λ s, mkB (b_p s) (b_d s) (bc_lock s) (f (bufs s))).
(** [b->field = v] *)
Definition put (i : Z) (f : buf → buf) : M st unit := set_bufs (λ g, upd g i (f (g i))).
Definition getb (i : Z) : M st buf := gets (λ s, bufs s i).

Definition on_bcache {A} (m : M (P * spinlock) A) : M st A :=
  zoom (λ s, (b_p s, bc_lock s)) (λ '(p, lk) s, mkB p (b_d s) lk (bufs s)) m.
Definition on_buflock {A} (i : Z) (m : M (P * sleeplock) A) : M st A :=
  zoom (λ s, (b_p s, b_lock (bufs s i)))
       (λ '(p, l) s, mkB p (b_d s) (bc_lock s) (upd (bufs s) i (set_block l (bufs s i)))) m.
Definition on_driver {A} (i : Z) (m : M (P * D * buf) A) : M st A :=
  zoom (λ s, (b_p s, b_d s, bufs s i))
       (λ '(p, d, b) s, mkB p d (bc_lock s) (upd (bufs s) i b)) m.

(** binit() *)
Fixpoint binit_loop (k : nat) (b : Z) : M st unit :=
  match k with
  | O => mret ()
  | S k =>
    h ← getb head;
    put b (set_next (b_next h));;
    put b (set_prev head);;
    put b (set_block (initsleeplock "buffer"));;
    put (b_next h) (set_prev b);;
    put head (set_next b);;
    binit_loop k (b + 1)
  end.

Definition binit : M st unit :=
  modify (λ s, mkB (b_p s) (b_d s) (initlock "bcache") (bufs s));;
  put head (set_prev head);;
  put head (set_next head);;
  binit_loop (Z.to_nat NBUF) 0.

(** bget(): the two searches, from [b] along [next] and along [prev]. *)
Fixpoint bget_find (fuel : nat) (b dev blockno : Z) : M st (option Z) :=
  if b =? head then mret None
  else
    match fuel with
    | O => no_fuel
    | S fuel =>
      x ← getb b;
      if (b_dev x =? dev) && (b_blockno x =? blockno) then mret (Some b)
      else bget_find fuel (b_next x) dev blockno
    end.

Fixpoint bget_lru (fuel : nat) (b : Z) : M st (option Z) :=
  if b =? head then mret None
  else
    match fuel with
    | O => no_fuel
    | S fuel =>
      x ← getb b;
      if b_refcnt x =? 0 then mret (Some b) else bget_lru fuel (b_prev x)
    end.

(** The buffer's address as a sleep channel. *)
Definition bget (fuel : nat) (dev blockno : Z) : M st Z :=
  on_bcache acq;;
  h ← getb head;
  r ← bget_find (Z.to_nat NBUF) (b_next h) dev blockno;
  match r with
  | Some b =>
    put b (λ x, set_refcnt (u32 (b_refcnt x + 1)) x);;
    on_bcache rel;;
    on_buflock b (acquiresleep fuel (CBuf b));;
    mret b
  | None =>
    h ← getb head;
    r ← bget_lru (Z.to_nat NBUF) (b_prev h);
    match r with
    | Some b =>
      put b (set_dev dev);;
      put b (set_blockno blockno);;
      put b (set_valid 0);;
      put b (set_refcnt 1);;
      on_bcache rel;;
      on_buflock b (acquiresleep fuel (CBuf b));;
      mret b
    | None => panic "bget: no buffers"
    end
  end.

(** bread() *)
Definition bread (fuel : nat) (dev blockno : Z) : M st Z :=
  b ← bget fuel dev blockno;
  x ← getb b;
  (if b_valid x =? 0 then
     on_driver b (virtio_disk_rw b false);;
     put b (set_valid 1)
   else mret ());;
  mret b.

(** bwrite() *)
Definition bwrite (b : Z) : M st unit :=
  r ← on_buflock b holdingsleep;
  if negb r then panic "bwrite" else on_driver b (virtio_disk_rw b true).

(** brelse() *)
Definition brelse (b : Z) : M st unit :=
  r ← on_buflock b holdingsleep;
  if negb r then panic "brelse"
  else
    on_buflock b (releasesleep (CBuf b));;
    on_bcache acq;;
    put b (λ x, set_refcnt (u32 (b_refcnt x - 1)) x);;
    x ← getb b;
    (if b_refcnt x =? 0 then
       x ← getb b; put (b_next x) (set_prev (b_prev x));;
       x ← getb b; put (b_prev x) (set_next (b_next x));;
       h ← getb head; put b (set_next (b_next h));;
       put b (set_prev head);;
       h ← getb head; put (b_next h) (set_prev b);;
       put head (set_next b)
     else mret ());;
    on_bcache rel.

(** bpin(), bunpin() *)
Definition bpin (b : Z) : M st unit :=
  on_bcache acq;;
  put b (λ x, set_refcnt (u32 (b_refcnt x + 1)) x);;
  on_bcache rel.

Definition bunpin (b : Z) : M st unit :=
  on_bcache acq;;
  put b (λ x, set_refcnt (u32 (b_refcnt x - 1)) x);;
  on_bcache rel.
End bio.

(** ** The list of buffers *)

(** From [a] through [l] to [z] along [next], and back along [prev]. *)
Fixpoint dll (f : Z → buf) (a : Z) (l : list Z) (z : Z) : Prop :=
  match l with
  | [] => b_next (f a) = z ∧ b_prev (f z) = a
  | x :: l => b_next (f a) = x ∧ b_prev (f x) = a ∧ dll f x l z
  end.

Lemma dll_app f a l1 x l2 z : dll f a (l1 ++ x :: l2) z ↔ dll f a l1 x ∧ dll f x l2 z.
Proof. revert a. induction l1 as [|y l1 IH]; intros a; simpl; [tauto|]. rewrite IH. tauto. Qed.

(** A list depends on the [next] of all but the last element and the [prev] of all
    but the first. *)
Lemma dll_ext f g a l z :
  (∀ x, x ∈ a :: l → b_next (g x) = b_next (f x)) →
  (∀ x, x ∈ l ++ [z] → b_prev (g x) = b_prev (f x)) → dll f a l z → dll g a l z.
Proof.
  revert a. induction l as [|y l IH]; intros a Hn Hp; simpl.
  - intros [? ?]. rewrite Hn, Hp by set_solver. done.
  - intros (? & ? & ?). rewrite Hn, Hp by set_solver. split_and!; [done..|].
    apply IH; [| |done]; intros x Hx; [apply Hn|apply Hp]; set_solver.
Qed.

Lemma dll_prev_in f a l z : dll f a l z → b_prev (f z) ∈ a :: l.
Proof.
  revert a. induction l as [|y l IH]; intros a; simpl.
  - intros [_ ->]. left.
  - intros (_ & _ & Hd). right. by apply IH.
Qed.

Lemma dll_next_in f a l z : dll f a l z → b_next (f a) ∈ l ++ [z].
Proof. destruct l; simpl; [intros [-> _]|intros (-> & _)]; left. Qed.

(** Taking [x] out, as brelse() does; [g] is the list after the two stores. *)
Lemma dll_unlink f g a l1 x l2 z :
  dll f a l1 x → dll f x l2 z → NoDup (a :: l1 ++ x :: l2) → z ∉ l1 ++ x :: l2 →
  (∀ y, b_next (g y) = if y =? b_prev (f x) then b_next (f x) else b_next (f y)) →
  (∀ y, b_prev (g y) = if y =? b_next (f x) then b_prev (f x) else b_prev (f y)) →
  dll g a (l1 ++ l2) z.
Proof.
  intros H1 H2 Hnd Hz Hgn Hgp. revert a H1 Hnd.
  induction l1 as [|y l1 IH]; intros a H1 Hnd; simpl in *.
  - destruct H1 as [Hax Hxa]. destruct l2 as [|n l2]; simpl in *.
    + destruct H2 as [Hxz Hzx]. rewrite Hgn, Hgp, Hxa, Hxz, !Z.eqb_refl. done.
    + destruct H2 as (Hxn & Hnx & H2). rewrite Hgn, Hgp, Hxa, Hxn, !Z.eqb_refl.
      split_and!; [done..|]. eapply dll_ext; [| |done].
      * intros y Hy. rewrite Hgn, Hxa. destruct (Z.eqb_spec y a); [|done].
        apply NoDup_cons in Hnd as [Hnin _]. set_solver.
      * intros y Hy. rewrite Hgp, Hxn. destruct (Z.eqb_spec y n) as [->|]; [|done].
        rewrite !NoDup_cons in Hnd. set_solver.
  - destruct H1 as (Hay & Hya & H1). apply NoDup_cons in Hnd as [Hnin Hnd].
    pose proof (dll_prev_in _ _ _ _ H1) as Hp. pose proof (dll_next_in _ _ _ _ H2) as Hn.
    split_and!.
    + rewrite Hgn. destruct (Z.eqb_spec a (b_prev (f x))) as [->|]; [set_solver|done].
    + rewrite Hgp. destruct (Z.eqb_spec y (b_next (f x))) as [->|]; [|done].
      apply NoDup_cons in Hnd as [Hy _]. set_solver.
    + apply IH; [set_solver|done|done].
Qed.

(** Putting [x] at the front. *)
Lemma dll_push f g a l x z :
  dll f a l z → x ∉ a :: l → x ≠ z → NoDup (a :: l) → z ∉ l →
  (∀ y, b_next (g y) = if y =? a then x else if y =? x then b_next (f a) else b_next (f y)) →
  (∀ y, b_prev (g y) = if y =? b_next (f a) then x else if y =? x then a else b_prev (f y)) →
  dll g a (x :: l) z.
Proof.
  intros Hd Hx Hxz Hnd Hz Hgn Hgp. pose proof (dll_next_in _ _ _ _ Hd) as Hn.
  assert (x ≠ a) by set_solver. simpl. rewrite Hgn, Z.eqb_refl, Hgp.
  destruct (Z.eqb_spec x (b_next (f a))) as [E|E]; [set_solver|]. rewrite Z.eqb_refl.
  split_and!; [done..|]. destruct l as [|y l]; simpl in *.
  - destruct Hd as [Haz Hza]. rewrite Hgn, Hgp, Haz, !Z.eqb_refl. by destruct (Z.eqb_spec x a).
  - destruct Hd as (Hay & Hya & Hd). rewrite Hgn, Hgp, Hay, !Z.eqb_refl.
    destruct (Z.eqb_spec x a); [done|]. split_and!; [done..|]. eapply dll_ext; [| |done].
    + intros w Hw. rewrite Hgn. destruct (Z.eqb_spec w a) as [->|]; [rewrite NoDup_cons in Hnd; set_solver|].
      destruct (Z.eqb_spec w x); [set_solver|done].
    + intros w Hw. rewrite Hgp, Hay. destruct (Z.eqb_spec w y) as [->|].
      * rewrite !NoDup_cons in Hnd. set_solver.
      * destruct (Z.eqb_spec w x); [set_solver|done].
Qed.

(** ** The invariant of the cache *)
Definition in_cache (i : Z) : Prop := 0 ≤ i < NBUF.

(** Buffer [i] is assigned to the block. *)
Definition assigned (f : Z → buf) (dev blockno i : Z) : Prop :=
  in_cache i ∧ b_dev (f i) = dev ∧ b_blockno (f i) = blockno.

(** A buffer: nobody uses it unless its count says so; an unused one holds what is on
    disk.  [x] exempts a buffer that recovery has unpinned below its holders. *)
Record buf_ok (x : bool) (blk : Z → list Z) (b : buf) : Prop := {
  bo_valid : b_valid b = 0 ∨ b_valid b = 1;
  bo_dev : b_valid b = 1 → b_dev b = ROOTDEV;
  bo_disk : b_disk b = 0;
  bo_ref : 0 ≤ b_refcnt b < 2 ^ 32;
  bo_len : b_valid b = 1 → length (b_data b) = Z.to_nat BSIZE;
  bo_lk : lock_free (sl_lk (b_lock b));
  bo_unlocked : sl_locked (b_lock b) = 0 → sl_free (b_lock b);
  bo_free : x = false → b_refcnt b = 0 → sl_free (b_lock b);
  bo_clean : x = false → b_refcnt b = 0 → b_valid b = 1 → b_data b = blk (b_blockno b)
}.

Record binv {P D : Type} `{DriverOk P D} (x : option Z) (s : bst P D) (order : list Z) : Prop := {
  bi_sched : so_inv (b_p s);
  bi_drv : dv_inv (b_d s);
  bi_lock : lock_free (bc_lock s);
  bi_order : order ≡ₚ seqZ 0 NBUF;
  bi_dll : dll (bufs s) head order head;
  bi_uniq : ∀ dev blockno i j, dev ≠ 0 →
    assigned (bufs s) dev blockno i → assigned (bufs s) dev blockno j → i = j;
  bi_buf : ∀ i, in_cache i → buf_ok (bool_decide (x = Some i)) (dv_block (b_d s)) (bufs s i)
}.

Section specs.
Context {P D : Type} `{DriverOk P D}.
Abbreviation st := (bst P D).

Lemma order_in (order : list Z) i : order ≡ₚ seqZ 0 NBUF → i ∈ order ↔ in_cache i.
Proof. intros E. rewrite E, elem_of_seqZ. unfold in_cache. lia. Qed.

Lemma order_nodup (order : list Z) : order ≡ₚ seqZ 0 NBUF → NoDup (head :: order).
Proof.
  intros E. constructor.
  - rewrite (order_in _ _ E). unfold in_cache, head. lia.
  - rewrite E. apply NoDup_seqZ.
Qed.

Lemma order_length (order : list Z) : order ≡ₚ seqZ 0 NBUF → length order = Z.to_nat NBUF.
Proof. intros E. by rewrite E, length_seqZ. Qed.

(** The search along [next]. *)
Lemma wp_bget_find fuel (s : st) a l dev bn (Q : option Z → st → Prop) :
  dll (bufs s) a l head → head ∉ l → (length l ≤ fuel)%nat →
  (∀ b, b ∈ l → b_dev (bufs s b) = dev → b_blockno (bufs s b) = bn → Q (Some b) s) →
  ((∀ b, b ∈ l → ¬ (b_dev (bufs s b) = dev ∧ b_blockno (bufs s b) = bn)) → Q None s) →
  wp (bget_find fuel (b_next (bufs s a)) dev bn) Q s.
Proof.
  revert a fuel. induction l as [|x l IH]; intros a fuel Hd Hh Hf Hs Hn; simpl in Hd.
  - destruct Hd as [-> _]. destruct fuel; cbn [bget_find bget_lru]; rewrite Z.eqb_refl; apply wp_ret, Hn; set_solver.
  - destruct Hd as (-> & _ & Hd). destruct fuel as [|fuel]; simpl in Hf; [lia|]. cbn [bget_find].
    destruct (Z.eqb_spec x head) as [->|Hx]; [set_solver|]. apply wp_bind, wp_gets.
    destruct (Z.eqb_spec (b_dev (bufs s x)) dev), (Z.eqb_spec (b_blockno (bufs s x)) bn); simpl;
      try (apply wp_ret; apply Hs; [left|done..]);
      (apply IH; [done|set_solver|lia|intros; apply Hs; [by right|done..]|
        intros Hno; apply Hn; intros b [->|Hb]%elem_of_cons; [tauto|auto]]).
Qed.

(** The search along [prev] finds the free buffer that is last on the list. *)
Lemma wp_bget_lru fuel (s : st) l z (Q : option Z → st → Prop) :
  dll (bufs s) head l z → head ∉ l → (length l ≤ fuel)%nat →
  (∀ b l1 l2, l = l1 ++ b :: l2 → b_refcnt (bufs s b) = 0 →
     (∀ y, y ∈ l2 → b_refcnt (bufs s y) ≠ 0) → Q (Some b) s) →
  ((∀ b, b ∈ l → b_refcnt (bufs s b) ≠ 0) → Q None s) →
  wp (bget_lru fuel (b_prev (bufs s z))) Q s.
Proof.
  revert z fuel Q. induction l as [|x l IH] using rev_ind; intros z fuel Q Hd Hh Hf Hs Hn.
  - simpl in Hd. destruct Hd as [_ ->]. destruct fuel; cbn [bget_find bget_lru]; rewrite Z.eqb_refl; apply wp_ret, Hn; set_solver.
  - apply dll_app in Hd as [Hd [_ Hz]]. rewrite Hz. rewrite length_app in Hf. simpl in Hf.
    destruct fuel as [|fuel]; [lia|]. cbn [bget_lru].
    destruct (Z.eqb_spec x head) as [->|Hx]; [set_solver|]. apply wp_bind, wp_gets.
    destruct (Z.eqb_spec (b_refcnt (bufs s x)) 0) as [E|E].
    + apply wp_ret. apply (Hs x l []); [done|done|]. intros y Hy. set_solver.
    + apply IH; [done|set_solver|lia|..].
      * intros b l1 l2 -> Hb Hl2. apply (Hs b l1 (l2 ++ [x])); [by rewrite <- app_assoc|done|].
        intros y [Hy| ->%list_elem_of_singleton]%elem_of_app; auto.
      * intros Hno. apply Hn. intros b [Hb| ->%list_elem_of_singleton]%elem_of_app; auto.
Qed.

(** Storing into a buffer. *)
Lemma wp_put i f (s : st) (Q : unit → st → Prop) :
  Q () (mkB (b_p s) (b_d s) (bc_lock s) (upd (bufs s) i (f (bufs s i)))) → wp (put i f) Q s.
Proof. done. Qed.

Lemma wp_bcache_acq (s : st) (Q : unit → st → Prop) :
  so_inv (b_p s) → lock_free (bc_lock s) →
  (∀ q, within (b_p s) q →
     Q () (mkB q (b_d s) (take_lock (push_off (lget sc_hart (b_p s))) (bc_lock s)) (bufs s))) →
  wp (on_bcache acq) Q s.
Proof. intros. apply wp_zoom, wp_acq; auto. Qed.

Lemma wp_bcache_rel p q d lk f (Q : unit → st → Prop) :
  within p q → lock_free lk → (∀ p', calm p p' → Q () (mkB p' d lk f)) →
  wp (on_bcache rel) Q (mkB q d (take_lock (push_off (lget sc_hart p)) lk) f).
Proof.
  intros Hw Hlk HQ. apply wp_zoom. by eapply wp_rel_taken.
Qed.

(** The buffer bget() returns, for a cached block and for a recycled buffer. *)
Definition hit (pid : Z) (b : buf) : buf :=
  set_block (sl_take pid (b_lock b)) (set_refcnt (b_refcnt b + 1) b).
Definition miss (pid dev bn : Z) (b : buf) : buf :=
  mkBuf 0 (b_disk b) dev bn (sl_take pid (b_lock b)) 1 (b_prev b) (b_next b) (b_data b).

Lemma wp_bget fuel (s : st) order dev bn (Q : Z → st → Prop) :
  binv None s order → dev ≠ 0 →
  (∀ i, assigned (bufs s) dev bn i →
     sl_free (b_lock (bufs s i)) ∧ b_refcnt (bufs s i) + 1 < 2 ^ 32) →
  ((∀ i, ¬ assigned (bufs s) dev bn i) → ∃ i, in_cache i ∧ b_refcnt (bufs s i) = 0) →
  (∀ i p', assigned (bufs s) dev bn i → calm (b_p s) p' →
     Q i (mkB p' (b_d s) (bc_lock s) (upd (bufs s) i (hit (so_id (b_p s)) (bufs s i))))) →
  (∀ i p' l1 l2, (∀ j, ¬ assigned (bufs s) dev bn j) → order = l1 ++ i :: l2 → in_cache i →
     b_refcnt (bufs s i) = 0 → (∀ y, y ∈ l2 → b_refcnt (bufs s y) ≠ 0) → calm (b_p s) p' →
     Q i (mkB p' (b_d s) (bc_lock s) (upd (bufs s) i (miss (so_id (b_p s)) dev bn (bufs s i))))) →
  wp (bget fuel dev bn) Q s.
Proof.
  intros [Hp Hd Hlk Ho Hdll Hu Hb] Hdev Hfree Hav Q1 Q2. unfold bget.
  pose proof (order_nodup _ Ho) as Hnd. apply NoDup_cons in Hnd as [Hh Hnd].
  apply wp_bind, wp_bcache_acq; [done..|]. intros q Hq.
  apply wp_bind, wp_gets, wp_bind. cbn [bufs].
  match goal with |- wp _ _ ?s1 => eapply (wp_bget_find _ s1 head order) end; cbn [bufs]; [done|done|by rewrite (order_length _ Ho)|..].
  - intros b Hin Edev Ebn. assert (Ha : assigned (bufs s) dev bn b)
      by (split; [by apply (order_in order)|done]).
    destruct (Hfree b Ha) as [Hsl Hr]. pose proof (bo_ref _ _ _ (Hb b (proj1 Ha))) as Hr0.
    apply wp_bind, wp_put. cbn [b_p b_d bc_lock bufs]. apply wp_bind. eapply wp_bcache_rel; [done..|].
    intros p' Hp'. apply wp_bind, wp_zoom. cbn [b_p bufs]. rewrite upd_eq.
    apply wp_acquiresleep; [apply Hp'|done|]. intros p2 Hp2. apply wp_ret.
    cbn [b_p b_d bc_lock bufs]. rewrite upd_upd, upd_eq, u32_small by lia.
    rewrite (cm_id _ _ Hp'). apply Q1; [done|by eapply calm_trans].
  - intros Hno. apply wp_bind, wp_gets, wp_bind. cbn [bufs].
    assert (Hna : ∀ j, ¬ assigned (bufs s) dev bn j).
    { intros j (Hj & ? & ?). by apply (Hno j); [apply (order_in order)|]. }
    match goal with |- wp _ _ ?s1 => eapply (wp_bget_lru _ s1 order head) end; cbn [bufs]; [done|done|by rewrite (order_length _ Ho)|..].
    + intros b l1 l2 -> Hr Hl2. assert (Hbc : in_cache b) by (apply (order_in _ _ Ho); set_solver).
      apply wp_bind, wp_put, wp_bind, wp_put, wp_bind, wp_put, wp_bind, wp_put.
      cbn [b_p b_d bc_lock bufs]. apply wp_bind. eapply wp_bcache_rel; [done..|].
      intros p' Hp'. apply wp_bind, wp_zoom. cbn [b_p bufs]. rewrite !upd_upd, !upd_eq.
      apply wp_acquiresleep; [apply Hp'|exact (bo_free _ _ _ (Hb b Hbc) eq_refl Hr)|]. intros p2 Hp2. apply wp_ret.
      cbn [b_p b_d bc_lock bufs]. rewrite upd_upd, ?upd_eq.
      rewrite (cm_id _ _ Hp'). eapply Q2; [done..|by eapply calm_trans].
    + intros Hno2. exfalso. destruct (Hav Hna) as (i & Hi & Hri). apply (Hno2 i); [|done].
      by apply (order_in order).
Qed.
End specs.
