(* ===== verification/BioSpec.v ===== *)
(** The contract of the buffer cache (bio.c).

    To its users the cache is, for each block of a device, its current contents, how
    many hold or have pinned it, and whether it is locked; behind it is the disk.
    [abs] computes this view of the state of Bio.v; the lemmas show that each operation
    does to it what [A_bread], [A_bwrite], ... say. *)
From Stdlib Require Import FunctionalExtensionality.
From S2P Require Import Prelude Machine Spinlock Sched Sleeplock Bio.

Record acache := mkA {
  a_content : Z → list Z;
  a_ref : Z → Z;
  a_lock : Z → bool;
  a_disk : Z → list Z;
  a_hist : list (Z * list Z);
  a_free : Z
}.

Definition A_bread (a : acache) (bn : Z) : acache :=
  mkA (a_content a) (upd (a_ref a) bn (a_ref a bn + 1)) (upd (a_lock a) bn true)
      (a_disk a) (a_hist a) (if a_ref a bn =? 0 then a_free a - 1 else a_free a).
Definition A_set (a : acache) (bn : Z) (data : list Z) : acache :=
  mkA (upd (a_content a) bn data) (a_ref a) (a_lock a) (a_disk a) (a_hist a) (a_free a).
Definition A_bwrite (a : acache) (bn : Z) : acache :=
  mkA (a_content a) (a_ref a) (a_lock a) (upd (a_disk a) bn (a_content a bn))
      (a_hist a ++ [(bn, a_content a bn)]) (a_free a).
Definition A_brelse (a : acache) (bn : Z) : acache :=
  mkA (a_content a) (upd (a_ref a) bn (a_ref a bn - 1)) (upd (a_lock a) bn false)
      (a_disk a) (a_hist a) (if a_ref a bn =? 1 then a_free a + 1 else a_free a).
Definition A_pin (a : acache) (bn n : Z) : acache :=
  mkA (a_content a) (upd (a_ref a) bn (a_ref a bn + n)) (a_lock a) (a_disk a) (a_hist a) (a_free a).

(** ** Finding a block *)
Definition matches (dev bn : Z) (b : buf) : bool := (b_dev b =? dev) && (b_blockno b =? bn).
Definition bfind (f : Z → buf) (dev bn : Z) : option Z :=
  List.find (λ i, matches dev bn (f i)) (seqZ 0 NBUF).
Definition blookup (f : Z → buf) (dev bn : Z) : option buf := f <$> bfind f dev bn.

Definition uniq (f : Z → buf) : Prop :=
  ∀ dev blockno i j, dev ≠ 0 → assigned f dev blockno i → assigned f dev blockno j → i = j.

Lemma matches_spec f dev bn i : in_cache i → matches dev bn (f i) = true ↔ assigned f dev bn i.
Proof.
  intros Hi. unfold matches, assigned. rewrite andb_true_iff, !Z.eqb_eq. tauto.
Qed.

Lemma in_seqZ i : In i (seqZ 0 NBUF) ↔ in_cache i.
Proof. rewrite <- list_elem_of_In, elem_of_seqZ. unfold in_cache. lia. Qed.

Lemma bfind_Some f dev bn i : bfind f dev bn = Some i → assigned f dev bn i.
Proof.
  intros [Hi Hm]%find_some. apply in_seqZ in Hi. by apply matches_spec.
Qed.

Lemma bfind_None f dev bn : bfind f dev bn = None → ∀ i, ¬ assigned f dev bn i.
Proof.
  intros Hn i Ha. pose proof Ha as [Hi _]. apply matches_spec in Ha; [|done].
  apply in_seqZ, (find_none _ _ Hn) in Hi. congruence.
Qed.

Lemma bfind_assigned f dev bn i :
  uniq f → dev ≠ 0 → assigned f dev bn i → bfind f dev bn = Some i.
Proof.
  intros Hu Hd Ha. destruct (bfind f dev bn) as [j|] eqn:E.
  - apply bfind_Some in E. f_equal. by eapply Hu.
  - by apply bfind_None with (i := i) in E.
Qed.

Lemma bfind_unassigned f dev bn : (∀ i, ¬ assigned f dev bn i) → bfind f dev bn = None.
Proof.
  intros Hn. destruct (bfind f dev bn) eqn:E; [|done]. apply bfind_Some in E. by apply Hn in E.
Qed.

Lemma blookup_upd f dev bn i b' :
  uniq f → uniq (upd f i b') → in_cache i → dev ≠ 0 →
  blookup (upd f i b') dev bn =
  if matches dev bn b' then Some b'
  else if matches dev bn (f i) then None else blookup f dev bn.
Proof.
  intros Hu Hu' Hi Hd. unfold blookup. destruct (matches dev bn b') eqn:Em.
  - rewrite (bfind_assigned _ _ _ i); [|done|done|].
    + simpl. by rewrite upd_eq.
    + apply matches_spec; [done|]. by rewrite upd_eq.
  - assert (Hne : ∀ j, assigned (upd f i b') dev bn j ↔ assigned f dev bn j ∧ j ≠ i).
    { intros j. destruct (decide (j = i)) as [->|Hji].
      - split; [|tauto]. intros Ha. apply matches_spec in Ha; [|done]. rewrite upd_eq in Ha. congruence.
      - unfold assigned. rewrite upd_ne by done. tauto. }
    destruct (matches dev bn (f i)) eqn:Ei.
    + apply matches_spec in Ei; [|done]. rewrite bfind_unassigned; [done|].
      intros j [Hj Hji]%Hne. apply Hji. by eapply Hu.
    + destruct (bfind f dev bn) as [j|] eqn:Ej.
      * apply bfind_Some in Ej. assert (j ≠ i).
        { intros ->. apply matches_spec in Ej; [congruence|done]. }
        rewrite (bfind_assigned _ _ _ j); [|done|done|by apply Hne]. simpl. by rewrite upd_ne.
      * rewrite bfind_unassigned; [done|]. intros j [Hj _]%Hne. by eapply bfind_None.
Qed.

(** A change that keeps the buffer's block keeps the assignment of blocks. *)
Lemma uniq_upd_same f i b' :
  uniq f → b_dev b' = b_dev (f i) → b_blockno b' = b_blockno (f i) → uniq (upd f i b').
Proof.
  intros Hu Ed Eb. assert (Ha : ∀ dev bn j, assigned (upd f i b') dev bn j ↔ assigned f dev bn j).
  { intros dev bn j. unfold assigned. destruct (decide (j = i)) as [->|].
    - by rewrite upd_eq, Ed, Eb.
    - by rewrite upd_ne. }
  intros dev bn j k Hd Hj%Ha Hk%Ha. by eapply Hu.
Qed.

Lemma uniq_upd_new f i b' :
  uniq f → (∀ j, ¬ assigned f (b_dev b') (b_blockno b') j) → uniq (upd f i b').
Proof.
  intros Hu Hno dev bn j k Hd Hj Hk.
  destruct (decide (j = i)) as [->|Hj'], (decide (k = i)) as [->|Hk']; [done|..].
  - exfalso. destruct Hj as (_ & Ed & Eb). rewrite upd_eq in Ed, Eb. subst.
    apply (Hno k). unfold assigned in *. by rewrite upd_ne in Hk.
  - exfalso. destruct Hk as (_ & Ed & Eb). rewrite upd_eq in Ed, Eb. subst.
    apply (Hno j). unfold assigned in *. by rewrite upd_ne in Hj.
  - eapply Hu; [done|..]; unfold assigned in *; [by rewrite upd_ne in Hj|by rewrite upd_ne in Hk].
Qed.

(** ** Counting the free buffers *)
Fixpoint nfree (f : Z → buf) (l : list Z) : Z :=
  match l with
  | [] => 0
  | i :: l => b2z (b_refcnt (f i) =? 0) + nfree f l
  end.

Lemma nfree_upd_out f i b l : i ∉ l → nfree (upd f i b) l = nfree f l.
Proof.
  induction l as [|j l IH]; intros Hi; simpl; [done|]. rewrite upd_ne by set_solver.
  rewrite IH by set_solver. done.
Qed.

Lemma nfree_upd f i b l :
  NoDup l → i ∈ l →
  nfree (upd f i b) l = nfree f l + b2z (b_refcnt b =? 0) - b2z (b_refcnt (f i) =? 0).
Proof.
  induction l as [|j l IH]; intros Hnd Hi; [set_solver|]. apply NoDup_cons in Hnd as [Hj Hnd].
  simpl. destruct (decide (j = i)) as [->|].
  - rewrite upd_eq, nfree_upd_out by done. lia.
  - rewrite upd_ne, IH by set_solver. lia.
Qed.

Lemma nfree_pos f l : 0 < nfree f l → ∃ i, i ∈ l ∧ b_refcnt (f i) = 0.
Proof.
  induction l as [|j l IH]; simpl; [lia|]. destruct (Z.eqb_spec (b_refcnt (f j)) 0) as [E|E]; simpl.
  - intros _. exists j. split; [left|done].
  - intros Hp. destruct IH as (i & Hi & Hr); [done|]. exists i. split; [by right|done].
Qed.

Lemma nfree_nonneg f l : 0 ≤ nfree f l.
Proof. induction l as [|j l IH]; simpl; [lia|]. destruct (_ =? _); simpl; lia. Qed.

Lemma nfree_mem f l i : i ∈ l → b_refcnt (f i) = 0 → 0 < nfree f l.
Proof.
  induction l as [|j l IH]; simpl; [set_solver|]. pose proof (nfree_nonneg f l).
  intros [->|Hi]%elem_of_cons Hr.
  - rewrite Hr. simpl. lia.
  - specialize (IH Hi Hr). destruct (_ =? _); simpl; lia.
Qed.

(** ** The view *)
Definition v_content (disk : Z → list Z) (bn : Z) (o : option buf) : list Z :=
  match o with Some b => if b_valid b =? 0 then disk bn else b_data b | None => disk bn end.
Definition v_ref (o : option buf) : Z := match o with Some b => b_refcnt b | None => 0 end.
Definition v_lock (o : option buf) : bool :=
  match o with Some b => negb (sl_locked (b_lock b) =? 0) | None => false end.

Section abs.
Context {P D : Type} `{DriverOk P D}.
Abbreviation st := (bst P D).

Definition abs (dev : Z) (s : st) : acache :=
  mkA (λ bn, v_content (dv_block (b_d s)) bn (blookup (bufs s) dev bn))
      (λ bn, v_ref (blookup (bufs s) dev bn))
      (λ bn, v_lock (blookup (bufs s) dev bn))
      (dv_block (b_d s)) (dv_hist (b_d s)) (nfree (bufs s) (seqZ 0 NBUF)).

(** The running process holds buffer [i] for the block. *)
Record holds (dev bn i : Z) (s : st) : Prop := {
  ho_assigned : assigned (bufs s) dev bn i;
  ho_lock : sl_held (so_id (b_p s)) (b_lock (bufs s i));
  ho_valid : b_valid (bufs s i) = 1;
  ho_ref : 0 < b_refcnt (bufs s i)
}.

(** Buffers held for other blocks stay held. *)
Definition keeps (dev bn : Z) (s s' : st) : Prop :=
  calm (b_p s) (b_p s') ∧ ∀ bn0 i0, bn0 ≠ bn → holds dev bn0 i0 s → holds dev bn0 i0 s'.

Lemma binv_uniq x s order : binv x s order → uniq (bufs s).
Proof. intros [] dev bn i j. eauto. Qed.

(** Changing one buffer, without its links. *)
Lemma binv_upd x x' s order i b' p' d' :
  binv x s order → in_cache i → b_prev b' = b_prev (bufs s i) → b_next b' = b_next (bufs s i) →
  uniq (upd (bufs s) i b') → buf_ok (bool_decide (x' = Some i)) (dv_block d') b' → so_inv p' → dv_inv d' →
  (∀ j, in_cache j → j ≠ i → buf_ok (bool_decide (x' = Some j)) (dv_block d') (bufs s j)) →
  binv x' (mkB p' d' (bc_lock s) (upd (bufs s) i b')) order.
Proof.
  intros [Hp Hd Hlk Ho Hdll Hu Hb] Hi Ep En Hu' Hok Hp' Hd' Hoth.
  split; cbn [b_p b_d bc_lock bufs]; try done.
  - eapply dll_ext; [| |done]; intros y _; unfold upd; by destruct (Z.eqb_spec y i) as [->|].
  - intros j Hj. destruct (decide (j = i)) as [->|]; [by rewrite upd_eq|]. rewrite upd_ne by done. auto.
Qed.

Lemma keeps_upd dev bn s p' d' lk i b' :
  calm (b_p s) p' → (∀ bn0, bn0 ≠ bn → ¬ holds dev bn0 i s) →
  keeps dev bn s (mkB p' d' lk (upd (bufs s) i b')).
Proof.
  intros Hc Hno. split; [done|]. intros bn0 i0 Hne Hh.
  assert (i0 ≠ i) by (intros ->; by apply (Hno bn0)).
  destruct Hh as [(Ha & Ha1 & Ha2) Hl Hv Hr]. split; cbn [b_p b_d bc_lock bufs]; unfold assigned;
    rewrite ?upd_ne by done; try done. by rewrite (cm_id _ _ Hc).
Qed.

Lemma blk_eq (d d' : D) : (∀ n, dv_block d' n = dv_block d n) → dv_block d' = dv_block d.
Proof. intros E. by apply functional_extensionality. Qed.

(** The view after a change of buffer [i], which holds the block [bn] now and before
    held it too or was free. *)
Lemma abs_upd x dev bn s order p' d' lk i b' :
  binv x s order → in_cache i → dev ≠ 0 → matches dev bn b' = true → uniq (upd (bufs s) i b') →
  assigned (bufs s) dev bn i ∨ b_refcnt (bufs s i) = 0 ∧ x ≠ Some i →
  (∀ n, n ≠ bn → dv_block d' n = dv_block (b_d s) n) →
  let a := abs dev s in
  abs dev (mkB p' d' lk (upd (bufs s) i b')) =
  mkA (upd (a_content a) bn (v_content (dv_block d') bn (Some b')))
      (upd (a_ref a) bn (b_refcnt b'))
      (upd (a_lock a) bn (negb (sl_locked (b_lock b') =? 0)))
      (dv_block d') (dv_hist d')
      (a_free a + b2z (b_refcnt b' =? 0) - b2z (b_refcnt (bufs s i) =? 0)).
Proof.
  intros Hinv Hi Hd Hm Hu' Hor Hblk a. pose proof (binv_uniq _ _ _ Hinv) as Hu.
  pose proof Hm as Hm'. unfold matches in Hm'. apply andb_true_iff in Hm' as [Hdv Hbn].
  apply Z.eqb_eq in Hdv, Hbn.
  assert (Hother : ∀ n, n ≠ bn → matches dev n b' = false).
  { intros n Hn. unfold matches. rewrite Hbn. destruct (Z.eqb_spec bn n); [done|]. apply andb_false_r. }
  (* a block whose buffer was recycled looks as on disk *)
  assert (Hev : ∀ n, n ≠ bn → matches dev n (bufs s i) = true →
            blookup (bufs s) dev n = Some (bufs s i) ∧ b_refcnt (bufs s i) = 0 ∧ bool_decide (x = Some i) = false).
  { intros n Hn Ei. apply matches_spec in Ei; [|done]. split.
    - unfold blookup. by rewrite (bfind_assigned _ _ _ i).
    - destruct Hor as [(_ & _ & ?)|[? ?]]; [destruct Ei as (_ & _ & ?); congruence|].
      split; [done|]. by apply bool_decide_eq_false_2. }
  pose proof (bi_buf _ _ _ Hinv i Hi) as Hok.
  unfold abs at 1. cbn [b_d bufs]. f_equal.
  - apply functional_extensionality. intros n. rewrite blookup_upd by done. unfold upd.
    destruct (Z.eqb_spec n bn) as [->|Hn]; [by rewrite Hm|]. rewrite Hother by done.
    cbn [a abs a_content]. destruct (matches dev n (bufs s i)) eqn:Ei.
    + destruct (Hev n Hn Ei) as (-> & Hr & Hx). simpl. rewrite Hblk by done.
      destruct (Z.eqb_spec (b_valid (bufs s i)) 0) as [|Hv]; [done|].
      rewrite (bo_clean _ _ _ Hok) by (done || by destruct (bo_valid _ _ _ Hok)).
      f_equal. apply matches_spec in Ei as (_ & _ & ?); done.
    + unfold v_content. by rewrite Hblk.
  - apply functional_extensionality. intros n. rewrite blookup_upd by done. unfold upd.
    destruct (Z.eqb_spec n bn) as [->|Hn]; [by rewrite Hm|]. rewrite Hother by done.
    cbn [a abs a_ref]. destruct (matches dev n (bufs s i)) eqn:Ei; [|done].
    destruct (Hev n Hn Ei) as (-> & Hr & _). simpl. by rewrite Hr.
  - apply functional_extensionality. intros n. rewrite blookup_upd by done. unfold upd.
    destruct (Z.eqb_spec n bn) as [->|Hn]; [by rewrite Hm|]. rewrite Hother by done.
    cbn [a abs a_lock]. destruct (matches dev n (bufs s i)) eqn:Ei; [|done].
    destruct (Hev n Hn Ei) as (-> & Hr & Hx). simpl. by destruct (bo_free _ _ _ Hok Hx Hr) as (-> & _).
  - cbn [a abs a_free]. apply nfree_upd; [apply NoDup_seqZ|]. apply list_elem_of_In. by apply in_seqZ.
Qed.

Lemma holds_lookup x dev bn i s order :
  binv x s order → dev ≠ 0 → holds dev bn i s →
  a_content (abs dev s) bn = b_data (bufs s i) ∧ a_ref (abs dev s) bn = b_refcnt (bufs s i) ∧
  a_lock (abs dev s) bn = true.
Proof.
  intros Hinv Hd [Ha (Hl & _) Hv Hr]. cbn [abs a_content a_ref a_lock]. unfold blookup.
  rewrite (bfind_assigned _ _ _ i) by (done || by eapply binv_uniq). simpl. by rewrite Hv, Hl.
Qed.

(** A buffer with the lock taken by the running process. *)
Lemma upd_idem {A} (f : Z → A) i v : f i = v → upd f i v = f.
Proof. intros <-. apply upd_id. Qed.

(** The driver's read, and [valid = 1]. *)
Lemma wp_fill (s : st) i b (Q : unit → st → Prop) :
  so_inv (b_p s) → dv_inv (b_d s) → bufs s i = b → b_disk b = 0 → b_valid b = 0 ∨ b_valid b = 1 →
  (∀ p' d', calm (b_p s) p' → dv_inv d' → dv_block d' = dv_block (b_d s) → dv_hist d' = dv_hist (b_d s) →
     Q () (mkB p' d' (bc_lock s)
       (upd (bufs s) i (set_valid 1 (set_data (v_content (dv_block (b_d s)) (b_blockno b) (Some b)) b))))) →
  wp (if b_valid b =? 0 then on_driver i (virtio_disk_rw i false);; put i (set_valid 1) else mret ()) Q s.
Proof.
  intros Hp Hd Hb Hdisk Hv HQ. cbn [v_content] in HQ. destruct (Z.eqb_spec (b_valid b) 0) as [E|E].
  - apply wp_bind, wp_zoom. rewrite Hb. eapply wp_mono; [by apply dv_read|].
    intros [] [[p' d'] b'] (Hc & Hd' & Hblk & Hh & ->). apply wp_put. cbn [b_p b_d bc_lock bufs].
    rewrite upd_upd, upd_eq.
    replace (set_valid 1 (set_disk 0 (set_data (dv_block (b_d s) (b_blockno b)) b)))
      with (set_valid 1 (set_data (dv_block (b_d s) (b_blockno b)) b))
      by (destruct b; simpl in *; by subst).
    apply HQ; [done..|by apply blk_eq|done].
  - apply wp_ret. destruct Hv as [|Hv]; [done|].
    replace (set_valid 1 (set_data (b_data b) b)) with b in HQ by (destruct b; simpl in *; by subst).
    specialize (HQ (b_p s) (b_d s)). rewrite upd_idem in HQ by done.
    destruct s. apply HQ; auto with kern.
Qed.

(** The preconditions of bread(): the block is not locked, and it is in use or a
    buffer is free. *)
Record can_read (a : acache) (bn : Z) : Prop := {
  cr_lock : a_lock a bn = false;
  cr_ref : a_ref a bn + 1 < 2 ^ 32;
  cr_free : a_ref a bn = 0 → 0 < a_free a
}.

Lemma can_read_assigned dev bn s order i :
  binv None s order → dev ≠ 0 → can_read (abs dev s) bn → assigned (bufs s) dev bn i →
  sl_free (b_lock (bufs s i)) ∧ b_refcnt (bufs s i) + 1 < 2 ^ 32.
Proof.
  intros Hinv Hd [Hl Hr _] Ha. cbn [abs a_lock a_ref] in Hl, Hr. unfold blookup in Hl, Hr.
  rewrite (bfind_assigned _ _ _ i) in Hl, Hr by (done || by eapply binv_uniq). simpl in Hl, Hr.
  split; [|done]. pose proof (bi_buf _ _ _ Hinv i (proj1 Ha)) as Hok.
  apply negb_false_iff, Z.eqb_eq in Hl. by apply (bo_unlocked _ _ _ Hok).
Qed.

Lemma assigned_same f i b' dev bn j :
  b_dev b' = b_dev (f i) → b_blockno b' = b_blockno (f i) →
  assigned (upd f i b') dev bn j ↔ assigned f dev bn j.
Proof.
  intros Ed Eb. unfold assigned. destruct (decide (j = i)) as [->|];
    [by rewrite upd_eq, Ed, Eb|by rewrite upd_ne].
Qed.

(** What is left of bread() once bget() has put buffer [b1] for the block at [i]. *)
Lemma wp_bread_fill (s : st) order dev bn i p1 b1 (Q : Z → st → Prop) :
  binv None s order → dev = ROOTDEV → can_read (abs dev s) bn →
  (∀ s', binv None s' order → holds dev bn i s' → abs dev s' = A_bread (abs dev s) bn →
     keeps dev bn s s' → bc_lock s' = bc_lock s → Q i s') →
  calm (b_p s) p1 → in_cache i →
  assigned (bufs s) dev bn i ∨ b_refcnt (bufs s i) = 0 →
  matches dev bn b1 = true → uniq (upd (bufs s) i b1) →
  b_prev b1 = b_prev (bufs s i) → b_next b1 = b_next (bufs s i) → b_disk b1 = 0 →
  b_lock b1 = sl_take (so_id (b_p s)) (b_lock (bufs s i)) →
  (b_valid b1 = 0 ∨ b_valid b1 = 1 ∧ length (b_data b1) = Z.to_nat BSIZE) →
  b_refcnt b1 = a_ref (abs dev s) bn + 1 → 0 ≤ a_ref (abs dev s) bn →
  v_content (dv_block (b_d s)) bn (Some b1) = a_content (abs dev s) bn →
  b2z (b_refcnt (bufs s i) =? 0) = b2z (a_ref (abs dev s) bn =? 0) →
  wp (x ← getb i;
      (if b_valid x =? 0 then on_driver i (virtio_disk_rw i false);; put i (set_valid 1) else mret ());;
      mret i) Q (mkB p1 (b_d s) (bc_lock s) (upd (bufs s) i b1)).
Proof.
  intros Hinv Hroot Hcr HQ. assert (Hd : dev ≠ 0) by by rewrite Hroot.
  pose proof (binv_uniq _ _ _ Hinv) as Hu.
  intros Hc Hi Hor Hm Hu1 Hpv Hnx Hdk Hlk Hval Href Hr0 Hcont Hfr.
  pose proof (bi_buf _ _ _ Hinv i Hi) as Hok.
  apply wp_bind, wp_gets, wp_bind. cbn [bufs]. rewrite upd_eq.
  eapply wp_fill; cbn [b_p b_d bufs bc_lock];
    [apply Hc|apply Hinv|apply upd_eq|done|tauto|].
  intros p2 d2 Hc2 Hd2 Hblk Hh. apply wp_ret. rewrite upd_upd.
  pose proof Hm as Hm'. unfold matches in Hm'. apply andb_true_iff in Hm' as [Hdv Hbn].
  apply Z.eqb_eq in Hdv, Hbn. rewrite Hbn, Hcont.
  set (b2 := set_valid 1 (set_data (a_content (abs dev s) bn) b1)).
  assert (Hu2 : uniq (upd (bufs s) i b2)).
  { rewrite <- (upd_upd (bufs s) i b1). apply uniq_upd_same; [done|by rewrite upd_eq..]. }
  assert (Hlen : length (a_content (abs dev s) bn) = Z.to_nat BSIZE).
  { rewrite <- Hcont. simpl. destruct (Z.eqb_spec (b_valid b1) 0).
    - apply dv_len, Hinv.
    - by destruct Hval as [?|[_ ?]]. }
  pose proof (cr_ref _ _ Hcr) as Hrmax.
  assert (Hok2 : buf_ok false (dv_block d2) b2).
  { clear HQ Hcont Hfr Hcr. set (rf := a_ref (abs dev s) bn) in *. clearbody rf.
    split; simpl; rewrite ?Href, ?Hlk; simpl; auto; try lia; try congruence. apply Hok. }
  apply HQ.
  - apply (binv_upd None); try done; [apply Hc2|]. intros j Hj _. rewrite Hblk. by apply Hinv.
  - split; cbn [bufs b_p]; rewrite ?upd_eq; simpl.
    + unfold assigned. rewrite upd_eq. done.
    + rewrite Hlk. split_and!; [done| |simpl; apply Hok]. simpl. by rewrite (cm_id _ _ Hc2), (cm_id _ _ Hc).
    + done.
    + lia.
  - rewrite (abs_upd None dev bn s order) by (done || (intros n Hn; by rewrite Hblk) || naive_solver).
    unfold A_bread. f_equal.
    + simpl. by apply upd_idem.
    + simpl. by rewrite Href.
    + simpl. by rewrite Hlk.
    + by rewrite Hblk.
    + by rewrite Hh.
    + simpl. rewrite Href. cbn [abs a_ref a_free] in *.
      destruct (Z.eqb_spec (v_ref (blookup (bufs s) dev bn) + 1) 0); [lia|].
      destruct (Z.eqb_spec (v_ref (blookup (bufs s) dev bn)) 0); rewrite Hfr; simpl; lia.
  - apply keeps_upd; [by eapply calm_trans|]. intros bn0 Hne [(_ & _ & Ha) (Hl & _) _ Hr].
    destruct Hor as [(_ & _ & Ha')|Hz]; [congruence|lia].
  - done.
Qed.

(** bread() locks the block's buffer and fills it with the block's contents. *)
Lemma wp_bread fuel (s : st) order dev bn (Q : Z → st → Prop) :
  binv None s order → dev = ROOTDEV → can_read (abs dev s) bn →
  (∀ i s', binv None s' order → holds dev bn i s' → abs dev s' = A_bread (abs dev s) bn →
     keeps dev bn s s' → bc_lock s' = bc_lock s → Q i s') →
  wp (bread fuel dev bn) Q s.
Proof.
  intros Hinv Hroot Hcr HQ. assert (Hd : dev ≠ 0) by by rewrite Hroot.
  unfold bread. pose proof (binv_uniq _ _ _ Hinv) as Hu.
  apply wp_bind. eapply (wp_bget fuel s order); [done|done|by intros; eapply can_read_assigned|..].
  - intros Hno. destruct (nfree_pos (bufs s) (seqZ 0 NBUF)) as (i & Hi & Hr).
    + apply Hcr. cbn [abs a_ref]. unfold blookup. by rewrite bfind_unassigned.
    + exists i. split; [|done]. apply elem_of_seqZ in Hi. unfold in_cache. lia.
  - intros i p' Ha Hc. pose proof (bi_buf _ _ _ Hinv i (proj1 Ha)) as Hok.
    assert (El : blookup (bufs s) dev bn = Some (bufs s i))
      by (unfold blookup; by rewrite (bfind_assigned _ _ _ i)).
    eapply (wp_bread_fill s order); try done; [by auto|..]; cbn [abs a_ref a_content]; rewrite ?El; simpl; try done.
    + apply Ha.
    + by left.
    + apply (matches_spec (bufs s)); [apply Ha|done].
    + by apply uniq_upd_same.
    + apply Hok.
    + destruct (bo_valid _ _ _ Hok) as [?|Hv]; [by left|right]. split; [done|by apply Hok].
    + apply Hok.
  - intros i p' l1 l2 Hno _ Hi Hr _ Hc. pose proof (bi_buf _ _ _ Hinv i Hi) as Hok.
    assert (El : blookup (bufs s) dev bn = None) by (unfold blookup; by rewrite bfind_unassigned).
    eapply (wp_bread_fill s order); try done; [by auto|..]; cbn [abs a_ref a_content]; rewrite ?El, ?Hr; simpl; try done.
    + by right.
    + unfold matches. simpl. by rewrite !Z.eqb_refl.
    + by apply uniq_upd_new.
    + apply Hok.
    + by left.
Qed.

(** ** The other operations *)

(** The data of a held buffer is its holder's to change. *)
Lemma wp_set_data (s : st) order dev bn i data (Q : unit → st → Prop) :
  binv None s order → dev = ROOTDEV → holds dev bn i s → length data = Z.to_nat BSIZE →
  (∀ s', binv None s' order → holds dev bn i s' → abs dev s' = A_set (abs dev s) bn data →
     keeps dev bn s s' → Q () s') →
  wp (put i (set_data data)) Q s.
Proof.
  intros Hinv Hroot Hh Hlen HQ. assert (Hd : dev ≠ 0) by by rewrite Hroot.
  destruct (holds_lookup _ _ _ _ _ _ Hinv Hd Hh) as (Ec & Er & El).
  pose proof Hh as [Ha Hl Hv Hr]. pose proof (bi_buf _ _ _ Hinv i (proj1 Ha)) as Hok.
  pose proof (binv_uniq _ _ _ Hinv) as Hu. apply wp_put.
  assert (Hm : matches dev bn (set_data data (bufs s i)) = true)
    by (apply (matches_spec (bufs s)); [apply Ha|done]).
  apply HQ.
  - apply (binv_upd None); try done; [apply Ha|by apply uniq_upd_same| |apply Hinv|apply Hinv|].
    + destruct Hok. split; simpl; auto. lia.
    + intros j Hj _. by apply Hinv.
  - split; cbn [bufs b_p]; unfold assigned; rewrite ?upd_eq; done.
  - rewrite (abs_upd None dev bn s order) by (done || apply Ha || by apply uniq_upd_same || by left).
    unfold A_set. cbn [set_data b_refcnt b_lock]. f_equal.
    + cbn [v_content]. simpl. by rewrite Hv.
    + apply upd_idem, Er.
    + apply upd_idem. rewrite El. by destruct Hl as (-> & _).
    + lia.
  - apply keeps_upd; [apply calm_refl, Hinv|]. intros bn0 Hne [(_ & _ & Hb0) _ _ _].
    destruct Ha as (_ & _ & Hb1). congruence.
Qed.

Lemma wp_buf_holding x (s : st) order dev bn i (Q : bool → st → Prop) :
  binv x s order → holds dev bn i s →
  (∀ p', calm (b_p s) p' → Q true (mkB p' (b_d s) (bc_lock s) (bufs s))) →
  wp (on_buflock i holdingsleep) Q s.
Proof.
  intros Hinv [Ha (Hl & Hp & Hlk) Hv Hr] HQ. apply wp_zoom, wp_holdingsleep; [apply Hinv|done|].
  intros p' Hc. rewrite Hl, Hp, Z.eqb_refl. simpl.
  rewrite (upd_idem (bufs s)) by (by destruct (bufs s i)). auto.
Qed.

Lemma wp_bwrite (s : st) order dev bn i (Q : unit → st → Prop) :
  binv None s order → dev = ROOTDEV → holds dev bn i s →
  (∀ s', binv None s' order → holds dev bn i s' → abs dev s' = A_bwrite (abs dev s) bn →
     keeps dev bn s s' → Q () s') →
  wp (bwrite i) Q s.
Proof.
  intros Hinv Hroot Hh HQ. assert (Hd : dev ≠ 0) by by rewrite Hroot.
  destruct (holds_lookup _ _ _ _ _ _ Hinv Hd Hh) as (Ec & Er & El).
  pose proof Hh as [Ha Hl Hv Hr]. pose proof (bi_buf _ _ _ Hinv i (proj1 Ha)) as Hok.
  pose proof (binv_uniq _ _ _ Hinv) as Hu. pose proof Ha as (Hi & Hdv & Hbn).
  unfold bwrite. apply wp_bind. eapply wp_buf_holding; [done..|]. intros p1 Hc1. cbn [negb].
  apply wp_zoom. cbn [b_p b_d bufs].
  eapply wp_mono; [apply dv_write; [apply Hc1|apply Hinv|by apply Hok]|].
  intros [] [[p' d'] b'] (Hc & Hd' & Hblk & Hhist & ->). cbn [b_p b_d bc_lock bufs].
  replace (set_disk 0 (bufs s i)) with (bufs s i)
    by (pose proof (bo_disk _ _ _ Hok) as Hz; destruct (bufs s i); simpl in *; by subst).
  rewrite Hbn in *.
  assert (Hm : matches dev bn (bufs s i) = true) by by apply matches_spec.
  assert (Hu' : uniq (upd (bufs s) i (bufs s i))) by by rewrite upd_id.
  apply HQ.
  - apply (binv_upd None); try done; [|apply Hc|].
    + destruct Hok. split; auto; lia.
    + intros j Hj Hne. destruct (bi_buf _ _ _ Hinv j Hj). split; auto.
      intros _ Hr0 Hv0. rewrite Hblk, upd_ne; [auto|]. intros Eb. apply Hne.
      apply (Hu dev bn); [done| |done]. split_and!; [done| |done]. rewrite Hroot. auto.
  - split; cbn [bufs b_p]; rewrite ?upd_id; try done.
    by rewrite (cm_id _ _ Hc), (cm_id _ _ Hc1).
  - rewrite (abs_upd None dev bn s order) by
      (done || by left || (intros n Hn; rewrite Hblk; by rewrite upd_ne)).
    unfold A_bwrite. f_equal.
    + cbn [v_content]. rewrite Hv. apply upd_idem. by rewrite Ec.
    + by apply upd_idem.
    + apply upd_idem. rewrite El. by destruct Hl as (-> & _).
    + apply functional_extensionality. intros n. by rewrite Hblk, Ec.
    + by rewrite Hhist, Ec.
    + lia.
  - apply keeps_upd; [by eapply calm_trans|]. intros bn0 Hne [(_ & _ & Hb0) _ _ _]. congruence.
Qed.

(** bpin() and bunpin(). *)
Lemma wp_add_ref (s : st) order dev bn i n (Q : unit → st → Prop) :
  binv None s order → dev = ROOTDEV → holds dev bn i s → 0 < a_ref (abs dev s) bn + n < 2 ^ 32 →
  (∀ s', binv None s' order → holds dev bn i s' → abs dev s' = A_pin (abs dev s) bn n →
     keeps dev bn s s' → Q () s') →
  wp (on_bcache acq;; put i (λ x, set_refcnt (u32 (b_refcnt x + n)) x);; on_bcache rel) Q s.
Proof.
  intros Hinv Hroot Hh Hn HQ. assert (Hd : dev ≠ 0) by by rewrite Hroot.
  destruct (holds_lookup _ _ _ _ _ _ Hinv Hd Hh) as (Ec & Er & El).
  pose proof Hh as [Ha Hl Hv Hr]. pose proof (bi_buf _ _ _ Hinv i (proj1 Ha)) as Hok.
  pose proof (binv_uniq _ _ _ Hinv) as Hu. pose proof Ha as (Hi & Hdv & Hbn). rewrite Er in Hn.
  apply wp_bind, wp_bcache_acq; [apply Hinv|apply Hinv|]. intros q Hq.
  apply wp_bind, wp_put. eapply wp_bcache_rel; [done|apply Hinv|]. intros p' Hc.
  cbn [b_p b_d bc_lock bufs]. rewrite u32_small by lia.
  set (b' := set_refcnt (b_refcnt (bufs s i) + n) (bufs s i)).
  assert (Hm : matches dev bn b' = true) by by apply (matches_spec (bufs s)).
  assert (Hu' : uniq (upd (bufs s) i b')) by by apply uniq_upd_same.
  apply HQ.
  - apply (binv_upd None); try done; [|apply Hc|apply Hinv|intros j Hj _; by apply Hinv].
    destruct Hok. split; simpl; auto; lia.
  - split; cbn [bufs b_p]; unfold assigned; rewrite ?upd_eq; try done; [|simpl; lia].
    simpl. by rewrite (cm_id _ _ Hc).
  - rewrite (abs_upd None dev bn s order) by (done || by left).
    unfold A_pin. f_equal.
    + cbn [v_content b' set_refcnt b_valid b_data]. rewrite Hv. apply upd_idem. by rewrite Ec.
    + by rewrite Er.
    + apply upd_idem. rewrite El. cbn [b' set_refcnt b_lock]. by destruct Hl as (-> & _).
    + simpl. destruct (Z.eqb_spec (b_refcnt (bufs s i) + n) 0), (Z.eqb_spec (b_refcnt (bufs s i)) 0); simpl; lia.
  - apply keeps_upd; [done|]. intros bn0 Hne [(_ & _ & Hb0) _ _ _]. congruence.
Qed.

(** ** brelse() *)

(** A buffer apart from its links. *)
Definition nolinks (b : buf) : buf := set_prev 0 (set_next 0 b).

(** The six stores of brelse(). *)
Definition relink (f : Z → buf) (b : Z) : Z → buf :=
  let f := upd f (b_next (f b)) (set_prev (b_prev (f b)) (f (b_next (f b)))) in
  let f := upd f (b_prev (f b)) (set_next (b_next (f b)) (f (b_prev (f b)))) in
  let f := upd f b (set_next (b_next (f head)) (f b)) in
  let f := upd f b (set_prev head (f b)) in
  let f := upd f (b_next (f head)) (set_prev b (f (b_next (f head)))) in
  upd f head (set_next b (f head)).

Lemma nolinks_set_prev f i v y : nolinks (upd f i (set_prev v (f i)) y) = nolinks (f y).
Proof. unfold upd. by destruct (Z.eqb_spec y i) as [->|]. Qed.

Lemma nolinks_set_next f i v y : nolinks (upd f i (set_next v (f i)) y) = nolinks (f y).
Proof. unfold upd. by destruct (Z.eqb_spec y i) as [->|]. Qed.

Lemma relink_nolinks f b y : nolinks (relink f b y) = nolinks (f y).
Proof. unfold relink. by rewrite ?nolinks_set_next, ?nolinks_set_prev, ?nolinks_set_next, ?nolinks_set_prev. Qed.

Lemma upd_prev_next f i v y : b_next (upd f i (set_prev v (f i)) y) = b_next (f y).
Proof. unfold upd. by destruct (Z.eqb_spec y i) as [->|]. Qed.

Lemma upd_next_prev f i v y : b_prev (upd f i (set_next v (f i)) y) = b_prev (f y).
Proof. unfold upd. by destruct (Z.eqb_spec y i) as [->|]. Qed.

Lemma upd_prev_prev f i v y : b_prev (upd f i (set_prev v (f i)) y) = if y =? i then v else b_prev (f y).
Proof. unfold upd. by destruct (Z.eqb_spec y i) as [->|]. Qed.

Lemma upd_next_next f i v y : b_next (upd f i (set_next v (f i)) y) = if y =? i then v else b_next (f y).
Proof. unfold upd. by destruct (Z.eqb_spec y i) as [->|]. Qed.

(** brelse() moves the buffer to the front of the list. *)
Lemma relink_dll f l1 b l2 :
  dll f head (l1 ++ b :: l2) head → NoDup (head :: l1 ++ b :: l2) →
  dll (relink f b) head (b :: l1 ++ l2) head.
Proof.
  intros Hd Hnd. apply dll_app in Hd as [Hd1 Hd2].
  assert (Hh : head ∉ l1 ++ b :: l2) by by apply NoDup_cons in Hnd as [? _].
  pose proof (dll_next_in _ _ _ _ Hd2) as Hn.
  assert (Hbn : b ≠ b_next (f b)).
  { intros E. rewrite <- E in Hn. apply NoDup_cons in Hnd as [_ Hnd].
    apply NoDup_app in Hnd as (_ & _ & Hnd). apply NoDup_cons in Hnd as [? _]. set_solver. }
  set (f2 := upd (upd f (b_next (f b)) (set_prev (b_prev (f b)) (f (b_next (f b)))))
                 (b_prev (f b)) (set_next (b_next (f b))
                 (upd f (b_next (f b)) (set_prev (b_prev (f b)) (f (b_next (f b)))) (b_prev (f b))))).
  assert (Hu : dll f2 head (l1 ++ l2) head).
  { eapply (dll_unlink f); [done..| |]; intros y; unfold f2.
    - by rewrite upd_next_next, upd_prev_next.
    - by rewrite upd_next_prev, upd_prev_prev. }
  assert (Hperm : head :: l1 ++ b :: l2 ≡ₚ b :: head :: l1 ++ l2) by (rewrite <- Permutation_middle; constructor).
  rewrite Hperm in Hnd. apply NoDup_cons in Hnd as [Hb Hnd].
  unfold relink. rewrite (upd_ne f (b_next (f b)) _ b) by done. fold f2.
  eapply (dll_push f2); [done|done|set_solver|done|by apply NoDup_cons in Hnd as [? _]|..]; intros y.
  - rewrite upd_next_next, !upd_prev_next, upd_next_next. done.
  - rewrite upd_next_prev, !upd_prev_prev, upd_prev_next, upd_next_next, upd_next_prev.
    destruct (Z.eqb_spec head b); [set_solver|]. done.
Qed.

Lemma abs_nolinks dev (s : st) p d lk f g :
  (∀ y, nolinks (f y) = nolinks (g y)) → abs dev (mkB p d lk f : st) = abs dev (mkB p d lk g : st).
Proof.
  intros Hn.
  assert (Hdv : ∀ y, b_dev (f y) = b_dev (g y)) by (intros y; exact (f_equal b_dev (Hn y))).
  assert (Hbn : ∀ y, b_blockno (f y) = b_blockno (g y)) by (intros y; exact (f_equal b_blockno (Hn y))).
  assert (Hr : ∀ y, b_refcnt (f y) = b_refcnt (g y)) by (intros y; exact (f_equal b_refcnt (Hn y))).
  assert (Hf : ∀ bn, bfind f dev bn = bfind g dev bn).
  { intros bn. unfold bfind. f_equal. apply functional_extensionality. intros y.
    unfold matches. by rewrite Hdv, Hbn. }
  unfold abs, blookup. cbn [b_d bufs]. f_equal.
  - apply functional_extensionality. intros bn. rewrite Hf. destruct (bfind g dev bn) as [y|]; [|done]. simpl.
    by rewrite (f_equal b_valid (Hn y) : b_valid (f y) = b_valid (g y)),
      (f_equal b_data (Hn y) : b_data (f y) = b_data (g y)).
  - apply functional_extensionality. intros bn. rewrite Hf. destruct (bfind g dev bn) as [y|]; [|done]. apply Hr.
  - apply functional_extensionality. intros bn. rewrite Hf. destruct (bfind g dev bn) as [y|]; [|done]. simpl.
    by rewrite (f_equal b_lock (Hn y) : b_lock (f y) = b_lock (g y)).
  - induction (seqZ 0 NBUF) as [|y l IH]; simpl; [done|]. by rewrite Hr, IH.
Qed.

(** Relinking keeps everything but the order. *)
Lemma binv_relink x (s : st) l1 b l2 :
  binv x s (l1 ++ b :: l2) →
  binv x (mkB (b_p s) (b_d s) (bc_lock s) (relink (bufs s) b)) (b :: l1 ++ l2).
Proof.
  intros [Hp Hd Hlk Ho Hdll Hu Hb]. pose proof (λ y, relink_nolinks (bufs s) b y) as Hn.
  assert (Ha : ∀ dev bn j, assigned (relink (bufs s) b) dev bn j ↔ assigned (bufs s) dev bn j).
  { intros dev bn j. unfold assigned.
    by rewrite (f_equal b_dev (Hn j) : b_dev (relink (bufs s) b j) = b_dev (bufs s j)),
      (f_equal b_blockno (Hn j) : b_blockno (relink (bufs s) b j) = b_blockno (bufs s j)). }
  split; cbn [b_p b_d bc_lock bufs]; try done.
  - by rewrite Permutation_middle.
  - apply relink_dll; [done|]. by apply order_nodup.
  - intros dev bn i j Hne Hi%Ha Hj%Ha. by eapply Hu.
  - intros i Hi. destruct (Hb i Hi) as [h1 h2 h3 h4 h5 h6 h7 h8 h9].
    assert (E : ∀ {A} (g : buf → A), (∀ b, g (nolinks b) = g b) → g (relink (bufs s) b i) = g (bufs s i))
      by (intros A g Hg; by rewrite <- Hg, Hn, Hg).
    rewrite <- !(E _ b_valid), <- !(E _ b_dev), <- ?(E _ b_disk), <- ?(E _ b_refcnt), <- ?(E _ b_data),
      <- ?(E _ b_lock), <- ?(E _ b_blockno) in * by done.
    by split.
Qed.

(** The buffer after brelse(), apart from its links. *)
Definition released (b : buf) : buf :=
  set_refcnt (b_refcnt b - 1) (set_block (sl_drop (b_lock b)) b).

Lemma binv_released x (s : st) order dev bn i p' :
  binv x s order → x ≠ Some i → dev = ROOTDEV → holds dev bn i s → so_inv p' →
  (a_ref (abs dev s) bn = 1 → a_content (abs dev s) bn = a_disk (abs dev s) bn) →
  let s' := mkB p' (b_d s) (bc_lock s) (upd (bufs s) i (released (bufs s i))) in
  binv x s' order ∧ abs dev s' = A_brelse (abs dev s) bn.
Proof.
  intros Hinv Hx Hroot Hh Hp Hcl s'. assert (Hd : dev ≠ 0) by by rewrite Hroot.
  destruct (holds_lookup _ _ _ _ _ _ Hinv Hd Hh) as (Ec & Er & El).
  rewrite Ec, Er in Hcl. cbn [abs a_disk] in Hcl.
  pose proof Hh as [Ha (Hl & Hpid & Hlk) Hv Hr]. pose proof (bi_buf _ _ _ Hinv i (proj1 Ha)) as Hok.
  pose proof (binv_uniq _ _ _ Hinv) as Hu. pose proof Ha as (Hi & Hdv & Hbn).
  assert (Hm : matches dev bn (released (bufs s i)) = true) by by apply (matches_spec (bufs s)).
  assert (Hu' : uniq (upd (bufs s) i (released (bufs s i)))) by by apply uniq_upd_same.
  split.
  - apply (binv_upd x); try done; [|apply Hinv|intros j Hj _; by apply Hinv].
    destruct Hok. split; simpl; auto; try lia; try done.
    intros _ Hz _. rewrite Hbn. apply Hcl. lia.
  - unfold s'. rewrite (abs_upd x dev bn s order) by (done || by left).
    unfold A_brelse. f_equal.
    + cbn [v_content released set_refcnt set_block b_valid b_data]. rewrite Hv. apply upd_idem. by rewrite Ec.
    + by rewrite Er.
    + rewrite Er. cbn [released set_refcnt b_refcnt].
      destruct (Z.eqb_spec (b_refcnt (bufs s i) - 1) 0), (Z.eqb_spec (b_refcnt (bufs s i)) 0),
        (Z.eqb_spec (b_refcnt (bufs s i)) 1); cbn [b2z]; lia.
Qed.

Lemma wp_brelse x (s : st) order dev bn i (Q : unit → st → Prop) :
  binv x s order → x ≠ Some i → dev = ROOTDEV → holds dev bn i s →
  (a_ref (abs dev s) bn = 1 → a_content (abs dev s) bn = a_disk (abs dev s) bn) →
  (∀ s' l1 l2, order = l1 ++ i :: l2 →
     binv x s' (if a_ref (abs dev s) bn =? 1 then i :: l1 ++ l2 else order) →
     abs dev s' = A_brelse (abs dev s) bn → keeps dev bn s s' →
     (∀ y, y ≠ i → nolinks (bufs s' y) = nolinks (bufs s y)) → Q () s') →
  wp (brelse i) Q s.
Proof.
  intros Hinv Hx Hroot Hh Hcl HQ. assert (Hd : dev ≠ 0) by by rewrite Hroot.
  destruct (holds_lookup _ _ _ _ _ _ Hinv Hd Hh) as (Ec & Er & El).
  pose proof Hh as [Ha (Hl & Hpid & Hlk) Hv Hr]. pose proof Ha as (Hi & Hdv & Hbn).
  pose proof (bi_buf _ _ _ Hinv i Hi) as Hok. pose proof (bo_ref _ _ _ Hok) as Hr0.
  apply (order_in order) in Hi as Hin; [|apply Hinv]. apply list_elem_of_split in Hin as (l1 & l2 & Eo).
  unfold brelse. apply wp_bind. eapply wp_buf_holding; [done..|]. intros p1 Hc1. cbn [negb].
  apply wp_bind, wp_zoom, wp_releasesleep; [apply Hc1|done|]. intros p2 Hc2. cbn [b_p b_d bc_lock bufs].
  apply wp_bind, wp_bcache_acq; cbn [b_p b_d bc_lock bufs]; [apply Hc2|apply Hinv|]. intros q Hq.
  apply wp_bind, wp_put, wp_bind, wp_gets. cbn [b_p b_d bc_lock bufs].
  rewrite upd_upd, !upd_eq. cbn [set_refcnt set_block b_refcnt]. rewrite u32_small by lia.
  fold (released (bufs s i)). apply wp_bind.
  assert (Hkeep : ∀ p' f, calm p2 p' → (∀ y, y ≠ i → nolinks (f y) = nolinks (bufs s y)) →
            keeps dev bn s (mkB p' (b_d s) (bc_lock s) f)).
  { intros p' f Hc Hn. assert (Hc' : calm (b_p s) p') by (eapply calm_trans, calm_trans; done).
    split; [done|]. intros bn0 i0 Hne [(? & ? & ?) ? ? ?].
    assert (Hi0 : i0 ≠ i) by congruence. specialize (Hn i0 Hi0).
    assert (E : ∀ {A} (g : buf → A), (∀ b, g (nolinks b) = g b) → g (f i0) = g (bufs s i0))
      by (intros A g Hg; by rewrite <- Hg, Hn, Hg).
    split; cbn [bufs b_p]; unfold assigned;
      rewrite ?(E _ b_dev), ?(E _ b_blockno), ?(E _ b_lock), ?(E _ b_valid), ?(E _ b_refcnt) by done; try done.
    by rewrite (cm_id _ _ Hc'). }
  destruct (Z.eqb_spec (b_refcnt (bufs s i) - 1) 0) as [Hz|Hz].
  - set (f0 := upd (bufs s) i (released (bufs s i))).
    repeat (apply wp_bind, wp_gets || apply wp_bind, wp_put || apply wp_put).
    cbn [b_p b_d bc_lock bufs]. fold (relink f0 i). eapply wp_bcache_rel; [done|apply Hinv|].
    intros p3 Hc3.
    destruct (binv_released x s order dev bn i p3 Hinv Hx Hroot Hh (cm_inv _ _ Hc3) Hcl) as [Hb Hab].
    rewrite Eo in Hb. apply binv_relink in Hb. cbn [b_p b_d bc_lock bufs] in Hb. fold f0 in Hb, Hab.
    apply (HQ _ l1 l2 Eo).
    + rewrite Er. destruct (Z.eqb_spec (b_refcnt (bufs s i)) 1); [done|lia].
    + rewrite <- Hab. apply (abs_nolinks dev s). intros y. apply relink_nolinks.
    + apply Hkeep; [done|]. intros y Hy. rewrite relink_nolinks. unfold f0. by rewrite upd_ne.
    + intros y Hy. cbn [bufs]. rewrite relink_nolinks. unfold f0. by rewrite upd_ne.
  - apply wp_ret. eapply wp_bcache_rel; [done|apply Hinv|]. intros p3 Hc3.
    destruct (binv_released x s order dev bn i p3 Hinv Hx Hroot Hh (cm_inv _ _ Hc3) Hcl) as [Hb Hab].
    apply (HQ _ l1 l2 Eo); [|done| |].
    + rewrite Er. destruct (Z.eqb_spec (b_refcnt (bufs s i)) 1); [lia|done].
    + apply Hkeep; [done|]. intros y Hy. by rewrite upd_ne.
    + intros y Hy. cbn [bufs]. by rewrite upd_ne.
Qed.

(** ** Unpinning a block that was not pinned

    install_trans() calls bunpin() also during recovery, when nobody has pinned the
    block: the count drops to 0 under the holder, and brelse() then takes it from 0 to
    the largest unsigned integer. *)
Record stray (dev bn i : Z) (s : st) : Prop := {
  sy_assigned : assigned (bufs s) dev bn i;
  sy_lock : sl_held (so_id (b_p s)) (b_lock (bufs s i));
  sy_valid : b_valid (bufs s i) = 1;
  sy_ref : b_refcnt (bufs s i) = 0
}.

Lemma wp_bunpin_stray (s : st) order dev bn i (Q : unit → st → Prop) :
  binv None s order → dev = ROOTDEV → holds dev bn i s → a_ref (abs dev s) bn = 1 →
  (∀ s', binv (Some i) s' order → stray dev bn i s' →
     a_content (abs dev s') = a_content (abs dev s) → a_disk (abs dev s') = a_disk (abs dev s) →
     a_hist (abs dev s') = a_hist (abs dev s) →
     a_ref (abs dev s') = upd (a_ref (abs dev s)) bn 0 → a_lock (abs dev s') = a_lock (abs dev s) →
     a_free (abs dev s') = a_free (abs dev s) + 1 →
     keeps dev bn s s' → Q () s') →
  wp (bunpin i) Q s.
Proof.
  intros Hinv Hroot Hh Hn HQ. assert (Hd : dev ≠ 0) by by rewrite Hroot.
  destruct (holds_lookup _ _ _ _ _ _ Hinv Hd Hh) as (Ec & Er & El).
  pose proof Hh as [Ha Hl Hv Hr]. pose proof (bi_buf _ _ _ Hinv i (proj1 Ha)) as Hok.
  pose proof (binv_uniq _ _ _ Hinv) as Hu. pose proof Ha as (Hi & Hdv & Hbn). rewrite Er in Hn.
  apply wp_bind, wp_bcache_acq; [apply Hinv|apply Hinv|]. intros q Hq.
  apply wp_bind, wp_put. eapply wp_bcache_rel; [done|apply Hinv|]. intros p' Hc.
  cbn [b_p b_d bc_lock bufs]. rewrite u32_small by lia.
  set (b' := set_refcnt (b_refcnt (bufs s i) - 1) (bufs s i)).
  assert (Hm : matches dev bn b' = true) by by apply (matches_spec (bufs s)).
  assert (Hu' : uniq (upd (bufs s) i b')) by by apply uniq_upd_same.
  pose proof (abs_upd None dev bn s order p' (b_d s) (bc_lock s) i b' Hinv Hi Hd Hm Hu'
                (or_introl Ha) (λ _ _, eq_refl)) as Eabs. cbv zeta in Eabs.
  assert (Hz : b_refcnt b' = 0) by (unfold b'; simpl; lia).
  apply HQ; rewrite ?Eabs; cbn [a_content a_ref a_lock a_disk a_hist a_free]; try done.
  - apply (binv_upd None); try done; [|apply Hc|apply Hinv|].
    + rewrite bool_decide_eq_true_2 by done. destruct Hok. split; simpl; auto; lia.
    + intros j Hj Hne. rewrite bool_decide_eq_false_2 by congruence. exact (bi_buf _ _ _ Hinv j Hj).
  - split; cbn [bufs b_p]; unfold assigned; rewrite ?upd_eq; try done.
    simpl. by rewrite (cm_id _ _ Hc).
  - cbn [v_content b' set_refcnt b_valid b_data]. rewrite Hv. apply upd_idem. by rewrite Ec.
  - by rewrite Hz.
  - apply upd_idem. rewrite El. cbn [b' set_refcnt b_lock]. by destruct Hl as (-> & _).
  - rewrite Hz. destruct (Z.eqb_spec (b_refcnt (bufs s i)) 0); simpl; lia.
  - apply keeps_upd; [done|]. intros bn0 Hne [(_ & _ & Hb0) _ _ _]. congruence.
Qed.

Lemma stray_nolinks dev bn i (s s' : st) :
  stray dev bn i s → calm (b_p s) (b_p s') → nolinks (bufs s' i) = nolinks (bufs s i) → stray dev bn i s'.
Proof.
  intros [(? & ? & ?) ? ? ?] Hc Hn.
  assert (E : ∀ {A} (g : buf → A), (∀ b, g (nolinks b) = g b) → g (bufs s' i) = g (bufs s i))
    by (intros A g Hg; by rewrite <- Hg, Hn, Hg).
  split; unfold assigned;
    rewrite ?(E _ b_dev), ?(E _ b_blockno), ?(E _ b_lock), ?(E _ b_valid), ?(E _ b_refcnt) by done; try done.
  by rewrite (cm_id _ _ Hc).
Qed.

Lemma wp_brelse_stray (s : st) order dev bn i (Q : unit → st → Prop) :
  binv (Some i) s order → dev = ROOTDEV → stray dev bn i s →
  (∀ s', binv None s' order →
     a_content (abs dev s') = a_content (abs dev s) → a_disk (abs dev s') = a_disk (abs dev s) →
     a_hist (abs dev s') = a_hist (abs dev s) →
     a_ref (abs dev s') = upd (a_ref (abs dev s)) bn (2 ^ 32 - 1) →
     a_lock (abs dev s') = upd (a_lock (abs dev s)) bn false →
     a_free (abs dev s') = a_free (abs dev s) - 1 →
     keeps dev bn s s' → Q () s') →
  wp (brelse i) Q s.
Proof.
  intros Hinv Hroot [Ha (Hl & Hpid & Hlk) Hv Hr] HQ. assert (Hd : dev ≠ 0) by by rewrite Hroot.
  pose proof Ha as (Hi & Hdv & Hbn). pose proof (bi_buf _ _ _ Hinv i Hi) as Hok.
  pose proof (binv_uniq _ _ _ Hinv) as Hu. unfold brelse.
  apply wp_bind, wp_zoom, wp_holdingsleep; [apply Hinv|done|]. intros p1 Hc1.
  rewrite Hl, Hpid, Z.eqb_refl. cbn [Z.eqb negb andb].
  rewrite (upd_idem (bufs s)) by (by destruct (bufs s i)).
  apply wp_bind, wp_zoom, wp_releasesleep; [apply Hc1|done|]. intros p2 Hc2. cbn [b_p b_d bc_lock bufs].
  apply wp_bind, wp_bcache_acq; cbn [b_p b_d bc_lock bufs]; [apply Hc2|apply Hinv|]. intros q Hq.
  apply wp_bind, wp_put, wp_bind, wp_gets. cbn [b_p b_d bc_lock bufs].
  rewrite upd_upd, !upd_eq. cbn [set_refcnt set_block b_refcnt]. rewrite Hr.
  change (u32 (0 - 1)) with (2 ^ 32 - 1). cbn [Z.eqb]. apply wp_bind.
  change (2 ^ 32 - 1 =? 0) with false. apply wp_ret. eapply wp_bcache_rel; [done|apply Hinv|].
  intros p3 Hc3. set (b' := set_refcnt (2 ^ 32 - 1) (set_block (sl_drop (b_lock (bufs s i))) (bufs s i))).
  assert (Hm : matches dev bn b' = true) by by apply (matches_spec (bufs s)).
  assert (Hu' : uniq (upd (bufs s) i b')) by by apply uniq_upd_same.
  pose proof (abs_upd (Some i) dev bn s order p3 (b_d s) (bc_lock s) i b' Hinv Hi Hd Hm Hu'
                (or_introl Ha) (λ _ _, eq_refl)) as Eabs. cbv zeta in Eabs.
  assert (Hc : calm (b_p s) p3) by (eapply calm_trans; [done|by eapply calm_trans]).
  apply HQ; rewrite ?Eabs; cbn [a_content a_ref a_lock a_disk a_hist a_free]; try done.
  - apply (binv_upd (Some i)); try done; [|apply Hc|apply Hinv|].
    + destruct Hok. split; simpl; auto; try lia; try done.
    + intros j Hj Hne. pose proof (bi_buf _ _ _ Hinv j Hj) as Hokj.
      by rewrite bool_decide_eq_false_2 in Hokj by congruence.
  - cbn [v_content b' set_refcnt set_block b_valid b_data]. rewrite Hv. apply upd_idem.
    cbn [abs a_content]. unfold blookup. rewrite (bfind_assigned _ _ _ i) by done. simpl. by rewrite Hv.
  - rewrite Hr. simpl. lia.
  - apply keeps_upd; [done|]. intros bn0 Hne [(_ & _ & Hb0) _ _ _]. congruence.
Qed.
End abs.
