(* ===== verification/Bcache.v ===== *)
(** The buffer cache from boot on (bio.c): binit() establishes the invariant of Bio.v, any
    sequence of calls that follows the rules of the interface does what the view of BioSpec.v
    says, buffers are recycled in order of use, and bget() panics exactly when every buffer
    is in use.

    [mdisk] is a disk driver that keeps the blocks in a map and records the writes: it
    shows that the contract [DriverOk] can be met, and serves the witnesses. *)
From Stdlib Require Import FunctionalExtensionality.
From S2P Require Import Prelude Machine CString Spinlock Kalloc Sched Sleeplock Bio BioSpec Proc ProcSpec.

(** ** A driver with the disk in memory *)
Record mdisk := mkMd { md_block : Z → list Z; md_hist : list (Z * list Z) }.

#[global] Instance mdisk_driver {P} : Driver P mdisk := {|
  virtio_disk_rw i write := λ '(p, d, b),
    if write then
      Ret () (p, mkMd (upd (md_block d) (b_blockno b) (b_data b)) (md_hist d ++ [(b_blockno b, b_data b)]),
              set_disk 0 b)
    else Ret () (p, d, set_disk 0 (set_data (md_block d (b_blockno b)) b))
|}.

#[global] Instance mdisk_ok {P} `{SchedOk P} : DriverOk P mdisk.
Proof.
  refine {| dv_inv d := ∀ n, length (md_block d n) = Z.to_nat BSIZE;
            dv_block := md_block; dv_hist := md_hist |}.
  - auto.
  - intros i p d b Hp Hd. unfold wp. cbn. split_and!; auto with kern.
  - intros i p d b Hp Hd Hl. unfold wp. cbn. split_and!; auto with kern.
    intros n. unfold upd. by destruct (n =? _).
Defined.

(** ** binit() *)
Section boot.
Context {P D : Type} `{DriverOk P D}.
Abbreviation st := (bst P D).

(** A buffer in the bss segment: zero, as far as the code looks at it. *)
Definition bss_buf (b : buf) : Prop :=
  b_valid b = 0 ∧ b_disk b = 0 ∧ b_dev b = 0 ∧ b_refcnt b = 0.

Lemma wp_binit_loop k b (s : st) l (Q : unit → st → Prop) :
  dll (bufs s) head l head → NoDup (head :: l) → (∀ y, y ∈ l → y < b) → 0 ≤ b → b + Z.of_nat k = NBUF →
  (∀ f, dll f head (rev (seqZ b (Z.of_nat k)) ++ l) head →
     (∀ i, b ≤ i < NBUF → nolinks (f i) = nolinks (set_block (initsleeplock "buffer") (bufs s i))) →
     (∀ i, 0 ≤ i < b → nolinks (f i) = nolinks (bufs s i)) →
     Q () (mkB (b_p s) (b_d s) (bc_lock s) f)) →
  wp (binit_loop k b) Q s.
Proof.
  revert b s l. induction k as [|k IH]; intros b s l Hd Hnd Hl Hb Hk HQ; cbn [binit_loop].
  { apply wp_ret. destruct s as [p d lk f]. apply HQ; cbn; [done|lia|done]. }
  assert (Hbn : b ≠ head) by (unfold head; lia). assert (Hbl : b ∉ l) by (intros Hin; apply Hl in Hin; lia).
  assert (Hh : head ∉ l) by (by apply NoDup_cons in Hnd as [? _]).
  apply wp_bind, wp_gets. do 5 apply wp_bind, wp_put. cbn [b_p b_d bc_lock bufs].
  match goal with |- wp _ _ (mkB _ _ _ ?g) => set (f := g) end.
  assert (Hn : ∀ y, b_next (f y) = if y =? head then b else if y =? b then b_next (bufs s head) else b_next (bufs s y)).
  { intros y. unfold f, upd. repeat zcmp; subst; cbn; congruence. }
  assert (Hp : ∀ y, b_prev (f y) = if y =? b_next (bufs s head) then b else if y =? b then head else b_prev (bufs s y)).
  { intros y. unfold f, upd. repeat zcmp; subst; cbn; congruence. }
  assert (Hf : ∀ i, i ≠ b → nolinks (f i) = nolinks (bufs s i)).
  { intros i Hi. unfold f. by rewrite nolinks_set_next, nolinks_set_prev, !upd_ne. }
  assert (Hfb : nolinks (f b) = nolinks (set_block (initsleeplock "buffer") (bufs s b))).
  { unfold f. by rewrite nolinks_set_next, nolinks_set_prev, !upd_eq. }
  eapply (IH (b + 1) (mkB (b_p s) (b_d s) (bc_lock s) f) (b :: l)); [| | |lia|lia|].
  - cbn [bufs]. eapply dll_push; [exact Hd|set_solver|done|done|done|exact Hn|exact Hp].
  - rewrite NoDup_cons in Hnd |- *. rewrite NoDup_cons. set_solver.
  - intros y [->|Hy]%elem_of_cons; [lia|]. apply Hl in Hy. lia.
  - cbn [b_p b_d bc_lock bufs]. intros g Hg Hg1 Hg2. apply HQ.
    + rewrite Nat2Z.inj_succ, seqZ_cons by lia. cbn [rev]. rewrite <- app_assoc.
      replace (Z.succ b) with (b + 1) by lia. by replace (Z.pred (Z.succ (Z.of_nat k))) with (Z.of_nat k) by lia.
    + intros i Hi. destruct (decide (i = b)) as [->|].
      * by rewrite Hg2, Hfb by lia.
      * rewrite Hg1 by lia. change (nolinks (set_block ?l ?x)) with (set_block l (nolinks x)). by rewrite Hf by lia.
    + intros i Hi. by rewrite Hg2, Hf by lia.
Qed.

Lemma nfree_all (f : Z → buf) l : (∀ i, i ∈ l → b_refcnt (f i) = 0) → nfree f l = Z.of_nat (length l).
Proof.
  induction l as [|i l IH]; intros Hr; cbn [nfree length]; [done|].
  rewrite Hr by left. rewrite IH; [cbn; lia|]. intros j Hj. apply Hr. by right.
Qed.

(** The cache after boot: no block is in use, and the least recently used buffer is the first. *)
Lemma wp_binit (s : st) (Q : unit → st → Prop) :
  so_inv (b_p s) → dv_inv (b_d s) → (∀ i, in_cache i → bss_buf (bufs s i)) →
  (∀ s', binv None s' (rev (seqZ 0 NBUF)) → b_p s' = b_p s → b_d s' = b_d s →
     abs ROOTDEV s' = mkA (dv_block (b_d s)) (λ _, 0) (λ _, false) (dv_block (b_d s)) (dv_hist (b_d s)) NBUF →
     (∀ i, in_cache i → b_refcnt (bufs s' i) = 0 ∧ b_dev (bufs s' i) = 0) →
     Q () s') →
  wp binit Q s.
Proof.
  intros Hp Hd Hz HQ. unfold binit. apply wp_bind, wp_modify, wp_bind, wp_put, wp_bind, wp_put.
  cbn [b_p b_d bc_lock bufs].
  eapply (wp_binit_loop _ 0 _ []); cbn [bufs b_p b_d bc_lock].
  - cbn. by rewrite !upd_eq.
  - apply NoDup_singleton.
  - set_solver.
  - lia.
  - done.
  - rewrite app_nil_r. intros f Hdll Hf _. rewrite Z2Nat.id in Hdll by done.
    assert (E : ∀ i, in_cache i → nolinks (f i) = nolinks (set_block (initsleeplock "buffer") (bufs s i))).
    { intros i Hi. rewrite Hf by (unfold in_cache in Hi; lia). rewrite !upd_ne; [done|..];
        unfold in_cache, head in *; lia. }
    assert (Hfld : ∀ {A} (g : buf → A), (∀ b, g (nolinks b) = g b) → ∀ i, in_cache i →
              g (f i) = g (set_block (initsleeplock "buffer") (bufs s i)))
      by (intros A g Hg i Hi; by rewrite <- Hg, E, Hg).
    assert (Hv : ∀ i, in_cache i → b_valid (f i) = 0) by (intros i Hi; rewrite (Hfld _ b_valid) by done; apply (Hz i Hi)).
    assert (Hdk : ∀ i, in_cache i → b_disk (f i) = 0) by (intros i Hi; rewrite (Hfld _ b_disk) by done; apply (Hz i Hi)).
    assert (Hdv : ∀ i, in_cache i → b_dev (f i) = 0) by (intros i Hi; rewrite (Hfld _ b_dev) by done; apply (Hz i Hi)).
    assert (Hrf : ∀ i, in_cache i → b_refcnt (f i) = 0) by (intros i Hi; rewrite (Hfld _ b_refcnt) by done; apply (Hz i Hi)).
    assert (Hlk : ∀ i, in_cache i → b_lock (f i) = initsleeplock "buffer") by (intros i Hi; by rewrite (Hfld _ b_lock)).
    assert (Hna : ∀ dev bn i, dev ≠ 0 → ¬ assigned f dev bn i) by (intros dev bn i Hdev (Hi & Ha & _); rewrite Hdv in Ha; congruence).
    apply HQ; [|done|done| |by auto].
    + split; cbn [b_p b_d bc_lock bufs]; [done|done|done| |done| |].
      * rewrite <- reverse_Permutation, rev_alt. done.
      * intros dev bn i j Hdev Hi. by apply Hna in Hi.
      * intros i Hi. split; rewrite ?Hv, ?Hdk, ?Hrf, ?Hlk by done; auto; try lia; done.
    + unfold abs. cbn [b_d bufs].
      assert (Hl : ∀ bn, blookup f ROOTDEV bn = None).
      { intros bn. unfold blookup. rewrite bfind_unassigned; [done|]. intros i. by apply Hna. }
      f_equal; try (apply functional_extensionality; intros bn; by rewrite Hl).
      rewrite nfree_all; [by rewrite length_seqZ|]. intros i Hi. apply Hrf. apply elem_of_seqZ in Hi.
      unfold in_cache. lia.
Qed.
End boot.

(** ** Clients

    What a thread may do with the cache.  [BGet] and [BSet] are the reads and stores of
    [b->data] by the holder of a block. *)
Inductive bop : Type :=
| BRead (bn : Z) | BGet (bn : Z) | BSet (bn : Z) (data : list Z) | BWrite (bn : Z)
| BRelse (bn : Z) | BPin (bn : Z) | BUnpin (bn : Z).

(** The rules: a block is read that is not held, and there is a buffer for it; everything else is
    done by its holder; a buffer is not given up before its changes are on disk, unless
    it stays pinned. *)
Definition legal (a : acache) (o : bop) : Prop :=
  match o with
  | BRead bn => can_read a bn
  | BGet bn | BWrite bn => a_lock a bn = true
  | BSet bn data => a_lock a bn = true ∧ length data = Z.to_nat BSIZE
  | BRelse bn => a_lock a bn = true ∧ (a_ref a bn = 1 → a_content a bn = a_disk a bn)
  | BPin bn => a_lock a bn = true ∧ 0 < a_ref a bn + 1 < 2 ^ 32
  | BUnpin bn => a_lock a bn = true ∧ 0 < a_ref a bn - 1 < 2 ^ 32
  end.

Definition astep (a : acache) (o : bop) : acache :=
  match o with
  | BRead bn => A_bread a bn
  | BGet _ => a
  | BSet bn data => A_set a bn data
  | BWrite bn => A_bwrite a bn
  | BRelse bn => A_brelse a bn
  | BPin bn => A_pin a bn 1
  | BUnpin bn => A_pin a bn (-1)
  end.

(** What a client reads. *)
Definition aout (a : acache) (o : bop) : list (list Z) :=
  match o with BGet bn => [a_content a bn] | _ => [] end.

Fixpoint legal_run (a : acache) (os : list bop) : Prop :=
  match os with [] => True | o :: os => legal a o ∧ legal_run (astep a o) os end.
Fixpoint arun (a : acache) (os : list bop) : acache :=
  match os with [] => a | o :: os => arun (astep a o) os end.
Fixpoint aouts (a : acache) (os : list bop) : list (list Z) :=
  match os with [] => [] | o :: os => aout a o ++ aouts (astep a o) os end.

Section clients.
Context {P D : Type} `{DriverOk P D}.
Abbreviation st := (bst P D).

(** The calls; [h] remembers the buffer bread() returned for a block. *)
Definition exec (fuel : nat) (o : bop) (h : Z → Z) : M st ((Z → Z) * list (list Z)) :=
  match o with
  | BRead bn => i ← bread fuel ROOTDEV bn; mret (upd h bn i, [])
  | BGet bn => b ← getb (h bn); mret (h, [b_data b])
  | BSet bn data => put (h bn) (set_data data);; mret (h, [])
  | BWrite bn => bwrite (h bn);; mret (h, [])
  | BRelse bn => brelse (h bn);; mret (h, [])
  | BPin bn => bpin (h bn);; mret (h, [])
  | BUnpin bn => bunpin (h bn);; mret (h, [])
  end.

Fixpoint exec_all (fuel : nat) (os : list bop) (h : Z → Z) : M st (list (list Z)) :=
  match os with
  | [] => mret []
  | o :: os => '(h, out) ← exec fuel o h; outs ← exec_all fuel os h; mret (out ++ outs)
  end.

#[local] Opaque abs.

(** The simulation relation: every locked block is held through the client's pointer. *)
Definition related (a : acache) (h : Z → Z) (s : st) : Prop :=
  (∃ order, binv None s order) ∧ abs ROOTDEV s = a ∧
  ∀ bn, a_lock a bn = true → holds ROOTDEV bn (h bn) s.

Lemma related_step a h s s' order a' bn :
  related a h s → binv None s' order → abs ROOTDEV s' = a' →
  (∀ n, n ≠ bn → a_lock a' n = a_lock a n) → keeps ROOTDEV bn s s' →
  (a_lock a' bn = true → holds ROOTDEV bn (h bn) s') → related a' h s'.
Proof.
  intros (_ & Ha & Hh) Hi Ha' Hl [_ Hk] Hbn. split; [eauto|]. split; [done|].
  intros n Hn. destruct (decide (n = bn)) as [->|Hne]; [auto|]. apply Hk; [done|]. apply Hh. by rewrite <- Hl.
Qed.

Lemma wp_exec fuel o h (s : st) a :
  related a h s → legal a o →
  wp (exec fuel o h) (λ '(h', out) s', related (astep a o) h' s' ∧ out = aout a o) s.
Proof.
  intros Hrel Hleg. pose proof Hrel as ((order & Hinv) & Ha & Hh).
  destruct o as [bn|bn|bn data|bn|bn|bn|bn]; cbn [exec legal astep aout] in *.
  - apply wp_bind. eapply wp_bread; [exact Hinv|reflexivity|by rewrite Ha|].
    intros i s' Hi Hho Habs [Hc Hk] _. apply wp_ret. split; [|done]. rewrite Ha in Habs.
    split; [eauto|]. split; [done|]. intros n Hn. unfold upd. destruct (Z.eqb_spec n bn) as [->|]; [done|].
    apply Hk; [done|]. apply Hh. cbn [A_bread a_lock] in Hn. by rewrite upd_ne in Hn.
  - apply wp_bind, wp_gets, wp_ret. split; [done|].
    destruct (holds_lookup None ROOTDEV bn (h bn) s order Hinv ltac:(discriminate) (Hh bn Hleg)) as (E & _).
    by rewrite <- Ha, E.
  - destruct Hleg as [Hl Hlen]. apply wp_bind. eapply wp_set_data; [exact Hinv|reflexivity|by apply Hh|done|].
    intros s' Hi Hho Habs Hk. rewrite Ha in Habs. apply wp_ret. split; [|done].
    by eapply related_step.
  - apply wp_bind. eapply wp_bwrite; [exact Hinv|reflexivity|by apply Hh|].
    intros s' Hi Hho Habs Hk. rewrite Ha in Habs. apply wp_ret. split; [|done].
    by eapply related_step.
  - destruct Hleg as [Hl Hcl]. apply wp_bind.
    eapply wp_brelse; [exact Hinv|discriminate|reflexivity|by apply Hh|by rewrite Ha|].
    intros s' l1 l2 _ Hi Habs Hk _. rewrite Ha in Habs. apply wp_ret. split; [|done].
    eapply related_step; [exact Hrel|exact Hi|exact Habs| |exact Hk|].
    + intros n Hn. cbn [A_brelse a_lock]. by rewrite upd_ne.
    + cbn [A_brelse a_lock]. by rewrite upd_eq.
  - destruct Hleg as [Hl Hr]. apply wp_bind. unfold bpin.
    eapply wp_add_ref; [exact Hinv|reflexivity|by apply Hh|by rewrite Ha|].
    intros s' Hi Hho Habs Hk. rewrite Ha in Habs. apply wp_ret. split; [|done].
    by eapply related_step.
  - destruct Hleg as [Hl Hr]. apply wp_bind. unfold bunpin.
    change (λ x, set_refcnt (u32 (b_refcnt x - 1)) x) with (λ x, set_refcnt (u32 (b_refcnt x + -1)) x).
    eapply wp_add_ref; [exact Hinv|reflexivity|by apply Hh|rewrite Ha; lia|].
    intros s' Hi Hho Habs Hk. rewrite Ha in Habs. apply wp_ret. split; [|done].
    by eapply related_step.
Qed.

Lemma wp_exec_all fuel os h (s : st) a :
  related a h s → legal_run a os →
  wp (exec_all fuel os h) (λ outs s', (∃ h', related (arun a os) h' s') ∧ outs = aouts a os) s.
Proof.
  revert h s a. induction os as [|o os IH]; intros h s a Hrel Hleg; cbn [exec_all legal_run arun aouts] in *.
  - apply wp_ret. eauto.
  - destruct Hleg as [Hl Hleg]. apply wp_bind. eapply wp_mono; [by apply wp_exec|].
    intros [h' out] s' [Hrel' ->]. apply wp_bind. eapply wp_mono; [by apply IH|].
    intros outs s2 [Hr ->]. by apply wp_ret.
Qed.
End clients.

Section theorems.
Context {P D : Type} `{DriverOk P D}.
Abbreviation st := (bst P D).

#[local] Opaque abs.

(** The view right after boot. *)
Definition boot_view (s : st) : acache :=
  mkA (dv_block (b_d s)) (λ _, 0) (λ _, false) (dv_block (b_d s)) (dv_hist (b_d s)) NBUF.

(** C7: the buffer cache refines its specification. After binit() on zeroed buffers, any
    sequence of bread(), accesses to the data of held blocks, bwrite(), brelse(), bpin()
    and bunpin() that keeps to the rules returns without panicking or blocking, the
    clients read what the specification says (the last contents stored in the block, in
    the cache or on disk), and cache, disk and the history of disk writes end up as the
    specification says. *)
Theorem cache_refines fuel os h (s : st) :
  so_inv (b_p s) → dv_inv (b_d s) → (∀ i, in_cache i → bss_buf (bufs s i)) →
  legal_run (boot_view s) os →
  ∃ s', (binit;; exec_all fuel os h) s = Ret (aouts (boot_view s) os) s' ∧
    abs ROOTDEV s' = arun (boot_view s) os ∧ ∃ order, binv None s' order.
Proof.
  intros Hp Hd Hz Hleg.
  assert (Hwp : wp (binit;; exec_all fuel os h)
    (λ outs s', (∃ h', related (arun (boot_view s) os) h' s') ∧ outs = aouts (boot_view s) os) s).
  { apply wp_bind. apply wp_binit; [done..|]. intros s1 Hinv _ _ Habs _.
    apply wp_exec_all; [|done]. split; [eauto|]. split; [exact Habs|]. intros bn [=]. }
  apply wp_elim in Hwp as (outs & s' & E & (h' & Hi & Ha & _) & ->). eauto.
Qed.

(** bget() of a block that is not cached recycles, of the buffers nobody uses, the one at the
    end of the list, for the block asked for, with count 1, locked by the caller and marked
    not valid; every other buffer, the disk and the order of the list stay as they are. *)
Theorem bget_recycles_lru fuel (s : st) order dev bn :
  binv None s order → dev ≠ 0 → (∀ j, ¬ assigned (bufs s) dev bn j) →
  (∃ i, in_cache i ∧ b_refcnt (bufs s i) = 0) →
  ∃ i l1 l2 s', bget fuel dev bn s = Ret i s' ∧ order = l1 ++ i :: l2 ∧
    b_refcnt (bufs s i) = 0 ∧ (∀ y, y ∈ l2 → b_refcnt (bufs s y) ≠ 0) ∧
    assigned (bufs s') dev bn i ∧ b_refcnt (bufs s' i) = 1 ∧ b_valid (bufs s' i) = 0 ∧
    sl_held (so_id (b_p s)) (b_lock (bufs s' i)) ∧
    (∀ y, y ≠ i → bufs s' y = bufs s y) ∧ b_d s' = b_d s ∧ dll (bufs s') head order head.
Proof.
  intros Hinv Hdev Hna Hfree.
  eassert (Hwp : wp (bget fuel dev bn) _ s).
  { eapply (wp_bget fuel s order dev bn (λ i s', ∃ l1 l2 p', order = l1 ++ i :: l2 ∧ in_cache i ∧
      b_refcnt (bufs s i) = 0 ∧ (∀ y, y ∈ l2 → b_refcnt (bufs s y) ≠ 0) ∧
      s' = mkB p' (b_d s) (bc_lock s) (upd (bufs s) i (miss (so_id (b_p s)) dev bn (bufs s i))))); [done..| | | |].
    - intros i Hi. by apply Hna in Hi.
    - done.
    - intros i p' Hi. by apply Hna in Hi.
    - intros i p' l1 l2 _ -> Hi Hr Hl _. eauto 10. }
  apply wp_elim in Hwp as (i & s' & E & l1 & l2 & p' & Eo & Hi & Hr & Hl & ->).
  exists i, l1, l2. eexists. split; [exact E|]. cbn [bufs b_d]. unfold assigned. rewrite upd_eq. cbn.
  pose proof (bi_buf _ _ _ Hinv i Hi) as Hok. split_and!; try done.
  - split; [done|]. split; [done|]. apply Hok.
  - intros y Hy. by apply upd_ne.
  - eapply dll_ext; [| |exact (bi_dll _ _ _ Hinv)]; intros y _; unfold upd; by destruct (Z.eqb_spec y i) as [->|].
Qed.

(** brelse() of a block nobody else uses moves its buffer to the front of the list,
    so that it is recycled after all buffers released before it; while others use the block the
    list stays as it is. Either way the caller gives up the lock and its count. *)
Theorem brelse_most_recent (s : st) order bn i :
  binv None s order → holds ROOTDEV bn i s →
  (a_ref (abs ROOTDEV s) bn = 1 → a_content (abs ROOTDEV s) bn = a_disk (abs ROOTDEV s) bn) →
  ∃ s' l1 l2, brelse i s = Ret () s' ∧ order = l1 ++ i :: l2 ∧
    abs ROOTDEV s' = A_brelse (abs ROOTDEV s) bn ∧
    binv None s' (if b_refcnt (bufs s i) =? 1 then i :: l1 ++ l2 else order).
Proof.
  intros Hinv Hh Hcl.
  destruct (holds_lookup None ROOTDEV bn i s order Hinv ltac:(discriminate) Hh) as (_ & Er & _).
  eassert (Hwp : wp (brelse i) _ s).
  { eapply (wp_brelse None s order ROOTDEV bn i (λ _ s', ∃ l1 l2, order = l1 ++ i :: l2 ∧
      abs ROOTDEV s' = A_brelse (abs ROOTDEV s) bn ∧
      binv None s' (if a_ref (abs ROOTDEV s) bn =? 1 then i :: l1 ++ l2 else order)));
      [exact Hinv|discriminate|reflexivity|exact Hh|exact Hcl|].
    intros s' l1 l2 Eo Hi Ha _ _. eauto. }
  apply wp_elim in Hwp as ([] & s' & E & l1 & l2 & Eo & Ha & Hi). rewrite Er in Hi. eauto 10.
Qed.

(** bget() panics with no buffer left exactly when it should: for a block that is not cached,
    if every buffer is in use it panics, and otherwise it returns. *)
Theorem bget_panics_iff_full fuel (s : st) order dev bn :
  binv None s order → dev ≠ 0 → (∀ j, ¬ assigned (bufs s) dev bn j) →
  (∃ s', bget fuel dev bn s = Panic "bget: no buffers" s') ↔
  (∀ i, in_cache i → b_refcnt (bufs s i) ≠ 0).
Proof.
  intros Hinv Hdev Hna. pose proof Hinv as [Hp Hd Hlk Ho Hdll Hu Hb].
  pose proof (order_nodup _ Ho) as Hnd. apply NoDup_cons in Hnd as [Hh _]. split.
  - intros (s' & E) i Hi Hr.
    assert (Hwp : wp (bget fuel dev bn) (λ _ _, True) s).
    { eapply wp_bget; [done..| | |done|done]; [intros j Hj; by apply Hna in Hj|]. intros _. eauto. }
    unfold wp in Hwp. by rewrite E in Hwp.
  - intros Hfull. unfold bget.
    destruct (wp_elim (on_bcache acq) (λ _ s', bufs s' = bufs s) s) as ([] & s1 & E1 & Ef).
    { by apply wp_bcache_acq. }
    erewrite bind_Ret by exact E1. cbv beta. erewrite bind_Ret by reflexivity. cbv beta.
    destruct (wp_elim (bget_find (Z.to_nat NBUF) (b_next (bufs s1 head)) dev bn) (λ r s', r = None ∧ s' = s1) s1)
      as (? & ? & E2 & -> & ->).
    { eapply (wp_bget_find _ s1 head order); rewrite ?Ef; [done|done|by rewrite (order_length _ Ho)| |done].
      intros b Hin Ed En. exfalso. apply (Hna b). split; [by apply (order_in order)|done]. }
    erewrite bind_Ret by exact E2. cbv beta iota. erewrite bind_Ret by reflexivity. cbv beta.
    destruct (wp_elim (bget_lru (Z.to_nat NBUF) (b_prev (bufs s1 head))) (λ r s', r = None ∧ s' = s1) s1)
      as (? & ? & E3 & -> & ->).
    { eapply (wp_bget_lru _ s1 order); rewrite ?Ef; [done|done|by rewrite (order_length _ Ho)| |done].
      intros b l1 l2 Eo Hr _. exfalso. apply (Hfull b); [|done]. apply (order_in order); [done|]. rewrite Eo. set_solver. }
    erewrite bind_Ret by exact E3. by eexists.
Qed.
End theorems.

(** ** Witnesses: process 1 of [kst3] with a disk of zeroes *)
Definition zero_block : list Z := replicate (Z.to_nat BSIZE) 0.
Definition bst3 : bst kst mdisk :=
  mkB kst3 (mkMd (λ _, zero_block) []) (initlock "") (λ _, mkBuf 0 0 0 0 (initsleeplock "") 0 0 0 []).

Lemma bst3_bss i : in_cache i → bss_buf (bufs bst3 i).
Proof. done. Qed.

Lemma bst3_sched : so_inv (b_p bst3).
Proof. exact kst3_ok. Qed.

Lemma bst3_disk : dv_inv (b_d bst3).
Proof. intros n. apply length_replicate. Qed.

(** Block 40 is read, changed, written and released; then read again and looked at. *)
Definition ones : list Z := replicate (Z.to_nat BSIZE) 1.
Definition ops3 : list bop := [BRead 40; BSet 40 ones; BWrite 40; BRelse 40; BRead 40; BGet 40].

Lemma ops3_legal : legal_run (boot_view bst3) ops3.
Proof.
  cbn [ops3 legal_run legal]. split_and!; try reflexivity.
  - split; [reflexivity|reflexivity|intros _; reflexivity].
  - split; [reflexivity|reflexivity|intros _; reflexivity].
Qed.

Lemma cache_refines_witness :
  ∃ s', (binit;; exec_all 0 ops3 (λ _, 0)) bst3 = Ret [ones] s' ∧
        a_hist (abs ROOTDEV s') = [(40, ones)].
Proof.
  destruct (cache_refines 0 ops3 (λ _, 0) bst3 bst3_sched bst3_disk bst3_bss ops3_legal) as (s' & E & Ha & _).
  exists s'. split; [exact E|]. rewrite Ha. reflexivity.
Defined.

(** The same state after binit(). *)
Lemma boot3 : ∃ s : bst kst mdisk, binit bst3 = Ret () s ∧ binv None s (rev (seqZ 0 NBUF)) ∧
  b_p s = kst3 ∧ b_d s = b_d bst3 ∧ abs ROOTDEV s = boot_view bst3 ∧
  ∀ i, in_cache i → b_refcnt (bufs s i) = 0 ∧ b_dev (bufs s i) = 0.
Proof.
  assert (Hwp : wp binit (λ _ (s : bst kst mdisk), binv None s (rev (seqZ 0 NBUF)) ∧
    b_p s = kst3 ∧ b_d s = b_d bst3 ∧ abs ROOTDEV s = boot_view bst3 ∧
    ∀ i, in_cache i → b_refcnt (bufs s i) = 0 ∧ b_dev (bufs s i) = 0) bst3).
  { apply wp_binit; [exact bst3_sched|exact bst3_disk|exact bst3_bss|]. auto. }
  apply wp_elim in Hwp as ([] & s & E & Hs). exists s. auto.
Qed.

Lemma boot3_unassigned (s : bst kst mdisk) bn :
  (∀ i, in_cache i → b_refcnt (bufs s i) = 0 ∧ b_dev (bufs s i) = 0) → ∀ j, ¬ assigned (bufs s) ROOTDEV bn j.
Proof. intros Hb j (Hj & Ha & _). rewrite (proj2 (Hb j Hj)) in Ha. discriminate Ha. Qed.

Lemma bget_recycles_lru_witness :
  ∃ (s : bst kst mdisk) l1 i l2 s', bget 0 ROOTDEV 40 s = Ret i s' ∧ rev (seqZ 0 NBUF) = l1 ++ i :: l2.
Proof.
  destruct boot3 as (s & _ & Hinv & _ & _ & _ & Hb).
  destruct (bget_recycles_lru 0 s _ ROOTDEV 40 Hinv ltac:(discriminate) (boot3_unassigned s 40 Hb))
    as (i & l1 & l2 & s' & E & Eo & _).
  - exists 0. split; [unfold in_cache, NBUF, MAXOPBLOCKS; lia|]. apply Hb. unfold in_cache, NBUF, MAXOPBLOCKS. lia.
  - exists s, l1, i, l2, s'. split; [exact E|exact Eo].
Defined.

Lemma bget_panics_iff_full_witness :
  ∃ s : bst kst mdisk, ¬ ∃ s', bget 0 ROOTDEV 40 s = Panic "bget: no buffers" s'.
Proof.
  destruct boot3 as (s & _ & Hinv & _ & _ & _ & Hb). exists s. intros Hp.
  apply (bget_panics_iff_full 0 s _ ROOTDEV 40 Hinv ltac:(discriminate) (boot3_unassigned s 40 Hb)) with (i := 0) in Hp;
    [|unfold in_cache, NBUF, MAXOPBLOCKS; lia].
  apply Hp, Hb. unfold in_cache, NBUF, MAXOPBLOCKS. lia.
Defined.

Lemma brelse_most_recent_witness :
  ∃ (s s' : bst kst mdisk) i order, brelse i s = Ret () s' ∧ binv None s' order.
Proof.
  destruct boot3 as (s & _ & Hinv & _ & _ & Ha & _).
  assert (Hwp : wp (bread 0 ROOTDEV 40) (λ i s1, binv None s1 (rev (seqZ 0 NBUF)) ∧
     holds ROOTDEV 40 i s1 ∧ abs ROOTDEV s1 = A_bread (abs ROOTDEV s) 40) s).
  { eapply wp_bread; [exact Hinv|reflexivity|rewrite Ha; split; [reflexivity|reflexivity|intros _; reflexivity]|]. auto. }
  apply wp_elim in Hwp as (i & s1 & _ & Hi & Hh & Ha1).
  destruct (brelse_most_recent s1 _ 40 i Hi Hh) as (s' & l1 & l2 & E & _ & _ & Hi').
  - intros _. rewrite Ha1, Ha. reflexivity.
  - eexists _, _, _, _. split; [exact E|exact Hi'].
Defined.
