(* ===== verification/Log.v ===== *)
(** log.c: the write-ahead log.

    [lst] is the state of the log layer: the block layer and [struct log].  The array
    lh.block is a map on its indices; the C array has LOGSIZE entries.  [fuel] bounds
    how often a thread may be woken from sleep() and have to sleep again. *)
From S2P Require Import Prelude Machine Spinlock Sched Sleeplock Bio.

(** ** Integers in disk blocks *)
Definition lmem (data : list Z) : mem := λ a, nth (Z.to_nat a) data 0.
Definition ld32 (data : list Z) (off : Z) : Z := load32 (lmem data) off.

(** The [n] low bytes of [v] from offset [off] on. *)
Fixpoint st_bytes (n : nat) (data : list Z) (off v : Z) : list Z :=
  match n with
  | O => data
  | S n => st_bytes n (<[Z.to_nat off := v mod 256]> data) (off + 1) (v / 256)
  end.
Definition st32 (data : list Z) (off v : Z) : list Z := st_bytes 4 data off v.

(** memmove(dst, src, n) between two blocks' data *)
Definition blk_move (dst src : list Z) (n : Z) : list Z :=
  take (Z.to_nat n) src ++ drop (Z.to_nat n) dst.

(** sizeof(struct logheader): n and block[LOGSIZE] *)
Definition sizeof_logheader : Z := 4 + 4 * LOGSIZE.

(** The fields of struct superblock that initlog() reads. *)
Record sb_log := mkSbLog { sb_logstart : Z; sb_nlog : Z }.

Record lst (P D : Type) := mkL {
  l_b : bst P D;
  l_lock : spinlock;
  l_start : Z;
  l_size : Z;
  l_outstanding : Z;
  l_committing : Z;
  l_dev : Z;
  lh_n : Z;
  lh_block : Z → Z
}.
Arguments mkL {P D}.
Arguments l_b {P D}.
Arguments l_lock {P D}.
Arguments l_start {P D}.
Arguments l_size {P D}.
Arguments l_outstanding {P D}.
Arguments l_committing {P D}.
Arguments l_dev {P D}.
Arguments lh_n {P D}.
Arguments lh_block {P D}.

Section log.
Context {P D : Type} `{Sched P} `{!Driver P D}.
Abbreviation st := (lst P D).

Definition set_b v (s : st) : st :=
  mkL v (l_lock s) (l_start s) (l_size s) (l_outstanding s) (l_committing s) (l_dev s) (lh_n s) (lh_block s).
Definition set_llock v (s : st) : st :=
  mkL (l_b s) v (l_start s) (l_size s) (l_outstanding s) (l_committing s) (l_dev s) (lh_n s) (lh_block s).
Definition set_outstanding v (s : st) : st :=
  mkL (l_b s) (l_lock s) (l_start s) (l_size s) v (l_committing s) (l_dev s) (lh_n s) (lh_block s).
Definition set_committing v (s : st) : st :=
  mkL (l_b s) (l_lock s) (l_start s) (l_size s) (l_outstanding s) v (l_dev s) (lh_n s) (lh_block s).
Definition set_n v (s : st) : st :=
  mkL (l_b s) (l_lock s) (l_start s) (l_size s) (l_outstanding s) (l_committing s) (l_dev s) v (lh_block s).
Definition set_lhblock i v (s : st) : st :=
  mkL (l_b s) (l_lock s) (l_start s) (l_size s) (l_outstanding s) (l_committing s) (l_dev s) (lh_n s)
      (upd (lh_block s) i v).

Definition on_bio {A} (m : M (bst P D) A) : M st A := zoom l_b set_b m.
Definition on_llock {A} (m : M (P * spinlock) A) : M st A :=
  zoom (λ s, (b_p (l_b s), l_lock s))
       (λ '(p, lk) s, set_llock lk (set_b (mkB p (b_d (l_b s)) (bc_lock (l_b s)) (bufs (l_b s))) s)) m.
Definition on_wakeup (c : chan) : M st unit :=
  zoom (λ s, b_p (l_b s))
       (λ p s, set_b (mkB p (b_d (l_b s)) (bc_lock (l_b s)) (bufs (l_b s))) s) (sc_wakeup c).

(** memmove(dst->data, src->data, BSIZE) *)
Definition copy_data (dst src : Z) : M (bst P D) unit :=
  x ← getb src;
  y ← getb dst;
  put dst (set_data (blk_move (b_data y) (b_data x) BSIZE)).

(** install_trans() *)
Definition install_one (fuel : nat) (tail : Z) : M st unit :=
  s ← get;
  on_bio (
    lbuf ← bread fuel (l_dev s) (l_start s + tail + 1);
    dbuf ← bread fuel (l_dev s) (lh_block s tail);
    copy_data dbuf lbuf;;
    bwrite dbuf;;
    bunpin dbuf;;
    brelse lbuf;;
    brelse dbuf).

Fixpoint install_loop (fuel k : nat) (tail : Z) : M st unit :=
  match k with
  | O => mret ()
  | S k => install_one fuel tail;; install_loop fuel k (tail + 1)
  end.

Definition install_trans (fuel : nat) : M st unit :=
  n ← gets lh_n; install_loop fuel (Z.to_nat n) 0.

(** read_head() *)
Fixpoint read_head_loop (k : nat) (i : Z) (data : list Z) : M st unit :=
  match k with
  | O => mret ()
  | S k => modify (set_lhblock i (s32 (ld32 data (4 + 4 * i))));; read_head_loop k (i + 1) data
  end.

Definition read_head (fuel : nat) : M st unit :=
  s ← get;
  buf ← on_bio (bread fuel (l_dev s) (l_start s));
  x ← on_bio (getb buf);
  modify (set_n (s32 (ld32 (b_data x) 0)));;
  n ← gets lh_n;
  read_head_loop (Z.to_nat n) 0 (b_data x);;
  on_bio (brelse buf).

(** The header that write_head() puts in the buffer. *)
Fixpoint put_blocks (k : nat) (i : Z) (block : Z → Z) (data : list Z) : list Z :=
  match k with
  | O => data
  | S k => put_blocks k (i + 1) block (st32 data (4 + 4 * i) (block i))
  end.
Definition put_head (n : Z) (block : Z → Z) (data : list Z) : list Z :=
  put_blocks (Z.to_nat n) 0 block (st32 data 0 n).

(** write_head() *)
Definition write_head (fuel : nat) : M st unit :=
  s ← get;
  on_bio (
    buf ← bread fuel (l_dev s) (l_start s);
    x ← getb buf;
    put buf (set_data (put_head (lh_n s) (lh_block s) (b_data x)));;
    bwrite buf;;
    brelse buf).

(** recover_from_log() *)
Definition recover_from_log (fuel : nat) : M st unit :=
  read_head fuel;;
  install_trans fuel;;
  modify (set_n 0);;
  write_head fuel.

(** initlog() *)
Definition initlog (fuel : nat) (dev : Z) (sb : sb_log) : M st unit :=
  if BSIZE <=? sizeof_logheader then panic "initlog: too big logheader"
  else
    modify (λ s, mkL (l_b s) (initlock "log") (s32 (sb_logstart sb)) (s32 (sb_nlog sb))
                     (l_outstanding s) (l_committing s) dev (lh_n s) (lh_block s));;
    recover_from_log fuel.

(** begin_op() *)
Fixpoint begin_op_loop (fuel : nat) : M st unit :=
  s ← get;
  if negb (l_committing s =? 0) || (LOGSIZE <? lh_n s + (l_outstanding s + 1) * MAXOPBLOCKS) then
    match fuel with
    | O => no_fuel
    | S fuel => on_llock (sleep CLog);; begin_op_loop fuel
    end
  else
    modify (set_outstanding (l_outstanding s + 1));;
    on_llock rel.

Definition begin_op (fuel : nat) : M st unit := on_llock acq;; begin_op_loop fuel.

(** write_log() *)
Definition write_one (fuel : nat) (tail : Z) : M st unit :=
  s ← get;
  on_bio (
    to ← bread fuel (l_dev s) (l_start s + tail + 1);
    from ← bread fuel (l_dev s) (lh_block s tail);
    copy_data to from;;
    bwrite to;;
    brelse from;;
    brelse to).

Fixpoint write_loop (fuel k : nat) (tail : Z) : M st unit :=
  match k with
  | O => mret ()
  | S k => write_one fuel tail;; write_loop fuel k (tail + 1)
  end.

Definition write_log (fuel : nat) : M st unit :=
  n ← gets lh_n; write_loop fuel (Z.to_nat n) 0.

(** commit() *)
Definition commit (fuel : nat) : M st unit :=
  n ← gets lh_n;
  when_ (0 <? n)
    (write_log fuel;;
     write_head fuel;;
     install_trans fuel;;
     modify (set_n 0);;
     write_head fuel).

(** end_op() *)
Definition end_op (fuel : nat) : M st unit :=
  on_llock acq;;
  modify (λ s, set_outstanding (l_outstanding s - 1) s);;
  s ← get;
  if negb (l_committing s =? 0) then panic "log.committing"
  else
    do_commit ← (if l_outstanding s =? 0 then modify (set_committing 1);; mret true
                 else on_wakeup CLog;; mret false);
    on_llock rel;;
    when_ do_commit
      (commit fuel;;
       on_llock acq;;
       modify (set_committing 0);;
       on_wakeup CLog;;
       on_llock rel).

(** log_write(): the index of the block in the header, or n. *)
Fixpoint log_find (k : nat) (i : Z) (block : Z → Z) (blockno : Z) : Z :=
  match k with
  | O => i
  | S k => if block i =? blockno then i else log_find k (i + 1) block blockno
  end.

Definition log_write (b : Z) : M st unit :=
  s ← get;
  if (LOGSIZE <=? lh_n s) || (l_size s - 1 <=? lh_n s) then panic "too big a transaction"
  else if l_outstanding s <? 1 then panic "log_write outside of trans"
  else
    on_llock acq;;
    s ← get;
    let blockno := b_blockno (bufs (l_b s) b) in
    let i := log_find (Z.to_nat (lh_n s)) 0 (lh_block s) blockno in
    modify (set_lhblock i blockno);;
    when_ (i =? lh_n s) (on_bio (bpin b);; modify (λ s, set_n (lh_n s + 1) s));;
    on_llock rel.
End log.
