(* ===== verification/LogSpec.v ===== *)
(** The log (log.c) on the view of the buffer cache (BioSpec.v): which blocks the
    phases of commit() and of recovery write, and what they leave in the cache. *)
From Stdlib Require Import FunctionalExtensionality.
From S2P Require Import Prelude Machine Spinlock Sched Sleeplock Bio BioSpec Log.

(** A sequence of block writes on the contents of a disk. *)
Fixpoint apply_writes (w : list (Z * list Z)) (d : Z → list Z) : Z → list Z :=
  match w with
  | [] => d
  | (b, x) :: w => apply_writes w (upd d b x)
  end.

Lemma apply_writes_app w1 w2 d : apply_writes (w1 ++ w2) d = apply_writes w2 (apply_writes w1 d).
Proof. revert d. induction w1 as [|[b x] w1 IH]; intros d; simpl; auto. Qed.

(** The blocks in [w] have been changed in the cache and on disk, in this order; no
    lock is held that was not before. *)
Record wrote (a : acache) (w : list (Z * list Z)) (a' : acache) : Prop := {
  wr_content : a_content a' = apply_writes w (a_content a);
  wr_disk : a_disk a' = apply_writes w (a_disk a);
  wr_hist : a_hist a' = a_hist a ++ w;
  wr_lock : a_lock a' = a_lock a
}.

Lemma wrote_nil a : wrote a [] a.
Proof. split; [done..|by rewrite app_nil_r|done]. Qed.

Lemma wrote_trans a w1 a1 w2 a2 : wrote a w1 a1 → wrote a1 w2 a2 → wrote a (w1 ++ w2) a2.
Proof.
  intros [Hc1 Hd1 Hh1 Hl1] [Hc2 Hd2 Hh2 Hl2].
  split; rewrite ?apply_writes_app; [by rewrite Hc2, Hc1|by rewrite Hd2, Hd1| |congruence].
  by rewrite Hh2, Hh1, app_assoc.
Qed.

Section logspec.
Context {P D : Type} `{DriverOk P D}.
Abbreviation bst := (bst P D).
Abbreviation dev := ROOTDEV.

(** A block nobody uses reads as it is on disk. *)
Lemma unused_clean (s : bst) order bn :
  binv None s order → a_ref (abs dev s) bn = 0 → a_content (abs dev s) bn = a_disk (abs dev s) bn.
Proof.
  intros Hinv. cbn [abs a_ref a_content a_disk]. unfold blookup.
  destruct (bfind (bufs s) dev bn) as [i|] eqn:E; [|done]. simpl. intros Hr.
  apply bfind_Some in E as (Hi & _ & Hb). pose proof (bi_buf _ _ _ Hinv i Hi) as Hok.
  destruct (Z.eqb_spec (b_valid (bufs s i)) 0); [done|].
  assert (Hv : b_valid (bufs s i) = 1) by by destruct (bo_valid _ _ _ Hok).
  by rewrite (bo_clean _ _ _ Hok eq_refl Hr Hv), Hb.
Qed.

#[local] Opaque abs.

Lemma held_data (s : bst) order bn i :
  binv None s order → holds dev bn i s →
  b_data (bufs s i) = a_content (abs dev s) bn ∧ length (b_data (bufs s i)) = Z.to_nat BSIZE.
Proof.
  intros Hinv Hh. assert (Hd : dev ≠ 0) by done.
  destruct (holds_lookup _ _ _ _ _ _ Hinv Hd Hh) as (Ec & _).
  split; [done|]. destruct Hh as [(Hi & _) _ Hv _]. by apply (bi_buf _ _ _ Hinv i Hi).
Qed.

Lemma blk_move_all (d x : list Z) :
  length x = Z.to_nat BSIZE → length d = Z.to_nat BSIZE → blk_move d x BSIZE = x.
Proof.
  intros Hx Hd. unfold blk_move. rewrite <- Hx at 1. rewrite firstn_all, <- Hd, drop_all. apply app_nil_r.
Qed.

Lemma wp_copy_data (s : bst) order tb i fb j (Q : unit → bst → Prop) :
  binv None s order → holds dev tb i s → holds dev fb j s →
  (∀ s', binv None s' order → holds dev tb i s' →
     abs dev s' = A_set (abs dev s) tb (a_content (abs dev s) fb) → keeps dev tb s s' → Q () s') →
  wp (copy_data i j) Q s.
Proof.
  intros Hinv Hi Hj HQ. unfold copy_data.
  destruct (held_data s order tb i Hinv Hi) as [_ Li]. destruct (held_data s order fb j Hinv Hj) as [Ej Lj].
  apply wp_bind, wp_gets, wp_bind, wp_gets. rewrite blk_move_all, Ej by done.
  eapply wp_set_data; [exact Hinv|reflexivity|exact Hi|by rewrite <- Ej|done].
Qed.

(** ** One turn of write_log() *)
Definition copy_block (fuel : nat) (tb fb : Z) : M bst unit :=
  to ← bread fuel dev tb; from ← bread fuel dev fb;
  copy_data to from;; bwrite to;; brelse from;; brelse to.

Lemma wp_copy_block fuel (s : bst) order tb fb (Q : unit → bst → Prop) :
  let a := abs dev s in
  binv None s order → tb ≠ fb → a_lock a tb = false → a_lock a fb = false →
  a_ref a tb = 0 → 1 ≤ a_ref a fb < 2 ^ 32 - 1 → 0 < a_free a →
  (∀ s' order', binv None s' order' → wrote a [(tb, a_content a fb)] (abs dev s') →
     a_ref (abs dev s') = a_ref a → a_free (abs dev s') = a_free a → Q () s') →
  wp (copy_block fuel tb fb) Q s.
Proof.
  intros a Hinv Hne Hlt Hlf Hrt Hrf Hfree HQ. unfold copy_block.
  apply wp_bind. eapply wp_bread; [exact Hinv|reflexivity|constructor; [exact Hlt|fold a; lia|intros _; exact Hfree]|].
  intros i s1 Hi1 Hh1 E1 _ _. apply wp_bind.
  eapply wp_bread; [exact Hi1|reflexivity|rewrite E1; fold a; constructor;
    cbn [A_bread a_lock a_ref a_free]; rewrite ?upd_ne by done; [exact Hlf|lia|lia]|].
  intros j s2 Hi2 Hh2 E2 [_ K2] _. rewrite E1 in E2. apply K2 in Hh1; [|done].
  apply wp_bind. eapply wp_copy_data; [exact Hi2|exact Hh1|exact Hh2|].
  intros s3 Hi3 Hh3 E3 [_ K3]. rewrite E2 in E3. apply K3 in Hh2; [|done].
  apply wp_bind. eapply wp_bwrite; [exact Hi3|reflexivity|exact Hh3|].
  intros s4 Hi4 Hh4 E4 [_ K4]. rewrite E3 in E4. apply K4 in Hh2; [|done].
  fold a in E4. set (x := a_content (A_bread (A_bread (abs dev s) tb) fb) fb) in *.
  assert (Hx : x = a_content a fb) by done. clearbody x. subst x.
  assert (Rf : a_ref (abs dev s4) fb = a_ref a fb + 1).
  { rewrite E4. cbn [A_bwrite A_set A_bread a_ref]. by rewrite upd_eq, upd_ne. }
  apply wp_bind. eapply (wp_brelse None); [exact Hi4|done|reflexivity|exact Hh2|rewrite Rf; lia|].
  intros s5 l1 l2 _ Hi5 E5 [_ K5] _. apply K5 in Hh4; [|done]. rewrite E4 in E5.
  assert (Rt : a_ref (abs dev s5) tb = 1).
  { rewrite E5. cbn [A_brelse A_bwrite A_set A_bread a_ref]. rewrite !upd_ne, upd_eq by done. lia. }
  eapply (wp_brelse None); [exact Hi5|done|reflexivity|exact Hh4| |].
  { intros _. rewrite E5. cbn [A_brelse A_bwrite A_set A_bread a_content a_disk]. by rewrite !upd_eq. }
  intros s6 m1 m2 _ Hi6 E6 _ _. eapply HQ; [exact Hi6|..]; rewrite E6, E5;
    cbn [A_brelse A_bwrite A_set A_bread a_content a_disk a_ref a_lock a_hist a_free].
  - split; cbn [A_brelse A_bwrite A_set A_bread a_content a_disk a_hist a_lock apply_writes];
      rewrite ?upd_eq; try done.
    apply functional_extensionality. intros y. unfold upd.
    destruct (Z.eqb_spec y tb) as [->|]; [exact (eq_sym Hlt)|].
    destruct (Z.eqb_spec y fb) as [->|]; [exact (eq_sym Hlf)|done].
  - apply functional_extensionality. intros y. unfold upd. rewrite !Z.eqb_refl.
    destruct (Z.eqb_spec fb tb); [done|]. destruct (Z.eqb_spec tb fb); [done|].
    destruct (Z.eqb_spec y tb) as [->|]; [lia|]. destruct (Z.eqb_spec y fb) as [->|]; [lia|done].
  - rewrite Hrt. unfold upd. rewrite !Z.eqb_refl.
    destruct (Z.eqb_spec fb tb); [done|]. destruct (Z.eqb_spec tb fb); [done|].
    repeat zcmp; lia.
Qed.
(** ** One turn of install_trans() *)
Definition install_block (fuel : nat) (lb db : Z) : M bst unit :=
  lbuf ← bread fuel dev lb; dbuf ← bread fuel dev db;
  copy_data dbuf lbuf;; bwrite dbuf;; bunpin dbuf;; brelse lbuf;; brelse dbuf.

(** In commit() the home block is pinned. *)
Lemma wp_install_block fuel (s : bst) order lb db (Q : unit → bst → Prop) :
  let a := abs dev s in
  binv None s order → lb ≠ db → a_lock a lb = false → a_lock a db = false →
  a_ref a lb = 0 → 1 ≤ a_ref a db < 2 ^ 32 - 1 → 0 < a_free a →
  (∀ s' order', binv None s' order' → wrote a [(db, a_content a lb)] (abs dev s') →
     a_ref (abs dev s') = upd (a_ref a) db (a_ref a db - 1) →
     a_free (abs dev s') = (if a_ref a db =? 1 then a_free a + 1 else a_free a) → Q () s') →
  wp (install_block fuel lb db) Q s.
Proof.
  intros a Hinv Hne Hll Hld Hrl Hrd Hfree HQ. unfold install_block.
  pose proof (unused_clean s order lb Hinv Hrl) as Hcl. fold a in Hcl.
  apply wp_bind. eapply wp_bread; [exact Hinv|reflexivity|constructor; [exact Hll|fold a; lia|intros _; exact Hfree]|].
  intros i s1 Hi1 Hh1 E1 _ _. apply wp_bind.
  eapply wp_bread; [exact Hi1|reflexivity|rewrite E1; fold a; constructor;
    cbn [A_bread a_lock a_ref a_free]; rewrite ?upd_ne by done; [exact Hld|lia|lia]|].
  intros j s2 Hi2 Hh2 E2 [_ K2] _. rewrite E1 in E2. apply K2 in Hh1; [|done].
  apply wp_bind. eapply wp_copy_data; [exact Hi2|exact Hh2|exact Hh1|].
  intros s3 Hi3 Hh3 E3 [_ K3]. rewrite E2 in E3. apply K3 in Hh1; [|done].
  apply wp_bind. eapply wp_bwrite; [exact Hi3|reflexivity|exact Hh3|].
  intros s4 Hi4 Hh4 E4 [_ K4]. rewrite E3 in E4. apply K4 in Hh1; [|done]. fold a in E4.
  assert (Rd : a_ref (abs dev s4) db = a_ref a db + 1).
  { rewrite E4. cbn [A_bwrite A_set A_bread a_ref]. by rewrite upd_eq, upd_ne. }
  apply wp_bind. eapply (wp_add_ref s4 order dev db j (-1)); [exact Hi4|reflexivity|exact Hh4|rewrite Rd; lia|].
  intros s5 Hi5 Hh5 E5 [_ K5]. rewrite E4 in E5. apply K5 in Hh1; [|done].
  apply wp_bind. eapply (wp_brelse None); [exact Hi5|done|reflexivity|exact Hh1| |].
  { intros _. rewrite E5. cbn [A_pin A_bwrite A_set A_bread a_content a_disk]. rewrite !upd_ne by done. exact Hcl. }
  intros s6 l1 l2 _ Hi6 E6 [_ K6] _. rewrite E5 in E6. apply K6 in Hh5; [|done].
  eapply (wp_brelse None); [exact Hi6|done|reflexivity|exact Hh5| |].
  { intros _. rewrite E6. cbn [A_brelse A_pin A_bwrite A_set A_bread a_content a_disk]. by rewrite !upd_eq. }
  intros s7 m1 m2 _ Hi7 E7 _ _. eapply HQ; [exact Hi7|..]; rewrite E7, E6;
    cbn [A_brelse A_pin A_bwrite A_set A_bread a_content a_disk a_ref a_lock a_hist a_free].
  - split; cbn [A_brelse A_pin A_bwrite A_set A_bread a_content a_disk a_hist a_lock apply_writes];
      rewrite ?upd_eq; try done.
    apply functional_extensionality. intros y. unfold upd.
    destruct (Z.eqb_spec y db) as [->|]; [exact (eq_sym Hld)|].
    destruct (Z.eqb_spec y lb) as [->|]; [exact (eq_sym Hll)|done].
  - apply functional_extensionality. intros y. unfold upd. rewrite !Z.eqb_refl.
    destruct (Z.eqb_spec lb db); [done|]. destruct (Z.eqb_spec db lb); [done|].
    destruct (Z.eqb_spec y db) as [->|]; [lia|]. destruct (Z.eqb_spec y lb) as [->|]; [lia|done].
  - rewrite Hrl. unfold upd. rewrite !Z.eqb_refl.
    destruct (Z.eqb_spec lb db); [done|]. destruct (Z.eqb_spec db lb); [done|].
    repeat zcmp; lia.
Qed.

(** In recovery it is not: its buffer is left with a count of 2^32 - 1. *)
Lemma wp_install_block_recover fuel (s : bst) order lb db (Q : unit → bst → Prop) :
  let a := abs dev s in
  binv None s order → lb ≠ db → a_lock a lb = false → a_lock a db = false →
  a_ref a lb = 0 → a_ref a db = 0 → 1 < a_free a →
  (∀ s' order', binv None s' order' → wrote a [(db, a_content a lb)] (abs dev s') →
     a_ref (abs dev s') = upd (a_ref a) db (2 ^ 32 - 1) →
     a_free (abs dev s') = a_free a - 1 → Q () s') →
  wp (install_block fuel lb db) Q s.
Proof.
  intros a Hinv Hne Hll Hld Hrl Hrd Hfree HQ. unfold install_block.
  pose proof (unused_clean s order lb Hinv Hrl) as Hcl. fold a in Hcl.
  apply wp_bind. eapply wp_bread; [exact Hinv|reflexivity|constructor; [exact Hll|fold a; lia|fold a; lia]|].
  intros i s1 Hi1 Hh1 E1 _ _. apply wp_bind.
  eapply wp_bread; [exact Hi1|reflexivity|rewrite E1; fold a; constructor;
    cbn [A_bread a_lock a_ref a_free]; rewrite ?upd_ne, ?Hrl by done; [exact Hld|lia|simpl; lia]|].
  intros j s2 Hi2 Hh2 E2 [_ K2] _. rewrite E1 in E2. apply K2 in Hh1; [|done].
  apply wp_bind. eapply wp_copy_data; [exact Hi2|exact Hh2|exact Hh1|].
  intros s3 Hi3 Hh3 E3 [_ K3]. rewrite E2 in E3. apply K3 in Hh1; [|done].
  apply wp_bind. eapply wp_bwrite; [exact Hi3|reflexivity|exact Hh3|].
  intros s4 Hi4 Hh4 E4 [_ K4]. rewrite E3 in E4. apply K4 in Hh1; [|done]. fold a in E4.
  apply wp_bind. eapply (wp_bunpin_stray s4 order dev db j); [exact Hi4|reflexivity|exact Hh4| |].
  { rewrite E4. cbn [A_bwrite A_set A_bread a_ref]. rewrite upd_eq, upd_ne by done. lia. }
  intros s5 Hi5 Hy5 Ec5 Ed5 Ehh5 Er5 El5 Ef5 [_ K5]. apply K5 in Hh1; [|done].
  assert (Hij : Some j ≠ Some i).
  { intros [= ->]. apply Hne. destruct Hh1 as [(_ & _ & <-) _ _ _], Hy5 as [(_ & _ & <-) _ _ _]. done. }
  apply wp_bind. eapply (wp_brelse (Some j)); [exact Hi5| |reflexivity|exact Hh1| |].
  { exact Hij. }
  { intros _. rewrite Ec5, Ed5, E4. cbn [A_bwrite A_set A_bread a_content a_disk].
    rewrite !upd_ne by done. exact Hcl. }
  intros s6 l1 l2 _ Hi6 E6 [Hc6 _] Hn6.
  assert (Hy6 : stray dev db j s6) by (eapply stray_nolinks; [exact Hy5|exact Hc6|apply Hn6; congruence]).
  eapply (wp_brelse_stray s6 _ dev db j); [exact Hi6|reflexivity|exact Hy6|].
  intros s7 Hi7 Ec7 Ed7 Ehh7 Er7 El7 Ef7 _. eapply HQ; [exact Hi7|..].
  - rewrite E6 in *. cbn [A_brelse a_content a_disk a_hist a_lock] in *. rewrite E4 in *.
    split; rewrite ?Ec7, ?Ed7, ?Ehh7, ?El7, ?Ec5, ?Ed5, ?Ehh5, ?El5;
      cbn [A_bwrite A_set A_bread a_content a_disk a_hist a_lock apply_writes]; rewrite ?upd_eq; try done.
    apply functional_extensionality. intros y. unfold upd.
    destruct (Z.eqb_spec y db) as [->|]; [exact (eq_sym Hld)|].
    destruct (Z.eqb_spec y lb) as [->|]; [exact (eq_sym Hll)|done].
  - rewrite Er7, E6. cbn [A_brelse a_ref]. rewrite Er5, E4. cbn [A_bwrite A_set A_bread a_ref].
    apply functional_extensionality. intros y. unfold upd. rewrite !Z.eqb_refl.
    destruct (Z.eqb_spec lb db); [done|].
    destruct (Z.eqb_spec y db) as [->|]; [done|]. destruct (Z.eqb_spec y lb) as [->|]; [lia|done].
  - rewrite Ef7, E6. cbn [A_brelse a_free]. rewrite Er5, Ef5, E4. cbn [A_bwrite A_set A_bread a_ref a_free].
    unfold upd. rewrite !Z.eqb_refl. destruct (Z.eqb_spec lb db); [done|]. destruct (Z.eqb_spec db lb); [done|].
    repeat zcmp; lia.
Qed.
(** ** The header block *)
Lemma wp_update_block fuel (s : bst) order bn (f : list Z → list Z) (Q : unit → bst → Prop) :
  let a := abs dev s in
  binv None s order → a_lock a bn = false → a_ref a bn = 0 → 0 < a_free a →
  (∀ x, length x = Z.to_nat BSIZE → length (f x) = Z.to_nat BSIZE) →
  (∀ s' order', binv None s' order' → wrote a [(bn, f (a_content a bn))] (abs dev s') →
     a_ref (abs dev s') = a_ref a → a_free (abs dev s') = a_free a → Q () s') →
  wp (b ← bread fuel dev bn; x ← getb b; put b (set_data (f (b_data x)));; bwrite b;; brelse b) Q s.
Proof.
  intros a Hinv Hl Hr Hfree Hlen HQ.
  apply wp_bind. eapply wp_bread; [exact Hinv|reflexivity|constructor; [exact Hl|fold a; lia|intros _; exact Hfree]|].
  intros i s1 Hi1 Hh1 E1 _ _. apply wp_bind, wp_gets.
  destruct (held_data s1 order bn i Hi1 Hh1) as [Ed Ld].
  apply wp_bind. eapply wp_set_data; [exact Hi1|reflexivity|exact Hh1|by apply Hlen|].
  intros s2 Hi2 Hh2 E2 _. rewrite Ed, E1 in E2. fold a in E2. cbn [A_bread a_content] in E2.
  apply wp_bind. eapply wp_bwrite; [exact Hi2|reflexivity|exact Hh2|].
  intros s3 Hi3 Hh3 E3 _. rewrite E2 in E3.
  eapply (wp_brelse None); [exact Hi3|done|reflexivity|exact Hh3| |].
  { intros _. rewrite E3. cbn [A_bwrite A_set a_content a_disk]. by rewrite !upd_eq. }
  intros s4 l1 l2 _ Hi4 E4 _ _. eapply HQ; [exact Hi4|..]; rewrite E4, E3;
    cbn [A_brelse A_bwrite A_set A_bread a_content a_disk a_ref a_lock a_hist a_free].
  - split; cbn [A_brelse A_bwrite A_set A_bread a_content a_disk a_hist a_lock apply_writes];
      rewrite ?upd_eq; try done. rewrite !upd_upd. apply upd_idem. exact Hl.
  - rewrite !upd_upd, !upd_eq. apply upd_idem. lia.
  - rewrite upd_eq, Hr. simpl. lia.
Qed.

Lemma wp_read_block {A} fuel (s : bst) order bn (f : list Z → A) (Q : A → bst → Prop) :
  let a := abs dev s in
  binv None s order → a_lock a bn = false → a_ref a bn = 0 → 0 < a_free a →
  (∀ s' order', binv None s' order' → abs dev s' = a → Q (f (a_content a bn)) s') →
  wp (b ← bread fuel dev bn; x ← getb b; brelse b;; mret (f (b_data x))) Q s.
Proof.
  intros a Hinv Hl Hr Hfree HQ. pose proof (unused_clean s order bn Hinv Hr) as Hcl. fold a in Hcl.
  apply wp_bind. eapply wp_bread; [exact Hinv|reflexivity|constructor; [exact Hl|fold a; lia|intros _; exact Hfree]|].
  intros i s1 Hi1 Hh1 E1 _ _. apply wp_bind, wp_gets.
  destruct (held_data s1 order bn i Hi1 Hh1) as [Ed Ld]. rewrite Ed, E1. fold a. cbn [A_bread a_content].
  apply wp_bind. eapply (wp_brelse None); [exact Hi1|done|reflexivity|exact Hh1| |].
  { intros _. rewrite E1. exact Hcl. }
  intros s2 l1 l2 _ Hi2 E2 _ _. apply wp_ret. eapply HQ; [exact Hi2|]. rewrite E2, E1. fold a.
  unfold A_brelse, A_bread. cbn [a_content a_disk a_ref a_lock a_hist a_free].
  destruct a as [c r l d h fr]. cbn [a_content a_disk a_ref a_lock a_hist a_free] in *.
  rewrite !upd_upd, !upd_eq, Hr. f_equal.
  - by apply upd_idem.
  - by apply upd_idem.
  - simpl. lia.
Qed.
End logspec.

(** ** Headers *)
Lemma lmem_insert data i x a :
  0 ≤ i < Z.of_nat (length data) → 0 ≤ a →
  lmem (<[Z.to_nat i := x]> data) a = if a =? i then x else lmem data a.
Proof.
  intros Hi Ha. unfold lmem. destruct (Z.eqb_spec a i) as [->|Hne].
  - apply nth_lookup_Some. apply list_lookup_insert_eq. lia.
  - rewrite !nth_lookup. rewrite list_lookup_insert_ne by lia. done.
Qed.

Lemma length_st_bytes n data off v : length (st_bytes n data off v) = length data.
Proof. revert data off v. induction n as [|n IH]; intros; simpl; [done|]. by rewrite IH, length_insert. Qed.

Lemma st_bytes_out n data off v a :
  0 ≤ off → off + Z.of_nat n ≤ Z.of_nat (length data) → 0 ≤ a → ¬ (off ≤ a < off + Z.of_nat n) →
  lmem (st_bytes n data off v) a = lmem data a.
Proof.
  revert data off v. induction n as [|n IH]; intros data off v Ho Hl Ha Hn; simpl; [done|].
  rewrite IH by (rewrite ?length_insert; lia). rewrite lmem_insert by lia.
  destruct (Z.eqb_spec a off); [lia|done].
Qed.

Lemma load_st_bytes n data off v :
  0 ≤ off → off + Z.of_nat n ≤ Z.of_nat (length data) →
  load n (lmem (st_bytes n data off v)) off = v mod 2 ^ (8 * Z.of_nat n).
Proof.
  revert data off v. induction n as [|n IH]; intros data off v Ho Hl.
  { simpl. by rewrite Z.mod_1_r. }
  cbn [load st_bytes]. rewrite IH by (rewrite ?length_insert; lia).
  rewrite st_bytes_out by (rewrite ?length_insert; lia). rewrite lmem_insert by lia. rewrite Z.eqb_refl.
  replace (8 * Z.of_nat (S n)) with (8 + 8 * Z.of_nat n) by lia. rewrite Z.pow_add_r by lia.
  change (2 ^ 8) with 256. rewrite Z.rem_mul_r by (lia || (apply Z.pow_pos_nonneg; lia)). done.
Qed.

Lemma ld32_st32_eq data off v :
  0 ≤ off → off + 4 ≤ Z.of_nat (length data) → ld32 (st32 data off v) off = u32 v.
Proof. intros. unfold ld32, st32, load32. rewrite load_st_bytes by (simpl; lia). done. Qed.

Lemma ld32_st32_ne data off off' v :
  0 ≤ off → off + 4 ≤ Z.of_nat (length data) → 0 ≤ off' → off' + 4 ≤ off ∨ off + 4 ≤ off' →
  ld32 (st32 data off v) off' = ld32 data off'.
Proof.
  intros. unfold ld32, st32, load32. apply load_ext. intros x Hx. apply st_bytes_out; simpl in *; lia.
Qed.

Lemma length_st32 data off v : length (st32 data off v) = length data.
Proof. apply length_st_bytes. Qed.

Lemma length_put_blocks k i block data : length (put_blocks k i block data) = length data.
Proof.
  revert i data. induction k as [|k IH]; intros; simpl; [done|]. rewrite IH. apply length_st32.
Qed.

Lemma length_put_head n block data : length (put_head n block data) = length data.
Proof. unfold put_head. rewrite length_put_blocks. apply length_st32. Qed.

Lemma put_blocks_out k i block data off :
  0 ≤ i → 4 + 4 * (i + Z.of_nat k) ≤ Z.of_nat (length data) → 0 ≤ off → off + 4 ≤ 4 + 4 * i →
  ld32 (put_blocks k i block data) off = ld32 data off.
Proof.
  revert i data. induction k as [|k IH]; intros i data Hi Hl Ho Hb; simpl; [done|].
  rewrite IH by (rewrite ?length_st32; lia). apply ld32_st32_ne; lia.
Qed.

Lemma put_blocks_in k i block data j :
  0 ≤ i → 4 + 4 * (i + Z.of_nat k) ≤ Z.of_nat (length data) → i ≤ j < i + Z.of_nat k →
  ld32 (put_blocks k i block data) (4 + 4 * j) = u32 (block j).
Proof.
  revert i data. induction k as [|k IH]; intros i data Hi Hl Hj; [lia|]. cbn [put_blocks].
  destruct (Z.eqb_spec j i) as [->|].
  - rewrite put_blocks_out by (rewrite ?length_st32; lia). apply ld32_st32_eq; lia.
  - apply IH; rewrite ?length_st32; lia.
Qed.

(** What read_head() finds in a header that write_head() wrote. *)
Lemma put_head_n n block data :
  0 ≤ n ≤ LOGSIZE → length data = Z.to_nat BSIZE → s32 (ld32 (put_head n block data) 0) = n.
Proof.
  intros Hn Hl. unfold put_head. unfold LOGSIZE, MAXOPBLOCKS, BSIZE in *.
  rewrite put_blocks_out by (rewrite ?length_st32, ?Hl; lia).
  rewrite ld32_st32_eq by (rewrite ?Hl; lia). rewrite u32_small by lia. apply s32_small. lia.
Qed.

Lemma put_head_block n block data j :
  0 ≤ n ≤ LOGSIZE → length data = Z.to_nat BSIZE → 0 ≤ j < n → 0 ≤ block j < 2 ^ 31 →
  s32 (ld32 (put_head n block data) (4 + 4 * j)) = block j.
Proof.
  intros Hn Hl Hj Hb. unfold put_head. unfold LOGSIZE, MAXOPBLOCKS, BSIZE in *.
  rewrite put_blocks_in by (rewrite ?length_st32, ?Hl; lia).
  rewrite u32_small by lia. apply s32_small. lia.
Qed.
