(* ===== verification/LogCrash.v ===== *)
(** Crash safety of the log (log.c): whatever prefix of commit()'s disk writes reaches
    the disk, recovery at the next boot leaves the file system as before the transaction
    or as after it. *)
From Stdlib Require Import FunctionalExtensionality.
From S2P Require Import Prelude Machine Spinlock Sched Sleeplock Bio BioSpec Log LogSpec.

(** The writes of write_log() and of install_trans(), for the [k] blocks from index [t];
    [c] gives the contents of blocks in the cache. *)
Fixpoint log_writes (k : nat) (t : Z) (c : Z → list Z) (start : Z) (block : Z → Z) : list (Z * list Z) :=
  match k with
  | O => []
  | S k => (start + t + 1, c (block t)) :: log_writes k (t + 1) c start block
  end.
Fixpoint home_writes (k : nat) (t : Z) (c : Z → list Z) (start : Z) (block : Z → Z) : list (Z * list Z) :=
  match k with
  | O => []
  | S k => (block t, c (start + t + 1)) :: home_writes k (t + 1) c start block
  end.

Lemma log_writes_ext k t c c' start block :
  (∀ j, t ≤ j < t + Z.of_nat k → c' (block j) = c (block j)) →
  log_writes k t c' start block = log_writes k t c start block.
Proof.
  revert t. induction k as [|k IH]; intros t Hc; simpl; [done|]. rewrite Hc by lia.
  rewrite IH; [done|]. intros j Hj. apply Hc. lia.
Qed.

Lemma home_writes_ext k t c c' start block block' :
  (∀ j, t ≤ j < t + Z.of_nat k → c' (start + j + 1) = c (start + j + 1) ∧ block' j = block j) →
  home_writes k t c' start block' = home_writes k t c start block.
Proof.
  revert t. induction k as [|k IH]; intros t Hc; simpl; [done|].
  destruct (Hc t) as [-> ->]; [lia|]. rewrite IH; [done|]. intros j Hj. apply Hc. lia.
Qed.

Lemma apply_log_out k t c start block d b :
  ¬ (start + t < b ≤ start + t + Z.of_nat k) → apply_writes (log_writes k t c start block) d b = d b.
Proof.
  revert t d. induction k as [|k IH]; intros t d Hb; cbn [log_writes apply_writes]; [done|].
  rewrite IH by lia. apply upd_ne. lia.
Qed.

Lemma apply_log_in k t c start block d j :
  t ≤ j < t + Z.of_nat k → apply_writes (log_writes k t c start block) d (start + j + 1) = c (block j).
Proof.
  revert t d. induction k as [|k IH]; intros t d Hj; cbn [log_writes apply_writes]; [lia|].
  destruct (Z.eqb_spec j t) as [->|]; [|apply IH; lia].
  rewrite apply_log_out by lia. apply upd_eq.
Qed.

Lemma apply_home_out k t c start block d b :
  (∀ j, t ≤ j < t + Z.of_nat k → block j ≠ b) → apply_writes (home_writes k t c start block) d b = d b.
Proof.
  revert t d. induction k as [|k IH]; intros t d Hb; cbn [home_writes apply_writes]; [done|].
  rewrite IH by (intros; apply Hb; lia). apply upd_ne. intros E. apply (Hb t); [lia|done].
Qed.

Lemma apply_home_in k t c start block d j :
  (∀ i j, t ≤ i < t + Z.of_nat k → t ≤ j < t + Z.of_nat k → block i = block j → i = j) →
  t ≤ j < t + Z.of_nat k →
  apply_writes (home_writes k t c start block) d (block j) = c (start + j + 1).
Proof.
  revert t d. induction k as [|k IH]; intros t d Hinj Hj; cbn [home_writes apply_writes]; [lia|].
  destruct (Z.eqb_spec j t) as [->|].
  - rewrite apply_home_out; [apply upd_eq|]. intros i Hi E. apply Hinj in E; lia.
  - apply IH; [|lia]. intros i i' Hi Hi'. apply Hinj; lia.
Qed.

(** What is on disk when a transaction of the blocks [block 0 .. block (n-1)] with log
    at [start] is to be committed: the blocks are different, and none is in the log, whose
    LOGSIZE blocks are a header and at most LOGSIZE - 1 others. *)
Record trans_ok (start n : Z) (block : Z → Z) : Prop := {
  tx_n : 0 ≤ n < LOGSIZE;
  tx_inj : ∀ i j, 0 ≤ i < n → 0 ≤ j < n → block i = block j → i = j;
  tx_range : ∀ j, 0 ≤ j < n → 0 ≤ block j < 2 ^ 31;
  tx_home : ∀ j, 0 ≤ j < n → ¬ (start ≤ block j < start + LOGSIZE)
}.

(** The cache at that time: nobody uses the log's blocks, the transaction's are pinned. *)
Record cache_ok (a : acache) (start n : Z) (block : Z → Z) : Prop := {
  ca_log : ∀ j, 0 ≤ j ≤ n → a_lock a (start + j) = false ∧ a_ref a (start + j) = 0;
  ca_home : ∀ j, 0 ≤ j < n → a_lock a (block j) = false ∧ 1 ≤ a_ref a (block j) < 2 ^ 32 - 1;
  ca_free : 0 < a_free a
}.

Section crash.
Context {P D : Type} `{DriverOk P D}.
Abbreviation bst := (bst P D).
Abbreviation lst := (lst P D).
Abbreviation dev := ROOTDEV.

Definition view (s : lst) : acache := abs dev (l_b s).

#[local] Opaque abs.

Lemma wp_write_loop fuel k t (s : lst) order (Q : unit → lst → Prop) :
  let a := view s in
  binv None (l_b s) order → l_dev s = dev → trans_ok (l_start s) (lh_n s) (lh_block s) →
  cache_ok a (l_start s) (lh_n s) (lh_block s) → 0 ≤ t → t + Z.of_nat k ≤ lh_n s →
  (∀ b' order', binv None b' order' →
     wrote a (log_writes k t (a_content a) (l_start s) (lh_block s)) (abs dev b') →
     a_ref (abs dev b') = a_ref a → a_free (abs dev b') = a_free a → Q () (set_b b' s)) →
  wp (write_loop fuel k t) Q s.
Proof.
  revert t s order. induction k as [|k IH]; intros t s order a Hinv Hdev Htx Hca Ht Hk HQ; cbn [write_loop].
  { apply wp_ret. specialize (HQ (l_b s) order). replace (set_b (l_b s) s) with s in HQ by by destruct s.
    apply HQ; [done|apply wrote_nil|done..]. }
  pose proof (tx_n _ _ _ Htx) as Hn. destruct (ca_log _ _ _ _ Hca (t + 1)) as [Hl1 Hr1]; [lia|].
  destruct (ca_home _ _ _ _ Hca t) as [Hl2 Hr2]; [lia|].
  pose proof (tx_home _ _ _ Htx t ltac:(lia)) as Hnl.
  apply wp_bind. unfold write_one. apply wp_bind, wp_get, wp_zoom. rewrite Hdev.
  fold (copy_block fuel (l_start s + t + 1) (lh_block s t)).
  rewrite Z.add_assoc in Hl1, Hr1.
  eapply (wp_copy_block fuel (l_b s) order);
    [exact Hinv|lia|exact Hl1|exact Hl2|exact Hr1|exact Hr2|exact (ca_free _ _ _ _ Hca)|].
  intros b1 order1 Hi1 Hw1 Er1 Ef1. fold (view s) in Hw1, Er1, Ef1. fold a in Hw1, Er1, Ef1.
  eapply (IH (t + 1) (set_b b1 s) order1); [exact Hi1|exact Hdev|exact Htx| |lia|cbn [set_b lh_n]; lia|];
    unfold view; cbn [set_b l_b l_dev l_start lh_n lh_block].
  - destruct Hca as [C1 C2 C3].
    split; rewrite ?(wr_lock _ _ _ Hw1), ?Er1, ?Ef1; done.
  - intros b2 order2 Hi2 Hw2 Er2 Ef2. apply (HQ b2 order2 Hi2); [|congruence|congruence].
    cbn [log_writes]. apply (wrote_trans _ [_] _ _ _ Hw1).
    rewrite (log_writes_ext _ _ (a_content a)) in Hw2.
    + exact Hw2.
    + intros j Hj. rewrite (wr_content _ _ _ Hw1). cbn [apply_writes]. apply upd_ne.
      pose proof (tx_home _ _ _ Htx j). lia.
Qed.
(** install_trans() in commit(): every home block is unpinned. *)
Lemma wp_install_loop fuel k t (s : lst) order (Q : unit → lst → Prop) :
  let a := view s in
  binv None (l_b s) order → l_dev s = dev → trans_ok (l_start s) (lh_n s) (lh_block s) →
  (∀ j, 0 ≤ j ≤ lh_n s → a_lock a (l_start s + j) = false ∧ a_ref a (l_start s + j) = 0) →
  (∀ j, t ≤ j < t + Z.of_nat k →
     a_lock a (lh_block s j) = false ∧ 1 ≤ a_ref a (lh_block s j) < 2 ^ 32 - 1) →
  0 < a_free a → 0 ≤ t → t + Z.of_nat k ≤ lh_n s →
  (∀ b' order', binv None b' order' →
     wrote a (home_writes k t (a_content a) (l_start s) (lh_block s)) (abs dev b') →
     (∀ b, (∀ j, t ≤ j < t + Z.of_nat k → lh_block s j ≠ b) → a_ref (abs dev b') b = a_ref a b) →
     (∀ j, t ≤ j < t + Z.of_nat k → a_ref (abs dev b') (lh_block s j) = a_ref a (lh_block s j) - 1) →
     0 < a_free (abs dev b') →
     ((∀ j, t ≤ j < t + Z.of_nat k → a_ref a (lh_block s j) = 1) → a_free (abs dev b') = a_free a + Z.of_nat k) →
     Q () (set_b b' s)) →
  wp (install_loop fuel k t) Q s.
Proof.
  revert t s order. induction k as [|k IH]; intros t s order a Hinv Hdev Htx Hlog Hhome Hfree Ht Hk HQ;
    cbn [install_loop].
  { apply wp_ret. specialize (HQ (l_b s) order). replace (set_b (l_b s) s) with s in HQ by by destruct s.
    apply HQ; [done|apply wrote_nil|done|lia|done|]. intros _. fold (view s). fold a. lia. }
  pose proof (tx_n _ _ _ Htx) as Hn. destruct (Hlog (t + 1)) as [Hl1 Hr1]; [lia|].
  destruct (Hhome t) as [Hl2 Hr2]; [lia|]. pose proof (tx_home _ _ _ Htx) as Hnl.
  apply wp_bind. unfold install_one. apply wp_bind, wp_get, wp_zoom. rewrite Hdev.
  fold (install_block fuel (l_start s + t + 1) (lh_block s t)).
  rewrite Z.add_assoc in Hl1, Hr1.
  eapply (wp_install_block fuel (l_b s) order);
    [exact Hinv|specialize (Hnl t); lia|exact Hl1|exact Hl2|exact Hr1|exact Hr2|exact Hfree|].
  intros b1 order1 Hi1 Hw1 Er1 Ef1. fold (view s) in Hw1, Er1, Ef1. fold a in Hw1, Er1, Ef1.
  assert (Hneq : ∀ j, t + 1 ≤ j < t + 1 + Z.of_nat k → lh_block s j ≠ lh_block s t).
  { intros j Hj E. apply (tx_inj _ _ _ Htx) in E; lia. }
  eapply (IH (t + 1) (set_b b1 s) order1); [exact Hi1|exact Hdev|exact Htx| | | |lia|cbn [set_b lh_n]; lia|];
    unfold view; cbn [set_b l_b l_dev l_start lh_n lh_block].
  - intros j Hj. rewrite (wr_lock _ _ _ Hw1), Er1, upd_ne; [by apply Hlog|]. specialize (Hnl t). lia.
  - intros j Hj. rewrite (wr_lock _ _ _ Hw1), Er1, upd_ne; [apply Hhome; lia|]. by apply Hneq.
  - rewrite Ef1. destruct (_ =? _); lia.
  - intros b2 order2 Hi2 Hw2 Ha2 Hb2 Hf2 Hx2. apply (HQ b2 order2 Hi2); [| | |done|].
    + cbn [home_writes]. apply (wrote_trans _ [_] _ _ _ Hw1).
      rewrite (home_writes_ext _ _ (a_content a) _ _ (lh_block s)) in Hw2; [exact Hw2|].
      intros j Hj. split; [|done]. rewrite (wr_content _ _ _ Hw1). cbn [apply_writes]. apply upd_ne.
      specialize (Hnl t). unfold LOGSIZE, MAXOPBLOCKS in *. lia.
    + intros b Hb. rewrite Ha2 by (intros; apply Hb; lia). rewrite Er1. apply upd_ne.
      intros ->. apply (Hb t); [lia|done].
    + intros j Hj. destruct (Z.eqb_spec j t) as [->|].
      * rewrite Ha2 by (intros; by apply Hneq). rewrite Er1. apply upd_eq.
      * rewrite Hb2 by lia. rewrite Er1, upd_ne; [done|]. apply Hneq. lia.
    + intros Hone. rewrite Hx2, Ef1, Hone; [cbn; lia|lia|].
      intros j Hj. rewrite Er1, upd_ne by by apply Hneq. apply Hone. lia.
Qed.

(** install_trans() in recovery: nothing is pinned, and each home block costs a buffer. *)
Lemma wp_install_loop_recover fuel k t (s : lst) order (Q : unit → lst → Prop) :
  let a := view s in
  binv None (l_b s) order → l_dev s = dev → trans_ok (l_start s) (lh_n s) (lh_block s) →
  (∀ b, a_lock a b = false) →
  (∀ b, (∀ j, 0 ≤ j < t → lh_block s j ≠ b) → a_ref a b = 0) →
  Z.of_nat k < a_free a → 0 ≤ t → t + Z.of_nat k ≤ lh_n s →
  (∀ b' order', binv None b' order' →
     wrote a (home_writes k t (a_content a) (l_start s) (lh_block s)) (abs dev b') →
     (∀ b, (∀ j, t ≤ j < t + Z.of_nat k → lh_block s j ≠ b) → a_ref (abs dev b') b = a_ref a b) →
     (∀ j, t ≤ j < t + Z.of_nat k → a_ref (abs dev b') (lh_block s j) = 2 ^ 32 - 1) →
     0 < a_free (abs dev b') → Q () (set_b b' s)) →
  wp (install_loop fuel k t) Q s.
Proof.
  revert t s order. induction k as [|k IH]; intros t s order a Hinv Hdev Htx Hlock Href Hfree Ht Hk HQ;
    cbn [install_loop].
  { apply wp_ret. specialize (HQ (l_b s) order). replace (set_b (l_b s) s) with s in HQ by by destruct s.
    apply HQ; [done|apply wrote_nil|done|lia|fold (view s); fold a; lia]. }
  pose proof (tx_n _ _ _ Htx) as Hn. pose proof (tx_home _ _ _ Htx) as Hnl.
  assert (Hneq : ∀ j, 0 ≤ j < lh_n s → j ≠ t → lh_block s j ≠ lh_block s t).
  { intros j Hj Hne E. apply (tx_inj _ _ _ Htx) in E; lia. }
  apply wp_bind. unfold install_one. apply wp_bind, wp_get, wp_zoom. rewrite Hdev.
  fold (install_block fuel (l_start s + t + 1) (lh_block s t)).
  eapply (wp_install_block_recover fuel (l_b s) order);
    [exact Hinv|specialize (Hnl t); unfold LOGSIZE, MAXOPBLOCKS in *; lia|exact (Hlock _)|exact (Hlock _)| | |fold (view s); fold a; lia|].
  { apply Href. intros j Hj. specialize (Hnl j). unfold LOGSIZE, MAXOPBLOCKS in *. lia. }
  { apply Href. intros j Hj. apply Hneq; lia. }
  intros b1 order1 Hi1 Hw1 Er1 Ef1. fold (view s) in Hw1, Er1, Ef1. fold a in Hw1, Er1, Ef1.
  eapply (IH (t + 1) (set_b b1 s) order1); [exact Hi1|exact Hdev|exact Htx| | | |lia|cbn [set_b lh_n]; lia|];
    unfold view; cbn [set_b l_b l_dev l_start lh_n lh_block].
  - intros b. rewrite (wr_lock _ _ _ Hw1). apply Hlock.
  - intros b Hb. rewrite Er1, upd_ne; [apply Href; intros; apply Hb; lia|].
    intros ->. apply (Hb t); [lia|done].
  - rewrite Ef1. lia.
  - intros b2 order2 Hi2 Hw2 Ha2 Hb2 Hf2. apply (HQ b2 order2 Hi2); [| | |done].
    + cbn [home_writes]. apply (wrote_trans _ [_] _ _ _ Hw1).
      rewrite (home_writes_ext _ _ (a_content a) _ _ (lh_block s)) in Hw2; [exact Hw2|].
      intros j Hj. split; [|done]. rewrite (wr_content _ _ _ Hw1). cbn [apply_writes]. apply upd_ne.
      specialize (Hnl t). unfold LOGSIZE, MAXOPBLOCKS in *. lia.
    + intros b Hb. rewrite Ha2 by (intros; apply Hb; lia). rewrite Er1. apply upd_ne.
      intros ->. apply (Hb t); [lia|done].
    + intros j Hj. destruct (Z.eqb_spec j t) as [->|]; [|apply Hb2; lia].
      rewrite Ha2 by (intros; apply Hneq; lia). rewrite Er1. apply upd_eq.
Qed.

(** write_head(). *)
Lemma wp_write_head fuel (s : lst) order (Q : unit → lst → Prop) :
  let a := view s in
  binv None (l_b s) order → l_dev s = dev → a_lock a (l_start s) = false → a_ref a (l_start s) = 0 →
  0 < a_free a →
  (∀ b' order', binv None b' order' →
     wrote a [(l_start s, put_head (lh_n s) (lh_block s) (a_content a (l_start s)))] (abs dev b') →
     a_ref (abs dev b') = a_ref a → a_free (abs dev b') = a_free a → Q () (set_b b' s)) →
  wp (write_head fuel) Q s.
Proof.
  intros a Hinv Hdev Hl Hr Hf HQ. unfold write_head. apply wp_bind, wp_get, wp_zoom. rewrite Hdev.
  eapply (wp_update_block fuel (l_b s) order (l_start s) (put_head (lh_n s) (lh_block s)));
    [exact Hinv|exact Hl|exact Hr|exact Hf| |exact HQ].
  intros x Hx. by rewrite length_put_head.
Qed.

(** The disk writes of a commit. *)
Definition commit_writes (a : acache) (start n : Z) (block : Z → Z) : list (Z * list Z) :=
  let c := a_content a in
  let h := put_head n block (c start) in
  log_writes (Z.to_nat n) 0 c start block ++ [(start, h)] ++
  home_writes (Z.to_nat n) 0 (apply_writes (log_writes (Z.to_nat n) 0 c start block) c) start block ++
  [(start, put_head 0 block h)].

(** commit(): exactly these writes, in this order; the blocks are unpinned. *)
Lemma wp_commit fuel (s : lst) order (Q : unit → lst → Prop) :
  let a := view s in
  binv None (l_b s) order → l_dev s = dev → trans_ok (l_start s) (lh_n s) (lh_block s) → 0 < lh_n s →
  cache_ok a (l_start s) (lh_n s) (lh_block s) →
  (∀ b' order', binv None b' order' →
     wrote a (commit_writes a (l_start s) (lh_n s) (lh_block s)) (abs dev b') →
     (∀ j, 0 ≤ j < lh_n s → a_ref (abs dev b') (lh_block s j) = a_ref a (lh_block s j) - 1) →
     (∀ b, (∀ j, 0 ≤ j < lh_n s → lh_block s j ≠ b) → a_ref (abs dev b') b = a_ref a b) →
     ((∀ j, 0 ≤ j < lh_n s → a_ref a (lh_block s j) = 1) → a_free (abs dev b') = a_free a + lh_n s) →
     Q () (set_n 0 (set_b b' s))) →
  wp (commit fuel) Q s.
Proof.
  intros a Hinv Hdev Htx Hn Hca HQ. unfold commit. apply wp_bind, wp_gets, wp_when; [intros _|].
  2: { intros Hc. apply Z.ltb_ge in Hc. lia. }
  pose proof (tx_home _ _ _ Htx) as Hnl. pose proof (tx_n _ _ _ Htx) as Hn30.
  set (w1 := log_writes (Z.to_nat (lh_n s)) 0 (a_content a) (l_start s) (lh_block s)).
  unfold write_log. apply wp_bind, wp_bind, wp_gets.
  eapply wp_write_loop; [exact Hinv|exact Hdev|exact Htx|exact Hca|lia|lia|].
  intros b1 o1 Hi1 Hw1 Er1 Ef1. fold a in Hw1, Er1, Ef1. fold w1 in Hw1.
  destruct (ca_log _ _ _ _ Hca 0) as [Hl0 Hr0]; [lia|]. rewrite Z.add_0_r in Hl0, Hr0.
  apply wp_bind. eapply wp_write_head; unfold view; cbn [set_b l_b l_dev l_start lh_n lh_block];
    [exact Hi1|exact Hdev|by rewrite (wr_lock _ _ _ Hw1)|by rewrite Er1|rewrite Ef1; apply Hca|].
  intros b2 o2 Hi2 Hw2 Er2 Ef2. rewrite Er1 in Er2. rewrite Ef1 in Ef2.
  assert (Hc1 : a_content (abs dev b1) (l_start s) = a_content a (l_start s)).
  { rewrite (wr_content _ _ _ Hw1). unfold w1. apply apply_log_out. lia. }
  rewrite Hc1 in Hw2. set (h := put_head (lh_n s) (lh_block s) (a_content a (l_start s))) in *.
  pose proof (wrote_trans _ _ _ _ _ Hw1 Hw2) as Hw12.
  unfold install_trans. apply wp_bind, wp_bind, wp_gets. cbn [set_b lh_n].
  eapply wp_install_loop; unfold view; cbn [set_b l_b l_dev l_start lh_n lh_block];
    [exact Hi2|exact Hdev|exact Htx| | |rewrite Ef2; apply Hca|lia|lia|].
  { intros j Hj. rewrite (wr_lock _ _ _ Hw12), Er2. by apply Hca. }
  { intros j Hj. rewrite (wr_lock _ _ _ Hw12), Er2. apply Hca. lia. }
  intros b3 o3 Hi3 Hw3 Ha3 Hb3 Hf3 Hx3.
  rewrite (home_writes_ext _ _ (apply_writes w1 (a_content a)) _ _ (lh_block s)) in Hw3.
  2: { intros j Hj. split; [|done]. rewrite (wr_content _ _ _ Hw12), apply_writes_app. cbn [apply_writes].
       apply upd_ne. lia. }
  pose proof (wrote_trans _ _ _ _ _ Hw12 Hw3) as Hw123.
  apply wp_bind, wp_modify.
  assert (Hst3 : a_content (abs dev b3) (l_start s) = h).
  { rewrite (wr_content _ _ _ Hw3), apply_home_out by (intros j Hj; specialize (Hnl j); lia).
    rewrite (wr_content _ _ _ Hw12), apply_writes_app. cbn [apply_writes]. apply upd_eq. }
  eapply wp_write_head; unfold view; cbn [set_b set_n l_b l_dev l_start lh_n lh_block];
    [exact Hi3|exact Hdev|by rewrite (wr_lock _ _ _ Hw123)| |exact Hf3|].
  { rewrite Ha3 by (intros j Hj; specialize (Hnl j); lia). by rewrite Er2. }
  intros b4 o4 Hi4 Hw4 Er4 Ef4. rewrite Hst3 in Hw4.
  apply (HQ b4 o4 Hi4).
  - unfold commit_writes. fold w1. fold h. rewrite !app_assoc.
    apply (wrote_trans _ _ _ _ _ Hw123 Hw4).
  - intros j Hj. rewrite Er4, Hb3 by lia. by rewrite Er2.
  - intros b Hb. rewrite Er4, Ha3 by (intros; apply Hb; lia). by rewrite Er2.
  - intros Hone. rewrite Ef4, Hx3, Ef2; [lia|]. intros j Hj. rewrite Er2. apply Hone. lia.
Qed.
(** ** Recovery *)

(** The header on a disk. *)
Definition disk_n (d : Z → list Z) (start : Z) : Z := s32 (ld32 (d start) 0).
Definition disk_block (d : Z → list Z) (start j : Z) : Z := s32 (ld32 (d start) (4 + 4 * j)).

(** The writes of recovery: the logged blocks to their homes, and an empty header. *)
Definition recover_writes (d : Z → list Z) (start : Z) : list (Z * list Z) :=
  home_writes (Z.to_nat (disk_n d start)) 0 d start (disk_block d start) ++
  [(start, st32 (d start) 0 0)].

(** A freshly booted block layer: no buffer is in use. *)
Record booted (a : acache) : Prop := {
  bt_lock : ∀ b, a_lock a b = false;
  bt_ref : ∀ b, a_ref a b = 0;
  bt_free : a_free a = NBUF
}.

Fixpoint fill_blocks (k : nat) (i : Z) (data : list Z) (block : Z → Z) : Z → Z :=
  match k with
  | O => block
  | S k => fill_blocks k (i + 1) data (upd block i (s32 (ld32 data (4 + 4 * i))))
  end.

Lemma fill_blocks_out k i data block j : j < i → fill_blocks k i data block j = block j.
Proof.
  revert i block. induction k as [|k IH]; intros i block Hj; simpl; [done|].
  rewrite IH by lia. apply upd_ne. lia.
Qed.

Lemma fill_blocks_in k i data block j :
  i ≤ j < i + Z.of_nat k → fill_blocks k i data block j = s32 (ld32 data (4 + 4 * j)).
Proof.
  revert i block. induction k as [|k IH]; intros i block Hj; [lia|]. cbn [fill_blocks].
  destruct (Z.eqb_spec j i) as [->|]; [|apply IH; lia].
  rewrite fill_blocks_out by lia. apply upd_eq.
Qed.

Definition set_block_map (f : Z → Z) (s : lst) : lst :=
  mkL (l_b s) (l_lock s) (l_start s) (l_size s) (l_outstanding s) (l_committing s) (l_dev s) (lh_n s) f.

Lemma wp_read_head_loop k i data (s : lst) (Q : unit → lst → Prop) :
  Q () (set_block_map (fill_blocks k i data (lh_block s)) s) → wp (read_head_loop k i data) Q s.
Proof.
  revert i s. induction k as [|k IH]; intros i s HQ; cbn [read_head_loop].
  - apply wp_ret. by destruct s.
  - apply wp_bind, wp_modify, IH. exact HQ.
Qed.

Lemma wp_read_head fuel (s : lst) order (Q : unit → lst → Prop) :
  let a := view s in
  binv None (l_b s) order → l_dev s = dev → booted a →
  (∀ b' order' f, binv None b' order' → abs dev b' = a →
     (∀ j, 0 ≤ j < disk_n (a_disk a) (l_start s) → f j = disk_block (a_disk a) (l_start s) j) →
     Q () (set_block_map f (set_n (disk_n (a_disk a) (l_start s)) (set_b b' s)))) →
  wp (read_head fuel) Q s.
Proof.
  intros a Hinv Hdev [Hl Hr Hf] HQ. pose proof (unused_clean (l_b s) order (l_start s) Hinv (Hr _)) as Hcl.
  unfold read_head. apply wp_bind, wp_get, wp_bind, wp_zoom. rewrite Hdev.
  eapply wp_bread; [exact Hinv|reflexivity|constructor; [exact (Hl _)|fold (view s); fold a; rewrite Hr; lia|]|].
  { intros _. fold (view s). fold a. rewrite Hf. done. }
  intros i b1 Hi1 Hh1 E1 _ _. destruct (held_data b1 order _ i Hi1 Hh1) as [Ed _].
  apply wp_bind, wp_zoom, wp_gets. cbn [set_b l_b]. rewrite Ed, E1. fold (view s). fold a.
  cbn [A_bread a_content]. fold (view s) in Hcl. fold a in Hcl. rewrite Hcl.
  apply wp_bind, wp_modify, wp_bind, wp_gets. cbn [set_n lh_n].
  fold (disk_n (a_disk a) (l_start s)).
  apply wp_bind, wp_read_head_loop. cbn [set_n set_b lh_block]. apply wp_zoom. cbn [set_block_map set_n set_b l_b].
  eapply (wp_brelse None); [exact Hi1|done|reflexivity|exact Hh1| |].
  { intros _. rewrite E1. exact Hcl. }
  intros b2 l1 l2 _ Hi2 E2 _ _. eapply HQ; [exact Hi2| |].
  - rewrite E2, E1. fold (view s). fold a. unfold A_brelse, A_bread.
    cbn [a_content a_disk a_ref a_lock a_hist a_free]. rewrite !upd_upd, !upd_eq, Hr. cbn [Z.eqb Z.add].
    specialize (Hl (l_start s)). specialize (Hr (l_start s)). clearbody a.
    destruct a as [c r l d h fr]. cbn [a_content a_disk a_ref a_lock a_hist a_free] in *. f_equal.
    + by apply upd_idem.
    + by apply upd_idem.
    + simpl. lia.
  - intros j Hj. apply fill_blocks_in. lia.
Qed.

Lemma trans_ok_ext start n block block' :
  trans_ok start n block → (∀ j, 0 ≤ j < n → block' j = block j) → trans_ok start n block'.
Proof.
  intros [Hn Hi Hr Hh] E. split; [done|..].
  - intros i j Hi' Hj'. rewrite !E by done. by apply Hi.
  - intros j Hj. rewrite E by done. auto.
  - intros j Hj. rewrite E by done. auto.
Qed.

Lemma wp_recover fuel (s : lst) order (Q : unit → lst → Prop) :
  let a := view s in let d := a_disk a in
  binv None (l_b s) order → l_dev s = dev → booted a →
  trans_ok (l_start s) (disk_n d (l_start s)) (disk_block d (l_start s)) → disk_n d (l_start s) < NBUF →
  (∀ s', lh_n s' = 0 → wrote a (recover_writes d (l_start s)) (view s') →
     (∀ j, 0 ≤ j < disk_n d (l_start s) →
        a_ref (view s') (disk_block d (l_start s) j) = 2 ^ 32 - 1) → Q () s') →
  wp (recover_from_log fuel) Q s.
Proof.
  intros a d Hinv Hdev Hbt Htx Hn HQ. pose proof (tx_home _ _ _ Htx) as Hnl. pose proof (tx_n _ _ _ Htx) as Hn30.
  assert (Hcd : a_content a = d).
  { apply functional_extensionality. intros b. apply (unused_clean (l_b s) order b Hinv). apply Hbt. }
  unfold recover_from_log. apply wp_bind. eapply wp_read_head; [exact Hinv|exact Hdev|exact Hbt|].
  intros b1 o1 f Hi1 E1 Hff. fold a in Hff. fold d in Hff. fold a. fold d.
  set (nn := disk_n d (l_start s)) in *.
  apply wp_bind. unfold install_trans. apply wp_bind, wp_gets. cbn [set_block_map set_n lh_n].
  eapply wp_install_loop_recover; unfold view; cbn [set_block_map set_n set_b l_b l_dev l_start lh_n lh_block];
    rewrite ?E1; [exact Hi1|exact Hdev|by eapply trans_ok_ext|apply Hbt|intros; apply Hbt
    |fold (view s); fold a; rewrite (bt_free _ Hbt); lia|lia|lia|].
  intros b2 o2 Hi2 Hw2 Ha2 Hb2 Hf2. fold a in Hw2, Ha2. apply wp_bind, wp_modify.
  rewrite Hcd in Hw2. rewrite (home_writes_ext _ _ d _ _ (disk_block d (l_start s))) in Hw2.
  2: { intros j Hj. split; [done|]. apply Hff. lia. }
  assert (Hhd : a_content (abs dev b2) (l_start s) = d (l_start s)).
  { rewrite (wr_content _ _ _ Hw2), Hcd. apply apply_home_out. intros j Hj. specialize (Hnl j). lia. }
  eapply wp_write_head; unfold view; cbn [set_block_map set_n set_b l_b l_dev l_start lh_n lh_block];
    [exact Hi2|exact Hdev|rewrite (wr_lock _ _ _ Hw2); apply Hbt| |exact Hf2|].
  { rewrite Ha2; [apply Hbt|]. intros j Hj. rewrite Hff by lia. specialize (Hnl j). lia. }
  intros b3 o3 Hi3 Hw3 Er3 Ef3. rewrite Hhd in Hw3. apply HQ.
  - done.
  - unfold recover_writes, view. cbn [set_b l_b]. apply (wrote_trans _ _ _ _ _ Hw2 Hw3).
  - intros j Hj. unfold view. cbn [set_b l_b]. rewrite Er3, <- Hff by done. apply Hb2. lia.
Qed.
Lemma wp_initlog fuel (s : lst) order sb (Q : unit → lst → Prop) :
  let a := view s in let d := a_disk a in let start := s32 (sb_logstart sb) in
  binv None (l_b s) order → booted a →
  trans_ok start (disk_n d start) (disk_block d start) → disk_n d start < NBUF →
  (∀ s', wrote a (recover_writes d start) (view s') →
     (∀ j, 0 ≤ j < disk_n d start → a_ref (view s') (disk_block d start j) = 2 ^ 32 - 1) → Q () s') →
  wp (initlog fuel dev sb) Q s.
Proof.
  intros a d start Hinv Hbt Htx Hn HQ. unfold initlog.
  change (BSIZE <=? sizeof_logheader) with false. cbv iota. apply wp_bind, wp_modify.
  eapply wp_recover; unfold view; cbn [l_b l_dev l_start];
    [exact Hinv|reflexivity|exact Hbt|exact Htx|exact Hn|]. intros s' _. apply HQ.
Qed.
End crash.

(** ** Every prefix of the writes of a commit *)
Definition in_log (start b : Z) : Prop := start ≤ b < start + LOGSIZE.

(** Outside the log, [d'] is as the disk [d] was, or holds the transaction's blocks. *)
Definition old_disk (start : Z) (d d' : Z → list Z) : Prop := ∀ b, ¬ in_log start b → d' b = d b.
Record new_disk (start n : Z) (block : Z → Z) (c d d' : Z → list Z) : Prop := {
  nd_in : ∀ j, 0 ≤ j < n → d' (block j) = c (block j);
  nd_out : ∀ b, ¬ in_log start b → (∀ j, 0 ≤ j < n → block j ≠ b) → d' b = d b
}.

Lemma take_log_writes m k t c start block :
  take m (log_writes k t c start block) = log_writes (min m k) t c start block.
Proof.
  revert k t. induction m as [|m IH]; intros k t; [done|]. destruct k as [|k]; [done|]. simpl. by rewrite IH.
Qed.

Lemma take_home_writes m k t c start block :
  take m (home_writes k t c start block) = home_writes (min m k) t c start block.
Proof.
  revert k t. induction m as [|m IH]; intros k t; [done|]. destruct k as [|k]; [done|]. simpl. by rewrite IH.
Qed.

Lemma length_log_writes k t c start block : length (log_writes k t c start block) = k.
Proof. revert t. induction k as [|k IH]; intros t; simpl; [done|]. by rewrite IH. Qed.

Lemma length_home_writes k t c start block : length (home_writes k t c start block) = k.
Proof. revert t. induction k as [|k IH]; intros t; simpl; [done|]. by rewrite IH. Qed.

(** Recovery of a disk whose header is empty changes nothing outside the log. *)
Lemma recover_empty d start b :
  disk_n d start = 0 → b ≠ start → apply_writes (recover_writes d start) d b = d b.
Proof. intros Hn Hb. unfold recover_writes. rewrite Hn. simpl. by apply upd_ne. Qed.

Lemma recover_full start n block d :
  trans_ok start n block → disk_n d start = n → (∀ j, 0 ≤ j < n → disk_block d start j = block j) →
  ∀ b, ¬ in_log start b →
  apply_writes (recover_writes d start) d b =
  apply_writes (home_writes (Z.to_nat n) 0 d start block) d b.
Proof.
  intros Htx Hn Hb b Hnl. unfold recover_writes. rewrite Hn, apply_writes_app. cbn [apply_writes].
  rewrite upd_ne by (intros ->; apply Hnl; unfold in_log, LOGSIZE, MAXOPBLOCKS; lia).
  by rewrite (home_writes_ext _ _ d _ _ block) by (intros j Hj; split; [done|apply Hb; lia]).
Qed.

Section prefixes.
Context (start n : Z) (block : Z → Z) (c d : Z → list Z).
Context (Htx : trans_ok start n block) (Hempty : disk_n d start = 0).
Context (Hlen : length (c start) = Z.to_nat BSIZE).

Let w1 := log_writes (Z.to_nat n) 0 c start block.
Let h := put_head n block (c start).
Let c1 := apply_writes w1 c.
Let w3 := home_writes (Z.to_nat n) 0 c1 start block.

(** Before the header is written: the old disk. *)
Lemma prefix_log m :
  let d' := apply_writes (take m w1) d in
  disk_n d' start = 0 ∧ old_disk start d (apply_writes (recover_writes d' start) d').
Proof.
  intros d'. unfold d', w1. rewrite take_log_writes.
  assert (E : ∀ b, ¬ (start < b < start + LOGSIZE) →
            apply_writes (log_writes (min m (Z.to_nat n)) 0 c start block) d b = d b).
  { intros b Hb. apply apply_log_out. pose proof (tx_n _ _ _ Htx). lia. }
  assert (H0 : disk_n (apply_writes (log_writes (min m (Z.to_nat n)) 0 c start block) d) start = 0)
    by (unfold disk_n; rewrite E by lia; exact Hempty).
  split; [done|]. intros b Hb. rewrite recover_empty, E; [done|unfold in_log in *; lia|done|].
  intros ->. apply Hb. unfold in_log, LOGSIZE, MAXOPBLOCKS. lia.
Qed.

Lemma home_not_log j : 0 ≤ j < n → ¬ in_log start (block j).
Proof. intros Hj. apply (tx_home _ _ _ Htx j Hj). Qed.

(** The disk once the header is written and [m] blocks are installed. *)
Let d2 m := apply_writes (home_writes (min m (Z.to_nat n)) 0 c1 start block) (upd (apply_writes w1 d) start h).

Lemma d2_log m b : in_log start b → d2 m b = upd (apply_writes w1 d) start h b.
Proof.
  intros Hb. unfold d2. apply apply_home_out. intros j Hj <-. apply (home_not_log j); [lia|done].
Qed.

Lemma d2_logged m j : 0 ≤ j < n → d2 m (start + j + 1) = c (block j).
Proof.
  intros Hj. pose proof (tx_n _ _ _ Htx). rewrite d2_log by (unfold in_log; lia).
  rewrite upd_ne by lia. unfold w1. apply apply_log_in. lia.
Qed.

Lemma d2_header m : disk_n (d2 m) start = n ∧ ∀ j, 0 ≤ j < n → disk_block (d2 m) start j = block j.
Proof.
  assert (E : d2 m start = h).
  { rewrite d2_log by (unfold in_log, LOGSIZE, MAXOPBLOCKS; lia). apply upd_eq. }
  unfold disk_n, disk_block. rewrite E. split.
  - apply put_head_n; [pose proof (tx_n _ _ _ Htx); lia|done].
  - intros j Hj. apply put_head_block; [pose proof (tx_n _ _ _ Htx); lia|done|done|by apply Htx].
Qed.

Lemma d2_out m b : ¬ in_log start b → (∀ j, 0 ≤ j < n → block j ≠ b) → d2 m b = d b.
Proof.
  intros Hb Hj. unfold d2. rewrite apply_home_out by (intros; apply Hj; lia).
  assert (start ≠ b) by (intros ->; apply Hb; unfold in_log, LOGSIZE, MAXOPBLOCKS; lia).
  rewrite upd_ne by done. unfold w1. apply apply_log_out.
  pose proof (tx_n _ _ _ Htx). unfold in_log in Hb. lia.
Qed.

(** From the header on: the new disk. *)
Lemma prefix_home m :
  new_disk start n block c d (apply_writes (recover_writes (d2 m) start) (d2 m)).
Proof.
  destruct (d2_header m) as [Hn2 Hb2]. pose proof (recover_full start n block (d2 m) Htx Hn2 Hb2) as E.
  split.
  - intros j Hj. rewrite E by by apply home_not_log.
    rewrite apply_home_in; [by apply d2_logged| |lia].
    intros i i' Hi Hi'. apply (tx_inj _ _ _ Htx); lia.
  - intros b Hb Hj. rewrite E by done. rewrite apply_home_out by (intros; apply Hj; lia). by apply d2_out.
Qed.

Lemma new_installed : new_disk start n block c d (d2 (Z.to_nat n)).
Proof.
  split; [|intros; by apply d2_out]. intros j Hj. unfold d2. rewrite Nat.min_id.
  rewrite apply_home_in; [|intros i i' Hi Hi'; apply (tx_inj _ _ _ Htx); lia|lia].
  unfold c1, w1. apply apply_log_in. lia.
Qed.
(** Whatever is in the header block itself. *)
Lemma new_ext d' :
  (∀ b, b ≠ start → d' b = apply_writes w3 (upd (apply_writes w1 d) start h) b) →
  new_disk start n block c d d'.
Proof.
  intros Hd'. pose proof new_installed as [Hi Ho]. unfold d2 in Hi, Ho. rewrite Nat.min_id in Hi, Ho. split.
  - intros j Hj. rewrite Hd'; [by apply Hi|]. intros Hs. apply (tx_home _ _ _ Htx j Hj).
    unfold LOGSIZE, MAXOPBLOCKS. lia.
  - intros b Hb Hj. rewrite Hd'; [by apply Ho|]. intros ->. apply Hb. unfold in_log, LOGSIZE, MAXOPBLOCKS. lia.
Qed.
End prefixes.

Section theorem.
Context {P D : Type} `{DriverOk P D}.
Abbreviation lst := (lst P D).

#[local] Opaque abs.

Lemma content_length (s : bst P D) order b :
  binv None s order → length (a_content (abs ROOTDEV s) b) = Z.to_nat BSIZE.
Proof.
  intros Hinv. destruct (Z.eqb_spec (a_ref (abs ROOTDEV s) b) 0) as [E|E].
  - rewrite (unused_clean s order b Hinv E). with_strategy transparent [abs] cbn [abs a_disk].
    apply dv_len, Hinv.
  - revert E. with_strategy transparent [abs] cbn [abs a_ref a_content]. unfold blookup.
    destruct (bfind (bufs s) ROOTDEV b) as [i|] eqn:Ef; [|done]. simpl. intros _.
    apply bfind_Some in Ef as (Hi & _). pose proof (bi_buf _ _ _ Hinv i Hi) as Hok.
    destruct (Z.eqb_spec (b_valid (bufs s i)) 0) as [|Hv]; [apply dv_len, Hinv|].
    apply (bo_len _ _ _ Hok). by destruct (bo_valid _ _ _ Hok).
Qed.

(** initlog() at boot does to the disk what [recover_writes] says. *)
Lemma initlog_disk fuel (s0 : lst) order0 sb :
  binv None (l_b s0) order0 → booted (view s0) →
  let d := a_disk (view s0) in let start := s32 (sb_logstart sb) in
  ∀ R : (Z → list Z) → Prop,
  trans_ok start (disk_n d start) (disk_block d start) → disk_n d start < NBUF →
  R (apply_writes (recover_writes d start) d) →
  ∃ s1, initlog fuel ROOTDEV sb s0 = Ret () s1 ∧ R (a_disk (view s1)).
Proof.
  intros Hinv0 Hbt d start R Ht0 Hn0 HR.
  assert (Hwp : wp (initlog fuel ROOTDEV sb) (λ _ s1, R (a_disk (view s1))) s0).
  { eapply wp_initlog; [done|done|exact Ht0|exact Hn0|].
    intros s1 Hw1 _. rewrite (wr_disk _ _ _ Hw1). exact HR. }
  apply wp_elim in Hwp as ([] & s1 & E1 & HR1). by exists s1.
Qed.

(** C1: a transaction is atomic with respect to crashes. Let a transaction of [lh_n]
    blocks be pinned in the cache, and the log on disk be empty. Then commit() returns;
    [w] are the block writes it makes, in order, and in the end the disk holds the
    transaction. If the machine stops after any [k] of these writes, the initlog() of
    the next boot returns and leaves every block outside the log as it was before the
    transaction if [k] is at most [lh_n] (the header is not yet written), and with all
    of the transaction's blocks otherwise. *)
Theorem commit_crash_safe fuel (s : lst) order :
  binv None (l_b s) order → l_dev s = ROOTDEV → trans_ok (l_start s) (lh_n s) (lh_block s) →
  0 < lh_n s < NBUF → cache_ok (view s) (l_start s) (lh_n s) (lh_block s) →
  disk_n (a_disk (view s)) (l_start s) = 0 →
  ∃ s' w, commit fuel s = Ret () s' ∧ a_hist (view s') = a_hist (view s) ++ w ∧
    new_disk (l_start s) (lh_n s) (lh_block s) (a_content (view s)) (a_disk (view s)) (a_disk (view s')) ∧
    ∀ k (s0 : lst) order0 sb,
      binv None (l_b s0) order0 → booted (view s0) →
      a_disk (view s0) = apply_writes (take k w) (a_disk (view s)) → s32 (sb_logstart sb) = l_start s →
      ∃ s1, initlog fuel ROOTDEV sb s0 = Ret () s1 ∧
        if (Z.of_nat k <=? lh_n s)
        then old_disk (l_start s) (a_disk (view s)) (a_disk (view s1))
        else new_disk (l_start s) (lh_n s) (lh_block s) (a_content (view s)) (a_disk (view s)) (a_disk (view s1)).
Proof.
  intros Hinv Hdev Htx Hn Hca Hempty.
  set (start := l_start s) in *. set (n := lh_n s) in *. set (block := lh_block s) in *.
  set (c := a_content (view s)). set (d := a_disk (view s)) in *.
  assert (Hlen : length (c start) = Z.to_nat BSIZE) by by eapply content_length.
  assert (Hwp : wp (commit fuel) (λ _ s', wrote (view s) (commit_writes (view s) start n block) (view s')) s).
  { eapply wp_commit; [done|done|done|lia|done|]. intros b' o' _ Hw _ _ _. exact Hw. }
  apply wp_elim in Hwp as ([] & s' & E & Hw). set (w := commit_writes (view s) start n block) in *.
  exists s', w. split; [done|]. split; [apply Hw|].
  unfold w, commit_writes in Hw |- *. fold c in Hw |- *.
  set (w1 := log_writes (Z.to_nat n) 0 c start block) in *.
  set (h := put_head n block (c start)) in *.
  set (w3 := home_writes (Z.to_nat n) 0 (apply_writes w1 c) start block) in *.
  pose proof (new_ext start n block c d Htx Hempty Hlen) as Hall. fold w1 in Hall. fold h in Hall. fold w3 in Hall.
  split.
  { apply Hall. intros b Hb. rewrite (wr_disk _ _ _ Hw). fold d. rewrite !apply_writes_app. cbn [apply_writes].
    by rewrite upd_ne. }
  intros k s0 order0 sb Hinv0 Hbt Hd0 Hsb.
  pose proof (initlog_disk fuel s0 order0 sb Hinv0 Hbt) as Hrec. rewrite Hsb in Hrec.
  assert (Htx0 : ∀ blk, trans_ok start 0 blk) by (intros; split; unfold LOGSIZE, MAXOPBLOCKS; lia).
  assert (Hl1 : length w1 = Z.to_nat n) by apply length_log_writes.
  assert (Hl3 : length w3 = Z.to_nat n) by apply length_home_writes.
  destruct (Z.leb_spec (Z.of_nat k) n) as [Hk|Hk].
  - rewrite take_app_le in Hd0 by (rewrite ?Hl1, ?Hl3; lia).
    destruct (prefix_log start n block c d Htx Hempty Hlen k) as [Hz Hold]. fold w1 in Hz, Hold.
    rewrite <- Hd0 in Hz, Hold. apply (Hrec (old_disk start d)); [rewrite Hz; apply Htx0|rewrite Hz; done|exact Hold].
  - replace (take k (w1 ++ [(start, h)] ++ w3 ++ [(start, put_head 0 block h)]))
      with (w1 ++ [(start, h)] ++ take (k - S (Z.to_nat n)) (w3 ++ [(start, put_head 0 block h)])) in Hd0.
    2: { rewrite (take_app_ge w1) by lia. f_equal. rewrite Hl1.
         replace (k - Z.to_nat n)%nat with (S (k - S (Z.to_nat n))) by lia. done. }
    set (m := (k - S (Z.to_nat n))%nat) in *. rewrite !apply_writes_app in Hd0. cbn [apply_writes] in Hd0.
    destruct (decide (m ≤ Z.to_nat n)%nat) as [Hm|Hm].
    + rewrite take_app_le in Hd0 by (rewrite ?Hl1, ?Hl3; lia). unfold w3 in Hd0. rewrite take_home_writes in Hd0.
      destruct (d2_header start n block c d Htx Hlen m) as [Hn2 Hb2].
      pose proof (prefix_home start n block c d Htx Hempty Hlen m) as Hnew.
      cbv beta in Hn2, Hb2, Hnew. fold w1 in Hn2, Hb2, Hnew. fold h in Hn2, Hb2, Hnew. rewrite <- Hd0 in Hn2, Hb2, Hnew.
      apply (Hrec (new_disk start n block c d)); [|rewrite Hn2; lia|exact Hnew].
      rewrite Hn2. eapply trans_ok_ext; [exact Htx|exact Hb2].
    + rewrite take_ge in Hd0 by (rewrite length_app, Hl3; simpl; lia).
      rewrite apply_writes_app in Hd0. cbn [apply_writes] in Hd0.
      assert (Hz : disk_n (a_disk (view s0)) start = 0).
      { rewrite Hd0. unfold disk_n. rewrite upd_eq. apply put_head_n; [done|].
        unfold h. by rewrite length_put_head. }
      apply (Hrec (new_disk start n block c d)); [rewrite Hz; apply Htx0|rewrite Hz; done|].
      apply Hall. intros b Hb. rewrite recover_empty by done. rewrite Hd0. by apply upd_ne.
Qed.
End theorem.
