(* ===== verification/LogTrans.v ===== *)
(** Transactions (log.c): begin_op(), log_write() and end_op() around the updates of one
    system call, committed and installed as a whole. *)
From Stdlib Require Import FunctionalExtensionality.
From S2P Require Import Prelude Machine Spinlock Sched Sleeplock Proc ProcSpec Bio BioSpec Bcache Log LogSpec LogCrash.

(** ** log_write()'s search *)
Lemma log_find_spec k i block bn :
  let r := log_find k i block bn in
  i ≤ r ≤ i + Z.of_nat k ∧ (r < i + Z.of_nat k → block r = bn) ∧ (∀ j, i ≤ j < r → block j ≠ bn).
Proof.
  revert i. induction k as [|k IH]; intros i; cbn [log_find].
  - split; [lia|]. split; intros; lia.
  - destruct (Z.eqb_spec (block i) bn) as [E|E].
    + split; [lia|]. split; [done|]. intros; lia.
    + destruct (IH (i + 1)) as (? & Hin & Hout). split; [lia|]. split; [intros; apply Hin; lia|].
      intros j Hj. destruct (decide (j = i)) as [->|]; [done|]. apply Hout. lia.
Qed.

Section trans.
Context {P D : Type} `{DriverOk P D}.
Abbreviation lst := (lst P D).
Abbreviation bst := (bst P D).
Abbreviation dev := ROOTDEV.

#[local] Opaque abs.

(** The process layer of the block layer's state. *)
Definition set_p (p : P) (s : bst) : bst := mkB p (b_d s) (bc_lock s) (bufs s).

Lemma abs_set_p d p (s : bst) : abs d (set_p p s) = abs d s.
Proof. done. Qed.

Lemma binv_set_p x (s : bst) order p : binv x s order → so_inv p → binv x (set_p p s) order.
Proof. intros [] Hp. by split. Qed.

Lemma holds_set_p d bn i (s : bst) p : holds d bn i s → so_id p = so_id (b_p s) → holds d bn i (set_p p s).
Proof. intros [] E. split; cbn [set_p b_p bufs]; by rewrite ?E. Qed.

Lemma within_calm (p q q' : P) : within p q → calm q q' → within p q'.
Proof.
  intros [Hq Hid Hk Hh Hp] [Hq' Hid' Hk' Hh']. split; try done; try congruence.
  pose proof (so_hart_ok p Hp) as Hok. rewrite Hh, settle_push_off in Hh' by done.
  rewrite <- Hh'. unfold settle. destruct (Z.eqb_spec (noff (lget sc_hart q')) 0) as [E|]; [|done].
  exfalso. pose proof (noff_push_off (lget sc_hart p)) as Hn. rewrite <- Hh' in Hn.
  unfold settle in Hn. rewrite E in Hn. cbn in Hn. destruct Hok. lia.
Qed.

Lemma wp_llock_acq (s : lst) (Q : unit → lst → Prop) :
  so_inv (b_p (l_b s)) → lock_free (l_lock s) →
  (∀ q, within (b_p (l_b s)) q →
     Q () (set_llock (take_lock (push_off (lget sc_hart (b_p (l_b s)))) (l_lock s)) (set_b (set_p q (l_b s)) s))) →
  wp (on_llock acq) Q s.
Proof. intros. apply wp_zoom, wp_acq; auto. Qed.

Lemma wp_llock_rel p lk (s : lst) (Q : unit → lst → Prop) :
  within p (b_p (l_b s)) → lock_free lk → l_lock s = take_lock (push_off (lget sc_hart p)) lk →
  (∀ p', calm p p' → Q () (set_llock lk (set_b (set_p p' (l_b s)) s))) →
  wp (on_llock rel) Q s.
Proof. intros Hw Hlk E HQ. apply wp_zoom. cbv beta. rewrite E. by eapply wp_rel_taken. Qed.

Lemma wp_llock_wakeup p c (s : lst) (Q : unit → lst → Prop) :
  within p (b_p (l_b s)) → (∀ q, within p q → Q () (set_b (set_p q (l_b s)) s)) → wp (on_wakeup c) Q s.
Proof. intros Hw HQ. apply wp_zoom. eapply within_wakeup; [exact Hw|]. auto. Qed.

(** ** log_write() by the holder of a block *)
Lemma wp_log_write (s : lst) order bn i (Q : unit → lst → Prop) :
  binv None (l_b s) order → holds dev bn i (l_b s) → lock_free (l_lock s) →
  0 ≤ lh_n s < LOGSIZE → lh_n s < l_size s - 1 → 1 ≤ l_outstanding s →
  a_ref (view s) bn + 1 < 2 ^ 32 →
  (∀ b' j, 0 ≤ j < lh_n s → lh_block s j = bn →
     binv None b' order → holds dev bn i b' → abs dev b' = view s → keeps dev bn (l_b s) b' →
     Q () (set_b b' s)) →
  (∀ b', (∀ j, 0 ≤ j < lh_n s → lh_block s j ≠ bn) →
     binv None b' order → holds dev bn i b' → abs dev b' = A_pin (view s) bn 1 → keeps dev bn (l_b s) b' →
     Q () (set_n (lh_n s + 1) (set_lhblock (lh_n s) bn (set_b b' s)))) →
  wp (log_write i) Q s.
Proof.
  intros Hinv Hh Hlk Hn Hsz Hout Href Qold Qnew. unfold log_write. apply wp_bind, wp_get.
  destruct (Z.leb_spec LOGSIZE (lh_n s)); [lia|]. destruct (Z.leb_spec (l_size s - 1) (lh_n s)); [lia|]. cbn [orb].
  destruct (Z.ltb_spec (l_outstanding s) 1); [lia|].
  apply wp_bind, wp_llock_acq; [apply Hinv|done|]. intros q Hq. apply wp_bind, wp_get.
  cbn [l_b set_b set_llock set_p bufs lh_n lh_block].
  rewrite (proj2 (proj2 (ho_assigned _ _ _ _ Hh))).
  destruct (log_find_spec (Z.to_nat (lh_n s)) 0 (lh_block s) bn) as (Hr & Hin & Hno).
  set (r := log_find _ _ _ _) in *. rewrite Z2Nat.id in Hr, Hin by lia. cbn [Z.add] in Hr, Hin.
  apply wp_bind, wp_modify, wp_bind, wp_when.
  - intros ->%Z.eqb_eq. apply wp_bind, wp_zoom. cbn [l_b set_b set_lhblock set_llock].
    eapply (wp_add_ref (set_p q (l_b s)) order dev bn i 1);
      [apply binv_set_p; [exact Hinv|apply Hq]|reflexivity|apply holds_set_p; [exact Hh|apply Hq]|
       rewrite abs_set_p; fold (view s)|].
    { destruct (holds_lookup None dev bn i (l_b s) order Hinv ltac:(discriminate) Hh) as (_ & E & _).
      unfold view in *. rewrite E in *. pose proof (ho_ref _ _ _ _ Hh). lia. }
    intros b1 Hi1 Hh1 E1 [Hc1 K1]. apply wp_modify. cbn [set_b set_n set_lhblock set_llock lh_n l_b].
    eapply (wp_llock_rel (b_p (l_b s)) (l_lock s)); [by eapply within_calm|done|done|].
    intros p' Hp'. cbn [set_b set_n set_lhblock set_llock l_b l_lock l_start l_size l_outstanding l_committing l_dev lh_n lh_block].
    apply (Qnew (set_p p' b1)); [done|apply binv_set_p; [done|apply Hp']| |done|].
    + apply holds_set_p; [done|]. rewrite (cm_id _ _ Hp'). symmetry. rewrite (cm_id _ _ Hc1). apply Hq.
    + split; [done|]. intros bn0 i0 Hne Hh0.
      apply holds_set_p; [|rewrite (cm_id _ _ Hp'), (cm_id _ _ Hc1); symmetry; apply Hq].
      apply K1; [done|]. apply holds_set_p; [done|apply Hq].
  - intros Hne%Z.eqb_neq. eapply (wp_llock_rel (b_p (l_b s)) (l_lock s)); [exact Hq|done|done|].
    intros p' Hp'. cbn [set_b set_n set_lhblock set_llock l_b l_lock l_start l_size l_outstanding l_committing l_dev lh_n lh_block].
    unfold set_lhblock, set_llock, set_b. cbn [l_b l_lock l_start l_size l_outstanding l_committing l_dev lh_n lh_block].
    rewrite (upd_idem (lh_block s) r) by (apply Hin; lia).
    apply (Qold (set_p p' (l_b s)) r); [lia|apply Hin; lia|apply binv_set_p; [done|apply Hp']|
      apply holds_set_p; [done|apply Hp']|done|].
    split; [done|]. intros. apply holds_set_p; [done|apply Hp'].
Qed.

(** ** The log between commits

    [out] system calls are in a transaction whose blocks are pinned in the cache, each
    once; nothing else is in use, and the log on disk is empty. *)
Record log_ok (out : Z) (s : lst) : Prop := {
  lo_inv : ∃ order, binv None (l_b s) order;
  lo_dev : l_dev s = dev;
  lo_lock : lock_free (l_lock s);
  lo_out : l_outstanding s = out;
  lo_com : l_committing s = 0;
  lo_tx : trans_ok (l_start s) (lh_n s) (lh_block s);
  lo_pinned : ∀ j, 0 ≤ j < lh_n s → a_ref (view s) (lh_block s j) = 1;
  lo_rest : ∀ b, (∀ j, 0 ≤ j < lh_n s → lh_block s j ≠ b) → a_ref (view s) b = 0;
  lo_locks : ∀ b, a_lock (view s) b = false;
  lo_free : a_free (view s) = NBUF - lh_n s;
  lo_empty : disk_n (a_disk (view s)) (l_start s) = 0
}.

(** A logged block or a free one. *)
Lemma logged_dec (n : Z) (block : Z → Z) bn :
  (∃ j, 0 ≤ j < n ∧ block j = bn) ∨ (∀ j, 0 ≤ j < n → block j ≠ bn).
Proof.
  destruct (log_find_spec (Z.to_nat n) 0 block bn) as (Hr & Hin & Hno).
  set (r := log_find _ _ _ _) in *. destruct (Z.ltb_spec r (Z.of_nat (Z.to_nat n))).
  - left. exists r. split; [lia|]. apply Hin. lia.
  - right. intros j Hj. apply Hno. lia.
Qed.

(** The blocks of the log are different: no more than the names they are taken from. *)
Lemma block_count n (block : Z → Z) (l : list Z) :
  0 ≤ n → (∀ i j, 0 ≤ i < n → 0 ≤ j < n → block i = block j → i = j) →
  (∀ j, 0 ≤ j < n → block j ∈ l) → n ≤ Z.of_nat (length (remove_dups l)).
Proof.
  intros Hn Hinj Hl.
  assert (Hsub : block <$> seqZ 0 n ⊆+ remove_dups l).
  { apply NoDup_submseteq.
    - apply NoDup_fmap_2_strong; [|apply NoDup_seqZ]. intros i j Hi Hj.
      apply elem_of_seqZ in Hi, Hj. apply Hinj; lia.
    - intros b (j & -> & Hj)%list_elem_of_fmap. apply elem_of_seqZ in Hj. apply elem_of_remove_dups, Hl. lia. }
  apply submseteq_length in Hsub. rewrite length_fmap, length_seqZ in Hsub. lia.
Qed.

(** begin_op() *)
Lemma wp_begin_op fuel out (s : lst) (Q : unit → lst → Prop) :
  log_ok out s → lh_n s + (out + 1) * MAXOPBLOCKS ≤ LOGSIZE →
  (∀ s', log_ok (out + 1) s' → view s' = view s → l_start s' = l_start s → l_size s' = l_size s →
     lh_n s' = lh_n s → lh_block s' = lh_block s → Q () s') →
  wp (begin_op fuel) Q s.
Proof.
  intros [(order & Hinv) Hdev Hlk Hout Hcom Htx Hpin Hrest Hlocks Hfree Hempty] Hspace HQ.
  unfold begin_op. apply wp_bind, wp_llock_acq; [apply Hinv|done|]. intros q Hq.
  destruct fuel; cbn [begin_op_loop]; apply wp_bind, wp_get;
    cbn [l_committing lh_n l_outstanding set_llock set_b]; rewrite Hcom, Hout;
    (destruct (Z.ltb_spec LOGSIZE (lh_n s + (out + 1) * MAXOPBLOCKS)); [lia|]); cbn [orb negb Z.eqb];
    apply wp_bind, wp_modify; (eapply (wp_llock_rel (b_p (l_b s)) (l_lock s)); [exact Hq|done|done|]);
    intros p' Hp'; (apply HQ; [|done..]); (split; try done);
    exists order; exact (binv_set_p None (l_b s) order p' Hinv (cm_inv _ _ Hp')).
Qed.

(** ** One update: bread(), a new content, log_write(), brelse() *)
Definition update (fuel : nat) (bn : Z) (data : list Z) : M lst unit :=
  b ← on_bio (bread fuel dev bn);
  on_bio (put b (set_data data));;
  log_write b;;
  on_bio (brelse b).

Definition updatable (start : Z) (w : Z * list Z) : Prop :=
  ¬ in_log start (fst w) ∧ 0 ≤ fst w < 2 ^ 31 ∧ length (snd w) = Z.to_nat BSIZE.

Record updated (s : lst) (bn : Z) (data : list Z) (s' : lst) : Prop := {
  up_ok : log_ok (l_outstanding s) s';
  up_start : l_start s' = l_start s;
  up_size : l_size s' = l_size s;
  up_content : a_content (view s') = upd (a_content (view s)) bn data;
  up_disk : a_disk (view s') = a_disk (view s);
  up_hist : a_hist (view s') = a_hist (view s);
  up_blocks : ∀ j, 0 ≤ j < lh_n s' → lh_block s' j = bn ∨ ∃ i, 0 ≤ i < lh_n s ∧ lh_block s i = lh_block s' j
}.

(** A change of the cache that leaves counts, locks and the disk as they were. *)
Lemma log_ok_set_b (s : lst) b' out :
  log_ok out s → (∃ order, binv None b' order) →
  (∀ b, a_ref (abs dev b') b = a_ref (view s) b) → (∀ b, a_lock (abs dev b') b = false) →
  a_free (abs dev b') = a_free (view s) → a_disk (abs dev b') = a_disk (view s) → log_ok out (set_b b' s).
Proof.
  intros [] Hi Hr Hl Hf Hd. split; unfold view; cbn [set_b l_b l_lock l_start l_size l_outstanding l_committing l_dev lh_n lh_block];
    try done.
  - intros j Hj. rewrite Hr. auto.
  - intros b Hb. rewrite Hr. auto.
  - by rewrite Hf.
  - by rewrite Hd.
Qed.

Lemma trans_ok_snoc start n block bn :
  trans_ok start n block → n < LOGSIZE - 1 → ¬ in_log start bn → 0 ≤ bn < 2 ^ 31 →
  (∀ j, 0 ≤ j < n → block j ≠ bn) → trans_ok start (n + 1) (upd block n bn).
Proof.
  intros [Hn Hinj Hrg Hh] Hlt Hbn Hr Hno. split; [lia|..].
  - intros i j Hi Hj. unfold upd. destruct (Z.eqb_spec i n), (Z.eqb_spec j n); intros E; subst; try done.
    + by destruct (Hno j ltac:(lia)).
    + by destruct (Hno i ltac:(lia)).
    + apply Hinj; [lia|lia|done].
  - intros j Hj. unfold upd. destruct (Z.eqb_spec j n); [done|]. apply Hrg. lia.
  - intros j Hj. unfold upd. destruct (Z.eqb_spec j n); [done|]. apply Hh. lia.
Qed.

Lemma wp_update fuel (s : lst) bn data (Q : unit → lst → Prop) :
  log_ok (l_outstanding s) s → 1 ≤ l_outstanding s → updatable (l_start s) (bn, data) →
  lh_n s < LOGSIZE - 1 → lh_n s < l_size s - 1 →
  (∀ s', updated s bn data s' → Q () s') → wp (update fuel bn data) Q s.
Proof.
  intros Hok Hout (Hnl & Hbn & Hlen) Hn Hsz HQ.
  pose proof Hok as [(order & Hinv) Hdev Hlk _ Hcom Htx Hpin Hrest Hlocks Hfree Hempty].
  cbn [fst snd] in *. pose proof (tx_n _ _ _ Htx) as Hn0. set (a := view s) in *.
  assert (Href : a_ref a bn = 0 ∨ a_ref a bn = 1).
  { destruct (logged_dec (lh_n s) (lh_block s) bn) as [(j & Hj & <-)|Hno]; [right; auto|left; auto]. }
  unfold update. apply wp_bind, wp_zoom. eapply wp_bread; [exact Hinv|reflexivity| |].
  { fold (view s). fold a. split; [apply Hlocks|lia|]. intros _. rewrite Hfree. unfold NBUF, LOGSIZE in *. lia. }
  intros i b1 Hi1 Hh1 E1 _ _. fold (view s) in E1. fold a in E1.
  apply wp_bind, wp_zoom. cbn [l_b set_b]. eapply wp_set_data; [exact Hi1|reflexivity|exact Hh1|exact Hlen|].
  intros b2 Hi2 Hh2 E2 _. rewrite E1 in E2.
  apply wp_bind. cbn [set_b l_b l_lock l_start l_size l_outstanding l_committing l_dev lh_n lh_block].
  eapply (wp_log_write (set_b b2 s) order bn i);
    unfold view; cbn [set_b l_b l_lock l_start l_size l_outstanding l_committing l_dev lh_n lh_block];
    [exact Hi2|exact Hh2|exact Hlk|lia|lia|lia| | |].
  { rewrite E2. cbn [A_set A_bread a_ref]. rewrite upd_eq. lia. }
  - intros b3 j Hj Ebj Hi3 Hh3 E3 _. rewrite E2 in E3.
    assert (Hr1 : a_ref a bn = 1) by (rewrite <- Ebj; auto).
    apply wp_zoom. cbn [set_b l_b].
    eapply (wp_brelse None); [exact Hi3|discriminate|reflexivity|exact Hh3| |].
    { rewrite E3. cbn [A_set A_bread a_ref]. rewrite upd_eq. lia. }
    intros b4 l1 l2 _ Hi4 E4 _ _. rewrite E3 in E4. unfold A_brelse, A_set, A_bread in E4.
    cbn [a_content a_ref a_lock a_disk a_hist a_free] in E4. rewrite !upd_eq, Hr1 in E4. cbn in E4.
    apply HQ. constructor; unfold view;
      cbn [set_b l_b l_lock l_start l_size l_outstanding l_committing l_dev lh_n lh_block]; rewrite ?E4;
      cbn [a_content a_disk a_hist]; try done; [|eauto].
    apply (log_ok_set_b s b4 (l_outstanding s) Hok (ex_intro _ _ Hi4)); rewrite E4; cbn [a_ref a_lock a_free a_disk]; try done.
    + intros b. fold a. unfold upd. destruct (Z.eqb_spec b bn) as [->|]; lia.
    + intros b. unfold upd. destruct (b =? bn); [done|apply Hlocks].
  - intros b3 Hno Hi3 Hh3 E3 _. rewrite E2 in E3.
    assert (Hr0 : a_ref a bn = 0) by auto.
    apply wp_zoom. cbn [set_n set_lhblock set_b l_b].
    eapply (wp_brelse None); [exact Hi3|discriminate|reflexivity|exact Hh3| |].
    { rewrite E3. cbn [A_pin A_set A_bread a_ref]. rewrite !upd_eq. lia. }
    intros b4 l1 l2 _ Hi4 E4 _ _. rewrite E3 in E4. unfold A_brelse, A_pin, A_set, A_bread in E4.
    cbn [a_content a_ref a_lock a_disk a_hist a_free] in E4. rewrite !upd_eq, Hr0 in E4. cbn in E4.
    rewrite !upd_upd in E4.
    assert (Hblk : ∀ j, 0 ≤ j < lh_n s → upd (lh_block s) (lh_n s) bn j = lh_block s j)
      by (intros; apply upd_ne; lia).
    apply HQ. constructor; unfold view;
      cbn [set_n set_lhblock set_b l_b l_lock l_start l_size l_outstanding l_committing l_dev lh_n lh_block]; rewrite ?E4;
      cbn [a_content a_disk a_hist]; try done.
    2:{ intros j Hj. destruct (decide (j = lh_n s)) as [->|]; [left; apply upd_eq|right].
        exists j. rewrite Hblk by lia. split; [lia|done]. }
    split; unfold view; cbn [set_n set_lhblock set_b l_b l_lock l_start l_size l_outstanding l_committing l_dev lh_n lh_block];
      rewrite ?E4; cbn [a_ref a_lock a_free a_disk]; try done.
    + eauto.
    + by apply trans_ok_snoc.
    + intros j Hj. unfold upd at 1. destruct (Z.eqb_spec (upd (lh_block s) (lh_n s) bn j) bn) as [|Hb]; [done|].
      destruct (decide (j = lh_n s)) as [->|]; [by rewrite upd_eq in Hb|]. rewrite Hblk by lia. apply Hpin. lia.
    + intros b Hb. assert (b ≠ bn) by (intros ->; apply (Hb (lh_n s)); [lia|apply upd_eq]).
      rewrite upd_ne by done. apply Hrest. intros j Hj. rewrite <- Hblk by lia. apply Hb. lia.
    + intros b. unfold upd. destruct (b =? bn); [done|apply Hlocks].
    + change (0 + 1 + 1 =? 1) with false. cbv iota. lia.
Qed.

Fixpoint updates (fuel : nat) (ws : list (Z * list Z)) : M lst unit :=
  match ws with
  | [] => mret ()
  | (bn, data) :: ws => update fuel bn data;; updates fuel ws
  end.

Lemma wp_updates fuel ws (s : lst) (l : list Z) (Q : unit → lst → Prop) :
  log_ok (l_outstanding s) s → 1 ≤ l_outstanding s → Forall (updatable (l_start s)) ws → ws.*1 ⊆ l →
  Z.of_nat (length (remove_dups l)) ≤ MAXOPBLOCKS → MAXOPBLOCKS + 1 < l_size s →
  (∀ j, 0 ≤ j < lh_n s → lh_block s j ∈ l) →
  (∀ s', log_ok (l_outstanding s) s' → l_start s' = l_start s →
     a_content (view s') = apply_writes ws (a_content (view s)) → a_disk (view s') = a_disk (view s) →
     a_hist (view s') = a_hist (view s) → (∀ j, 0 ≤ j < lh_n s' → lh_block s' j ∈ l) → Q () s') →
  wp (updates fuel ws) Q s.
Proof.
  revert s. induction ws as [|[bn data] ws IH]; intros s Hok Hout Hws Hl Hcnt Hsz Hin HQ; cbn [updates].
  { apply wp_ret. by apply HQ. }
  apply Forall_cons in Hws as [Hw Hws]. cbn [fmap list_fmap fst] in Hl.
  pose proof (lo_tx _ _ Hok) as Htx. pose proof (tx_n _ _ _ Htx) as Hn.
  assert (lh_n s ≤ MAXOPBLOCKS).
  { etrans; [|exact Hcnt]. apply (block_count _ (lh_block s)); [lia| |done]. apply Htx. }
  apply wp_bind, wp_update; [done|done|done|unfold LOGSIZE, MAXOPBLOCKS in *; lia|lia|].
  intros s1 [Hok1 Hst Hsize Hc Hd Hh Hb]. pose proof (lo_out _ _ Hok1) as Ho1.
  apply IH; rewrite ?Ho1, ?Hst, ?Hsize; try done.
  - set_solver.
  - intros j Hj. destruct (Hb j Hj) as [->|(i & Hi & <-)]; [set_solver|auto].
  - intros s2 Hok2 Hst2 Hc2 Hd2 Hh2 Hb2. apply HQ; try done; [|congruence|congruence].
    by rewrite Hc2, Hc.
Qed.

(** ** end_op() of the only call in the transaction *)
Record committed (s s' : lst) : Prop := {
  cd_ok : log_ok 0 s';
  cd_n : lh_n s' = 0;
  cd_start : l_start s' = l_start s;
  cd_size : l_size s' = l_size s;
  cd_new : new_disk (l_start s) (lh_n s) (lh_block s) (a_content (view s)) (a_disk (view s)) (a_disk (view s'))
}.

Lemma trans_ok_nil start block : trans_ok start 0 block.
Proof. split; unfold LOGSIZE, MAXOPBLOCKS; lia. Qed.

(** commit() while [committing] is set, and the state it leaves. *)
Lemma wp_commit_ok fuel (s : lst) (Q : unit → lst → Prop) :
  log_ok 0 (set_committing 0 s) → l_committing s = 1 → lh_n s < NBUF →
  (∀ s', committed (set_committing 0 s) (set_committing 0 s') → l_committing s' = 1 → Q () s') →
  wp (commit fuel) Q s.
Proof.
  intros [(order & Hinv) Hdev Hlk Hout Hcom Htx Hpin Hrest Hlocks Hfree Hempty] Hc Hn HQ.
  unfold view in *. cbn [set_committing l_b l_lock l_start l_size l_outstanding l_committing l_dev lh_n lh_block] in *.
  pose proof (tx_n _ _ _ Htx) as Hn0. destruct (Z.eqb_spec (lh_n s) 0) as [E|E].
  - unfold commit. apply wp_bind, wp_gets. rewrite E. cbn. apply wp_ret. apply HQ; [|done].
    split; try done.
    + split; try done. by exists order.
    + split; [|done]. intros j Hj. cbn in Hj. lia.
  - eapply wp_commit; [exact Hinv|exact Hdev|exact Htx|lia| |].
    { split; [|intros j Hj; unfold view; rewrite Hlocks, Hpin by lia; done|unfold view; rewrite Hfree; lia].
      intros j Hj. split; [apply Hlocks|]. apply Hrest. intros i Hi E'. apply (tx_home _ _ _ Htx i Hi). lia. }
    intros b' o' Hi' Hw' Hr' Ho' Hf'. apply HQ; [|done].
    assert (Hlen : length (a_content (abs dev (l_b s)) (l_start s)) = Z.to_nat BSIZE) by by eapply content_length.
    assert (Hdn : disk_n (a_disk (abs dev b')) (l_start s) = 0).
    { rewrite (wr_disk _ _ _ Hw'). unfold commit_writes. rewrite !apply_writes_app. cbn [apply_writes].
      unfold disk_n. rewrite upd_eq. apply put_head_n; [done|]. by rewrite length_put_head. }
    split; unfold view; cbn [set_committing set_n set_b l_b l_lock l_start l_size l_outstanding l_committing l_dev lh_n lh_block];
      [|done..|].
    + split; unfold view; cbn [set_committing set_n set_b l_b l_lock l_start l_size l_outstanding l_committing l_dev lh_n lh_block];
        try done; [by exists o'|apply trans_ok_nil|lia| | |].
      * intros b _. destruct (logged_dec (lh_n s) (lh_block s) b) as [(j & Hj & <-)|Hno].
        -- rewrite Hr' by done. unfold view. by rewrite Hpin.
        -- rewrite Ho' by done. by apply Hrest.
      * intros b. rewrite (wr_lock _ _ _ Hw'). apply Hlocks.
      * rewrite Hf' by done. unfold view. rewrite Hfree. lia.
    + eapply new_ext; [exact Htx|exact Hempty|exact Hlen|]. intros b Hb. rewrite (wr_disk _ _ _ Hw').
      unfold commit_writes. rewrite !apply_writes_app. cbn [apply_writes]. by rewrite upd_ne.
Qed.

Lemma log_ok_set_p out (s : lst) p : log_ok out s → so_inv p → log_ok out (set_b (set_p p (l_b s)) s).
Proof.
  intros Hok Hp. apply (log_ok_set_b s (set_p p (l_b s)) out Hok); try done.
  - destruct (lo_inv _ _ Hok) as [order Hi]. exists order. by apply binv_set_p.
  - apply Hok.
Qed.

Lemma wp_end_op fuel (s : lst) (Q : unit → lst → Prop) :
  log_ok 1 s → lh_n s < NBUF → (∀ s', committed s s' → Q () s') → wp (end_op fuel) Q s.
Proof.
  intros Hok Hn HQ. pose proof Hok as [(order & Hinv) Hdev Hlk Hout Hcom Htx Hpin Hrest Hlocks Hfree Hempty].
  unfold end_op. apply wp_bind, wp_llock_acq; [apply Hinv|done|]. intros q Hq.
  apply wp_bind, wp_modify, wp_bind, wp_get.
  cbn [set_outstanding set_llock set_b l_outstanding l_committing]. rewrite Hcom, Hout.
  cbn [negb Z.eqb Z.sub Z.add Z.opp Z.pos_sub]. apply wp_bind, wp_bind, wp_modify, wp_ret, wp_bind.
  eapply (wp_llock_rel (b_p (l_b s)) (l_lock s)); [exact Hq|done|done|]. intros p1 Hp1. cbn [when_].
  apply wp_bind. eapply wp_commit_ok; [|done|done|].
  { pose proof (log_ok_set_p 1 s p1 Hok (cm_inv _ _ Hp1)) as [(o1 & Hi1) ? ? ? ? ? ? ? ? ? ?].
    split; try done. by exists o1. }
  intros s2 [Hok2 Hn2 Hst2 Hsz2 Hnew2] Hc2.
  assert (Hi2 : so_inv (b_p (l_b s2))) by (destruct (lo_inv _ _ Hok2) as (o2 & Hb2); apply Hb2).
  apply wp_bind, wp_llock_acq; [exact Hi2|exact (lo_lock _ _ Hok2)|].
  intros q2 Hq2. apply wp_bind, wp_modify, wp_bind.
  eapply (wp_llock_wakeup (b_p (l_b s2))); [exact Hq2|]. intros q3 Hq3.
  eapply (wp_llock_rel (b_p (l_b s2)) (l_lock s2)); [exact Hq3|exact (lo_lock _ _ Hok2)|done|].
  intros p3 Hp3. apply HQ. split; [|exact Hn2|exact Hst2|exact Hsz2|exact Hnew2].
  exact (log_ok_set_p 0 (set_committing 0 s2) p3 Hok2 (cm_inv _ _ Hp3)).
Qed.

(** A file system call that updates the blocks [ws], as the comment on log_write() has it. *)
Definition transaction (fuel : nat) (ws : list (Z * list Z)) : M lst unit :=
  begin_op fuel;; updates fuel ws;; end_op fuel.

Lemma wp_transaction fuel ws (s : lst) (Q : unit → lst → Prop) :
  log_ok 0 s → lh_n s = 0 → Forall (updatable (l_start s)) ws →
  Z.of_nat (length (remove_dups ws.*1)) ≤ MAXOPBLOCKS → MAXOPBLOCKS + 1 < l_size s →
  (∀ s', log_ok 0 s' → lh_n s' = 0 → l_start s' = l_start s →
     (∀ b, ¬ in_log (l_start s) b → a_disk (view s') b = apply_writes ws (a_disk (view s)) b) → Q () s') →
  wp (transaction fuel ws) Q s.
Proof.
  intros Hok Hn Hws Hcnt Hsz HQ. unfold transaction.
  apply wp_bind. eapply wp_begin_op; [exact Hok|rewrite Hn; done|].
  intros s1 Hok1 Hv1 Hst1 Hsz1 Hn1 Hb1. pose proof (lo_out _ _ Hok1) as Ho1.
  apply wp_bind. apply (wp_updates fuel ws s1 ws.*1); rewrite ?Ho1, ?Hst1, ?Hsz1; try done.
  { intros j Hj. rewrite Hn1, Hn in Hj. lia. }
  intros s2 Hok2 Hst2 Hc2 Hd2 _ Hb2.
  assert (Hn2 : lh_n s2 ≤ MAXOPBLOCKS).
  { etrans; [|exact Hcnt]. pose proof (lo_tx _ _ Hok2) as Htx. pose proof (tx_n _ _ _ Htx).
    apply (block_count _ (lh_block s2)); [lia|apply Htx|done]. }
  apply wp_end_op; [done|unfold NBUF, MAXOPBLOCKS in *; lia|].
  intros s3 [Hok3 Hn3 Hst3 Hsz3 [Hin Hoth]]. rewrite Hst2 in *. rewrite Hc2, Hd2, Hv1 in *.
  assert (Hcd : ∀ b, (∀ j, 0 ≤ j < lh_n s2 → lh_block s2 j ≠ b) →
            apply_writes ws (a_content (view s)) b = a_disk (view s) b).
  { intros b Hb. rewrite <- Hc2, <- Hd2. destruct (lo_inv _ _ Hok2) as [o2 Hi2].
    apply (unused_clean (l_b s2) o2 b Hi2). by apply (lo_rest _ _ Hok2). }
  assert (Hclean : a_content (view s) = a_disk (view s)).
  { apply functional_extensionality. intros b. destruct (lo_inv _ _ Hok) as [o Hi].
    apply (unused_clean (l_b s) o b Hi). apply (lo_rest _ _ Hok). rewrite Hn. lia. }
  rewrite Hclean in *. apply HQ; [done|done|done|]. intros b Hb.
  destruct (logged_dec (lh_n s2) (lh_block s2) b) as [(j & Hj & <-)|Hno].
  - by rewrite Hin.
  - rewrite Hoth by done. symmetry. by apply Hcd.
Qed.

(** C2: a whole transaction. Starting with an empty log and no block in use, begin_op(), any sequence of
    updates (bread, store, log_write, brelse) of at most MAXOPBLOCKS different blocks
    outside the log, and end_op() return without panicking; the disk then holds the updates in the order
    they were made, every other block outside the log as before, and the log and the
    cache are empty again. *)
Theorem transaction_correct fuel ws (s : lst) :
  log_ok 0 s → lh_n s = 0 → Forall (updatable (l_start s)) ws →
  Z.of_nat (length (remove_dups ws.*1)) ≤ MAXOPBLOCKS → MAXOPBLOCKS + 1 < l_size s →
  ∃ s', transaction fuel ws s = Ret () s' ∧ log_ok 0 s' ∧ lh_n s' = 0 ∧
    ∀ b, ¬ in_log (l_start s) b → a_disk (view s') b = apply_writes ws (a_disk (view s)) b.
Proof.
  intros Hok Hn Hws Hcnt Hsz.
  assert (Hwp : wp (transaction fuel ws) (λ _ s', log_ok 0 s' ∧ lh_n s' = 0 ∧
    ∀ b, ¬ in_log (l_start s) b → a_disk (view s') b = apply_writes ws (a_disk (view s)) b) s).
  { apply wp_transaction; auto. }
  apply wp_elim in Hwp as ([] & s' & E & Hs'). eauto.
Qed.

(** log_write() absorbs: writing a block that the transaction already has adds no entry to the
    log; otherwise it adds exactly one, at the end, and pins the block. It panics when
    called outside a transaction. *)
Theorem log_write_absorbs (s : lst) order bn i :
  binv None (l_b s) order → holds dev bn i (l_b s) → lock_free (l_lock s) →
  0 ≤ lh_n s < LOGSIZE → lh_n s < l_size s - 1 → a_ref (view s) bn + 1 < 2 ^ 32 →
  if l_outstanding s <? 1
  then log_write i s = Panic "log_write outside of trans" s
  else ∃ s', log_write i s = Ret () s' ∧
    (((∃ j, 0 ≤ j < lh_n s ∧ lh_block s j = bn) ∧ lh_n s' = lh_n s ∧ lh_block s' = lh_block s ∧ view s' = view s)
     ∨ ((∀ j, 0 ≤ j < lh_n s → lh_block s j ≠ bn) ∧ lh_n s' = lh_n s + 1 ∧
        lh_block s' = upd (lh_block s) (lh_n s) bn ∧ view s' = A_pin (view s) bn 1)).
Proof.
  intros Hinv Hh Hlk Hn Hsz Href. destruct (Z.ltb_spec (l_outstanding s) 1) as [Hout|Hout].
  - unfold log_write. m_unfold. destruct (Z.leb_spec LOGSIZE (lh_n s)); [lia|].
    destruct (Z.leb_spec (l_size s - 1) (lh_n s)); [lia|]. cbn [orb].
    by destruct (Z.ltb_spec (l_outstanding s) 1); [|lia].
  - eassert (Hwp : wp (log_write i) _ s).
    { eapply (wp_log_write s order bn i (λ _ s',
        ((∃ j, 0 ≤ j < lh_n s ∧ lh_block s j = bn) ∧ lh_n s' = lh_n s ∧ lh_block s' = lh_block s ∧ view s' = view s)
        ∨ ((∀ j, 0 ≤ j < lh_n s → lh_block s j ≠ bn) ∧ lh_n s' = lh_n s + 1 ∧
           lh_block s' = upd (lh_block s) (lh_n s) bn ∧ view s' = A_pin (view s) bn 1)));
        [done|done|done|done|done|done|done|..].
      - intros b' j Hj E _ _ Ha _. left. split; [by exists j|]. done.
      - intros b' Hno _ _ Ha _. right. done. }
    apply wp_elim in Hwp as ([] & s' & E & Hs'). eauto.
Qed.

(** Recovery leaks buffers. When the log on disk holds a committed transaction of n blocks
    (0 <= n < NBUF), the initlog() of the next boot installs it, but since install_trans()
    unpins blocks that recovery never pinned, afterwards the count of every block of the transaction
    is 2^32 - 1: its buffer is never free again. *)
Theorem recovery_leaks fuel (s : lst) order sb :
  let d := a_disk (view s) in let start := s32 (sb_logstart sb) in
  binv None (l_b s) order → booted (view s) →
  trans_ok start (disk_n d start) (disk_block d start) → disk_n d start < NBUF →
  ∃ s', initlog fuel dev sb s = Ret () s' ∧
    ∀ j, 0 ≤ j < disk_n d start → a_ref (view s') (disk_block d start j) = 2 ^ 32 - 1.
Proof.
  intros d start Hinv Hbt Htx Hn.
  assert (Hwp : wp (initlog fuel dev sb) (λ _ s',
     ∀ j, 0 ≤ j < disk_n d start → a_ref (view s') (disk_block d start j) = 2 ^ 32 - 1) s).
  { eapply wp_initlog; [done..|]. intros s' _ Hr. exact Hr. }
  apply wp_elim in Hwp as ([] & s' & E & Hs'). eauto.
Qed.
End trans.

(** ** Witnesses: the block layer of Bcache.v, with a log of 30 blocks at block 2 *)
Lemma booted_disk (d : mdisk) : dv_inv (P := kst) d →
  ∃ s : bst kst mdisk, binv None s (rev (seqZ 0 NBUF)) ∧
    abs ROOTDEV s = mkA (md_block d) (λ _, 0) (λ _, false) (md_block d) (md_hist d) NBUF.
Proof.
  intros Hd. set (s0 := mkB kst3 d (initlock "") (bufs bst3)).
  assert (Hwp : wp binit (λ _ (s : bst kst mdisk), binv None s (rev (seqZ 0 NBUF)) ∧
    abs ROOTDEV s = mkA (md_block d) (λ _, 0) (λ _, false) (md_block d) (md_hist d) NBUF) s0).
  { apply wp_binit; [exact bst3_sched|exact Hd|exact bst3_bss|]. auto. }
  apply wp_elim in Hwp as ([] & s & _ & Hs). eauto.
Qed.

#[local] Opaque abs.

Definition mkL3 (b : bst kst mdisk) : lst kst mdisk := mkL b (initlock "log") 2 30 0 0 ROOTDEV 0 (λ _, 0).

Lemma booted_log : ∃ s : lst kst mdisk, log_ok 0 s ∧ lh_n s = 0 ∧ l_start s = 2 ∧ l_size s = 30 ∧
  a_disk (view s) = (λ _, zero_block).
Proof.
  destruct (booted_disk (b_d bst3) bst3_disk) as (b & Hinv & Ha).
  exists (mkL3 b). split_and!; try reflexivity.
  - split; unfold view; cbn [mkL3 l_b]; rewrite ?Ha; try reflexivity.
    + by eexists.
    + done.
    + apply trans_ok_nil.
    + cbn. lia.
  - unfold view. cbn [mkL3 l_b]. by rewrite Ha.
Qed.

Definition ws3 : list (Z * list Z) := [(40, ones); (41, ones); (40, zero_block); (40, ones)].

Lemma ws3_ok : Forall (updatable 2) ws3.
Proof.
  repeat constructor; cbn [fst snd]; unfold in_log, LOGSIZE, MAXOPBLOCKS; try lia; apply length_replicate.
Qed.

Lemma transaction_correct_witness :
  ∃ s s' : lst kst mdisk, transaction 0 ws3 s = Ret () s' ∧ a_disk (view s') 40 = ones.
Proof.
  destruct booted_log as (s & Hok & Hn & Hst & Hsz & Hd).
  destruct (transaction_correct 0 ws3 s Hok Hn) as (s' & E & _ & _ & Hb).
  - rewrite Hst. exact ws3_ok.
  - vm_compute. discriminate.
  - rewrite Hsz. reflexivity.
  - exists s, s'. split; [exact E|]. rewrite Hb, Hd; [reflexivity|].
    rewrite Hst. unfold in_log, LOGSIZE, MAXOPBLOCKS. lia.
Defined.

(** A transaction of [ws3] before its end_op(). *)
Lemma open_log : ∃ s : lst kst mdisk, log_ok 1 s ∧ 0 < lh_n s < NBUF ∧ l_start s = 2.
Proof.
  destruct booted_log as (s & Hok & Hn & Hst & Hsz & Hd).
  assert (Hwp : wp (begin_op 0;; updates 0 ws3) (λ _ s', log_ok 1 s' ∧ 0 < lh_n s' < NBUF ∧ l_start s' = 2) s).
  { apply wp_bind. eapply wp_begin_op; [exact Hok|rewrite Hn; done|].
    intros s1 Hok1 Hv1 Hst1 Hsz1 Hn1 Hb1. pose proof (lo_out _ _ Hok1) as Ho1.
    apply (wp_updates 0 ws3 s1 ws3.*1); rewrite ?Ho1, ?Hst1, ?Hsz1, ?Hst, ?Hsz; try done; [exact ws3_ok| |].
    { intros j Hj. rewrite Hn1, Hn in Hj. lia. }
    intros s2 Hok2 Hst2 Hc2 Hd2 _ Hb2. split; [done|]. split; [|done].
    pose proof (lo_tx _ _ Hok2) as Htx. pose proof (tx_n _ _ _ Htx) as H0. split.
    - destruct (Z.eqb_spec (lh_n s2) 0) as [E|]; [exfalso|lia].
      destruct (lo_inv _ _ Hok2) as [o2 Hi2].
      pose proof (unused_clean (l_b s2) o2 40 Hi2) as Hcl. fold (view s2) in Hcl.
      rewrite Hc2, Hd2, Hv1, Hd in Hcl. cut (ones = zero_block); [discriminate|].
      apply Hcl. apply (lo_rest _ _ Hok2). rewrite E. lia.
    - eapply Z.le_lt_trans; [eapply (block_count _ (lh_block s2) ws3.*1); [lia|apply Htx|done]|reflexivity]. }
  apply wp_elim in Hwp as ([] & s' & _ & Hs'). eauto.
Qed.

Lemma commit_crash_safe_witness :
  ∃ (s s' : lst kst mdisk) w, commit 0 s = Ret () s' ∧ a_hist (view s') = a_hist (view s) ++ w.
Proof.
  destruct open_log as (s & Hok & Hn & Hst).
  pose proof Hok as [(order & Hinv) Hdev Hlk Hout Hcom Htx Hpin Hrest Hlocks Hfree Hempty].
  destruct (commit_crash_safe 0 s order Hinv Hdev Htx Hn) as (s' & w & E & Hh & _).
  - split; [|intros j Hj; rewrite Hlocks, Hpin by lia; done|rewrite Hfree; lia].
    intros j Hj. split; [apply Hlocks|]. apply Hrest. intros i Hi E'. pose proof (tx_home _ _ _ Htx i Hi).
    pose proof (tx_n _ _ _ Htx). lia.
  - exact Hempty.
  - exists s, s', w. split; [exact E|exact Hh].
Defined.

Lemma log_write_absorbs_witness :
  ∃ (s : lst kst mdisk) i, log_write i s = Panic "log_write outside of trans" s.
Proof.
  destruct booted_log as (s & Hok & Hn & Hst & Hsz & Hd).
  destruct (lo_inv _ _ Hok) as [order Hinv].
  assert (Hwp : wp (bread 0 ROOTDEV 40) (λ i b1, binv None b1 order ∧
     holds ROOTDEV 40 i b1 ∧ abs ROOTDEV b1 = A_bread (view s) 40) (l_b s)).
  { eapply wp_bread; [exact Hinv|reflexivity| |auto]. fold (view s). split; [apply Hok| |].
    - rewrite (lo_rest _ _ Hok) by (rewrite Hn; lia). done.
    - intros _. rewrite (lo_free _ _ Hok), Hn. done. }
  apply wp_elim in Hwp as (i & b1 & _ & Hi & Hh & Ha).
  pose proof (log_write_absorbs (set_b b1 s) order 40 i Hi Hh (lo_lock _ _ Hok)) as Hw.
  cbn [set_b lh_n l_size l_outstanding] in Hw. rewrite Hn, Hsz, (lo_out _ _ Hok) in Hw.
  exists (set_b b1 s), i. apply Hw; [done|done|].
  unfold view. cbn [set_b l_b]. rewrite Ha. cbn [A_bread a_ref]. rewrite upd_eq.
  rewrite (lo_rest _ _ Hok) by (rewrite Hn; lia). done.
Defined.

(** A disk with the committed transaction of block 40. *)
Definition log40 : mdisk :=
  mkMd (λ n, if n =? 2 then st32 (st32 zero_block 0 1) 4 40 else zero_block) [].

Lemma log40_ok : dv_inv (P := kst) log40.
Proof. intros n. cbn [dv_inv log40 md_block]. destruct (n =? 2); reflexivity. Qed.

Lemma recovery_leaks_witness :
  ∃ s s' : lst kst mdisk, initlog 0 ROOTDEV (mkSbLog 2 30) s = Ret () s' ∧ a_ref (view s') 40 = 2 ^ 32 - 1.
Proof.
  destruct (booted_disk log40 log40_ok) as (b & Hinv & Ha).
  assert (Hd : a_disk (view (mkL3 b)) = md_block log40) by (unfold view; cbn [mkL3 l_b]; by rewrite Ha).
  assert (Hn : disk_n (a_disk (view (mkL3 b))) (s32 (sb_logstart (mkSbLog 2 30))) = 1)
    by (rewrite Hd; vm_compute; reflexivity).
  assert (Hb : disk_block (a_disk (view (mkL3 b))) (s32 (sb_logstart (mkSbLog 2 30))) 0 = 40)
    by (rewrite Hd; vm_compute; reflexivity).
  destruct (recovery_leaks 0 (mkL3 b) _ (mkSbLog 2 30) Hinv) as (s' & E & Hr).
  - unfold view. cbn [mkL3 l_b]. rewrite Ha. by split.
  - rewrite Hn. change (s32 _) with 2.
    assert (Hb' : ∀ j, 0 ≤ j < 1 → disk_block (a_disk (view (mkL3 b))) 2 j = 40).
    { intros j Hj. assert (j = 0) as -> by lia. exact Hb. }
    split; [unfold LOGSIZE, MAXOPBLOCKS; lia|intros; lia|intros j Hj; rewrite Hb' by done; lia|].
    intros j Hj. rewrite Hb' by done. unfold LOGSIZE, MAXOPBLOCKS. lia.
  - rewrite Hn. done.
  - exists (mkL3 b), s'. split; [exact E|]. rewrite <- Hb. apply Hr. rewrite Hn. lia.
Defined.
