(* ===== verification/Fs.v ===== *)
(** fs.c: block allocation, inodes, files, directories and path names, on top of the log.

    [fsst] is the state of the file system: the log layer with everything below it, the
    superblock and the inode cache.  Inode pointers are indices into the cache, a null
    pointer is [None].  The bytes of a disk block are the data of its buffer, and the C
    structures in it are read and written at their offsets.

    A file's bytes are copied to and from user memory by the process layer, [Caller]: the
    kernel side of a copy is the bytes of the buffer.  When the code passes a kernel
    address instead (user_dst = 0), the bytes themselves are the result or the argument.
    [fuel] bounds how often a thread may be woken from sleep() and have to sleep again. *)
From S2P Require Import Prelude Machine CString Spinlock Sched Sleeplock Bio Log.

(** fs.h *)
Definition ROOTINO : Z := 1.
Definition FSMAGIC : Z := 0x10203040.
Definition NDIRECT : Z := 12.
Definition NINDIRECT : Z := BSIZE / 4.
Definition MAXFILE : Z := NDIRECT + NINDIRECT.
Definition sizeof_dinode : Z := 8 + 4 + 4 * (NDIRECT + 1).
Definition IPB : Z := BSIZE / sizeof_dinode.
Definition BPB : Z := BSIZE * 8.
Definition DIRSIZ : Z := 14.
Definition sizeof_dirent : Z := 2 + DIRSIZ.

(** stat.h *)
Definition T_DIR : Z := 1.
Definition T_FILE : Z := 2.
Definition T_DEVICE : Z := 3.

(** struct superblock *)
Record superblock := mkSb {
  s_magic : Z;
  s_size : Z;
  s_nblocks : Z;
  s_ninodes : Z;
  s_nlog : Z;
  s_logstart : Z;
  s_inodestart : Z;
  s_bmapstart : Z
}.

Definition IBLOCK (i : Z) (sb : superblock) : Z := u32 (i / IPB + s_inodestart sb).
Definition BBLOCK (b : Z) (sb : superblock) : Z := u32 (b / BPB + s_bmapstart sb).

(** struct inode (file.h) *)
Record inode := mkInode {
  i_dev : Z;
  i_inum : Z;
  i_ref : Z;
  i_lock : sleeplock;
  i_valid : Z;
  i_type : Z;
  i_major : Z;
  i_minor : Z;
  i_nlink : Z;
  i_size : Z;
  i_addrs : Z → Z
}.

Definition set_idev v i := mkInode v (i_inum i) (i_ref i) (i_lock i) (i_valid i) (i_type i) (i_major i) (i_minor i) (i_nlink i) (i_size i) (i_addrs i).
Definition set_inum v i := mkInode (i_dev i) v (i_ref i) (i_lock i) (i_valid i) (i_type i) (i_major i) (i_minor i) (i_nlink i) (i_size i) (i_addrs i).
Definition set_iref v i := mkInode (i_dev i) (i_inum i) v (i_lock i) (i_valid i) (i_type i) (i_major i) (i_minor i) (i_nlink i) (i_size i) (i_addrs i).
Definition set_ilock v i := mkInode (i_dev i) (i_inum i) (i_ref i) v (i_valid i) (i_type i) (i_major i) (i_minor i) (i_nlink i) (i_size i) (i_addrs i).
Definition set_ivalid v i := mkInode (i_dev i) (i_inum i) (i_ref i) (i_lock i) v (i_type i) (i_major i) (i_minor i) (i_nlink i) (i_size i) (i_addrs i).
Definition set_type v i := mkInode (i_dev i) (i_inum i) (i_ref i) (i_lock i) (i_valid i) v (i_major i) (i_minor i) (i_nlink i) (i_size i) (i_addrs i).
Definition set_major v i := mkInode (i_dev i) (i_inum i) (i_ref i) (i_lock i) (i_valid i) (i_type i) v (i_minor i) (i_nlink i) (i_size i) (i_addrs i).
Definition set_minor v i := mkInode (i_dev i) (i_inum i) (i_ref i) (i_lock i) (i_valid i) (i_type i) (i_major i) v (i_nlink i) (i_size i) (i_addrs i).
Definition set_nlink v i := mkInode (i_dev i) (i_inum i) (i_ref i) (i_lock i) (i_valid i) (i_type i) (i_major i) (i_minor i) v (i_size i) (i_addrs i).
Definition set_isize v i := mkInode (i_dev i) (i_inum i) (i_ref i) (i_lock i) (i_valid i) (i_type i) (i_major i) (i_minor i) (i_nlink i) v (i_addrs i).
Definition set_addr k v i := mkInode (i_dev i) (i_inum i) (i_ref i) (i_lock i) (i_valid i) (i_type i) (i_major i) (i_minor i) (i_nlink i) (i_size i) (upd (i_addrs i) k v).

(** ** Structures in the bytes of a block *)
Definition ld8 (data : list Z) (off : Z) : Z := lmem data off.
Definition ld16 (data : list Z) (off : Z) : Z := load 2 (lmem data) off.
Definition st8 (data : list Z) (off v : Z) : list Z := <[Z.to_nat off := v]> data.
Definition st16 (data : list Z) (off v : Z) : list Z := st_bytes 2 data off v.

(** The bytes [off .. off + n - 1] of [data], and [data] with [new] stored from [off] on. *)
Definition slice (data : list Z) (off n : Z) : list Z := take (Z.to_nat n) (drop (Z.to_nat off) data).
Definition splice (data : list Z) (off : Z) (new : list Z) : list Z :=
  take (Z.to_nat off) data ++ new ++ drop (Z.to_nat off + length new) data.

(** struct superblock at the start of block 1 *)
Definition get_sb (data : list Z) : superblock :=
  mkSb (ld32 data 0) (ld32 data 4) (ld32 data 8) (ld32 data 12) (ld32 data 16) (ld32 data 20)
       (ld32 data 24) (ld32 data 28).

(** The fields of struct dinode at offset [o]: the copies of ilock() and of iupdate(). *)
Fixpoint get_addrs (k : nat) (j o : Z) (data : list Z) (ip : inode) : inode :=
  match k with
  | O => ip
  | S k => get_addrs k (j + 1) o data (set_addr j (ld32 data (o + 12 + 4 * j)) ip)
  end.
Definition get_dinode (data : list Z) (o : Z) (ip : inode) : inode :=
  let ip := set_type (s16 (ld16 data o)) ip in
  let ip := set_major (s16 (ld16 data (o + 2))) ip in
  let ip := set_minor (s16 (ld16 data (o + 4))) ip in
  let ip := set_nlink (s16 (ld16 data (o + 6))) ip in
  let ip := set_isize (ld32 data (o + 8)) ip in
  get_addrs (Z.to_nat (NDIRECT + 1)) 0 o data ip.

Fixpoint put_addrs (k : nat) (j o : Z) (ip : inode) (data : list Z) : list Z :=
  match k with
  | O => data
  | S k => put_addrs k (j + 1) o ip (st32 data (o + 12 + 4 * j) (i_addrs ip j))
  end.
Definition put_dinode (data : list Z) (o : Z) (ip : inode) : list Z :=
  let data := st16 data o (i_type ip) in
  let data := st16 data (o + 2) (i_major ip) in
  let data := st16 data (o + 4) (i_minor ip) in
  let data := st16 data (o + 6) (i_nlink ip) in
  let data := st32 data (o + 8) (i_size ip) in
  put_addrs (Z.to_nat (NDIRECT + 1)) 0 o ip data.

(** The bytes of a struct dirent *)
Definition de_inum (de : list Z) : Z := ld16 de 0.
Definition de_name (de : list Z) : list Z := drop 2 de.

(** ** The process layer, as the file system uses it *)
Class Caller (P : Type) := {
  copyout_bytes : Z → list Z → M P Z;          (* either_copyout(1, dst, bytes, n) *)
  copyin_bytes : list Z → Z → M P (Z * list Z); (* either_copyin(bytes, 1, src, n): the bytes after it *)
  my_cwd : M P (option Z)                       (* myproc()->cwd *)
}.

(** Where readi() puts and writei() takes the bytes. *)
Inductive rdst := ToUser (dst : Z) | ToKernel.
Inductive wsrc := FromUser (src : Z) | FromKernel (bytes : list Z).

Record fsst (P D : Type) := mkFs {
  f_l : lst P D;
  f_sb : superblock;
  ic_lock : spinlock;
  inodes : Z → inode
}.
Arguments mkFs {P D}.
Arguments f_l {P D}.
Arguments f_sb {P D}.
Arguments ic_lock {P D}.
Arguments inodes {P D}.

Section fs.
Context {P D : Type} `{Sched P} `{!Driver P D} `{!Caller P}.
Abbreviation st := (fsst P D).

Definition set_l v (s : st) : st := mkFs v (f_sb s) (ic_lock s) (inodes s).
Definition set_sb v (s : st) : st := mkFs (f_l s) v (ic_lock s) (inodes s).
Definition set_inodes v (s : st) : st := mkFs (f_l s) (f_sb s) (ic_lock s) v.

Definition on_l {A} (m : M (lst P D) A) : M st A := zoom f_l set_l m.
Definition on_b {A} (m : M (bst P D) A) : M st A := on_l (on_bio m).
Definition f_p (s : st) : P := b_p (l_b (f_l s)).
Definition set_fp (p : P) (s : st) : st :=
  set_l (set_b (mkB p (b_d (l_b (f_l s))) (bc_lock (l_b (f_l s))) (bufs (l_b (f_l s)))) (f_l s)) s.
Definition on_p {A} (m : M P A) : M st A := zoom f_p set_fp m.
Definition on_icache {A} (m : M (P * spinlock) A) : M st A :=
  zoom (λ s, (f_p s, ic_lock s))
       (λ '(p, lk) s, mkFs (f_l (set_fp p s)) (f_sb s) lk (inodes s)) m.
Definition on_ilock {A} (i : Z) (m : M (P * sleeplock) A) : M st A :=
  zoom (λ s, (f_p s, i_lock (inodes s i)))
       (λ '(p, l) s, set_inodes (upd (inodes s) i (set_ilock l (inodes s i))) (set_fp p s)) m.
Definition geti (i : Z) : M st inode := gets (λ s, inodes s i).
Definition puti (i : Z) (f : inode → inode) : M st unit :=
  modify (λ s, set_inodes (upd (inodes s) i (f (inodes s i))) s).
Definition data_of (b : Z) : M st (list Z) := x ← on_b (getb b); mret (b_data x).
Definition set_data_of (b : Z) (data : list Z) : M st unit := on_b (put b (set_data data)).

(** readsb(), fsinit() *)
Definition readsb (fuel : nat) (dev : Z) : M st unit :=
  bp ← on_b (bread fuel dev 1);
  data ← data_of bp;
  modify (set_sb (get_sb data));;
  on_b (brelse bp).

Definition fsinit (fuel : nat) (dev : Z) : M st unit :=
  readsb fuel dev;;
  sb ← gets f_sb;
  if negb (s_magic sb =? FSMAGIC) then panic "invalid file system"
  else on_l (initlog fuel dev (mkSbLog (s_logstart sb) (s_nlog sb))).

(** bzero() *)
Definition bzero (fuel : nat) (dev bno : Z) : M st unit :=
  bp ← on_b (bread fuel dev bno);
  set_data_of bp (replicate (Z.to_nat BSIZE) 0);;
  on_l (log_write bp);;
  on_b (brelse bp).

(** balloc(): the search for a clear bit in a block of the bitmap, then the loop over the
    blocks of the bitmap *)
Definition bit (bi : Z) : Z := Z.shiftl 1 (bi mod 8).

Fixpoint balloc_scan (k : nat) (bi b size : Z) (data : list Z) : option Z :=
  match k with
  | O => None
  | S k =>
    if b + bi <? size then
      if Z.land (ld8 data (bi / 8)) (bit bi) =? 0 then Some bi
      else balloc_scan k (bi + 1) b size data
    else None
  end.

Fixpoint balloc_loop (fuel k : nat) (dev b : Z) : M st Z :=
  sb ← gets f_sb;
  if b <? s_size sb then
    match k with
    | O => no_fuel
    | S k =>
      bp ← on_b (bread fuel dev (BBLOCK b sb));
      data ← data_of bp;
      match balloc_scan (Z.to_nat BPB) 0 b (s_size sb) data with
      | Some bi =>
        set_data_of bp (st8 data (bi / 8) (Z.lor (ld8 data (bi / 8)) (bit bi)));;
        on_l (log_write bp);;
        on_b (brelse bp);;
        bzero fuel dev (b + bi);;
        mret (b + bi)
      | None => on_b (brelse bp);; balloc_loop fuel k dev (b + BPB)
      end
    end
  else panic "balloc: out of blocks".

Definition balloc (fuel : nat) (dev : Z) : M st Z :=
  sb ← gets f_sb;
  balloc_loop fuel (Z.to_nat (s_size sb / BPB + 1)) dev 0.

(** bfree() *)
Definition bfree (fuel : nat) (dev b : Z) : M st unit :=
  sb ← gets f_sb;
  bp ← on_b (bread fuel dev (BBLOCK b sb));
  data ← data_of bp;
  let bi := b mod BPB in
  if Z.land (ld8 data (bi / 8)) (bit bi) =? 0 then panic "freeing free block"
  else
    set_data_of bp (st8 data (bi / 8) (Z.land (ld8 data (bi / 8)) (Z.lnot (bit bi))));;
    on_l (log_write bp);;
    on_b (brelse bp).

(** iinit() *)
Fixpoint iinit_loop (k : nat) (i : Z) : M st unit :=
  match k with
  | O => mret ()
  | S k => puti i (set_ilock (initsleeplock "inode"));; iinit_loop k (i + 1)
  end.
Definition iinit : M st unit :=
  modify (λ s, mkFs (f_l s) (f_sb s) (initlock "icache") (inodes s));;
  iinit_loop (Z.to_nat NINODE) 0.

(** iget(): the loop over the cache; [empty] is the slot remembered so far *)
Fixpoint iget_find (k : nat) (i dev inum : Z) (empty : option Z) (f : Z → inode) : Z + option Z :=
  match k with
  | O => inr empty
  | S k =>
    if (0 <? i_ref (f i)) && (i_dev (f i) =? dev) && (i_inum (f i) =? inum) then inl i
    else iget_find k (i + 1) dev inum
           (if bool_decide (empty = None) && (i_ref (f i) =? 0) then Some i else empty) f
  end.

Definition iget (dev inum : Z) : M st Z :=
  on_icache acq;;
  f ← gets inodes;
  match iget_find (Z.to_nat NINODE) 0 dev inum None f with
  | inl ip => puti ip (λ x, set_iref (i_ref x + 1) x);; on_icache rel;; mret ip
  | inr None => panic "iget: no inodes"
  | inr (Some ip) =>
    puti ip (set_idev dev);;
    puti ip (set_inum inum);;
    puti ip (set_iref 1);;
    puti ip (set_ivalid 0);;
    on_icache rel;;
    mret ip
  end.

(** ialloc() *)
Fixpoint ialloc_loop (fuel k : nat) (dev type inum : Z) : M st Z :=
  sb ← gets f_sb;
  if inum <? s_ninodes sb then
    match k with
    | O => no_fuel
    | S k =>
      bp ← on_b (bread fuel dev (IBLOCK inum sb));
      data ← data_of bp;
      let o := inum mod IPB * sizeof_dinode in
      if s16 (ld16 data o) =? 0 then
        set_data_of bp (st16 (splice data o (replicate (Z.to_nat sizeof_dinode) 0)) o type);;
        on_l (log_write bp);;
        on_b (brelse bp);;
        iget dev inum
      else on_b (brelse bp);; ialloc_loop fuel k dev type (inum + 1)
    end
  else panic "ialloc: no inodes".

Definition ialloc (fuel : nat) (dev type : Z) : M st Z :=
  sb ← gets f_sb;
  ialloc_loop fuel (Z.to_nat (s_ninodes sb)) dev type 1.

(** iupdate() *)
Definition iupdate (fuel : nat) (ip : Z) : M st unit :=
  sb ← gets f_sb;
  x ← geti ip;
  bp ← on_b (bread fuel (i_dev x) (IBLOCK (i_inum x) sb));
  data ← data_of bp;
  set_data_of bp (put_dinode data (i_inum x mod IPB * sizeof_dinode) x);;
  on_l (log_write bp);;
  on_b (brelse bp).

(** idup() *)
Definition idup (ip : Z) : M st Z :=
  on_icache acq;;
  puti ip (λ x, set_iref (i_ref x + 1) x);;
  on_icache rel;;
  mret ip.

(** ilock(), iunlock() *)
Definition ilock (fuel : nat) (p : option Z) : M st unit :=
  match p with
  | None => panic "ilock"
  | Some ip =>
    x ← geti ip;
    if i_ref x <? 1 then panic "ilock"
    else
      on_ilock ip (acquiresleep fuel (CInode ip));;
      x ← geti ip;
      if i_valid x =? 0 then
        sb ← gets f_sb;
        bp ← on_b (bread fuel (i_dev x) (IBLOCK (i_inum x) sb));
        data ← data_of bp;
        puti ip (get_dinode data (i_inum x mod IPB * sizeof_dinode));;
        on_b (brelse bp);;
        puti ip (set_ivalid 1);;
        x ← geti ip;
        if i_type x =? 0 then panic "ilock: no type" else mret ()
      else mret ()
  end.

Definition iunlock (p : option Z) : M st unit :=
  match p with
  | None => panic "iunlock"
  | Some ip =>
    r ← on_ilock ip holdingsleep;
    x ← geti ip;
    if negb r || (i_ref x <? 1) then panic "iunlock"
    else on_ilock ip (releasesleep (CInode ip))
  end.

(** bmap() *)
Definition bmap (fuel : nat) (ip bn : Z) : M st Z :=
  x ← geti ip;
  if bn <? NDIRECT then
    let addr := i_addrs x bn in
    if addr =? 0 then
      addr ← balloc fuel (i_dev x);
      puti ip (set_addr bn addr);;
      mret addr
    else mret addr
  else
    let bn := bn - NDIRECT in
    if bn <? NINDIRECT then
      addr ← (let addr := i_addrs x NDIRECT in
              if addr =? 0 then
                addr ← balloc fuel (i_dev x);
                puti ip (set_addr NDIRECT addr);;
                mret addr
              else mret addr);
      bp ← on_b (bread fuel (i_dev x) addr);
      data ← data_of bp;
      let addr := ld32 data (4 * bn) in
      addr ← (if addr =? 0 then
                addr ← balloc fuel (i_dev x);
                data ← data_of bp;
                set_data_of bp (st32 data (4 * bn) addr);;
                on_l (log_write bp);;
                mret addr
              else mret addr);
      on_b (brelse bp);;
      mret addr
    else panic "bmap: out of range".

(** itrunc() *)
Fixpoint itrunc_direct (fuel k : nat) (ip i : Z) : M st unit :=
  match k with
  | O => mret ()
  | S k =>
    x ← geti ip;
    when_ (negb (i_addrs x i =? 0))
      (bfree fuel (i_dev x) (i_addrs x i);; puti ip (set_addr i 0));;
    itrunc_direct fuel k ip (i + 1)
  end.

Fixpoint itrunc_indirect (fuel k : nat) (ip bp j : Z) : M st unit :=
  match k with
  | O => mret ()
  | S k =>
    data ← data_of bp;
    let a := ld32 data (4 * j) in
    x ← geti ip;
    when_ (negb (a =? 0)) (bfree fuel (i_dev x) a);;
    itrunc_indirect fuel k ip bp (j + 1)
  end.

Definition itrunc (fuel : nat) (ip : Z) : M st unit :=
  itrunc_direct fuel (Z.to_nat NDIRECT) ip 0;;
  x ← geti ip;
  when_ (negb (i_addrs x NDIRECT =? 0))
    (bp ← on_b (bread fuel (i_dev x) (i_addrs x NDIRECT));
     itrunc_indirect fuel (Z.to_nat NINDIRECT) ip bp 0;;
     on_b (brelse bp);;
     x ← geti ip;
     bfree fuel (i_dev x) (i_addrs x NDIRECT);;
     puti ip (set_addr NDIRECT 0));;
  puti ip (set_isize 0);;
  iupdate fuel ip.

(** iput(), iunlockput() *)
Definition iput (fuel : nat) (ip : Z) : M st unit :=
  on_icache acq;;
  x ← geti ip;
  when_ ((i_ref x =? 1) && negb (i_valid x =? 0) && (i_nlink x =? 0))
    (on_ilock ip (acquiresleep fuel (CInode ip));;
     on_icache rel;;
     itrunc fuel ip;;
     puti ip (set_type 0);;
     iupdate fuel ip;;
     puti ip (set_ivalid 0);;
     on_ilock ip (releasesleep (CInode ip));;
     on_icache acq);;
  puti ip (λ x, set_iref (i_ref x - 1) x);;
  on_icache rel.

Definition iunlockput (fuel : nat) (ip : Z) : M st unit :=
  iunlock (Some ip);;
  iput fuel ip.

(** stati(): struct stat *)
Record stat := mkStat { st_dev : Z; st_ino : Z; st_type : Z; st_nlink : Z; st_size : Z }.
Definition stati (ip : Z) : M st stat :=
  x ← geti ip;
  mret (mkStat (s32 (i_dev x)) (i_inum x) (i_type x) (i_nlink x) (i_size x)).

(** readi(): the number of bytes read and, for a kernel destination, the bytes *)
Definition advance_dst (d : rdst) (m : Z) : rdst :=
  match d with ToUser dst => ToUser (u64 (dst + m)) | ToKernel => ToKernel end.

Fixpoint readi_loop (fuel k : nat) (ip : Z) (dst : rdst) (off n tot : Z) (acc : list Z) : M st (Z * list Z) :=
  if tot <? n then
    match k with
    | O => no_fuel
    | S k =>
      x ← geti ip;
      addr ← bmap fuel ip (off / BSIZE);
      bp ← on_b (bread fuel (i_dev x) addr);
      data ← data_of bp;
      let m := Z.min (n - tot) (BSIZE - off mod BSIZE) in
      let bytes := slice data (off mod BSIZE) m in
      r ← match dst with ToUser dst => on_p (copyout_bytes dst bytes) | ToKernel => mret 0 end;
      if r =? -1 then on_b (brelse bp);; mret (tot, acc)
      else
        on_b (brelse bp);;
        readi_loop fuel k ip (advance_dst dst m) (u32 (off + m)) n (u32 (tot + m)) (acc ++ bytes)
    end
  else mret (tot, acc).

Definition readi (fuel : nat) (ip : Z) (dst : rdst) (off n : Z) : M st (Z * list Z) :=
  x ← geti ip;
  if (i_size x <? off) || (u32 (off + n) <? off) then mret (0, [])
  else
    let n := if i_size x <? u32 (off + n) then u32 (i_size x - off) else n in
    r ← readi_loop fuel (Z.to_nat (n / BSIZE + 2)) ip dst off n 0 [];
    mret (s32 (fst r), snd r).

(** writei(): the loop returns the final [off] *)
Definition advance_src (s : wsrc) (m : Z) : wsrc :=
  match s with
  | FromUser src => FromUser (u64 (src + m))
  | FromKernel bytes => FromKernel (drop (Z.to_nat m) bytes)
  end.

Fixpoint writei_loop (fuel k : nat) (ip : Z) (src : wsrc) (off n tot : Z) : M st Z :=
  if tot <? n then
    match k with
    | O => no_fuel
    | S k =>
      x ← geti ip;
      addr ← bmap fuel ip (off / BSIZE);
      bp ← on_b (bread fuel (i_dev x) addr);
      data ← data_of bp;
      let m := Z.min (n - tot) (BSIZE - off mod BSIZE) in
      p ← match src with
          | FromUser src => on_p (copyin_bytes (slice data (off mod BSIZE) m) src)
          | FromKernel bytes => mret (0, take (Z.to_nat m) bytes)
          end;
      set_data_of bp (splice data (off mod BSIZE) (snd p));;
      if fst p =? -1 then on_b (brelse bp);; mret off
      else
        on_l (log_write bp);;
        on_b (brelse bp);;
        writei_loop fuel k ip (advance_src src m) (u32 (off + m)) n (u32 (tot + m))
    end
  else mret off.

Definition writei (fuel : nat) (ip : Z) (src : wsrc) (off n : Z) : M st Z :=
  x ← geti ip;
  if (i_size x <? off) || (u32 (off + n) <? off) then mret (-1)
  else if MAXFILE * BSIZE <? u32 (off + n) then mret (-1)
  else
    off ← writei_loop fuel (Z.to_nat (n / BSIZE + 2)) ip src off n 0;
    when_ (0 <? n)
      (x ← geti ip;
       when_ (i_size x <? off) (puti ip (set_isize off));;
       iupdate fuel ip);;
    mret (s32 n).
End fs.

(** ** Names

    A C string is the list of its bytes; reading past the end of the list gives the NUL.
    A char name[DIRSIZ] is a list of DIRSIZ bytes. *)

(** Two strings in memory, the second one at [4096]. *)
Definition two (s t : list Z) : mem := λ a, if a <? 4096 then lmem s a else lmem t (a - 4096).

(** namecmp() *)
Definition namecmp (s t : list Z) : Z := strncmp (two s t) 0 4096 DIRSIZ.

(** strncpy(de.name, name, DIRSIZ) on the bytes of a directory entry *)
Definition put_name (de name : list Z) : list Z :=
  let m := strncpy (two de name) 2 4096 DIRSIZ in
  bytes (Z.to_nat sizeof_dirent) m 0.

(** skipelem() *)
Definition SLASH : Z := 47.

Fixpoint skip_slashes (path : list Z) : list Z :=
  match path with
  | c :: path' => if c =? SLASH then skip_slashes path' else path
  | [] => []
  end.

(** The loop over the bytes up to the next slash: the bytes passed over, and the rest. *)
Fixpoint take_elem (path : list Z) : list Z * list Z :=
  match path with
  | c :: path' =>
    if (c =? SLASH) || (c =? 0) then ([], path)
    else let '(s, rest) := take_elem path' in (c :: s, rest)
  | [] => ([], [])
  end.

Definition skipelem (path name : list Z) : option (list Z * list Z) :=
  let path := skip_slashes path in
  if lmem path 0 =? 0 then None
  else
    let '(s, rest) := take_elem path in
    let len := Z.of_nat (length s) in
    let name := if DIRSIZ <=? len then take (Z.to_nat DIRSIZ) s
                else s ++ [0] ++ drop (length s + 1) name in
    Some (skip_slashes rest, name).

Section names.
Context {P D : Type} `{Sched P} `{!Driver P D} `{!Caller P}.
Abbreviation st := (fsst P D).

(** dirlookup(): the inode and, for [*poff], the offset of the entry *)
Fixpoint dirlookup_loop (fuel k : nat) (dp : Z) (name : list Z) (off : Z) : M st (option (Z * Z)) :=
  x ← geti dp;
  if off <? i_size x then
    match k with
    | O => no_fuel
    | S k =>
      p ← readi fuel dp ToKernel off sizeof_dirent;
      if negb (fst p =? sizeof_dirent) then panic "dirlookup read"
      else
        let de := snd p in
        if de_inum de =? 0 then dirlookup_loop fuel k dp name (u32 (off + sizeof_dirent))
        else if namecmp name (de_name de) =? 0 then
          ip ← iget (i_dev x) (de_inum de);
          mret (Some (ip, off))
        else dirlookup_loop fuel k dp name (u32 (off + sizeof_dirent))
    end
  else mret None.

Definition dirlookup (fuel : nat) (dp : Z) (name : list Z) : M st (option (Z * Z)) :=
  x ← geti dp;
  if negb (i_type x =? T_DIR) then panic "dirlookup not DIR"
  else dirlookup_loop fuel (Z.to_nat (i_size x / sizeof_dirent + 1)) dp name 0.

(** dirlink(): the search for a free entry gives its offset and the last entry read *)
Fixpoint dirlink_find (fuel k : nat) (dp off : Z) (de : list Z) : M st (Z * list Z) :=
  x ← geti dp;
  if off <? i_size x then
    match k with
    | O => no_fuel
    | S k =>
      p ← readi fuel dp ToKernel off sizeof_dirent;
      if negb (fst p =? sizeof_dirent) then panic "dirlink read"
      else if de_inum (snd p) =? 0 then mret (off, snd p)
      else dirlink_find fuel k dp (off + sizeof_dirent) (snd p)
    end
  else mret (off, de).

(** [de0] is what the uninitialized struct dirent holds *)
Definition dirlink (fuel : nat) (dp : Z) (name : list Z) (inum : Z) (de0 : list Z) : M st Z :=
  r ← dirlookup fuel dp name;
  match r with
  | Some (ip, _) => iput fuel ip;; mret (-1)
  | None =>
    x ← geti dp;
    p ← dirlink_find fuel (Z.to_nat (i_size x / sizeof_dirent + 1)) dp 0 de0;
    let '(off, de) := p in
    let de := put_name de name in
    let de := st16 de 0 inum in
    r ← writei fuel dp (FromKernel de) off sizeof_dirent;
    if negb (r =? sizeof_dirent) then panic "dirlink" else mret 0
  end.

(** namex(): an inode, and the name buffer *)
Fixpoint namex_loop (fuel k : nat) (ip : Z) (path : list Z) (parent : bool) (name : list Z)
    : M st (option Z * list Z) :=
  match skipelem path name with
  | None => if parent then iput fuel ip;; mret (None, name) else mret (Some ip, name)
  | Some (path, name) =>
    match k with
    | O => no_fuel
    | S k =>
      ilock fuel (Some ip);;
      x ← geti ip;
      if negb (i_type x =? T_DIR) then iunlockput fuel ip;; mret (None, name)
      else if parent && (lmem path 0 =? 0) then iunlock (Some ip);; mret (Some ip, name)
      else
        next ← dirlookup fuel ip name;
        match next with
        | None => iunlockput fuel ip;; mret (None, name)
        | Some (next, _) => iunlockput fuel ip;; namex_loop fuel k next path parent name
        end
    end
  end.

Definition namex (fuel : nat) (path : list Z) (parent : bool) (name : list Z) : M st (option Z * list Z) :=
  ip ← (if lmem path 0 =? SLASH then iget ROOTDEV ROOTINO
        else
          cwd ← on_p my_cwd;
          match cwd with Some cwd => idup cwd | None => panic "kerneltrap" end);
  namex_loop fuel (length path) ip path parent name.

(** namei(), nameiparent(); [name0] is what the buffer on the stack holds *)
Definition namei (fuel : nat) (path name0 : list Z) : M st (option Z) :=
  r ← namex fuel path false name0;
  mret (fst r).

Definition nameiparent (fuel : nat) (path name : list Z) : M st (option Z * list Z) :=
  namex fuel path true name.
End names.
