(* ===== verification/FsCodec.v ===== *)
(** The pure parts of fs.c: inodes in the bytes of a block, bits of the free map, path
    names split into elements, names in directory entries. *)
From S2P Require Import Prelude Machine CString Spinlock Sched Sleeplock Bio Log LogSpec Fs.

(** ** Inodes in a block *)

(** Values of [n] bytes at offsets of a block that do not overlap. *)
Lemma load_st_bytes_ne n k data off off' v :
  0 ≤ off → off + Z.of_nat n ≤ Z.of_nat (length data) → 0 ≤ off' →
  off' + Z.of_nat k ≤ off ∨ off + Z.of_nat n ≤ off' →
  load k (lmem (st_bytes n data off v)) off' = load k (lmem data) off'.
Proof. intros. apply load_ext. intros x Hx. apply st_bytes_out; lia. Qed.

Lemma s16_mod x : s16 (x mod 2 ^ 16) = s16 x.
Proof.
  unfold s16. f_equal. rewrite Z.add_mod_idemp_l by lia. done.
Qed.

Lemma s16_small x : - 2 ^ 15 ≤ x < 2 ^ 15 → s16 x = x.
Proof. intros. unfold s16. rewrite Z.mod_small; lia. Qed.

Lemma ld16_st16_eq data off v :
  0 ≤ off → off + 2 ≤ Z.of_nat (length data) → s16 (ld16 (st16 data off v) off) = s16 v.
Proof. intros. unfold ld16, st16. rewrite load_st_bytes by (simpl; lia). apply s16_mod. Qed.

Lemma length_st16 data off v : length (st16 data off v) = length data.
Proof. apply length_st_bytes. Qed.

Lemma length_put_addrs k j o ip data : length (put_addrs k j o ip data) = length data.
Proof. revert j data. induction k as [|k IH]; intros; cbn [put_addrs]; [done|]. rewrite IH. apply length_st32. Qed.

Lemma length_put_dinode data o ip : length (put_dinode data o ip) = length data.
Proof. unfold put_dinode. by rewrite length_put_addrs, length_st32, !length_st16. Qed.

(** put_addrs writes [addrs] only. *)
Lemma put_addrs_out n k j o ip data off :
  0 ≤ o → 0 ≤ j → o + 12 + 4 * (j + Z.of_nat k) ≤ Z.of_nat (length data) → 0 ≤ off →
  off + Z.of_nat n ≤ o + 12 + 4 * j ∨ o + 12 + 4 * (j + Z.of_nat k) ≤ off →
  load n (lmem (put_addrs k j o ip data)) off = load n (lmem data) off.
Proof.
  revert j data. induction k as [|k IH]; intros j data Ho Hj Hl Hoff Hd; cbn [put_addrs]; [done|].
  rewrite IH by (rewrite ?length_st32; lia). apply load_st_bytes_ne; simpl; lia.
Qed.

Lemma put_addrs_in k j o ip data i :
  0 ≤ o → 0 ≤ j → o + 12 + 4 * (j + Z.of_nat k) ≤ Z.of_nat (length data) → j ≤ i < j + Z.of_nat k →
  ld32 (put_addrs k j o ip data) (o + 12 + 4 * i) = u32 (i_addrs ip i).
Proof.
  revert j data. induction k as [|k IH]; intros j data Ho Hj Hl Hi; [lia|]. cbn [put_addrs].
  destruct (Z.eqb_spec i j) as [->|].
  - unfold ld32, load32. rewrite put_addrs_out by (rewrite ?length_st32; lia). apply ld32_st32_eq; lia.
  - apply IH; rewrite ?length_st32; lia.
Qed.

Lemma get_addrs_spec k j o data ip :
  let ip' := get_addrs k j o data ip in
  i_dev ip' = i_dev ip ∧ i_inum ip' = i_inum ip ∧ i_ref ip' = i_ref ip ∧ i_lock ip' = i_lock ip ∧
  i_valid ip' = i_valid ip ∧ i_type ip' = i_type ip ∧ i_major ip' = i_major ip ∧ i_minor ip' = i_minor ip ∧
  i_nlink ip' = i_nlink ip ∧ i_size ip' = i_size ip ∧
  ∀ i, i_addrs ip' i = if (j <=? i) && (i <? j + Z.of_nat k) then ld32 data (o + 12 + 4 * i) else i_addrs ip i.
Proof.
  revert j ip. induction k as [|k IH]; intros j ip; cbn [get_addrs].
  - split_and!; try done. intros i. repeat zcmp; cbn; done || lia.
  - destruct (IH (j + 1) (set_addr j (ld32 data (o + 12 + 4 * j)) ip))
      as (? & ? & ? & ? & ? & ? & ? & ? & ? & ? & Ha). split_and!; try done.
    intros i. rewrite Ha. cbn [set_addr i_addrs]. unfold upd. repeat zcmp; cbn; subst; done || lia.
Qed.

(** What is on disk of an inode, in the ranges of its C types. *)
Record dinode_ok (ip : inode) : Prop := {
  do_type : - 2 ^ 15 ≤ i_type ip < 2 ^ 15;
  do_major : - 2 ^ 15 ≤ i_major ip < 2 ^ 15;
  do_minor : - 2 ^ 15 ≤ i_minor ip < 2 ^ 15;
  do_nlink : - 2 ^ 15 ≤ i_nlink ip < 2 ^ 15;
  do_size : 0 ≤ i_size ip < 2 ^ 32;
  do_addrs : ∀ j, 0 ≤ j ≤ NDIRECT → 0 ≤ i_addrs ip j < 2 ^ 32
}.

(** Where the inode [inum] is in its block. *)
Definition inode_off (inum : Z) : Z := inum mod IPB * sizeof_dinode.

Lemma inode_off_range inum : 0 ≤ inode_off inum ∧ inode_off inum + sizeof_dinode ≤ BSIZE.
Proof.
  unfold inode_off. assert (0 ≤ inum mod IPB < IPB) by (apply Z.mod_pos_bound; done).
  change IPB with 16 in *. change sizeof_dinode with 64. change BSIZE with 1024. lia.
Qed.

(** Read back the value stored at an offset, past the stores at other offsets. *)
Ltac read_field Hfix :=
  unfold ld16, ld32, load32; rewrite Hfix by (simpl; lia); unfold st32, st16;
  repeat (rewrite load_st_bytes_ne by (rewrite ?length_st_bytes; simpl; lia));
  rewrite load_st_bytes by (rewrite ?length_st_bytes; simpl; lia).

(** The copies of iupdate() and of ilock(). Reading an inode back from the block it was written to
    gives its type, device numbers, link count, size and block addresses (and leaves the fields that
    are only in memory), whatever was in the block; and every other inode of the block
    reads as before. *)
Lemma dinode_roundtrip (data : list Z) (inum : Z) (ip ip0 : inode) :
  length data = Z.to_nat BSIZE → dinode_ok ip →
  let data' := put_dinode data (inode_off inum) ip in
  let ip' := get_dinode data' (inode_off inum) ip0 in
  i_type ip' = i_type ip ∧ i_major ip' = i_major ip ∧ i_minor ip' = i_minor ip ∧
  i_nlink ip' = i_nlink ip ∧ i_size ip' = i_size ip ∧
  (∀ j, 0 ≤ j ≤ NDIRECT → i_addrs ip' j = i_addrs ip j) ∧
  i_dev ip' = i_dev ip0 ∧ i_inum ip' = i_inum ip0 ∧ i_ref ip' = i_ref ip0 ∧ i_lock ip' = i_lock ip0 ∧
  ∀ off, 0 ≤ off → off < inode_off inum ∨ inode_off inum + sizeof_dinode ≤ off → lmem data' off = lmem data off.
Proof.
  intros Hlen [Ht Hma Hmi Hn Hs Ha]. pose proof (inode_off_range inum) as [Ho1 Ho2].
  set (o := inode_off inum) in *. change sizeof_dinode with 64 in *. change BSIZE with 1024 in *. intros data' ip'.
  unfold ip', get_dinode.
  destruct (get_addrs_spec (Z.to_nat (NDIRECT + 1)) 0 o data'
    (set_isize (ld32 data' (o + 8)) (set_nlink (s16 (ld16 data' (o + 6))) (set_minor (s16 (ld16 data' (o + 4)))
      (set_major (s16 (ld16 data' (o + 2))) (set_type (s16 (ld16 data' o)) ip0))))))
    as (Ed & Ei & Er & El & Ev & Et & Ema & Emi & En & Es & Eadr).
  rewrite Ed, Ei, Er, El, Et, Ema, Emi, En, Es.
  cbn [set_isize set_nlink set_minor set_major set_type i_dev i_inum i_ref i_lock i_type i_major i_minor i_nlink i_size].
  change (Z.to_nat (NDIRECT + 1)) with 13%nat in *. change NDIRECT with 12 in *.
  assert (Hfix : ∀ n off, 0 ≤ off → off + Z.of_nat n ≤ o + 12 →
    load n (lmem data') off = load n (lmem (st32 (st16 (st16 (st16 (st16 data o (i_type ip)) (o + 2) (i_major ip))
      (o + 4) (i_minor ip)) (o + 6) (i_nlink ip)) (o + 8) (i_size ip))) off).
  { intros n off Hoff Hle. unfold data', put_dinode. change (Z.to_nat (NDIRECT + 1)) with 13%nat.
    apply put_addrs_out; rewrite ?length_st32, ?length_st16; lia. }
  split_and!; try done; try (read_field Hfix; rewrite s16_mod; by apply s16_small).
  - read_field Hfix. by apply Z.mod_small.
  - intros j Hj. rewrite Eadr. destruct (Z.leb_spec 0 j), (Z.ltb_spec j (0 + Z.of_nat 13)); cbn [andb]; try lia.
    unfold data', put_dinode. change (Z.to_nat (NDIRECT + 1)) with 13%nat.
    rewrite put_addrs_in by (rewrite ?length_st32, ?length_st16; lia). apply u32_small. auto.
  - intros off Hoff Hd. unfold data', put_dinode. change (Z.to_nat (NDIRECT + 1)) with 13%nat.
    pose proof (put_addrs_out 1 13 0 o ip) as Hx. cbn [load] in Hx.
    assert (Hl1 : ∀ d, load 1 (lmem d) off = lmem d off) by (intros; cbn [load]; lia).
    rewrite <- !Hl1. rewrite put_addrs_out by (rewrite ?length_st32, ?length_st16; simpl; lia).
    unfold st32, st16. by repeat rewrite load_st_bytes_ne by (rewrite ?length_st_bytes; simpl; lia).
Qed.

(** The metadata that two inodes share on disk, and what is only in memory. *)
Definition same_dinode (x y : inode) : Prop :=
  i_type x = i_type y ∧ i_major x = i_major y ∧ i_minor x = i_minor y ∧ i_nlink x = i_nlink y ∧
  i_size x = i_size y ∧ ∀ j, 0 ≤ j ≤ NDIRECT → i_addrs x j = i_addrs y j.
Definition same_mem (x y : inode) : Prop :=
  i_dev x = i_dev y ∧ i_inum x = i_inum y ∧ i_ref x = i_ref y ∧ i_lock x = i_lock y.

Lemma dinode_reads data inum ip ip0 :
  length data = Z.to_nat BSIZE → dinode_ok ip →
  same_dinode (get_dinode (put_dinode data (inode_off inum) ip) (inode_off inum) ip0) ip.
Proof.
  intros Hl Hok. destruct (dinode_roundtrip data inum ip ip0 Hl Hok) as (? & ? & ? & ? & ? & ? & _). 
  unfold same_dinode. split_and!; assumption.
Qed.

Lemma get_dinode_mem data o ip0 : same_mem (get_dinode data o ip0) ip0.
Proof.
  unfold get_dinode.
  destruct (get_addrs_spec (Z.to_nat (NDIRECT + 1)) 0 o data
    (set_isize (ld32 data (o + 8)) (set_nlink (s16 (ld16 data (o + 6))) (set_minor (s16 (ld16 data (o + 4)))
      (set_major (s16 (ld16 data (o + 2))) (set_type (s16 (ld16 data o)) ip0))))))
    as (Ed & Ei & Er & El & _).
  unfold same_mem. rewrite Ed, Ei, Er, El. cbn [set_isize set_nlink set_minor set_major set_type i_dev i_inum i_ref i_lock]. auto.
Qed.

Lemma same_dinode_valid v x y : same_dinode x y → same_dinode (set_ivalid v x) y.
Proof. done. Qed.

Lemma same_mem_valid v x y : same_mem x y → same_mem (set_ivalid v x) y.
Proof. done. Qed.

Definition ip17 : inode := mkInode 1 17 1 (initsleeplock "") 1 T_FILE 0 0 1 3000 (λ j, 100 + j).
Definition block7 : list Z := replicate (Z.to_nat BSIZE) 7.

Lemma ip17_ok : dinode_ok ip17.
Proof.
  split; cbn [ip17 i_type i_major i_minor i_nlink i_size i_addrs]; try (unfold T_FILE; lia).
  intros j Hj. unfold NDIRECT in Hj. lia.
Qed.

(** ** Path names *)

(** The elements of a path up to its NUL: the runs of bytes between slashes. *)
Fixpoint elems_from (cur path : list Z) : list (list Z) :=
  match path with
  | [] => if decide (cur = []) then [] else [cur]
  | c :: path =>
    if c =? 0 then (if decide (cur = []) then [] else [cur])
    else if c =? SLASH then (if decide (cur = []) then elems_from [] path else cur :: elems_from [] path)
    else elems_from (cur ++ [c]) path
  end.
Definition elems (path : list Z) : list (list Z) := elems_from [] path.

(** The bytes of the name buffer when it holds [e]: all of a short name with its NUL, the first
    DIRSIZ bytes of a long one. *)
Definition holds_name (e name : list Z) : Prop :=
  if DIRSIZ <=? Z.of_nat (length e) then name = take (Z.to_nat DIRSIZ) e
  else take (length e + 1) name = e ++ [0].

Lemma skip_slashes_elems path : elems (skip_slashes path) = elems path.
Proof.
  induction path as [|c path IH]; [done|]. cbn [skip_slashes].
  destruct (Z.eqb_spec c SLASH) as [->|]; [|done]. rewrite IH. done.
Qed.

Lemma skip_slashes_length path : (length (skip_slashes path) ≤ length path)%nat.
Proof. induction path as [|c path IH]; [done|]. cbn [skip_slashes length]. destruct (c =? SLASH); cbn [length]; lia. Qed.

Lemma skip_slashes_head path : ∀ c rest, skip_slashes path = c :: rest → c ≠ SLASH.
Proof.
  induction path as [|x path IH]; intros c rest; cbn [skip_slashes]; [done|].
  destruct (Z.eqb_spec x SLASH); [apply IH|]. by intros [= <- _].
Qed.

(** The bytes of an element. *)
Definition elem_byte (c : Z) : Prop := c ≠ SLASH ∧ c ≠ 0.

Lemma take_elem_spec path s rest :
  take_elem path = (s, rest) →
  path = s ++ rest ∧ Forall elem_byte s ∧ (∀ c r, rest = c :: r → c = SLASH ∨ c = 0).
Proof.
  revert s rest. induction path as [|c path IH]; intros s rest; cbn [take_elem].
  - intros [= <- <-]. split; [done|]. split; [constructor|]. done.
  - destruct (Z.eqb_spec c SLASH) as [->|Hs]; cbn [orb].
    { intros [= <- <-]. split; [done|]. split; [constructor|]. intros c r [= <- _]. by left. }
    destruct (Z.eqb_spec c 0) as [->|H0].
    { intros [= <- <-]. split; [done|]. split; [constructor|]. intros c r [= <- _]. by right. }
    destruct (take_elem path) as [s' rest'] eqn:E. intros [= <- <-].
    destruct (IH _ _ eq_refl) as (-> & Hf & Hr). split; [done|]. split; [by constructor|done].
Qed.

Lemma elems_from_run cur s rest :
  Forall elem_byte s → elems_from cur (s ++ rest) = elems_from (cur ++ s) rest.
Proof.
  revert cur. induction s as [|c s IH]; intros cur Hf; [by rewrite app_nil_r|].
  apply Forall_cons in Hf as [[Hs H0] Hf]. cbn [app elems_from].
  destruct (Z.eqb_spec c 0), (Z.eqb_spec c SLASH); try done. rewrite IH by done. by rewrite <- app_assoc.
Qed.

Lemma elems_from_end cur rest :
  cur ≠ [] → (∀ c r, rest = c :: r → c = SLASH ∨ c = 0) → elems_from cur rest = cur :: elems rest.
Proof.
  intros Hc Hr. destruct rest as [|c rest]; cbn [elems_from].
  - by rewrite decide_False.
  - unfold elems. cbn [elems_from]. destruct (Hr c rest eq_refl) as [->| ->]; cbn [Z.eqb SLASH];
      by rewrite decide_False.
Qed.

(** Skipelem() takes a path apart. It returns 0 exactly when no element is left; otherwise what it
    returns has the remaining elements, in order, and no leading slash, the name
    buffer holds the first element (cut to DIRSIZ bytes), and the path has become shorter,
    so namex()'s loop ends. *)
Theorem skipelem_correct (path name : list Z) :
  length name = Z.to_nat DIRSIZ →
  match skipelem path name with
  | None => elems path = []
  | Some (rest, name') =>
    ∃ e, elems path = e :: elems rest ∧ e ≠ [] ∧ holds_name e name' ∧ length name' = Z.to_nat DIRSIZ ∧
      (length rest < length path)%nat ∧ ∀ c r, rest = c :: r → c ≠ SLASH
  end.
Proof.
  intros Hn. unfold skipelem. rewrite <- (skip_slashes_elems path).
  pose proof (skip_slashes_length path) as Hl. pose proof (skip_slashes_head path) as Hh.
  set (p := skip_slashes path) in *. destruct p as [|c p]; [done|].
  change (lmem (c :: p) 0) with c. destruct (Z.eqb_spec c 0) as [->|H0]; [done|].
  destruct (take_elem (c :: p)) as [s rest] eqn:E. destruct (take_elem_spec _ _ _ E) as (Ep & Hf & Hr).
  assert (Hs : s ≠ []).
  { intros ->. cbn in Ep. subst rest. destruct (Hr _ _ eq_refl) as [->|]; [|done]. by apply (Hh SLASH p). }
  exists s. rewrite Ep. unfold elems at 1. rewrite elems_from_run by done. cbn [app].
  rewrite elems_from_end by done. rewrite skip_slashes_elems. split; [done|]. split; [done|].
  assert (Hlen : (length (skip_slashes rest) < length path)%nat).
  { pose proof (skip_slashes_length rest). rewrite Ep, length_app in Hl. destruct s; cbn in *; [done|lia]. }
  unfold holds_name. change (Z.to_nat DIRSIZ) with 14%nat in *.
  destruct (Z.leb_spec DIRSIZ (Z.of_nat (length s))) as [Hd|Hd]; unfold DIRSIZ in Hd.
  - split; [done|]. split; [rewrite length_take; lia|]. split; [done|]. apply skip_slashes_head.
  - split; [|split; [|split; [done|apply skip_slashes_head]]].
    + rewrite cons_middle, app_assoc, take_app_le by (rewrite length_app; cbn; lia).
      rewrite take_ge; [done|]. rewrite length_app. cbn. lia.
    + cbn [app]. rewrite length_app. cbn [length]. rewrite length_drop. lia.
Qed.

(** skipelem("///a//bb", name): 47 is the slash, 97 and 98 the letters. *)
Definition path_a_bb : list Z := [47; 47; 47; 97; 47; 47; 98; 98].

Lemma skipelem_correct_witness : ∃ e, elems path_a_bb = e :: elems [98; 98] ∧ e ≠ [].
Proof.
  destruct (skipelem_correct path_a_bb (replicate 14 255) eq_refl) as (e & He & Hne & _).
  exists e. split; [exact He|exact Hne].
Defined.
