(* ===== verification/FsView.v ===== *)
(** The state of the file system inside a system call, as fs.c uses it.

    Between begin_op() and end_op() the code of fs.c holds a few buffers, and the log has
    some blocks.  [fsv] is that view of the state: the contents of the blocks, the set of
    logged blocks, the held blocks with their buffers, and the inode cache; [frel] relates it to the state
    of Fs.v.  Each operation of the layers below is one rule on the view, so that the
    functions of fs.c are verified by applying these rules. *)
From stdpp Require Import gmap.
From Stdlib Require Import FunctionalExtensionality.
From S2P Require Import Prelude Machine CString Spinlock Sched Sleeplock Bio BioSpec Log LogSpec LogCrash LogTrans Fs FsCodec.

Abbreviation blocks := (gset Z).

(** What does not change during a system call: the log's place, the disk, the caller. *)
Record fenv := mkE {
  e_out : Z;
  e_start : Z;
  e_size : Z;
  e_disk : Z → list Z;
  e_pid : Z
}.

Record fsv (P : Type) := mkV {
  v_c : Z → list Z;
  v_lg : blocks;
  v_hs : gmap Z Z;
  v_sb : superblock;
  v_in : Z → inode;
  v_ic : option P
}.
Arguments mkV {P}.
Arguments v_c {P}.
Arguments v_lg {P}.
Arguments v_hs {P}.
Arguments v_sb {P}.
Arguments v_in {P}.
Arguments v_ic {P}.

Section view.
Context {P D : Type} `{DriverOk P D}.
Abbreviation lst := (lst P D).

Abbreviation dev := ROOTDEV.
#[local] Opaque abs.

Definition vset_c c (v : fsv P) : fsv P := mkV c (v_lg v) (v_hs v) (v_sb v) (v_in v) (v_ic v).
Definition vset_lg lg (v : fsv P) : fsv P := mkV (v_c v) lg (v_hs v) (v_sb v) (v_in v) (v_ic v).
Definition vset_hs hs (v : fsv P) : fsv P := mkV (v_c v) (v_lg v) hs (v_sb v) (v_in v) (v_ic v).
Definition vset_in f (v : fsv P) : fsv P := mkV (v_c v) (v_lg v) (v_hs v) (v_sb v) f (v_ic v).
Definition vset_ic p (v : fsv P) : fsv P := mkV (v_c v) (v_lg v) (v_hs v) (v_sb v) (v_in v) p.

(** ** The log layer *)
Record lrel (e : fenv) (c : Z → list Z) (lg : blocks) (hs : gmap Z Z) (s : lst) : Prop := {
  lr_inv : ∃ order, binv None (l_b s) order;
  lr_dev : l_dev s = dev;
  lr_lock : lock_free (l_lock s);
  lr_out : l_outstanding s = e_out e;
  lr_com : l_committing s = 0;
  lr_start : l_start s = e_start e;
  lr_size : l_size s = e_size e;
  lr_tx : trans_ok (l_start s) (lh_n s) (lh_block s);
  lr_lg : ∀ b, b ∈ lg ↔ ∃ j, 0 ≤ j < lh_n s ∧ lh_block s j = b;
  lr_n : Z.of_nat (size lg) = lh_n s;
  lr_c : a_content (view s) = c;
  lr_disk : a_disk (view s) = e_disk e;
  lr_ref : ∀ b, a_ref (view s) b = b2z (bool_decide (b ∈ lg)) + b2z (bool_decide (is_Some (hs !! b)));
  lr_locks : ∀ b, a_lock (view s) b = bool_decide (is_Some (hs !! b));
  lr_free : a_free (view s) = NBUF - Z.of_nat (size (lg ∪ dom hs));
  lr_empty : disk_n (e_disk e) (l_start s) = 0;
  lr_holds : ∀ b i, hs !! b = Some i → holds dev b i (l_b s)
}.

(** The same, at the beginning and at the end of a transaction. *)
Lemma lrel_log_ok e c lg (s : lst) : lrel e c lg ∅ s → log_ok (e_out e) s.
Proof.
  intros [Hi Hd Hl Ho Hc Hst Hsz Htx Hlg Hn Hco Hdi Hr Hlk Hf He _]. split; try done.
  - intros j Hj. rewrite Hr, lookup_empty. rewrite bool_decide_true by (apply Hlg; eauto). done.
  - intros b Hb. rewrite Hr, lookup_empty. rewrite bool_decide_false; [done|].
    intros (j & Hj & E)%Hlg. by apply (Hb j).
  - rewrite Hf, dom_empty_L, union_empty_r_L. lia.
  - by rewrite Hdi.
Qed.

Lemma log_ok_lrel out (s : lst) :
  log_ok out s → lh_n s = 0 →
  lrel (mkE out (l_start s) (l_size s) (a_disk (view s)) (so_id (b_p (l_b s)))) (a_content (view s)) ∅ ∅ s.
Proof.
  intros [Hi Hd Hl Ho Hc Htx Hp Hr Hlk Hf He] Hn. split; try done.
  - intros b. split; [set_solver|]. intros (j & Hj & _). lia.
  - intros b. rewrite Hr by lia. done.
  - rewrite Hf, dom_empty_L, union_empty_r_L, size_empty. lia.
Qed.

(** A block that is neither held nor logged is as on disk; blocks have BSIZE bytes. *)
Lemma lrel_clean e c lg hs (s : lst) b :
  lrel e c lg hs s → b ∉ lg → hs !! b = None → c b = e_disk e b.
Proof.
  intros [(o & Hi) ? ? ? ? ? ? ? ? ? Hc Hd Hr ? ? ? ?] Hb Hh. rewrite <- Hc, <- Hd.
  apply (unused_clean (l_b s) o b Hi). fold (view s). rewrite Hr, Hh, bool_decide_false by done. done.
Qed.

Lemma lrel_length e c lg hs (s : lst) b : lrel e c lg hs s → length (c b) = Z.to_nat BSIZE.
Proof. intros [(o & Hi) ? ? ? ? ? ? ? ? ? Hc ? ? ? ? ? ?]. rewrite <- Hc. by eapply content_length. Qed.

(** The buffers in use: a block more or less. *)
Lemma size_dom_insert (lg : blocks) (hs : gmap Z Z) b i :
  hs !! b = None →
  size (lg ∪ dom (<[b := i]> hs)) = (size (lg ∪ dom hs) + if bool_decide (b ∈ lg) then 0 else 1)%nat.
Proof.
  intros Hb. rewrite dom_insert_L. apply not_elem_of_dom in Hb. case_bool_decide.
  - replace (lg ∪ ({[b]} ∪ dom hs)) with (lg ∪ dom hs) by set_solver. lia.
  - replace (lg ∪ ({[b]} ∪ dom hs)) with ({[b]} ∪ (lg ∪ dom hs)) by set_solver.
    rewrite size_union by set_solver. rewrite size_singleton. lia.
Qed.

Lemma size_dom_delete (lg : blocks) (hs : gmap Z Z) b i :
  hs !! b = Some i →
  size (lg ∪ dom hs) = (size (lg ∪ dom (delete b hs)) + if bool_decide (b ∈ lg) then 0 else 1)%nat.
Proof.
  intros Hb. rewrite <- (insert_delete_id hs b i Hb) at 1. apply size_dom_insert. apply lookup_delete_eq.
Qed.

(** ** The rules of the block layer and of log_write() *)
Ltac lred := cbn [set_n set_lhblock set_b l_b l_lock l_start l_size l_outstanding l_committing l_dev lh_n lh_block] in *.

Lemma wp_l_bread fuel e c lg hs (s : lst) bn (Q : Z → lst → Prop) :
  lrel e c lg hs s → hs !! bn = None → bn ∈ lg ∨ Z.of_nat (size (lg ∪ dom hs)) < NBUF →
  (∀ i s', lrel e c lg (<[bn := i]> hs) s' → calm (b_p (l_b s)) (b_p (l_b s')) → Q i s') →
  wp (on_bio (bread fuel dev bn)) Q s.
Proof.
  intros [(o & Hi) Hd Hl Ho Hc Hst Hsz Htx Hlg Hn Hco Hdi Hr Hlk Hf He Hh] Hbn Hroom HQ.
  apply wp_zoom. eapply wp_bread; [exact Hi|reflexivity|fold (view s)|].
  { split.
    - by rewrite Hlk, Hbn.
    - rewrite Hr. do 2 case_bool_decide; simpl; lia.
    - rewrite Hr, Hbn, Hf. destruct (bool_decide_reflect (bn ∈ lg)); simpl; [done|]. intros _. destruct Hroom; [done|lia]. }
  intros i b1 Hi1 Hh1 E1 [Hcm K1] _. fold (view s) in E1. apply HQ; [|done].
  split; unfold view; lred; rewrite ?E1; cbn [A_bread a_content a_ref a_lock a_disk a_free]; try done.
  - by exists o.
  - intros b. unfold upd. destruct (Z.eqb_spec b bn) as [->|Hne].
    + rewrite lookup_insert_eq, Hr, Hbn. rewrite (bool_decide_true (is_Some (Some i))) by done. simpl. lia.
    + rewrite lookup_insert_ne by done. apply Hr.
  - intros b. unfold upd. destruct (Z.eqb_spec b bn) as [->|Hne]; [by rewrite lookup_insert_eq|].
    rewrite lookup_insert_ne by done. apply Hlk.
  - rewrite size_dom_insert, Hr, Hbn, Hf by done. case_bool_decide; simpl; lia.
  - intros b j Hj. destruct (decide (b = bn)) as [->|Hne].
    + rewrite lookup_insert_eq in Hj. by injection Hj as <-.
    + rewrite lookup_insert_ne in Hj by done. apply K1; auto.
Qed.

Lemma wp_l_brelse e c lg hs (s : lst) bn i (Q : unit → lst → Prop) :
  lrel e c lg hs s → hs !! bn = Some i → bn ∈ lg ∨ c bn = e_disk e bn →
  (∀ s', lrel e c lg (delete bn hs) s' → calm (b_p (l_b s)) (b_p (l_b s')) → Q () s') →
  wp (on_bio (brelse i)) Q s.
Proof.
  intros [(o & Hi) Hd Hl Ho Hc Hst Hsz Htx Hlg Hn Hco Hdi Hr Hlk Hf He Hh] Hbn Hcl HQ.
  assert (Hrb : a_ref (view s) bn = b2z (bool_decide (bn ∈ lg)) + 1) by (by rewrite Hr, Hbn).
  apply wp_zoom. eapply (wp_brelse None); [exact Hi|discriminate|reflexivity|by apply Hh| |].
  { fold (view s). rewrite Hrb, Hco, Hdi. case_bool_decide; simpl; [lia|]. by destruct Hcl. }
  intros b1 l1 l2 _ Hi1 E1 [Hcm K1] _. fold (view s) in E1. apply HQ; [|done].
  split; unfold view; lred; rewrite ?E1; cbn [A_brelse a_content a_ref a_lock a_disk a_free]; try done.
  - by eexists.
  - intros b. unfold upd. destruct (Z.eqb_spec b bn) as [->|Hne].
    + rewrite lookup_delete_eq, Hrb. simpl. lia.
    + rewrite lookup_delete_ne by done. apply Hr.
  - intros b. unfold upd. destruct (Z.eqb_spec b bn) as [->|Hne]; [by rewrite lookup_delete_eq|].
    rewrite lookup_delete_ne by done. apply Hlk.
  - rewrite Hf, Hrb, (size_dom_delete lg hs bn i Hbn). case_bool_decide; simpl; lia.
  - intros b j Hj. apply lookup_delete_Some in Hj as [Hne Hj]. apply K1; auto.
Qed.

Lemma wp_l_set_data e c lg hs (s : lst) bn i data (Q : unit → lst → Prop) :
  lrel e c lg hs s → hs !! bn = Some i → length data = Z.to_nat BSIZE →
  (∀ s', lrel e (upd c bn data) lg hs s' → calm (b_p (l_b s)) (b_p (l_b s')) → Q () s') →
  wp (on_bio (put i (set_data data))) Q s.
Proof.
  intros [(o & Hi) Hd Hl Ho Hc Hst Hsz Htx Hlg Hn Hco Hdi Hr Hlk Hf He Hh] Hbn Hlen HQ.
  apply wp_zoom. eapply wp_set_data; [exact Hi|reflexivity|by apply Hh|exact Hlen|].
  intros b1 Hi1 Hh1 E1 [Hcm K1]. fold (view s) in E1. apply HQ; [|done].
  split; unfold view; lred; rewrite ?E1; cbn [A_set a_content a_ref a_lock a_disk a_free]; try done.
  - by exists o.
  - by rewrite Hco.
  - intros b j Hj. destruct (decide (b = bn)) as [->|Hne]; [|apply K1; auto].
    rewrite Hbn in Hj. by injection Hj as <-.
Qed.

Lemma lg_snoc (lg : blocks) n (block : Z → Z) bn :
  0 ≤ n → (∀ b, b ∈ lg ↔ ∃ j, 0 ≤ j < n ∧ block j = b) →
  ∀ b, b ∈ {[bn]} ∪ lg ↔ ∃ j, 0 ≤ j < n + 1 ∧ upd block n bn j = b.
Proof.
  intros Hn Hlg b. rewrite elem_of_union, elem_of_singleton, Hlg. split.
  - intros [->|(j & Hj & <-)]; [exists n; split; [lia|apply upd_eq]|].
    exists j. split; [lia|]. apply upd_ne. lia.
  - intros (j & Hj & <-). destruct (decide (j = n)) as [->|]; [left; apply upd_eq|right].
    exists j. rewrite upd_ne by done. split; [lia|done].
Qed.

Lemma wp_l_log_write e c lg hs (s : lst) bn i (Q : unit → lst → Prop) :
  lrel e c lg hs s → hs !! bn = Some i → 1 ≤ e_out e → ¬ in_log (e_start e) bn → 0 ≤ bn < 2 ^ 31 →
  Z.of_nat (size lg) < LOGSIZE - 1 → Z.of_nat (size lg) < e_size e - 1 →
  (∀ s', lrel e c ({[bn]} ∪ lg) hs s' → calm (b_p (l_b s)) (b_p (l_b s')) → Q () s') →
  wp (log_write i) Q s.
Proof.
  intros [(o & Hi) Hd Hl Ho Hc Hst Hsz Htx Hlg Hn Hco Hdi Hr Hlk Hf He Hh] Hbn Hout Hnl Hrg Hn1 Hn2 HQ.
  pose proof (tx_n _ _ _ Htx) as Hn0.
  eapply (wp_log_write s o bn i); [exact Hi|by apply Hh|exact Hl|lia|rewrite Hsz; lia|lia| | |].
  { rewrite Hr. do 2 case_bool_decide; simpl; lia. }
  - intros b1 j Hj Ej Hi1 Hh1 E1 [Hcm K1]. apply HQ; [|done].
    assert (Hin : bn ∈ lg) by (apply Hlg; eauto).
    replace ({[bn]} ∪ lg) with lg by set_solver.
    split; unfold view; lred; rewrite ?E1; try done; [by exists o|].
    intros b k Hk. destruct (decide (b = bn)) as [->|Hne]; [|apply K1; auto].
    rewrite Hbn in Hk. by injection Hk as <-.
  - intros b1 Hno Hi1 Hh1 E1 [Hcm K1]. apply HQ; [|done].
    assert (Hin : bn ∉ lg) by (intros (j & Hj & E)%Hlg; by apply (Hno j)).
    split; unfold view; lred; rewrite ?E1; cbn [A_pin a_content a_ref a_lock a_disk a_free]; try done.
    + by exists o.
    + rewrite Hst in *. apply trans_ok_snoc; try done. lia.
    + apply lg_snoc; [lia|done].
    + rewrite size_union by set_solver. rewrite size_singleton. lia.
    + intros b. unfold upd. destruct (Z.eqb_spec b bn) as [->|Hne].
      * rewrite Hr, (bool_decide_false (bn ∈ lg)), (bool_decide_true (bn ∈ {[bn]} ∪ lg)) by set_solver. simpl. lia.
      * rewrite Hr. f_equal. f_equal. apply bool_decide_ext. set_solver.
    + rewrite Hf. do 3 f_equal. apply elem_of_dom_2 in Hbn. set_solver.
    + intros b k Hk. destruct (decide (b = bn)) as [->|Hne]; [|apply K1; auto].
      rewrite Hbn in Hk. by injection Hk as <-.
Qed.

(** ** The file system *)
Record frel (e : fenv) (v : fsv P) (s : fsst P D) : Prop := {
  fr_l : lrel e (v_c v) (v_lg v) (v_hs v) (f_l s);
  fr_sb : f_sb s = v_sb v;
  fr_in : inodes s = v_in v;
  fr_pid : so_id (f_p s) = e_pid e;
  fr_ic : match v_ic v with
          | None => lock_free (ic_lock s)
          | Some p => within p (f_p s) ∧
              ∃ lk, lock_free lk ∧ ic_lock s = take_lock (push_off (lget sc_hart p)) lk
          end
}.

Lemma frel_inv e v (s : fsst P D) : frel e v s → so_inv (f_p s).
Proof. intros [[(o & Hi) _ _ _ _ _ _ _ _ _ _ _ _ _ _ _ _] _ _ _ _]. apply Hi. Qed.

Lemma frel_length e v (s : fsst P D) b : frel e v s → length (v_c v b) = Z.to_nat BSIZE.
Proof. intros [Hl _ _ _ _]. by eapply lrel_length. Qed.

Lemma frel_clean e v (s : fsst P D) b :
  frel e v s → b ∉ v_lg v → v_hs v !! b = None → v_c v b = e_disk e b.
Proof. intros [Hl _ _ _ _]. by eapply lrel_clean. Qed.

Lemma frel_l e v (s : fsst P D) l' c lg hs :
  frel e v s → lrel e c lg hs l' → calm (f_p s) (b_p (l_b l')) →
  frel e (mkV c lg hs (v_sb v) (v_in v) (v_ic v)) (set_l l' s).
Proof.
  intros [Hl Hsb Hin Hpid Hic] Hl' Hc. split; try done; unfold f_p; cbn [set_l f_l ic_lock v_ic].
  - rewrite (cm_id _ _ Hc). done.
  - destruct (v_ic v) as [p|]; [|done]. destruct Hic as [Hw Hlk]. split; [by eapply within_calm|done].
Qed.

Lemma fv_bread fuel e v (s : fsst P D) bn (Q : Z → fsst P D → Prop) :
  frel e v s → v_hs v !! bn = None → bn ∈ v_lg v ∨ Z.of_nat (size (v_lg v ∪ dom (v_hs v))) < NBUF →
  (∀ i s', frel e (vset_hs (<[bn := i]> (v_hs v)) v) s' → Q i s') → wp (on_b (bread fuel dev bn)) Q s.
Proof.
  intros Hv Hh Hr HQ. apply wp_zoom. eapply wp_l_bread; [apply Hv|done|done|].
  intros i l' Hl' Hc. apply HQ. by apply frel_l.
Qed.

Lemma fv_brelse e v (s : fsst P D) bn i (Q : unit → fsst P D → Prop) :
  frel e v s → v_hs v !! bn = Some i → bn ∈ v_lg v ∨ v_c v bn = e_disk e bn →
  (∀ s', frel e (vset_hs (delete bn (v_hs v)) v) s' → Q () s') → wp (on_b (brelse i)) Q s.
Proof.
  intros Hv Hh Hr HQ. apply wp_zoom. eapply wp_l_brelse; [apply Hv|done|done|].
  intros l' Hl' Hc. apply HQ. by apply frel_l.
Qed.

Lemma fv_data_of e v (s : fsst P D) bn i (Q : list Z → fsst P D → Prop) :
  frel e v s → v_hs v !! bn = Some i → Q (v_c v bn) s → wp (data_of i) Q s.
Proof.
  intros Hv Hh HQ. pose proof (fr_l _ _ _ Hv) as [(o & Hi) _ _ _ _ _ _ _ _ _ Hc _ _ _ _ _ Hho].
  destruct (held_data (l_b (f_l s)) o bn i Hi (Hho _ _ Hh)) as [E _].
  unfold data_of. apply wp_bind, wp_zoom, wp_zoom, wp_gets, wp_ret. rewrite E. fold (view (f_l s)).
  rewrite Hc. cbn. by destruct s as [[] ? ? ?].
Qed.

Lemma fv_set_data e v (s : fsst P D) bn i data (Q : unit → fsst P D → Prop) :
  frel e v s → v_hs v !! bn = Some i → length data = Z.to_nat BSIZE →
  (∀ s', frel e (vset_c (upd (v_c v) bn data) v) s' → Q () s') → wp (set_data_of i data) Q s.
Proof.
  intros Hv Hh Hr HQ. apply wp_zoom. eapply wp_l_set_data; [apply Hv|done|done|].
  intros l' Hl' Hc. apply HQ. by apply frel_l.
Qed.

(** Room for [n] more blocks in the log. *)
Definition room (e : fenv) (v : fsv P) (n : Z) : Prop :=
  Z.of_nat (size (v_lg v)) + n ≤ LOGSIZE - 1 ∧ Z.of_nat (size (v_lg v)) + n ≤ e_size e - 1.

(** A block that the log can take. *)
Definition loggable (e : fenv) (bn : Z) : Prop := ¬ in_log (e_start e) bn ∧ 0 ≤ bn < 2 ^ 31.

Lemma fv_log_write e v (s : fsst P D) bn i (Q : unit → fsst P D → Prop) :
  frel e v s → v_hs v !! bn = Some i → 1 ≤ e_out e → loggable e bn → room e v 1 →
  (∀ s', frel e (vset_lg ({[bn]} ∪ v_lg v) v) s' → Q () s') → wp (on_l (log_write i)) Q s.
Proof.
  intros Hv Hh Ho [Hnl Hrg] [Hr1 Hr2] HQ. apply wp_zoom.
  eapply wp_l_log_write; [apply Hv|done|done|done|done|lia|lia|].
  intros l' Hl' Hc. apply HQ. by apply frel_l.
Qed.

Lemma fv_sb e v (s : fsst P D) (Q : superblock → fsst P D → Prop) :
  frel e v s → Q (v_sb v) s → wp (gets f_sb) Q s.
Proof. intros [_ <- _ _ _] HQ. by apply wp_gets. Qed.

Lemma fv_geti e v (s : fsst P D) i (Q : inode → fsst P D → Prop) :
  frel e v s → Q (v_in v i) s → wp (geti i) Q s.
Proof. intros [_ _ <- _ _] HQ. by apply wp_gets. Qed.

Lemma fv_puti e v (s : fsst P D) i f (Q : unit → fsst P D → Prop) :
  frel e v s → (∀ s', frel e (vset_in (upd (v_in v) i (f (v_in v i))) v) s' → Q () s') → wp (puti i f) Q s.
Proof.
  intros [Hl Hsb Hin Hpid Hic] HQ. apply wp_modify. apply HQ. split; try done. cbn. by rewrite Hin.
Qed.

(** The process layer *)
Lemma lrel_set_p e c lg hs (s : lst) p :
  lrel e c lg hs s → so_inv p → so_id p = so_id (b_p (l_b s)) → lrel e c lg hs (set_b (set_p p (l_b s)) s).
Proof.
  intros [(o & Hi) Hd Hl Ho Hc Hst Hsz Htx Hlg Hn Hco Hdi Hr Hlk Hf He Hh] Hp Hid.
  split; unfold view; lred; rewrite ?abs_set_p; try done.
  - exists o. by apply binv_set_p.
  - intros b i Hb. apply holds_set_p; auto.
Qed.

Lemma frel_set_fp e v (s : fsst P D) p lk ic f :
  frel e v s → so_inv p → so_id p = e_pid e →
  match ic with
  | None => lock_free lk
  | Some q => within q p ∧ ∃ lk0, lock_free lk0 ∧ lk = take_lock (push_off (lget sc_hart q)) lk0
  end →
  frel e (mkV (v_c v) (v_lg v) (v_hs v) (v_sb v) f ic) (mkFs (f_l (set_fp p s)) (f_sb s) lk f).
Proof.
  intros [Hl Hsb Hin Hpid Hic] Hp Hid Hlk. split; try done. apply lrel_set_p; [done|done|].
  unfold f_p in Hpid. congruence.
Qed.

(** acquire(&icache.lock), release(&icache.lock) *)
Lemma fv_acq e v (s : fsst P D) (Q : unit → fsst P D → Prop) :
  frel e v s → v_ic v = None →
  (∀ p s', frel e (vset_ic (Some p) v) s' → Q () s') → wp (on_icache acq) Q s.
Proof.
  intros Hv E HQ. pose proof (fr_ic _ _ _ Hv) as Hic. rewrite E in Hic.
  apply wp_zoom, wp_acq; [by eapply frel_inv|done|].
  intros q Hq. apply (HQ (f_p s)). rewrite (fr_in _ _ _ Hv). apply frel_set_fp; [done|apply Hq| |].
  - rewrite (wi_id _ _ Hq). exact (fr_pid _ _ _ Hv).
  - split; [done|]. by exists (ic_lock s).
Qed.

Lemma fv_rel e v p (s : fsst P D) (Q : unit → fsst P D → Prop) :
  frel e v s → v_ic v = Some p →
  (∀ s', frel e (vset_ic None v) s' → Q () s') → wp (on_icache rel) Q s.
Proof.
  intros Hv E HQ. pose proof (fr_ic _ _ _ Hv) as Hic. rewrite E in Hic. destruct Hic as (Hw & lk & Hlk & El).
  apply wp_zoom. cbv beta. rewrite El. eapply wp_rel_taken; [exact Hw|done|].
  intros p' Hp'. apply HQ. rewrite (fr_in _ _ _ Hv). apply frel_set_fp; [done|apply Hp'| |done].
  rewrite (cm_id _ _ Hp'), <- (wi_id _ _ Hw). exact (fr_pid _ _ _ Hv).
Qed.

(** The sleep lock of an inode *)
Lemma frel_ilock e v (s : fsst P D) i p l :
  frel e v s → calm (f_p s) p →
  frel e (vset_in (upd (v_in v) i (set_ilock l (v_in v i))) v)
    (set_inodes (upd (v_in v) i (set_ilock l (v_in v i))) (set_fp p s)).
Proof.
  intros Hv Hc. pose proof Hv as [Hl Hsb Hin Hpid Hic].
  apply (frel_set_fp e v s p (ic_lock s) (v_ic v)); [done|apply Hc|rewrite (cm_id _ _ Hc); exact Hpid|].
  destruct (v_ic v) as [q|]; [|done]. destruct Hic as [Hw Hlk]. split; [by eapply within_calm|done].
Qed.

Lemma fv_acquiresleep fuel e v (s : fsst P D) i (Q : unit → fsst P D → Prop) :
  frel e v s → sl_free (i_lock (v_in v i)) →
  (∀ s', frel e (vset_in (upd (v_in v) i (set_ilock (sl_take (e_pid e) (i_lock (v_in v i))) (v_in v i))) v) s' → Q () s') →
  wp (on_ilock i (acquiresleep fuel (CInode i))) Q s.
Proof.
  intros Hv Hf HQ. apply wp_zoom. eapply wp_acquiresleep; [by eapply frel_inv|by rewrite (fr_in _ _ _ Hv)|].
  intros p' Hc. apply HQ. rewrite (fr_pid _ _ _ Hv), (fr_in _ _ _ Hv). by apply frel_ilock.
Qed.

Lemma fv_releasesleep e v (s : fsst P D) i (Q : unit → fsst P D → Prop) :
  frel e v s → lock_free (sl_lk (i_lock (v_in v i))) →
  (∀ s', frel e (vset_in (upd (v_in v) i (set_ilock (sl_drop (i_lock (v_in v i))) (v_in v i))) v) s' → Q () s') →
  wp (on_ilock i (releasesleep (CInode i))) Q s.
Proof.
  intros Hv Hf HQ. apply wp_zoom. eapply wp_releasesleep; [by eapply frel_inv|by rewrite (fr_in _ _ _ Hv)|].
  intros p' Hc. apply HQ. rewrite (fr_in _ _ _ Hv). by apply frel_ilock.
Qed.

Lemma fv_holdingsleep e v (s : fsst P D) i (Q : bool → fsst P D → Prop) :
  frel e v s → sl_held (e_pid e) (i_lock (v_in v i)) →
  (∀ s', frel e v s' → Q true s') → wp (on_ilock i holdingsleep) Q s.
Proof.
  intros Hv (Hlk & Hpid & Hf) HQ. apply wp_zoom.
  eapply wp_holdingsleep; [by eapply frel_inv|by rewrite (fr_in _ _ _ Hv)|].
  intros p' Hc. rewrite (fr_in _ _ _ Hv), Hlk, Hpid, (fr_pid _ _ _ Hv), Z.eqb_refl. cbn [negb andb Z.eqb].
  apply HQ. pose proof (frel_ilock e v s i p' (i_lock (v_in v i)) Hv Hc) as Hr.
  replace (upd (v_in v) i (set_ilock (i_lock (v_in v i)) (v_in v i))) with (v_in v) in Hr
    by (symmetry; apply upd_idem; by destruct (v_in v i)).
  rewrite upd_idem by (by destruct (v_in v i)). by destruct v.
Qed.
End view.
