(* ===== verification/FsAlloc.v ===== *)
(** Disk block allocation (fs.c): bzero(), balloc() and bfree() on the free map. *)
From stdpp Require Import gmap.
From Stdlib Require Import FunctionalExtensionality.
From S2P Require Import Prelude Machine CString Spinlock Sched Sleeplock Bio BioSpec Log LogSpec LogCrash LogTrans Fs FsCodec FsView.

(** ** Bits of the free map *)
Lemma land_bit x i : (Z.land x (bit i) =? 0) = negb (Z.testbit x (i mod 8)).
Proof.
  unfold bit. pose proof (Z.mod_pos_bound i 8 ltac:(lia)) as Hb. rewrite Z.shiftl_1_l.
  destruct (Z.testbit x (i mod 8)) eqn:E; cbn [negb].
  - apply Z.eqb_neq. intros H0. assert (Ht : Z.testbit (Z.land x (2 ^ (i mod 8))) (i mod 8) = true).
    { rewrite Z.land_spec, E, Z.pow2_bits_true by lia. done. }
    by rewrite H0, Z.bits_0 in Ht.
  - apply Z.eqb_eq. apply Z.bits_inj'. intros k Hk. rewrite Z.land_spec, Z.bits_0.
    rewrite Z.pow2_bits_eqb by lia. destruct (Z.eqb_spec (i mod 8) k) as [<-|]; [by rewrite E|apply andb_false_r].
Qed.

Lemma bit_bits i k : 0 ≤ k → Z.testbit (bit i) k = (i mod 8 =? k).
Proof. intros. unfold bit. rewrite Z.shiftl_1_l. apply Z.pow2_bits_eqb. apply Z.mod_pos_bound. lia. Qed.

(** Block [b] is marked in use in the contents [c]. *)
Definition used (c : Z → list Z) (sb : superblock) (b : Z) : bool :=
  negb (Z.land (ld8 (c (BBLOCK b sb)) (b mod BPB / 8)) (bit (b mod BPB)) =? 0).

Lemma used_eq c sb b : used c sb b = Z.testbit (ld8 (c (BBLOCK b sb)) (b mod BPB / 8)) (b mod BPB mod 8).
Proof. unfold used. rewrite land_bit. apply negb_involutive. Qed.

Lemma ld8_st8 data o o' x :
  0 ≤ o < Z.of_nat (length data) → 0 ≤ o' → ld8 (st8 data o x) o' = if o' =? o then x else ld8 data o'.
Proof. intros. by apply lmem_insert. Qed.

Lemma length_st8 data o x : length (st8 data o x) = length data.
Proof. apply length_insert. Qed.

(** Two blocks with the same byte and the same bit of the same map block are one. *)
Lemma bitmap_inj sb x b :
  0 ≤ x < 2 ^ 31 → 0 ≤ b < 2 ^ 31 → BBLOCK x sb = BBLOCK b sb → x mod BPB / 8 = b mod BPB / 8 →
  x mod BPB mod 8 = b mod BPB mod 8 → x = b.
Proof.
  unfold BBLOCK, u32, BPB, BSIZE. intros Hx Hb E Eb Ei.
  assert (x / 8192 = b / 8192); [|zdm].
  change (1024 * 8) with 8192 in *. generalize dependent (s_bmapstart sb). intros z E. zdm.
Qed.

(** The byte of block [b] with its bit set or cleared, in its block of the map. *)
Definition set_bit (c : Z → list Z) (sb : superblock) (b : Z) : list Z :=
  let data := c (BBLOCK b sb) in let bi := b mod BPB in
  st8 data (bi / 8) (Z.lor (ld8 data (bi / 8)) (bit bi)).
Definition clear_bit (c : Z → list Z) (sb : superblock) (b : Z) : list Z :=
  let data := c (BBLOCK b sb) in let bi := b mod BPB in
  st8 data (bi / 8) (Z.land (ld8 data (bi / 8)) (Z.lnot (bit bi))).

Lemma bit_index b : 0 ≤ b mod BPB / 8 < BSIZE.
Proof. unfold BPB, BSIZE. zdm. Qed.

Lemma bit_index_length (data : list Z) b : length data = Z.to_nat BSIZE → 0 ≤ b mod BPB / 8 < Z.of_nat (length data).
Proof. intros ->. pose proof (bit_index b). unfold BSIZE in *. lia. Qed.

(** Setting or clearing the bit of [b] changes [used] at [b] only. *)
Lemma used_set_bit c sb b x :
  0 ≤ b < 2 ^ 31 → 0 ≤ x < 2 ^ 31 → length (c (BBLOCK b sb)) = Z.to_nat BSIZE →
  used (upd c (BBLOCK b sb) (set_bit c sb b)) sb x = used c sb x || (x =? b).
Proof.
  intros Hb Hx Hl. rewrite !used_eq. unfold upd. pose proof (bitmap_inj sb x b Hx Hb) as Hinj.
  destruct (Z.eqb_spec (BBLOCK x sb) (BBLOCK b sb)) as [E|E].
  - rewrite E. unfold set_bit. rewrite ld8_st8 by (apply bit_index_length || apply bit_index; done).
    destruct (Z.eqb_spec (x mod BPB / 8) (b mod BPB / 8)) as [Eb|Eb].
    + rewrite Eb, Z.lor_spec, bit_bits by (apply Z.mod_pos_bound; lia). f_equal.
      destruct (Z.eqb_spec x b) as [->|Hne]; [apply Z.eqb_refl|]. apply Z.eqb_neq. intros Ei. by apply Hne, Hinj.
    + destruct (Z.eqb_spec x b) as [->|]; [done|]. by rewrite orb_false_r.
  - destruct (Z.eqb_spec x b) as [->|]; [done|]. by rewrite orb_false_r.
Qed.

Lemma used_clear_bit c sb b x :
  0 ≤ b < 2 ^ 31 → 0 ≤ x < 2 ^ 31 → length (c (BBLOCK b sb)) = Z.to_nat BSIZE →
  used (upd c (BBLOCK b sb) (clear_bit c sb b)) sb x = used c sb x && negb (x =? b).
Proof.
  intros Hb Hx Hl. rewrite !used_eq. unfold upd. pose proof (bitmap_inj sb x b Hx Hb) as Hinj.
  destruct (Z.eqb_spec (BBLOCK x sb) (BBLOCK b sb)) as [E|E].
  - rewrite E. unfold clear_bit. rewrite ld8_st8 by (apply bit_index_length || apply bit_index; done).
    destruct (Z.eqb_spec (x mod BPB / 8) (b mod BPB / 8)) as [Eb|Eb].
    + rewrite Eb, Z.land_spec, Z.lnot_spec, bit_bits by (apply Z.mod_pos_bound; lia). do 2 f_equal.
      destruct (Z.eqb_spec x b) as [->|Hne]; [apply Z.eqb_refl|]. apply Z.eqb_neq. intros Ei. by apply Hne, Hinj.
    + destruct (Z.eqb_spec x b) as [->|]; [done|]. by rewrite andb_true_r.
  - destruct (Z.eqb_spec x b) as [->|]; [done|]. by rewrite andb_true_r.
Qed.

(** ** The search in one block of the map *)
Lemma BBLOCK_base sb b bi : b mod BPB = 0 → 0 ≤ bi < BPB → BBLOCK (b + bi) sb = BBLOCK b sb ∧ (b + bi) mod BPB = bi.
Proof.
  unfold BBLOCK, BPB, BSIZE. intros. change (1024 * 8) with 8192 in *. split; [|zdm].
  do 2 f_equal. zdm.
Qed.

Lemma balloc_scan_spec k bi b size c sb :
  b mod BPB = 0 → 0 ≤ bi → bi + Z.of_nat k = BPB →
  match balloc_scan k bi b size (c (BBLOCK b sb)) with
  | Some r => bi ≤ r < BPB ∧ b + r < size ∧ used c sb (b + r) = false ∧
              ∀ x, b + bi ≤ x < b + r → used c sb x = true
  | None => ∀ x, b + bi ≤ x < b + BPB → x < size → used c sb x = true
  end.
Proof.
  intros Hb. revert bi. induction k as [|k IH]; intros bi H0 Hk; cbn [balloc_scan].
  { intros. lia. }
  destruct (BBLOCK_base sb b bi Hb ltac:(lia)) as [EB Ei].
  destruct (Z.ltb_spec (b + bi) size); [|intros; lia].
  destruct (Z.eqb_spec (Z.land (ld8 (c (BBLOCK b sb)) (bi / 8)) (bit bi)) 0) as [E|E].
  - split; [lia|]. split; [done|]. split; [|intros; lia]. unfold used. rewrite EB, Ei, E. done.
  - assert (Hu : used c sb (b + bi) = true).
    { unfold used. rewrite EB, Ei. by apply negb_true_iff, Z.eqb_neq. }
    specialize (IH (bi + 1) ltac:(lia) ltac:(lia)). destruct (balloc_scan _ _ _ _ _) as [r|].
    + destruct IH as (? & ? & ? & Hall). split; [lia|]. split; [done|]. split; [done|].
      intros x Hx. destruct (decide (x = b + bi)) as [->|]; [done|]. apply Hall. lia.
    + intros x Hx Hs. destruct (decide (x = b + bi)) as [->|]; [done|]. apply IH; lia.
Qed.

Definition zeros : list Z := replicate (Z.to_nat BSIZE) 0.

Section alloc.
Context {P D : Type} `{DriverOk P D}.
Abbreviation dev := ROOTDEV.

(** The free map and the blocks it covers, in the state [v]: the map's blocks and the free
    blocks can be logged, and nobody holds them. *)
Record map_ok (e : fenv) (v : fsv P) : Prop := {
  mo_out : 1 ≤ e_out e;
  mo_size : 0 ≤ s_size (v_sb v) < 2 ^ 31;
  mo_map : ∀ b, 0 ≤ b < s_size (v_sb v) → loggable e (BBLOCK b (v_sb v)) ∧ v_hs v !! BBLOCK b (v_sb v) = None;
  mo_free : ∀ b, 0 ≤ b < s_size (v_sb v) → used (v_c v) (v_sb v) b = false →
    loggable e b ∧ v_hs v !! b = None ∧ (∀ x, 0 ≤ x < s_size (v_sb v) → b ≠ BBLOCK x (v_sb v));
  mo_bufs : Z.of_nat (size (v_lg v ∪ dom (v_hs v))) + 1 < NBUF
}.

Lemma size_one_more (lg : blocks) (hs : gmap Z Z) b :
  (size (({[b]} ∪ lg) ∪ dom hs) ≤ size (lg ∪ dom hs) + 1)%nat.
Proof.
  transitivity (size ({[b]} ∪ (lg ∪ dom hs))); [apply subseteq_size; set_solver|].
  assert (size ((lg ∪ dom hs) ∖ {[b]}) ≤ size (lg ∪ dom hs))%nat by (apply subseteq_size; set_solver).
  rewrite size_union_alt, size_singleton. lia.
Qed.

(** Blocks of the transaction: [bn] gets new contents and is logged. *)
Definition vwrite (bn : Z) (data : list Z) (v : fsv P) : fsv P :=
  vset_c (upd (v_c v) bn data) (vset_lg ({[bn]} ∪ v_lg v) v).

Lemma vset_hs_id (v : fsv P) : vset_hs (v_hs v) v = v.
Proof. by destruct v. Qed.

(** The common shape: a held block gets new contents, is logged and released. *)
Lemma fv_write_rel e v (s : fsst P D) bn i data (Q : unit → fsst P D → Prop) :
  frel e (vset_hs (<[bn := i]> (v_hs v)) v) s → v_hs v !! bn = None → length data = Z.to_nat BSIZE →
  1 ≤ e_out e → loggable e bn → room e v 1 →
  (∀ s', frel e (vwrite bn data v) s' → Q () s') →
  wp (set_data_of i data;; on_l (log_write i);; on_b (brelse i)) Q s.
Proof.
  intros Hv Hh Hl Ho Hlg Hr HQ.
  apply wp_bind. eapply fv_set_data; [exact Hv|apply lookup_insert_eq|done|]. intros s1 Hv1.
  apply wp_bind. eapply fv_log_write; [exact Hv1|apply lookup_insert_eq|done|done|done|]. intros s2 Hv2.
  eapply fv_brelse; [exact Hv2|apply lookup_insert_eq|left; set_solver|]. intros s3 Hv3.
  apply HQ. cbn [vset_hs vset_c vset_lg v_c v_lg v_hs v_sb v_in v_ic] in Hv3.
  rewrite delete_insert_id in Hv3 by done. exact Hv3.
Qed.

Lemma wp_seq3 {S A} (a b c : M S unit) (k : M S A) Q s :
  wp (a;; b;; c) (λ _ s', wp k Q s') s → wp (a;; b;; c;; k) Q s.
Proof.
  intros Ha%wp_bind_inv. apply wp_bind. eapply wp_mono; [exact Ha|]. intros [] s1 Hb%wp_bind_inv.
  apply wp_bind. eapply wp_mono; [exact Hb|]. intros [] s2 Hc. by apply wp_bind.
Qed.

Lemma wp_bzero fuel e v (s : fsst P D) bn (Q : unit → fsst P D → Prop) :
  frel e v s → v_hs v !! bn = None → 1 ≤ e_out e → loggable e bn → room e v 1 →
  Z.of_nat (size (v_lg v ∪ dom (v_hs v))) < NBUF →
  (∀ s', frel e (vwrite bn zeros v) s' → Q () s') → wp (bzero fuel dev bn) Q s.
Proof.
  intros Hv Hh Ho Hlg Hr Hb HQ. unfold bzero.
  apply wp_bind. eapply fv_bread; [exact Hv|done|by right|]. intros i s1 Hv1.
  eapply fv_write_rel; [exact Hv1|done|apply length_replicate|done|done|done|done].
Qed.

(** A block that is only read *)
Lemma fv_clean_rel e v (s : fsst P D) bn i (Q : unit → fsst P D → Prop) :
  frel e (vset_hs (<[bn := i]> (v_hs v)) v) s → v_hs v !! bn = None →
  bn ∈ v_lg v ∨ v_c v bn = e_disk e bn →
  (∀ s', frel e v s' → Q () s') → wp (on_b (brelse i)) Q s.
Proof.
  intros Hv Hh Hc HQ. eapply fv_brelse; [exact Hv|apply lookup_insert_eq|done|]. intros s1 Hv1. apply HQ.
  cbn [vset_hs v_hs] in Hv1. rewrite delete_insert_id in Hv1 by done.
  by destruct v.
Qed.

Lemma clean_or_logged e v (s : fsst P D) bn :
  frel e v s → v_hs v !! bn = None → bn ∈ v_lg v ∨ v_c v bn = e_disk e bn.
Proof.
  intros Hv Hh. destruct (decide (bn ∈ v_lg v)); [by left|right]. by eapply frel_clean.
Qed.

(** ** balloc() *)
Definition alloc (b : Z) (v : fsv P) : fsv P :=
  vwrite b zeros (vwrite (BBLOCK b (v_sb v)) (set_bit (v_c v) (v_sb v) b) v).

Definition full (v : fsv P) : Prop := ∀ b, 0 ≤ b < s_size (v_sb v) → used (v_c v) (v_sb v) b = true.
Definition first_free (v : fsv P) (b : Z) : Prop :=
  0 ≤ b < s_size (v_sb v) ∧ used (v_c v) (v_sb v) b = false ∧ ∀ x, 0 ≤ x < b → used (v_c v) (v_sb v) x = true.

(** One turn of the loop: the block of the map is read, and released when it has no free bit. *)
Lemma balloc_turn fuel e v (s : fsst P D) b (Q : Z → list Z → fsst P D → Prop) :
  frel e v s → map_ok e v → 0 ≤ b < s_size (v_sb v) →
  (∀ i s', frel e (vset_hs (<[BBLOCK b (v_sb v) := i]> (v_hs v)) v) s' → Q i (v_c v (BBLOCK b (v_sb v))) s') →
  wp (on_b (bread fuel dev (BBLOCK b (v_sb v)))) (λ i s', wp (data_of i) (Q i) s') s.
Proof.
  intros Hv Hm Hb HQ. destruct (mo_map _ _ Hm b Hb) as [Hlg Hh]. pose proof (mo_bufs _ _ Hm) as Hbufs.
  eapply fv_bread; [exact Hv|done|right; lia|]. intros i s1 Hv1.
  eapply fv_data_of; [exact Hv1|apply lookup_insert_eq|]. auto.
Qed.

Lemma wp_balloc_found fuel e v (s : fsst P D) b bi i r (Q : Z → fsst P D → Prop) :
  frel e (vset_hs (<[BBLOCK b (v_sb v) := i]> (v_hs v)) v) s → map_ok e v → room e v 2 →
  b mod BPB = 0 → 0 ≤ bi < BPB → first_free v r → r = b + bi →
  (∀ s', frel e (alloc r v) s' → Q r s') →
  let data := v_c v (BBLOCK b (v_sb v)) in
  wp (set_data_of i (st8 data (bi / 8) (Z.lor (ld8 data (bi / 8)) (bit bi)));;
      on_l (log_write i);; on_b (brelse i);; bzero fuel dev (b + bi);; mret (b + bi)) Q s.
Proof.
  intros Hv Hm [Hr1 Hr2] Hmod Hbi [Hr [Hfree _]] -> HQ data.
  destruct (BBLOCK_base (v_sb v) b bi Hmod Hbi) as [EB Ei].
  destruct (mo_map _ _ Hm (b + bi) Hr) as [Hlg Hh]. rewrite EB in Hlg, Hh.
  destruct (mo_free _ _ Hm (b + bi) Hr Hfree) as (Hlgb & Hhb & _). pose proof (mo_bufs _ _ Hm) as Hbufs.
  pose proof (mo_out _ _ Hm) as Hout. pose proof (size_one_more (v_lg v) (v_hs v) (BBLOCK b (v_sb v))) as Hs1.
  pose proof (size_one_more (v_lg v) ∅ (BBLOCK b (v_sb v))) as Hs2. rewrite dom_empty_L, !union_empty_r_L in Hs2.
  apply wp_seq3. eapply (fv_write_rel e v); [exact Hv|done| |done|done|split; lia|].
  { rewrite length_st8. exact (frel_length _ _ _ (BBLOCK b (v_sb v)) Hv). }
  intros s1 Hv1. apply wp_bind.
  eapply wp_bzero; [exact Hv1|done|done|done|split; cbn; lia|cbn; lia|].
  intros s2 Hv2. apply wp_ret. apply HQ. unfold alloc, set_bit. rewrite EB, Ei. exact Hv2.
Qed.

Lemma wp_balloc_loop fuel k e v (s : fsst P D) b r (Q : Z → fsst P D → Prop) :
  frel e v s → map_ok e v → room e v 2 → first_free v r → 0 ≤ b ≤ r → b mod BPB = 0 →
  s_size (v_sb v) < b + BPB * Z.of_nat k →
  (∀ s', frel e (alloc r v) s' → Q r s') → wp (balloc_loop fuel k dev b) Q s.
Proof.
  intros Hv Hm Hr Hff. revert s b Hv. induction k as [|k IH]; intros s b Hv Hb Hmod Hk HQ; cbn [balloc_loop];
    pose proof Hff as (Hrs & Hfree & Hbefore); [lia|].
  apply wp_bind. eapply fv_sb; [exact Hv|]. destruct (Z.ltb_spec b (s_size (v_sb v))); [|lia].
  apply wp_bind. eapply wp_mono; [eapply balloc_turn; [exact Hv|done|lia|]|intros i s' Hw; apply wp_bind, Hw].
  intros i s1 Hv1. cbv beta.
  pose proof (balloc_scan_spec (Z.to_nat BPB) 0 b (s_size (v_sb v)) (v_c v) (v_sb v) Hmod ltac:(lia) eq_refl) as Hscan.
  destruct (balloc_scan _ _ _ _ _) as [bi|].
  - destruct Hscan as (Hbi & Hsz & Hbf & Hbb). eapply (wp_balloc_found fuel e v); eauto.
    destruct (Z.lt_trichotomy r (b + bi)) as [Hlt|[|Hlt]]; [|done|].
    + rewrite Hbb in Hfree by lia. done.
    + rewrite Hbefore in Hbf by lia. done.
  - destruct (mo_map _ _ Hm b ltac:(lia)) as [Hlg Hh].
    apply wp_bind. eapply (fv_clean_rel e v); [exact Hv1|done|exact (clean_or_logged _ _ _ _ Hv Hh)|].
    intros s2 Hv2. assert (b + BPB ≤ r).
    { destruct (Z.lt_ge_cases r (b + BPB)); [|done]. rewrite Hscan in Hfree by lia. done. }
    assert (0 < BPB) by done. apply IH; [done|lia| |lia|done].
    rewrite Z.add_mod, Hmod, Z.mod_same by done. done.
Qed.

Lemma balloc_loop_full fuel k e v (s : fsst P D) b :
  frel e v s → map_ok e v → full v → 0 ≤ b → b mod BPB = 0 →
  s_size (v_sb v) < b + BPB * Z.of_nat k →
  panics (balloc_loop fuel k dev b) "balloc: out of blocks" s.
Proof.
  intros Hv Hm Hfull. revert s b Hv. induction k as [|k IH]; intros s b Hv Hb Hmod Hk; cbn [balloc_loop];
    apply panics_bind; (eapply fv_sb; [exact Hv|]); (destruct (Z.ltb_spec b (s_size (v_sb v))); [|apply panics_intro]);
    [lia|].
  apply panics_bind. eapply wp_mono; [eapply balloc_turn; [exact Hv|done|lia|]|intros i s' Hw; apply panics_bind, Hw].
  intros i s1 Hv1. cbv beta.
  pose proof (balloc_scan_spec (Z.to_nat BPB) 0 b (s_size (v_sb v)) (v_c v) (v_sb v) Hmod ltac:(lia) eq_refl) as Hscan.
  destruct (balloc_scan _ _ _ _ _) as [bi|].
  - destruct Hscan as (Hbi & Hsz & Hbf & _). rewrite Hfull in Hbf by lia. done.
  - destruct (mo_map _ _ Hm b ltac:(lia)) as [Hlg Hh].
    apply panics_bind. eapply (fv_clean_rel e v); [exact Hv1|done|exact (clean_or_logged _ _ _ _ Hv Hh)|].
    intros s2 Hv2. assert (0 < BPB) by done. apply IH; [done|lia| |lia].
    rewrite Z.add_mod, Hmod, Z.mod_same by done. done.
Qed.

(** The turns of the loop cover every block of the disk. *)
Lemma balloc_turns n : 0 ≤ n → n < 0 + BPB * Z.of_nat (Z.to_nat (n / BPB + 1)).
Proof. unfold BPB, BSIZE. change (1024 * 8) with 8192. intros. zdm. Qed.

Lemma wp_balloc fuel e v (s : fsst P D) r (Q : Z → fsst P D → Prop) :
  frel e v s → map_ok e v → room e v 2 → first_free v r →
  (∀ s', frel e (alloc r v) s' → Q r s') → wp (balloc fuel dev) Q s.
Proof.
  intros Hv Hm Hr Hff HQ. pose proof Hff as (? & _ & _). unfold balloc. apply wp_bind. eapply fv_sb; [exact Hv|].
  eapply wp_balloc_loop; [exact Hv|done|done|done|lia|done| |done]. apply balloc_turns. apply Hm.
Qed.

(** The first free block, if any *)
Lemma free_dec_from v n :
  0 ≤ n ≤ s_size (v_sb v) → (∀ x, 0 ≤ x < n → used (v_c v) (v_sb v) x = true) → full v ∨ ∃ r, first_free v r.
Proof.
  intros Hn. remember (Z.to_nat (s_size (v_sb v) - n)) as k eqn:Ek. revert n Hn Ek.
  induction k as [|k IH]; intros n Hn Ek Hall.
  - left. intros b Hb. apply Hall. lia.
  - destruct (used (v_c v) (v_sb v) n) eqn:E.
    + apply (IH (n + 1)); [lia|lia|]. intros x Hx. destruct (decide (x = n)) as [->|]; [done|]. apply Hall. lia.
    + right. exists n. split; [lia|]. done.
Qed.

(** ** bfree() *)
Definition vfree (b : Z) (v : fsv P) : fsv P :=
  vwrite (BBLOCK b (v_sb v)) (clear_bit (v_c v) (v_sb v) b) v.

Lemma bfree_turn {A} fuel e v (s : fsst P D) b (k : Z → list Z → M (fsst P D) A) (Q : A → fsst P D → Prop) :
  frel e v s → v_hs v !! BBLOCK b (v_sb v) = None → Z.of_nat (size (v_lg v ∪ dom (v_hs v))) < NBUF →
  (∀ i s', frel e (vset_hs (<[BBLOCK b (v_sb v) := i]> (v_hs v)) v) s' → wp (k i (v_c v (BBLOCK b (v_sb v)))) Q s') →
  wp (sb ← gets f_sb; i ← on_b (bread fuel dev (BBLOCK b sb)); data ← data_of i; k i data) Q s.
Proof.
  intros Hv Hh Hb HQ. apply wp_bind. eapply fv_sb; [exact Hv|].
  apply wp_bind. eapply fv_bread; [exact Hv|done|by right|]. intros i s1 Hv1.
  apply wp_bind. eapply fv_data_of; [exact Hv1|apply lookup_insert_eq|]. auto.
Qed.

Lemma wp_bfree fuel e v (s : fsst P D) b (Q : unit → fsst P D → Prop) :
  frel e v s → v_hs v !! BBLOCK b (v_sb v) = None → loggable e (BBLOCK b (v_sb v)) →
  Z.of_nat (size (v_lg v ∪ dom (v_hs v))) < NBUF → 1 ≤ e_out e → room e v 1 →
  used (v_c v) (v_sb v) b = true →
  (∀ s', frel e (vfree b v) s' → Q () s') → wp (bfree fuel dev b) Q s.
Proof.
  intros Hv Hh Hlg Hb Ho Hr Hu HQ. apply (bfree_turn fuel e v); [done|done|done|].
  intros i s1 Hv1. unfold used in Hu. apply negb_true_iff in Hu. rewrite Hu.
  eapply (fv_write_rel e v); [exact Hv1|done| |done|done|done|exact HQ].
  rewrite length_st8. exact (frel_length _ _ _ _ Hv).
Qed.

Lemma bfree_free fuel e v (s : fsst P D) b :
  frel e v s → v_hs v !! BBLOCK b (v_sb v) = None → Z.of_nat (size (v_lg v ∪ dom (v_hs v))) < NBUF →
  used (v_c v) (v_sb v) b = false → panics (bfree fuel dev b) "freeing free block" s.
Proof.
  intros Hv Hh Hb Hu. unfold bfree. apply panics_bind. eapply fv_sb; [exact Hv|].
  apply panics_bind. eapply fv_bread; [exact Hv|done|by right|]. intros i s1 Hv1.
  apply panics_bind. eapply fv_data_of; [exact Hv1|apply lookup_insert_eq|].
  unfold used in Hu. apply negb_false_iff in Hu. cbn [vset_hs v_c]. rewrite Hu. apply panics_intro.
Qed.

(** balloc() allocates the first free block. With room for two blocks in the log,
    when the free map has a clear bit, balloc() returns the smallest block number whose bit is clear, having set exactly
    that bit and zeroed that block, both through the log; every other block is unchanged and no
    buffer stays held. When every bit is set it panics. *)
Theorem balloc_correct fuel e v (s : fsst P D) :
  frel e v s → map_ok e v → room e v 2 →
  full v ∧ panics (balloc fuel dev) "balloc: out of blocks" s ∨
  ∃ b s' v', first_free v b ∧ balloc fuel dev s = Ret b s' ∧ frel e v' s' ∧
    v_lg v' = {[b]} ∪ ({[BBLOCK b (v_sb v)]} ∪ v_lg v) ∧ v_hs v' = v_hs v ∧ v_in v' = v_in v ∧
    v_c v' b = zeros ∧ (∀ x, x ≠ b → x ≠ BBLOCK b (v_sb v) → v_c v' x = v_c v x) ∧
    (∀ x, 0 ≤ x < s_size (v_sb v) → used (v_c v') (v_sb v) x = used (v_c v) (v_sb v) x || (x =? b)).
Proof.
  intros Hv Hm Hr. pose proof (mo_size _ _ Hm) as Hsz.
  destruct (free_dec_from v 0) as [Hfull|[b Hb]]; [lia|lia|left|right].
  - split; [done|]. unfold balloc. apply panics_bind. eapply fv_sb; [exact Hv|].
    eapply balloc_loop_full; [exact Hv|done|done|lia|done|]. apply balloc_turns. lia.
  - assert (Hwp : wp (balloc fuel dev) (λ a s', a = b ∧ frel e (alloc b v) s') s).
    { eapply wp_balloc; eauto. }
    apply wp_elim in Hwp as (a & s' & E & -> & Hv'). exists b, s', (alloc b v). split_and!; try done.
    + apply upd_eq.
    + intros x H1x H2x. cbn. by rewrite !upd_ne.
    + intros x Hx. pose proof Hb as (Hbr & Hbf & _). destruct (mo_free _ _ Hm b Hbr Hbf) as (_ & _ & Hne).
      rewrite <- used_set_bit by (try lia; exact (frel_length _ _ _ _ Hv)).
      unfold used. cbn [alloc vwrite vset_c vset_lg v_c]. rewrite (upd_ne _ b); [done|].
      intros E'. by apply (Hne x Hx).
Qed.

(** Bfree() frees an allocated block and panics on a free one: with room in the log it
    clears exactly the bit of its block, and if that bit is already clear it panics. *)
Theorem bfree_correct fuel e v (s : fsst P D) b :
  frel e v s → map_ok e v → room e v 1 → 0 ≤ b < s_size (v_sb v) →
  if used (v_c v) (v_sb v) b then
    ∃ s' v', bfree fuel dev b s = Ret () s' ∧ frel e v' s' ∧ v_hs v' = v_hs v ∧ v_in v' = v_in v ∧
      v_lg v' = {[BBLOCK b (v_sb v)]} ∪ v_lg v ∧ (∀ x, x ≠ BBLOCK b (v_sb v) → v_c v' x = v_c v x) ∧
      (∀ x, 0 ≤ x < s_size (v_sb v) → used (v_c v') (v_sb v) x = used (v_c v) (v_sb v) x && negb (x =? b))
  else panics (bfree fuel dev b) "freeing free block" s.
Proof.
  intros Hv Hm Hr Hb. pose proof (mo_size _ _ Hm) as Hsz. pose proof (mo_bufs _ _ Hm) as Hbufs.
  destruct (mo_map _ _ Hm b Hb) as [Hlg Hh].
  destruct (used (v_c v) (v_sb v) b) eqn:Hu; [|eapply bfree_free; [exact Hv|done|lia|done]].
  assert (Hwp : wp (bfree fuel dev b) (λ _ s', frel e (vfree b v) s') s).
  { eapply wp_bfree; eauto; [lia|apply Hm]. }
  apply wp_elim in Hwp as ([] & s' & E & Hv'). exists s', (vfree b v). split_and!; try done.
  - intros x Hx. by apply upd_ne.
  - intros x Hx. rewrite <- used_clear_bit by (try lia; exact (frel_length _ _ _ _ Hv)). done.
Qed.
End alloc.
