(* ===== verification/FsInode.v ===== *)
(** The inode cache (fs.c): iget(), idup(), iput(), ilock(), iupdate() on [icache.inode]. *)
From stdpp Require Import gmap.
From Stdlib Require Import FunctionalExtensionality.
From S2P Require Import Prelude Machine CString Spinlock Sched Sleeplock Bio BioSpec Log LogSpec LogCrash LogTrans Fs FsCodec FsView FsAlloc.

(** ** The table *)
Definition islot (i : Z) : Prop := 0 ≤ i < NINODE.

(** Slot [i] caches the inode. *)
Definition caches (f : Z → inode) (dev inum i : Z) : Prop :=
  islot i ∧ 0 < i_ref (f i) ∧ i_dev (f i) = dev ∧ i_inum (f i) = inum.

(** No inode is cached twice, and no count is negative. *)
Record icache_ok (f : Z → inode) : Prop := {
  ic_uniq : ∀ dev inum i j, caches f dev inum i → caches f dev inum j → i = j;
  ic_refs : ∀ i, islot i → 0 ≤ i_ref (f i)
}.

(** Does slot [i] cache the inode, as the loop of iget() tests it? *)
Definition hit (f : Z → inode) (dev inum i : Z) : bool :=
  (0 <? i_ref (f i)) && (i_dev (f i) =? dev) && (i_inum (f i) =? inum).

Lemma hit_spec f dev inum i : islot i → hit f dev inum i = true ↔ caches f dev inum i.
Proof.
  intros Hi. unfold hit, caches. rewrite !andb_true_iff, Z.ltb_lt, !Z.eqb_eq. naive_solver.
Qed.

Lemma iget_find_spec k i dev inum empty f :
  0 ≤ i → i + Z.of_nat k = NINODE → icache_ok f →
  (∀ j, 0 ≤ j < i → ¬ caches f dev inum j) →
  match empty with
  | Some r => 0 ≤ r < i ∧ i_ref (f r) = 0 ∧ (∀ j, 0 ≤ j < r → 0 < i_ref (f j))
  | None => ∀ j, 0 ≤ j < i → 0 < i_ref (f j)
  end →
  match iget_find k i dev inum empty f with
  | inl r => caches f dev inum r
  | inr (Some r) => (∀ j, ¬ caches f dev inum j) ∧ islot r ∧ i_ref (f r) = 0 ∧ (∀ j, 0 ≤ j < r → 0 < i_ref (f j))
  | inr None => (∀ j, ¬ caches f dev inum j) ∧ ∀ j, islot j → 0 < i_ref (f j)
  end.
Proof.
  intros H0 Hk [Hu Href]. revert i empty H0 Hk. induction k as [|k IH]; intros i empty H0 Hk Hno He; cbn [iget_find].
  { assert (Hall : ∀ j, ¬ caches f dev inum j) by (intros j Hj; apply (Hno j); [destruct Hj as [[] _]; lia|done]).
    destruct empty as [r|]; (split; [done|]).
    - destruct He as (? & ? & ?). split; [split; lia|done].
    - intros j [? ?]. apply He. lia. }
  assert (Hi : islot i) by (split; lia). fold (hit f dev inum i).
  destruct (hit f dev inum i) eqn:E; [by apply hit_spec|].
  assert (Hn : ¬ caches f dev inum i) by (intros Hc%hit_spec; [congruence|done]).
  specialize (Href i Hi). apply IH; [lia|lia| |].
  - intros j Hj. destruct (decide (j = i)) as [->|]; [done|]. apply Hno. lia.
  - destruct empty as [r|].
    + rewrite bool_decide_false by done. destruct He as (? & ? & ?). split; [lia|done].
    + rewrite bool_decide_true by done. cbn [andb]. destruct (Z.eqb_spec (i_ref (f i)) 0) as [Er|Er].
      * split; [lia|]. split; [done|]. intros j Hj. apply He. lia.
      * intros j Hj. destruct (decide (j = i)) as [->|]; [lia|]. apply He. lia.
Qed.

(** What iget() stores in a recycled slot *)
Definition recycled (dev inum : Z) (x : inode) : inode :=
  set_ivalid 0 (set_iref 1 (set_inum inum (set_idev dev x))).

Lemma icache_ok_ref f i n : icache_ok f → islot i → 0 < i_ref (f i) → 0 ≤ i_ref (f i) + n →
  icache_ok (upd f i (set_iref (i_ref (f i) + n) (f i))).
Proof.
  intros [Hu Hr] Hi Hp Hn. split.
  - intros dev inum a b Ha Hb. apply (Hu dev inum); unfold caches, upd in *.
    + destruct (Z.eqb_spec a i) as [->|]; [|done]. destruct Ha as (? & ? & ? & ?). done.
    + destruct (Z.eqb_spec b i) as [->|]; [|done]. destruct Hb as (? & ? & ? & ?). done.
  - intros j Hj. unfold upd. destruct (Z.eqb_spec j i); [done|]. by apply Hr.
Qed.

Lemma icache_ok_recycle f i dev inum :
  icache_ok f → islot i → i_ref (f i) = 0 → (∀ j, ¬ caches f dev inum j) →
  icache_ok (upd f i (recycled dev inum (f i))).
Proof.
  intros [Hu Hr] Hi H0 Hno.
  assert (Hc : ∀ d n j, caches (upd f i (recycled dev inum (f i))) d n j →
            j = i ∧ d = dev ∧ n = inum ∨ j ≠ i ∧ caches f d n j).
  { intros d n j (Hj & Hp & Hd & Hin). unfold upd in *. destruct (Z.eqb_spec j i) as [->|]; [left|right; done].
    cbn in Hd, Hin. done. }
  split.
  - intros d n a b Ha%Hc Hb%Hc. destruct Ha as [(-> & -> & ->)|[Ha Ca]], Hb as [(-> & Ed & En)|[Hb Cb]]; try done.
    + by destruct (Hno b).
    + subst. by destruct (Hno a).
    + by apply (Hu d n).
  - intros j Hj. unfold upd. destruct (Z.eqb_spec j i); [done|]. by apply Hr.
Qed.

Section inode.
Context {P D : Type} `{DriverOk P D}.

Lemma fv_acq_inodes {A} e v (s : fsst P D) (k : (Z → inode) → M (fsst P D) A) (Q : A → fsst P D → Prop) :
  frel e v s → v_ic v = None →
  (∀ p s', frel e (vset_ic (Some p) v) s' → wp (k (v_in v)) Q s') →
  wp (on_icache acq;; f ← gets inodes; k f) Q s.
Proof.
  intros Hv Hic HQ. apply wp_bind. eapply fv_acq; [exact Hv|done|]. intros p s1 Hv1.
  apply wp_bind, wp_gets. rewrite (fr_in _ _ _ Hv1). cbn [vset_ic v_in]. by eapply HQ.
Qed.

(** The end of a critical section that changed the table to [f] *)
Lemma fv_rel_in {A} e v p f (s : fsst P D) (a : A) (Q : A → fsst P D → Prop) :
  frel e (vset_in f (vset_ic (Some p) v)) s → v_ic v = None →
  (∀ s', frel e (vset_in f v) s' → Q a s') → wp (on_icache rel;; mret a) Q s.
Proof.
  intros Hv Hic HQ. apply wp_bind. eapply fv_rel; [exact Hv|done|]. intros s1 Hv1. apply wp_ret, HQ.
  cbn in Hv1. unfold vset_in. by rewrite Hic.
Qed.

Lemma wp_iget_hit e v (s : fsst P D) dev inum i (Q : Z → fsst P D → Prop) :
  frel e v s → v_ic v = None → icache_ok (v_in v) → caches (v_in v) dev inum i →
  (∀ s', frel e (vset_in (upd (v_in v) i (set_iref (i_ref (v_in v i) + 1) (v_in v i))) v) s' → Q i s') →
  wp (iget dev inum) Q s.
Proof.
  intros Hv Hic Hok Hc HQ. unfold iget. eapply fv_acq_inodes; [exact Hv|done|]. intros p s1 Hv1.
  pose proof (iget_find_spec (Z.to_nat NINODE) 0 dev inum None (v_in v) ltac:(lia) eq_refl Hok) as Hf.
  destruct (iget_find _ _ _ _ _ _) as [r|[r|]].
  - assert (r = i) as -> by (eapply (ic_uniq _ Hok); [apply Hf; intros; lia|done]).
    apply wp_bind. eapply fv_puti; [exact Hv1|]. intros s2 Hv2. eapply fv_rel_in; [exact Hv2|done|done].
  - destruct Hf as [Hno _]; [intros; lia|intros; lia|]. by destruct (Hno i).
  - destruct Hf as [Hno _]; [intros; lia|intros; lia|]. by destruct (Hno i).
Qed.

Lemma wp_iget_miss e v (s : fsst P D) dev inum i (Q : Z → fsst P D → Prop) :
  frel e v s → v_ic v = None → icache_ok (v_in v) → (∀ j, ¬ caches (v_in v) dev inum j) →
  islot i → i_ref (v_in v i) = 0 → (∀ j, 0 ≤ j < i → 0 < i_ref (v_in v j)) →
  (∀ s', frel e (vset_in (upd (v_in v) i (recycled dev inum (v_in v i))) v) s' → Q i s') →
  wp (iget dev inum) Q s.
Proof.
  intros Hv Hic Hok Hno Hi H0i Hfst HQ. unfold iget. eapply fv_acq_inodes; [exact Hv|done|]. intros p s1 Hv1.
  pose proof (iget_find_spec (Z.to_nat NINODE) 0 dev inum None (v_in v) ltac:(lia) eq_refl Hok) as Hf.
  destruct (iget_find _ _ _ _ _ _) as [r|[r|]].
  - destruct (Hno r). apply Hf; intros; lia.
  - destruct Hf as (_ & Hr & H0r & Hfr); [intros; lia|intros; lia|].
    assert (r = i) as ->.
    { destruct Hi, Hr. destruct (Z.lt_trichotomy r i) as [Hlt|[|Hlt]]; [|done|].
      - specialize (Hfst r). lia.
      - specialize (Hfr i). lia. }
    do 4 (apply wp_bind; eapply fv_puti; [eassumption|]; intros ? ?).
    eapply (fv_rel_in e v p); [|done|exact HQ].
    match goal with Hl : frel _ _ ?s |- frel _ _ ?s => cbn [vset_in v_in vset_ic] in Hl; rewrite !upd_upd, !upd_eq in Hl; exact Hl end.
  - destruct Hf as [_ Hall]; [intros; lia|intros; lia|]. specialize (Hall i Hi). lia.
Qed.

Lemma iget_full e v (s : fsst P D) dev inum :
  frel e v s → v_ic v = None → icache_ok (v_in v) → (∀ j, ¬ caches (v_in v) dev inum j) →
  (∀ j, islot j → 0 < i_ref (v_in v j)) → panics (iget dev inum) "iget: no inodes" s.
Proof.
  intros Hv Hic Hok Hno Hfull. unfold iget. apply panics_bind. eapply fv_acq; [exact Hv|done|]. intros p s1 Hv1.
  apply panics_bind, wp_gets. rewrite (fr_in _ _ _ Hv1). cbn [vset_ic v_in].
  pose proof (iget_find_spec (Z.to_nat NINODE) 0 dev inum None (v_in v) ltac:(lia) eq_refl Hok) as Hf.
  destruct (iget_find _ _ _ _ _ _) as [r|[r|]].
  - destruct (Hno r). apply Hf; intros; lia.
  - destruct Hf as (_ & Hr & H0r & _); [intros; lia|intros; lia|]. specialize (Hfull r Hr). lia.
  - apply panics_intro.
Qed.

(** Iget() keeps the inode cache free of duplicates. If some slot caches the inode, iget() returns that
    slot and raises its count; otherwise it takes the first slot with count 0, which then
    caches the inode with count 1 and its contents not yet valid; no other slot changes. If
    the inode is not cached and every slot is in use, it panics. *)
Theorem iget_correct e v (s : fsst P D) dev inum :
  frel e v s → v_ic v = None → icache_ok (v_in v) →
  (∃ i s' f', iget dev inum s = Ret i s' ∧ frel e (vset_in f' v) s' ∧ icache_ok f' ∧ caches f' dev inum i ∧
     (∀ j, j ≠ i → f' j = v_in v j) ∧
     (caches (v_in v) dev inum i ∧ i_ref (f' i) = i_ref (v_in v i) + 1 ∧ i_valid (f' i) = i_valid (v_in v i) ∨
      (∀ j, ¬ caches (v_in v) dev inum j) ∧ i_ref (v_in v i) = 0 ∧ i_ref (f' i) = 1 ∧ i_valid (f' i) = 0))
  ∨ (∀ j, ¬ caches (v_in v) dev inum j) ∧ (∀ j, islot j → 0 < i_ref (v_in v j)) ∧
    panics (iget dev inum) "iget: no inodes" s.
Proof.
  intros Hv Hic Hok.
  pose proof (iget_find_spec (Z.to_nat NINODE) 0 dev inum None (v_in v) ltac:(lia) eq_refl Hok) as Hf.
  destruct (iget_find _ _ _ _ _ _) as [i|[i|]].
  - specialize (Hf ltac:(intros; lia) ltac:(intros; lia)). pose proof Hf as (Hi & Hr & Hd & Hn). left.
    eassert (Hwp : wp (iget dev inum) (λ a s', a = i ∧ frel e _ s') s)
      by (eapply wp_iget_hit; [exact Hv|done|done|exact Hf|]; intros s' Hs'; split; [done|exact Hs']).
    apply wp_elim in Hwp as (a & s' & E & -> & Hv'). eexists i, s', _. split_and!; [exact E|exact Hv'|..].
    + apply icache_ok_ref; [done|done|done|lia].
    + unfold caches. rewrite upd_eq. cbn. split_and!; try done. lia.
    + intros j Hj. by apply upd_ne.
    + left. rewrite upd_eq. done.
  - destruct Hf as (Hno & Hi & H0i & Hfst); [intros; lia|intros; lia|]. left.
    eassert (Hwp : wp (iget dev inum) (λ a s', a = i ∧ frel e _ s') s)
      by (eapply wp_iget_miss; [exact Hv|done|done|exact Hno|exact Hi|done|done|]; intros s' Hs'; split; [done|exact Hs']).
    apply wp_elim in Hwp as (a & s' & E & -> & Hv'). eexists i, s', _. split_and!; [exact E|exact Hv'|..].
    + by apply icache_ok_recycle.
    + unfold caches. rewrite upd_eq. done.
    + intros j Hj. by apply upd_ne.
    + right. rewrite upd_eq. done.
  - destruct Hf as [Hno Hall]; [intros; lia|intros; lia|]. right. split; [done|]. split; [done|]. by eapply iget_full.
Qed.

(** ** ilock(), iunlock(), iput(), iupdate() *)
Abbreviation dev := ROOTDEV.

(** The inode that ilock() leaves in the table *)
Definition locked (e : fenv) (v : fsv P) (x : inode) : inode :=
  let x := set_ilock (sl_take (e_pid e) (i_lock x)) x in
  if i_valid x =? 0 then set_ivalid 1 (get_dinode (v_c v (IBLOCK (i_inum x) (v_sb v))) (inode_off (i_inum x)) x) else x.

Lemma wp_ilock fuel e v (s : fsst P D) i (Q : unit → fsst P D → Prop) :
  frel e v s → 1 ≤ i_ref (v_in v i) → sl_free (i_lock (v_in v i)) → i_dev (v_in v i) = dev →
  v_hs v !! IBLOCK (i_inum (v_in v i)) (v_sb v) = None → Z.of_nat (size (v_lg v ∪ dom (v_hs v))) < NBUF →
  i_type (locked e v (v_in v i)) ≠ 0 →
  (∀ s', frel e (vset_in (upd (v_in v) i (locked e v (v_in v i))) v) s' → Q () s') →
  wp (ilock fuel (Some i)) Q s.
Proof.
  intros Hv Hr Hf Hd Hh Hb Ht HQ. unfold ilock. apply wp_bind. eapply fv_geti; [exact Hv|].
  destruct (Z.ltb_spec (i_ref (v_in v i)) 1); [lia|].
  apply wp_bind. eapply fv_acquiresleep; [exact Hv|done|]. intros s1 Hv1.
  apply wp_bind. eapply fv_geti; [exact Hv1|]. cbn [vset_in v_in]. rewrite upd_eq.
  unfold locked in Ht, HQ. cbv zeta in Ht, HQ. set (x := set_ilock _ _) in *.
  destruct (Z.eqb_spec (i_valid x) 0) as [Ev|Ev]; [|by apply wp_ret, HQ].
  apply wp_bind. eapply fv_sb; [exact Hv1|]. apply wp_bind. replace (i_dev x) with dev by done.
  eapply fv_bread; [exact Hv1|exact Hh|by right|]. intros b s2 Hv2.
  apply wp_bind. eapply fv_data_of; [exact Hv2|apply lookup_insert_eq|].
  apply wp_bind. eapply fv_puti; [exact Hv2|]. intros s3 Hv3.
  cbn [vset_in vset_hs v_in v_c v_hs v_lg v_sb v_ic] in Hv3. rewrite upd_eq, upd_upd in Hv3.
  apply wp_bind. eapply (fv_clean_rel e (vset_in _ v)); [exact Hv3|exact Hh|exact (clean_or_logged _ _ _ _ Hv Hh)|].
  intros s4 Hv4. apply wp_bind. eapply fv_puti; [exact Hv4|]. intros s5 Hv5.
  cbn [vset_in v_in v_c v_hs v_lg v_sb v_ic] in Hv5. rewrite upd_eq, upd_upd in Hv5.
  apply wp_bind. eapply fv_geti; [exact Hv5|]. cbn [vset_in v_in]. rewrite upd_eq.
  unfold inode_off in Ht. rewrite (proj2 (Z.eqb_neq _ _) Ht). apply wp_ret. apply HQ. exact Hv5.
Qed.

Lemma wp_iunlock e v (s : fsst P D) i (Q : unit → fsst P D → Prop) :
  frel e v s → 1 ≤ i_ref (v_in v i) → sl_held (e_pid e) (i_lock (v_in v i)) →
  (∀ s', frel e (vset_in (upd (v_in v) i (set_ilock (sl_drop (i_lock (v_in v i))) (v_in v i))) v) s' → Q () s') →
  wp (iunlock (Some i)) Q s.
Proof.
  intros Hv Hr Hl HQ. unfold iunlock. apply wp_bind. eapply fv_holdingsleep; [exact Hv|done|]. intros s1 Hv1.
  apply wp_bind. eapply fv_geti; [exact Hv1|]. destruct (Z.ltb_spec (i_ref (v_in v i)) 1); [lia|]. cbn [negb orb].
  eapply fv_releasesleep; [exact Hv1|apply Hl|done].
Qed.

(** iput() of a reference that is not the last one to an inode without links *)
Lemma wp_iput_keep fuel e v (s : fsst P D) i (Q : unit → fsst P D → Prop) :
  frel e v s → v_ic v = None → i_ref (v_in v i) ≠ 1 ∨ i_valid (v_in v i) = 0 ∨ i_nlink (v_in v i) ≠ 0 →
  (∀ s', frel e (vset_in (upd (v_in v) i (set_iref (i_ref (v_in v i) - 1) (v_in v i))) v) s' → Q () s') →
  wp (iput fuel i) Q s.
Proof.
  intros Hv Hic Hk HQ. unfold iput. apply wp_bind. eapply fv_acq; [exact Hv|done|]. intros p s1 Hv1.
  apply wp_bind. eapply fv_geti; [exact Hv1|]. cbn [vset_ic v_in].
  replace ((i_ref (v_in v i) =? 1) && negb (i_valid (v_in v i) =? 0) && (i_nlink (v_in v i) =? 0)) with false
    by (symmetry; repeat zcmp; cbn; lia).
  apply wp_bind. cbn [when_]. apply wp_ret.
  apply wp_bind. eapply fv_puti; [exact Hv1|]. intros s2 Hv2. eapply fv_rel; [exact Hv2|done|].
  intros s3 Hv3. apply HQ. cbn in Hv3. unfold vset_in. by rewrite Hic.
Qed.

Lemma wp_iupdate fuel e v (s : fsst P D) i (Q : unit → fsst P D → Prop) :
  let x := v_in v i in let bn := IBLOCK (i_inum x) (v_sb v) in
  frel e v s → i_dev x = dev → v_hs v !! bn = None → loggable e bn → room e v 1 → 1 ≤ e_out e →
  Z.of_nat (size (v_lg v ∪ dom (v_hs v))) < NBUF →
  (∀ s', frel e (vwrite bn (put_dinode (v_c v bn) (inode_off (i_inum x)) x) v) s' → Q () s') →
  wp (iupdate fuel i) Q s.
Proof.
  intros x bn Hv Hd Hh Hlg Hr Ho Hb HQ. unfold iupdate. apply wp_bind. eapply fv_sb; [exact Hv|].
  apply wp_bind. eapply fv_geti; [exact Hv|]. fold x. rewrite Hd.
  apply wp_bind. eapply fv_bread; [exact Hv|exact Hh|by right|]. intros b s1 Hv1.
  apply wp_bind. eapply fv_data_of; [exact Hv1|apply lookup_insert_eq|].
  eapply (fv_write_rel e v); [exact Hv1|done| |done|done|done|exact HQ].
  rewrite length_put_dinode. exact (frel_length _ _ _ _ Hv).
Qed.

Lemma wp_iget e v (s : fsst P D) inum (Q : Z → fsst P D → Prop) :
  frel e v s → v_ic v = None → icache_ok (v_in v) → (∃ j, islot j ∧ i_ref (v_in v j) = 0) →
  (∀ i s', caches (v_in v) dev inum i →
     frel e (vset_in (upd (v_in v) i (set_iref (i_ref (v_in v i) + 1) (v_in v i))) v) s' → Q i s') →
  (∀ i s', (∀ j, ¬ caches (v_in v) dev inum j) → islot i → i_ref (v_in v i) = 0 →
     frel e (vset_in (upd (v_in v) i (recycled dev inum (v_in v i))) v) s' → Q i s') →
  wp (iget dev inum) Q s.
Proof.
  intros Hv Hic Hok (j0 & Hj0 & Hr0) Qhit Qmiss.
  pose proof (iget_find_spec (Z.to_nat NINODE) 0 dev inum None (v_in v) ltac:(lia) eq_refl Hok) as Hf.
  destruct (iget_find _ _ _ _ _ _) as [i|[i|]].
  - eapply wp_iget_hit; [exact Hv|done|done|apply Hf; intros; lia|]. intros s' Hs'. apply Qhit; [|done].
    apply Hf; intros; lia.
  - destruct Hf as (Hno & Hi & H0i & Hfst); [intros; lia|intros; lia|].
    eapply wp_iget_miss; [exact Hv|done|done|exact Hno|exact Hi|done|done|]. auto.
  - destruct Hf as [_ Hall]; [intros; lia|intros; lia|]. specialize (Hall j0 Hj0). lia.
Qed.

#[local] Opaque get_dinode put_dinode inode_off IBLOCK.

(** Write an inode back, give it up, and get and lock it again. *)
Definition reload (fuel : nat) (i inum : Z) : M (fsst P D) Z :=
  iupdate fuel i;; iunlockput fuel i;; j ← iget dev inum; ilock fuel (Some j);; mret j.

(** The last reference to the locked inode [i] is dropped. *)
Definition dropped (x : inode) : inode := set_iref (i_ref x - 1) (set_ilock (sl_drop (i_lock x)) x).

Lemma dropped_no_cache f i inum :
  icache_ok f → caches f dev inum i → i_ref (f i) = 1 →
  icache_ok (upd f i (dropped (f i))) ∧ ∀ j, ¬ caches (upd f i (dropped (f i))) dev inum j.
Proof.
  intros [Hu Hr] Hc H1i.
  assert (Hsub : ∀ d n j, caches (upd f i (dropped (f i))) d n j → j ≠ i ∧ caches f d n j).
  { intros d n j (Hj & Hp & Hd & Hn). unfold upd in *. destruct (Z.eqb_spec j i) as [->|]; [|done].
    cbn in Hp. lia. }
  split; [split|].
  - intros d n a b Ha%Hsub Hb%Hsub. apply (Hu d n); [apply Ha|apply Hb].
  - intros j Hj. unfold upd. destruct (Z.eqb_spec j i); [cbn; lia|]. by apply Hr.
  - intros j [Hne Hj]%Hsub. apply Hne. by apply (Hu dev inum).
Qed.

Lemma locked_invalid e v y :
  i_valid y = 0 →
  locked e v y = set_ivalid 1 (get_dinode (v_c v (IBLOCK (i_inum y) (v_sb v))) (inode_off (i_inum y))
                                 (set_ilock (sl_take (e_pid e) (i_lock y)) y)).
Proof.
  intros E. unfold locked. cbv zeta. set (x' := set_ilock _ y).
  assert (i_valid x' = i_valid y) as -> by done. assert (i_inum x' = i_inum y) as -> by done. by rewrite E.
Qed.

Lemma locked_roundtrip e (v : fsv P) data x y :
  v_c v (IBLOCK (i_inum y) (v_sb v)) = put_dinode data (inode_off (i_inum x)) x → i_inum y = i_inum x →
  i_valid y = 0 → dinode_ok x → length data = Z.to_nat BSIZE →
  same_dinode (locked e v y) x ∧ same_mem (locked e v y) (set_ilock (sl_take (e_pid e) (i_lock y)) y) ∧
  i_valid (locked e v y) = 1.
Proof.
  intros Ec Hin Hval Hok Hlen. rewrite locked_invalid by done. rewrite Ec, Hin. split; [|split; [|done]].
  - apply same_dinode_valid. by apply dinode_reads.
  - apply same_mem_valid, get_dinode_mem.
Qed.

(** Inode metadata survives eviction: when the holder of the only reference to a linked inode calls iupdate() and then
    iunlock() and iput(), the slot becomes free; a later iget() and ilock() of the same inode
    number, in whatever slot, read back its type, device numbers, link count, size
    and block addresses from the log. *)
Theorem inode_persists fuel e v (s : fsst P D) i inum :
  let x := v_in v i in let bn := IBLOCK inum (v_sb v) in
  frel e v s → v_ic v = None → icache_ok (v_in v) → caches (v_in v) dev inum i →
  i_ref x = 1 → sl_held (e_pid e) (i_lock x) → i_nlink x ≠ 0 → i_type x ≠ 0 → dinode_ok x →
  (∀ j, islot j → i_ref (v_in v j) = 0 → sl_free (i_lock (v_in v j))) →
  v_hs v !! bn = None → loggable e bn → room e v 1 → 1 ≤ e_out e →
  Z.of_nat (size (v_lg v ∪ dom (v_hs v))) + 1 < NBUF →
  ∃ j s', reload fuel i inum s = Ret j s' ∧ caches (inodes s') dev inum j ∧ i_ref (inodes s' j) = 1 ∧
    i_valid (inodes s' j) = 1 ∧ sl_held (e_pid e) (i_lock (inodes s' j)) ∧ same_dinode (inodes s' j) x.
Proof.
  intros x bn Hv Hic Hok Hc Href Hl Hnl Hty Hdi Hfree Hh Hlg Hr Ho Hb.
  pose proof Hc as (Hi & _ & Hdev & Hinum). fold x in Hdev, Hinum.
  pose proof (size_one_more (v_lg v) (v_hs v) bn) as Hs1.
  eassert (Hwp : wp (reload fuel i inum) _ s); [|apply wp_elim in Hwp as (j & s' & E & Hs'); exists j, s'; split; [exact E|exact Hs']].
  unfold reload. apply wp_bind. eapply wp_iupdate; [exact Hv|exact Hdev|fold x; rewrite Hinum; exact Hh|fold x; rewrite Hinum; exact Hlg|exact Hr|done|lia|].
  fold x. rewrite Hinum. fold bn. intros s1 Hv1.
  apply wp_bind, wp_bind. eapply wp_iunlock; [exact Hv1|cbn; fold x; lia|exact Hl|]. intros s2 Hv2.
  eapply wp_iput_keep; [exact Hv2|exact Hic|cbn; rewrite upd_eq; cbn; by right; right|]. intros s3 Hv3.
  cbn [vset_in vwrite vset_c vset_lg v_in] in Hv3. rewrite upd_eq, upd_upd in Hv3.
  destruct (dropped_no_cache (v_in v) i inum Hok Hc Href) as [Hok3 Hno3].
  set (f3 := upd (v_in v) i (dropped (v_in v i))) in *. set (v1 := vwrite _ _ _) in Hv1, Hv2, Hv3.
  change (frel e (vset_in f3 v1) s3) in Hv3.
  apply wp_bind. eapply wp_iget; [exact Hv3|exact Hic|exact Hok3| | |].
  { exists i. split; [done|]. unfold f3. cbn [vset_in v_in]. rewrite upd_eq. cbn. fold x. lia. }
  { intros j s4 Hj. by destruct (Hno3 j). }
  intros j s4 _ Hj Hrj Hv4. cbn [vset_in v_in v_c v_hs v_lg v_sb v_ic] in Hv4, Hrj.
  assert (Hslj : sl_free (i_lock (f3 j))).
  { revert Hrj. unfold f3, upd. destruct (Z.eqb_spec j i) as [->|]; [|exact (Hfree j Hj)]. intros _.
    destruct Hl as (_ & _ & ?). by split_and!. }
  set (v4 := vset_in _ _) in Hv4. set (y := recycled dev inum (f3 j)).
  assert (Ey : v_in v4 j = y) by (unfold v4; cbn [vset_in v_in]; apply upd_eq).
  destruct (locked_roundtrip e v4 (v_c v bn) x y) as ((Ht & Hrest) & (Hmd & Hmi & Hmr & Hml) & Hval).
  { rewrite Hinum. exact (upd_eq (v_c v) bn _). }
  { by rewrite Hinum. }
  { done. }
  { done. }
  { exact (frel_length _ _ _ _ Hv). }
  apply wp_bind. eapply wp_ilock; [exact Hv4|..]; rewrite ?Ey; [cbn; lia|exact Hslj|done|exact Hh|cbn; lia|by rewrite Ht|].
  intros s5 Hv5. apply wp_ret. rewrite (fr_in _ _ _ Hv5). cbn [vset_in v_in]. rewrite upd_eq.
  unfold caches. rewrite upd_eq, Hmd, Hmi, Hmr, Hml, Hval. destruct Hslj as (_ & _ & Hlk).
  by split_and!.
Qed.
End inode.
