(* ===== verification/FsFile.v ===== *)
(** Files (fs.c): bmap(), readi() and writei() on the bytes of a file. *)
From stdpp Require Import gmap.
From Stdlib Require Import FunctionalExtensionality.
From S2P Require Import Prelude Machine CString Spinlock Sched Sleeplock Bio BioSpec Log LogSpec LogCrash LogTrans Fs FsCodec FsView FsAlloc FsInode.

(** ** The block map of an inode

    The block addresses an inode refers to, by slot: the NDIRECT direct blocks, the
    indirect block, and the NINDIRECT entries of the indirect block. *)
Definition amap (c : Z → list Z) (x : inode) (t : Z) : Z :=
  if t <=? NDIRECT then i_addrs x t
  else if i_addrs x NDIRECT =? 0 then 0
  else ld32 (c (i_addrs x NDIRECT)) (4 * (t - NDIRECT - 1)).

Definition aslot (t : Z) : Prop := 0 ≤ t ≤ NDIRECT + NINDIRECT.

(** The slot of block [bn] of the file *)
Definition slot (bn : Z) : Z := if bn <? NDIRECT then bn else bn + 1.

Lemma slot_range bn : 0 ≤ bn < MAXFILE → aslot (slot bn) ∧ slot bn ≠ NDIRECT.
Proof. unfold slot, aslot, MAXFILE, NDIRECT, NINDIRECT, BSIZE. change (1024 / 4) with 256. intros. zcmp; lia. Qed.

Lemma slot_inj a b : slot a = slot b → a = b.
Proof. unfold slot. repeat zcmp; lia. Qed.

(** ** The disk and the file on it

    [u] says which blocks are marked in use, [ib] is the block with the file's inode. *)
Section wf.
Context (e : fenv) (sb : superblock).

Record disk_wf (u : Z → bool) (ib : Z) : Prop := {
  dw_out : 1 ≤ e_out e;
  dw_size : 0 ≤ s_size sb < 2 ^ 31;
  dw_map : ∀ b, 0 ≤ b < s_size sb → loggable e (BBLOCK b sb) ∧ BBLOCK b sb ≠ ib;
  dw_inode : loggable e ib;
  dw_free : ∀ b, 0 ≤ b < s_size sb → u b = false →
    0 < b ∧ b ≠ ib ∧ loggable e b ∧ ∀ x, 0 ≤ x < s_size sb → b ≠ BBLOCK x sb
}.

(** A block that holds data of a file *)
Record data_blk (u : Z → bool) (ib b : Z) : Prop := {
  db_range : 0 < b < s_size sb;
  db_used : u b = true;
  db_ib : b ≠ ib;
  db_log : loggable e b;
  db_map : ∀ x, 0 ≤ x < s_size sb → b ≠ BBLOCK x sb
}.

Record file_wf (u : Z → bool) (ib : Z) (A : Z → Z) : Prop := {
  fw_data : ∀ t, aslot t → A t ≠ 0 → data_blk u ib (A t);
  fw_inj : ∀ t t', aslot t → aslot t' → A t ≠ 0 → A t = A t' → t = t'
}.

Lemma disk_wf_more u u' ib :
  (∀ b, 0 ≤ b < s_size sb → u b = true → u' b = true) → disk_wf u ib → disk_wf u' ib.
Proof.
  intros Hu []. split; try done. intros b Hb Hf. apply dw_free0; [done|].
  destruct (u b) eqn:E; [|done]. apply Hu in E; [congruence|done].
Qed.

Lemma data_blk_more u u' ib b :
  (∀ b, 0 ≤ b < s_size sb → u b = true → u' b = true) → data_blk u ib b → data_blk u' ib b.
Proof. intros Hu []. split; try done. apply Hu; [lia|done]. Qed.

(** A fresh block in an empty slot *)
Lemma file_wf_extend u u' ib A A' t r :
  disk_wf u ib → file_wf u ib A → (∀ b, 0 ≤ b < s_size sb → u' b = u b || (b =? r)) →
  0 ≤ r < s_size sb → u r = false → A t = 0 → (∀ t', aslot t' → A' t' = upd A t r t') →
  file_wf u' ib A'.
Proof.
  intros [Ho Hsz Hmp Hin Hfr] [Hd Hi] Hu Hr Hur Ht HA.
  assert (Hmore : ∀ b, 0 ≤ b < s_size sb → u b = true → u' b = true) by (intros b Hb E; by rewrite Hu, E).
  assert (Hold : ∀ t', aslot t' → A t' ≠ 0 → A t' ≠ r).
  { intros t' Ht' Hne E. pose proof (db_used _ _ _ (Hd t' Ht' Hne)) as E2. rewrite E in E2. congruence. }
  split.
  - intros t' Ht' Hne. rewrite HA in * by done. unfold upd in *. destruct (Z.eqb_spec t' t) as [->|].
    + destruct (Hfr r Hr Hur) as (? & ? & ? & ?). split; try done; [lia|]. rewrite Hu, Z.eqb_refl by lia. apply orb_true_r.
    + eapply data_blk_more; [exact Hmore|]. auto.
  - intros t1 t2 H1 H2 Hne. rewrite !HA in * by done. unfold upd in *.
    destruct (Z.eqb_spec t1 t) as [->|], (Z.eqb_spec t2 t) as [->|]; try done.
    + intros E. exfalso. apply (Hold t2); [done|lia|lia].
    + intros E. exfalso. by apply (Hold t1).
    + by apply Hi.
Qed.

(** Nothing changes on the disk's map, and the file's blocks are where they were. *)
Lemma file_wf_ext u ib A A' : file_wf u ib A → (∀ t, aslot t → A' t = A t) → file_wf u ib A'.
Proof.
  intros [Hd Hi] HA. split.
  - intros t Ht. rewrite HA by done. auto.
  - intros t t' Ht Ht'. rewrite !HA by done. auto.
Qed.
End wf.

(** ** Free blocks, counted *)
Lemma filter_in_ext (u u' : Z → bool) (l : list Z) :
  (∀ b, b ∈ l → u' b = u b) → filter (λ b, u' b = false) l = filter (λ b, u b = false) l.
Proof.
  induction l as [|b l IH]; intros Hu; [done|]. rewrite !filter_cons, (Hu b), IH by set_solver. done.
Qed.

Definition free_in (u : Z → bool) (l : list Z) : nat := length (filter (λ b, u b = false) l).
Definition nfreeb (u : Z → bool) (sb : superblock) : nat := free_in u (seqZ 0 (s_size sb)).

Lemma free_in_set u u' r l :
  NoDup l → (∀ b, b ∈ l → u' b = u b || (b =? r)) → (free_in u l ≤ free_in u' l + 1)%nat.
Proof.
  unfold free_in. induction l as [|b l IH]; intros Hnd Hu; [simpl; lia|].
  apply NoDup_cons in Hnd as [Hb Hnd]. rewrite !filter_cons.
  specialize (IH Hnd ltac:(intros; apply Hu; set_solver)).
  pose proof (Hu b ltac:(set_solver)) as Eb. destruct (Z.eqb_spec b r) as [->|].
  - assert (Heq : filter (λ b, u' b = false) l = filter (λ b, u b = false) l).
    { apply filter_in_ext. intros x Hx. rewrite Hu by set_solver.
      destruct (Z.eqb_spec x r) as [->|]; [done|]. by rewrite orb_false_r. }
    rewrite Heq. repeat case_decide; simpl; lia.
  - rewrite orb_false_r in Eb. rewrite Eb. case_decide; simpl; lia.
Qed.

Lemma nfreeb_alloc u u' sb r :
  (∀ b, 0 ≤ b < s_size sb → u' b = u b || (b =? r)) → (nfreeb u sb ≤ nfreeb u' sb + 1)%nat.
Proof. intros Hu. apply (free_in_set u u' r); [apply NoDup_seqZ|]. intros b Hb%elem_of_seqZ. apply Hu. lia. Qed.

Lemma nfreeb_same u u' sb : (∀ b, 0 ≤ b < s_size sb → u' b = u b) → nfreeb u' sb = nfreeb u sb.
Proof.
  intros Hu. unfold nfreeb, free_in. f_equal. apply filter_in_ext. intros b Hb%elem_of_seqZ. apply Hu. lia.
Qed.

Lemma nfreeb_pos u sb : (0 < nfreeb u sb)%nat → ∃ b, 0 ≤ b < s_size sb ∧ u b = false.
Proof.
  unfold nfreeb, free_in. destruct (filter _ _) as [|b l] eqn:E; [simpl; lia|]. intros _.
  assert (Hb : b ∈ filter (λ b, u b = false) (seqZ 0 (s_size sb))) by (rewrite E; set_solver).
  apply list_elem_of_filter in Hb as [Hu Hb%elem_of_seqZ]. exists b. split; [lia|done].
Qed.

Section file.
Context {P D : Type} `{DriverOk P D}.
Abbreviation dev := ROOTDEV.

Definition us (v : fsv P) : Z → bool := used (v_c v) (v_sb v).
Definition fa (v : fsv P) (i : Z) : Z → Z := amap (v_c v) (v_in v i).
Definition iblk (v : fsv P) (i : Z) : Z := IBLOCK (i_inum (v_in v i)) (v_sb v).
Definition in_disk (v : fsv P) (b : Z) : Prop := 0 ≤ b < s_size (v_sb v).
Definition not_map (v : fsv P) (b : Z) : Prop := ∀ x, in_disk v x → b ≠ BBLOCK x (v_sb v).

(** The file of the cached inode [i] is well formed. *)
Record file_at (e : fenv) (v : fsv P) (i : Z) : Prop := {
  fo_disk : disk_wf e (v_sb v) (us v) (iblk v i);
  fo_file : file_wf e (v_sb v) (us v) (iblk v i) (fa v i);
  fo_dev : i_dev (v_in v i) = dev
}.

(** Its bytes: a block that is not allocated reads as zeros. *)
Definition fbyte (v : fsv P) (i p : Z) : Z :=
  if fa v i (slot (p / BSIZE)) =? 0 then 0 else lmem (v_c v (fa v i (slot (p / BSIZE)))) (p mod BSIZE).

Definition with_addrs (a : Z → Z) (x : inode) : inode :=
  mkInode (i_dev x) (i_inum x) (i_ref x) (i_lock x) (i_valid x) (i_type x) (i_major x) (i_minor x) (i_nlink x) (i_size x) a.

(** From [v] to [v'] the file may have got more blocks, at most [n] more, at most [m]
    blocks more are logged, and no other file's blocks have changed. *)
Record grows (e : fenv) (v v' : fsv P) (i : Z) (m n : nat) : Prop := {
  g_hs : v_hs v' = v_hs v;
  g_sb : v_sb v' = v_sb v;
  g_ic : v_ic v' = v_ic v;
  g_in : ∃ a, v_in v' = upd (v_in v) i (with_addrs a (v_in v i));
  g_at : file_at e v' i;
  g_lg : (size (v_lg v') ≤ size (v_lg v) + m)%nat;
  g_sub : v_lg v ⊆ v_lg v';
  g_free : (nfreeb (us v) (v_sb v) ≤ nfreeb (us v') (v_sb v) + n)%nat;
  g_used : ∀ b, in_disk v b → us v b = true → us v' b = true;
  g_old : ∀ t, aslot t → fa v i t ≠ 0 → fa v' i t = fa v i t;
  g_new : ∀ t, aslot t → fa v i t = 0 → fa v' i t ≠ 0 → us v (fa v' i t) = false;
  g_other : ∀ b, in_disk v b → us v b = true → (∀ t, aslot t → fa v i t ≠ b) → not_map v b → v_c v' b = v_c v b
}.

Lemma grows_refl e v i : file_at e v i → grows e v v i 0 0.
Proof.
  intros Hat. split; try done; try lia.
  exists (i_addrs (v_in v i)). symmetry. apply upd_idem. by destruct (v_in v i).
Qed.

Lemma grows_trans e v1 v2 v3 i m1 n1 m2 n2 :
  grows e v1 v2 i m1 n1 → grows e v2 v3 i m2 n2 → grows e v1 v3 i (m1 + m2) (n1 + n2).
Proof.
  intros [Hh Hs Hc [a1 Hi] Ha Hl Hsu Hf Hu Ho Hn Hx] [Hh' Hs' Hc' [a2 Hi'] Ha' Hl' Hsu' Hf' Hu' Ho' Hn' Hx'].
  unfold not_map, in_disk in *. rewrite Hs in *. split; try congruence; try done.
  - exists a2. rewrite Hi', Hi, upd_upd, upd_eq. done.
  - lia.
  - set_solver.
  - lia.
  - intros b Hb Hub. apply Hu'; [done|]. by apply Hu.
  - intros t Ht Hne. pose proof (Ho t Ht Hne) as E. rewrite Ho'; [done|done|by rewrite E].
  - intros t Ht E Hne. destruct (Z.eqb_spec (fa v2 i t) 0) as [E2|E2].
    + destruct (us v1 (fa v3 i t)) eqn:Eu; [|done]. specialize (Hn' t Ht E2 Hne).
      destruct (fw_data _ _ _ _ _ (fo_file _ _ _ Ha') t Ht Hne) as [Hrg _ _ _ _]. rewrite Hs', ?Hs in Hrg.
      rewrite Hu in Hn'; [done|lia|done].
    + rewrite Ho' by done. auto.
  - intros b Hb Hub Hno Hnm. transitivity (v_c v2 b); [|by apply Hx]. apply Hx'; [done|by apply Hu| |exact Hnm].
    intros t Ht. destruct (Z.eqb_spec (fa v1 i t) 0) as [E|E].
    + destruct (Z.eqb_spec (fa v2 i t) 0) as [E2|E2].
      * intros E3. rewrite E2 in E3. subst b.
        apply (Hno t); done.
      * intros E3. pose proof (Hn t Ht E E2) as Hfr. congruence.
    + rewrite Ho by done. auto.
Qed.

(** ** Allocation, on the view *)
Lemma alloc_us (v : fsv P) r b :
  in_disk v r → s_size (v_sb v) < 2 ^ 31 → (∀ x, length (v_c v x) = Z.to_nat BSIZE) → not_map v r → in_disk v b →
  us (alloc r v) b = us v b || (b =? r).
Proof.
  unfold in_disk. intros Hr Hs Hl Hnm Hb. unfold us. rewrite <- used_set_bit by (try lia; apply Hl).
  unfold used. cbn [alloc vwrite vset_c vset_lg v_c v_sb]. rewrite (upd_ne _ r); [done|].
  intros E. by apply (Hnm b).
Qed.

Lemma alloc_c (v : fsv P) r b : b ≠ r → in_disk v r → not_map v b → v_c (alloc r v) b = v_c v b.
Proof. intros Hne Hr Hnm. cbn. rewrite !upd_ne; [done| |done]. by apply Hnm. Qed.

Lemma alloc_zeros (v : fsv P) r : v_c (alloc r v) r = zeros.
Proof. apply upd_eq. Qed.

Lemma size_add (lg : blocks) b : (size ({[b]} ∪ lg) ≤ size lg + 1)%nat.
Proof.
  pose proof (size_one_more lg ∅ b) as Hx. rewrite dom_empty_L, !union_empty_r_L in Hx. done.
Qed.

Lemma alloc_lg (v : fsv P) r : (size (v_lg (alloc r v)) ≤ size (v_lg v) + 2)%nat ∧ v_lg v ⊆ v_lg (alloc r v).
Proof.
  cbn. split; [|set_solver]. pose proof (size_add (v_lg v) (BBLOCK r (v_sb v))).
  pose proof (size_add ({[BBLOCK r (v_sb v)]} ∪ v_lg v) r). lia.
Qed.

Lemma ld32_zeros o : ld32 zeros o = 0.
Proof.
  assert (Hz : ∀ a, lmem zeros a = 0).
  { intros a. unfold lmem, zeros. rewrite nth_lookup. destruct (replicate _ 0 !! _) as [y|] eqn:E; [|done].
    by apply lookup_replicate in E as [-> _]. }
  unfold ld32, load32. cbn [load]. rewrite !Hz. done.
Qed.

(** A block [r] that was free becomes the block of slot [t]. *)
Lemma grows_extend e v v' i t r m :
  file_at e v i → in_disk v r → us v r = false → aslot t → fa v i t = 0 →
  v_hs v' = v_hs v → v_sb v' = v_sb v → v_ic v' = v_ic v →
  (∃ a, v_in v' = upd (v_in v) i (with_addrs a (v_in v i))) →
  (size (v_lg v') ≤ size (v_lg v) + m)%nat → v_lg v ⊆ v_lg v' →
  (∀ b, in_disk v b → us v' b = us v b || (b =? r)) →
  (∀ t', aslot t' → fa v' i t' = upd (fa v i) t r t') →
  (∀ b, in_disk v b → us v b = true → (∀ t, aslot t → fa v i t ≠ b) → not_map v b → v_c v' b = v_c v b) →
  grows e v v' i m 1.
Proof.
  intros [Hd Hf Hdev] Hr Hur Ht Ht0 Hhs Hsb Hic [a Hin] Hl Hsub Hu Hfa Hc.
  assert (Hib : iblk v' i = iblk v i) by (unfold iblk; by rewrite Hin, Hsb, upd_eq).
  assert (Hmore : ∀ b, 0 ≤ b < s_size (v_sb v) → us v b = true → us v' b = true) by (intros b Hb E; by rewrite Hu, E).
  split; try done.
  - by exists a.
  - split; rewrite ?Hsb, ?Hib.
    + by eapply disk_wf_more.
    + eapply file_wf_extend; [exact Hd|exact Hf|exact Hu|exact Hr|exact Hur|exact Ht0|exact Hfa].
    + rewrite Hin, upd_eq. done.
  - apply nfreeb_alloc with r. exact Hu.
  - intros t' Ht' Hne. rewrite Hfa by done. apply upd_ne. intros ->. done.
  - intros t' Ht' E Hne. rewrite Hfa in * by done. unfold upd in *. destruct (Z.eqb_spec t' t); [done|]. by destruct Hne.
Qed.

Lemma fbyte_keep v v' i :
  (∀ k, 0 ≤ k < MAXFILE →
     fa v' i (slot k) = fa v i (slot k) ∧ (fa v i (slot k) ≠ 0 → v_c v' (fa v i (slot k)) = v_c v (fa v i (slot k)))
     ∨ fa v i (slot k) = 0 ∧ v_c v' (fa v' i (slot k)) = zeros) →
  ∀ p, 0 ≤ p < MAXFILE * BSIZE → fbyte v' i p = fbyte v i p.
Proof.
  intros Hk p Hp. unfold fbyte. destruct (Hk (p / BSIZE)) as [[E Hc]|[E Hc]].
  { unfold BSIZE in *. zdm. }
  - rewrite E. destruct (Z.eqb_spec (fa v i (slot (p / BSIZE))) 0) as [|Hne]; [done|]. by rewrite Hc.
  - rewrite E, Hc. cbn [Z.eqb]. unfold lmem, zeros. rewrite nth_lookup.
    destruct (replicate _ 0 !! _) as [y|] eqn:E'; [apply lookup_replicate in E' as [-> _]|]; by destruct (_ =? 0).
Qed.

(** A direct block, or the indirect block *)
Definition assign (i k r : Z) (v : fsv P) : fsv P :=
  vset_in (upd (v_in v) i (set_addr k r (v_in v i))) (alloc r v).

Lemma file_data e v i t : file_at e v i → aslot t → fa v i t ≠ 0 → data_blk e (v_sb v) (us v) (iblk v i) (fa v i t).
Proof. intros [_ Hf _]. apply Hf. Qed.

Lemma free_facts e v i r :
  file_at e v i → in_disk v r → us v r = false →
  0 < r ∧ loggable e r ∧ not_map v r ∧ s_size (v_sb v) < 2 ^ 31 ∧
  ∀ t, aslot t → fa v i t ≠ 0 → fa v i t ≠ r ∧ v_c (alloc r v) (fa v i t) = v_c v (fa v i t).
Proof.
  intros Hat Hr Hu. destruct (fo_disk _ _ _ Hat) as [_ Hsz _ _ Hfr].
  destruct (Hfr r Hr Hu) as (? & _ & ? & Hnm). split_and!; try done; try lia.
  intros t Ht Hne. destruct (file_data _ _ _ t Hat Ht Hne) as [? Hus _ _ Hmap].
  assert (fa v i t ≠ r) by (intros E; rewrite E in Hus; congruence). split; [done|]. by apply alloc_c.
Qed.

Lemma assign_fa e v i k r :
  file_at e v i → in_disk v r → us v r = false → 0 ≤ k ≤ NDIRECT → fa v i k = 0 →
  ∀ t, aslot t → fa (assign i k r v) i t = upd (fa v i) k r t.
Proof.
  intros Hat Hr Hu Hk Hz t Ht. destruct (free_facts e v i r Hat Hr Hu) as (Hpos & _ & _ & _ & Hkeep).
  assert (Ek : i_addrs (v_in v i) k = 0).
  { unfold fa, amap in Hz. destruct (Z.leb_spec k NDIRECT); [done|lia]. }
  assert (Ev : v_in (assign i k r v) i = set_addr k r (v_in v i)) by apply upd_eq.
  unfold fa at 1. rewrite Ev. change (v_c (assign i k r v)) with (v_c (alloc r v)).
  unfold amap at 1. cbn [set_addr i_addrs]. destruct (Z.leb_spec t NDIRECT) as [Hle|Hgt].
  { unfold upd. destruct (Z.eqb_spec t k); [done|]. unfold fa, amap. destruct (Z.leb_spec t NDIRECT); [done|lia]. }
  rewrite (upd_ne (fa v i) k r t) by lia. unfold fa, amap. destruct (Z.leb_spec t NDIRECT); [lia|].
  destruct (decide (k = NDIRECT)) as [->|Hne].
  - rewrite upd_eq, Ek. cbn [Z.eqb]. destruct (Z.eqb_spec r 0); [lia|]. rewrite alloc_zeros. apply ld32_zeros.
  - rewrite !upd_ne by done. destruct (Z.eqb_spec (i_addrs (v_in v i) NDIRECT) 0) as [|Hn0]; [done|].
    destruct (Hkeep NDIRECT) as [_ E].
    + unfold aslot, NDIRECT, NINDIRECT, BSIZE. change (1024 / 4) with 256. lia.
    + exact Hn0.
    + change (fa v i NDIRECT) with (i_addrs (v_in v i) NDIRECT) in E. by rewrite E.
Qed.

(** What [assign] does to the file *)
Lemma grows_assign e v i k r :
  file_at e v i → in_disk v r → us v r = false → (∀ x, length (v_c v x) = Z.to_nat BSIZE) →
  0 ≤ k ≤ NDIRECT → fa v i k = 0 →
  grows e v (assign i k r v) i 2 1 ∧ ∀ p, 0 ≤ p < MAXFILE * BSIZE → fbyte (assign i k r v) i p = fbyte v i p.
Proof.
  intros Hat Hr Hu Hlen Hk Hz. pose proof (assign_fa e v i k r Hat Hr Hu Hk Hz) as Hfa.
  destruct (free_facts e v i r Hat Hr Hu) as (Hpos & Hlog & Hnm & Hsz & Hkeep).
  assert (Hks : aslot k) by (unfold aslot, NINDIRECT, BSIZE; change (1024 / 4) with 256; lia).
  destruct (alloc_lg v r) as [Hl Hsub]. split.
  - apply (grows_extend e v _ i k r); try done.
    + by exists (upd (i_addrs (v_in v i)) k r).
    + intros b Hb. by apply alloc_us.
    + intros b Hb Hub Hno Hnmb. apply alloc_c; [|done|done]. intros ->. congruence.
  - apply fbyte_keep. intros j Hj. destruct (slot_range j Hj) as [Hsj Hnj]. rewrite Hfa by done. unfold upd.
    destruct (Z.eqb_spec (slot j) k) as [->|]; [right; split; [done|apply alloc_zeros]|left].
    split; [done|]. intros Hne. by apply Hkeep.
Qed.

(** An entry of the indirect block *)
Definition indirect (v : fsv P) (i : Z) : Z := i_addrs (v_in v i) NDIRECT.
Definition entry (i t r : Z) (v : fsv P) : fsv P :=
  vwrite (indirect v i) (st32 (v_c (alloc r v) (indirect v i)) (4 * (t - NDIRECT - 1)) r) (alloc r v).

Lemma aslot_indirect : aslot NDIRECT.
Proof. unfold aslot, NDIRECT, NINDIRECT, BSIZE. change (1024 / 4) with 256. lia. Qed.

Lemma entry_fa e v i t r :
  file_at e v i → in_disk v r → us v r = false → (∀ x, length (v_c v x) = Z.to_nat BSIZE) →
  NDIRECT < t → aslot t → indirect v i ≠ 0 →
  ∀ t', aslot t' → fa (entry i t r v) i t' = upd (fa v i) t r t'.
Proof.
  intros Hat Hr Hu Hlen Ht Hts Hind t' Ht'. destruct (free_facts e v i r Hat Hr Hu) as (Hpos & _ & _ & Hsz & Hkeep).
  destruct (Hkeep NDIRECT aslot_indirect Hind) as [Hne Hcind]. change (fa v i NDIRECT) with (indirect v i) in Hne, Hcind.
  unfold fa at 1. change (v_in (entry i t r v)) with (v_in v). unfold amap at 1.
  destruct (Z.leb_spec t' NDIRECT) as [Hle|Hgt].
  { rewrite upd_ne by lia. unfold fa, amap. destruct (Z.leb_spec t' NDIRECT); [done|lia]. }
  fold (indirect v i). rewrite (proj2 (Z.eqb_neq _ _) Hind). unfold entry. cbn [vwrite vset_c vset_lg v_c].
  rewrite upd_eq, Hcind.
  assert (Hlen' : Z.of_nat (length (v_c v (indirect v i))) = 1024) by (rewrite Hlen; done).
  unfold aslot, NINDIRECT, BSIZE in *. change (1024 / 4) with 256 in *.
  unfold upd. destruct (Z.eqb_spec t' t) as [->|Htt].
  - rewrite ld32_st32_eq by lia. apply u32_small. unfold in_disk in Hr. lia.
  - rewrite ld32_st32_ne by lia. unfold fa, amap. destruct (Z.leb_spec t' NDIRECT); [lia|].
    fold (indirect v i). by rewrite (proj2 (Z.eqb_neq _ _) Hind).
Qed.

Lemma grows_entry e v i t r :
  file_at e v i → in_disk v r → us v r = false → (∀ x, length (v_c v x) = Z.to_nat BSIZE) →
  NDIRECT < t → aslot t → indirect v i ≠ 0 → fa v i t = 0 →
  grows e v (entry i t r v) i 3 1 ∧ ∀ p, 0 ≤ p < MAXFILE * BSIZE → fbyte (entry i t r v) i p = fbyte v i p.
Proof.
  intros Hat Hr Hu Hlen Ht Hts Hind Hz.
  pose proof (entry_fa e v i t r Hat Hr Hu Hlen Ht Hts Hind) as Hfa.
  destruct (free_facts e v i r Hat Hr Hu) as (Hpos & Hlog & Hnm & Hsz & Hkeep).
  destruct (file_data _ _ _ NDIRECT Hat aslot_indirect Hind) as [_ _ _ _ Hmapi].
  destruct (Hkeep NDIRECT aslot_indirect Hind) as [Hner _]. change (fa v i NDIRECT) with (indirect v i) in *.
  destruct (alloc_lg v r) as [Hl Hsub]. split.
  - apply (grows_extend e v _ i t r); try done.
    + exists (i_addrs (v_in v i)). change (v_in (entry i t r v)) with (v_in v). symmetry. apply upd_idem. by destruct (v_in v i).
    + unfold entry. cbn [vwrite vset_c vset_lg v_lg]. pose proof (size_add (v_lg (alloc r v)) (indirect v i)). lia.
    + unfold entry. cbn [vwrite vset_c vset_lg v_lg]. set_solver.
    + intros b Hb. rewrite <- (alloc_us v r b) by done. unfold us, used, entry. cbn [vwrite vset_c vset_lg v_c v_sb alloc].
      rewrite (upd_ne _ (indirect v i)); [done|]. intros E. by apply (Hmapi b Hb).
    + intros b Hb Hub Hno Hnmb. unfold entry. cbn [vwrite vset_c vset_lg v_c].
      rewrite upd_ne by (intros E; by apply (Hno NDIRECT aslot_indirect)).
      apply alloc_c; [|done|done]. intros ->. congruence.
  - apply fbyte_keep. intros j Hj. destruct (slot_range j Hj) as [Hsj Hnj]. rewrite Hfa by done.
    unfold entry. cbn [vwrite vset_c vset_lg v_c].
    destruct (decide (slot j = t)) as [->|Hjt];
      [rewrite upd_eq; right; split; [done|]|rewrite (upd_ne (fa v i)) by done; left; split; [done|]].
    + rewrite upd_ne by (by apply not_eq_sym). apply alloc_zeros.
    + intros Hne. rewrite upd_ne; [by apply Hkeep|]. intros E.
      apply Hnj. eapply (fw_inj _ _ _ _ _ (fo_file _ _ _ Hat)); [done|apply aslot_indirect|done|exact E].
Qed.

(** ** bmap() *)
Lemma file_map_ok e v i :
  file_at e v i → room e v 2 → (∀ b j, v_hs v !! b = Some j → data_blk e (v_sb v) (us v) (iblk v i) b) →
  (size (dom (v_hs v)) ≤ 1)%nat → map_ok e v.
Proof.
  intros [[Ho Hsz Hmp Hib Hfr] _ _] [Hr _] Hh Hs. split; try done.
  - intros b Hb. destruct (Hmp b Hb) as [Hlg _]. split; [done|]. destruct (v_hs v !! _) as [j|] eqn:E; [|done].
    by destruct (db_map _ _ _ _ _ (Hh _ _ E) b).
  - intros b Hb Hf. destruct (Hfr b Hb Hf) as (_ & _ & Hlg & Hnm). split_and!; try done.
    destruct (v_hs v !! b) as [j|] eqn:E; [|done]. pose proof (db_used _ _ _ _ _ (Hh _ _ E)) as Hus. unfold us in Hus. congruence.
  - pose proof (size_union_alt (v_lg v) (dom (v_hs v))).
    assert (size (dom (v_hs v) ∖ v_lg v) ≤ size (dom (v_hs v)))%nat by (apply subseteq_size; set_solver).
    unfold NBUF, LOGSIZE, MAXOPBLOCKS in *. lia.
Qed.

Lemma wp_balloc_file fuel e v (s : fsst P D) i (Q : Z → fsst P D → Prop) :
  frel e v s → file_at e v i → room e v 2 → (0 < nfreeb (us v) (v_sb v))%nat →
  (∀ b j, v_hs v !! b = Some j → data_blk e (v_sb v) (us v) (iblk v i) b) → (size (dom (v_hs v)) ≤ 1)%nat →
  (∀ r s', in_disk v r → us v r = false → frel e (alloc r v) s' → Q r s') → wp (balloc fuel dev) Q s.
Proof.
  intros Hv Hat Hr Hfree Hh Hs HQ. pose proof (file_map_ok e v i Hat Hr Hh Hs) as Hm.
  pose proof (mo_size _ _ Hm). destruct (free_dec_from v 0) as [Hfull|[r Hff]]; [lia|lia|..].
  - apply nfreeb_pos in Hfree as (b & Hb & Hub). specialize (Hfull b Hb). unfold us in Hub. congruence.
  - eapply wp_balloc; [exact Hv|done|done|exact Hff|]. destruct Hff as (? & ? & _). intros s' Hs'. by apply HQ.
Qed.

(** [grows], with the bytes of the file unchanged and no buffer held. *)
Definition extends (e : fenv) (v v' : fsv P) (i : Z) (m n : nat) : Prop :=
  grows e v v' i m n ∧ ∀ p, 0 ≤ p < MAXFILE * BSIZE → fbyte v' i p = fbyte v i p.

Lemma file_extends_trans e v1 v2 v3 i m1 n1 m2 n2 :
  extends e v1 v2 i m1 n1 → extends e v2 v3 i m2 n2 → extends e v1 v3 i (m1 + m2) (n1 + n2).
Proof.
  intros [Hg1 Hb1] [Hg2 Hb2]. split; [by eapply grows_trans|]. intros p Hp. rewrite Hb2, Hb1 by done. done.
Qed.

Lemma grows_mono e v v' i m n m' n' : grows e v v' i m n → (m ≤ m')%nat → (n ≤ n')%nat → grows e v v' i m' n'.
Proof. intros [] Hm Hn. split; try done; lia. Qed.

Lemma extends_mono e v v' i m n m' n' : extends e v v' i m n → (m ≤ m')%nat → (n ≤ n')%nat → extends e v v' i m' n'.
Proof. intros [Hg Hb] Hm Hn. split; [by eapply grows_mono|done]. Qed.

Lemma file_extends_refl e v i : file_at e v i → extends e v v i 0 0.
Proof. intros Hat. split; [by apply grows_refl|done]. Qed.

Lemma frel_lengths e v (s : fsst P D) : frel e v s → ∀ x, length (v_c v x) = Z.to_nat BSIZE.
Proof. intros Hv x. by eapply frel_length. Qed.

(** A slot of the inode itself: the block it has, or a new one *)
Lemma wp_direct fuel e v (s : fsst P D) i k (Q : Z → fsst P D → Prop) :
  frel e v s → file_at e v i → v_hs v = ∅ → 0 ≤ k ≤ NDIRECT → room e v 2 → (0 < nfreeb (us v) (v_sb v))%nat →
  (∀ v' s', frel e v' s' → extends e v v' i 2 1 → i_addrs (v_in v' i) k ≠ 0 → Q (i_addrs (v_in v' i) k) s') →
  wp (let addr := i_addrs (v_in v i) k in
      if addr =? 0 then addr ← balloc fuel dev; puti i (set_addr k addr);; mret addr else mret addr) Q s.
Proof.
  intros Hv Hat Hh Hk Hr Hf HQ. cbv zeta.
  destruct (Z.eqb_spec (i_addrs (v_in v i) k) 0) as [E|E].
  - assert (Hz : fa v i k = 0) by (unfold fa, amap; by destruct (Z.leb_spec k NDIRECT); [|lia]).
    apply wp_bind. eapply wp_balloc_file; [exact Hv|exact Hat|done|done|..].
    { rewrite Hh. intros b j Hb. by rewrite lookup_empty in Hb. }
    { rewrite Hh, dom_empty_L, size_empty. lia. }
    intros r s1 Hr1 Hu1 Hv1. apply wp_bind. eapply fv_puti; [exact Hv1|]. intros s2 Hv2. apply wp_ret.
    destruct (grows_assign e v i k r Hat Hr1 Hu1 (frel_lengths _ _ _ Hv) Hk Hz) as [Hg Hb].
    destruct (free_facts e v i r Hat Hr1 Hu1) as (Hpos & _).
    assert (Ek : i_addrs (v_in (assign i k r v) i) k = r) by (unfold assign; cbn; rewrite upd_eq; cbn; apply upd_eq).
    rewrite <- Ek at 1. apply (HQ (assign i k r v)); [exact Hv2|by split|rewrite Ek; lia].
  - apply wp_ret. apply (HQ v); [done| |done]. eapply extends_mono; [by apply file_extends_refl|lia|lia].
Qed.

Lemma file_at_hs e v i h : file_at e v i → file_at e (vset_hs h v) i.
Proof. intros []. by split. Qed.

Lemma room_less e (v v' : fsv P) m n k :
  room e v k → (size (v_lg v') ≤ size (v_lg v) + m)%nat → n + Z.of_nat m ≤ k → room e v' n.
Proof. intros [] ? ?. split; lia. Qed.

Lemma bufs_room e (v : fsv P) n : room e v n → 0 ≤ n → v_hs v = ∅ → Z.of_nat (size (v_lg v ∪ dom (v_hs v))) < NBUF.
Proof.
  intros [Hr _] Hn ->. rewrite dom_empty_L, union_empty_r_L. unfold NBUF, LOGSIZE, MAXOPBLOCKS in *. lia.
Qed.

(** An entry of the indirect block: the block it has, or a new one *)
Lemma wp_indirect fuel e v (s : fsst P D) i t (Q : Z → fsst P D → Prop) :
  frel e v s → file_at e v i → v_hs v = ∅ → NDIRECT < t → aslot t → indirect v i ≠ 0 →
  room e v 3 → (0 < nfreeb (us v) (v_sb v))%nat →
  (∀ v' s', frel e v' s' → extends e v v' i 3 1 → fa v' i t ≠ 0 → Q (fa v' i t) s') →
  wp (bp ← on_b (bread fuel dev (indirect v i));
      data ← data_of bp;
      let addr := ld32 data (4 * (t - NDIRECT - 1)) in
      addr ← (if addr =? 0 then
                addr ← balloc fuel dev;
                data ← data_of bp;
                set_data_of bp (st32 data (4 * (t - NDIRECT - 1)) addr);;
                on_l (log_write bp);;
                mret addr
              else mret addr);
      on_b (brelse bp);;
      mret addr) Q s.
Proof.
  intros Hv Hat Hh Ht Hts Hind Hr Hf HQ.
  pose proof (file_data _ _ _ NDIRECT Hat aslot_indirect Hind) as Hdb. change (fa v i NDIRECT) with (indirect v i) in Hdb.
  assert (Hhi : v_hs v !! indirect v i = None) by (rewrite Hh; apply lookup_empty).
  assert (Et : ld32 (v_c v (indirect v i)) (4 * (t - NDIRECT - 1)) = fa v i t).
  { unfold fa, amap. destruct (Z.leb_spec t NDIRECT); [lia|]. fold (indirect v i).
    by rewrite (proj2 (Z.eqb_neq _ _) Hind). }
  apply wp_bind. eapply fv_bread; [exact Hv|done|right; eapply (bufs_room _ _ 3); [done|lia|done]|]. intros b s1 Hv1.
  apply wp_bind. eapply fv_data_of; [exact Hv1|apply lookup_insert_eq|]. cbv zeta. cbn [vset_hs v_c]. rewrite Et.
  destruct (Z.eqb_spec (fa v i t) 0) as [Hz|Hz].
  2:{ apply wp_bind, wp_ret, wp_bind. eapply (fv_clean_rel e v); [exact Hv1|done|exact (clean_or_logged _ _ _ _ Hv Hhi)|].
      intros s2 Hv2. apply wp_ret. apply (HQ v); [done| |done]. eapply extends_mono; [by apply file_extends_refl|lia|lia]. }
  set (vh := vset_hs _ v) in Hv1. apply wp_bind, wp_bind.
  eapply (wp_balloc_file fuel e vh s1 i); [exact Hv1|by apply file_at_hs|split; cbn; destruct Hr; lia|exact Hf|..].
  { cbn [vh vset_hs v_hs]. rewrite Hh. intros b' j [[<- _]|[_ Hb']]%lookup_insert_Some; [exact Hdb|by rewrite lookup_empty in Hb']. }
  { cbn [vh vset_hs v_hs]. rewrite Hh, dom_insert_L, dom_empty_L, union_empty_r_L, size_singleton. lia. }
  intros r s2 Hr2 Hu2 Hv2. change (in_disk v r) in Hr2. change (us v r = false) in Hu2.
  apply wp_bind. eapply fv_data_of; [exact Hv2|apply lookup_insert_eq|].
  apply wp_bind. eapply fv_set_data; [exact Hv2|apply lookup_insert_eq|rewrite length_st32; exact (frel_length _ _ _ _ Hv2)|].
  intros s3 Hv3. destruct (fo_disk _ _ _ Hat) as [Hout _ _ _ _].
  destruct (alloc_lg v r) as [Hlg _].
  apply wp_bind. eapply fv_log_write; [exact Hv3|apply lookup_insert_eq|done|apply Hdb|..].
  { eapply (room_less e v _ 2 1 3); [exact Hr|exact Hlg|lia]. }
  intros s4 Hv4. apply wp_ret, wp_bind.
  eapply fv_brelse; [exact Hv4|apply lookup_insert_eq|left; cbn; set_solver|]. intros s5 Hv5. apply wp_ret.
  destruct (grows_entry e v i t r Hat Hr2 Hu2 (frel_lengths _ _ _ Hv) Ht Hts Hind Hz) as [Hg Hb].
  pose proof (entry_fa e v i t r Hat Hr2 Hu2 (frel_lengths _ _ _ Hv) Ht Hts Hind t Hts) as Ef. rewrite upd_eq in Ef.
  destruct (free_facts e v i r Hat Hr2 Hu2) as (Hpos & _).
  rewrite <- Ef. apply (HQ (entry i t r v)); [|by split|rewrite Ef; lia].
  unfold vh in Hv5. cbn [alloc vwrite vset_c vset_lg vset_hs v_c v_lg v_hs v_sb v_in v_ic] in Hv5.
  rewrite delete_insert_id in Hv5 by done. exact Hv5.
Qed.

Lemma wp_bmap fuel e v (s : fsst P D) i bn (Q : Z → fsst P D → Prop) :
  frel e v s → file_at e v i → v_hs v = ∅ → 0 ≤ bn < MAXFILE → room e v 5 → (2 ≤ nfreeb (us v) (v_sb v))%nat →
  (∀ v' s', frel e v' s' → extends e v v' i 5 2 → fa v' i (slot bn) ≠ 0 → Q (fa v' i (slot bn)) s') →
  wp (bmap fuel i bn) Q s.
Proof.
  intros Hv Hat Hh Hbn Hr Hf HQ. unfold bmap. apply wp_bind. eapply fv_geti; [exact Hv|].
  rewrite (fo_dev _ _ _ Hat). destruct (slot_range bn Hbn) as [Hsl Hnd].
  destruct (Z.ltb_spec bn NDIRECT) as [Hlt|Hge].
  - assert (Es : slot bn = bn) by (unfold slot; by destruct (Z.ltb_spec bn NDIRECT); [|lia]). rewrite Es in *.
    eapply wp_direct; [exact Hv|exact Hat|done|lia|destruct Hr; split; lia|lia|].
    intros v' s' Hv' He Hne. assert (Ef : fa v' i bn = i_addrs (v_in v' i) bn).
    { unfold fa, amap. by destruct (Z.leb_spec bn NDIRECT); [|lia]. }
    rewrite <- Ef. apply (HQ v'); [done| |by rewrite Ef]. eapply extends_mono; [exact He|lia|lia].
  - destruct (Z.ltb_spec (bn - NDIRECT) NINDIRECT) as [Hlt2|]; [|unfold MAXFILE in *; lia].
    assert (Es : slot bn = bn + 1) by (unfold slot; destruct (Z.ltb_spec bn NDIRECT); [lia|done]). rewrite Es in *.
    apply wp_bind. eapply wp_direct; [exact Hv|exact Hat|done|unfold NDIRECT; lia|destruct Hr; split; lia|lia|].
    intros v1 s1 Hv1 He1 Hne1. pose proof (proj1 He1) as Hg1. fold (indirect v1 i) in Hne1 |- *.
    replace (4 * (bn - NDIRECT)) with (4 * (bn + 1 - NDIRECT - 1)) by lia.
    eapply (wp_indirect fuel e v1); [exact Hv1|apply Hg1|rewrite (g_hs _ _ _ _ _ _ Hg1); exact Hh|lia|done|done|..].
    + eapply room_less; [exact Hr|apply Hg1|lia].
    + pose proof (g_free _ _ _ _ _ _ Hg1). rewrite (g_sb _ _ _ _ _ _ Hg1). lia.
    + intros v2 s2 Hv2 He2 Hne2. apply (HQ v2); [done| |done]. eapply (file_extends_trans e v v1 v2 i 2 1 3 1); [exact He1|exact He2].
Qed.

(** ** One block of writei() *)
Lemma write_block e v i bn data :
  file_at e v i → 0 ≤ bn < MAXFILE → fa v i (slot bn) ≠ 0 →
  grows e v (vwrite (fa v i (slot bn)) data v) i 1 0 ∧
  ∀ p, 0 ≤ p < MAXFILE * BSIZE →
    fbyte (vwrite (fa v i (slot bn)) data v) i p = if p / BSIZE =? bn then lmem data (p mod BSIZE) else fbyte v i p.
Proof.
  intros Hat Hbn Hne. destruct (slot_range bn Hbn) as [Hs Hnd]. set (a := fa v i (slot bn)) in *.
  destruct (file_data _ _ _ _ Hat Hs Hne) as [Hrg Hus Hib Hlog Hmap]. fold a in Hrg, Hus, Hib, Hlog, Hmap.
  assert (Hai : indirect v i ≠ 0 → a ≠ indirect v i).
  { intros Hi E. apply Hnd. eapply (fw_inj _ _ _ _ _ (fo_file _ _ _ Hat)); [done|apply aslot_indirect|done|exact E]. }
  assert (Hfa : ∀ t, fa (vwrite a data v) i t = fa v i t).
  { intros t. unfold fa, amap. cbn [vwrite vset_c vset_lg v_c v_in]. fold (indirect v i).
    destruct (t <=? NDIRECT); [done|]. destruct (Z.eqb_spec (indirect v i) 0); [done|].
    rewrite upd_ne; [done|]. apply not_eq_sym. auto. }
  assert (Hu : ∀ b, in_disk v b → us (vwrite a data v) b = us v b).
  { intros b Hb. unfold us, used. cbn [vwrite vset_c vset_lg v_c v_sb]. rewrite upd_ne; [done|].
    intros E. by apply (Hmap b Hb). }
  split.
  - split; try done.
    + exists (i_addrs (v_in v i)). change (v_in (vwrite a data v)) with (v_in v). symmetry. apply upd_idem. by destruct (v_in v i).
    + destruct Hat as [Hd Hf Hdev]. split; [| |done].
      * eapply disk_wf_more; [|exact Hd]. intros b Hb E. by rewrite Hu.
      * eapply file_wf_ext; [|intros t _; apply Hfa]. destruct Hf as [Hfd Hfi]. split; [|done].
        intros t Ht Hn. eapply data_blk_more; [|by apply Hfd]. intros b Hb E. by rewrite Hu.
    + cbn. pose proof (size_add (v_lg v) a). lia.
    + cbn. set_solver.
    + rewrite (nfreeb_same _ _ _ Hu). lia.
    + intros b Hb E. by rewrite Hu.
    + intros t Ht E. rewrite Hfa. done.
    + intros b Hb Hub Hno _. cbn. apply upd_ne. intros E. by apply (Hno (slot bn)).
  - intros p Hp. unfold fbyte. rewrite Hfa. cbn [vwrite vset_c vset_lg v_c].
    destruct (Z.eqb_spec (p / BSIZE) bn) as [->|Hpb].
    + fold a. rewrite (proj2 (Z.eqb_neq _ _) Hne), upd_eq. done.
    + destruct (Z.eqb_spec (fa v i (slot (p / BSIZE))) 0) as [|Hp0]; [done|]. rewrite upd_ne; [done|].
      intros E. apply Hpb. apply slot_inj. eapply (fw_inj _ _ _ _ _ (fo_file _ _ _ Hat)); [|exact Hs|exact Hp0|exact E].
      apply slot_range. unfold BSIZE in *. zdm.
Qed.

Lemma nth_app_splice data o (new : list Z) q :
  0 ≤ o → o + Z.of_nat (length new) ≤ Z.of_nat (length data) → 0 ≤ q →
  lmem (splice data o new) q =
  if (o <=? q) && (q <? o + Z.of_nat (length new)) then lmem new (q - o) else lmem data q.
Proof.
  intros Ho Hl Hq. unfold lmem, splice. rewrite !nth_lookup. 
  destruct (Z.leb_spec o q) as [Hoq|Hoq]; cbn [andb].
  2:{ rewrite lookup_app_l by (rewrite length_take; lia). by rewrite lookup_take_lt by lia. }
  rewrite lookup_app_r by (rewrite length_take; lia). rewrite length_take, Nat.min_l by lia.
  destruct (Z.ltb_spec q (o + Z.of_nat (length new))) as [Hqn|Hqn].
  - rewrite lookup_app_l by lia. f_equal. f_equal. lia.
  - rewrite lookup_app_r by lia. rewrite lookup_drop. f_equal. f_equal. lia.
Qed.

Lemma length_splice data o (new : list Z) :
  0 ≤ o → o + Z.of_nat (length new) ≤ Z.of_nat (length data) → length (splice data o new) = length data.
Proof. intros. unfold splice. rewrite !length_app, length_take, length_drop. lia. Qed.

(** The number of blocks that [n] bytes from [off] touch *)
Definition nblk (off n : Z) : Z := if n =? 0 then 0 else (off mod BSIZE + n + BSIZE - 1) / BSIZE.

Lemma nblk_step off n :
  0 ≤ off → 0 < n →
  let m := Z.min n (BSIZE - off mod BSIZE) in
  0 < m ∧ m ≤ n ∧ off mod BSIZE + m ≤ BSIZE ∧ 0 ≤ nblk (off + m) (n - m) ≤ nblk off n - 1.
Proof.
  intros Ho Hn m. subst m. unfold nblk, BSIZE. repeat (split; [zdm|]). repeat zcmp; zdm.
Qed.

Lemma same_block off m p :
  0 ≤ off → off mod BSIZE + m ≤ BSIZE → off ≤ p < off + m →
  p / BSIZE = off / BSIZE ∧ p mod BSIZE = off mod BSIZE + (p - off).
Proof. unfold BSIZE. intros. split; zdm. Qed.

(** The bytes of the file after [bytes] have been stored from [off] on *)
Definition stored (f : Z → Z) (off : Z) (bytes : list Z) (p : Z) : Z :=
  if (off <=? p) && (p <? off + Z.of_nat (length bytes)) then lmem bytes (p - off) else f p.

Lemma stored_app f off m bytes p :
  0 ≤ m ≤ Z.of_nat (length bytes) →
  stored (stored f off (take (Z.to_nat m) bytes)) (off + m) (drop (Z.to_nat m) bytes) p = stored f off bytes p.
Proof.
  intros Hm. unfold stored. rewrite length_take, length_drop, Nat.min_l by lia. unfold lmem. rewrite !nth_lookup.
  destruct (Z.leb_spec (off + m) p), (Z.ltb_spec p (off + m + Z.of_nat (length bytes - Z.to_nat m)%nat)),
    (Z.leb_spec off p), (Z.ltb_spec p (off + Z.of_nat (length bytes))), (Z.ltb_spec p (off + Z.of_nat (Z.to_nat m)));
    cbn [andb]; try lia; try done.
  - rewrite lookup_drop. f_equal. f_equal. lia.
  - rewrite lookup_take_lt by lia. done.
Qed.

(** What the loop of writei() leaves: the bytes stored, in blocks of the file. *)
Record wrote_at (e : fenv) (v v' : fsv P) (i off : Z) (bytes : list Z) (m n : nat) : Prop := {
  wa_grows : grows e v v' i m n;
  wa_bytes : ∀ p, 0 ≤ p < MAXFILE * BSIZE → fbyte v' i p = stored (fbyte v i) off bytes p;
  wa_mapped : ∀ p, off ≤ p < off + Z.of_nat (length bytes) → fa v' i (slot (p / BSIZE)) ≠ 0
}.

(** One turn of the loop: the block of [off] gets the first [m] bytes. *)
Lemma wrote_step e v v1 i off (bytes : list Z) m n b (data := v_c v1 (fa v1 i (slot (off / BSIZE)))) :
  0 ≤ off → off mod BSIZE + Z.of_nat (length bytes) ≤ BSIZE → off + Z.of_nat (length bytes) ≤ MAXFILE * BSIZE →
  0 < Z.of_nat (length bytes) →
  extends e v v1 i m n → fa v1 i (slot (off / BSIZE)) = b → b ≠ 0 → length data = Z.to_nat BSIZE →
  wrote_at e v (vwrite b (splice data (off mod BSIZE) bytes) v1) i off bytes (m + 1) (n + 0).
Proof.
  intros Ho Hm Hmax Hlen [Hg Hby] <- Hne Hd. set (bn := off / BSIZE) in *.
  assert (Hbn : 0 ≤ bn < MAXFILE) by (unfold bn, MAXFILE, NDIRECT, NINDIRECT, BSIZE in *; zdm).
  assert (0 ≤ off mod BSIZE < BSIZE) by (unfold BSIZE; zdm).
  destruct (write_block e v1 i bn (splice data (off mod BSIZE) bytes) (g_at _ _ _ _ _ _ Hg) Hbn Hne) as [Hg' Hb'].
  assert (Hl : Z.of_nat (length data) = BSIZE) by (rewrite Hd; unfold BSIZE; lia).
  split.
  - by eapply grows_trans.
  - intros p Hp. rewrite Hb' by done. destruct (Z.eqb_spec (p / BSIZE) bn) as [Ep|Ep].
    + assert (0 ≤ p mod BSIZE < BSIZE) by (unfold BSIZE; zdm).
      rewrite nth_app_splice by lia. unfold stored. rewrite <- Hby by done. unfold fbyte. rewrite Ep.
      rewrite (proj2 (Z.eqb_neq _ _) Hne).
      assert (Epo : p - off = p mod BSIZE - off mod BSIZE) by (unfold bn, BSIZE in *; zdm).
      destruct (Z.leb_spec (off mod BSIZE) (p mod BSIZE)), (Z.ltb_spec (p mod BSIZE) (off mod BSIZE + Z.of_nat (length bytes))),
        (Z.leb_spec off p), (Z.ltb_spec p (off + Z.of_nat (length bytes))); cbn [andb]; try lia; try done.
      by rewrite Epo.
    + rewrite Hby by done. unfold stored.
      destruct (Z.leb_spec off p), (Z.ltb_spec p (off + Z.of_nat (length bytes))); cbn [andb]; try done.
      destruct (same_block off (Z.of_nat (length bytes)) p Ho Hm ltac:(lia)) as [E _]. by destruct Ep.
  - intros p Hp. destruct (same_block off (Z.of_nat (length bytes)) p Ho Hm Hp) as [-> _]. fold bn.
    rewrite (g_old _ _ _ _ _ _ Hg'); [done| |done]. by apply slot_range.
Qed.

Lemma file_wrote_trans e v v1 v2 i off m (bytes : list Z) m1 n1 m2 n2 :
  0 ≤ m ≤ Z.of_nat (length bytes) → 0 ≤ off → off + Z.of_nat (length bytes) ≤ MAXFILE * BSIZE →
  wrote_at e v v1 i off (take (Z.to_nat m) bytes) m1 n1 →
  wrote_at e v1 v2 i (off + m) (drop (Z.to_nat m) bytes) m2 n2 →
  wrote_at e v v2 i off bytes (m1 + m2) (n1 + n2).
Proof.
  intros Hm Ho Hmax [Hg1 Hb1 Hm1] [Hg2 Hb2 Hm2]. split; [by eapply grows_trans|..].
  - intros p Hp. rewrite Hb2 by done. rewrite <- (stored_app _ off m) by done. unfold stored at 1 3. by rewrite Hb1.
  - intros p Hp. rewrite length_take, Nat.min_l in Hm1 by lia. rewrite length_drop in Hm2.
    destruct (Z.lt_ge_cases p (off + m)) as [Hlt|Hge]; [|apply Hm2; lia].
    assert (Hne : fa v1 i (slot (p / BSIZE)) ≠ 0) by (apply Hm1; lia).
    rewrite (g_old _ _ _ _ _ _ Hg2); [done| |done]. apply slot_range. unfold BSIZE in *. zdm.
Qed.

Lemma wrote_mono e v v' i off bytes m n m' n' :
  wrote_at e v v' i off bytes m n → (m ≤ m')%nat → (n ≤ n')%nat → wrote_at e v v' i off bytes m' n'.
Proof. intros [Hg ? ?] ? ?. split; [by eapply grows_mono|done..]. Qed.

Lemma wrote_nothing e v i off : file_at e v i → wrote_at e v v i off [] 0 0.
Proof.
  intros Hat. split; [by apply grows_refl| |cbn; intros; lia]. intros p Hp. unfold stored.
  change (Z.of_nat (length [])) with 0. rewrite Z.add_0_r.
  destruct (Z.leb_spec off p), (Z.ltb_spec p off); cbn [andb]; done || lia.
Qed.

Context `{!Caller P}.

(** The body of the loop after bmap(): the block is read, changed, logged and released. *)
Lemma wp_write_one {A} fuel e v (s : fsst P D) b off m (bytes : list Z) (k : M (fsst P D) A) (k' : Z → M (fsst P D) A) Q :
  frel e v s → v_hs v = ∅ → loggable e b → 1 ≤ e_out e → room e v 1 →
  0 ≤ off mod BSIZE → off mod BSIZE + m ≤ BSIZE → 0 ≤ m ≤ Z.of_nat (length bytes) →
  (∀ s', frel e (vwrite b (splice (v_c v b) (off mod BSIZE) (take (Z.to_nat m) bytes)) v) s' → wp k Q s') →
  wp (bp ← on_b (bread fuel dev b);
      data ← data_of bp;
      p ← mret (0, take (Z.to_nat m) bytes);
      set_data_of bp (splice data (off mod BSIZE) (snd p));;
      if fst p =? -1 then k' bp else on_l (log_write bp);; on_b (brelse bp);; k) Q s.
Proof.
  intros Hv Hh Hlog Hout Hr Ho Hm Hlen HQ.
  assert (Hhb : v_hs v !! b = None) by (rewrite Hh; apply lookup_empty).
  apply wp_bind. eapply fv_bread; [exact Hv|done|right; eapply (bufs_room _ _ 1); [done|lia|done]|]. intros j s1 Hv1.
  apply wp_bind. eapply fv_data_of; [exact Hv1|apply lookup_insert_eq|]. apply wp_bind, wp_ret. cbn [fst snd Z.eqb vset_hs v_c].
  apply wp_seq3. eapply (fv_write_rel e v); [exact Hv1|done| |done|done|done|exact HQ].
  rewrite length_splice; [exact (frel_length _ _ _ _ Hv)|done|].
  rewrite (frel_length _ _ _ b Hv), length_take, Nat.min_l by lia. unfold BSIZE in *. lia.
Qed.

Lemma wp_writei_loop fuel k e v (s : fsst P D) i off n tot (bytes : list Z) (Q : Z → fsst P D → Prop) :
  let rem := n - tot in
  frel e v s → file_at e v i → v_hs v = ∅ → 0 ≤ off → 0 ≤ tot ≤ n → n < 2 ^ 32 →
  Z.of_nat (length bytes) = rem → off + rem ≤ MAXFILE * BSIZE → room e v (6 * nblk off rem) →
  2 * nblk off rem ≤ Z.of_nat (nfreeb (us v) (v_sb v)) → nblk off rem ≤ Z.of_nat k →
  (∀ v' s', frel e v' s' → wrote_at e v v' i off bytes (6 * Z.to_nat (nblk off rem)) (2 * Z.to_nat (nblk off rem)) →
     Q (off + rem) s') →
  wp (writei_loop fuel k i (FromKernel bytes) off n tot) Q s.
Proof.
  intros rem. subst rem. revert v s off tot bytes.
  induction k as [|k IH]; intros v s off tot bytes Hv Hat Hh Ho Htot Hn Hlen Hmax Hroom Hfree Hk HQ; cbn [writei_loop].
  all: destruct (Z.ltb_spec tot n) as [Hlt|Hge].
  2,4: apply wp_ret; replace (Q off s) with (Q (off + (n - tot)) s) by (f_equal; lia);
    apply (HQ v); [done|]; assert (bytes = []) as -> by (destruct bytes; [done|cbn in Hlen; lia]);
    eapply wrote_mono; [by apply wrote_nothing|lia|lia].
  { destruct (nblk_step off (n - tot) Ho ltac:(lia)) as (_ & _ & _ & ?). lia. }
  destruct (nblk_step off (n - tot) Ho ltac:(lia)) as (Hm0 & Hmn & Hmb & Hnb).
  set (m := Z.min (n - tot) (BSIZE - off mod BSIZE)) in *.
  assert (Hbn : 0 ≤ off / BSIZE < MAXFILE) by (unfold MAXFILE, NDIRECT, NINDIRECT, BSIZE in *; zdm).
  assert (Hob : 0 ≤ off mod BSIZE) by (unfold BSIZE; zdm).
  apply wp_bind. eapply fv_geti; [exact Hv|]. rewrite (fo_dev _ _ _ Hat).
  apply wp_bind. eapply wp_bmap; [exact Hv|done|done|done|eapply (room_less _ _ _ 0 5); [exact Hroom|lia|lia]|lia|].
  intros v1 s1 Hv1 He1 Hne1. pose proof (proj1 He1) as Hg1. set (b := fa v1 i (slot (off / BSIZE))) in *.
  pose proof (file_data _ _ _ _ (g_at _ _ _ _ _ _ Hg1) (proj1 (slot_range _ Hbn)) Hne1) as [_ _ _ Hlog _].
  destruct (fo_disk _ _ _ Hat) as [Hout _ _ _ _].
  eapply wp_write_one; [exact Hv1|rewrite (g_hs _ _ _ _ _ _ Hg1); exact Hh|exact Hlog|exact Hout|
    eapply room_less; [exact Hroom|apply Hg1|lia]|exact Hob|exact Hmb|lia|].
  intros s2 Hv2. set (v2 := vwrite _ _ _) in Hv2.
  assert (Htl : Z.of_nat (length (take (Z.to_nat m) bytes)) = m) by (rewrite length_take; lia).
  assert (Hw : wrote_at e v v2 i off (take (Z.to_nat m) bytes) (5 + 1) (2 + 0)).
  { apply wrote_step; try done; rewrite ?Htl; try lia. exact (frel_length _ _ _ _ Hv1). }
  assert (Hmaxn : MAXFILE * BSIZE < 2 ^ 32) by done.
  rewrite (u32_small (off + m)), (u32_small (tot + m)) by lia. cbn [advance_src].
  pose proof (wa_grows _ _ _ _ _ _ _ _ Hw) as Hg2.
  replace (n - tot - m) with (n - (tot + m)) in Hnb by lia.
  eapply (IH v2); [exact Hv2|apply Hg2|rewrite (g_hs _ _ _ _ _ _ Hg2); exact Hh|lia|lia|lia|rewrite length_drop; lia|lia|..].
  - eapply room_less; [exact Hroom|apply Hg2|lia].
  - pose proof (g_free _ _ _ _ _ _ Hg2) as Hf2. change (v_sb v2) with (v_sb v1). rewrite (g_sb _ _ _ _ _ _ Hg1). lia.
  - lia.
  - intros v3 s3 Hv3 Hw3. replace (off + m + (n - (tot + m))) with (off + (n - tot)) by lia. apply (HQ v3); [done|].
    eapply wrote_mono; [eapply (file_wrote_trans e v v2 v3 i off m); [lia|lia|lia|exact Hw|exact Hw3]|lia|lia].
Qed.

Lemma nblk_fuel off n : 0 ≤ off → 0 ≤ n → 0 ≤ nblk off n ≤ Z.of_nat (Z.to_nat (n / BSIZE + 2)).
Proof. intros. unfold nblk, BSIZE. zcmp; zdm. Qed.

(** ** The end of writei(): the inode is written back *)
Definition saved (i sz : Z) (v : fsv P) : fsv P :=
  let v := vset_in (upd (v_in v) i (set_isize sz (v_in v i))) v in
  vwrite (iblk v i) (put_dinode (v_c v (iblk v i)) (inode_off (i_inum (v_in v i))) (v_in v i)) v.

Lemma saved_in i sz v : v_in (saved i sz v) = upd (v_in v) i (set_isize sz (v_in v i)).
Proof. done. Qed.

Lemma saved_iblk i sz v : iblk (vset_in (upd (v_in v) i (set_isize sz (v_in v i))) v) i = iblk v i.
Proof. unfold iblk. cbn [vset_in v_in v_sb]. by rewrite upd_eq. Qed.

Lemma saved_c i sz v b : b ≠ iblk v i → v_c (saved i sz v) b = v_c v b.
Proof. intros Hb. unfold saved. cbv zeta. rewrite saved_iblk. cbn [vwrite vset_c vset_lg vset_in v_c]. by apply upd_ne. Qed.

Lemma saved_fa e i sz v t : file_at e v i → aslot t → fa (saved i sz v) i t = fa v i t.
Proof.
  intros Hat Ht. unfold fa, amap. rewrite saved_in, upd_eq. cbn [set_isize i_addrs]. fold (indirect v i).
  destruct (t <=? NDIRECT); [done|]. destruct (Z.eqb_spec (indirect v i) 0) as [|Hne]; [done|].
  rewrite saved_c; [done|]. exact (db_ib _ _ _ _ _ (file_data _ _ _ _ Hat aslot_indirect Hne)).
Qed.

Lemma saved_us e i sz v b : file_at e v i → in_disk v b → us (saved i sz v) b = us v b.
Proof.
  intros Hat Hb. destruct (fo_disk _ _ _ Hat) as [_ _ Hmp _ _]. unfold us, used. change (v_sb (saved i sz v)) with (v_sb v).
  rewrite saved_c; [done|]. by apply Hmp.
Qed.

Lemma saved_at e i sz v : file_at e v i → file_at e (saved i sz v) i.
Proof.
  intros Hat. pose proof Hat as [Hd [Hfd Hfi] Hdev].
  assert (Hib : iblk (saved i sz v) i = iblk v i) by (unfold iblk; rewrite saved_in, upd_eq; done).
  assert (Hu : ∀ b, 0 ≤ b < s_size (v_sb v) → us v b = true → us (saved i sz v) b = true).
  { intros b Hb E. by rewrite (saved_us e). }
  split; rewrite ?Hib; change (v_sb (saved i sz v)) with (v_sb v).
  - by eapply disk_wf_more.
  - eapply file_wf_ext; [|intros t Ht; by apply (saved_fa e)]. split; [|done].
    intros t Ht Hne. eapply data_blk_more; [exact Hu|]. by apply Hfd.
  - rewrite saved_in, upd_eq. done.
Qed.

Lemma saved_byte e i sz v p : file_at e v i → 0 ≤ p < MAXFILE * BSIZE → fbyte (saved i sz v) i p = fbyte v i p.
Proof.
  intros Hat Hp. assert (Hbn : 0 ≤ p / BSIZE < MAXFILE) by (unfold BSIZE in *; zdm).
  destruct (slot_range _ Hbn) as [Hs _]. unfold fbyte. rewrite (saved_fa e) by done.
  destruct (Z.eqb_spec (fa v i (slot (p / BSIZE))) 0) as [|Hne]; [done|]. rewrite saved_c; [done|].
  exact (db_ib _ _ _ _ _ (file_data _ _ _ _ Hat Hs Hne)).
Qed.

(** What writei() leaves when it wrote all of [bytes]. *)
Record written (e : fenv) (v v' : fsv P) (i off : Z) (bytes : list Z) : Prop := {
  wt_at : file_at e v' i;
  wt_hs : v_hs v' = ∅;
  wt_size : i_size (v_in v' i) = Z.max (i_size (v_in v i)) (off + Z.of_nat (length bytes));
  wt_bytes : ∀ p, 0 ≤ p < MAXFILE * BSIZE → fbyte v' i p = stored (fbyte v i) off bytes p;
  wt_new : ∀ p, off ≤ p < off + Z.of_nat (length bytes) → fa v' i (slot (p / BSIZE)) ≠ 0;
  wt_old : ∀ t, aslot t → fa v i t ≠ 0 → fa v' i t = fa v i t;
  wt_others : ∀ b, in_disk v b → us v b = true → (∀ t, aslot t → fa v i t ≠ b) → not_map v b → b ≠ iblk v i →
    v_c v' b = v_c v b;
  wt_log : (size (v_lg v') ≤ size (v_lg v) + 6 * Z.to_nat (nblk off (Z.of_nat (length bytes))) + 1)%nat
}.

Lemma wp_save fuel e v (s : fsst P D) i sz (Q : unit → fsst P D → Prop) :
  frel e (vset_in (upd (v_in v) i (set_isize sz (v_in v i))) v) s → file_at e v i → v_hs v = ∅ → room e v 1 →
  (∀ s', frel e (saved i sz v) s' → Q () s') → wp (iupdate fuel i) Q s.
Proof.
  intros Hv Hat Hh Hr HQ. destruct (fo_disk _ _ _ Hat) as [Hout _ _ Hlib _].
  eapply wp_iupdate; [exact Hv|..]; cbn [vset_in v_in v_sb v_hs v_lg]; rewrite ?upd_eq;
    try (change (i_inum (set_isize sz (v_in v i))) with (i_inum (v_in v i)); fold (iblk v i)).
  - exact (fo_dev _ _ _ Hat).
  - rewrite Hh. apply lookup_empty.
  - exact Hlib.
  - exact Hr.
  - done.
  - by eapply (bufs_room e v 1).
  - intros s3 Hv3. apply HQ. unfold saved. cbv zeta. rewrite saved_iblk. cbn [vset_in v_in v_c]. rewrite upd_eq. exact Hv3.
Qed.

Lemma wp_save_size fuel e v (s : fsst P D) i sz (Q : unit → fsst P D → Prop) :
  frel e v s → file_at e v i → v_hs v = ∅ → room e v 1 →
  (∀ s', frel e (saved i (Z.max (i_size (v_in v i)) sz) v) s' → Q () s') →
  wp (x ← geti i; when_ (i_size x <? sz) (puti i (set_isize sz));; iupdate fuel i) Q s.
Proof.
  intros Hv Hat Hh Hr HQ. apply wp_bind. eapply fv_geti; [exact Hv|].
  apply wp_bind, wp_when; [intros Hlt%Z.ltb_lt|intros Hge%Z.ltb_ge].
  - eapply fv_puti; [exact Hv|]. intros s2 Hv2. rewrite Z.max_r in HQ by lia. by eapply wp_save.
  - rewrite Z.max_l in HQ by lia. eapply wp_save; [|done|done|done|exact HQ].
    rewrite upd_idem; [by destruct v|]. by destruct (v_in v i).
Qed.

Lemma wp_writei fuel e v (s : fsst P D) i off (bytes : list Z) (Q : Z → fsst P D → Prop) :
  let n := Z.of_nat (length bytes) in
  frel e v s → file_at e v i → v_hs v = ∅ → 0 ≤ off ≤ i_size (v_in v i) → off + n ≤ MAXFILE * BSIZE →
  room e v (6 * nblk off n + 1) → 2 * nblk off n ≤ Z.of_nat (nfreeb (us v) (v_sb v)) →
  (∀ v' s', frel e v' s' → written e v v' i off bytes → Q n s') →
  wp (writei fuel i (FromKernel bytes) off n) Q s.
Proof.
  intros n Hv Hat Hh Ho Hmax Hroom Hfree HQ. unfold writei.
  assert (Hmaxn : MAXFILE * BSIZE < 2 ^ 31) by done. assert (Hn0 : 0 ≤ n) by lia.
  apply wp_bind. eapply fv_geti; [exact Hv|]. rewrite (u32_small (off + n)) by lia.
  destruct (Z.ltb_spec (i_size (v_in v i)) off); [lia|]. destruct (Z.ltb_spec (off + n) off); [lia|]. cbn [orb].
  destruct (Z.ltb_spec (MAXFILE * BSIZE) (off + n)); [lia|].
  destruct (nblk_fuel off n ltac:(lia) Hn0) as [Hb0 Hbf].
  apply wp_bind. eapply wp_writei_loop; rewrite ?Z.sub_0_r; [exact Hv|exact Hat|done|lia|lia|lia|done|lia|..];
    [destruct Hroom; split; lia|done|done|].
  intros v1 s1 Hv1 [Hg1 Hby1 Hmp1]. pose proof Hg1 as [Hhs Hsb Hic [a Hin] Hat1 Hl1 Hsub1 Hf1 Hu1 Hold1 Hnew1 Hoth1].
  assert (Ex : v_in v1 i = with_addrs a (v_in v i)) by (by rewrite Hin, upd_eq).
  assert (Eib : iblk v1 i = iblk v i) by (unfold iblk; rewrite Ex, Hsb; done).
  assert (Es32 : s32 n = n) by (apply s32_small; lia).
  apply wp_bind, wp_when; [intros Hpos%Z.ltb_lt|intros Hneg%Z.ltb_ge].
  - eapply (wp_save_size fuel e v1); [exact Hv1|done|congruence|eapply room_less; [exact Hroom|exact Hl1|lia]|].
    intros s2 Hv2. rewrite Ex in Hv2. cbn [with_addrs i_size] in Hv2.
    apply wp_ret. rewrite Es32. eapply HQ; [exact Hv2|].
    set (sz := Z.max _ _) in *. split.
    + by apply saved_at.
    + change (v_hs (saved i sz v1)) with (v_hs v1). congruence.
    + rewrite saved_in, upd_eq. done.
    + intros p Hp. rewrite (saved_byte e) by done. by apply Hby1.
    + intros p Hp. rewrite (saved_fa e); [by apply Hmp1|done|]. apply slot_range. fold n in Hp. unfold BSIZE in *. zdm.
    + intros t Ht Hne. rewrite (saved_fa e) by done. by apply Hold1.
    + intros b Hb Hub Hno Hnm Hbi. rewrite saved_c by (by rewrite Eib). by apply Hoth1.
    + unfold saved. cbn [vwrite vset_c vset_lg vset_in v_lg]. match goal with |- context [{[?b]} ∪ _] => pose proof (size_add (v_lg v1) b) end. fold n. lia.
  - apply wp_ret. rewrite Es32. apply (HQ v1); [done|]. split; try done; [congruence| |auto|fold n; lia].
    rewrite Ex. cbn [with_addrs i_size]. fold n. lia.
Qed.

(** ** readi() *)
Lemma wp_bmap_mapped fuel e v (s : fsst P D) i bn (Q : Z → fsst P D → Prop) :
  frel e v s → i_dev (v_in v i) = dev → v_hs v = ∅ → room e v 0 → 0 ≤ bn < MAXFILE → fa v i (slot bn) ≠ 0 →
  (∀ s', frel e v s' → Q (fa v i (slot bn)) s') → wp (bmap fuel i bn) Q s.
Proof.
  intros Hv Hdev Hh Hr Hbn Hne HQ. unfold bmap. apply wp_bind. eapply fv_geti; [exact Hv|]. rewrite Hdev.
  unfold fa, amap, slot in *. destruct (Z.ltb_spec bn NDIRECT) as [Hlt|Hge].
  - destruct (Z.leb_spec bn NDIRECT); [|lia]. rewrite (proj2 (Z.eqb_neq _ _) Hne). apply wp_ret. auto.
  - destruct (Z.leb_spec (bn + 1) NDIRECT); [lia|].
    destruct (Z.ltb_spec (bn - NDIRECT) NINDIRECT); [|unfold MAXFILE in *; lia].
    destruct (Z.eqb_spec (i_addrs (v_in v i) NDIRECT) 0) as [|Hi]; [done|].
    assert (Hhi : v_hs v !! i_addrs (v_in v i) NDIRECT = None) by (rewrite Hh; apply lookup_empty).
    apply wp_bind, wp_ret, wp_bind. eapply fv_bread; [exact Hv|done|right; by eapply (bufs_room _ _ 0)|]. intros b s1 Hv1.
    apply wp_bind. eapply fv_data_of; [exact Hv1|apply lookup_insert_eq|]. cbn [vset_hs v_c].
    replace (4 * (bn - NDIRECT)) with (4 * (bn + 1 - NDIRECT - 1)) by lia. cbv zeta.
    rewrite (proj2 (Z.eqb_neq _ _) Hne). apply wp_bind, wp_ret, wp_bind.
    eapply (fv_clean_rel e v); [exact Hv1|done|exact (clean_or_logged _ _ _ _ Hv Hhi)|]. intros s2 Hv2. apply wp_ret. auto.
Qed.

(** The bytes [off .. off + n - 1] of the file *)
Definition fbytes (v : fsv P) (i off n : Z) : list Z := fbyte v i <$> seqZ off n.

Lemma fbytes_app v i off a b : 0 ≤ a → 0 ≤ b → fbytes v i off (a + b) = fbytes v i off a ++ fbytes v i (off + a) b.
Proof. intros. unfold fbytes. rewrite seqZ_app by lia. by rewrite fmap_app. Qed.

Lemma fbytes_slice v i off m :
  0 ≤ off → 0 ≤ m → off mod BSIZE + m ≤ BSIZE → fa v i (slot (off / BSIZE)) ≠ 0 →
  length (v_c v (fa v i (slot (off / BSIZE)))) = Z.to_nat BSIZE →
  fbytes v i off m = slice (v_c v (fa v i (slot (off / BSIZE)))) (off mod BSIZE) m.
Proof.
  intros Ho Hm Hmb Hne Hlen. assert (0 ≤ off mod BSIZE < BSIZE) by (unfold BSIZE; zdm).
  apply list_eq. intros j. unfold fbytes, slice. rewrite list_lookup_fmap.
  destruct (decide (Z.of_nat j < m)) as [Hj|Hj].
  - rewrite lookup_seqZ_lt, lookup_take_lt, lookup_drop by lia. cbn [fmap option_fmap option_map].
    unfold fbyte. destruct (same_block off m (off + Z.of_nat j) Ho Hmb ltac:(lia)) as [-> ->].
    rewrite (proj2 (Z.eqb_neq _ _) Hne). unfold lmem.
    destruct (lookup_lt_is_Some_2 (v_c v (fa v i (slot (off / BSIZE)))) (Z.to_nat (off mod BSIZE) + j)) as [y Hy]; [lia|].
    rewrite Hy. f_equal. apply nth_lookup_Some. rewrite <- Hy. f_equal. lia.
  - rewrite lookup_seqZ_ge by lia. rewrite lookup_take_ge by lia. done.
Qed.

Lemma wp_readi_loop fuel k e v (s : fsst P D) i off n tot acc (Q : Z * list Z → fsst P D → Prop) :
  let rem := n - tot in
  frel e v s → i_dev (v_in v i) = dev → v_hs v = ∅ → room e v 0 → 0 ≤ off → 0 ≤ tot ≤ n → n < 2 ^ 32 →
  off + rem ≤ MAXFILE * BSIZE → nblk off rem ≤ Z.of_nat k →
  (∀ p, off ≤ p < off + rem → fa v i (slot (p / BSIZE)) ≠ 0) →
  (∀ s', frel e v s' → Q (n, acc ++ fbytes v i off rem) s') →
  wp (readi_loop fuel k i ToKernel off n tot acc) Q s.
Proof.
  intros rem. subst rem. revert s off tot acc.
  induction k as [|k IH]; intros s off tot acc Hv Hdev Hh Hr Ho Htot Hn Hmax Hk Hmap HQ; cbn [readi_loop].
  all: destruct (Z.ltb_spec tot n) as [Hlt|Hge].
  2,4: apply wp_ret; assert (tot = n) as -> by lia; replace acc with (acc ++ fbytes v i off (n - n))
    by (rewrite Z.sub_diag; apply app_nil_r); by apply HQ.
  { destruct (nblk_step off (n - tot) Ho ltac:(lia)) as (_ & _ & _ & ?). lia. }
  destruct (nblk_step off (n - tot) Ho ltac:(lia)) as (Hm0 & Hmn & Hmb & Hnb).
  set (m := Z.min (n - tot) (BSIZE - off mod BSIZE)) in *.
  assert (Hbn : 0 ≤ off / BSIZE < MAXFILE) by (unfold MAXFILE, NDIRECT, NINDIRECT, BSIZE in *; zdm).
  assert (Hne : fa v i (slot (off / BSIZE)) ≠ 0) by (apply Hmap; lia).
  assert (Hhb : v_hs v !! fa v i (slot (off / BSIZE)) = None) by (rewrite Hh; apply lookup_empty).
  apply wp_bind. eapply fv_geti; [exact Hv|]. rewrite Hdev.
  apply wp_bind. eapply wp_bmap_mapped; [exact Hv|done|done|done|done|done|]. intros s1 Hv1.
  apply wp_bind. eapply fv_bread; [exact Hv1|done|right; by eapply (bufs_room _ _ 0)|]. intros b s2 Hv2.
  apply wp_bind. eapply fv_data_of; [exact Hv2|apply lookup_insert_eq|]. apply wp_bind, wp_ret. cbn [Z.eqb vset_hs v_c].
  apply wp_bind. eapply (fv_clean_rel e v); [exact Hv2|done|exact (clean_or_logged _ _ _ _ Hv Hhb)|]. intros s3 Hv3.
  assert (Hmaxn : MAXFILE * BSIZE < 2 ^ 32) by done.
  rewrite (u32_small (off + m)), (u32_small (tot + m)) by lia. cbn [advance_dst].
  replace (n - tot - m) with (n - (tot + m)) in Hnb by lia.
  rewrite <- (fbytes_slice v i off m) by (try done; try lia; exact (frel_length _ _ _ _ Hv)).
  eapply IH; [exact Hv3|done|done|done|lia|lia|lia|lia|lia|intros p Hp; apply Hmap; lia|].
  intros s4 Hv4. rewrite <- app_assoc, <- fbytes_app by lia. replace (m + (n - (tot + m))) with (n - tot) by lia. auto.
Qed.

(** The blocks of the file up to its size are all there. *)
Definition full_file (v : fsv P) (i : Z) : Prop :=
  0 ≤ i_size (v_in v i) ≤ MAXFILE * BSIZE ∧
  ∀ p, 0 ≤ p < i_size (v_in v i) → fa v i (slot (p / BSIZE)) ≠ 0.

(** How many bytes readi() reads *)
Definition readable (v : fsv P) (i off n : Z) : Z :=
  if (i_size (v_in v i) <? off) || (2 ^ 32 <=? off + n) then 0 else Z.min n (i_size (v_in v i) - off).

Lemma wp_readi fuel e v (s : fsst P D) i off n (Q : Z * list Z → fsst P D → Prop) :
  frel e v s → i_dev (v_in v i) = dev → v_hs v = ∅ → room e v 0 → full_file v i → 0 ≤ off < 2 ^ 32 → 0 ≤ n < 2 ^ 32 →
  (∀ s', frel e v s' → Q (readable v i off n, fbytes v i off (readable v i off n)) s') →
  wp (readi fuel i ToKernel off n) Q s.
Proof.
  intros Hv Hdev Hh Hr [Hsz Hfull] Ho Hn HQ. unfold readi. apply wp_bind. eapply fv_geti; [exact Hv|].
  unfold readable in HQ. destruct (Z.ltb_spec (i_size (v_in v i)) off) as [|Hoff]; cbn [orb] in *; [by apply wp_ret, HQ|].
  destruct (Z.leb_spec (2 ^ 32) (off + n)) as [Hov|Hov].
  { assert (u32 (off + n) = off + n - 2 ^ 32) as ->.
    { unfold u32. symmetry. apply Z.mod_unique_pos with 1; lia. }
    destruct (Z.ltb_spec (off + n - 2 ^ 32) off); [|lia]. by apply wp_ret, HQ. }
  rewrite (u32_small (off + n)) by lia. destruct (Z.ltb_spec (off + n) off); [lia|].
  assert (Hmaxn : MAXFILE * BSIZE < 2 ^ 32) by done. rewrite (u32_small (i_size (v_in v i) - off)) by lia.
  replace (if i_size (v_in v i) <? off + n then i_size (v_in v i) - off else n)
    with (Z.min n (i_size (v_in v i) - off)) by (zcmp; lia).
  set (r := Z.min n _) in *. cbv zeta. destruct (nblk_fuel off r ltac:(lia) ltac:(lia)) as [_ Hbf].
  assert (Hmaxs : MAXFILE * BSIZE < 2 ^ 31) by done. apply wp_bind.
  eapply wp_readi_loop; rewrite ?Z.sub_0_r; [exact Hv|done|done|done|lia|lia|lia|lia|exact Hbf|intros; apply Hfull; lia|].
  intros s' Hv'. apply wp_ret. cbn [fst snd app]. rewrite s32_small by lia. by apply HQ.
Qed.

Lemma written_full e v v' i off bytes :
  written e v v' i off bytes → full_file v i → 0 ≤ off ≤ i_size (v_in v i) →
  off + Z.of_nat (length bytes) ≤ MAXFILE * BSIZE → full_file v' i.
Proof.
  intros [_ _ Hsz _ Hnew Hold _ _] [Hs Hf] Ho Hmax. unfold full_file. rewrite Hsz. split; [lia|]. intros p Hp.
  destruct (decide (off ≤ p < off + Z.of_nat (length bytes))); [by apply Hnew|].
  assert (Hp' : 0 ≤ p < i_size (v_in v i)) by lia. rewrite Hold; [by apply Hf| |by apply Hf].
  apply slot_range. unfold BSIZE in *. zdm.
Qed.

(** The conditions under which writei() of [n] bytes at [off] can be done in the current
    transaction: room in the log, and enough free blocks. *)
Record can_write (e : fenv) (v : fsv P) (i off n : Z) : Prop := {
  cw_at : file_at e v i;
  cw_hs : v_hs v = ∅;
  cw_off : 0 ≤ off ≤ i_size (v_in v i);
  cw_max : off + n ≤ MAXFILE * BSIZE;
  cw_room : room e v (6 * nblk off n + 1);
  cw_free : 2 * nblk off n ≤ Z.of_nat (nfreeb (us v) (v_sb v))
}.

(** Writei() stores the bytes it is given. With room in the log and enough free blocks, it
    returns n; the file then has the given bytes from the offset on and its other
    bytes as before, its size is the larger of the old size and the end of the write, blocks
    being allocated as needed (through the indirect block too), and no block that belongs
    to another file is changed. *)
Theorem writei_correct fuel e v (s : fsst P D) i off (bytes : list Z) :
  frel e v s → can_write e v i off (Z.of_nat (length bytes)) →
  ∃ s' v', writei fuel i (FromKernel bytes) off (Z.of_nat (length bytes)) s = Ret (Z.of_nat (length bytes)) s' ∧
    frel e v' s' ∧ file_at e v' i ∧ v_hs v' = ∅ ∧
    i_size (v_in v' i) = Z.max (i_size (v_in v i)) (off + Z.of_nat (length bytes)) ∧
    (∀ p, 0 ≤ p < MAXFILE * BSIZE →
       fbyte v' i p = if (off <=? p) && (p <? off + Z.of_nat (length bytes)) then lmem bytes (p - off) else fbyte v i p) ∧
    (∀ b, in_disk v b → us v b = true → (∀ t, aslot t → fa v i t ≠ b) → not_map v b → b ≠ iblk v i →
       v_c v' b = v_c v b).
Proof.
  intros Hv [Hat Hh Ho Hmax Hr Hf].
  assert (Hwp : wp (writei fuel i (FromKernel bytes) off (Z.of_nat (length bytes)))
    (λ a s', a = Z.of_nat (length bytes) ∧ ∃ v', frel e v' s' ∧ written e v v' i off bytes) s)
    by (eapply wp_writei; eauto).
  apply wp_elim in Hwp as (a & s' & E & -> & v' & Hv' & []). exists s', v'. by split_and!.
Qed.

(** Readi() returns the bytes of the file. For a file without holes it reads as many of
    the n bytes at the offset as lie before the end of the file, none if the offset is past the
    end or the sum of offset and count overflows 32 bits, and changes neither the
    blocks of the disk nor the inodes. *)
Theorem readi_correct fuel e v (s : fsst P D) i off n :
  frel e v s → i_dev (v_in v i) = dev → v_hs v = ∅ → room e v 0 → full_file v i → 0 ≤ off < 2 ^ 32 → 0 ≤ n < 2 ^ 32 →
  ∃ s', readi fuel i ToKernel off n s = Ret (readable v i off n, fbytes v i off (readable v i off n)) s' ∧ frel e v s'.
Proof.
  intros Hv Hdev Hh Hr Hf Ho Hn.
  assert (Hwp : wp (readi fuel i ToKernel off n)
    (λ a s', a = (readable v i off n, fbytes v i off (readable v i off n)) ∧ frel e v s') s) by (eapply wp_readi; eauto).
  apply wp_elim in Hwp as (a & s' & E & -> & Hv'). eauto.
Qed.

Lemma stored_read f off (bytes : list Z) : 0 ≤ off → stored f off bytes <$> seqZ off (Z.of_nat (length bytes)) = bytes.
Proof.
  intros Ho. apply list_eq. intros j. rewrite list_lookup_fmap. destruct (decide (j < length bytes)%nat) as [Hj|Hj].
  - rewrite lookup_seqZ_lt by lia. cbn [fmap option_fmap option_map]. unfold stored.
    destruct (Z.leb_spec off (off + Z.of_nat j)), (Z.ltb_spec (off + Z.of_nat j) (off + Z.of_nat (length bytes)));
      cbn [andb]; try lia.
    destruct (lookup_lt_is_Some_2 bytes j Hj) as [y Hy]. rewrite Hy. f_equal. unfold lmem. apply nth_lookup_Some.
    rewrite <- Hy. f_equal. lia.
  - rewrite lookup_seqZ_ge by lia. rewrite lookup_ge_None_2 by lia. done.
Qed.

(** C3: what writei() wrote, readi() reads: writing at an offset within or at the end of a file without holes and
    reading as many bytes back at the same offset gives exactly the bytes written, also when the
    write has extended the file. *)
Theorem write_read_roundtrip fuel e v (s : fsst P D) i off (bytes : list Z) :
  let n := Z.of_nat (length bytes) in
  frel e v s → can_write e v i off n → full_file v i →
  ∃ s', (writei fuel i (FromKernel bytes) off n;; readi fuel i ToKernel off n) s = Ret (n, bytes) s'.
Proof.
  intros n Hv [Hat Hh Ho Hmax Hr Hf] Hfull. assert (Hmaxn : MAXFILE * BSIZE < 2 ^ 31) by done.
  destruct (nblk_fuel off n) as [Hnb _]; [lia|lia|].
  assert (Hwp : wp (writei fuel i (FromKernel bytes) off n;; readi fuel i ToKernel off n) (λ a _, a = (n, bytes)) s).
  { apply wp_bind. eapply wp_writei; [exact Hv|done|done|done|done|exact Hr|exact Hf|]. intros v1 s1 Hv1 Hw.
    pose proof (written_full _ _ _ _ _ _ Hw Hfull Ho Hmax) as Hfull1. destruct Hw as [Hat1 Hh1 Hsz1 Hby1 _ _ _ Hl1].
    eapply wp_readi; [exact Hv1|exact (fo_dev _ _ _ Hat1)|done| |done|lia|lia|].
    { eapply room_less; [exact Hr|rewrite <- Nat.add_assoc in Hl1; exact Hl1|fold n; lia]. }
    intros s2 _.
    assert (Er : readable v1 i off n = n).
    { unfold readable. rewrite Hsz1. fold n. destruct (Z.ltb_spec (Z.max (i_size (v_in v i)) (off + n)) off); [lia|].
      destruct (Z.leb_spec (2 ^ 32) (off + n)); [lia|]. cbn [orb]. lia. }
    rewrite Er. f_equal. unfold fbytes. rewrite <- (stored_read (fbyte v i) off bytes) by lia.
    apply list_fmap_ext. intros j p Hp. apply lookup_seqZ in Hp as [-> Hj]. apply Hby1. lia. }
  apply wp_elim in Hwp as (a & s' & E & ->). eauto.
Qed.
End file.
