(* ===== verification/UserMem.v ===== *)
(** What system calls rely on of the calling process (proc.c, vm.c): its memory, and what
    happens to it in sleep().

    [um_byte p a] is the byte that the running process has at its address [a], if it has
    one there.  [um_ok] is what the process layer keeps true of the process's memory.
    [um_back p q]: a thread that went to sleep in state [p] may be switched back to in
    state [q].  Pipes, the console and the system calls are proved against this
    interface; ProcUser.v shows that the process layer keeps it. *)
From S2P Require Import Prelude Machine CString Spinlock Sched Bio Log Fs.
From Stdlib Require Import FunctionalExtensionality.

(** The process has the bytes [bs] at its address [a]. *)
Definition has_bytes (f : Z → option Z) (a : Z) (bs : list Z) : Prop :=
  ∀ i x, bs !! i = Some x → f (a + Z.of_nat i) = Some x.

(** The process's memory after the bytes [bs] were stored from [a] on. *)
Definition with_bytes (f : Z → option Z) (a : Z) (bs : list Z) : Z → option Z :=
  λ x, if (a <=? x) && (x <? a + Z.of_nat (length bs)) then bs !! Z.to_nat (x - a) else f x.

(** [n] bytes from [a] on can be accessed. *)
Definition accessible (f : Z → option Z) (a n : Z) : Prop := ∀ i, 0 ≤ i < n → is_Some (f (a + i)).

Lemma with_bytes_nil f a : with_bytes f a [] = f.
Proof.
  apply functional_extensionality. intros x. unfold with_bytes. cbn [length].
  destruct (Z.leb_spec a x), (Z.ltb_spec x (a + Z.of_nat 0)); cbn [andb]; done || lia.
Qed.

Lemma with_bytes_app f a xs ys :
  with_bytes (with_bytes f a xs) (a + Z.of_nat (length xs)) ys = with_bytes f a (xs ++ ys).
Proof.
  apply functional_extensionality. intros x. unfold with_bytes. rewrite length_app.
  destruct (Z.leb_spec (a + Z.of_nat (length xs)) x), (Z.ltb_spec x (a + Z.of_nat (length xs) + Z.of_nat (length ys))),
    (Z.leb_spec a x), (Z.ltb_spec x (a + Z.of_nat (length xs))), (Z.ltb_spec x (a + Z.of_nat (length xs + length ys)));
    cbn [andb]; try done; try lia.
  - rewrite lookup_app_r by lia. f_equal. lia.
  - rewrite lookup_app_l by lia. done.
Qed.

(** Storing bytes keeps the addresses that can be accessed. *)
Lemma with_bytes_none f a xs x : accessible f a (Z.of_nat (length xs)) → with_bytes f a xs x = None ↔ f x = None.
Proof.
  intros Hacc. unfold with_bytes. destruct (Z.leb_spec a x), (Z.ltb_spec x (a + Z.of_nat (length xs))); cbn [andb]; try done.
  destruct (Hacc (x - a) ltac:(lia)) as [y Hy]. replace (a + (x - a)) with x in Hy by lia. rewrite Hy.
  destruct (lookup_lt_is_Some_2 xs (Z.to_nat (x - a)) ltac:(lia)) as [z Hz]. by rewrite Hz.
Qed.

Class UserMem (P : Type) `{SchedOk P} `{!Caller P} := {
  um_ok : P → Prop;
  um_byte : P → Z → option Z;
  um_back : P → P → Prop;
  um_hart p h : um_ok p → um_ok (lset sc_hart h p) ∧ um_byte (lset sc_hart h p) = um_byte p;
  um_wakeup p c p' : so_inv p → um_ok p → sc_wakeup c p = Ret () p' → um_ok p' ∧ um_byte p' = um_byte p;
  um_copyin p a data : so_inv p → um_ok p → 0 ≤ a < 2 ^ 64 → Z.of_nat (length data) ≤ PGSIZE →
    ∃ r data' p', copyin_bytes data a p = Ret (r, data') p' ∧
      so_inv p' ∧ lget sc_hart p' = settle (lget sc_hart p) ∧ so_id p' = so_id p ∧ so_kill p' = so_kill p ∧
      um_ok p' ∧ um_byte p' = um_byte p ∧ length data' = length data ∧
      ((r = 0 ∧ has_bytes (um_byte p) a data') ∨
       (r = -1 ∧ ∃ i, 0 ≤ i < Z.of_nat (length data) ∧ um_byte p (a + i) = None));
  um_copyout p a data : so_inv p → um_ok p → 0 ≤ a < 2 ^ 64 → Z.of_nat (length data) ≤ PGSIZE →
    ∃ r p', copyout_bytes a data p = Ret r p' ∧
      so_inv p' ∧ lget sc_hart p' = settle (lget sc_hart p) ∧ so_id p' = so_id p ∧ so_kill p' = so_kill p ∧
      um_ok p' ∧
      ((r = 0 ∧ accessible (um_byte p) a (Z.of_nat (length data)) ∧ um_byte p' = with_bytes (um_byte p) a data) ∨
       (r = -1 ∧ ∃ k, (k < length data)%nat ∧ um_byte p (a + Z.of_nat k) = None ∧
          um_byte p' = with_bytes (um_byte p) a (take k data)));
  um_sleep c p q lk : within p q → noff (lget sc_hart p) = 0 → um_ok q → lock_held (lget sc_hart q) lk →
    ∃ q1 k, sleep c (q, lk) = Wait (WSwtch c) (q1, mkSpinlock 0 (lname lk) None) k ∧
      um_ok q1 ∧ um_byte q1 = um_byte q ∧
      ∀ q2 lk2, um_back q1 q2 → um_ok q2 → lock_free lk2 →
        ∃ p3 q3, k (q2, lk2) = Ret () (q3, take_lock (lget sc_hart q3) lk2) ∧
          within p3 q3 ∧ noff (lget sc_hart p3) = 0 ∧ um_ok q3 ∧ um_byte q3 = um_byte q2
}.

(** ** Running in turns with other threads

    [serves R n Q tr o]: the computation [o] goes on for as long as the other threads, each
    time it gives up the processor, change the state within [R]; it never panics, it
    ends with [Q], and it does not give up before it was switched back to [n] times.
    [tr] are the states left and found so far. *)
Fixpoint serves {S A} (R : S → S → Prop) (n : nat) (Q : list (S * S) → A → S → Prop)
    (tr : list (S * S)) (o : outcome S A) : Prop :=
  match o with
  | Ret a s => Q tr a s
  | Panic _ _ => False
  | Wait _ s k => ∀ s', R s s' → serves R n Q (tr ++ [(s, s')]) (k s')
  | NoFuel => (n ≤ length tr)%nat
  end.

Lemma serves_bind {S A B} R n (Q : list (S * S) → B → S → Prop) tr (m : outcome S A) (f : A → M S B) :
  serves R n (λ tr a s, serves R n Q tr (f a s)) tr m → serves R n Q tr (obind m f).
Proof.
  revert tr. induction m as [a s|msg s|why s k IH|]; intros tr Hm; cbn [obind serves] in *; try done.
  intros s' Hs. by apply IH, Hm.
Qed.

Lemma serves_wp {S A} R n (Q : list (S * S) → A → S → Prop) tr (m : M S A) s :
  wp m (Q tr) s → serves R n Q tr (m s).
Proof. intros (a & s' & -> & HQ)%wp_elim. exact HQ. Qed.

Lemma serves_mono {S A} R n (Q Q' : list (S * S) → A → S → Prop) tr (o : outcome S A) :
  serves R n Q tr o → (∀ tr a s, Q tr a s → Q' tr a s) → serves R n Q' tr o.
Proof.
  intros Ho HQ. revert tr Ho. induction o as [a s|msg s|why s k IH|]; intros tr Ho; cbn [serves] in *; auto.
Qed.

(** One step of a computation that does not wait, then the rest of it. *)
Lemma serves_step {S A B} R n (Q : list (S * S) → B → S → Prop) tr (m : M S A) (f : A → M S B) s :
  wp m (λ a s', serves R n Q tr (f a s')) s → serves R n Q tr (mbind f m s).
Proof. intros Hm. apply serves_bind. by apply (serves_wp R n (λ tr a s, serves R n Q tr (f a s))). Qed.

(** ** Operations with a lock held

    [kept q q']: the same thread with the same memory, on a hart in the same state. *)
Section kept.
Context {P : Type} `{SchedOk P} `{!Caller P} `{!UserMem P}.

Record kept (q q' : P) : Prop := {
  kp_inv : so_inv q';
  kp_hart : lget sc_hart q' = lget sc_hart q;
  kp_id : so_id q' = so_id q;
  kp_kill : so_kill q' = so_kill q;
  kp_mem : um_ok q → um_ok q' ∧ um_byte q' = um_byte q
}.

Lemma kept_refl q : so_inv q → kept q q.
Proof. by split. Qed.

Lemma kept_trans q1 q2 q3 : kept q1 q2 → kept q2 q3 → kept q1 q3.
Proof.
  intros [H1 H2 H3 H4 H5] [G1 G2 G3 G4 G5]. split; [done|congruence..|]. intros Ho. destruct (H5 Ho) as [Ho2 Hb2].
  destruct (G5 Ho2) as [Ho3 Hb3]. split; [done|congruence].
Qed.

(** Inside a push_off() the hart is settled. *)
Definition settled (q : P) : Prop := settle (lget sc_hart q) = lget sc_hart q.

Lemma kept_settled q q' : kept q q' → settled q → settled q'.
Proof. intros [_ Hh _ _ _]. unfold settled. by rewrite Hh. Qed.

Lemma kept_wakeup c q (Q : unit → P → Prop) :
  so_inv q → um_ok q → settled q → (∀ q', kept q q' → Q () q') → wp (sc_wakeup c) Q q.
Proof.
  intros Hq Ho Hs HQ. destruct (so_wakeup q c Hq) as (q' & E & Hq' & Hh & Hid & Hk). eapply wp_intro; [exact E|].
  apply HQ. split; [done|by rewrite Hh|done|done|]. intros _. by apply (um_wakeup q c q').
Qed.

Lemma acq_eq (p : P) lk :
  lock_free lk → acq (p, lk) = Ret () (lset sc_hart (push_off (lget sc_hart p)) p, take_lock (push_off (lget sc_hart p)) lk).
Proof. intros Hl. unfold acq, zoom. cbn [lock_at]. by rewrite acquire_free. Qed.

Lemma rel_eq (q : P) h lk :
  hart_ok h → lget sc_hart q = push_off h → lock_held (push_off h) lk →
  rel (q, lk) = Ret () (lset sc_hart (settle h) q, mkSpinlock 0 (lname lk) None).
Proof. intros Hok Hh Hl. unfold rel, zoom. cbn [lock_at]. rewrite Hh. by rewrite release_held. Qed.

(** Entering and leaving a push_off() *)
Definition enter (q : P) : P := lset sc_hart (push_off (lget sc_hart q)) q.

Lemma enter_inv q : so_inv q → um_ok q →
  so_inv (enter q) ∧ settled (enter q) ∧ um_ok (enter q) ∧ um_byte (enter q) = um_byte q ∧
  lget sc_hart (enter q) = push_off (lget sc_hart q).
Proof.
  intros Hq Ho. pose proof (so_hart_ok q Hq) as Hh. unfold settled, enter. rewrite so_get_set.
  destruct (um_hart q (push_off (lget sc_hart q)) Ho). split_and!; try done; [|by apply settle_push_off].
  apply so_set_inv; [done|by apply push_off_ok|by rewrite tp_push_off].
Qed.

Lemma kept_leave q q' : so_inv q → um_ok q → settled q → kept (enter q) q' → kept q (lset sc_hart (lget sc_hart q) q').
Proof.
  intros Hq Ho Hs [K1 K2 K3 K4 K5]. destruct (enter_inv q Hq Ho) as (_ & _ & Ho' & Hb' & Hh'). destruct (K5 Ho') as [Ho2 Hb2].
  destruct (um_hart q' (lget sc_hart q) Ho2) as [Ho3 Hb3].
  split; [|by rewrite so_get_set|rewrite so_set_id, K3; apply so_set_id|rewrite so_set_kill, K4; apply so_set_kill|].
  - apply so_set_inv; [done|by apply so_hart_ok|]. by rewrite K2, Hh', tp_push_off.
  - intros _. split; [done|congruence].
Qed.

(** copyin() of a byte *)
Lemma kept_copyin a q (Q : Z * list Z → P → Prop) :
  so_inv q → um_ok q → settled q → 0 ≤ a < 2 ^ 64 →
  (∀ b q', kept q q' → um_byte q a = Some b → Q (0, [b]) q') →
  (∀ d q', kept q q' → um_byte q a = None → Q (-1, d) q') → wp (copyin_bytes [0] a) Q q.
Proof.
  intros Hq Ho Hs Ha HQ0 HQ1.
  destruct (um_copyin q a [0] Hq Ho Ha ltac:(done)) as (r & d & q' & E & Hq' & Hh & Hid & Hk & Ho' & Hb & Hlen & Hr).
  eapply wp_intro; [exact E|]. assert (K : kept q q') by (split; [done|by rewrite Hh|done..]).
  destruct Hr as [[-> Hr]|[-> (i & Hi & Hr)]].
  - destruct d as [|b [|]]; try done. apply HQ0; [done|]. rewrite <- (Z.add_0_r a). by apply (Hr 0%nat).
  - apply HQ1; [done|]. cbn in Hi. by replace i with 0 in Hr by lia; rewrite Z.add_0_r in Hr.
Qed.
End kept.
