(* ===== verification/Shared.v ===== *)
(** Objects that threads share under a spinlock: pipes (pipe.c), the console's input
    (console.c).

    A system call on such an object acquires its lock, may sleep() on it several times, and
    releases it.  Between two switches it runs alone, so what it does is a sequence of
    effects on the object with gaps in between, in which other threads change the object.
    The lemmas here are the steps of such a system call: each keeps [turn], the state
    of the thread with the lock held together with the effects so far. *)
From S2P Require Import Prelude Machine CString Spinlock Sched Bio Log Fs UserMem.

(** The lock of an object *)
Class Locked (X : Type) := { lk_of : X → spinlock; with_lk : spinlock → X → X }.

Definition on_lock {P X A} `{Locked X} (m : M (P * spinlock) A) : M (P * X) A :=
  zoom (λ '(p, x), (p, lk_of x)) (λ '(p, lk) '(_, x), (p, with_lk lk x)) m.

(** Effects on an object, as a list of bytes: [eff x bs x'].  Taking and giving back the
    lock is no effect. *)
Record plain {X} `{Locked X} (inv : X → Prop) (eff : X → list Z → X → Prop) : Prop := {
  pl_inv : ∀ x lk, inv x → inv (with_lk lk x);
  pl_eff : ∀ x lk, eff x [] (with_lk lk x);
  pl_lock : ∀ x lk, lk_of (with_lk lk x) = lk
}.

(** What a thread does to the object, [bs] in total: effects, and gaps in which it has
    given up the processor.  [tr] are the states it left and found there. *)
Inductive did {P X} (eff : X → list Z → X → Prop) (x0 : X) : list ((P * X) * (P * X)) → X → list Z → Prop :=
| did_start : did eff x0 [] x0 []
| did_step tr x x' bs new : did eff x0 tr x bs → eff x new x' → did eff x0 tr x' (bs ++ new)
| did_gap tr q x q' x' bs : did eff x0 tr x bs → did eff x0 (tr ++ [((q, x), (q', x'))]) x' bs.

Section shared.
Context {P : Type} `{SchedOk P} `{!Caller P} `{!UserMem P}.
Context {X : Type} `{!Locked X} (inv : X → Prop).

(** What the other threads may do while this one sleeps: the process is switched back to
    with its memory as it was, and the object is in order and its lock free. *)
Record others (s s' : P * X) : Prop := {
  ot_back : um_back (fst s) (fst s');
  ot_mem : um_ok (fst s') ∧ um_byte (fst s') = um_byte (fst s);
  ot_inv : inv (snd s');
  ot_lock : lock_free (lk_of (snd s'))
}.

Section eff.
Context (eff : X → list Z → X → Prop) (Hpl : plain inv eff) (x0 : X).

(** The thread holds the lock, has the memory [f], and did [bs]. *)
Record turn (f : Z → option Z) (tr : list ((P * X) * (P * X))) (bs : list Z) (q : P) (x : X) : Prop := {
  tu_in : ∃ p, within p q ∧ noff (lget sc_hart p) = 0;
  tu_mem : um_ok q ∧ um_byte q = f;
  tu_lock : lock_held (lget sc_hart q) (lk_of x);
  tu_inv : inv x;
  tu_did : did eff x0 tr x bs
}.

(** The thread has released the lock. *)
Record done_with (f : Z → option Z) (tr : list ((P * X) * (P * X))) (bs : list Z) (p : P) (x : X) : Prop := {
  dw_thread : so_inv p ∧ noff (lget sc_hart p) = 0;
  dw_mem : um_ok p ∧ um_byte p = f;
  dw_lock : lock_free (lk_of x);
  dw_inv : inv x;
  dw_did : did eff x0 tr x bs
}.

Lemma did_lock (tr : list ((P * X) * (P * X))) bs x lk : did eff x0 tr x bs → did eff x0 tr (with_lk lk x) bs.
Proof. intros Hd. rewrite <- (app_nil_r bs). eapply did_step; [exact Hd|apply Hpl]. Qed.

(** acquire() *)
Lemma wp_take f tr bs p x (Q : unit → P * X → Prop) :
  done_with f tr bs p x →
  (∀ q lk, turn f tr bs q (with_lk lk x) → so_kill q = so_kill p → Q () (q, with_lk lk x)) → wp (on_lock acq) Q (p, x).
Proof.
  intros [[Hp Hn] [Ho Hb] Hl Hx Hd] HQ. apply wp_zoom. unfold acq. apply wp_zoom. cbn [lock_at]. unfold wp.
  rewrite acquire_free by done. cbn [lock_to].
  destruct (um_hart p (push_off (lget sc_hart p)) Ho) as [Ho' Hb']. apply HQ; [|by rewrite so_set_kill].
  split; [exists p; split; [|done]| |split| |].
  - split; [|by rewrite so_set_id|by rewrite so_set_kill|by rewrite so_get_set|done].
    apply so_set_inv; [done| |]; [|by rewrite tp_push_off].
    apply push_off_ok. by apply so_hart_ok.
  - split; [done|congruence].
  - by rewrite (pl_lock _ _ Hpl).
  - rewrite (pl_lock _ _ Hpl). cbn. by rewrite so_get_set.
  - by apply Hpl.
  - by apply did_lock.
Qed.

(** release() *)
Lemma wp_give f tr bs q x (Q : unit → P * X → Prop) :
  turn f tr bs q x →
  (∀ p lk, done_with f tr bs p (with_lk lk x) → so_kill p = so_kill q → Q () (p, with_lk lk x)) → wp (on_lock rel) Q (q, x).
Proof.
  intros [(p & Hin & Hn) [Ho Hb] Hl Hx Hd] HQ. pose proof Hin as [Hq Hid Hk Hh Hp].
  apply wp_zoom. unfold rel. apply wp_zoom. cbn [lock_at]. unfold wp. rewrite Hh.
  rewrite release_held; [|by apply so_hart_ok|by rewrite <- Hh].
  cbn [lock_to]. destruct (um_hart q (settle (lget sc_hart p)) Ho) as [Ho' Hb'].
  apply HQ; [|by rewrite so_set_kill]. split; [split|split| | |].
  - apply so_set_inv; [done|apply settle_ok; by apply so_hart_ok|]. by rewrite Hh, tp_push_off, tp_settle.
  - rewrite so_get_set. by rewrite noff_settle.
  - done.
  - congruence.
  - by rewrite (pl_lock _ _ Hpl).
  - by apply Hpl.
  - by apply did_lock.
Qed.

(** The thread with the lock held, after an operation that does not touch the object *)
Lemma turn_hart f tr bs q x q' :
  turn f tr bs q x → so_inv q' → lget sc_hart q' = settle (lget sc_hart q) → so_id q' = so_id q →
  so_kill q' = so_kill q → um_ok q' → turn (um_byte q') tr bs q' x.
Proof.
  intros [(p & [Hq Hid Hk Hh Hp] & Hn) _ Hl Hx Hd] Hq' Hh' Hid' Hk' Ho.
  assert (Heq : lget sc_hart q' = lget sc_hart q) by (rewrite Hh', Hh; apply settle_push_off; by apply so_hart_ok).
  split; [exists p; split; [split|]|..]; try done; congruence.
Qed.

(** wakeup(), and a read of p->killed *)
Lemma wp_turn_wakeup f tr bs c q x (Q : unit → P * X → Prop) :
  turn f tr bs q x → (∀ q', turn f tr bs q' x → so_kill q' = so_kill q → Q () (q', x)) →
  wp (on_sched (sc_wakeup c)) Q (q, x).
Proof.
  intros Ht HQ. destruct (tu_in _ _ _ _ _ Ht) as (p & Hin & _). destruct (tu_mem _ _ _ _ _ Ht) as [Ho Hf].
  apply wp_on_sched. destruct (so_wakeup q c (wi_inv _ _ Hin)) as (q' & E & Hq' & Hh' & Hid' & Hk').
  destruct (um_wakeup q c q' (wi_inv _ _ Hin) Ho E) as [Ho' Hb'].
  eapply wp_intro; [exact E|]. apply HQ; [|done]. rewrite <- Hf, <- Hb'. by eapply turn_hart.
Qed.

Lemma wp_turn_killed f tr bs q x (Q : bool → P * X → Prop) :
  turn f tr bs q x → Q (so_kill q) (q, x) → wp (on_sched sc_killed) Q (q, x).
Proof.
  intros [(p & [Hq Hid Hk Hh Hp] & Hn) _ _ _ _] HQ. apply wp_on_sched.
  eapply wp_intro; [by apply so_killed|].
  rewrite Hh, settle_push_off, <- Hh, so_set_get by (by apply so_hart_ok). exact HQ.
Qed.

(** sleep() on a channel, while the other threads change the state within [R] *)
Lemma serves_sleep_in {A} (R : P * X → P * X → Prop) f tr bs c n (Q : list ((P * X) * (P * X)) → A → P * X → Prop) q x (k : M (P * X) A) :
  (∀ s s', R s s' → others s s') → turn f tr bs q x →
  (∀ q1 lk1 q2 x2 q3 lk3, R (q1, with_lk lk1 x) (q2, x2) → let tr' := tr ++ [((q1, with_lk lk1 x), (q2, x2))] in
     turn f tr' bs q3 (with_lk lk3 x2) → serves R n Q tr' (k (q3, with_lk lk3 x2))) →
  serves R n Q tr ((on_lock (sleep c);; k) (q, x)).
Proof.
  intros HR [(p & Hin & Hn) [Ho Hb] Hl Hx Hd] HQ.
  destruct (um_sleep c p q (lk_of x) Hin Hn Ho Hl) as (q1 & k1 & E & Ho1 & Hb1 & Hk).
  unfold mbind, M_bind, on_lock, zoom. rewrite E. cbn [zoomo obind serves].
  intros [q2 x2] Hr. pose proof (HR _ _ Hr) as [Hback [Ho2 Hb2] Hx2 Hl2]. cbn [fst snd] in *.
  destruct (Hk q2 (lk_of x2) Hback Ho2 Hl2) as (p3 & q3 & E3 & Hin3 & Hn3 & Ho3 & Hb3). rewrite E3.
  cbn [zoomo obind]. eapply HQ; [exact Hr|].
  split; [by exists p3|split; [done|congruence]|rewrite (pl_lock _ _ Hpl); by split|by apply Hpl|].
  rewrite <- (app_nil_r bs). eapply did_step; [|apply Hpl]. apply did_gap. by apply did_lock.
Qed.

Lemma serves_sleep {A} f tr bs c n (Q : list ((P * X) * (P * X)) → A → P * X → Prop) q x (k : M (P * X) A) :
  turn f tr bs q x →
  (∀ tr' q' x', length tr' = S (length tr) → turn f tr' bs q' x' → serves others n Q tr' (k (q', x'))) →
  serves others n Q tr ((on_lock (sleep c);; k) (q, x)).
Proof.
  intros Ht HQ. eapply serves_sleep_in; [done|exact Ht|]. intros q1 lk1 q2 x2 q3 lk3 _ tr' Ht'. apply HQ; [|exact Ht'].
  unfold tr'. rewrite length_app. cbn. lia.
Qed.

(** copyin() and copyout() of a byte *)
Lemma wp_turn_copyin f tr bs q x a (Q : Z * list Z → P * X → Prop) :
  turn f tr bs q x → 0 ≤ a < 2 ^ 64 →
  (∀ b q', turn f tr bs q' x → so_kill q' = so_kill q → f a = Some b → Q (0, [b]) (q', x)) →
  (∀ d q', turn f tr bs q' x → so_kill q' = so_kill q → f a = None → Q (-1, d) (q', x)) →
  wp (on_sched (copyin_bytes [0] a)) Q (q, x).
Proof.
  intros Ht Ha HQ0 HQ1. apply wp_on_sched. destruct (tu_in _ _ _ _ _ Ht) as (p & Hin & _).
  destruct (tu_mem _ _ _ _ _ Ht) as [Ho Hf].
  destruct (um_copyin q a [0] (wi_inv _ _ Hin) Ho Ha ltac:(done)) as (r & d & q' & E & Hq' & Hh & Hid & Hk & Ho' & Hb & Hlen & Hr).
  eapply wp_intro; [exact E|]. pose proof (turn_hart _ _ _ _ _ _ Ht Hq' Hh Hid Hk Ho') as Ht'.
  rewrite Hb, Hf in Ht'. rewrite Hf in Hr. destruct Hr as [[-> Hr]|[-> (i & Hi & Hr)]].
  - destruct d as [|b [|]]; try done. apply HQ0; [done|done|]. rewrite <- (Z.add_0_r a). by apply (Hr 0%nat).
  - apply HQ1; [done|done|]. cbn in Hi. by replace i with 0 in Hr by lia; rewrite Z.add_0_r in Hr.
Qed.

Lemma wp_turn_copyout f tr bs q x a b (Q : Z → P * X → Prop) :
  turn f tr bs q x → 0 ≤ a < 2 ^ 64 →
  (∀ q', turn (with_bytes f a [b]) tr bs q' x → so_kill q' = so_kill q → is_Some (f a) → Q 0 (q', x)) →
  (∀ q', turn f tr bs q' x → so_kill q' = so_kill q → f a = None → Q (-1) (q', x)) →
  wp (on_sched (copyout_bytes a [b])) Q (q, x).
Proof.
  intros Ht Ha HQ0 HQ1. apply wp_on_sched. destruct (tu_in _ _ _ _ _ Ht) as (p & Hin & _).
  destruct (tu_mem _ _ _ _ _ Ht) as [Ho Hf].
  destruct (um_copyout q a [b] (wi_inv _ _ Hin) Ho Ha ltac:(done)) as (r & q' & E & Hq' & Hh & Hid & Hk & Ho' & Hr).
  eapply wp_intro; [exact E|]. pose proof (turn_hart _ _ _ _ _ _ Ht Hq' Hh Hid Hk Ho') as Ht'.
  rewrite Hf in Hr. destruct Hr as [(-> & Hacc & Hb)|(-> & k & Hi & Hr & Hb)]; rewrite Hb in Ht'.
  - apply HQ0; [done|done|]. rewrite <- (Z.add_0_r a). apply Hacc. cbn. lia.
  - cbn [length] in Hi. replace k with 0%nat in * by lia. cbn [take] in Ht'. rewrite with_bytes_nil in Ht'.
    apply HQ1; [done|done|]. by rewrite Z.add_0_r in Hr.
Qed.

(** An effect of this thread *)
Lemma turn_step f tr bs new q x x' :
  turn f tr bs q x → eff x new x' → inv x' → lk_of x' = lk_of x → turn f tr (bs ++ new) q x'.
Proof.
  intros [Hin Hm Hl Hx Hd] He Hx' Hl'. split; [done|done|by rewrite Hl'|done|]. by eapply did_step.
Qed.

Lemma done_with_start p :
  so_inv p → noff (lget sc_hart p) = 0 → um_ok p → inv x0 → lock_free (lk_of x0) → done_with (um_byte p) [] [] p x0.
Proof. intros. split; try done. constructor. Qed.
End eff.
End shared.

Lemma has_bytes_snoc f a bs x :
  has_bytes f a bs → f (a + Z.of_nat (length bs)) = Some x → has_bytes f a (bs ++ [x]).
Proof.
  intros Hb Hx i y Hi. apply lookup_app_Some in Hi as [Hi|[Hge Hi]]; [by apply Hb|].
  apply list_lookup_singleton_Some in Hi as [Hi <-]. by replace i with (length bs) by lia.
Qed.

Lemma accessible_snoc f a (bs : list Z) : accessible f a (Z.of_nat (length bs)) → is_Some (f (a + Z.of_nat (length bs))) →
  accessible f a (Z.of_nat (length bs) + 1).
Proof. intros Hacc Hs i Hi. destruct (Z.eqb_spec i (Z.of_nat (length bs))) as [->|]; [done|apply Hacc; lia]. Qed.
