(* ===== verification/Ring.v ===== *)
(** Ring buffers with free-running counters, as in pipe.c and console.c: a buffer of [N]
    bytes, [N] a divisor of 2 ^ 32, with 32-bit counters that wrap around; the byte with
    number [i] is at [i mod N]. *)
From S2P Require Import Prelude Machine.

Definition rcount (a b : Z) : Z := u32 (b - a).

Section ring.
Context (N : Z).

(** The bytes with numbers [a] up to [b], without [b] *)
Definition ring (buf : Z → Z) (a b : Z) : list Z := map (λ j, buf ((a + j) mod N)) (seqZ 0 (rcount a b)).

Lemma rcount_range a b : 0 ≤ rcount a b < 2 ^ 32.
Proof. apply u32_range. Qed.

Lemma ring_length buf a b : length (ring buf a b) = Z.to_nat (rcount a b).
Proof. unfold ring. by rewrite length_map, length_seqZ. Qed.

Hypothesis Hpos : 0 < N.
Hypothesis Hdiv : (N | 2 ^ 32).

Lemma u32_mod x : u32 x mod N = x mod N.
Proof. unfold u32. by apply Z.mod_mod_divide. Qed.

Lemma u32_mod_l x y : (u32 x + y) mod N = (x + y) mod N.
Proof. rewrite <- Zplus_mod_idemp_l, u32_mod, Zplus_mod_idemp_l. done. Qed.

Lemma rcount_step a b : rcount a b < 2 ^ 32 - 1 → rcount a (u32 (b + 1)) = rcount a b + 1.
Proof. unfold rcount, u32. intros. zdm. Qed.

Lemma rcount_next a b : 0 < rcount a b → rcount (u32 (a + 1)) b = rcount a b - 1.
Proof. unfold rcount, u32. intros. zdm. Qed.

(** The slot of [b] relative to [a] *)
Lemma slot_end a b : b mod N = (a + rcount a b) mod N.
Proof.
  unfold rcount. rewrite (Z.add_comm a), u32_mod_l. f_equal. lia.
Qed.

Lemma slot_ne a i j : 0 ≤ i < j → j - i < N → (a + i) mod N ≠ (a + j) mod N.
Proof.
  intros Hi Hj E. assert (Hd : (j - i) mod N = 0).
  { replace (j - i) with ((a + j) - (a + i)) by lia. rewrite Zminus_mod, E, Z.sub_diag. apply Z.mod_0_l. lia. }
  rewrite Z.mod_small in Hd by lia. lia.
Qed.

Lemma ring_push buf a b v :
  rcount a b < N → rcount a b < 2 ^ 32 - 1 →
  ring (upd buf (b mod N) v) a (u32 (b + 1)) = ring buf a b ++ [v].
Proof.
  intros Hroom Hsmall. pose proof (rcount_range a b) as H0. unfold ring. rewrite rcount_step by done.
  rewrite seqZ_app, map_app by lia. f_equal.
  - apply map_ext_in. intros j Hj%list_elem_of_In%elem_of_seqZ. rewrite upd_ne; [done|].
    rewrite (slot_end a b). apply slot_ne; lia.
  - rewrite Z.add_0_l, (seqZ_cons (rcount a b)) by lia. rewrite seqZ_nil by lia. cbn [map]. f_equal.
    by rewrite <- slot_end, upd_eq.
Qed.

Lemma seqZ_shift m : seqZ 1 m = map (Z.add 1) (seqZ 0 m).
Proof. change 1 with (1 + 0) at 1. by rewrite <- (fmap_add_seqZ 1 0). Qed.

Lemma ring_pop buf a b :
  0 < rcount a b → ring buf a b = buf (a mod N) :: ring buf (u32 (a + 1)) b.
Proof.
  intros Hsome. unfold ring. rewrite rcount_next, (seqZ_cons 0) by lia. cbn [map]. rewrite Z.add_0_r. f_equal.
  change (Z.succ 0) with 1. replace (Z.pred (rcount a b)) with (rcount a b - 1) by lia. rewrite seqZ_shift, map_map.
  apply map_ext. intros j. rewrite u32_mod_l. do 2 f_equal. lia.
Qed.

(** The bytes up to [c] are those up to [b] and those from [b] on. *)
Lemma ring_app buf a b c : rcount a b ≤ rcount a c → ring buf a c = ring buf a b ++ ring buf b c.
Proof.
  intros Hle. assert (Hc : rcount a c = rcount a b + rcount b c) by (unfold rcount, u32 in *; zdm).
  pose proof (rcount_range a b) as H0. unfold ring. rewrite Hc, seqZ_app, map_app by (try apply rcount_range; lia). f_equal.
  rewrite Z.add_0_l. replace (seqZ (rcount a b) (rcount b c)) with (map (Z.add (rcount a b)) (seqZ 0 (rcount b c))).
  2:{ rewrite <- (Z.add_0_r (rcount a b)) at 2. by rewrite <- (fmap_add_seqZ (rcount a b) 0). }
  rewrite map_map. apply map_ext. intros j. f_equal.
  rewrite Z.add_assoc, <- Zplus_mod_idemp_l, <- slot_end, Zplus_mod_idemp_l. done.
Qed.

(** A byte added at [c] leaves those before as they are. *)
Lemma ring_push_split buf a b c v :
  rcount a b ≤ rcount a c → rcount a c < N → rcount a c < 2 ^ 32 - 1 →
  ring (upd buf (c mod N) v) a b = ring buf a b ∧
  ring (upd buf (c mod N) v) b (u32 (c + 1)) = ring buf b c ++ [v].
Proof.
  intros Hle Hroom Hs. pose proof (ring_push buf a c v Hroom Hs) as E.
  rewrite (ring_app _ a b) in E by (rewrite rcount_step by done; lia). rewrite (ring_app buf a b c), <- app_assoc in E by done.
  apply app_inj_1 in E; [done|]. by rewrite !ring_length.
Qed.

(** The last byte *)
Lemma ring_last buf a b :
  0 < rcount a b → ring buf a b = ring buf a (u32 (b - 1)) ++ [buf (u32 (b - 1) mod N)].
Proof.
  intros Hsome. rewrite (ring_app buf a (u32 (b - 1)) b) by (unfold rcount, u32 in *; zdm). f_equal.
  assert (H1 : rcount (u32 (b - 1)) b = 1) by (unfold rcount, u32; zdm).
  rewrite ring_pop by lia. unfold ring. rewrite rcount_next, H1 by lia. done.
Qed.

Lemma ring_empty buf a b : rcount a b = 0 → ring buf a b = [].
Proof. intros E. unfold ring. by rewrite E. Qed.
End ring.
