(* ===== verification/Uart.v ===== *)
(** uart.c: the driver of the 16550a UART.

    The chip is a state [U] with its registers, [Chip]; the driver runs on the process layer
    and the transmit buffer with the chip.  [panicked] (printf.c) is set when some hart has
    panicked: then the driver loops for ever, whatever the number of turns it is given. *)
From S2P Require Import Prelude Machine CString Spinlock Sched Bio Log Fs UserMem Shared.

Definition RHR : Z := 0.
Definition THR : Z := 0.
Definition IER : Z := 1.
Definition IER_TX_ENABLE : Z := Z.shiftl 1 0.
Definition IER_RX_ENABLE : Z := Z.shiftl 1 1.
Definition FCR : Z := 2.
Definition FCR_FIFO_ENABLE : Z := Z.shiftl 1 0.
Definition FCR_FIFO_CLEAR : Z := Z.shiftl 3 1.
Definition LCR : Z := 3.
Definition LCR_EIGHT_BITS : Z := Z.shiftl 3 0.
Definition LCR_BAUD_LATCH : Z := Z.shiftl 1 7.
Definition LSR : Z := 5.
Definition LSR_RX_READY : Z := Z.shiftl 1 0.
Definition LSR_TX_IDLE : Z := Z.shiftl 1 5.
Definition UART_TX_BUF_SIZE : Z := 32.

(** The registers of the chip *)
Class Chip (U : Type) := {
  reg_read : Z → U → Z * U;
  reg_write : Z → Z → U → U
}.

Record uart (U : Type) := mkUart {
  uart_tx_lock : spinlock;
  uart_tx_buf : Z → Z;
  uart_tx_w : Z;
  uart_tx_r : Z;
  u_chip : U;
  panicked : Z
}.
Arguments mkUart {U}.
Arguments uart_tx_lock {U}.
Arguments uart_tx_buf {U}.
Arguments uart_tx_w {U}.
Arguments uart_tx_r {U}.
Arguments u_chip {U}.
Arguments panicked {U}.

Definition set_txlock {U} v (u : uart U) := mkUart v (uart_tx_buf u) (uart_tx_w u) (uart_tx_r u) (u_chip u) (panicked u).
Definition set_txbuf {U} v (u : uart U) := mkUart (uart_tx_lock u) v (uart_tx_w u) (uart_tx_r u) (u_chip u) (panicked u).
Definition set_txw {U} v (u : uart U) := mkUart (uart_tx_lock u) (uart_tx_buf u) v (uart_tx_r u) (u_chip u) (panicked u).
Definition set_txr {U} v (u : uart U) := mkUart (uart_tx_lock u) (uart_tx_buf u) (uart_tx_w u) v (u_chip u) (panicked u).
Definition set_chip {U} (v : U) (u : uart U) := mkUart (uart_tx_lock u) (uart_tx_buf u) (uart_tx_w u) (uart_tx_r u) v (panicked u).

#[export] Instance uart_locked {U} : Locked (uart U) := { lk_of := uart_tx_lock; with_lk := set_txlock }.

Section uart.
Context {P U : Type} `{Sched P} `{!Chip U}.
Abbreviation st := (P * uart U)%type.

Definition getu : M st (uart U) := gets snd.
Definition putu (f : uart U → uart U) : M st unit := modify (λ '(p, u), (p, f u)).

Definition ReadReg (reg : Z) : M st Z := λ '(p, u),
  let '(v, c) := reg_read reg (u_chip u) in Ret v (p, set_chip c u).
Definition WriteReg (reg v : Z) : M st unit := putu (λ u, set_chip (reg_write reg (u8 v) (u_chip u)) u).

(** uartinit() *)
Definition uartinit : M st unit :=
  WriteReg IER 0x00;;
  WriteReg LCR LCR_BAUD_LATCH;;
  WriteReg 0 0x03;;
  WriteReg 1 0x00;;
  WriteReg LCR LCR_EIGHT_BITS;;
  WriteReg FCR (Z.lor FCR_FIFO_ENABLE FCR_FIFO_CLEAR);;
  WriteReg IER (Z.lor IER_TX_ENABLE IER_RX_ENABLE);;
  putu (set_txlock (initlock "uart")).

(** uartstart(); each turn takes a character out of the buffer *)
Fixpoint uartstart_loop (k : nat) : M st unit :=
  u ← getu;
  if uart_tx_w u =? uart_tx_r u then mret ()
  else
    lsr ← ReadReg LSR;
    if Z.land lsr LSR_TX_IDLE =? 0 then mret ()
    else
      let c := uart_tx_buf u (uart_tx_r u) in
      putu (set_txr (Z.rem (uart_tx_r u + 1) UART_TX_BUF_SIZE));;
      on_sched (sc_wakeup CUart);;
      WriteReg THR c;;
      match k with
      | O => no_fuel
      | S k => uartstart_loop k
      end.
Definition uartstart : M st unit := uartstart_loop (Z.to_nat UART_TX_BUF_SIZE).

(** uartputc(); [fuel] bounds how often the thread is woken and finds the buffer full again *)
Fixpoint uartputc_loop (fuel : nat) (c : Z) : M st unit :=
  u ← getu;
  if Z.rem (uart_tx_w u + 1) UART_TX_BUF_SIZE =? uart_tx_r u then
    match fuel with
    | O => no_fuel
    | S fuel => on_lock (sleep CUart);; uartputc_loop fuel c
    end
  else
    putu (set_txbuf (upd (uart_tx_buf u) (uart_tx_w u) (u8 c)));;
    putu (set_txw (Z.rem (uart_tx_w u + 1) UART_TX_BUF_SIZE));;
    uartstart;;
    on_lock rel.

Definition uartputc (fuel : nat) (c : Z) : M st unit :=
  on_lock acq;;
  u ← getu;
  if negb (panicked u =? 0) then no_fuel else uartputc_loop fuel c.

(** uartputc_sync(); [fuel] bounds how often it reads LSR *)
Fixpoint wait_idle (fuel : nat) : M st unit :=
  lsr ← ReadReg LSR;
  if Z.land lsr LSR_TX_IDLE =? 0 then
    match fuel with O => no_fuel | S fuel => wait_idle fuel end
  else mret ().

Definition uartputc_sync (fuel : nat) (c : Z) : M st unit :=
  on_sched (at_ sc_hart (modify push_off));;
  u ← getu;
  if negb (panicked u =? 0) then no_fuel
  else
    wait_idle fuel;;
    WriteReg THR c;;
    on_sched (at_ sc_hart pop_off).

(** uartgetc() *)
Definition uartgetc : M st Z :=
  lsr ← ReadReg LSR;
  if Z.land lsr 0x01 =? 0 then mret (-1) else ReadReg RHR.
End uart.

(** ** The characters on their way out

    What the driver relies on of the chip: it reports a character [waiting] when the
    transmit register can take another one, sends the characters written there in order, and
    other accesses send nothing. *)
Class ChipOk (U : Type) `{Chip U} := {
  sent : U → list Z;
  co_lsr u : sent (snd (reg_read LSR u)) = sent u;
  co_thr u c : Z.land (fst (reg_read LSR u)) LSR_TX_IDLE ≠ 0 →
    sent (reg_write THR c (snd (reg_read LSR u))) = sent u ++ [c]
}.

(** The transmit buffer, oldest first *)
Definition txcount {U} (u : uart U) : Z := (uart_tx_w u - uart_tx_r u) mod UART_TX_BUF_SIZE.
Definition txq {U} (u : uart U) : list Z :=
  map (λ j, uart_tx_buf u ((uart_tx_r u + j) mod UART_TX_BUF_SIZE)) (seqZ 0 (txcount u)).
Record uart_ok {U} (u : uart U) : Prop := {
  uk_w : 0 ≤ uart_tx_w u < UART_TX_BUF_SIZE;
  uk_r : 0 ≤ uart_tx_r u < UART_TX_BUF_SIZE;
  uk_buf : ∀ i, 0 ≤ uart_tx_buf u i < 256
}.

Lemma txcount_range {U} (u : uart U) : 0 ≤ txcount u < UART_TX_BUF_SIZE.
Proof. by apply Z.mod_pos_bound. Qed.

Lemma tx_full_test {U} (u : uart U) : uart_ok u →
  (Z.rem (uart_tx_w u + 1) UART_TX_BUF_SIZE =? uart_tx_r u) = (txcount u =? UART_TX_BUF_SIZE - 1).
Proof.
  intros [Hw Hr _]. rewrite Z.rem_mod_nonneg by (unfold UART_TX_BUF_SIZE in *; lia). unfold txcount, UART_TX_BUF_SIZE in *.
  destruct (Z.eqb_spec ((uart_tx_w u + 1) mod 32) (uart_tx_r u)), (Z.eqb_spec ((uart_tx_w u - uart_tx_r u) mod 32) (32 - 1)); zdm.
Qed.

Lemma tx_empty_test {U} (u : uart U) : uart_ok u → (uart_tx_w u =? uart_tx_r u) = (txcount u =? 0).
Proof.
  intros [Hw Hr _]. unfold txcount, UART_TX_BUF_SIZE in *.
  destruct (Z.eqb_spec (uart_tx_w u) (uart_tx_r u)), (Z.eqb_spec ((uart_tx_w u - uart_tx_r u) mod 32) 0); zdm.
Qed.

(** A character into the buffer, and one out of it *)
Definition tx_push {U} (c : Z) (u : uart U) : uart U :=
  set_txw (Z.rem (uart_tx_w u + 1) UART_TX_BUF_SIZE) (set_txbuf (upd (uart_tx_buf u) (uart_tx_w u) (u8 c)) u).
Definition tx_pop {U} (u : uart U) : uart U := set_txr (Z.rem (uart_tx_r u + 1) UART_TX_BUF_SIZE) u.

Lemma tx_push_ok {U} c (u : uart U) : uart_ok u → txcount u < UART_TX_BUF_SIZE - 1 →
  uart_ok (tx_push c u) ∧ txq (tx_push c u) = txq u ++ [u8 c].
Proof.
  intros [Hw Hr Hb] Hroom. unfold tx_push. rewrite Z.rem_mod_nonneg by (unfold UART_TX_BUF_SIZE in *; lia).
  pose proof (txcount_range u) as Hc.
  assert (Hc' : txcount (tx_push c u) = txcount u + 1).
  { unfold txcount, tx_push, UART_TX_BUF_SIZE in *. cbn [uart_tx_w uart_tx_r set_txw set_txbuf].
    rewrite Z.rem_mod_nonneg by lia. zdm. }
  split; [split; cbn; [by apply Z.mod_pos_bound|done|]|].
  { intros i. unfold upd, u8. destruct (i =? uart_tx_w u); [by apply Z.mod_pos_bound|apply Hb]. }
  unfold txq. unfold tx_push in Hc'. rewrite Z.rem_mod_nonneg in Hc' by (unfold UART_TX_BUF_SIZE in *; lia).
  rewrite Hc', seqZ_app, map_app by lia. cbn [uart_tx_w uart_tx_r uart_tx_buf set_txw set_txbuf]. f_equal.
  - apply map_ext_in. intros j Hj%list_elem_of_In%elem_of_seqZ. rewrite upd_ne; [done|].
    unfold txcount, UART_TX_BUF_SIZE in *. zdm.
  - rewrite Z.add_0_l, (seqZ_cons (txcount u)) by lia. rewrite seqZ_nil by lia. cbn [map]. f_equal.
    unfold upd. rewrite (proj2 (Z.eqb_eq _ _)); [done|]. unfold txcount, UART_TX_BUF_SIZE in *. zdm.
Qed.

Lemma tx_pop_ok {U} (u : uart U) : uart_ok u → 0 < txcount u →
  uart_ok (tx_pop u) ∧ txq u = uart_tx_buf u (uart_tx_r u) :: txq (tx_pop u) ∧ txcount (tx_pop u) = txcount u - 1.
Proof.
  intros [Hw Hr Hb] Hsome. unfold tx_pop. rewrite Z.rem_mod_nonneg by (unfold UART_TX_BUF_SIZE in *; lia).
  set (u' := set_txr ((uart_tx_r u + 1) mod UART_TX_BUF_SIZE) u).
  assert (Hc : txcount u' = txcount u - 1).
  { unfold txcount, u', UART_TX_BUF_SIZE in *. cbn [uart_tx_w uart_tx_r set_txr]. zdm. }
  split; [split; [done|by apply Z.mod_pos_bound|done]|]. split; [|done].
  unfold txq. rewrite Hc, (seqZ_cons 0) by lia. cbn [map]. rewrite Z.add_0_r, Z.mod_small by done. f_equal.
  change (Z.succ 0) with (1 + 0). replace (Z.pred (txcount u)) with (txcount u - 1) by lia.
  rewrite <- (fmap_add_seqZ 1 0). change (Z.add 1 <$> ?l) with (map (Z.add 1) l). rewrite map_map.
  apply map_ext_in. intros j Hj%list_elem_of_In%elem_of_seqZ. cbn [uart_tx_r u' set_txr uart_tx_buf].
  f_equal. unfold UART_TX_BUF_SIZE. zdm.
Qed.

(** Everything handed to the driver: sent or waiting *)
Definition stream {U} `{ChipOk U} (u : uart U) : list Z := sent (u_chip u) ++ txq u.

(** The chip can always take a character. *)
Definition always_idle (U : Type) `{Chip U} : Prop := ∀ u : U, Z.land (fst (reg_read LSR u)) LSR_TX_IDLE ≠ 0.

Section specs.
Context {P U : Type} `{SchedOk P} `{!Caller P} `{!UserMem P} `{ChipOk U}.
Abbreviation st := (P * uart U)%type.

(** The driver's state after some output [cs]: everything given to it is sent or waiting. *)
Record output (cs : list Z) (u u' : uart U) : Prop := {
  ou_ok : uart_ok u';
  ou_stream : stream u' = stream u ++ cs;
  ou_lock : uart_tx_lock u' = uart_tx_lock u;
  ou_panicked : panicked u' = panicked u
}.

Lemma output_trans cs1 cs2 u1 u2 u3 : output cs1 u1 u2 → output cs2 u2 u3 → output (cs1 ++ cs2) u1 u3.
Proof. intros [? E1 ? ?] [? E2 ? ?]. split; [done| |congruence..]. by rewrite E2, E1, app_assoc. Qed.

Lemma wp_ReadReg reg p u (Q : Z → st → Prop) :
  Q (fst (reg_read reg (u_chip u))) (p, set_chip (snd (reg_read reg (u_chip u))) u) → wp (ReadReg reg) Q (p, u).
Proof. unfold wp, ReadReg. by destruct (reg_read reg (u_chip u)). Qed.

Lemma wp_uartstart_loop k q u (Q : unit → st → Prop) :
  so_inv q → um_ok q → settled q → uart_ok u → txcount u ≤ Z.of_nat k →
  (∀ q' u', kept q q' → output [] u u' → txcount u' ≤ txcount u → (always_idle U → txcount u' = 0) → Q () (q', u')) →
  wp (uartstart_loop k) Q (q, u).
Proof.
  revert q u. induction k as [|k IH]; intros q u Hq Ho Hs Hu Hk HQ; cbn [uartstart_loop];
    apply wp_bind, wp_gets; cbn [snd]; rewrite tx_empty_test by done;
    (destruct (Z.eqb_spec (txcount u) 0) as [E0|E0];
     [apply wp_ret, HQ; [by apply kept_refl|split; [done|by rewrite app_nil_r|done|done]|lia|done]|]);
    pose proof (txcount_range u) as Hc; [lia|].
  apply wp_bind, wp_ReadReg. set (ch := u_chip u). pose proof (co_lsr ch) as Hlsr.
  destruct (Z.eqb_spec (Z.land (fst (reg_read LSR ch)) LSR_TX_IDLE) 0) as [Ei|Ei].
  - apply wp_ret, HQ; [by apply kept_refl| |unfold txcount; cbn; lia|intros Hai; by apply Hai in Ei].
    destruct Hu as [? ? ?]. split; [by split| |done|done]. unfold stream. cbn [u_chip set_chip]. by rewrite Hlsr, app_nil_r.
  - cbv zeta. set (c := uart_tx_buf u (uart_tx_r u)). set (u1 := set_chip (snd (reg_read LSR ch)) u).
    assert (Hu1 : uart_ok u1) by (destruct Hu; by split).
    destruct (tx_pop_ok u1 Hu1 ltac:(change (0 < txcount u); lia)) as (Hok & Hq1 & Hc1).
    apply wp_bind, wp_modify. cbn [fst snd]. fold u1. change (set_txr _ u1) with (tx_pop u1).
    apply wp_bind, wp_on_sched, kept_wakeup; [done|done|done|]. intros q2 Hk2.
    apply wp_bind, wp_modify. cbn [u_chip tx_pop set_txr u1].
    assert (Hb : u8 c = c) by (apply Z.mod_small; apply Hu). rewrite Hb.
    set (u2 := set_chip (reg_write THR c (snd (reg_read LSR ch))) (tx_pop u1)).
    assert (Hu2 : uart_ok u2) by (destruct Hok; by split).
    assert (Hc2 : txcount u2 = txcount u - 1) by exact Hc1.
    apply (IH q2 u2); [apply Hk2|by apply Hk2|by eapply kept_settled|done|lia|].
    intros q' u' Hk' [O1 O2 O3 O4] Hle Hz. apply HQ; [by eapply kept_trans| |lia|done].
    split; [done| |done|done]. rewrite O2, !app_nil_r. unfold stream. cbn [u2 u_chip set_chip].
    rewrite co_thr by done. change (txq u2) with (txq (tx_pop u1)). change (txq u) with (txq u1). rewrite Hq1.
    change (uart_tx_buf u1 (uart_tx_r u1)) with c. fold ch. by rewrite <- app_assoc.
Qed.

(** uartputc() with room in the buffer *)
Lemma wp_uartputc fuel c q u (Q : unit → st → Prop) :
  so_inv q → um_ok q → settled q → uart_ok u → lock_free (uart_tx_lock u) → panicked u = 0 → txcount u < UART_TX_BUF_SIZE - 1 →
  (∀ q' u', kept q q' → output [u8 c] u u' → txcount u' ≤ txcount u + 1 → (always_idle U → txcount u' = 0) → Q () (q', u')) →
  wp (uartputc fuel c) Q (q, u).
Proof.
  intros Hq Ho Hs Hu Hl Hp Hroom HQ. pose proof (txcount_range u) as Hc. destruct (enter_inv q Hq Ho) as (Hq1 & Hs1 & Ho1 & Hb1 & Hh1).
  unfold uartputc. apply wp_bind, wp_zoom. cbn [lk_of uart_locked]. eapply wp_intro; [by apply acq_eq|].
  fold (enter q). set (lk := take_lock (push_off (lget sc_hart q)) (uart_tx_lock u)). cbn [with_lk uart_locked].
  set (u1 := set_txlock lk u). assert (Hu1 : uart_ok u1) by (destruct Hu; by split).
  apply wp_bind, wp_gets. cbn [snd]. change (panicked u1) with (panicked u). rewrite Hp. cbn [Z.eqb negb].
  destruct fuel; cbn [uartputc_loop]; apply wp_bind, wp_gets; cbn [snd]; rewrite tx_full_test by done;
  (destruct (Z.eqb_spec (txcount u1) (UART_TX_BUF_SIZE - 1)) as [E|_];
   [change (txcount u1) with (txcount u) in E; lia|];
   apply wp_bind, wp_modify, wp_bind, wp_modify; change (set_txw _ _) with (tx_push c u1);
   destruct (tx_push_ok c u1 Hu1 Hroom) as [Hok Hq2];
   assert (Hcp : txcount (tx_push c u1) = txcount u + 1)
     by (apply (f_equal length) in Hq2; rewrite length_app in Hq2; unfold txq in Hq2; rewrite !length_map, !length_seqZ in Hq2;
         cbn [length] in Hq2; change (txcount u1) with (txcount u) in Hq2; pose proof (txcount_range (tx_push c u1)); lia);
   apply wp_bind, wp_uartstart_loop; [done|done|done|done|rewrite Hcp; unfold UART_TX_BUF_SIZE in *; lia|];
   intros q2 u2 Hk2 [O1 O2 O3 O4] Hle Hz;
   apply wp_zoom; cbn [lk_of uart_locked]; rewrite O3; change (uart_tx_lock (tx_push c u1)) with lk;
   (eapply wp_intro; [apply (rel_eq q2 (lget sc_hart q)); [by apply so_hart_ok|by rewrite (kp_hart _ _ Hk2)|apply take_lock_held]|]);
   rewrite Hs; apply HQ; [by apply kept_leave| |cbn in Hle; change (txcount (with_lk _ u2)) with (txcount u2); lia|done];
   (split; [destruct O1; by split| |exact (take_lock_released (push_off (lget sc_hart q)) (uart_tx_lock u) Hl)|cbn; rewrite O4; done]);
   change (stream (with_lk _ u2)) with (stream u2); rewrite O2, app_nil_r; unfold stream; rewrite Hq2;
   change (u_chip (tx_push c u1)) with (u_chip u); change (txq u1) with (txq u); by rewrite app_assoc).
Qed.
End specs.
