(* ===== verification/Printf.v ===== *)
(** printf.c of the kernel: formatted output.

    The functions print through [putc], consputc() of console.c.  The arguments of a
    variadic call are a list of [arg]s; va_arg() of one that is not there, or of another
    type, is undefined in C, here a panic.  panic() itself is the outcome [Panic]. *)
From S2P Require Import Prelude Machine.
From Stdlib Require Import FunctionalExtensionality.

(** Characters *)
Definition PERCENT : Z := 37.
Definition MINUS : Z := 45.

Inductive arg : Type :=
| AInt (v : Z)                   (* int *)
| ALong (v : Z)                  (* uint64 *)
| AStr (s : option (list Z)).    (* char*: the bytes before the NUL, None if it is 0 *)

Definition va_int {W} (ap : list arg) : M W (Z * list arg) :=
  match ap with AInt v :: ap => mret (s32 v, ap) | _ => panic "va_arg" end.
Definition va_long {W} (ap : list arg) : M W (Z * list arg) :=
  match ap with ALong v :: ap => mret (u64 v, ap) | _ => panic "va_arg" end.
Definition va_str {W} (ap : list arg) : M W (option (list Z) * list arg) :=
  match ap with AStr s :: ap => mret (s, ap) | _ => panic "va_arg" end.

(** digits[]: 0123456789 followed by the letters from [a] on *)
Definition digit (a x : Z) : Z := if x <? 10 then 48 + x else a + (x - 10).
Definition digits (x : Z) : Z := digit 97 x.

(** do { buf[i++] = digits[x % base]; } while((x /= base) != 0): what it appends to buf *)
Fixpoint convert (k : nat) (digits : Z → Z) (base x : Z) : option (list Z) :=
  match k with
  | O => None
  | S k =>
    let d := digits (x mod base) in
    let x := x / base in
    if x =? 0 then Some [d] else cons d <$> convert k digits base x
  end.

(** "(null)" *)
Definition null_str : list Z := [40; 110; 117; 108; 108; 41].

Section printf.
Context {W : Type} (putc : Z → M W unit).

Fixpoint putcs (cs : list Z) : M W unit :=
  match cs with
  | [] => mret ()
  | c :: cs => putc c;; putcs cs
  end.

(** printint(): x is a 32-bit uint, so that 32 turns are enough; the characters of buf are
    printed from the last one on *)
Definition printint (xx base : Z) (sign : bool) : M W unit :=
  let neg := sign && (xx <? 0) in
  let x := if neg then u32 (- xx) else u32 xx in
  match convert 32 digits base x with
  | None => no_fuel
  | Some buf => putcs (rev (if neg then buf ++ [MINUS] else buf))
  end.

(** printptr() *)
Fixpoint printptr_loop (k : nat) (x : Z) : M W unit :=
  match k with
  | O => mret ()
  | S k => putc (digits (Z.shiftr x (8 * 8 - 4)));; printptr_loop k (u64 (Z.shiftl x 4))
  end.
Definition printptr (x : Z) : M W unit :=
  putc 48;; putc 120;; printptr_loop 16 x.

(** The loop of printf() over the bytes of the format *)
Fixpoint printf_loop (fmt : list Z) (ap : list arg) {struct fmt} : M W unit :=
  match fmt with
  | [] => mret ()
  | c :: fmt =>
    if negb (c =? PERCENT) then putc c;; printf_loop fmt ap
    else
      match fmt with
      | [] => mret ()
      | c :: fmt =>
        if c =? 100 then
          v ← va_int ap; printint (fst v) 10 true;; printf_loop fmt (snd v)
        else if c =? 120 then
          v ← va_int ap; printint (fst v) 16 true;; printf_loop fmt (snd v)
        else if c =? 112 then
          v ← va_long ap; printptr (fst v);; printf_loop fmt (snd v)
        else if c =? 115 then
          v ← va_str ap; putcs (default null_str (fst v));; printf_loop fmt (snd v)
        else if c =? PERCENT then putc PERCENT;; printf_loop fmt ap
        else putc PERCENT;; putc c;; printf_loop fmt ap
      end
  end.
End printf.

(** ** Number to characters *)

(** The number that digits stand for, least significant first *)
Fixpoint number (base : Z) (ds : list Z) : Z :=
  match ds with
  | [] => 0
  | d :: ds => d + base * number base ds
  end.

Lemma convert_digits k digits base x :
  2 ≤ base → 0 ≤ x < base ^ Z.of_nat k → (0 < k)%nat →
  ∃ ds, convert k digits base x = Some (map digits ds) ∧ number base ds = x ∧
    Forall (λ d, 0 ≤ d < base) ds ∧ (0 < length ds)%nat ∧
    ∀ m, (0 < m)%nat → x < base ^ Z.of_nat m → (length ds ≤ m)%nat.
Proof.
  intros Hb. revert x. induction k as [|k IH]; intros x Hx Hk; [lia|]. cbn [convert].
  pose proof (Z.mod_pos_bound x base ltac:(lia)) as Hm. pose proof (Z.div_mod x base ltac:(lia)) as Hd.
  destruct (Z.eqb_spec (x / base) 0) as [E|E].
  - exists [x mod base]. split; [done|]. split; [cbn; rewrite E in Hd; lia|]. split; [by constructor|]. cbn. split; lia.
  - assert (Hq : 0 < x / base) by (pose proof (Z.div_pos x base); lia).
    assert (Hk' : (0 < k)%nat).
    { destruct k; [|lia]. rewrite Z.pow_1_r in Hx. rewrite Z.div_small in E; lia. }
    assert (Hq' : 0 ≤ x / base < base ^ Z.of_nat k).
    { split; [lia|]. apply Z.div_lt_upper_bound; [lia|]. rewrite <- Z.pow_succ_r by lia.
      replace (Z.succ (Z.of_nat k)) with (Z.of_nat (S k)) by lia. lia. }
    destruct (IH (x / base) Hq' Hk') as (ds & -> & Hn & Hall & Hlen & Hmax).
    exists (x mod base :: ds). split; [done|]. split; [cbn [number]; rewrite Hn; lia|]. split; [by constructor|].
    cbn [length]. split; [lia|]. intros m Hm0 Hxm. destruct m as [|m]; [lia|].
    assert (0 < m)%nat.
    { destruct m; [|lia]. rewrite Z.pow_1_r in Hxm. rewrite Z.div_small in E; lia. }
    assert (length ds ≤ m)%nat; [|lia]. apply Hmax; [done|]. apply Z.div_lt_upper_bound; [lia|].
    rewrite <- Z.pow_succ_r by lia. by replace (Z.succ (Z.of_nat m)) with (Z.of_nat (S m)) by lia.
Qed.

(** Equations between computations *)
Lemma bind_ext {W A B} (m : M W A) (f g : A → M W B) s :
  (∀ a s, f a s = g a s) → mbind f m s = mbind g m s.
Proof.
  intros E. assert (f = g) as ->; [|done]. apply functional_extensionality. intros a.
  apply functional_extensionality. intros s'. apply E.
Qed.

Lemma bind_assoc {W A B C} (m : M W A) (f : A → M W B) (g : B → M W C) s :
  mbind g (mbind f m) s = mbind (λ a, mbind g (f a)) m s.
Proof.
  unfold mbind, M_bind. induction (m s) as [a s'|msg s'|why s' k IH|]; cbn [obind]; try done.
  f_equal. apply functional_extensionality. intros s2. apply IH.
Qed.

(** Output collected in a list *)
Definition collect (c : Z) : M (list Z) unit := modify (λ out, out ++ [c]).

Lemma collect_putcs cs out : putcs collect cs out = Ret () (out ++ cs).
Proof.
  revert out. induction cs as [|c cs IH]; intros out; cbn [putcs]; [by rewrite app_nil_r|].
  rewrite (bind_Ret (collect c) _ out () (out ++ [c]) eq_refl), IH. by rewrite <- app_assoc.
Qed.
