(* ===== verification/Console.v ===== *)
(** console.c: console input, a line at a time, and output; printf() and procdump().

    [cst] is the state of the console: the UART driver, printf()'s lock and the input buffer.
    The console's own lock is cons.lock.  read() and write() of the console copy to and from
    the calling process, user_dst and user_src are 1 (file.c).  [fuel] bounds how often
    a thread is woken and finds no input, and how often uartputc_sync() reads LSR. *)
From S2P Require Import Prelude Machine CString Spinlock Sched Bio Log Fs UserMem Shared Uart Printf.

Definition BACKSPACE : Z := 0x100.
Definition Ctrl (x : Z) : Z := x - 64.
Definition INPUT_BUF : Z := 128.

(** struct cons *)
Record cons := mkCons {
  cons_lock : spinlock;
  cons_buf : Z → Z;
  cons_r : Z;
  cons_w : Z;
  cons_e : Z
}.
Definition set_conslock v c := mkCons v (cons_buf c) (cons_r c) (cons_w c) (cons_e c).
Definition set_consbuf v c := mkCons (cons_lock c) v (cons_r c) (cons_w c) (cons_e c).
Definition set_consr v c := mkCons (cons_lock c) (cons_buf c) v (cons_w c) (cons_e c).
Definition set_consw v c := mkCons (cons_lock c) (cons_buf c) (cons_r c) v (cons_e c).
Definition set_conse v c := mkCons (cons_lock c) (cons_buf c) (cons_r c) (cons_w c) v.

Record cst (U : Type) := mkCst {
  c_uart : uart U;
  pr_lock : spinlock;
  pr_locking : Z;
  c_cons : cons
}.
Arguments mkCst {U}.
Arguments c_uart {U}.
Arguments pr_lock {U}.
Arguments pr_locking {U}.
Arguments c_cons {U}.

Definition set_uart {U} (v : uart U) (s : cst U) : cst U := mkCst v (pr_lock s) (pr_locking s) (c_cons s).
Definition set_cons {U} v (s : cst U) : cst U := mkCst (c_uart s) (pr_lock s) (pr_locking s) v.

#[export] Instance cst_locked {U} : Locked (cst U) := {
  lk_of s := cons_lock (c_cons s);
  with_lk lk s := set_cons (set_conslock lk (c_cons s)) s
}.

(** What procdump() (proc.c) shows of a process that is not UNUSED: pid, state and name *)
Class Procs (P : Type) := proc_list : P → list (Z * list Z * list Z).

Section console.
Context {P U : Type} `{Sched P} `{!Caller P} `{!Chip U}.
Abbreviation st := (P * cst U)%type.

Definition on_uart {A} (m : M (P * uart U) A) : M st A :=
  zoom (λ '(p, s), (p, c_uart s)) (λ '(p, u) '(_, s), (p, set_uart u s)) m.
Definition on_prlock {A} (m : M (P * spinlock) A) : M st A :=
  zoom (λ '(p, s), (p, pr_lock s)) (λ '(p, lk) '(_, s), (p, mkCst (c_uart s) lk (pr_locking s) (c_cons s))) m.
Definition getc : M st cons := gets (λ s, c_cons (snd s)).
Definition putcn (f : cons → cons) : M st unit := modify (λ '(p, s), (p, set_cons (f (c_cons s)) s)).

(** consputc() *)
Definition consputc (fuel : nat) (c : Z) : M st unit :=
  on_uart
    (if c =? BACKSPACE then
       uartputc_sync fuel 8;; uartputc_sync fuel 32;; uartputc_sync fuel 8
     else uartputc_sync fuel c).

(** printf() and printfinit() of printf.c *)
Definition printf (fuel : nat) (fmt : list Z) (ap : list arg) : M st unit :=
  s ← gets snd;
  let locking := pr_locking s in
  when_ (negb (locking =? 0)) (on_prlock acq);;
  printf_loop (consputc fuel) fmt ap;;
  when_ (negb (locking =? 0)) (on_prlock rel).

Definition printfinit : M st unit :=
  modify (λ '(p, s), (p, mkCst (c_uart s) (initlock "pr") 1 (c_cons s))).

(** procdump() of proc.c *)
Fixpoint procdump_loop (fuel : nat) (ps : list (Z * list Z * list Z)) : M st unit :=
  match ps with
  | [] => mret ()
  | (pid, state, name) :: ps =>
    (* "%d %s %s" *)
    printf fuel [37; 100; 32; 37; 115; 32; 37; 115] [AInt pid; AStr (Some state); AStr (Some name)];;
    printf fuel [10] [];;
    procdump_loop fuel ps
  end.
Definition procdump `{!Procs P} (fuel : nat) : M st unit :=
  printf fuel [10] [];;
  p ← gets fst;
  procdump_loop fuel (proc_list p).

(** consolewrite() *)
Fixpoint consolewrite_loop (fuel k : nat) (src i : Z) : M st Z :=
  match k with
  | O => mret i
  | S k =>
    c ← on_sched (copyin_bytes [0] (u64 (src + i)));
    if fst c =? -1 then mret i
    else on_uart (uartputc fuel (lmem (snd c) 0));; consolewrite_loop fuel k src (i + 1)
  end.
Definition consolewrite (fuel : nat) (src n : Z) : M st Z :=
  on_lock acq;;
  i ← consolewrite_loop fuel (Z.to_nat n) src 0;
  on_lock rel;;
  mret i.

(** consoleread(): the loop that waits for input; false if it returned -1 *)
Fixpoint consoleread_wait (fuel : nat) : M st bool :=
  c ← getc;
  if cons_r c =? cons_w c then
    stop ← on_sched sc_killed;
    if (stop : bool) then on_lock rel;; mret false
    else
      match fuel with
      | O => no_fuel
      | S fuel => on_lock (sleep CCons);; consoleread_wait fuel
      end
  else mret true.

(** The loop over the bytes, [k] = n of them left; None if it returned -1 *)
Fixpoint consoleread_loop (fuel k : nat) (dst target : Z) : M st (option Z) :=
  match k with
  | O => mret (Some 0)
  | S k' =>
    go ← consoleread_wait fuel;
    if negb go then mret None
    else
      x ← getc;
      let c := cons_buf x (cons_r x mod INPUT_BUF) in
      putcn (set_consr (u32 (cons_r x + 1)));;
      if c =? Ctrl 68 then
        when_ (u32 (Z.of_nat k) <? target) (putcn (λ x, set_consr (u32 (cons_r x - 1)) x));;
        mret (Some (Z.of_nat k))
      else
        r ← on_sched (copyout_bytes dst [c]);
        if r =? -1 then mret (Some (Z.of_nat k))
        else if c =? 10 then mret (Some (Z.of_nat k'))
        else consoleread_loop fuel k' (u64 (dst + 1)) target
  end.
Definition consoleread (fuel : nat) (dst n : Z) : M st Z :=
  let target := u32 n in
  on_lock acq;;
  r ← consoleread_loop fuel (Z.to_nat n) dst target;
  match r with
  | None => mret (-1)
  | Some rest => on_lock rel;; mret (s32 (target - (if n <? 0 then n else rest)))
  end.

(** consoleintr(): the loop of Control-U; the buffer has no more than INPUT_BUF characters *)
Fixpoint kill_line (fuel k : nat) : M st unit :=
  x ← getc;
  if negb (cons_e x =? cons_w x) && negb (cons_buf x (u32 (cons_e x - 1) mod INPUT_BUF) =? 10) then
    match k with
    | O => no_fuel
    | S k =>
      putcn (set_conse (u32 (cons_e x - 1)));;
      consputc fuel BACKSPACE;;
      kill_line fuel k
    end
  else mret ().

(** Its switch, with the lock held *)
Definition intr_body `{!Procs P} (fuel : nat) (c : Z) : M st unit :=
  if c =? Ctrl 80 then procdump fuel
  else if c =? Ctrl 85 then kill_line fuel (Z.to_nat INPUT_BUF)
  else if (c =? Ctrl 72) || (c =? 127) then
    x ← getc;
    when_ (negb (cons_e x =? cons_w x))
      (putcn (set_conse (u32 (cons_e x - 1)));; consputc fuel BACKSPACE)
  else
    x ← getc;
    when_ (negb (c =? 0) && (u32 (cons_e x - cons_r x) <? INPUT_BUF))
      (let c := if c =? 13 then 10 else c in
       consputc fuel c;;
       putcn (set_consbuf (upd (cons_buf x) (cons_e x mod INPUT_BUF) (u8 c)));;
       putcn (set_conse (u32 (cons_e x + 1)));;
       x ← getc;
       when_ ((c =? 10) || (c =? Ctrl 68) || (cons_e x =? u32 (cons_r x + INPUT_BUF)))
         (putcn (λ x, set_consw (cons_e x) x);;
          on_sched (sc_wakeup CCons))).

Definition consoleintr `{!Procs P} (fuel : nat) (c : Z) : M st unit :=
  on_lock acq;;
  intr_body fuel c;;
  on_lock rel.

(** uartintr() of uart.c: the characters that are waiting, [k] at most *)
Fixpoint uartintr_loop `{!Procs P} (fuel k : nat) : M st unit :=
  c ← on_uart uartgetc;
  if c =? -1 then mret ()
  else
    consoleintr fuel c;;
    match k with
    | O => no_fuel
    | S k => uartintr_loop fuel k
    end.
Definition uartintr `{!Procs P} (fuel k : nat) : M st unit :=
  uartintr_loop fuel k;;
  on_uart (on_lock acq);;
  on_uart uartstart;;
  on_uart (on_lock rel).

(** consoleinit(); the entries of devsw are set in File.v *)
Definition consoleinit : M st unit :=
  putcn (set_conslock (initlock "cons"));;
  on_uart uartinit.
End console.
