(* ===== verification/ConsoleSpec.v ===== *)
(** console.c: the line discipline of consoleintr(), what consoleread() returns, and what
    consolewrite() sends. *)
From S2P Require Import Prelude Machine CString Spinlock Sched Bio Log Fs UserMem Shared Ring Uart Printf Console.

(** ** Synchronous output *)

(** The chip can take a character after at most [n] more reads of LSR. *)
Fixpoint soon {U} `{Chip U} (n : nat) (ch : U) : Prop :=
  Z.land (fst (reg_read LSR ch)) LSR_TX_IDLE ≠ 0 ∨
  match n with O => False | S n => soon n (snd (reg_read LSR ch)) end.

Definition prompt (U : Type) `{Chip U} (n : nat) : Prop := ∀ ch : U, soon n ch.

Section specs.
Context {P U : Type} `{SchedOk P} `{!Caller P} `{!UserMem P} `{ChipOk U}.

(** Characters [cs] were sent past the transmit buffer. *)
Record synced (cs : list Z) (u u' : uart U) : Prop := {
  sy_rest : u' = set_chip (u_chip u') u;
  sy_sent : sent (u_chip u') = sent (u_chip u) ++ cs
}.

Lemma synced_nil u : synced [] u u.
Proof. split; [by destruct u|by rewrite app_nil_r]. Qed.

Lemma synced_trans cs1 cs2 u1 u2 u3 : synced cs1 u1 u2 → synced cs2 u2 u3 → synced (cs1 ++ cs2) u1 u3.
Proof.
  intros [E1 S1] [E2 S2]. split; [|by rewrite S2, S1, app_assoc].
  rewrite E2, E1. done.
Qed.

Lemma wp_wait_idle n (p : P) (u : uart U) (Q : unit → P * uart U → Prop) :
  soon n (u_chip u) →
  (∀ ch, sent ch = sent (u_chip u) → Z.land (fst (reg_read LSR ch)) LSR_TX_IDLE ≠ 0 →
     Q () (p, set_chip (snd (reg_read LSR ch)) u)) → wp (wait_idle n) Q (p, u).
Proof.
  revert u. induction n as [|n IH]; intros u Hs HQ; cbn [wait_idle]; apply wp_bind, wp_ReadReg;
    (destruct (Z.eqb_spec (Z.land (fst (reg_read LSR (u_chip u))) LSR_TX_IDLE) 0) as [E|E]; [|by apply wp_ret, HQ]);
    destruct Hs as [Hs|Hs]; try done.
  apply IH; [done|]. intros ch Hch Hi. apply (HQ ch); [|done]. rewrite Hch. cbn [u_chip set_chip]. apply co_lsr.
Qed.

Lemma wp_uartputc_sync fuel c q u (Q : unit → P * uart U → Prop) :
  so_inv q → um_ok q → settled q → panicked u = 0 → prompt U fuel →
  (∀ q' u', kept q q' → synced [u8 c] u u' → Q () (q', u')) → wp (uartputc_sync fuel c) Q (q, u).
Proof.
  intros Hq Ho Hs Hp Hpr HQ. pose proof (so_hart_ok q Hq) as Hh. destruct (enter_inv q Hq Ho) as (Hq1 & _ & _ & _ & Hh1).
  unfold uartputc_sync. apply wp_bind, wp_on_sched. unfold at_. apply wp_zoom, wp_modify. fold (enter q).
  apply wp_bind, wp_gets. cbn [snd]. rewrite Hp. cbn [Z.eqb negb].
  apply wp_bind, wp_wait_idle; [apply Hpr|]. intros ch Hch Hi. apply wp_bind, wp_modify.
  apply wp_on_sched. unfold at_. apply wp_zoom. rewrite Hh1. eapply wp_intro; [by apply pop_push|]. rewrite Hs.
  apply HQ; [apply kept_leave; [done..|by apply kept_refl]|]. split; [done|]. cbn [u_chip set_chip].
  by rewrite co_thr, Hch.
Qed.

(** ** The console's state after output *)
Abbreviation st := (P * cst U)%type.

Record echoed (cs : list Z) (s s' : cst U) : Prop := {
  ec_rest : s' = set_uart (c_uart s') s;
  ec_uart : synced cs (c_uart s) (c_uart s')
}.

Lemma echoed_trans cs1 cs2 s1 s2 s3 : echoed cs1 s1 s2 → echoed cs2 s2 s3 → echoed (cs1 ++ cs2) s1 s3.
Proof. intros [E1 S1] [E2 S2]. split; [by rewrite E2, E1|by eapply synced_trans]. Qed.

Definition erase : list Z := [8; 32; 8].

Lemma wp_consputc fuel c q s (Q : unit → st → Prop) :
  so_inv q → um_ok q → settled q → panicked (c_uart s) = 0 → prompt U fuel →
  (∀ q' s', kept q q' → echoed (if c =? BACKSPACE then erase else [u8 c]) s s' → Q () (q', s')) →
  wp (consputc fuel c) Q (q, s).
Proof.
  intros Hq Ho Hs Hp Hpr HQ. unfold consputc, on_uart. apply wp_zoom. cbn beta iota.
  destruct (c =? BACKSPACE).
  - apply wp_bind, wp_uartputc_sync; try done. intros q1 u1 K1 S1.
    assert (P1 : panicked u1 = 0) by (rewrite (sy_rest _ _ _ S1); done).
    apply wp_bind, wp_uartputc_sync; try done; [apply K1|by apply K1|by eapply kept_settled|]. intros q2 u2 K2 S2.
    assert (P2 : panicked u2 = 0) by (rewrite (sy_rest _ _ _ S2); done).
    assert (K12 : kept q q2) by by eapply kept_trans.
    apply wp_uartputc_sync; try done; [apply K12|by apply K12|by eapply kept_settled|]. intros q3 u3 K3 S3.
    apply HQ; [by eapply kept_trans|]. split; [done|].
    exact (synced_trans _ _ _ _ _ S1 (synced_trans _ _ _ _ _ S2 S3)).
  - apply wp_uartputc_sync; try done. intros q1 u1 K1 S1. by apply HQ.
Qed.
End specs.

(** ** The input *)

(** The characters that consoleread() may take, and those of the line being typed *)
Definition ready (c : cons) : list Z := ring INPUT_BUF (cons_buf c) (cons_r c) (cons_w c).
Definition typed (c : cons) : list Z := ring INPUT_BUF (cons_buf c) (cons_w c) (cons_e c).

Record cons_ok (c : cons) : Prop := {
  ck_r : 0 ≤ cons_r c < 2 ^ 32;
  ck_w : 0 ≤ cons_w c < 2 ^ 32;
  ck_e : 0 ≤ cons_e c < 2 ^ 32;
  ck_we : rcount (cons_r c) (cons_w c) ≤ rcount (cons_r c) (cons_e c);
  ck_full : rcount (cons_r c) (cons_e c) ≤ INPUT_BUF;
  ck_line : Forall (λ x, x ≠ 10) (typed c)
}.

(** The line discipline: what a character does to both *)
Definition edit (c : Z) (l : list Z * list Z) : list Z * list Z :=
  let '(ready, typed) := l in
  if c =? Ctrl 85 then (ready, [])
  else if (c =? Ctrl 72) || (c =? 127) then (ready, removelast typed)
  else if (c =? 0) || (INPUT_BUF <=? Z.of_nat (length (ready ++ typed))) then l
  else
    let c := if c =? 13 then 10 else c in
    let typed := typed ++ [c] in
    if (c =? 10) || (c =? Ctrl 68) || (Z.of_nat (length (ready ++ typed)) =? INPUT_BUF) then (ready ++ typed, [])
    else (ready, typed).

(** and what is echoed *)
Definition echo (c : Z) (l : list Z * list Z) : list Z :=
  let '(ready, typed) := l in
  if c =? Ctrl 85 then concat (map (λ _, erase) typed)
  else if (c =? Ctrl 72) || (c =? 127) then (if decide (typed = []) then [] else erase)
  else if (c =? 0) || (INPUT_BUF <=? Z.of_nat (length (ready ++ typed))) then []
  else [if c =? 13 then 10 else c].

Lemma INPUT_BUF_div : (INPUT_BUF | 2 ^ 32).
Proof. by exists 33554432. Qed.
#[local] Hint Resolve INPUT_BUF_div : kern.

Lemma input_length c : cons_ok c → Z.of_nat (length (ready c ++ typed c)) = rcount (cons_r c) (cons_e c).
Proof.
  intros Hc. unfold ready, typed. rewrite <- ring_app by (auto with kern; apply Hc || done).
  rewrite ring_length, Z2Nat.id; [done|apply rcount_range].
Qed.

Lemma typed_length c : Z.of_nat (length (typed c)) = rcount (cons_w c) (cons_e c).
Proof. unfold typed. rewrite ring_length, Z2Nat.id; [done|apply rcount_range]. Qed.

Lemma typed_empty c : cons_ok c → (cons_e c =? cons_w c) = bool_decide (typed c = []).
Proof.
  intros [_ Hw He _ _ _]. destruct (Z.eqb_spec (cons_e c) (cons_w c)) as [E|E].
  - symmetry. apply bool_decide_eq_true. unfold typed. rewrite E. apply ring_empty. unfold rcount, u32. zdm.
  - symmetry. apply bool_decide_eq_false. intros Ht. apply (f_equal (λ l, Z.of_nat (length l))) in Ht.
    rewrite typed_length in Ht. cbn in Ht. apply E. unfold rcount, u32 in Ht. zdm.
Qed.

(** cons.e-- *)
Definition untype (c : cons) : cons := set_conse (u32 (cons_e c - 1)) c.

Lemma untype_ok c : cons_ok c → typed c ≠ [] →
  cons_ok (untype c) ∧ ready (untype c) = ready c ∧
  typed c = typed (untype c) ++ [cons_buf c (u32 (cons_e c - 1) mod INPUT_BUF)].
Proof.
  intros Hc Hne. pose proof Hc as [Hr Hw He Hwe Hf Hl].
  assert (Hpos : 0 < rcount (cons_w c) (cons_e c)).
  { rewrite <- typed_length. destruct (typed c); [done|cbn; lia]. }
  assert (Ht : typed c = typed (untype c) ++ [cons_buf c (u32 (cons_e c - 1) mod INPUT_BUF)])
    by (apply ring_last; auto with kern; done).
  assert (H1 : rcount (cons_r c) (u32 (cons_e c - 1)) = rcount (cons_r c) (cons_e c) - 1).
  { unfold rcount, u32 in *. zdm. }
  split; [|done]. split; [done|done|apply u32_range| | |].
  - change (rcount (cons_r c) (cons_w c) ≤ rcount (cons_r c) (u32 (cons_e c - 1))). rewrite H1.
    unfold rcount, u32 in *. zdm.
  - change (rcount (cons_r c) (u32 (cons_e c - 1)) ≤ INPUT_BUF). lia.
  - rewrite Ht in Hl. by apply Forall_app in Hl as [? _].
Qed.

(** cons.buf[cons.e++ % INPUT_BUF] = v *)
Definition type_char (v : Z) (c : cons) : cons :=
  set_conse (u32 (cons_e c + 1)) (set_consbuf (upd (cons_buf c) (cons_e c mod INPUT_BUF) v) c).

(** The line discipline's invariant but for the newlines *)
Lemma type_char_ok v c : cons_ok c → rcount (cons_r c) (cons_e c) < INPUT_BUF →
  ready (type_char v c) = ready c ∧ typed (type_char v c) = typed c ++ [v] ∧
  rcount (cons_r c) (u32 (cons_e c + 1)) = rcount (cons_r c) (cons_e c) + 1.
Proof.
  intros [Hr Hw He Hwe Hf Hl] Hroom. assert (Hs : rcount (cons_r c) (cons_e c) < 2 ^ 32 - 1) by (unfold INPUT_BUF in *; lia).
  destruct (ring_push_split INPUT_BUF ltac:(done) INPUT_BUF_div (cons_buf c) (cons_r c) (cons_w c) (cons_e c) v Hwe Hroom Hs) as [H1 H2].
  split; [exact H1|]. split; [exact H2|]. by apply rcount_step.
Qed.

Lemma type_char_keeps v c : cons_ok c → rcount (cons_r c) (cons_e c) < INPUT_BUF → v ≠ 10 → cons_ok (type_char v c).
Proof.
  intros Hc Hroom Hv. destruct (type_char_ok v c Hc Hroom) as (_ & Ht & Hn). destruct Hc as [Hr Hw He Hwe Hf Hl].
  split; [done|done|apply u32_range| | |].
  - change (rcount (cons_r c) (cons_w c) ≤ rcount (cons_r c) (u32 (cons_e c + 1))). lia.
  - change (rcount (cons_r c) (u32 (cons_e c + 1)) ≤ INPUT_BUF). lia.
  - rewrite Ht. apply Forall_app. split; [done|]. by constructor.
Qed.

(** cons.w = cons.e *)
Lemma commit_ok c : 0 ≤ cons_r c < 2 ^ 32 → 0 ≤ cons_e c < 2 ^ 32 →
  rcount (cons_r c) (cons_w c) ≤ rcount (cons_r c) (cons_e c) → rcount (cons_r c) (cons_e c) ≤ INPUT_BUF →
  let c' := set_consw (cons_e c) c in
  cons_ok c' ∧ ready c' = ready c ++ typed c ∧ typed c' = [].
Proof.
  intros Hr He Hwe Hf c'. assert (Ht : typed c' = []) by (apply ring_empty; unfold rcount; cbn; by rewrite Z.sub_diag).
  split; [|split; [|done]].
  - split; [done..| |done|]; [cbn; lia|]. rewrite Ht. constructor.
  - apply ring_app; auto with kern; done.
Qed.

(** ** consoleintr() *)
Section intr.
Context {P U : Type} `{SchedOk P} `{!Caller P} `{!UserMem P} `{ChipOk U} `{!Procs P}.
Abbreviation st := (P * cst U)%type.

Definition input (s : cst U) : list Z * list Z := (ready (c_cons s), typed (c_cons s)).

(** The console after [l'] has become its input and [cs] was echoed *)
Record edited (l' : list Z * list Z) (cs : list Z) (s s' : cst U) : Prop := {
  ed_ok : cons_ok (c_cons s');
  ed_input : input s' = l';
  ed_lock : cons_lock (c_cons s') = cons_lock (c_cons s);
  ed_echo : synced cs (c_uart s) (c_uart s')
}.

Lemma edited_same s : cons_ok (c_cons s) → edited (input s) [] s s.
Proof. intros Hc. split; [done|done|done|apply synced_nil]. Qed.

Lemma edited_none s : cons_ok (c_cons s) → typed (c_cons s) = [] → edited (ready (c_cons s), []) [] s s.
Proof. intros Hc Ht. rewrite <- Ht at 1. by apply edited_same. Qed.

(** A change of the input and then some output *)
Lemma edited_echo cs s c' s' :
  echoed cs (set_cons c' s) s' → cons_ok c' → cons_lock c' = cons_lock (c_cons s) →
  edited (ready c', typed c') cs s s'.
Proof.
  intros [E Hs] Hc Hl. assert (E' : c_cons s' = c_cons (set_cons c' s)) by (rewrite E; done). cbn in E', Hs.
  split; [by rewrite E'|unfold input; by rewrite E'|by rewrite E'|done].
Qed.

Lemma wp_kill_line fuel k q s (Q : unit → st → Prop) :
  so_inv q → um_ok q → settled q → panicked (c_uart s) = 0 → prompt U fuel → cons_ok (c_cons s) →
  (length (typed (c_cons s)) ≤ k)%nat →
  (∀ q' s', kept q q' → edited (ready (c_cons s), []) (concat (map (λ _, erase) (typed (c_cons s)))) s s' → Q () (q', s')) →
  wp (kill_line fuel k) Q (q, s).
Proof.
  revert q s. induction k as [|k IH]; intros q s Hq Ho Hs Hp Hpr Hc Hk HQ; cbn [kill_line];
    apply wp_bind, wp_gets; cbn [snd]; rewrite typed_empty by done; case_bool_decide as Ht; cbn [negb andb];
    try (apply wp_ret, HQ; [by apply kept_refl|rewrite Ht; by apply edited_none]).
  { destruct (typed (c_cons s)); [done|cbn in Hk; lia]. }
  destruct (untype_ok _ Hc Ht) as (Hc1 & Hr1 & Ht1).
  destruct (Z.eqb_spec (cons_buf (c_cons s) (u32 (cons_e (c_cons s) - 1) mod INPUT_BUF)) 10) as [E|E].
  { exfalso. pose proof (ck_line _ Hc) as Hl. rewrite Ht1, E in Hl. apply Forall_app in Hl as [_ Hl]. by inversion Hl. }
  cbn [negb]. apply wp_bind, wp_modify. fold (untype (c_cons s)). apply wp_bind, wp_consputc; try done.
  intros q1 s1 K1 E1. change (BACKSPACE =? BACKSPACE) with true in E1. cbv iota in E1.
  assert (Es1 : c_cons s1 = untype (c_cons s)) by (rewrite (ec_rest _ _ _ E1); done).
  assert (Hlen : length (typed (c_cons s)) = S (length (typed (untype (c_cons s)))))
    by (rewrite Ht1, length_app; cbn; lia).
  apply IH; try done.
  - apply K1.
  - by apply K1.
  - by eapply kept_settled.
  - rewrite (sy_rest _ _ _ (ec_uart _ _ _ E1)). done.
  - by rewrite Es1.
  - rewrite Es1. lia.
  - intros q2 s2 K2 [D1 D2 D3 D4]. apply HQ; [by eapply kept_trans|]. rewrite Es1 in *. split; [done|by rewrite D2, Hr1|by rewrite D3|].
    pose proof (synced_trans _ _ _ _ _ (ec_uart _ _ _ E1) D4) as Hsy. cbn [c_uart set_cons] in Hsy.
    rewrite Ht1, map_app, concat_app. cbn [map concat]. rewrite app_nil_r.
    assert (Hcm : ∀ l : list Z, erase ++ concat (map (λ _, erase) l) = concat (map (λ _, erase) l) ++ erase).
    { induction l as [|x l IHl]; [done|]. cbn [map concat]. by rewrite <- app_assoc, <- IHl. }
    by rewrite <- Hcm.
Qed.

Lemma wp_intr_erase fuel q s (Q : unit → st → Prop) :
  so_inv q → um_ok q → settled q → panicked (c_uart s) = 0 → prompt U fuel → cons_ok (c_cons s) →
  (∀ q' s', kept q q' → edited (ready (c_cons s), removelast (typed (c_cons s)))
     (if decide (typed (c_cons s) = []) then [] else erase) s s' → Q () (q', s')) →
  wp (x ← getc;
      when_ (negb (cons_e x =? cons_w x))
        (putcn (set_conse (u32 (cons_e x - 1)));; consputc fuel BACKSPACE)) Q (q, s).
Proof.
  intros Hq Ho Hs Hp Hpr Hc HQ. apply wp_bind, wp_gets. cbn [snd]. rewrite typed_empty by done. apply wp_when.
  - intros Ht%negb_true_iff%bool_decide_eq_false. destruct (untype_ok _ Hc Ht) as (Hc1 & Hr1 & Ht1).
    apply wp_bind, wp_modify. fold (untype (c_cons s)). apply wp_consputc; try done. intros q1 s1 K1 E1.
    apply HQ; [done|]. rewrite decide_False by done. rewrite Ht1, removelast_last, <- Hr1. by apply edited_echo.
  - intros Ht%negb_false_iff%bool_decide_eq_true. apply HQ; [by apply kept_refl|].
    rewrite decide_True, Ht by done. by apply edited_none.
Qed.

Lemma full_input_test c : cons_ok c → (cons_e c =? u32 (cons_r c + INPUT_BUF)) = (rcount (cons_r c) (cons_e c) =? INPUT_BUF).
Proof.
  intros [Hr _ He _ _ _]. unfold rcount, u32, INPUT_BUF.
  destruct (Z.eqb_spec (cons_e c) ((cons_r c + 128) mod 2 ^ 32)), (Z.eqb_spec ((cons_e c - cons_r c) mod 2 ^ 32) 128); zdm.
Qed.

(** An ordinary character *)
Lemma wp_intr_char fuel c q s (Q : unit → st → Prop) :
  so_inv q → um_ok q → settled q → panicked (c_uart s) = 0 → prompt U fuel → cons_ok (c_cons s) → 0 ≤ c < 256 →
  let ignored := (c =? 0) || (INPUT_BUF <=? rcount (cons_r (c_cons s)) (cons_e (c_cons s))) in
  let c' := if c =? 13 then 10 else c in
  let typed' := typed (c_cons s) ++ [c'] in
  (∀ q' s', kept q q' →
     edited (if ignored then input s
             else if (c' =? 10) || (c' =? Ctrl 68) || (rcount (cons_r (c_cons s)) (cons_e (c_cons s)) + 1 =? INPUT_BUF)
             then (ready (c_cons s) ++ typed', []) else (ready (c_cons s), typed'))
            (if ignored then [] else [c']) s s' → Q () (q', s')) →
  wp (x ← getc;
      when_ (negb (c =? 0) && (u32 (cons_e x - cons_r x) <? INPUT_BUF))
        (let c := if c =? 13 then 10 else c in
         consputc fuel c;;
         putcn (set_consbuf (upd (cons_buf x) (cons_e x mod INPUT_BUF) (u8 c)));;
         putcn (set_conse (u32 (cons_e x + 1)));;
         x ← getc;
         when_ ((c =? 10) || (c =? Ctrl 68) || (cons_e x =? u32 (cons_r x + INPUT_BUF)))
           (putcn (λ x, set_consw (cons_e x) x);;
            on_sched (sc_wakeup CCons)))) Q (q, s).
Proof.
  intros Hq Ho Hs Hp Hpr Hc Hb ignored c' typed' HQ. apply wp_bind, wp_gets. cbn [snd].
  assert (Hig : negb (c =? 0) && (u32 (cons_e (c_cons s) - cons_r (c_cons s)) <? INPUT_BUF) = negb ignored).
  { unfold ignored. rewrite negb_orb. f_equal. fold (rcount (cons_r (c_cons s)) (cons_e (c_cons s))).
    destruct (Z.ltb_spec (rcount (cons_r (c_cons s)) (cons_e (c_cons s))) INPUT_BUF), (Z.leb_spec INPUT_BUF (rcount (cons_r (c_cons s)) (cons_e (c_cons s)))); done || lia. }
  rewrite Hig. apply wp_when; intros Hi.
  2:{ apply negb_false_iff in Hi. apply HQ; [by apply kept_refl|]. rewrite Hi. by apply edited_same. }
  apply negb_true_iff in Hi. rewrite Hi in HQ. cbv zeta. fold c'.
  assert (Hroom : rcount (cons_r (c_cons s)) (cons_e (c_cons s)) < INPUT_BUF) by (apply orb_false_iff in Hi as [_ Hi]; lia).
  assert (Hc' : 0 ≤ c' < 256) by (unfold c'; destruct (c =? 13); lia).
  assert (Hu8 : u8 c' = c') by (apply Z.mod_small; lia).
  apply wp_bind, wp_consputc; try done. intros q1 s1 K1 E1.
  destruct (Z.eqb_spec c' BACKSPACE) as [E|_]; [unfold BACKSPACE in E; lia|]. rewrite Hu8 in E1.
  assert (Es1 : c_cons s1 = c_cons s) by (rewrite (ec_rest _ _ _ E1); done).
  apply wp_bind, wp_modify, wp_bind, wp_modify, wp_bind, wp_gets. cbn [snd c_cons set_cons]. rewrite Es1, Hu8.
  change (set_conse _ (set_consbuf _ _)) with (type_char c' (c_cons s)). set (s2 := set_cons (type_char c' (c_cons s)) _).
  destruct (type_char_ok c' _ Hc Hroom) as (Hr2 & Ht2 & Hn2).
  assert (Hfull : (cons_e (type_char c' (c_cons s)) =? u32 (cons_r (type_char c' (c_cons s)) + INPUT_BUF)) =
                  (rcount (cons_r (c_cons s)) (cons_e (c_cons s)) + 1 =? INPUT_BUF)).
  { rewrite <- Hn2. unfold type_char. cbn [cons_e cons_r set_conse set_consbuf]. unfold rcount. pose proof (ck_r _ Hc).
    unfold u32, INPUT_BUF. destruct (Z.eqb_spec ((cons_e (c_cons s) + 1) mod 2 ^ 32) ((cons_r (c_cons s) + 128) mod 2 ^ 32)),
      (Z.eqb_spec (((cons_e (c_cons s) + 1) mod 2 ^ 32 - cons_r (c_cons s)) mod 2 ^ 32) 128); zdm. }
  rewrite Hfull. apply wp_when; intros Hcom; rewrite Hcom in HQ.
  - apply wp_bind, wp_modify, wp_on_sched, kept_wakeup; [apply K1|by apply K1|by eapply kept_settled|].
    intros q3 K3. apply HQ; [by eapply kept_trans|].
    destruct (commit_ok (type_char c' (c_cons s))) as (Hok & Hrd & Htd); try apply Hc; try apply u32_range.
    { change (rcount (cons_r (c_cons s)) (cons_w (c_cons s)) ≤ rcount (cons_r (c_cons s)) (u32 (cons_e (c_cons s) + 1))). pose proof (ck_we _ Hc). lia. }
    { change (rcount (cons_r (c_cons s)) (u32 (cons_e (c_cons s) + 1)) ≤ INPUT_BUF). lia. }
    split; [exact Hok| |done|apply E1].
    unfold input. cbn [c_cons set_cons s2]. by rewrite Hrd, Htd, Hr2, Ht2.
  - apply HQ; [done|]. assert (Hne : c' ≠ 10) by (intros E; rewrite E in Hcom; discriminate).
    split; [by apply type_char_keeps| |done|apply E1]. unfold input. cbn [c_cons set_cons s2]. by rewrite Hr2, Ht2.
Qed.

Lemma wp_intr_body fuel c q s (Q : unit → st → Prop) :
  so_inv q → um_ok q → settled q → panicked (c_uart s) = 0 → prompt U fuel → cons_ok (c_cons s) → 0 ≤ c < 256 → c ≠ Ctrl 80 →
  (∀ q' s', kept q q' → edited (edit c (input s)) (echo c (input s)) s s' → Q () (q', s')) →
  wp (intr_body fuel c) Q (q, s).
Proof.
  intros Hq Ho Hs Hp Hpr Hc Hb HP HQ. unfold intr_body.
  destruct (Z.eqb_spec c (Ctrl 80)) as [|_]; [done|]. pose proof (input_length _ Hc) as Hlen.
  unfold edit, echo, input in HQ. destruct (c =? Ctrl 85).
  { apply wp_kill_line; try done. rewrite <- (Nat2Z.id (length _)). apply Z2Nat.inj_le; [lia|done|].
    rewrite length_app in Hlen. pose proof (ck_full _ Hc). lia. }
  destruct ((c =? Ctrl 72) || (c =? 127)); [by apply wp_intr_erase|].
  apply wp_intr_char; try done. intros q' s' K E. apply HQ; [done|].
  set (c' := if c =? 13 then 10 else c) in *.
  replace (Z.of_nat (length (ready (c_cons s) ++ typed (c_cons s) ++ [c'])))
    with (rcount (cons_r (c_cons s)) (cons_e (c_cons s)) + 1)
    by (rewrite app_assoc, (length_app (_ ++ _)), Nat2Z.inj_add, Hlen; done).
  rewrite Hlen. exact E.
Qed.

(** What an interrupt leaves of the thread it interrupted *)
Record undisturbed (p p' : P) : Prop := {
  un_inv : so_inv p';
  un_hart : lget sc_hart p' = settle (lget sc_hart p);
  un_id : so_id p' = so_id p;
  un_kill : so_kill p' = so_kill p;
  un_mem : um_ok p' ∧ um_byte p' = um_byte p
}.

Lemma undisturbed_leave p q : so_inv p → um_ok p → kept (enter p) q → undisturbed p (lset sc_hart (settle (lget sc_hart p)) q).
Proof.
  intros Hp Ho [K1 K2 K3 K4 K5]. destruct (enter_inv p Hp Ho) as (_ & _ & Ho' & Hb' & Hh'). destruct (K5 Ho') as [Ho2 Hb2].
  destruct (um_hart q (settle (lget sc_hart p)) Ho2) as [Ho3 Hb3].
  split; [|by rewrite so_get_set|rewrite so_set_id, K3; apply so_set_id|rewrite so_set_kill, K4; apply so_set_kill|].
  - apply so_set_inv; [done|apply settle_ok; by apply so_hart_ok|]. by rewrite K2, Hh', tp_settle, tp_push_off.
  - split; [done|congruence].
Qed.

(** C25: consoleintr() is the line discipline. For every character but Control-P (which lists the
    processes), with the input buffer in order and the locks free, it returns and does to the input exactly what the
    specification says: Control-U drops the line being typed, backspace its last character, another
    character is added to it unless the buffer is full, and a newline, Control-D or a full buffer hands the line to
    consoleread(); what is echoed goes to the UART; the buffer is in order again and the
    interrupted thread is as it was. *)
Theorem consoleintr_refines fuel (c : Z) (p : P) (s : cst U) :
  so_inv p → um_ok p → cons_ok (c_cons s) → lock_free (cons_lock (c_cons s)) → panicked (c_uart s) = 0 → prompt U fuel →
  0 ≤ c < 256 → c ≠ Ctrl 80 →
  ∃ p' s', consoleintr fuel c (p, s) = Ret () (p', s') ∧ undisturbed p p' ∧
    edited (edit c (input s)) (echo c (input s)) s s'.
Proof.
  intros Hp Ho Hc Hl Hpa Hpr Hb HP. destruct (enter_inv p Hp Ho) as (Hq & Hs & Ho' & _ & Hh').
  destruct (wp_elim (consoleintr fuel c) (λ _ '(p', s'), undisturbed p p' ∧ edited (edit c (input s)) (echo c (input s)) s s') (p, s))
    as ([] & [p' s'] & E & HQ); [|by exists p', s'].
  unfold consoleintr. apply wp_bind, wp_zoom. cbn [lk_of cst_locked]. eapply wp_intro; [by apply acq_eq|].
  fold (enter p). set (lk := take_lock (push_off (lget sc_hart p)) (cons_lock (c_cons s))). cbn [with_lk cst_locked].
  apply wp_bind, wp_intr_body; try done; [destruct Hc; by split|]. intros q1 s1 K1 [D1 D2 D3 D4].
  apply wp_zoom. cbn [lk_of cst_locked]. rewrite D3. cbn [c_cons set_cons set_conslock cons_lock].
  eapply wp_intro; [apply (rel_eq q1 (lget sc_hart p)); [by apply so_hart_ok|by rewrite (kp_hart _ _ K1)|apply take_lock_held]|].
  split; [by apply undisturbed_leave|]. split; [destruct D1; by split|exact D2| |exact D4].
  exact (take_lock_released (push_off (lget sc_hart p)) (cons_lock (c_cons s)) Hl).
Qed.
End intr.

(** ** consoleread() *)

(** cons.r++ *)
Lemma take_char_ok c : cons_ok c → 0 < rcount (cons_r c) (cons_w c) →
  let c' := set_consr (u32 (cons_r c + 1)) c in
  cons_ok c' ∧ ready c = cons_buf c (cons_r c mod INPUT_BUF) :: ready c' ∧ typed c' = typed c.
Proof.
  intros [Hr Hw He Hwe Hf Hl] Hsome c'. split; [|split; [apply (ring_pop INPUT_BUF); auto with kern; done|done]].
  split; [apply u32_range|done|done| | |done].
  - change (rcount (u32 (cons_r c + 1)) (cons_w c) ≤ rcount (u32 (cons_r c + 1)) (cons_e c)).
    rewrite !rcount_next by lia. lia.
  - change (rcount (u32 (cons_r c + 1)) (cons_e c) ≤ INPUT_BUF). rewrite rcount_next by lia. lia.
Qed.

Lemma ready_empty c : cons_ok c → (cons_r c =? cons_w c) = (rcount (cons_r c) (cons_w c) =? 0).
Proof.
  intros [Hr Hw _ _ _ _]. unfold rcount, u32.
  destruct (Z.eqb_spec (cons_r c) (cons_w c)), (Z.eqb_spec ((cons_w c - cons_r c) mod 2 ^ 32) 0); zdm.
Qed.

Section read.
Context {P U : Type} `{SchedOk P} `{!Caller P} `{!UserMem P} `{!Chip U}.
Abbreviation st := (P * cst U)%type.

Definition input_ok (s : cst U) : Prop := cons_ok (c_cons s).

(** Characters taken from the front of the input that is ready *)
Definition takes (s : cst U) (bs : list Z) (s' : cst U) : Prop :=
  ready (c_cons s) = bs ++ ready (c_cons s') ∧ typed (c_cons s') = typed (c_cons s).

Lemma takes_plain : plain input_ok takes.
Proof. split; [intros s lk [? ? ? ? ? ?]; by split|by intros s lk|done]. Qed.

Lemma serves_wait s0 f n fuel tr bs q s (Q : list (st * st) → bool → st → Prop) :
  turn input_ok takes s0 f tr bs q s → (n ≤ fuel + length tr)%nat →
  (∀ tr' q' s', turn input_ok takes s0 f tr' bs q' s' → 0 < rcount (cons_r (c_cons s')) (cons_w (c_cons s')) → Q tr' true (q', s')) →
  (∀ tr' p' s', done_with input_ok takes s0 f tr' bs p' s' → so_kill p' = true → Q tr' false (p', s')) →
  serves (others input_ok) n Q tr (consoleread_wait fuel (q, s)).
Proof.
  intros Ht Hn HQt HQf. revert tr q s Ht Hn.
  induction fuel as [|fuel IH]; intros tr q s Ht Hn; cbn [consoleread_wait]; apply serves_step, wp_gets; cbn [snd];
    rewrite ready_empty by apply Ht;
    (destruct (Z.eqb_spec (rcount (cons_r (c_cons s)) (cons_w (c_cons s))) 0) as [Hem|Hsome];
     [|apply HQt; [done|]; pose proof (rcount_range (cons_r (c_cons s)) (cons_w (c_cons s))); lia]);
    apply serves_step; (eapply wp_turn_killed; [done|]);
    (destruct (so_kill q) eqn:Hk;
     [apply serves_step; eapply (wp_give input_ok takes takes_plain); [done|]; intros p lk Hdw Hkp;
      apply HQf; [done|congruence]|]).
  - cbn [serves no_fuel]. lia.
  - eapply (serves_sleep input_ok takes takes_plain); [done|]. intros tr' q2 s2 Hlen Ht2. apply IH; [done|lia].
Qed.

(** What consoleread() has done when it returns: [bs] are the characters it took. *)
Record read_line (s0 : cst U) (f : Z → option Z) (dst n : Z) (tr : list (st * st)) (r : Z) (s : st) : Prop := {
  rl_killed : r < 0 → r = -1 ∧ so_kill (fst s) = true ∧
    ∃ bs, done_with input_ok takes s0 (with_bytes f dst bs) tr bs (fst s) (snd s) ∧
      Z.of_nat (length bs) < n ∧ Forall (λ x, x ≠ 10 ∧ x ≠ Ctrl 68) bs;
  rl_bytes : 0 ≤ r → r ≤ Z.max 0 n ∧ accessible f dst r ∧ ∃ bs,
    done_with input_ok takes s0 (with_bytes f dst (take (Z.to_nat r) bs)) tr bs (fst s) (snd s) ∧
    Forall (λ x, x ≠ 10 ∧ x ≠ Ctrl 68) (removelast bs) ∧
    ((Z.of_nat (length bs) = r ∧ last bs ≠ Some (Ctrl 68) ∧
      (r = Z.max 0 n ∨ last bs = Some 10 ∨ (0 < r ∧ ready (c_cons (snd s)) !! 0%nat = Some (Ctrl 68)))) ∨
     (r = 0 ∧ bs = [Ctrl 68]) ∨
     (Z.of_nat (length bs) = r + 1 ∧ f (dst + r) = None))
}.

(** Why the loop of consoleread() ends with [rest] of the [n] bytes not read *)
Inductive line_end (f : Z → option Z) (dst n : Z) (s : cst U) : list Z → Z → Prop :=
| le_all bs : Z.of_nat (length bs) = n → Forall (λ x, x ≠ 10 ∧ x ≠ Ctrl 68) bs → line_end f dst n s bs 0
| le_newline bs : Z.of_nat (length bs) < n → Forall (λ x, x ≠ 10 ∧ x ≠ Ctrl 68) bs →
    is_Some (f (dst + Z.of_nat (length bs))) →
    line_end f dst n s (bs ++ [10]) (n - Z.of_nat (length bs) - 1)
| le_eof bs : (0 < length bs)%nat → Z.of_nat (length bs) < n → Forall (λ x, x ≠ 10 ∧ x ≠ Ctrl 68) bs →
    ready (c_cons s) !! 0%nat = Some (Ctrl 68) → line_end f dst n s bs (n - Z.of_nat (length bs))
| le_eof0 : line_end f dst n s [Ctrl 68] n
| le_fault bs x : Z.of_nat (length bs) < n → Forall (λ x, x ≠ 10 ∧ x ≠ Ctrl 68) bs → x ≠ Ctrl 68 →
    f (dst + Z.of_nat (length bs)) = None → line_end f dst n s (bs ++ [x]) (n - Z.of_nat (length bs)).

Lemma serves_read_line s0 f m dst n k fuel tr bs q s (Q : list (st * st) → option Z → st → Prop) :
  turn input_ok takes s0 (with_bytes f dst bs) tr bs q s → (m ≤ fuel)%nat → 0 ≤ dst → accessible f dst (Z.of_nat (length bs)) →
  n < 2 ^ 31 → Z.of_nat (length bs) + Z.of_nat k = n → dst + n < 2 ^ 64 → Forall (λ x, x ≠ 10 ∧ x ≠ Ctrl 68) bs →
  (∀ tr' q' s' bs' rest, turn input_ok takes s0 (with_bytes f dst (take (Z.to_nat (n - rest)) bs')) tr' bs' q' s' →
     0 ≤ rest ≤ n → accessible f dst (n - rest) → line_end f dst n s' bs' rest → Q tr' (Some rest) (q', s')) →
  (∀ tr' p' s' bs', done_with input_ok takes s0 (with_bytes f dst bs') tr' bs' p' s' → Z.of_nat (length bs') < n →
     Forall (λ x, x ≠ 10 ∧ x ≠ Ctrl 68) bs' → so_kill p' = true → Q tr' None (p', s')) →
  serves (others input_ok) m Q tr (consoleread_loop fuel k (dst + Z.of_nat (length bs)) (u32 n) (q, s)).
Proof.
  revert tr bs q s. induction k as [|k IH]; intros tr bs q s Ht Hm Ha Hacc Hn Hk Hsum Hall HQ1 HQ0; cbn [consoleread_loop].
  { apply (HQ1 _ _ _ bs 0); [|lia| |by constructor; [lia|]].
    - by rewrite take_ge by lia.
    - by replace (n - 0) with (Z.of_nat (length bs)) by lia. }
  apply serves_bind. eapply serves_wait; [done|lia| |].
  2:{ intros tr' p' s' Hdw Hkill. cbn [negb]. apply (HQ0 _ _ _ bs); [done|lia|done|done]. }
  intros tr' q1 s1 Ht1 Hsome. cbn [negb]. apply serves_step, wp_gets. cbn [snd].
  set (x := cons_buf (c_cons s1) (cons_r (c_cons s1) mod INPUT_BUF)). cbv zeta.
  destruct (take_char_ok (c_cons s1) (tu_inv _ _ _ _ _ _ _ _ Ht1) Hsome) as (Hok & Hrd & Hty). fold x in Hrd.
  set (s2 := set_cons (set_consr (u32 (cons_r (c_cons s1) + 1)) (c_cons s1)) s1).
  assert (Ht2 : turn input_ok takes s0 (with_bytes f dst bs) tr' (bs ++ [x]) q1 s2) by by eapply turn_step.
  apply serves_step, wp_modify. fold s2. destruct (Z.eqb_spec x (Ctrl 68)) as [Ex|Ex].
  - (* Control-D *)
    rewrite u32_small by lia. destruct (Z.ltb_spec (Z.of_nat (S k)) (u32 n)) as [Hlt|Hge]; cbn [when_].
    + apply serves_step, wp_modify. cbn [fst snd]. set (s3 := set_cons _ s2).
      assert (E3 : s3 = s1).
      { unfold s3, s2. destruct s1 as [u pl pk [lk bf r w e]]. cbn. unfold set_cons, set_consr. cbn. do 2 f_equal.
        destruct (ck_r _ (tu_inv _ _ _ _ _ _ _ _ Ht1)). cbn in *. unfold u32. zdm. }
      rewrite E3. rewrite u32_small in Hlt by lia.
      replace (Z.of_nat (S k)) with (n - Z.of_nat (length bs)) by lia.
      apply (HQ1 _ _ _ bs); [|lia| |].
      * by rewrite take_ge by lia.
      * by replace (n - (n - Z.of_nat (length bs))) with (Z.of_nat (length bs)) by lia.
      * apply le_eof; [lia|lia|done|]. by rewrite Hrd, Ex.
    + rewrite u32_small in Hge by lia. assert (bs = []) as -> by (destruct bs; [done|cbn in Hk; lia]).
      cbn [length app] in *. replace (Z.of_nat (S k)) with n by lia. rewrite Ex in Ht2.
      apply (HQ1 _ _ _ [Ctrl 68]); [|lia| |by constructor].
      * by rewrite Z.sub_diag.
      * intros i Hi. lia.
  - apply serves_step. eapply wp_turn_copyout; [exact Ht2|lia| |].
    2:{ intros q' Ht' _ Hnone. change (-1 =? -1) with true. cbv iota. apply with_bytes_none in Hnone; [|done].
        replace (Z.of_nat (S k)) with (n - Z.of_nat (length bs)) by lia. apply (HQ1 _ _ _ (bs ++ [x])); [|lia| |].
        - rewrite take_app_length' by lia. done.
        - by replace (n - (n - Z.of_nat (length bs))) with (Z.of_nat (length bs)) by lia.
        - apply le_fault; [lia|done|done|done]. }
    intros q' Ht' _ Hs. change (0 =? -1) with false. cbv iota. rewrite with_bytes_app in Ht'.
    assert (Hs' : is_Some (f (dst + Z.of_nat (length bs)))).
    { destruct (f (dst + Z.of_nat (length bs))) eqn:E; [by eexists|]. apply (with_bytes_none f dst bs) in E; [|done].
      rewrite E in Hs. by destruct Hs. }
    assert (Hlen : length (bs ++ [x]) = S (length bs)) by (rewrite length_app; cbn; lia).
    pose proof (accessible_snoc f dst bs Hacc Hs') as Hacc'.
    destruct (Z.eqb_spec x 10) as [E10|E10].
    + rewrite E10 in *. replace (Z.of_nat k) with (n - Z.of_nat (length bs) - 1) by lia. apply (HQ1 _ _ _ (bs ++ [10])); [|lia| |].
      * by rewrite take_ge by lia.
      * by replace (n - (n - Z.of_nat (length bs) - 1)) with (Z.of_nat (length bs) + 1) by lia.
      * apply le_newline; [lia|done|done].
    + rewrite u64_small by lia. replace (dst + Z.of_nat (length bs) + 1) with (dst + Z.of_nat (length (bs ++ [x]))) by lia.
      apply IH; try done.
      * rewrite Hlen. by replace (Z.of_nat (S (length bs))) with (Z.of_nat (length bs) + 1) by lia.
      * lia.
      * apply Forall_app. split; [done|]. by constructor.
Qed.

Lemma removelast_Forall {A} (Pr : A → Prop) l : Forall Pr l → Forall Pr (removelast l).
Proof.
  intros Hl. induction l as [|x l IH]; [done|]. apply Forall_cons in Hl as [Hx Hl]. destruct l; [constructor|].
  change (removelast (x :: a :: l)) with (x :: removelast (a :: l)). constructor; [done|by apply IH].
Qed.

Lemma last_Forall {A} (Pr : A → Prop) l x : Forall Pr l → last l = Some x → Pr x.
Proof. rewrite Forall_forall. intros Hl Hx. apply Hl. by apply last_Some_elem_of. Qed.

(** How the loop ended, as the caller sees it: [n - rest] is what consoleread() returns. *)
Lemma line_end_post f dst n s bs rest :
  0 ≤ n → 0 ≤ rest ≤ n → line_end f dst n s bs rest → let r := n - rest in
  Forall (λ x, x ≠ 10 ∧ x ≠ Ctrl 68) (removelast bs) ∧
  ((Z.of_nat (length bs) = r ∧ last bs ≠ Some (Ctrl 68) ∧
    (r = Z.max 0 n ∨ last bs = Some 10 ∨ (0 < r ∧ ready (c_cons s) !! 0%nat = Some (Ctrl 68)))) ∨
   (r = 0 ∧ bs = [Ctrl 68]) ∨
   (Z.of_nat (length bs) = r + 1 ∧ f (dst + r) = None)).
Proof.
  intros Hn Hrest Hle r. unfold r. destruct Hle as [bs Hl Hf|bs Hl Hf Hs|bs Hp Hl Hf Hh| |bs x Hl Hf Hx Hno].
  - split; [by apply removelast_Forall|]. left. split; [lia|]. split; [|left; lia].
    intros E. by apply (last_Forall _ _ _ Hf) in E as [_ ?].
  - rewrite removelast_last. split; [done|]. left. rewrite length_app, last_snoc. cbn [length]. split; [lia|].
    split; [done|]. right. by left.
  - split; [by apply removelast_Forall|]. left. split; [lia|]. split; [|right; right; split; [lia|done]].
    intros E. by apply (last_Forall _ _ _ Hf) in E as [_ ?].
  - split; [constructor|]. right. left. split; [lia|done].
  - rewrite removelast_last. split; [done|]. right. right. rewrite length_app. cbn [length]. split; [lia|].
    by replace (dst + (n - (n - Z.of_nat (length bs)))) with (dst + Z.of_nat (length bs)) by lia.
Qed.

(** Consoleread() returns a line. However other threads and interrupts run in between, it only takes characters
    from the front of the input handed over by consoleintr(), and waits while there is none. It
    stores them in the caller's memory from [dst] on, nothing else of which changes, and returns how many: it stops
    after [n] characters, after a newline, before a Control-D (which it takes only as the first
    character: then it returns 0), or at an address that is not the caller's; no character before the last is
    a newline or Control-D. Killed while waiting it returns -1. It never panics, and gives up only after it
    was woken more than [fuel] times. *)
Theorem consoleread_correct fuel dst n (p : P) (s : cst U) :
  so_inv p → noff (lget sc_hart p) = 0 → um_ok p → cons_ok (c_cons s) → lock_free (cons_lock (c_cons s)) →
  0 ≤ dst → - 2 ^ 31 ≤ n < 2 ^ 31 → dst + Z.max 0 n < 2 ^ 64 →
  serves (others input_ok) fuel (read_line s (um_byte p) dst n) [] (consoleread fuel dst n (p, s)).
Proof.
  intros Hp Hn Ho Hc Hl Ha Hn32 Hsum. unfold consoleread. cbv zeta. apply serves_step. set (f := um_byte p).
  eapply (wp_take input_ok takes takes_plain s f [] []); [by apply done_with_start|].
  intros q lk Ht _. apply serves_bind. set (n0 := Z.max 0 n).
  assert (Hloop : consoleread_loop fuel (Z.to_nat n) dst (u32 n) (q, with_lk lk s) =
                  consoleread_loop fuel (Z.to_nat n0) (dst + Z.of_nat (length (@nil Z))) (u32 n0) (q, with_lk lk s)).
  { cbn [length]. rewrite Z.add_0_r. unfold n0. destruct (Z.ltb_spec n 0).
    - replace (Z.to_nat n) with 0%nat by lia. by replace (Z.to_nat (Z.max 0 n)) with 0%nat by lia.
    - by replace (Z.max 0 n) with n by lia. }
  rewrite Hloop. apply (serves_read_line s f fuel dst n0 (Z.to_nat n0) fuel [] [] q (with_lk lk s)); cbn [length]; try done; try lia.
  { by rewrite with_bytes_nil. }
  { intros i Hi. lia. }
  - intros tr q' s' bs rest Ht' Hrest Hacc Hle. apply serves_step. eapply (wp_give input_ok takes takes_plain); [done|].
    intros p2 lk2 Hdw _. assert (Er : s32 (u32 n - (if n <? 0 then n else rest)) = n0 - rest).
    { unfold n0 in *. unfold s32, u32. destruct (Z.ltb_spec n 0); zdm. }
    rewrite Er. split; cbn [fst snd]; [lia|]. intros _. split; [lia|]. split; [done|]. exists bs. split; [done|].
    pose proof (line_end_post f dst n0 s' bs rest ltac:(lia) Hrest Hle) as Hpost. unfold n0 in *.
    replace (Z.max 0 (Z.max 0 n)) with (Z.max 0 n) in Hpost by lia. exact Hpost.
  - intros tr p2 s2 bs Hdw Hlt Hall Hk. split; cbn [fst snd]; [|lia]. intros _. split; [done|]. split; [done|].
    exists bs. split; [done|]. split; [lia|done].
Qed.
End read.

(** ** consolewrite() *)
Section write.
Context {P U : Type} `{SchedOk P} `{!Caller P} `{!UserMem P} `{ChipOk U}.
Abbreviation st := (P * cst U)%type.

(** The driver can take [n] more characters without waiting for the chip. *)
Definition can_put (n : Z) (u : uart U) : Prop :=
  txcount u < UART_TX_BUF_SIZE - 1 ∧ (always_idle U ∨ txcount u + n < UART_TX_BUF_SIZE) ∨ n = 0.

Lemma output_nil (u : uart U) : uart_ok u → output [] u u.
Proof. intros Hu. split; [done|by rewrite app_nil_r|done|done]. Qed.

Lemma set_uart_same (s : cst U) : set_uart (c_uart s) s = s.
Proof. by destruct s. Qed.

Lemma wp_consolewrite_loop fuel k src bs (q : P) s (Q : Z → st → Prop) :
  so_inv q → um_ok q → settled q → uart_ok (c_uart s) → lock_free (uart_tx_lock (c_uart s)) → panicked (c_uart s) = 0 →
  can_put (Z.of_nat k) (c_uart s) → 0 ≤ src → src + Z.of_nat (length bs) + Z.of_nat k ≤ 2 ^ 64 → has_bytes (um_byte q) src bs →
  (∀ q' u' new, kept q q' → output (map u8 new) (c_uart s) u' → has_bytes (um_byte q) src (bs ++ new) → (length new ≤ k)%nat →
     ((length new < k)%nat → um_byte q (src + Z.of_nat (length (bs ++ new))) = None) →
     Q (Z.of_nat (length (bs ++ new))) (q', set_uart u' s)) →
  wp (consolewrite_loop fuel k src (Z.of_nat (length bs))) Q (q, s).
Proof.
  revert bs q s. induction k as [|k IH]; intros bs q s Hq Ho Hs Hu Hl Hp Hroom Ha Hsum Hb HQ; cbn [consolewrite_loop].
  { apply wp_ret. specialize (HQ q (c_uart s) []). rewrite app_nil_r, set_uart_same in HQ.
    apply HQ; [by apply kept_refl|by apply output_nil|done|cbn; lia|cbn; lia]. }
  apply wp_bind, wp_on_sched. rewrite u64_small by lia. apply kept_copyin; [done|done|done|lia| |].
  2:{ intros d q1 K1 Hnone. change (fst (-1, d) =? -1) with true. cbv iota. apply wp_ret. specialize (HQ q1 (c_uart s) []).
      rewrite app_nil_r, set_uart_same in HQ. apply HQ; [done|by apply output_nil|done|cbn; lia|done]. }
  intros b q1 K1 Hsome. change (fst (0, [b]) =? -1) with false. cbv iota. change (lmem (snd (0, [b])) 0) with b.
  destruct (kp_mem _ _ K1 Ho) as [Ho1 Hb1]. assert (Hs1 : settled q1) by by eapply kept_settled.
  destruct Hroom as [[Hroom Hidle]|Hroom]; [|lia].
  apply wp_bind, wp_zoom. apply wp_uartputc; try done; [apply K1|]. intros q2 u2 K2 O2 Hle Hz.
  destruct (kp_mem _ _ K2 Ho1) as [Ho2 Hb2]. destruct O2 as [O1 O2 O3 O4].
  assert (Hlen : length (bs ++ [b]) = S (length bs)) by (rewrite length_app; cbn; lia).
  replace (Z.of_nat (length bs) + 1) with (Z.of_nat (length (bs ++ [b]))) by lia.
  pose proof (txcount_range u2) as Hr2.
  apply (IH (bs ++ [b]) q2 (set_uart u2 s)); cbn [c_uart set_uart].
  - apply K2.
  - done.
  - by eapply kept_settled.
  - done.
  - by rewrite O3.
  - by rewrite O4.
  - destruct k as [|k']; [by right|]. left. destruct Hidle as [Hi|Hi].
    + rewrite (Hz Hi). split; [done|by left].
    + unfold UART_TX_BUF_SIZE in *. split; [lia|]. right. lia.
  - done.
  - lia.
  - rewrite Hb2, Hb1. by apply has_bytes_snoc.
  - intros q3 u3 new K3 O5 Hb3 Hnew Hstop. rewrite Hb2, Hb1 in *. rewrite <- app_assoc in *. cbn [app] in *.
    apply HQ; [eapply kept_trans; [done|by eapply kept_trans]| |done|cbn; lia|intros; apply Hstop; cbn in *; lia].
    apply (output_trans [u8 b] (map u8 new) _ u2); [by split|done].
Qed.

(** consolewrite() sends the caller's bytes. While the transmit buffer has room, or the UART is always ready for a character, it returns
    how many bytes it has handed to the UART driver: the caller's bytes from [src] on, in order, behind everything given to the driver
    before; all [n] of them unless the next one is not in the caller's memory. Everything handed to the driver is sent or waits in its
    buffer, in order. The input is not touched, and the locks are free again. *)
Theorem consolewrite_correct fuel src n (p : P) (s : cst U) :
  so_inv p → um_ok p → uart_ok (c_uart s) → lock_free (uart_tx_lock (c_uart s)) → panicked (c_uart s) = 0 →
  lock_free (cons_lock (c_cons s)) → can_put (Z.max 0 n) (c_uart s) → 0 ≤ src → src + Z.max 0 n ≤ 2 ^ 64 →
  ∃ bs p' s', consolewrite fuel src n (p, s) = Ret (Z.of_nat (length bs)) (p', s') ∧ undisturbed p p' ∧
    has_bytes (um_byte p) src bs ∧ Z.of_nat (length bs) ≤ Z.max 0 n ∧
    (Z.of_nat (length bs) < n → um_byte p (src + Z.of_nat (length bs)) = None) ∧
    output (map u8 bs) (c_uart s) (c_uart s') ∧ c_cons s' = c_cons s.
Proof.
  intros Hp Ho Hu Hl Hpa Hlc Hroom Ha Hsum. destruct (enter_inv p Hp Ho) as (Hq & Hs & Ho' & Hb' & Hh').
  destruct (wp_elim (consolewrite fuel src n) (λ r '(p', s'), ∃ bs, r = Z.of_nat (length bs) ∧ undisturbed p p' ∧
    has_bytes (um_byte p) src bs ∧ Z.of_nat (length bs) ≤ Z.max 0 n ∧
    (Z.of_nat (length bs) < n → um_byte p (src + Z.of_nat (length bs)) = None) ∧
    output (map u8 bs) (c_uart s) (c_uart s') ∧ c_cons s' = c_cons s) (p, s))
    as (r & [p' s'] & E & bs & -> & HQ); [|by exists bs, p', s'].
  unfold consolewrite. apply wp_bind, wp_zoom. cbn [lk_of cst_locked]. eapply wp_intro; [by apply acq_eq|].
  fold (enter p). set (lk := take_lock (push_off (lget sc_hart p)) (cons_lock (c_cons s))).
  apply wp_bind. apply (wp_consolewrite_loop fuel (Z.to_nat n) src [] (enter p) (with_lk lk s)); try done.
  { by replace (Z.of_nat (Z.to_nat n)) with (Z.max 0 n) by lia. }
  { cbn [length]. lia. }
  intros q' u' bs K1 O1 Hb Hlen Hstop. cbn [app] in *. rewrite Hb' in *.
  apply wp_bind, wp_zoom. cbn [lk_of cst_locked]. cbn [c_cons set_uart with_lk cst_locked set_cons set_conslock cons_lock].
  eapply wp_intro; [apply (rel_eq q' (lget sc_hart p)); [by apply so_hart_ok|by rewrite (kp_hart _ _ K1)|apply take_lock_held]|].
  apply wp_ret. exists bs. split; [done|]. split; [by apply undisturbed_leave|]. split; [done|]. split; [lia|]. split; [intros; apply Hstop; lia|].
  split; [exact O1|]. cbn [c_cons with_lk cst_locked set_cons set_uart set_conslock]. unfold set_conslock.
  pose proof (take_lock_released (push_off (lget sc_hart p)) (cons_lock (c_cons s)) Hlc) as El. fold lk in El.
  cbn. unfold lk. cbn. destruct (c_cons s) as [[a b c] ? ? ? ?], Hlc as [Hl1 Hl2]. cbn in *. by subst.
Qed.
End write.
