(* ===== verification/UserCopy.v ===== *)
(** The calling process as the file system, pipes and the console see it (proc.c):
    copies between the process's memory and kernel buffers, and its current directory.

    The components above the process layer keep the bytes of their buffers as lists.  A
    copy puts them at [kbuf], an address in the kernel's data, and calls either_copyout()
    or either_copyin() with that address. *)
From S2P Require Import Prelude Machine CString Spinlock Kalloc PageTable Vm Sched Bio Log Proc Fs.

(** The address at which the bytes of a kernel buffer are. *)
Class KernelBuf := kbuf : Z.

Definition put_kbuf (m : mem) (a : Z) (bytes : list Z) : mem :=
  λ x, if (a <=? x) && (x <? a + Z.of_nat (length bytes)) then lmem bytes (x - a) else m x.

Section caller.
Context `{KernelBuf}.

Definition stage (data : list Z) : M kst unit :=
  on_pm (modify (λ m, set_mem (put_kbuf (pm_mem m) kbuf data) m)).

Definition user_copyout (dst : Z) (data : list Z) : M kst Z :=
  stage data;;
  either_copyout true dst kbuf (Z.of_nat (length data)).

Definition user_copyin (data : list Z) (src : Z) : M kst (Z * list Z) :=
  stage data;;
  r ← either_copyin kbuf true src (Z.of_nat (length data));
  m ← gets (λ s, pm_mem (k_pm s));
  mret (r, bytes (length data) m kbuf).

Definition proc_cwd : M kst (option Z) :=
  mp ← myproc;
  p ← deref mp;
  x ← getp p;
  mret (p_cwd x).

#[export] Instance kst_caller : Caller kst := {
  copyout_bytes := user_copyout;
  copyin_bytes := user_copyin;
  my_cwd := proc_cwd
}.
End caller.
