(* ===== verification/Pipe.v ===== *)
(** pipe.c: pipes.

    The operations run on the process layer and the pipe that the pointer [pi] refers to;
    [a] is its address, which names the channels &pi->nread and &pi->nwrite.  The char that
    is copied in and out is the kernel side of a copy of one byte, [Caller] of Fs.v:
    copyin(pr->pagetable, ...) with the page table of the calling process.
    pipealloc() is in File.v, with the file table. *)
From S2P Require Import Prelude Machine CString Spinlock Sched Bio Log Fs UserMem Shared Ring.

Definition PIPESIZE : Z := 512.

(** struct pipe *)
Record pipe := mkPipe {
  pi_lock : spinlock;
  pi_data : Z → Z;
  nread : Z;
  nwrite : Z;
  readopen : Z;
  writeopen : Z
}.

Definition set_pilock v pi := mkPipe v (pi_data pi) (nread pi) (nwrite pi) (readopen pi) (writeopen pi).
Definition set_pidata v pi := mkPipe (pi_lock pi) v (nread pi) (nwrite pi) (readopen pi) (writeopen pi).
Definition set_nread v pi := mkPipe (pi_lock pi) (pi_data pi) v (nwrite pi) (readopen pi) (writeopen pi).
Definition set_nwrite v pi := mkPipe (pi_lock pi) (pi_data pi) (nread pi) v (readopen pi) (writeopen pi).
Definition set_readopen v pi := mkPipe (pi_lock pi) (pi_data pi) (nread pi) (nwrite pi) v (writeopen pi).
Definition set_writeopen v pi := mkPipe (pi_lock pi) (pi_data pi) (nread pi) (nwrite pi) (readopen pi) v.

#[export] Instance pipe_locked : Locked pipe := { lk_of := pi_lock; with_lk := set_pilock }.

(** kalloc() and kfree() of the process layer *)
Class Pages (P : Type) := { pg_alloc : M P Z; pg_free : Z → M P unit }.

Section pipe.
Context {P : Type} `{Sched P} `{!Caller P}.

Definition getpi : M (P * pipe) pipe := gets snd.
Definition putpi (f : pipe → pipe) : M (P * pipe) unit := modify (λ '(p, pi), (p, f pi)).

(** pipeclose() *)
Definition pipeclose `{!Pages P} (a : Z) (writable : bool) : M (P * pipe) unit :=
  on_lock acq;;
  (if writable then
     putpi (set_writeopen 0);; on_sched (sc_wakeup (CPipeRead a))
   else
     putpi (set_readopen 0);; on_sched (sc_wakeup (CPipeWrite a)));;
  pi ← getpi;
  if (readopen pi =? 0) && (writeopen pi =? 0) then
    on_lock rel;; on_sched (pg_free a)
  else on_lock rel.

(** pipewrite(): the loop while the pipe is full; false if it returned -1.  [fuel] bounds
    how often the thread is woken and finds the pipe full again. *)
Fixpoint pipewrite_full (fuel : nat) (a : Z) : M (P * pipe) bool :=
  pi ← getpi;
  if nwrite pi =? u32 (nread pi + PIPESIZE) then
    stop ← (if readopen pi =? 0 then mret true else on_sched sc_killed);
    if (stop : bool) then on_lock rel;; mret false
    else
      on_sched (sc_wakeup (CPipeRead a));;
      match fuel with
      | O => no_fuel
      | S fuel => on_lock (sleep (CPipeWrite a));; pipewrite_full fuel a
      end
  else mret true.

(** The loop over the bytes, [k] of them left; None if it returned -1 *)
Fixpoint pipewrite_loop (fuel k : nat) (a addr i : Z) : M (P * pipe) (option Z) :=
  match k with
  | O => mret (Some i)
  | S k =>
    room ← pipewrite_full fuel a;
    if negb room then mret None
    else
      ch ← on_sched (copyin_bytes [0] (u64 (addr + i)));
      if fst ch =? -1 then mret (Some i)
      else
        putpi (λ pi, set_pidata (upd (pi_data pi) (nwrite pi mod PIPESIZE) (lmem (snd ch) 0)) pi);;
        putpi (λ pi, set_nwrite (u32 (nwrite pi + 1)) pi);;
        pipewrite_loop fuel k a addr (i + 1)
  end.

Definition pipewrite (fuel : nat) (a addr n : Z) : M (P * pipe) Z :=
  on_lock acq;;
  r ← pipewrite_loop fuel (Z.to_nat n) a addr 0;
  match r with
  | None => mret (-1)
  | Some i =>
    on_sched (sc_wakeup (CPipeRead a));;
    on_lock rel;;
    mret i
  end.

(** piperead(): the loop while the pipe is empty; false if it returned -1 *)
Fixpoint piperead_empty (fuel : nat) (a : Z) : M (P * pipe) bool :=
  pi ← getpi;
  if (nread pi =? nwrite pi) && negb (writeopen pi =? 0) then
    stop ← on_sched sc_killed;
    if (stop : bool) then on_lock rel;; mret false
    else
      match fuel with
      | O => no_fuel
      | S fuel => on_lock (sleep (CPipeRead a));; piperead_empty fuel a
      end
  else mret true.

Fixpoint piperead_loop (k : nat) (addr i : Z) : M (P * pipe) Z :=
  match k with
  | O => mret i
  | S k =>
    pi ← getpi;
    if nread pi =? nwrite pi then mret i
    else
      let ch := pi_data pi (nread pi mod PIPESIZE) in
      putpi (set_nread (u32 (nread pi + 1)));;
      r ← on_sched (copyout_bytes (u64 (addr + i)) [ch]);
      if r =? -1 then mret i
      else piperead_loop k addr (i + 1)
  end.

Definition piperead (fuel : nat) (a addr n : Z) : M (P * pipe) Z :=
  on_lock acq;;
  go ← piperead_empty fuel a;
  if negb go then mret (-1)
  else
    i ← piperead_loop (Z.to_nat n) addr 0;
    on_sched (sc_wakeup (CPipeWrite a));;
    on_lock rel;;
    mret i.
End pipe.

(** ** The bytes in a pipe *)
Record pipe_ok (pi : pipe) : Prop := {
  po_read : 0 ≤ nread pi < 2 ^ 32;
  po_write : 0 ≤ nwrite pi < 2 ^ 32;
  po_full : u32 (nwrite pi - nread pi) ≤ PIPESIZE
}.

(** How many, and which, oldest first *)
Definition pcount (pi : pipe) : Z := rcount (nread pi) (nwrite pi).
Definition contents (pi : pipe) : list Z := ring PIPESIZE (pi_data pi) (nread pi) (nwrite pi).

Lemma PIPESIZE_div : (PIPESIZE | 2 ^ 32).
Proof. by exists 8388608. Qed.
#[local] Hint Resolve PIPESIZE_div : kern.

Lemma contents_length pi : length (contents pi) = Z.to_nat (pcount pi).
Proof. apply ring_length. Qed.

(** The counters wrap around together: the pipe is full when they differ by its size, and
    empty when they are equal. *)
Lemma full_test pi : pipe_ok pi → (nwrite pi =? u32 (nread pi + PIPESIZE)) = (pcount pi =? PIPESIZE).
Proof.
  intros [Hr Hw Hf]. unfold pcount, rcount, u32, PIPESIZE in *.
  destruct (Z.eqb_spec (nwrite pi) ((nread pi + 512) mod 2 ^ 32)), (Z.eqb_spec ((nwrite pi - nread pi) mod 2 ^ 32) 512); zdm.
Qed.

Lemma empty_test pi : pipe_ok pi → (nread pi =? nwrite pi) = (pcount pi =? 0).
Proof.
  intros [Hr Hw Hf]. unfold pcount, rcount, u32 in *.
  destruct (Z.eqb_spec (nread pi) (nwrite pi)), (Z.eqb_spec ((nwrite pi - nread pi) mod 2 ^ 32) 0); zdm.
Qed.

(** pi->data[pi->nwrite++ % PIPESIZE] = ch with room for a byte *)
Definition push (ch : Z) (pi : pipe) : pipe :=
  set_nwrite (u32 (nwrite pi + 1)) (set_pidata (upd (pi_data pi) (nwrite pi mod PIPESIZE) ch) pi).

Lemma push_ok ch pi :
  pipe_ok pi → pcount pi < PIPESIZE →
  pipe_ok (push ch pi) ∧ contents (push ch pi) = contents pi ++ [ch].
Proof.
  intros [Hr Hw Hf] Hroom. unfold pcount in Hroom. assert (Hs : rcount (nread pi) (nwrite pi) < 2 ^ 32 - 1) by (unfold PIPESIZE in *; lia).
  split; [|apply (ring_push PIPESIZE); auto with kern; done].
  split; [exact Hr|apply u32_range|]. change (rcount (nread pi) (u32 (nwrite pi + 1)) ≤ PIPESIZE). rewrite rcount_step by done. lia.
Qed.

(** ch = pi->data[pi->nread++ % PIPESIZE] with a byte there *)
Definition pop (pi : pipe) : pipe := set_nread (u32 (nread pi + 1)) pi.

Lemma pop_ok pi :
  pipe_ok pi → 0 < pcount pi →
  pipe_ok (pop pi) ∧ contents pi = pi_data pi (nread pi mod PIPESIZE) :: contents (pop pi).
Proof.
  intros [Hr Hw Hf] Hsome. split; [|apply (ring_pop PIPESIZE); auto with kern; done].
  split; [apply u32_range|exact Hw|]. change (rcount (u32 (nread pi + 1)) (nwrite pi) ≤ PIPESIZE). rewrite rcount_next by done.
  unfold rcount. lia.
Qed.

(** ** Reading and writing, in turns with other threads *)
Section proofs.
Context {P : Type} `{SchedOk P} `{!Caller P} `{!UserMem P}.

Definition keeps_ends (pi pi' : pipe) : Prop := readopen pi' = readopen pi ∧ writeopen pi' = writeopen pi.
Definition puts (pi : pipe) (bs : list Z) (pi' : pipe) : Prop := contents pi' = contents pi ++ bs ∧ keeps_ends pi pi'.
Definition gets_out (pi : pipe) (bs : list Z) (pi' : pipe) : Prop := contents pi = bs ++ contents pi' ∧ keeps_ends pi pi'.

Lemma puts_plain : plain pipe_ok puts.
Proof. split; [intros pi lk [? ? ?]; by split|intros pi lk; split; [|done]; by rewrite app_nil_r|done]. Qed.

Lemma gets_plain : plain pipe_ok gets_out.
Proof. split; [intros pi lk [? ? ?]; by split|by intros pi lk|done]. Qed.

Lemma pcount_nonneg pi : 0 ≤ pcount pi.
Proof. apply u32_range. Qed.

(** ** pipewrite() *)
Lemma serves_full pi0 f n a fuel tr bs q pi (Q : list ((P * pipe) * (P * pipe)) → bool → P * pipe → Prop) :
  turn pipe_ok puts pi0 f tr bs q pi → (n ≤ fuel + length tr)%nat →
  (∀ tr' q' pi', turn pipe_ok puts pi0 f tr' bs q' pi' → pcount pi' < PIPESIZE → Q tr' true (q', pi')) →
  (∀ tr' p' pi', done_with pipe_ok puts pi0 f tr' bs p' pi' → pcount pi' = PIPESIZE →
     readopen pi' = 0 ∨ so_kill p' = true → Q tr' false (p', pi')) →
  serves (others pipe_ok) n Q tr (pipewrite_full fuel a (q, pi)).
Proof.
  intros Ht Hn HQt HQf. revert tr q pi Ht Hn.
  assert (Hstop : ∀ tr q pi, turn pipe_ok puts pi0 f tr bs q pi → pcount pi = PIPESIZE →
            readopen pi = 0 ∨ so_kill q = true → serves (others pipe_ok) n Q tr ((on_lock rel;; mret false) (q, pi))).
  { intros tr q pi Ht Hfull Hwhy. apply serves_step. eapply (wp_give pipe_ok puts puts_plain); [done|].
    intros p lk Hdw Hk. apply HQf; [done|done|by rewrite Hk]. }
  induction fuel as [|fuel IH]; intros tr q pi Ht Hn; cbn [pipewrite_full]; apply serves_step, wp_gets; cbn [snd];
    rewrite full_test by apply Ht;
    (destruct (Z.eqb_spec (pcount pi) PIPESIZE) as [Hfull|Hroom];
     [|apply HQt; [done|]; pose proof (po_full _ (tu_inv _ _ _ _ _ _ _ _ Ht)) as Hle; change (pcount pi ≤ PIPESIZE) in Hle; lia]);
    apply serves_step; (destruct (Z.eqb_spec (readopen pi) 0) as [Hro|Hro]; [apply wp_ret, Hstop; auto|]);
    (eapply wp_turn_killed; [done|]); (destruct (so_kill q) eqn:Hk; [apply Hstop; auto|]); apply serves_step;
    (eapply wp_turn_wakeup; [done|]); intros q' Ht' _.
  - cbn [serves no_fuel]. lia.
  - eapply (serves_sleep pipe_ok puts puts_plain); [done|]. intros tr' q2 pi2 Hlen Ht2. apply IH; [done|lia].
Qed.

(** What pipewrite() has done when it returns. *)
Record wrote_pipe (pi0 : pipe) (f : Z → option Z) (addr n : Z)
    (tr : list ((P * pipe) * (P * pipe))) (r : Z) (s : P * pipe) : Prop := {
  wp_bytes : ∃ bs, done_with pipe_ok puts pi0 f tr bs (fst s) (snd s) ∧ has_bytes f addr bs ∧ Z.of_nat (length bs) ≤ Z.max 0 n ∧
    ((r = Z.of_nat (length bs) ∧ (r < n → f (addr + r) = None)) ∨
     (r = -1 ∧ Z.of_nat (length bs) < n ∧ pcount (snd s) = PIPESIZE ∧
      (readopen (snd s) = 0 ∨ so_kill (fst s) = true)))
}.

Lemma serves_write_loop pi0 f n addr a k fuel tr bs q pi (Q : list ((P * pipe) * (P * pipe)) → option Z → P * pipe → Prop) :
  turn pipe_ok puts pi0 f tr bs q pi → (n ≤ fuel)%nat → 0 ≤ addr →
  addr + Z.of_nat (length bs) + Z.of_nat k ≤ 2 ^ 64 → has_bytes f addr bs →
  (∀ tr' q' pi' bs', turn pipe_ok puts pi0 f tr' bs' q' pi' → has_bytes f addr bs' → (length bs' ≤ length bs + k)%nat →
     ((length bs' < length bs + k)%nat → f (addr + Z.of_nat (length bs')) = None) →
     Q tr' (Some (Z.of_nat (length bs'))) (q', pi')) →
  (∀ tr' p' pi' bs', done_with pipe_ok puts pi0 f tr' bs' p' pi' → has_bytes f addr bs' → (length bs' < length bs + k)%nat →
     pcount pi' = PIPESIZE → readopen pi' = 0 ∨ so_kill p' = true → Q tr' None (p', pi')) →
  serves (others pipe_ok) n Q tr (pipewrite_loop fuel k a addr (Z.of_nat (length bs)) (q, pi)).
Proof.
  revert tr bs q pi. induction k as [|k IH]; intros tr bs q pi Ht Hn Ha Hk Hb HQ1 HQ0; cbn [pipewrite_loop].
  { apply HQ1; [done|done|lia|lia]. }
  apply serves_bind. eapply serves_full; [done|lia| |].
  2:{ intros tr' p' pi' Hdw Hfull Hwhy. cbn [negb]. apply (HQ0 _ _ _ bs); [done|done|lia|done|done]. }
  intros tr' q1 pi1 Ht1 Hroom. cbn [negb]. apply serves_step. rewrite u64_small by lia.
  eapply wp_turn_copyin; [done|lia| |].
  2:{ intros d q2 Ht2 _ Hnone. cbn [fst]. apply HQ1; [done|done|lia|done]. }
  intros x q2 Ht2 _ Hx. cbn [fst snd]. change (0 =? -1) with false. cbv iota.
  apply serves_step, wp_modify, serves_step, wp_modify. cbn [nwrite set_pidata pi_data].
  change (lmem [x] 0) with x. fold (push x pi1). destruct (push_ok x pi1 (tu_inv _ _ _ _ _ _ _ _ Ht2) Hroom) as [Hpi' Hc'].
  assert (Ht3 : turn pipe_ok puts pi0 f tr' (bs ++ [x]) q2 (push x pi1)).
  { by eapply turn_step. }
  replace (Z.of_nat (length bs) + 1) with (Z.of_nat (length (bs ++ [x]))) by (rewrite length_app; cbn; lia).
  apply IH; try done.
  - rewrite length_app. cbn. lia.
  - by apply has_bytes_snoc.
  - intros tr'' q'' pi'' bs'' Ht'' Hb'' Hle Hlt. rewrite length_app in *. cbn [length] in *. apply HQ1; [done|done|lia|].
    intros. apply Hlt. lia.
  - intros tr'' p'' pi'' bs'' Hd'' Hb'' Hlt. rewrite length_app in *. cbn [length] in *. apply (HQ0 _ _ _ bs''); [done|done|lia].
Qed.

(** C20: pipewrite() puts the caller's bytes into the pipe in order, however other threads
    run in between. Called without locks on a pipe in order, it never panics, and gives up only after it was woken
    more than [fuel] times. Each time it runs it only adds bytes behind those in the pipe,
    never more than PIPESIZE, also when the counters wrap around; all it adds are the caller's bytes from [addr] on. It returns how
    many, all [n] of them unless the next one is not in the caller's memory; or -1 if it finds the
    pipe full when the read end is closed or the caller was killed. *)
Theorem pipewrite_correct fuel a addr n (p : P) (pi : pipe) :
  so_inv p → noff (lget sc_hart p) = 0 → um_ok p → pipe_ok pi → lock_free (pi_lock pi) →
  0 ≤ addr → addr + Z.max 0 n ≤ 2 ^ 64 →
  serves (others pipe_ok) fuel (wrote_pipe pi (um_byte p) addr n) [] (pipewrite fuel a addr n (p, pi)).
Proof.
  intros Hp Hn Ho Hpi Hl Ha Hsum. apply serves_step.
  eapply (wp_take pipe_ok puts puts_plain pi (um_byte p) [] []); [by apply done_with_start|].
  intros q lk Ht _. apply serves_bind.
  apply (serves_write_loop pi (um_byte p) fuel addr a (Z.to_nat n) fuel [] [] q (set_pilock lk pi)); try done; [cbn; lia| |].
  - intros tr q2 pi2 bs Ht2 Hb Hle Hlt. cbn [length] in *. apply serves_step. eapply wp_turn_wakeup; [done|].
    intros q3 Ht3 _. apply serves_step. eapply (wp_give pipe_ok puts puts_plain); [done|].
    intros p4 lk4 Hdw _. split. exists bs. split; [done|]. split; [done|]. split; [lia|]. left. split; [done|].
    intros. apply Hlt. lia.
  - intros tr p2 pi2 bs Hdw Hb Hlt Hfull Hwhy. cbn [length] in *. split. exists bs. split; [done|]. split; [done|]. split; [lia|].
    right. split; [done|]. split; [lia|]. by split.
Qed.

(** ** piperead() *)
Lemma serves_empty pi0 f n a fuel tr bs q pi (Q : list ((P * pipe) * (P * pipe)) → bool → P * pipe → Prop) :
  turn pipe_ok gets_out pi0 f tr bs q pi → (n ≤ fuel + length tr)%nat →
  (∀ tr' q' pi', turn pipe_ok gets_out pi0 f tr' bs q' pi' → 0 < pcount pi' ∨ writeopen pi' = 0 → Q tr' true (q', pi')) →
  (∀ tr' p' pi', done_with pipe_ok gets_out pi0 f tr' bs p' pi' → contents pi' = [] → so_kill p' = true → Q tr' false (p', pi')) →
  serves (others pipe_ok) n Q tr (piperead_empty fuel a (q, pi)).
Proof.
  intros Ht Hn HQt HQf. revert tr q pi Ht Hn.
  induction fuel as [|fuel IH]; intros tr q pi Ht Hn; cbn [piperead_empty]; apply serves_step, wp_gets; cbn [snd];
    rewrite empty_test by apply Ht;
    (destruct (Z.eqb_spec (pcount pi) 0) as [Hem|Hsome];
     [|apply HQt; [done|]; left; pose proof (pcount_nonneg pi); lia]);
    (destruct (Z.eqb_spec (writeopen pi) 0) as [Hwo|Hwo]; [apply HQt; auto|]); cbn [negb andb];
    apply serves_step; (eapply wp_turn_killed; [done|]);
    (destruct (so_kill q) eqn:Hk;
     [apply serves_step; eapply (wp_give pipe_ok gets_out gets_plain); [done|]; intros p lk Hdw Hkp;
      apply HQf; [done| |congruence]; apply length_zero_iff_nil; rewrite contents_length; change (pcount (with_lk lk pi)) with (pcount pi); by rewrite Hem|]).
  - cbn [serves no_fuel]. lia.
  - eapply (serves_sleep pipe_ok gets_out gets_plain); [done|]. intros tr' q2 pi2 Hlen Ht2. apply IH; [done|lia].
Qed.

(** What piperead() has done when it returns: [bs] are the bytes it took out. *)
Record read_pipe (pi0 : pipe) (f : Z → option Z) (addr n : Z)
    (tr : list ((P * pipe) * (P * pipe))) (r : Z) (s : P * pipe) : Prop := {
  rp_killed : r < 0 → r = -1 ∧ done_with pipe_ok gets_out pi0 f tr [] (fst s) (snd s) ∧ so_kill (fst s) = true;
  rp_bytes : 0 ≤ r → r ≤ Z.max 0 n ∧ accessible f addr r ∧ ∃ bs,
    done_with pipe_ok gets_out pi0 (with_bytes f addr (take (Z.to_nat r) bs)) tr bs (fst s) (snd s) ∧
    (bs = [] → 0 < n → writeopen (snd s) = 0) ∧
    ((Z.of_nat (length bs) = r ∧ (r < n → contents (snd s) = [])) ∨
     (Z.of_nat (length bs) = r + 1 ∧ f (addr + r) = None))
}.

Lemma serves_read_loop pi0 f n addr k tr bs q pi (Q : list ((P * pipe) * (P * pipe)) → Z → P * pipe → Prop) :
  turn pipe_ok gets_out pi0 (with_bytes f addr bs) tr bs q pi → 0 ≤ addr → accessible f addr (Z.of_nat (length bs)) →
  addr + Z.of_nat (length bs) + Z.of_nat k ≤ 2 ^ 64 →
  (∀ q' pi' bs', turn pipe_ok gets_out pi0 (with_bytes f addr bs') tr bs' q' pi' → accessible f addr (Z.of_nat (length bs')) →
     (length bs ≤ length bs' ≤ length bs + k)%nat → ((length bs' < length bs + k)%nat → pcount pi' = 0) →
     writeopen pi' = writeopen pi → (length bs' = length bs → (0 < k)%nat → pcount pi = 0) →
     Q tr (Z.of_nat (length bs')) (q', pi')) →
  (∀ q' pi' bs' x, turn pipe_ok gets_out pi0 (with_bytes f addr bs') tr (bs' ++ [x]) q' pi' → accessible f addr (Z.of_nat (length bs')) →
     (length bs' ≤ length bs + k)%nat → f (addr + Z.of_nat (length bs')) = None →
     Q tr (Z.of_nat (length bs')) (q', pi')) →
  serves (others pipe_ok) n Q tr (piperead_loop k addr (Z.of_nat (length bs)) (q, pi)).
Proof.
  revert bs q pi. induction k as [|k IH]; intros bs q pi Ht Ha Hacc Hk HQ1 HQ0; cbn [piperead_loop].
  { apply HQ1; try done; lia. }
  apply serves_step, wp_gets. cbn [snd]. rewrite empty_test by apply Ht.
  destruct (Z.eqb_spec (pcount pi) 0) as [Hem|Hsome]; [apply HQ1; try done; lia|].
  assert (Hpos : 0 < pcount pi) by (pose proof (pcount_nonneg pi); lia).
  set (x := pi_data pi (nread pi mod PIPESIZE)). cbv zeta.
  apply serves_step, wp_modify. fold (pop pi).
  destruct (pop_ok pi (tu_inv _ _ _ _ _ _ _ _ Ht) Hpos) as [Hpi' Hc']. fold x in Hc'.
  assert (Ht2 : turn pipe_ok gets_out pi0 (with_bytes f addr bs) tr (bs ++ [x]) q (pop pi)).
  { by eapply turn_step. }
  apply serves_step. rewrite u64_small by lia. eapply wp_turn_copyout; [exact Ht2|lia| |].
  2:{ intros q' Ht' _ Hnone. apply with_bytes_none in Hnone; [|done]. apply (HQ0 _ _ _ x); try done. lia. }
  intros q' Ht' _ Hs. change (0 =? -1) with false. cbv iota. rewrite with_bytes_app in Ht'.
  assert (Hs' : is_Some (f (addr + Z.of_nat (length bs)))).
  { destruct (f (addr + Z.of_nat (length bs))) eqn:E; [by eexists|]. apply (with_bytes_none f addr bs) in E; [|done].
    rewrite E in Hs. by destruct Hs. }
  assert (Hlen : length (bs ++ [x]) = S (length bs)) by (rewrite length_app; cbn; lia).
  replace (Z.of_nat (length bs) + 1) with (Z.of_nat (length (bs ++ [x]))) by lia.
  apply IH; try done.
  - rewrite Hlen. replace (Z.of_nat (S (length bs))) with (Z.of_nat (length bs) + 1) by lia. by apply accessible_snoc.
  - lia.
  - intros q2 pi2 bs2 Ht2' Hacc2 Hle Hlt Hwo Heq. apply HQ1; try done; [lia|intros; apply Hlt; lia|].
    intros. lia.
  - intros q2 pi2 bs2 y Ht2' Hacc2 Hle Hnone. apply (HQ0 _ _ _ y); try done. lia.
Qed.

(** C32: piperead() takes bytes out of the pipe in order and gives them to the caller, however
    other threads run in between. Each time it runs it only takes bytes from the front of the
    pipe. While the pipe is empty and its write end open it waits; killed while waiting, it returns -1
    and has taken nothing. Otherwise it returns how many bytes, at most [n], it has stored
    in the caller's memory from [addr] on, nothing else of which changed: fewer than [n] only if the pipe is now empty or the next address is not the
    caller's (then one more byte is out of the pipe); and 0 bytes of more than 0 only if the write end is closed. *)
Theorem piperead_correct fuel a addr n (p : P) (pi : pipe) :
  so_inv p → noff (lget sc_hart p) = 0 → um_ok p → pipe_ok pi → lock_free (pi_lock pi) →
  0 ≤ addr → addr + Z.max 0 n ≤ 2 ^ 64 →
  serves (others pipe_ok) fuel (read_pipe pi (um_byte p) addr n) [] (piperead fuel a addr n (p, pi)).
Proof.
  intros Hp Hn Ho Hpi Hl Ha Hsum. apply serves_step. set (f := um_byte p).
  eapply (wp_take pipe_ok gets_out gets_plain pi f [] []); [by apply done_with_start|].
  intros q lk Ht _. apply serves_bind. eapply serves_empty; [done|cbn; lia| |].
  2:{ intros tr p2 pi2 Hdw Hc Hk. cbn [negb]. split; [done|lia]. }
  intros tr q2 pi2 Ht2 Hgo. cbn [negb]. apply serves_bind.
  apply (serves_read_loop pi f fuel addr (Z.to_nat n) tr [] q2 pi2); cbn [length]; try done; try lia.
  { by rewrite with_bytes_nil. }
  { intros i Hi. lia. }
  all: intros q3 pi3 bs.
  - intros Ht3 Hacc Hle Hlt Hwo Heq. apply serves_step. eapply wp_turn_wakeup; [done|].
    intros q4 Ht4 _. apply serves_step. eapply (wp_give pipe_ok gets_out gets_plain); [done|].
    intros p5 lk5 Hdw _. split; cbn [fst snd]; [lia|]. intros _. split; [lia|]. split; [done|].
    exists bs. rewrite take_ge by lia. split; [done|]. split.
    + intros -> Hpos. change (writeopen pi3 = 0). rewrite Hwo. destruct Hgo as [Hgo|]; [|done]. rewrite Heq in Hgo; [lia|done|lia].
    + left. split; [done|]. intros Hl3. apply length_zero_iff_nil. rewrite contents_length. change (pcount (with_lk lk5 pi3)) with (pcount pi3). by rewrite Hlt by lia.
  - intros x Ht3 Hacc Hle Hnone. apply serves_step. eapply wp_turn_wakeup; [done|].
    intros q4 Ht4 _. apply serves_step. eapply (wp_give pipe_ok gets_out gets_plain); [done|].
    intros p5 lk5 Hdw _. split; cbn [fst snd]; [lia|]. intros _. split; [lia|]. split; [done|].
    exists (bs ++ [x]). rewrite take_app_length' by lia. split; [done|]. split; [by destruct bs|].
    right. split; [|done]. rewrite length_app. cbn. lia.
Qed.
End proofs.
