(* ===== verification/ProcUser.v ===== *)
(** The process layer keeps the interface of UserMem.v: the memory of the running process
    is what its page table maps, copies go through copyin() and copyout() (vm.c), and
    sleep() (proc.c) switches back to the same process. *)
From S2P Require Import Prelude Machine CString Spinlock Kalloc PageTable Vm VmMap VmUser VmCopy Sched Proc ProcSpec Bio Log Fs UserMem UserCopy Shared Pipe.
From Stdlib Require Import FunctionalExtensionality.

(** kalloc() and kfree() *)
#[export] Instance kst_pages `{Symbols} : Pages kst := {
  pg_alloc := on_pm kalloc;
  pg_free := λ a, on_pm (kfree a)
}.

(** ** The memory of the running process *)
Section user.
Context `{Symbols} `{KernelBuf}.

Definition kmem (s : kst) : mem := pm_mem (k_pm s).
Definition kroot (s : kst) : Z := p_pagetable (cur s).

Definition user_byte (m : mem) (root a : Z) : option Z :=
  if (0 <=? a) && negb (uaddr m root a =? 0) then Some (uread m root a) else None.

Record user_ok (m : mem) (root : Z) : Prop := {
  uo_space : uspace m root;
  uo_buf : VmCopy.kbuf m root UserCopy.kbuf PGSIZE
}.

Lemma same_tree_uaddr root m m' a : same_tree root m m' → uaddr m' root a = uaddr m root a.
Proof. intros Ht. apply uaddr_ext, Ht. Qed.

Lemma same_tree_upage root m m' p : same_tree root m m' → upage m' root p ↔ upage m root p.
Proof.
  intros Ht. split; intros (va & Hva & E & Hp); exists va; split_and!; try done.
  - by rewrite <- (same_tree_uaddr root m m').
  - by rewrite (same_tree_uaddr root m m').
Qed.

Lemma user_ok_same root m m' : same_tree root m m' → user_ok m root → user_ok m' root.
Proof.
  intros Ht [[Hwf Hpg Hinj] Hb]. split; [split|].
  - eapply pt_wf_ext; [apply Ht|done].
  - intros p Hp. rewrite (st_tree _ _ _ Ht). apply Hpg. by apply (same_tree_upage root m m').
  - intros va vb Hva Hvb. rewrite !(same_tree_uaddr root m m') by done. by apply Hinj.
  - intros x p Hx. rewrite (st_tree _ _ _ Ht), (same_tree_upage root m m') by done. by apply Hb.
Qed.

Lemma user_byte_same root m m' a : same_user m m' root → user_byte m' root a = user_byte m root a.
Proof.
  intros Hsu. unfold user_byte. rewrite (same_user_uaddr m m') by done. destruct (Z.leb_spec 0 a); [|done].
  destruct (Z.eqb_spec (uaddr m root a) 0); [done|]. cbn [negb andb]. f_equal.
  rewrite !uread_uaddr by (rewrite ?(same_user_uaddr m m') by done; done). rewrite (same_user_uaddr m m') by done.
  apply (su_data _ _ _ Hsu (uaddr m root a)); [by exists a|]. pose proof (Z.mod_pos_bound a PGSIZE ltac:(done)). lia.
Qed.

Lemma user_byte_some root m a : 0 ≤ a → is_Some (user_byte m root a) ↔ uaddr m root a ≠ 0.
Proof.
  intros Ha. unfold user_byte. destruct (Z.leb_spec 0 a); [|lia]. cbn [andb].
  destruct (Z.eqb_spec (uaddr m root a) 0); cbn [negb]; split; intros Hs; try done; by destruct Hs.
Qed.

(** Staging the bytes of a kernel buffer *)
Lemma stage_same m root data :
  user_ok m root → Z.of_nat (length data) ≤ PGSIZE → same_user m (put_kbuf m UserCopy.kbuf data) root.
Proof.
  intros [Hs Hb] Hl.
  apply (same_user_kbuf m m _ root UserCopy.kbuf PGSIZE (Z.of_nat (length data))); [apply Hs|apply same_user_refl, Hs|done|done|].
  intros x Hx. unfold put_kbuf. destruct (Z.leb_spec UserCopy.kbuf x), (Z.ltb_spec x (UserCopy.kbuf + Z.of_nat (length data))); cbn [andb]; done || lia.
Qed.

Lemma length_bytes n m a : length (bytes n m a) = n.
Proof. revert a. induction n as [|n IH]; intros a; cbn; [done|by rewrite IH]. Qed.

Lemma bytes_lookup n m a i : (i < n)%nat → bytes n m a !! i = Some (m (a + Z.of_nat i)).
Proof.
  revert a i. induction n as [|n IH]; intros a i Hi; [lia|]. destruct i as [|i]; cbn [bytes lookup list_lookup].
  - by rewrite Z.add_0_r.
  - change (bytes n m (a + 1) !! i = Some (m (a + Z.of_nat (S i)))). rewrite IH by lia. do 2 f_equal. lia.
Qed.

Lemma bytes_put m a data : bytes (length data) (put_kbuf m a data) a = data.
Proof.
  apply list_eq. intros i. destruct (decide (i < length data)%nat) as [Hi|Hi].
  - rewrite bytes_lookup by done. unfold put_kbuf.
    destruct (Z.leb_spec a (a + Z.of_nat i)), (Z.ltb_spec (a + Z.of_nat i) (a + Z.of_nat (length data))); cbn [andb]; try lia.
    destruct (lookup_lt_is_Some_2 data i Hi) as [x Hx]. rewrite Hx. f_equal. unfold lmem.
    replace (Z.to_nat (a + Z.of_nat i - a)) with i by lia. by apply nth_lookup_Some.
  - rewrite !lookup_ge_None_2; rewrite ?length_bytes; done || lia.
Qed.

(** ** Copies *)
Definition set_kmem (m : mem) (s : kst) : kst := set_pm (set_mem m (k_pm s)) s.

(** either_copyin() and either_copyout() with the user's side set *)
Lemma caller_eq {A} (f : Z → M pmem A) s :
  kst_ok s →
  (mp ← myproc; p ← deref mp; x ← getp p; on_pm (f (p_pagetable x))) s =
  on_pm (f (kroot s)) (set_khart (settle (k_hart s)) s).
Proof.
  intros [Hh (i & Hi & _) _]. rewrite (bind_Ret _ _ _ _ _ (myproc_eq s Hh)). rewrite Hi. cbn [deref].
  rewrite (bind_Ret (mret i) _ _ _ _ eq_refl). unfold getp. rewrite (bind_Ret (gets _) _ _ _ _ eq_refl).
  unfold kroot, cur. by rewrite Hi.
Qed.

Lemma kst_ok_mem m s : kst_ok s → kst_ok (set_kmem m s).
Proof. intros [Hh Hp Hl]. by split. Qed.

Lemma kst_ok_settle s : kst_ok s → kst_ok (set_khart (settle (k_hart s)) s).
Proof. intros [Hh Hp Hl]. split; [by apply settle_ok|done|done]. Qed.

(** The state after a copy: the memory [m], the hart settled *)
Definition after_copy (m : mem) (s : kst) : kst := set_kmem m (set_khart (settle (k_hart s)) s).

Lemma after_copy_rest m s : kst_ok s →
  kst_ok (after_copy m s) ∧ k_hart (after_copy m s) = settle (k_hart s) ∧ cur (after_copy m s) = cur s ∧
  kroot (after_copy m s) = kroot s ∧ kmem (after_copy m s) = m.
Proof. intros Hs. split; [by apply kst_ok_mem, kst_ok_settle|done]. Qed.

Lemma on_pm_mem {A} (f : M pmem A) s a m :
  f (k_pm s) = Ret a (set_mem m (k_pm s)) → on_pm f s = Ret a (set_kmem m s).
Proof. intros E. unfold on_pm, zoom. by rewrite E. Qed.

Lemma stage_eq data s : stage data s = Ret () (set_kmem (put_kbuf (kmem s) UserCopy.kbuf data) s).
Proof. reflexivity. Qed.

Lemma kst_copyin s a data :
  kst_ok s → user_ok (kmem s) (kroot s) → 0 ≤ a < 2 ^ 64 → Z.of_nat (length data) ≤ PGSIZE →
  ∃ r data' m, user_copyin data a s = Ret (r, data') (after_copy m s) ∧ same_user (kmem s) m (kroot s) ∧
    length data' = length data ∧
    ((r = 0 ∧ has_bytes (user_byte (kmem s) (kroot s)) a data') ∨
     (r = -1 ∧ ∃ i, 0 ≤ i < Z.of_nat (length data) ∧ user_byte (kmem s) (kroot s) (a + i) = None)).
Proof.
  intros Hs Hu Ha Hl. set (m0 := kmem s) in *. set (root := kroot s) in *. set (n := Z.of_nat (length data)) in *.
  set (m1 := put_kbuf m0 UserCopy.kbuf data). assert (Hsu : same_user m0 m1 root) by by apply stage_same.
  unfold user_copyin. rewrite (bind_Ret _ _ _ _ _ (stage_eq data s)). fold m0 m1.
  set (s1 := set_khart (settle (k_hart s)) (set_kmem m1 s)).
  destruct (wp_elim _ _ _ (wp_copyin_loop m0 root (Z.to_nat (n / PGSIZE + 2)) (k_pm s1) UserCopy.kbuf a n
    (us_wf _ _ (uo_space _ _ Hu)) Hsu ltac:(intros x p Hx; apply (uo_buf _ _ Hu); lia) Ha ltac:(lia) (fuel_enough n a ltac:(lia))))
    as (r & s2 & E & k & [Hpx Hrest Hm]).
  exists r, (bytes (length data) (pm_mem s2) UserCopy.kbuf), (pm_mem s2).
  assert (E1 : either_copyin UserCopy.kbuf true a n (set_kmem m1 s) = Ret r (set_kmem (pm_mem s2) s1)).
  { unfold either_copyin. rewrite (caller_eq (λ pt, copyin pt UserCopy.kbuf a n)) by by apply kst_ok_mem.
    apply on_pm_mem. change (kroot (set_kmem m1 s)) with root. unfold copyin. fold s1. rewrite E. by rewrite <- Hrest. }
  rewrite (bind_Ret _ _ _ _ _ E1). split; [reflexivity|]. split; [|split; [apply length_bytes|]].
  - eapply (same_user_kbuf m0 m1 _ root UserCopy.kbuf PGSIZE PGSIZE); [apply Hu|done|apply Hu|lia|].
    intros x Hx. rewrite Hm. change (pm_mem (k_pm s1)) with m1. pose proof (px_range _ _ _ _ _ _ Hpx).
    destruct (Z.leb_spec UserCopy.kbuf x), (Z.ltb_spec x (UserCopy.kbuf + k)); cbn [andb]; done || lia.
  - destruct Hpx as [Hk Hacc Hstop ->]. destruct (Z.eqb_spec k n) as [Hkn|Hne].
    + left. rewrite Hkn in *. clear Hkn. split; [done|]. intros i x Hi. assert (Hin : (i < length data)%nat) by (apply lookup_lt_Some in Hi; by rewrite length_bytes in Hi).
      rewrite bytes_lookup in Hi by done. injection Hi as <-. rewrite Hm.
      destruct (Z.leb_spec UserCopy.kbuf (UserCopy.kbuf + Z.of_nat i)), (Z.ltb_spec (UserCopy.kbuf + Z.of_nat i) (UserCopy.kbuf + n)); cbn [andb]; try lia.
      unfold user_byte. specialize (Hacc (Z.of_nat i) ltac:(lia)).
      destruct (Z.leb_spec 0 (a + Z.of_nat i)), (Z.eqb_spec (uaddr m0 root (a + Z.of_nat i)) 0); cbn [negb andb]; try done || lia.
      do 2 f_equal. lia.
    + right. split; [done|]. exists k. split; [lia|]. unfold user_byte. rewrite Hstop by lia. by rewrite andb_false_r.
Qed.

(** User memory after a copy out of [k] bytes *)
Lemma user_byte_copied m m' root a src len k data r s s' :
  user_ok m root → Z.of_nat (length data) = len → copied_out m root a src len k r s s' → pm_mem s' = m' → pm_mem s = m →
  (∀ i, 0 ≤ i < len → m (src + i) = lmem data i) → 0 ≤ a →
  user_byte m' root = with_bytes (user_byte m root) a (take (Z.to_nat k) data).
Proof.
  intros Hu Hlen [[Hk Hacc Hstop _] _ Hfr Hm] <- <- Hsrc Ha. apply functional_extensionality. intros x.
  pose proof (user_only_tree _ _ _ (uo_space _ _ Hu) Hfr) as Ht.
  assert (Hin : (a <=? x) && (x <? a + Z.of_nat (length (take (Z.to_nat k) data))) = (a <=? x) && (x <? a + k)).
  { rewrite length_take. f_equal. f_equal. lia. }
  unfold with_bytes. rewrite Hin. unfold user_byte. rewrite (same_tree_uaddr root (pm_mem s)) by done.
  destruct (Z.leb_spec 0 x) as [Hx|Hx].
  2:{ destruct (Z.leb_spec a x); [lia|done]. }
  destruct (Z.eqb_spec (uaddr (pm_mem s) root x) 0) as [E0|E0]; cbn [negb andb].
  - destruct (Z.leb_spec a x), (Z.ltb_spec x (a + k)); cbn [andb]; try done.
    exfalso. apply (Hacc (x - a)); [lia|]. by replace (a + (x - a)) with x by lia.
  - rewrite !uread_uaddr by (rewrite ?(same_tree_uaddr root (pm_mem s)) by done; done).
    rewrite (same_tree_uaddr root (pm_mem s)), Hm by done.
    destruct (Z.leb_spec a x), (Z.ltb_spec x (a + k)); cbn [andb]; try done.
    rewrite Hsrc by lia. rewrite lookup_take_lt by lia. unfold lmem. symmetry.
    destruct (lookup_lt_is_Some_2 data (Z.to_nat (x - a)) ltac:(lia)) as [y Hy]. rewrite Hy. f_equal.
    symmetry. by apply nth_lookup_Some.
Qed.

Lemma kst_copyout s a data :
  kst_ok s → user_ok (kmem s) (kroot s) → 0 ≤ a < 2 ^ 64 → Z.of_nat (length data) ≤ PGSIZE →
  ∃ r m, user_copyout a data s = Ret r (after_copy m s) ∧ same_tree (kroot s) (kmem s) m ∧
    ((r = 0 ∧ accessible (user_byte (kmem s) (kroot s)) a (Z.of_nat (length data)) ∧
      user_byte m (kroot s) = with_bytes (user_byte (kmem s) (kroot s)) a data) ∨
     (r = -1 ∧ ∃ k, (k < length data)%nat ∧ user_byte (kmem s) (kroot s) (a + Z.of_nat k) = None ∧
      user_byte m (kroot s) = with_bytes (user_byte (kmem s) (kroot s)) a (take k data))).
Proof.
  intros Hs Hu Ha Hl. set (m0 := kmem s) in *. set (root := kroot s) in *. set (n := Z.of_nat (length data)) in *.
  set (m1 := put_kbuf m0 UserCopy.kbuf data). assert (Hsu : same_user m0 m1 root) by by apply stage_same.
  assert (Hu1 : user_ok m1 root) by (eapply user_ok_same; [apply Hsu|done]).
  unfold user_copyout. rewrite (bind_Ret _ _ _ _ _ (stage_eq data s)). fold m0 m1.
  set (s1 := set_khart (settle (k_hart s)) (set_kmem m1 s)).
  destruct (wp_elim _ _ _ (wp_copyout_loop m1 root (Z.to_nat (n / PGSIZE + 2)) (k_pm s1) a UserCopy.kbuf n
    (uo_space _ _ Hu1) (λ x _, eq_refl) ltac:(intros x p Hx; apply (uo_buf _ _ Hu1); lia) Ha ltac:(lia) (fuel_enough n a ltac:(lia))))
    as (r & s2 & E & k & Hco).
  exists r, (pm_mem s2).
  assert (E1 : either_copyout true a UserCopy.kbuf n (set_kmem m1 s) = Ret r (set_kmem (pm_mem s2) s1)).
  { unfold either_copyout. rewrite (caller_eq (λ pt, copyout pt a UserCopy.kbuf n)) by by apply kst_ok_mem.
    apply on_pm_mem. change (kroot (set_kmem m1 s)) with root. unfold copyout. fold s1. rewrite E. by rewrite <- (co_rest _ _ _ _ _ _ _ _ _ Hco). }
  cbv beta. fold n. rewrite E1. split; [reflexivity|]. split.
  { pose proof (user_only_tree _ _ _ (uo_space _ _ Hu1) (co_frame _ _ _ _ _ _ _ _ _ Hco)) as [H1 H2 H3 H4].
    destruct (su_tree _ _ _ Hsu) as [G1 G2 G3 G4].
    split; intros; rewrite ?H1, ?H2, ?H3, ?H4 by done; auto. }
  assert (Hub : user_byte m1 root = user_byte m0 root) by (apply functional_extensionality; intros x; by apply user_byte_same).
  rewrite <- Hub. assert (Hmem : user_byte (pm_mem s2) root = with_bytes (user_byte m1 root) a (take (Z.to_nat k) data)).
  { eapply user_byte_copied; try done; [|lia]. intros i Hi. unfold m1, put_kbuf.
    destruct (Z.leb_spec UserCopy.kbuf (UserCopy.kbuf + i)), (Z.ltb_spec (UserCopy.kbuf + i) (UserCopy.kbuf + Z.of_nat (length data))); cbn [andb]; try lia.
    f_equal. lia. }
  destruct (co_prefix _ _ _ _ _ _ _ _ _ Hco) as [Hk Hacc Hstop ->]. rewrite Hmem. destruct (Z.eqb_spec k n) as [Hkn|Hkn].
  - left. split; [done|]. split; [|by rewrite take_ge by lia]. intros i Hi. apply user_byte_some; [lia|]. apply Hacc. lia.
  - right. split; [done|]. exists (Z.to_nat k). split; [lia|]. split; [|done]. rewrite Z2Nat.id by lia.
    unfold user_byte. rewrite Hstop by lia. by rewrite andb_false_r.
Qed.

(** ** sleep() *)
Definition switched_back (s s' : kst) : Prop :=
  ∃ i, c_proc s = Some i ∧ 0 ≤ i < NPROC ∧ one_lock i s' ∧ lock_held (k_hart s') (p_lock (procs s' i)) ∧
    ∀ j, 0 ≤ j < NPROC → j ≠ i → lock_free (p_lock (procs s' j)).

Lemma kst_sleep c (p q : kst) lk :
  within p q → noff (k_hart p) = 0 → lock_held (k_hart q) lk →
  ∃ q1 k, sleep c (q, lk) = Wait (WSwtch c) (q1, mkSpinlock 0 (lname lk) None) k ∧
    kmem q1 = kmem q ∧ kroot q1 = kroot q ∧
    ∀ q2 lk2, switched_back q1 q2 → lock_free lk2 →
      ∃ p3 q3, k (q2, lk2) = Ret () (q3, take_lock (k_hart q3) lk2) ∧
        within p3 q3 ∧ noff (k_hart p3) = 0 ∧ kmem q3 = kmem q2 ∧ kroot q3 = kroot q2.
Proof.
  intros [[Hh (i & Hc & Hi) Hl] _ _ Hw Hp] Hn Hlk. cbn [lget sc_hart kst_sched] in Hw.
  assert (Ho : one_lock i q) by (split; [rewrite Hw, noff_push_off; lia|rewrite Hw; apply intr_get_push_off|done]).
  destruct (sleep_eq i c q lk Ho (Hl i Hi) Hlk) as (k & E & Hk).
  eexists _, k. split; [exact E|]. split; [done|]. split.
  { unfold kroot, cur. cbn [c_proc set_procs procs]. rewrite Hc. cbn [default]. by rewrite upd_eq. }
  intros q2 lk2 (j & Hj & Hj0 & Ho2 & Hl2 & Hfree) Hf. cbn [c_proc set_procs] in Hj. rewrite Hc in Hj. injection Hj as <-.
  destruct (Hk q2 lk2 Ho2 Hl2 Hf) as (h3 & E3 & Hn3 & _ & Hok3).
  set (p3 := set_khart h3 (set_procs (upd (procs q2) i (awake (procs q2 i))) q2)).
  assert (Hp3 : kst_ok p3).
  { split; [done|exists i; split; [apply Ho2|done]|]. intros x Hx. cbn. unfold upd. destruct (Z.eqb_spec x i) as [->|]; [done|by apply Hfree]. }
  exists p3, (set_khart (push_off h3) p3). split; [exact E3|]. split; [|split; [done|split; [done|]]].
  - split; [|done|done|done|done]. destruct Hp3 as [_ ? ?]. split; [by apply push_off_ok|done|done].
  - unfold kroot, cur. cbn. rewrite (ol_cur _ _ Ho2). cbn. by rewrite upd_eq.
Qed.

#[export] Instance kst_user : UserMem kst.
Proof.
  refine {| um_ok s := user_ok (kmem s) (kroot s); um_byte s := user_byte (kmem s) (kroot s); um_back := switched_back |}.
  - done.
  - intros s c s' Hs Hu E.
    destruct (wp_elim (wakeup c) (λ _ s', s' = table (all_entries (wake c)) s) s) as ([] & s2 & E2 & Hs2); [by apply wp_wakeup|].
    cbn [sc_wakeup kst_sched] in E. rewrite E2 in E. injection E as <-. subst s2.
    assert (Hr : kroot (table (all_entries (wake c)) s) = kroot s).
    { unfold kroot, cur. cbn. unfold all_entries, entries. destruct (_ && _); [|done]. unfold wake. by case_decide. }
    change (kmem (table (all_entries (wake c)) s)) with (kmem s). by rewrite Hr.
  - intros s a data Hs Hu Ha Hl. destruct (kst_copyin s a data Hs Hu Ha Hl) as (r & d & m & E & Hsu & Hlen & Hr).
    exists r, d, (after_copy m s). split; [exact E|]. destruct (after_copy_rest m s Hs) as (H1 & H2 & H3 & H4 & H5).
    cbn [so_inv so_id so_kill kst_sched_ok lget sc_hart kst_sched]. rewrite H2, H3, H4, H5. split_and!; try done.
    + eapply user_ok_same; [apply Hsu|done].
    + apply functional_extensionality. intros x. by apply user_byte_same.
  - intros s a data Hs Hu Ha Hl. destruct (kst_copyout s a data Hs Hu Ha Hl) as (r & m & E & Hst & Hr).
    exists r, (after_copy m s). split; [exact E|]. destruct (after_copy_rest m s Hs) as (H1 & H2 & H3 & H4 & H5).
    cbn [so_inv so_id so_kill kst_sched_ok lget sc_hart kst_sched]. rewrite H2, H3, H4, H5. split_and!; try done.
    by eapply user_ok_same.
  - intros c p q lk Hin Hn Hu Hlk. destruct (kst_sleep c p q lk Hin Hn Hlk) as (q1 & k & E & Hm & Hr & Hk).
    exists q1, k. rewrite Hm, Hr. split; [exact E|]. split; [done|]. split; [done|].
    intros q2 lk2 Hb Hu2 Hf. destruct (Hk q2 lk2 Hb Hf) as (p3 & q3 & E3 & Hin3 & Hn3 & Hm3 & Hr3).
    exists p3, q3. rewrite Hm3, Hr3. done.
Defined.
End user.

(** ** A running process with memory, and a pipe whose counters are about to wrap around *)
#[local] Existing Instance syms8.
#[local] Instance kbuf16 : KernelBuf := 16.

Definition proc8 (root : Z) (m : pmem) : kst :=
  mkK (pm_set_hart (mkHart 0 2 0 0) m) (Some 0) (λ i, if i =? 0 then set_pagetable root (procs3 0) else procs3 i)
      (initlock "nextpid") 4 (Some 0).

Lemma proc8_ok : ∃ p : kst, kst_ok p ∧ noff (k_hart p) = 0 ∧ user_ok (kmem p) (kroot p) ∧
  ∀ a, 0 ≤ a < 8192 → is_Some (um_byte p a).
Proof.
  destruct user8 as (root & m & Hus & _ & Hkb & Hva). exists (proc8 root m). split; [|split; [done|split]].
  - split; [split; vm_compute; congruence|by exists 0|]. intros i _. cbn. unfold procs3. by repeat case_match.
  - split; [exact Hus|]. apply Hkb. done.
  - intros a Ha. apply user_byte_some; [lia|]. by apply Hva.
Qed.

Definition pipe8 : pipe := mkPipe (initlock "pipe") (λ _, 0) (2 ^ 32 - 2) (2 ^ 32 - 2) 1 1.

Lemma pipe8_ok : pipe_ok pipe8.
Proof. by split. Qed.

Lemma pipewrite_correct_witness : ∃ p : kst,
  serves (others pipe_ok) 3 (wrote_pipe pipe8 (um_byte p) 4090 10) [] (pipewrite 3 0 4090 10 (p, pipe8)).
Proof.
  destruct proc8_ok as (p & Hp & Hn & Hu & _). exists p.
  apply (pipewrite_correct 3 0 4090 10 p pipe8);
    [exact Hp|exact Hn|exact Hu|exact pipe8_ok|done|lia|lia].
Defined.

Lemma piperead_correct_witness : ∃ p : kst,
  serves (others pipe_ok) 3 (read_pipe pipe8 (um_byte p) 4090 10) [] (piperead 3 0 4090 10 (p, pipe8)).
Proof.
  destruct proc8_ok as (p & Hp & Hn & Hu & _). exists p.
  apply (piperead_correct 3 0 4090 10 p pipe8);
    [exact Hp|exact Hn|exact Hu|exact pipe8_ok|done|lia|lia].
Defined.
