(* ===== verification/ConsoleProc.v ===== *)
(** The console on the process layer (console.c, uart.c, proc.c): what procdump() shows, and
    what happens when the UART's transmit buffer is full. *)
From S2P Require Import Prelude Machine CString Spinlock Kalloc PageTable Vm VmUser VmCopy Sched Proc ProcSpec Bio Log Fs UserMem Shared Ring Uart Printf Console ConsoleSpec UserCopy Pipe ProcUser.

(** procdump(): the names of the states, and the processes that are not UNUSED *)
Definition state_name (st : procstate) : list Z :=
  match st with
  | UNUSED => [117; 110; 117; 115; 101; 100]
  | SLEEPING => [115; 108; 101; 101; 112; 32]
  | RUNNABLE => [114; 117; 110; 98; 108; 101]
  | RUNNING => [114; 117; 110; 32; 32; 32]
  | ZOMBIE => [122; 111; 109; 98; 105; 101]
  end.

(** The bytes of a string up to its NUL *)
Fixpoint before_nul (l : list Z) : list Z :=
  match l with
  | [] => []
  | c :: l => if c =? 0 then [] else c :: before_nul l
  end.

#[export] Instance kst_procs : Procs kst := λ s,
  map (λ i, (p_pid (procs s i), state_name (p_state (procs s i)), before_nul (p_name (procs s i))))
    (filter (λ i, p_state (procs s i) ≠ UNUSED) (seqZ 0 NPROC)).

(** ** Sleeping with two locks *)
Lemma panics_zoom {S T A} (g : S → T) (f : T → S → S) (m : M T A) msg s :
  panics m msg (g s) → panics (zoom g f m) msg s.
Proof. intros [t E]. exists (f t s). unfold zoom. by rewrite E. Qed.

Lemma sleep_two_locks c (q : kst) lk :
  kst_ok q → noff (k_hart q) = 2 → lock_held (k_hart q) lk → panics (sleep c) "sched locks" (q, lk).
Proof.
  intros [Hh (i & Hi & Hin) Hl] Hn Hlk. unfold sleep.
  assert (Hset : settle (k_hart q) = k_hart q) by (unfold settle; by rewrite Hn).
  apply panics_bind, wp_on_sched. cbn [sc_enter kst_sched]. unfold sleep_enter.
  apply wp_bind, wp_myproc; [done|]. rewrite Hset, set_khart_get, Hi. apply wp_bind, wp_ret.
  apply on_plock_acquire; [by apply Hl|]. set (q1 := set_procs _ _).
  apply panics_bind. eapply wp_intro.
  { apply (rel_eq q1 (k_hart q)); [done|done|]. destruct Hlk. split; [done|by rewrite tp_push_off]. }
  apply panics_head, panics_zoom. cbn [fst sc_block kst_sched]. rewrite Hset.
  set (q2 := lset sc_hart (k_hart q) q1). unfold sleep_block.
  apply panics_bind, wp_gets. change (c_proc q2) with (c_proc q). rewrite Hi. apply panics_bind, wp_ret.
  apply panics_bind, wp_modify, panics_bind, wp_modify, panics_head. set (q3 := set_procs _ _). unfold sched.
  assert (H3 : k_hart q3 = k_hart q) by done.
  apply panics_bind, wp_myproc; [by rewrite H3|]. rewrite H3, Hset. change (c_proc q3) with (c_proc q). rewrite Hi.
  apply panics_bind, wp_ret, panics_bind, wp_get. set (q4 := set_khart _ q3).
  assert (Hp : p_lock (procs q4 i) = take_lock (push_off (k_hart q)) (p_lock (procs q i))).
  { unfold q4, q3. cbn [procs set_khart set_pm set_procs]. rewrite upd_eq. cbn [p_lock set_state].
    change (procs q2) with (procs q1). unfold q1. cbn [procs set_procs]. rewrite !upd_eq. done. }
  assert (Hhold : holding (k_hart q4) (p_lock (procs q4 i)) = true).
  { rewrite Hp. unfold holding. cbn [locked lcpu take_lock]. rewrite tp_push_off. by rewrite bool_decide_eq_true_2. }
  rewrite Hhold. change (noff (k_hart q4)) with (noff (k_hart q)). rewrite Hn. apply panics_intro.
Qed.

(** ** Writing to the console while the UART is busy *)
Section full.
Context `{Symbols} `{KernelBuf} {U : Type} `{!Chip U}.

(** C38: write() to the console panics the kernel when the UART falls behind. consolewrite() holds cons.lock when it calls
    uartputc(); with the transmit buffer full, uartputc() calls sleep(), which gives up uart_tx_lock only, so that sched() finds
    another lock held: for every process without locks and every write of at least one byte that it can
    read, the call ends in panic("sched locks") instead of waiting for the UART as uartputc()'s comment says. *)
Theorem consolewrite_full_panics fuel src n b (p : kst) (s : cst U) :
  kst_ok p → noff (k_hart p) = 0 → user_ok (kmem p) (kroot p) → 0 ≤ src < 2 ^ 64 → um_byte p src = Some b → 0 < n →
  uart_ok (c_uart s) → txcount (c_uart s) = UART_TX_BUF_SIZE - 1 → panicked (c_uart s) = 0 →
  lock_free (cons_lock (c_cons s)) → lock_free (uart_tx_lock (c_uart s)) →
  panics (consolewrite (S fuel) src n) "sched locks" (p, s).
Proof.
  intros Hp Hn Hu Hsrc Hb Hpos Huk Hfull Hpa Hlc Hlu.
  assert (Hi : so_inv p) by exact Hp. assert (Ho : um_ok p) by exact Hu.
  destruct (enter_inv p Hi Ho) as (Hq & Hs & Ho' & Hb' & Hh'). unfold consolewrite.
  apply panics_bind, wp_zoom. cbn [lk_of cst_locked]. eapply wp_intro; [by apply acq_eq|]. fold (enter p).
  replace (Z.to_nat n) with (S (Z.to_nat (n - 1))) by lia. apply panics_head. cbn [consolewrite_loop].
  apply panics_bind, wp_on_sched. rewrite u64_small, Z.add_0_r by lia.
  apply kept_copyin; [done|done|done|lia| |].
  2:{ intros d q1 _ Hnone. rewrite Hb', Hb in Hnone. done. }
  intros x q1 K1 _. change (fst (0, [x]) =? -1) with false. cbv iota. apply panics_head. unfold on_uart.
  apply panics_zoom. cbn [c_uart with_lk cst_locked set_cons]. unfold uartputc.
  destruct (kp_mem _ _ K1 Ho') as [Ho1 _]. destruct (enter_inv q1 (kp_inv _ _ K1) Ho1) as (Hq2 & _ & _ & _ & Hh2).
  apply panics_bind, wp_zoom. cbn [lk_of uart_locked]. eapply wp_intro; [by apply acq_eq|]. fold (enter q1).
  apply panics_bind, wp_gets. cbn [snd]. cbn [panicked with_lk uart_locked set_txlock]. rewrite Hpa. cbn [Z.eqb negb].
  cbn [uartputc_loop]. apply panics_bind, wp_gets. cbn [snd]. rewrite tx_full_test by (destruct Huk; by split).
  match goal with |- context [txcount ?u =? _] => change (txcount u) with (txcount (c_uart s)) end.
  rewrite Hfull, Z.eqb_refl.
  apply panics_head. unfold on_lock. apply panics_zoom. cbn [lk_of with_lk uart_locked uart_tx_lock set_txlock].
  apply sleep_two_locks; [exact Hq2| |].
  - cbn [lget sc_hart kst_sched] in Hh2, Hh'. rewrite Hh2, noff_push_off.
    pose proof (kp_hart _ _ K1) as E1. cbn [lget sc_hart kst_sched] in E1. rewrite E1, Hh', noff_push_off. lia.
  - cbn [lget sc_hart kst_sched] in Hh2. rewrite Hh2. apply take_lock_held.
Qed.
End full.

(** ** A chip that is always ready, for the witnesses: it keeps what was sent *)
#[local] Existing Instance syms8.
#[local] Existing Instance kbuf16.

#[export] Instance idle_chip : Chip (list Z) := {
  reg_read _ u := (LSR_TX_IDLE, u);
  reg_write reg v u := if reg =? THR then u ++ [v] else u
}.

#[export] Instance idle_chip_ok : ChipOk (list Z).
Proof. refine {| sent u := u |}; done. Defined.

Lemma idle_chip_always : always_idle (list Z).
Proof. intros u. discriminate. Qed.

Lemma idle_chip_prompt n : prompt (list Z) n.
Proof. intros u. destruct n; left; discriminate. Qed.

(** "ab" typed, a line "x" ready *)
Definition console1 (r w : Z) : cst (list Z) :=
  mkCst (mkUart (initlock "uart") (λ _, 0) w r [] 0) (initlock "pr") 1
    (mkCons (initlock "cons") (λ i, nth (Z.to_nat i) [120; 10; 97; 98] 0) 0 2 4).

Lemma console1_ok r w : cons_ok (c_cons (console1 r w)).
Proof. split; try done. by repeat constructor. Qed.

Lemma consoleintr_refines_witness : ∃ (p p' : kst) s', consoleintr 5 8 (p, console1 0 0) = Ret () (p', s') ∧
  input s' = ([120; 10], [97]) ∧ sent (u_chip (c_uart s')) = [8; 32; 8].
Proof.
  destruct proc8_ok as (p & Hp & Hn & Hu & _).
  destruct (consoleintr_refines 5 8 p (console1 0 0)) as (p' & s' & E & _ & [_ Hi _ [_ Hs]]);
    [exact Hp|exact Hu|apply console1_ok|done|done|apply idle_chip_prompt|lia|done|].
  exists p, p', s'. split; [exact E|]. split; [exact Hi|exact Hs].
Defined.

Lemma consoleread_correct_witness : ∃ p : kst,
  serves (others input_ok) 3 (read_line (console1 0 0) (um_byte p) 4090 10) [] (consoleread 3 4090 10 (p, console1 0 0)).
Proof.
  destruct proc8_ok as (p & Hp & Hn & Hu & _). exists p.
  apply (consoleread_correct 3 4090 10 p (console1 0 0)); [exact Hp|exact Hn|exact Hu|apply console1_ok|done|lia|lia|lia].
Defined.

Lemma consolewrite_correct_witness : ∃ (p p' : kst) s', consolewrite 3 4090 10 (p, console1 0 0) = Ret 10 (p', s').
Proof.
  destruct proc8_ok as (p & Hp & Hn & Hu & Hva).
  destruct (consolewrite_correct 3 4090 10 p (console1 0 0)) as (bs & p' & s' & E & _ & _ & Hle & Hstop & _);
    [exact Hp|exact Hu|by split|done|done|done|left; split; [done|left; apply idle_chip_always]|lia|lia|].
  exists p, p', s'. replace 10 with (Z.of_nat (length bs)) at 2; [exact E|].
  destruct (Z.ltb_spec (Z.of_nat (length bs)) 10) as [Hlt|]; [|lia]. specialize (Hstop Hlt).
  destruct (Hva (4090 + Z.of_nat (length bs)) ltac:(lia)) as [x Hx]. rewrite Hstop in Hx. done.
Defined.

Lemma consolewrite_full_panics_witness : ∃ p : kst, panics (consolewrite 3 0 1) "sched locks" (p, console1 1 0).
Proof.
  destruct proc8_ok as (p & Hp & Hn & Hu & Hva). destruct (Hva 0 ltac:(lia)) as [b Hb]. exists p.
  apply (consolewrite_full_panics 2 0 1 b p (console1 1 0)); [exact Hp|exact Hn|exact Hu|lia|exact Hb|lia|by split|done..].
Defined.
