(* ===== verification/File.v ===== *)
(** file.c: open files, and pipealloc() of pipe.c.

    [sys] is the state that system calls on files work on: the file system with the process
    layer below it, the file table, the pipes, the console and the device switch.  Pointers
    to struct file are indices into the table; a pipe is named by the address of its page,
    its fields are in [pipes].  A function pointer in devsw is the [driver] it belongs to.
    [fuel] bounds how often a thread may be woken from sleep() and have to sleep again. *)
From S2P Require Import Prelude Machine CString Spinlock Sched Sleeplock Bio Log Fs UserMem Shared Pipe Uart Printf Console.

(** struct file *)
Inductive ftype := FD_NONE | FD_PIPE | FD_INODE | FD_DEVICE.
#[global] Instance ftype_eq_dec : EqDecision ftype.
Proof. solve_decision. Defined.

Record file := mkFile {
  f_type : ftype;
  f_ref : Z;
  f_readable : Z;
  f_writable : Z;
  f_pipe : Z;
  f_ip : option Z;
  f_off : Z;
  f_major : Z
}.
Definition set_ftype v f := mkFile v (f_ref f) (f_readable f) (f_writable f) (f_pipe f) (f_ip f) (f_off f) (f_major f).
Definition set_fref v f := mkFile (f_type f) v (f_readable f) (f_writable f) (f_pipe f) (f_ip f) (f_off f) (f_major f).
Definition set_readable v f := mkFile (f_type f) (f_ref f) v (f_writable f) (f_pipe f) (f_ip f) (f_off f) (f_major f).
Definition set_writable v f := mkFile (f_type f) (f_ref f) (f_readable f) v (f_pipe f) (f_ip f) (f_off f) (f_major f).
Definition set_fpipe v f := mkFile (f_type f) (f_ref f) (f_readable f) (f_writable f) v (f_ip f) (f_off f) (f_major f).
Definition set_fip v f := mkFile (f_type f) (f_ref f) (f_readable f) (f_writable f) (f_pipe f) v (f_off f) (f_major f).
Definition set_foff v f := mkFile (f_type f) (f_ref f) (f_readable f) (f_writable f) (f_pipe f) (f_ip f) v (f_major f).
Definition set_fmajor v f := mkFile (f_type f) (f_ref f) (f_readable f) (f_writable f) (f_pipe f) (f_ip f) (f_off f) v.

(** struct devsw *)
Inductive driver := ConsoleDriver.
Record devsw := mkDevsw { dev_read : option driver; dev_write : option driver }.
Definition CONSOLE : Z := 1.

Record sys (P D U : Type) := mkSys {
  y_fs : fsst P D;
  ft_lock : spinlock;
  files : Z → file;
  pipes : Z → pipe;
  y_cons : cst U;
  y_devsw : Z → devsw
}.
Arguments mkSys {P D U}.
Arguments y_fs {P D U}.
Arguments ft_lock {P D U}.
Arguments files {P D U}.
Arguments pipes {P D U}.
Arguments y_cons {P D U}.
Arguments y_devsw {P D U}.

Section file.
Context {P D U : Type} `{Sched P} `{!Driver P D} `{!Caller P} `{!Pages P} `{!Chip U}.
Abbreviation st := (sys P D U).

Definition set_fs v (s : st) : st := mkSys v (ft_lock s) (files s) (pipes s) (y_cons s) (y_devsw s).
Definition set_files v (s : st) : st := mkSys (y_fs s) (ft_lock s) v (pipes s) (y_cons s) (y_devsw s).
Definition set_pipes v (s : st) : st := mkSys (y_fs s) (ft_lock s) (files s) v (y_cons s) (y_devsw s).
Definition set_yproc (p : P) (s : st) : st := set_fs (set_fp p (y_fs s)) s.

Definition on_fs {A} (m : M (fsst P D) A) : M st A := zoom y_fs set_fs m.
Definition on_proc {A} (m : M P A) : M st A := zoom (λ s, f_p (y_fs s)) set_yproc m.
Definition on_ftable {A} (m : M (P * spinlock) A) : M st A :=
  zoom (λ s, (f_p (y_fs s), ft_lock s))
       (λ '(p, lk) s, mkSys (set_fp p (y_fs s)) lk (files s) (pipes s) (y_cons s) (y_devsw s)) m.
Definition on_pipe {A} (a : Z) (m : M (P * pipe) A) : M st A :=
  zoom (λ s, (f_p (y_fs s), pipes s a))
       (λ '(p, pi) s, set_pipes (upd (pipes s) a pi) (set_yproc p s)) m.
Definition on_console {A} (m : M (P * cst U) A) : M st A :=
  zoom (λ s, (f_p (y_fs s), y_cons s))
       (λ '(p, c) s, mkSys (set_fp p (y_fs s)) (ft_lock s) (files s) (pipes s) c (y_devsw s)) m.
Definition getf (f : Z) : M st file := gets (λ s, files s f).
Definition putf (f : Z) (g : file → file) : M st unit :=
  modify (λ s, set_files (upd (files s) f (g (files s f))) s).

(** fileinit(), and the part of consoleinit() that sets devsw *)
Definition fileinit : M st unit :=
  modify (λ s, mkSys (y_fs s) (initlock "ftable") (files s) (pipes s) (y_cons s) (y_devsw s)).
Definition console_devsw : M st unit :=
  modify (λ s, mkSys (y_fs s) (ft_lock s) (files s) (pipes s) (y_cons s)
    (upd (y_devsw s) CONSOLE (mkDevsw (Some ConsoleDriver) (Some ConsoleDriver)))).

(** filealloc() *)
Fixpoint filealloc_loop (k : nat) (f : Z) : M st (option Z) :=
  match k with
  | O => on_ftable rel;; mret None
  | S k =>
    x ← getf f;
    if f_ref x =? 0 then
      putf f (set_fref 1);; on_ftable rel;; mret (Some f)
    else filealloc_loop k (f + 1)
  end.
Definition filealloc : M st (option Z) :=
  on_ftable acq;;
  filealloc_loop (Z.to_nat NFILE) 0.

(** filedup().  [f_ref] is a [Z] where the source has an int: a file has at
    most one reference per open descriptor, so at most NOFILE * NPROC = 1024
    and one per pending pipealloc() or open(), and [++] never wraps. *)
Definition filedup (f : Z) : M st Z :=
  on_ftable acq;;
  x ← getf f;
  if f_ref x <? 1 then panic "filedup"
  else
    putf f (λ x, set_fref (f_ref x + 1) x);;
    on_ftable rel;;
    mret f.

(** fileclose() *)
Definition fileclose (fuel : nat) (f : Z) : M st unit :=
  on_ftable acq;;
  x ← getf f;
  if f_ref x <? 1 then panic "fileclose"
  else
    putf f (λ x, set_fref (f_ref x - 1) x);;
    x ← getf f;
    if 0 <? f_ref x then on_ftable rel
    else
      let ff := x in
      putf f (set_fref 0);;
      putf f (set_ftype FD_NONE);;
      on_ftable rel;;
      if decide (f_type ff = FD_PIPE) then
        on_pipe (f_pipe ff) (pipeclose (f_pipe ff) (negb (f_writable ff =? 0)))
      else if decide (f_type ff = FD_INODE ∨ f_type ff = FD_DEVICE) then
        on_fs (on_l (begin_op fuel));;
        match f_ip ff with Some ip => on_fs (iput fuel ip) | None => panic "kerneltrap" end;;
        on_fs (on_l (end_op fuel))
      else mret ().

(** The bytes of a struct stat; [pad] are the four that align size *)
Definition stat_bytes (st : stat) (pad : list Z) : list Z :=
  let b := replicate 12 0 in
  let b := st32 b 0 (st_dev st) in
  let b := st32 b 4 (st_ino st) in
  let b := st16 b 8 (st_type st) in
  let b := st16 b 10 (st_nlink st) in
  b ++ pad ++ st_bytes 8 (replicate 8 0) 0 (st_size st).

(** filestat() *)
Definition filestat (fuel : nat) (f addr : Z) (pad : list Z) : M st Z :=
  x ← getf f;
  if decide (f_type x = FD_INODE ∨ f_type x = FD_DEVICE) then
    match f_ip x with
    | None => panic "ilock"
    | Some ip =>
      on_fs (ilock fuel (Some ip));;
      st ← on_fs (stati ip);
      on_fs (iunlock (Some ip));;
      r ← on_proc (copyout_bytes addr (stat_bytes st pad));
      if r <? 0 then mret (-1) else mret 0
    end
  else mret (-1).

(** fileread() *)
Definition fileread (fuel : nat) (f addr n : Z) : M st Z :=
  x ← getf f;
  if f_readable x =? 0 then mret (-1)
  else
    match f_type x with
    | FD_PIPE => on_pipe (f_pipe x) (piperead fuel (f_pipe x) addr n)
    | FD_DEVICE =>
      if (f_major x <? 0) || (NDEV <=? f_major x) then mret (-1)
      else
        d ← gets (λ s, dev_read (y_devsw s (f_major x)));
        match d with
        | None => mret (-1)
        | Some ConsoleDriver => on_console (consoleread fuel addr n)
        end
    | FD_INODE =>
      match f_ip x with
      | None => panic "ilock"
      | Some ip =>
        on_fs (ilock fuel (Some ip));;
        r ← on_fs (readi fuel ip (ToUser addr) (f_off x) (u32 n));
        when_ (0 <? fst r) (putf f (λ x, set_foff (u32 (f_off x + fst r)) x));;
        on_fs (iunlock (Some ip));;
        mret (fst r)
      end
    | FD_NONE => panic "fileread"
    end.

(** filewrite(): a few blocks at a time *)
Definition filewrite_max : Z := (MAXOPBLOCKS - 1 - 1 - 2) / 2 * BSIZE.

Fixpoint filewrite_loop (fuel k : nat) (f ip addr n i : Z) : M st Z :=
  if i <? n then
    match k with
    | O => no_fuel
    | S k =>
      let n1 := n - i in
      let n1 := if filewrite_max <? n1 then filewrite_max else n1 in
      on_fs (on_l (begin_op fuel));;
      on_fs (ilock fuel (Some ip));;
      x ← getf f;
      r ← on_fs (writei fuel ip (FromUser (u64 (addr + i))) (f_off x) n1);
      when_ (0 <? r) (putf f (λ x, set_foff (u32 (f_off x + r)) x));;
      on_fs (iunlock (Some ip));;
      on_fs (on_l (end_op fuel));;
      if r <? 0 then mret i
      else if negb (r =? n1) then panic "short filewrite"
      else filewrite_loop fuel k f ip addr n (i + r)
    end
  else mret i.

Definition filewrite (fuel : nat) (f addr n : Z) : M st Z :=
  x ← getf f;
  if f_writable x =? 0 then mret (-1)
  else
    match f_type x with
    | FD_PIPE => on_pipe (f_pipe x) (pipewrite fuel (f_pipe x) addr n)
    | FD_DEVICE =>
      if (f_major x <? 0) || (NDEV <=? f_major x) then mret (-1)
      else
        d ← gets (λ s, dev_write (y_devsw s (f_major x)));
        match d with
        | None => mret (-1)
        | Some ConsoleDriver => on_console (consolewrite fuel addr n)
        end
    | FD_INODE =>
      match f_ip x with
      | None => if 0 <? n then on_fs (on_l (begin_op fuel));; panic "ilock" else mret (if n =? 0 then n else -1)
      | Some ip =>
        i ← filewrite_loop fuel (Z.to_nat (n / filewrite_max + 1)) f ip addr n 0;
        mret (if i =? n then n else -1)
      end
    | FD_NONE => panic "filewrite"
    end.

(** pipealloc() of pipe.c: the two files, or None when it returns -1 *)
Definition pipe_bad (fuel : nat) (pi : Z) (f0 f1 : option Z) : M st (option (Z * Z)) :=
  when_ (negb (pi =? 0)) (on_proc (pg_free pi));;
  match f0 with Some f => fileclose fuel f | None => mret () end;;
  match f1 with Some f => fileclose fuel f | None => mret () end;;
  mret None.

Definition pipealloc (fuel : nat) : M st (option (Z * Z)) :=
  f0 ← filealloc;
  match f0 with
  | None => pipe_bad fuel 0 None None
  | Some rf =>
    f1 ← filealloc;
    match f1 with
    | None => pipe_bad fuel 0 f0 None
    | Some wf =>
      pi ← on_proc pg_alloc;
      if pi =? 0 then pipe_bad fuel 0 f0 f1
      else
        on_pipe pi (putpi (set_readopen 1);; putpi (set_writeopen 1);; putpi (set_nwrite 0);; putpi (set_nread 0);;
                    putpi (set_pilock (initlock "pipe")));;
        putf rf (set_ftype FD_PIPE);;
        putf rf (set_readable 1);;
        putf rf (set_writable 0);;
        putf rf (set_fpipe pi);;
        putf wf (set_ftype FD_PIPE);;
        putf wf (set_readable 0);;
        putf wf (set_writable 1);;
        putf wf (set_fpipe pi);;
        mret (Some (rf, wf))
    end
  end.
End file.
