(* ===== verification/Args.v ===== *)
(** syscall.c: the arguments of a system call.

    The registers of the user program are in the trapframe page of the process, at the
    offsets of struct trapframe (proc.h).  A string argument is copied to the buffer [buf]
    of the caller; where the callers use the bytes, they are read from there. *)
From S2P Require Import Prelude Machine CString Spinlock Kalloc PageTable Vm Sched Proc Bio Log Fs UserCopy.

(** struct trapframe: the offsets that the kernel's C code uses *)
Definition tf_kernel_satp : Z := 0.
Definition tf_kernel_sp : Z := 8.
Definition tf_kernel_trap : Z := 16.
Definition tf_epc : Z := 24.
Definition tf_kernel_hartid : Z := 32.
Definition tf_sp : Z := 48.
Definition tf_a0 : Z := 112.
Definition tf_a1 : Z := 120.
Definition tf_a2 : Z := 128.
Definition tf_a3 : Z := 136.
Definition tf_a4 : Z := 144.
Definition tf_a5 : Z := 152.
Definition tf_a7 : Z := 168.
Definition sizeof_trapframe : Z := 288.

(** p->trapframe->reg, and a store to it *)
Definition get_tf (p reg : Z) : M kst Z :=
  x ← getp p;
  gets (λ s, load64 (pm_mem (k_pm s)) (p_trapframe x + reg)).
Definition put_tf (p reg v : Z) : M kst unit :=
  x ← getp p;
  on_pm (modify (λ m, set_mem (store64 (pm_mem m) (p_trapframe x + reg) v) m)).

Definition my : M kst Z := mp ← myproc; deref mp.

(** fetchaddr(): the status, and *ip, which is at the kernel address [ip] *)
Definition fetchaddr (addr ip : Z) : M kst (Z * Z) :=
  p ← my;
  x ← getp p;
  if (p_sz x <=? addr) || (p_sz x <? u64 (addr + 8)) then mret (-1, 0)
  else
    r ← on_pm (copyin (p_pagetable x) ip addr 8);
    if negb (r =? 0) then mret (-1, 0)
    else v ← gets (λ s, load64 (pm_mem (k_pm s)) ip); mret (0, v).

(** fetchstr(); a string that copyinstr() has copied has its NUL within [max] bytes *)
Definition fetchstr (addr buf max : Z) : M kst Z :=
  p ← my;
  x ← getp p;
  err ← on_pm (copyinstr (p_pagetable x) buf addr max);
  if err <? 0 then mret err
  else
    m ← gets (λ s, pm_mem (k_pm s));
    match strlen (Z.to_nat max) m buf with Some n => mret n | None => no_fuel end.

(** argraw() *)
Definition argraw (n : Z) : M kst Z :=
  p ← my;
  if n =? 0 then get_tf p tf_a0
  else if n =? 1 then get_tf p tf_a1
  else if n =? 2 then get_tf p tf_a2
  else if n =? 3 then get_tf p tf_a3
  else if n =? 4 then get_tf p tf_a4
  else if n =? 5 then get_tf p tf_a5
  else panic "argraw".

(** argint(), argaddr(): they always return 0; the value they store *)
Definition argint (n : Z) : M kst Z := v ← argraw n; mret (s32 v).
Definition argaddr (n : Z) : M kst Z := argraw n.

(** argstr() *)
Definition argstr (n buf max : Z) : M kst Z :=
  addr ← argaddr n;
  fetchstr addr buf max.

(** argstr() into a buffer of the caller's stack at [kbuf]: the status and the bytes *)
Definition argpath `{KernelBuf} (n max : Z) : M kst (Z * list Z) :=
  r ← argstr n kbuf max;
  m ← gets (λ s, pm_mem (k_pm s));
  mret (r, bytes (Z.to_nat max) m kbuf).
