(* ===== verification/Exec.v ===== *)
(** exec.c and elf.h: replacing the program of a process.

    The ELF header and the program headers are the bytes that readi() returns.  argv is the
    list of the kernel pages that hold the argument strings, a null pointer after the last.
    The array ustack is copied out from [kbuf], an address in the kernel. *)
From S2P Require Import Prelude Machine CString Spinlock Kalloc PageTable Vm Sched Proc Sleeplock Bio Log Fs UserCopy Args.

(** elf.h *)
Definition ELF_MAGIC : Z := 0x464C457F.
Definition ELF_PROG_LOAD : Z := 1.
Definition sizeof_elfhdr : Z := 64.
Definition sizeof_proghdr : Z := 56.
Definition ld64 (data : list Z) (off : Z) : Z := load64 (lmem data) off.

Definition elf_magic (h : list Z) : Z := ld32 h 0.
Definition elf_entry (h : list Z) : Z := ld64 h 24.
Definition elf_phoff (h : list Z) : Z := ld64 h 32.
Definition elf_phnum (h : list Z) : Z := ld16 h 56.

Definition ph_type (h : list Z) : Z := ld32 h 0.
Definition ph_off (h : list Z) : Z := ld64 h 8.
Definition ph_vaddr (h : list Z) : Z := ld64 h 16.
Definition ph_filesz (h : list Z) : Z := ld64 h 32.
Definition ph_memsz (h : list Z) : Z := ld64 h 40.

(** The program's name: the path after its last slash *)
Fixpoint last_elem (last path : list Z) : list Z :=
  match path with
  | [] => last
  | c :: path => if c =? 0 then last else last_elem (if c =? SLASH then path else last) path
  end.

(** safestrcpy(p->name, last, sizeof(p->name)) *)
Definition put_pname (name last : list Z) : list Z := bytes 16 (safestrcpy (two name last) 0 4096 16) 0.

Section exec.
Context {D : Type} `{Symbols} `{KernelBuf} `{!Driver kst D} `{!Caller kst}.
Context (name0 : list Z).
Abbreviation st := (fsst kst D).

(** readi() to a kernel address *)
Definition readi_at (fuel : nat) (ip dst off n : Z) : M st Z :=
  r ← readi fuel ip ToKernel off n;
  on_p (on_pm (modify (λ m, set_mem (put_kbuf (pm_mem m) dst (snd r)) m)));;
  mret (fst r).

(** loadseg() *)
Fixpoint loadseg_loop (fuel k : nat) (pagetable va ip offset sz i : Z) : M st Z :=
  if i <? sz then
    match k with
    | O => no_fuel
    | S k =>
      pa ← on_p (on_pm (walkaddr pagetable (u64 (va + i))));
      if pa =? 0 then panic "loadseg: address should exist"
      else
        let n := if sz - i <? PGSIZE then sz - i else PGSIZE in
        r ← readi_at fuel ip pa (u32 (offset + i)) n;
        if negb (u32 r =? n) then mret (-1)
        else loadseg_loop fuel k pagetable va ip offset sz (u32 (i + PGSIZE))
    end
  else mret 0.

Definition loadseg (fuel : nat) (pagetable va ip offset sz : Z) : M st Z :=
  if negb (va mod PGSIZE =? 0) then panic "loadseg: va must be page aligned"
  else loadseg_loop fuel (Z.to_nat (sz / PGSIZE + 1)) pagetable va ip offset sz 0.

(** The loop over the program headers: whether it went to bad, and sz *)
Fixpoint load_loop (fuel k : nat) (pagetable ip off sz : Z) : M st (bool * Z) :=
  match k with
  | O => mret (true, sz)
  | S k =>
    r ← readi fuel ip ToKernel (u32 off) sizeof_proghdr;
    if negb (fst r =? sizeof_proghdr) then mret (false, sz)
    else
      let ph := snd r in
      if negb (ph_type ph =? ELF_PROG_LOAD) then load_loop fuel k pagetable ip (s32 (off + sizeof_proghdr)) sz
      else if ph_memsz ph <? ph_filesz ph then mret (false, sz)
      else if u64 (ph_vaddr ph + ph_memsz ph) <? ph_vaddr ph then mret (false, sz)
      else
        sz1 ← on_p (on_pm (uvmalloc pagetable sz (u64 (ph_vaddr ph + ph_memsz ph))));
        if sz1 =? 0 then mret (false, sz)
        else
          let sz := sz1 in
          if negb (ph_vaddr ph mod PGSIZE =? 0) then mret (false, sz)
          else
            r ← loadseg fuel pagetable (ph_vaddr ph) ip (u32 (ph_off ph)) (u32 (ph_filesz ph));
            if r <? 0 then mret (false, sz)
            else load_loop fuel k pagetable ip (s32 (off + sizeof_proghdr)) sz
  end.

(** The loop that pushes the argument strings: whether it went to bad, sp and ustack *)
Fixpoint push_args (argv : list Z) (argc pagetable sp stackbase : Z) (ustack : list Z) : M kst (bool * Z * list Z) :=
  match argv with
  | [] => mret (true, sp, ustack)
  | a :: argv =>
    if a =? 0 then mret (true, sp, ustack)
    else if MAXARG <=? argc then mret (false, sp, ustack)
    else
      m ← gets (λ s, pm_mem (k_pm s));
      match strlen (Z.to_nat PGSIZE) m a with
      | None => no_fuel
      | Some len =>
        let sp := u64 (sp - (len + 1)) in
        let sp := sp - sp mod 16 in
        if sp <? stackbase then mret (false, sp, ustack)
        else
          r ← on_pm (copyout pagetable sp a (len + 1));
          if r <? 0 then mret (false, sp, ustack)
          else push_args argv (argc + 1) pagetable sp stackbase (ustack ++ [sp])
      end
  end.

(** The bytes of ustack *)
Definition words_bytes (ws : list Z) : list Z := concat (map (λ w, st_bytes 8 (replicate 8 0) 0 w) ws).

(** bad: *)
Definition exec_bad (fuel : nat) (pagetable sz : Z) (ip : option Z) : M st Z :=
  when_ (negb (pagetable =? 0)) (on_p (proc_freepagetable pagetable sz));;
  match ip with
  | Some ip => iunlockput fuel ip;; on_l (end_op fuel)
  | None => mret ()
  end;;
  mret (-1).

(** From the allocation of the stack on *)
Definition exec_commit (fuel : nat) (pagetable sz : Z) (elf path argv : list Z) : M st Z :=
  p ← on_p my;
  x ← on_p (getp p);
  let oldsz := p_sz x in
  let sz := PGROUNDUP sz in
  sz1 ← on_p (on_pm (uvmalloc pagetable sz (u64 (sz + 2 * PGSIZE))));
  if sz1 =? 0 then exec_bad fuel pagetable sz None
  else
    let sz := sz1 in
    on_p (on_pm (uvmclear pagetable (u64 (sz - 2 * PGSIZE))));;
    let stackbase := u64 (sz - PGSIZE) in
    r ← on_p (push_args argv 0 pagetable sz stackbase []);
    let '(ok, sp, ustack) := r in
    if negb ok then exec_bad fuel pagetable sz None
    else
      let argc := Z.of_nat (length ustack) in
      let sp := u64 (sp - (argc + 1) * 8) in
      let sp := sp - sp mod 16 in
      if sp <? stackbase then exec_bad fuel pagetable sz None
      else
        on_p (stage (words_bytes (ustack ++ [0])));;
        r ← on_p (on_pm (copyout pagetable sp kbuf ((argc + 1) * 8)));
        if r <? 0 then exec_bad fuel pagetable sz None
        else
          on_p (put_tf p tf_a1 sp);;
          on_p (putp p (λ x, set_name (put_pname (p_name x) (last_elem path path)) x));;
          x ← on_p (getp p);
          let oldpagetable := p_pagetable x in
          on_p (putp p (set_pagetable pagetable));;
          on_p (putp p (set_sz sz));;
          on_p (put_tf p tf_epc (elf_entry elf));;
          on_p (put_tf p tf_sp sp);;
          on_p (proc_freepagetable oldpagetable oldsz);;
          mret (s32 argc).

(** exec() *)
Definition exec (fuel : nat) (path argv : list Z) : M st Z :=
  p ← on_p my;
  on_l (begin_op fuel);;
  r ← namei fuel path name0;
  match r with
  | None => on_l (end_op fuel);; mret (-1)
  | Some ip =>
    ilock fuel (Some ip);;
    r ← readi fuel ip ToKernel 0 sizeof_elfhdr;
    if negb (fst r =? sizeof_elfhdr) then exec_bad fuel 0 0 (Some ip)
    else
      let elf := snd r in
      if negb (elf_magic elf =? ELF_MAGIC) then exec_bad fuel 0 0 (Some ip)
      else
        pagetable ← on_p (proc_pagetable p);
        if pagetable =? 0 then exec_bad fuel 0 0 (Some ip)
        else
          r ← load_loop fuel (Z.to_nat (elf_phnum elf)) pagetable ip (s32 (elf_phoff elf)) 0;
          let '(ok, sz) := r in
          if negb ok then exec_bad fuel pagetable sz (Some ip)
          else
            iunlockput fuel ip;;
            on_l (end_op fuel);;
            exec_commit fuel pagetable sz elf path argv
  end.
End exec.
