(* ===== verification/Sysfile.v ===== *)
(** sysfile.c: the file-system system calls.

    A system call that returns -1 as a uint64 is -1 here.  What a buffer on the kernel stack
    holds before it is written is a parameter: [name0] of a name, [de0] of a directory
    entry, [pad0] of the padding in a struct stat. *)
From S2P Require Import Prelude Machine CString Spinlock Kalloc PageTable Vm Sched Proc ProcSpec Sleeplock Bio Log Fs UserMem Shared UserCopy Pipe ProcUser Uart Printf Console File Args.

(** fcntl.h *)
Definition O_RDONLY : Z := 0x000.
Definition O_WRONLY : Z := 0x001.
Definition O_RDWR : Z := 0x002.
Definition O_CREATE : Z := 0x200.
Definition O_TRUNC : Z := 0x400.

Definition set_ofile v p := mkProc (p_lock p) (p_state p) (p_parent p) (p_chan p) (p_killed p) (p_xstate p) (p_pid p) (p_kstack p) (p_sz p) (p_pagetable p) (p_trapframe p) (p_context p) v (p_cwd p) (p_name p).
Definition set_cwd v p := mkProc (p_lock p) (p_state p) (p_parent p) (p_chan p) (p_killed p) (p_xstate p) (p_pid p) (p_kstack p) (p_sz p) (p_pagetable p) (p_trapframe p) (p_context p) (p_ofile p) v (p_name p).

Section sysfile.
Context {D U : Type} `{Symbols} `{KernelBuf} `{!Driver kst D} `{!Chip U}.
Context (name0 de0 pad0 : list Z).
Abbreviation st := (sys kst D U).

Definition on_k {A} (m : M kst A) : M st A := on_proc m.

(** A flag of the open mode *)
Definition flag (omode f : Z) : bool := negb (Z.land omode f =? 0).

(** argfd(): fd and f, or None when it returns -1 *)
Definition argfd (n : Z) : M st (option (Z * Z)) :=
  fd ← on_k (argint n);
  if (fd <? 0) || (NOFILE <=? fd) then mret None
  else
    p ← on_k my;
    x ← on_k (getp p);
    match p_ofile x fd with
    | None => mret None
    | Some f => mret (Some (fd, f))
    end.

(** fdalloc() *)
Fixpoint fdalloc_loop (k : nat) (p f fd : Z) : M kst Z :=
  match k with
  | O => mret (-1)
  | S k =>
    x ← getp p;
    if decide (p_ofile x fd = None) then
      putp p (λ x, set_ofile (upd (p_ofile x) fd (Some f)) x);; mret fd
    else fdalloc_loop k p f (fd + 1)
  end.
Definition fdalloc (f : Z) : M kst Z :=
  p ← my;
  fdalloc_loop (Z.to_nat NOFILE) p f 0.

(** p->ofile[fd] = 0 *)
Definition fdclear (p fd : Z) : M kst unit := putp p (λ x, set_ofile (upd (p_ofile x) fd None) x).

Definition sys_dup : M st Z :=
  r ← argfd 0;
  match r with
  | None => mret (-1)
  | Some (_, f) =>
    fd ← on_k (fdalloc f);
    if fd <? 0 then mret (-1) else filedup f;; mret fd
  end.

Definition sys_read (fuel : nat) : M st Z :=
  r ← argfd 0;
  match r with
  | None => mret (-1)
  | Some (_, f) =>
    n ← on_k (argint 2);
    p ← on_k (argaddr 1);
    fileread fuel f p n
  end.

Definition sys_write (fuel : nat) : M st Z :=
  r ← argfd 0;
  match r with
  | None => mret (-1)
  | Some (_, f) =>
    n ← on_k (argint 2);
    p ← on_k (argaddr 1);
    filewrite fuel f p n
  end.

Definition sys_close (fuel : nat) : M st Z :=
  r ← argfd 0;
  match r with
  | None => mret (-1)
  | Some (fd, f) =>
    p ← on_k my;
    on_k (fdclear p fd);;
    fileclose fuel f;;
    mret 0
  end.

Definition sys_fstat (fuel : nat) : M st Z :=
  r ← argfd 0;
  match r with
  | None => mret (-1)
  | Some (_, f) =>
    addr ← on_k (argaddr 1);
    filestat fuel f addr pad0
  end.

Definition begin_ (fuel : nat) : M st unit := on_fs (on_l (begin_op fuel)).
Definition end_ (fuel : nat) : M st unit := on_fs (on_l (end_op fuel)).

(** sys_link(): the part from bad: on, and the call *)
Definition link_bad (fuel : nat) (ip : Z) : M st Z :=
  on_fs (ilock fuel (Some ip);;
         puti ip (λ x, set_nlink (s16 (i_nlink x - 1)) x);;
         iupdate fuel ip;;
         iunlockput fuel ip);;
  end_ fuel;;
  mret (-1).

Definition sys_link (fuel : nat) : M st Z :=
  old ← on_k (argpath 0 MAXPATH);
  if fst old <? 0 then mret (-1)
  else
    new ← on_k (argpath 1 MAXPATH);
    if fst new <? 0 then mret (-1)
    else
      begin_ fuel;;
      r ← on_fs (namei fuel (snd old) name0);
      match r with
      | None => end_ fuel;; mret (-1)
      | Some ip =>
        on_fs (ilock fuel (Some ip));;
        x ← on_fs (geti ip);
        if i_type x =? T_DIR then
          on_fs (iunlockput fuel ip);; end_ fuel;; mret (-1)
        else
          on_fs (puti ip (λ x, set_nlink (s16 (i_nlink x + 1)) x);;
                 iupdate fuel ip;;
                 iunlock (Some ip));;
          r ← on_fs (nameiparent fuel (snd new) name0);
          match r with
          | (None, _) => link_bad fuel ip
          | (Some dp, name) =>
            on_fs (ilock fuel (Some dp));;
            d ← on_fs (geti dp);
            x ← on_fs (geti ip);
            bad ← (if negb (i_dev d =? i_dev x) then mret true
                   else r ← on_fs (dirlink fuel dp name (i_inum x) de0); mret (r <? 0));
            if (bad : bool) then
              on_fs (iunlockput fuel dp);; link_bad fuel ip
            else
              on_fs (iunlockput fuel dp);;
              on_fs (iput fuel ip);;
              end_ fuel;;
              mret 0
          end
      end.

(** isdirempty() *)
Fixpoint isdirempty_loop (fuel k : nat) (dp off : Z) : M (fsst kst D) bool :=
  x ← geti dp;
  if off <? i_size x then
    match k with
    | O => no_fuel
    | S k =>
      p ← readi fuel dp ToKernel off sizeof_dirent;
      if negb (fst p =? sizeof_dirent) then panic "isdirempty: readi"
      else if negb (de_inum (snd p) =? 0) then mret false
      else isdirempty_loop fuel k dp (off + sizeof_dirent)
    end
  else mret true.
Definition isdirempty (fuel : nat) (dp : Z) : M (fsst kst D) bool :=
  x ← geti dp;
  isdirempty_loop fuel (Z.to_nat (i_size x / sizeof_dirent + 1)) dp (2 * sizeof_dirent).

Definition DOT : list Z := [46].
Definition DOTDOT : list Z := [46; 46].

(** sys_unlink() *)
Definition unlink_bad (fuel : nat) (dp : Z) : M st Z :=
  on_fs (iunlockput fuel dp);; end_ fuel;; mret (-1).

Definition sys_unlink (fuel : nat) : M st Z :=
  path ← on_k (argpath 0 MAXPATH);
  if fst path <? 0 then mret (-1)
  else
    begin_ fuel;;
    r ← on_fs (nameiparent fuel (snd path) name0);
    match r with
    | (None, _) => end_ fuel;; mret (-1)
    | (Some dp, name) =>
      on_fs (ilock fuel (Some dp));;
      if (namecmp name DOT =? 0) || (namecmp name DOTDOT =? 0) then unlink_bad fuel dp
      else
        r ← on_fs (dirlookup fuel dp name);
        match r with
        | None => unlink_bad fuel dp
        | Some (ip, off) =>
          on_fs (ilock fuel (Some ip));;
          x ← on_fs (geti ip);
          if i_nlink x <? 1 then panic "unlink: nlink < 1"
          else
            bad ← (if i_type x =? T_DIR then e ← on_fs (isdirempty fuel ip); mret (negb e) else mret false);
            if (bad : bool) then
              on_fs (iunlockput fuel ip);; unlink_bad fuel dp
            else
              r ← on_fs (writei fuel dp (FromKernel (replicate (Z.to_nat sizeof_dirent) 0)) off sizeof_dirent);
              if negb (r =? sizeof_dirent) then panic "unlink: writei"
              else
                x ← on_fs (geti ip);
                when_ (i_type x =? T_DIR)
                  (on_fs (puti dp (λ d, set_nlink (s16 (i_nlink d - 1)) d);; iupdate fuel dp));;
                on_fs (iunlockput fuel dp);;
                on_fs (puti ip (λ x, set_nlink (s16 (i_nlink x - 1)) x);;
                       iupdate fuel ip;;
                       iunlockput fuel ip);;
                end_ fuel;;
                mret 0
        end
    end.

(** create(): the inode, locked *)
Definition create (fuel : nat) (path : list Z) (type major minor : Z) : M (fsst kst D) (option Z) :=
  r ← nameiparent fuel path name0;
  match r with
  | (None, _) => mret None
  | (Some dp, name) =>
    ilock fuel (Some dp);;
    r ← dirlookup fuel dp name;
    match r with
    | Some (ip, _) =>
      iunlockput fuel dp;;
      ilock fuel (Some ip);;
      x ← geti ip;
      if (type =? T_FILE) && ((i_type x =? T_FILE) || (i_type x =? T_DEVICE)) then mret (Some ip)
      else iunlockput fuel ip;; mret None
    | None =>
      d ← geti dp;
      ip ← ialloc fuel (i_dev d) type;
      ilock fuel (Some ip);;
      puti ip (set_major major);;
      puti ip (set_minor minor);;
      puti ip (set_nlink 1);;
      iupdate fuel ip;;
      x ← geti ip;
      when_ (type =? T_DIR)
        (puti dp (λ d, set_nlink (s16 (i_nlink d + 1)) d);;
         iupdate fuel dp;;
         r ← dirlink fuel ip DOT (i_inum x) de0;
         bad ← (if r <? 0 then mret true
                else d ← geti dp; r ← dirlink fuel ip DOTDOT (i_inum d) de0; mret (r <? 0));
         if (bad : bool) then panic "create dots" else mret ());;
      r ← dirlink fuel dp name (i_inum x) de0;
      if r <? 0 then panic "create: dirlink"
      else iunlockput fuel dp;; mret (Some ip)
    end
  end.

(** sys_open(): with the inode locked *)
Definition open_fail (fuel : nat) (ip : Z) : M st Z :=
  on_fs (iunlockput fuel ip);; end_ fuel;; mret (-1).

Definition open_inode (fuel : nat) (ip omode : Z) : M st Z :=
  x ← on_fs (geti ip);
  if (i_type x =? T_DEVICE) && ((i_major x <? 0) || (NDEV <=? i_major x)) then open_fail fuel ip
  else
    f ← filealloc;
    match f with
    | None => open_fail fuel ip
    | Some f =>
      fd ← on_k (fdalloc f);
      if fd <? 0 then fileclose fuel f;; open_fail fuel ip
      else
        (if i_type x =? T_DEVICE then
           putf f (set_ftype FD_DEVICE);; putf f (set_fmajor (i_major x))
         else
           putf f (set_ftype FD_INODE);; putf f (set_foff 0));;
        putf f (set_fip (Some ip));;
        putf f (set_readable (b2z (negb (flag omode O_WRONLY))));;
        putf f (set_writable (b2z (flag omode O_WRONLY || flag omode O_RDWR)));;
        when_ (flag omode O_TRUNC && (i_type x =? T_FILE)) (on_fs (itrunc fuel ip));;
        on_fs (iunlock (Some ip));;
        end_ fuel;;
        mret fd
    end.

Definition sys_open (fuel : nat) : M st Z :=
  path ← on_k (argpath 0 MAXPATH);
  if fst path <? 0 then mret (-1)
  else
    omode ← on_k (argint 1);
    begin_ fuel;;
    if flag omode O_CREATE then
      r ← on_fs (create fuel (snd path) T_FILE 0 0);
      match r with
      | None => end_ fuel;; mret (-1)
      | Some ip => open_inode fuel ip omode
      end
    else
      r ← on_fs (namei fuel (snd path) name0);
      match r with
      | None => end_ fuel;; mret (-1)
      | Some ip =>
        on_fs (ilock fuel (Some ip));;
        x ← on_fs (geti ip);
        if (i_type x =? T_DIR) && negb (omode =? O_RDONLY) then open_fail fuel ip
        else open_inode fuel ip omode
      end.

Definition sys_mkdir (fuel : nat) : M st Z :=
  begin_ fuel;;
  path ← on_k (argpath 0 MAXPATH);
  r ← (if fst path <? 0 then mret None else on_fs (create fuel (snd path) T_DIR 0 0));
  match r with
  | None => end_ fuel;; mret (-1)
  | Some ip => on_fs (iunlockput fuel ip);; end_ fuel;; mret 0
  end.

Definition sys_mknod (fuel : nat) : M st Z :=
  begin_ fuel;;
  path ← on_k (argpath 0 MAXPATH);
  r ← (if fst path <? 0 then mret None
       else
         major ← on_k (argint 1);
         minor ← on_k (argint 2);
         on_fs (create fuel (snd path) T_DEVICE (s16 major) (s16 minor)));
  match r with
  | None => end_ fuel;; mret (-1)
  | Some ip => on_fs (iunlockput fuel ip);; end_ fuel;; mret 0
  end.

Definition sys_chdir (fuel : nat) : M st Z :=
  p ← on_k my;
  begin_ fuel;;
  path ← on_k (argpath 0 MAXPATH);
  r ← (if fst path <? 0 then mret None else on_fs (namei fuel (snd path) name0));
  match r with
  | None => end_ fuel;; mret (-1)
  | Some ip =>
    on_fs (ilock fuel (Some ip));;
    x ← on_fs (geti ip);
    if negb (i_type x =? T_DIR) then
      on_fs (iunlockput fuel ip);; end_ fuel;; mret (-1)
    else
      on_fs (iunlock (Some ip));;
      y ← on_k (getp p);
      match p_cwd y with Some cwd => on_fs (iput fuel cwd) | None => panic "kerneltrap" end;;
      end_ fuel;;
      on_k (putp p (set_cwd (Some ip)));;
      mret 0
  end.

(** sys_pipe(); an int in memory is four bytes *)
Definition int_bytes (v : Z) : list Z := st_bytes 4 (replicate 4 0) 0 v.

Definition sys_pipe (fuel : nat) : M st Z :=
  p ← on_k my;
  fdarray ← on_k (argaddr 0);
  r ← pipealloc fuel;
  match r with
  | None => mret (-1)
  | Some (rf, wf) =>
    fd0 ← on_k (fdalloc rf);
    fd1 ← (if fd0 <? 0 then mret (-1) else on_k (fdalloc wf));
    if fd1 <? 0 then
      when_ (0 <=? fd0) (on_k (fdclear p fd0));;
      fileclose fuel rf;;
      fileclose fuel wf;;
      mret (-1)
    else
      r ← on_k (copyout_bytes fdarray (int_bytes fd0));
      r ← (if r <? 0 then mret r else on_k (copyout_bytes (u64 (fdarray + 4)) (int_bytes fd1)));
      if r <? 0 then
        on_k (fdclear p fd0);;
        on_k (fdclear p fd1);;
        fileclose fuel rf;;
        fileclose fuel wf;;
        mret (-1)
      else mret 0
  end.
End sysfile.
