(* ===== verification/Fork.v ===== *)
(** proc.c: the operations on processes that involve files: userinit(), fork(), exit(),
    forkret(), and procinit(), which maps the kernel stacks.

    [forkret] is the address of forkret(), where a new process starts. *)
From S2P Require Import Prelude Machine CString Spinlock Kalloc PageTable Vm Sched Proc ProcSpec Sleeplock Bio Log Fs UserMem Shared UserCopy Pipe ProcUser Uart Printf Console File Args Exec Sysfile.

(** ** procinit(), on the process layer and the kernel's page table with satp *)
Definition set_kstack v p := mkProc (p_lock p) (p_state p) (p_parent p) (p_chan p) (p_killed p) (p_xstate p) (p_pid p) v (p_sz p) (p_pagetable p) (p_trapframe p) (p_context p) (p_ofile p) (p_cwd p) (p_name p).
Definition set_initproc v (s : kst) := mkK (k_pm s) (c_proc s) (procs s) (pid_lock s) (nextpid s) v.

Definition on_kvm {A} (m : M kvm A) : M (kst * (Z * Z)) A :=
  zoom (λ '(s, (pt, sa)), mkKvm (k_pm s) pt sa) (λ v '(s, _), (set_pm (kv_pm v) s, (kernel_pagetable v, satp v))) m.
Definition on_kst {A} (m : M kst A) : M (kst * (Z * Z)) A := zoom fst (λ s '(_, r), (s, r)) m.

Fixpoint procinit_loop (k : nat) (i : Z) : M (kst * (Z * Z)) unit :=
  match k with
  | O => mret ()
  | S k =>
    on_kst (putp i (set_plock (initlock "proc")));;
    pa ← on_kst (on_pm kalloc);
    if pa =? 0 then panic "kalloc"
    else
      let va := KSTACK i in
      on_kvm (kvmmap va pa PGSIZE (Z.lor PTE_R PTE_W));;
      on_kst (putp i (set_kstack va));;
      procinit_loop k (i + 1)
  end.
Definition procinit : M (kst * (Z * Z)) unit :=
  on_kst (modify (set_pidlock (initlock "nextpid")));;
  procinit_loop (Z.to_nat NPROC) 0;;
  on_kvm kvminithart.

(** initcode[] *)
Definition initcode : list Z := [
  0x17; 0x05; 0x00; 0x00; 0x13; 0x05; 0x45; 0x02;
  0x97; 0x05; 0x00; 0x00; 0x93; 0x85; 0x35; 0x02;
  0x93; 0x08; 0x70; 0x00; 0x73; 0x00; 0x00; 0x00;
  0x93; 0x08; 0x20; 0x00; 0x73; 0x00; 0x00; 0x00;
  0xef; 0xf0; 0x9f; 0xff; 0x2f; 0x69; 0x6e; 0x69;
  0x74; 0x00; 0x00; 0x24; 0x00; 0x00; 0x00; 0x00;
  0x00; 0x00; 0x00; 0x00].

(** "initcode" *)
Definition initcode_name : list Z := [105; 110; 105; 116; 99; 111; 100; 101].

Section fork.
Context {D U : Type} `{Symbols} `{KernelBuf} `{!Driver kst D} `{!Chip U}.
Context (name0 : list Z) (forkret_addr : Z).
Abbreviation st := (sys kst D U).

(** userinit() *)
Definition userinit (fuel : nat) : M st unit :=
  r ← on_k (allocproc forkret_addr);
  on_k (modify (set_initproc r));;
  p ← on_k (deref r);
  x ← on_k (getp p);
  on_k (stage initcode);;
  on_k (on_pm (uvminit (p_pagetable x) kbuf (Z.of_nat (length initcode))));;
  on_k (putp p (set_sz PGSIZE));;
  on_k (put_tf p tf_epc 0);;
  on_k (put_tf p tf_sp PGSIZE);;
  on_k (putp p (λ x, set_name (put_pname (p_name x) initcode_name) x));;
  cwd ← on_fs (namei fuel [SLASH] name0);
  on_k (putp p (set_cwd cwd));;
  on_k (putp p (set_state RUNNABLE));;
  on_k (on_plock p release).

(** fork(): the loop over the open files *)
Fixpoint dup_files (k : nat) (p np i : Z) : M st unit :=
  match k with
  | O => mret ()
  | S k =>
    x ← on_k (getp p);
    match p_ofile x i with
    | Some f =>
      f ← filedup f;
      on_k (putp np (λ y, set_ofile (upd (p_ofile y) i (Some f)) y))
    | None => mret ()
    end;;
    dup_files k p np (i + 1)
  end.

(** *(np->trapframe) = *(p->trapframe) *)
Definition copy_tf (p np : Z) : M kst unit :=
  x ← getp p;
  y ← getp np;
  on_pm (modify (λ m, set_mem (put_kbuf (pm_mem m) (p_trapframe y)
                                 (bytes (Z.to_nat sizeof_trapframe) (pm_mem m) (p_trapframe x))) m)).

Definition fork : M st Z :=
  p ← on_k my;
  r ← on_k (allocproc forkret_addr);
  match r with
  | None => mret (-1)
  | Some np =>
    x ← on_k (getp p);
    y ← on_k (getp np);
    r ← on_k (on_pm (uvmcopy (p_pagetable x) (p_pagetable y) (p_sz x)));
    if r <? 0 then
      on_k (freeproc np);; on_k (on_plock np release);; mret (-1)
    else
      x ← on_k (getp p);
      on_k (putp np (set_sz (p_sz x)));;
      on_k (putp np (set_parent (Some p)));;
      on_k (copy_tf p np);;
      on_k (put_tf np tf_a0 0);;
      dup_files (Z.to_nat NOFILE) p np 0;;
      x ← on_k (getp p);
      cwd ← match p_cwd x with Some cwd => on_fs (idup cwd) | None => panic "kerneltrap" end;
      on_k (putp np (set_cwd (Some cwd)));;
      on_k (putp np (λ y, set_name (put_pname (p_name y) (p_name x)) y));;
      y ← on_k (getp np);
      let pid := p_pid y in
      on_k (putp np (set_state RUNNABLE));;
      on_k (on_plock np release);;
      mret pid
  end.

(** exit(); it never returns *)
Fixpoint close_files (fuel k : nat) (p fd : Z) : M st unit :=
  match k with
  | O => mret ()
  | S k =>
    x ← on_k (getp p);
    match p_ofile x fd with
    | Some f => fileclose fuel f;; on_k (fdclear p fd)
    | None => mret ()
    end;;
    close_files fuel k p (fd + 1)
  end.

Definition exit (fuel : nat) (status : Z) : M st Z :=
  p ← on_k my;
  ip ← on_k (gets initproc);
  if decide (ip = Some p) then panic "init exiting"
  else
    close_files fuel (Z.to_nat NOFILE) p 0;;
    begin_ fuel;;
    x ← on_k (getp p);
    match p_cwd x with Some cwd => on_fs (iput fuel cwd) | None => panic "kerneltrap" end;;
    end_ fuel;;
    on_k (putp p (set_cwd None));;
    ip ← on_k (gets initproc);
    init ← on_k (deref ip);
    on_k (on_plock init acquire);;
    on_k (wakeup1 init);;
    on_k (on_plock init release);;
    on_k (on_plock p acquire);;
    x ← on_k (getp p);
    let original_parent := p_parent x in
    on_k (on_plock p release);;
    pp ← on_k (deref original_parent);
    on_k (on_plock pp acquire);;
    on_k (on_plock p acquire);;
    on_k (reparent p);;
    on_k (wakeup1 pp);;
    on_k (putp p (set_xstate status));;
    on_k (putp p (set_state ZOMBIE));;
    on_k (on_plock pp release);;
    on_k sched;;
    panic "zombie exit".

(** forkret() up to usertrapret(); [first] is the static variable *)
Definition forkret (fuel : nat) (first : bool) : M st bool :=
  p ← on_k my;
  on_k (on_plock p release);;
  when_ first (on_fs (fsinit fuel ROOTDEV));;
  mret false.
End fork.
