(* ===== verification/Sysproc.v ===== *)
(** sysproc.c and the clock of trap.c: the system calls on processes, and the ticks.

    [clock] is tickslock with ticks.  The parts of sys_sleep(), sys_uptime() and clockintr()
    that work on it run on any process layer.  [fuel] bounds how often sys_sleep() is woken. *)
From S2P Require Import Prelude Machine CString Spinlock Kalloc PageTable Vm VmUser Sched Proc ProcSpec Sleeplock Bio Log Fs UserMem Shared UserCopy Pipe ProcUser Uart Printf Console File Args Exec Sysfile Fork.

Record clock := mkClock { tickslock : spinlock; ticks : Z }.
Definition set_tickslock v c := mkClock v (ticks c).
Definition set_ticks v c := mkClock (tickslock c) v.
#[export] Instance clock_locked : Locked clock := { lk_of := tickslock; with_lk := set_tickslock }.

Section clock.
Context {P : Type} `{Sched P}.

Definition getck : M (P * clock) clock := gets snd.

(** trapinit(), clockintr() *)
Definition trapinit : M (P * clock) unit := modify (λ '(p, c), (p, set_tickslock (initlock "time") c)).
Definition clockintr : M (P * clock) unit :=
  on_lock acq;;
  modify (λ '(p, c), (p, set_ticks (u32 (ticks c + 1)) c));;
  on_sched (sc_wakeup CTicks);;
  on_lock rel.

(** sys_sleep() after argint(); n is converted to uint in the comparison *)
Fixpoint sleep_loop (fuel : nat) (n ticks0 : Z) : M (P * clock) Z :=
  c ← getck;
  if u32 (ticks c - ticks0) <? u32 n then
    k ← on_sched sc_killed;
    if (k : bool) then on_lock rel;; mret (-1)
    else
      match fuel with
      | O => no_fuel
      | S fuel => on_lock (sleep CTicks);; sleep_loop fuel n ticks0
      end
  else on_lock rel;; mret 0.
Definition sleep_ticks (fuel : nat) (n : Z) : M (P * clock) Z :=
  on_lock acq;;
  c ← getck;
  sleep_loop fuel n (ticks c).

(** sys_uptime() *)
Definition uptime : M (P * clock) Z :=
  on_lock acq;;
  c ← getck;
  on_lock rel;;
  mret (ticks c).
End clock.

(** ** Sleeping for a number of ticks *)
Definition clock_ok (c : clock) : Prop := 0 ≤ ticks c < 2 ^ 32.
Definition clock_kept (c : clock) (bs : list Z) (c' : clock) : Prop := bs = [] ∧ ticks c' = ticks c.

Lemma clock_plain : plain clock_ok clock_kept.
Proof. by split. Qed.

(** Ticks since [c0] *)
Definition elapsed (c0 c : clock) : Z := u32 (ticks c - ticks c0).

Section sleeping.
Context {P : Type} `{SchedOk P} `{!Caller P} `{!UserMem P}.

(** The other threads, and clockintr(), which lets at least one tick pass before the thread runs again *)
Definition tick_between (s s' : P * clock) : Prop :=
  others clock_ok s s' ∧ ∃ d, 1 ≤ d ≤ 2 ^ 31 ∧ ticks (snd s') = u32 (ticks (snd s) + d).

Record slept (c0 : clock) (f : Z → option Z) (n : Z) (tr : list ((P * clock) * (P * clock))) (r : Z) (s : P * clock) : Prop := {
  sl_done : done_with clock_ok clock_kept c0 f tr [] (fst s) (snd s);
  sl_turns : Z.of_nat (length tr) ≤ n;
  sl_result : (r = 0 ∧ n ≤ elapsed c0 (snd s)) ∨ (r = -1 ∧ so_kill (fst s) = true ∧ elapsed c0 (snd s) < n)
}.

Lemma elapsed_step c0 c c' d n :
  clock_ok c0 → clock_ok c → 1 ≤ d ≤ 2 ^ 31 → ticks c' = u32 (ticks c + d) → elapsed c0 c < n < 2 ^ 31 →
  elapsed c0 c' = elapsed c0 c + d.
Proof.
  unfold elapsed, clock_ok, u32. intros Hc0 Hc Hd -> Hn. rewrite Zminus_mod_idemp_l.
  replace (ticks c + d - ticks c0) with (ticks c - ticks c0 + d) by lia.
  rewrite <- Zplus_mod_idemp_l. apply Z.mod_small. pose proof (Z.mod_pos_bound (ticks c - ticks c0) (2 ^ 32)). lia.
Qed.

Lemma serves_sleep_loop c0 f n fuel bound tr q c :
  turn clock_ok clock_kept c0 f tr [] q c → clock_ok c0 → 0 ≤ n < 2 ^ 31 → Z.of_nat (length tr) ≤ n →
  Z.of_nat (length tr) ≤ elapsed c0 c → n ≤ Z.of_nat (fuel + length tr) →
  serves tick_between bound (slept c0 f n) tr (sleep_loop fuel n (ticks c0) (q, c)).
Proof.
  intros Ht Hc0 Hn. revert tr q c Ht. induction fuel as [|fuel IH]; intros tr q c Ht Hln Hle Hf; cbn [sleep_loop];
    apply serves_step, wp_gets; cbn [snd]; rewrite (u32_small n) by lia; fold (elapsed c0 c);
    (destruct (Z.ltb_spec (elapsed c0 c) n) as [Hlt|Hge];
     [|apply serves_step; eapply (wp_give clock_ok clock_kept clock_plain); [exact Ht|]; intros p lk Hdw Hk;
       split; [exact Hdw|exact Hln|left; split; [done|exact Hge]]]);
    apply serves_step; (eapply wp_turn_killed; [exact Ht|]);
    (destruct (so_kill q) eqn:Hkill;
     [apply serves_step; eapply (wp_give clock_ok clock_kept clock_plain); [exact Ht|]; intros p lk Hdw Hk;
      split; [exact Hdw|exact Hln|right; cbn [fst snd]; split; [done|]; split; [congruence|exact Hlt]]|]).
  - lia.
  - eapply (serves_sleep_in clock_ok clock_kept clock_plain); [by intros s s' [? _]|exact Ht|].
    intros q1 lk1 q2 c2 q3 lk3 [_ (d & Hd & Et)] tr' Ht'. cbn [snd with_lk clock_locked set_tickslock ticks] in Et.
    assert (He : elapsed c0 c2 = elapsed c0 c + d) by (apply (elapsed_step c0 c c2 d n); [exact Hc0|apply Ht|exact Hd|exact Et|lia]).
    assert (Hlen : length tr' = S (length tr)) by (unfold tr'; rewrite length_app; cbn; lia).
    apply IH; [exact Ht'|lia| |lia]. change (elapsed c0 (with_lk lk3 c2)) with (elapsed c0 c2). lia.
Qed.

(** C34: sleep(n) ends. If, whenever the process gives up the processor, at least one clock tick (and at most
    2^31) goes by before it runs again, sys_sleep() of an [n] that is not negative is switched back to at most [n] times,
    never panics, and returns: 0, and then at least [n] ticks have passed since the call, also if the
    32-bit tick counter wrapped around; or -1 when the process was killed before that. The clock is left to
    clockintr(), its lock is free, and the process's memory is unchanged. *)
Theorem sleep_ticks_live fuel n bound (p : P) (c : clock) :
  so_inv p → noff (lget sc_hart p) = 0 → um_ok p → clock_ok c → lock_free (tickslock c) →
  0 ≤ n < 2 ^ 31 → n ≤ Z.of_nat fuel →
  serves tick_between bound (slept c (um_byte p) n) [] (sleep_ticks fuel n (p, c)).
Proof.
  intros Hp Hno Hu Hc Hl Hn Hf. apply serves_step.
  eapply (wp_take clock_ok clock_kept clock_plain c (um_byte p) [] []); [by apply done_with_start|].
  intros q lk Ht _. apply serves_step, wp_gets. cbn [snd].
  apply (serves_sleep_loop c); [exact Ht|exact Hc|lia|cbn; lia|apply u32_range|cbn; lia].
Qed.
End sleeping.

(** ** The system calls *)
Section sysproc.
Context {D U : Type} `{Symbols} `{KernelBuf} `{!Driver kst D} `{!Chip U}.
Context (forkret_addr : Z).
Abbreviation st := (sys kst D U * clock)%type.

Definition on_sys {A} (m : M (sys kst D U) A) : M st A := zoom fst (λ s '(_, c), (s, c)) m.
Definition on_clock {A} (m : M (kst * clock) A) : M st A :=
  zoom (λ '(s, c), (f_p (y_fs s), c)) (λ '(p, c) '(s, _), (set_yproc p s, c)) m.
Definition on_kp {A} (m : M kst A) : M st A := on_sys (on_k m).

Definition sys_exit (fuel : nat) : M st Z :=
  n ← on_kp (argint 0);
  on_sys (exit fuel n);;
  mret 0.

Definition sys_getpid : M st Z := p ← on_kp my; x ← on_kp (getp p); mret (p_pid x).

Definition sys_fork : M st Z := on_sys (fork forkret_addr).

Definition sys_wait (fuel : nat) : M st Z :=
  p ← on_kp (argaddr 0);
  on_kp (wait fuel p kbuf).

Definition sys_sbrk : M st Z :=
  n ← on_kp (argint 0);
  p ← on_kp my;
  x ← on_kp (getp p);
  let addr := s32 (p_sz x) in
  r ← on_kp (growproc n);
  if r <? 0 then mret (-1) else mret addr.

Definition sys_sleep (fuel : nat) : M st Z :=
  n ← on_kp (argint 0);
  on_clock (sleep_ticks fuel n).

Definition sys_kill : M st Z :=
  pid ← on_kp (argint 0);
  on_kp (kill pid).

Definition sys_uptime : M st Z := on_clock uptime.

(** sys_exec() of sysfile.c: the loop that fetches the argument strings; whether it went to bad, and argv *)
Fixpoint exec_args (k : nat) (uargv i : Z) (argv : list Z) : M kst (bool * list Z) :=
  match k with
  | O => mret (false, argv)
  | S k =>
    r ← fetchaddr (u64 (uargv + 8 * i)) kbuf;
    if fst r <? 0 then mret (false, argv)
    else if snd r =? 0 then mret (true, argv)
    else
      a ← on_pm kalloc;
      if a =? 0 then mret (false, argv)
      else
        n ← fetchstr (snd r) a PGSIZE;
        if n <? 0 then mret (false, argv ++ [a])
        else exec_args k uargv (i + 1) (argv ++ [a])
  end.

Fixpoint free_args (argv : list Z) : M kst unit :=
  match argv with
  | [] => mret ()
  | a :: argv => on_pm (kfree a);; free_args argv
  end.

Definition sys_exec (fuel : nat) (name0 : list Z) : M st Z :=
  path ← on_kp (argpath 0 MAXPATH);
  if fst path <? 0 then mret (-1)
  else
    uargv ← on_kp (argaddr 1);
    r ← on_kp (exec_args (Z.to_nat MAXARG) uargv 0 []);
    let '(ok, argv) := r in
    if negb ok then on_kp (free_args argv);; mret (-1)
    else
      ret ← on_sys (on_fs (exec name0 fuel (snd path) argv));
      on_kp (free_args argv);;
      mret ret.
End sysproc.

(** ** Witness: sleep(3) just before the tick counter wraps around *)
#[local] Existing Instance syms8.
#[local] Existing Instance kbuf16.
Definition clock8 : clock := mkClock (initlock "time") (2 ^ 32 - 2).

Lemma sleep_ticks_live_witness : ∃ p : kst, serves tick_between 4 (slept clock8 (um_byte p) 3) [] (sleep_ticks 3 3 (p, clock8)).
Proof.
  destruct proc8_ok as (p & Hp & Hn & Hu & _). exists p.
  apply (sleep_ticks_live 3 3 4 p clock8); [exact Hp|exact Hn|exact Hu|by split|by split|lia|lia].
Defined.
