(* ===== verification/Syscall.v ===== *)
(** syscall.c and syscall.h: the system call table.

    The number is in the user's a7, the result goes to its a0. *)
From S2P Require Import Prelude Machine CString Spinlock Kalloc PageTable Vm Sched Proc ProcSpec Sleeplock Bio Log Fs UserMem Shared UserCopy Pipe ProcUser Uart Printf Console ConsoleProc File Args Exec Sysfile Fork Sysproc.

(** The numbers of syscall.h, as the entries of syscalls[] *)
Inductive call :=
| SYS_fork | SYS_exit | SYS_wait | SYS_pipe | SYS_read | SYS_kill | SYS_exec | SYS_fstat | SYS_chdir | SYS_dup | SYS_getpid
| SYS_sbrk | SYS_sleep | SYS_uptime | SYS_open | SYS_write | SYS_mknod | SYS_unlink | SYS_link | SYS_mkdir | SYS_close.

Definition call_table : list call :=
  [SYS_fork; SYS_exit; SYS_wait; SYS_pipe; SYS_read; SYS_kill; SYS_exec; SYS_fstat; SYS_chdir; SYS_dup; SYS_getpid;
   SYS_sbrk; SYS_sleep; SYS_uptime; SYS_open; SYS_write; SYS_mknod; SYS_unlink; SYS_link; SYS_mkdir; SYS_close].

(** syscalls[num], if there is one *)
Definition call_of (num : Z) : option call := if 0 <? num then call_table !! Z.to_nat (num - 1) else None.

Section syscall.
Context {D U : Type} `{Symbols} `{KernelBuf} `{!Driver kst D} `{!Chip U}.
Context (name0 de0 pad0 : list Z) (forkret_addr : Z).
Abbreviation st := (sys kst D U * clock)%type.

Definition do_call (fuel : nat) (c : call) : M st Z :=
  match c with
  | SYS_fork => sys_fork forkret_addr
  | SYS_exit => sys_exit fuel
  | SYS_wait => sys_wait fuel
  | SYS_pipe => on_sys (sys_pipe fuel)
  | SYS_read => on_sys (sys_read fuel)
  | SYS_kill => sys_kill
  | SYS_exec => sys_exec fuel name0
  | SYS_fstat => on_sys (sys_fstat pad0 fuel)
  | SYS_chdir => on_sys (sys_chdir name0 fuel)
  | SYS_dup => on_sys sys_dup
  | SYS_getpid => sys_getpid
  | SYS_sbrk => sys_sbrk
  | SYS_sleep => sys_sleep fuel
  | SYS_uptime => sys_uptime
  | SYS_open => on_sys (sys_open name0 de0 fuel)
  | SYS_write => on_sys (sys_write fuel)
  | SYS_mknod => on_sys (sys_mknod name0 de0 fuel)
  | SYS_unlink => on_sys (sys_unlink name0 fuel)
  | SYS_link => on_sys (sys_link name0 de0 fuel)
  | SYS_mkdir => on_sys (sys_mkdir name0 de0 fuel)
  | SYS_close => on_sys (sys_close fuel)
  end.

(** "%d %s: unknown sys call %d\n" *)
Definition unknown_fmt : list Z :=
  [37; 100; 32; 37; 115; 58; 32; 117; 110; 107; 110; 111; 119; 110; 32; 115; 121; 115; 32; 99; 97; 108; 108; 32; 37; 100; 10].

(** syscall() *)
Definition syscall (fuel : nat) : M st unit :=
  p ← on_kp my;
  a7 ← on_kp (get_tf p tf_a7);
  let num := s32 a7 in
  match call_of num with
  | Some c =>
    r ← do_call fuel c;
    on_kp (put_tf p tf_a0 r)
  | None =>
    x ← on_kp (getp p);
    on_sys (on_console (printf fuel unknown_fmt [AInt (p_pid x); AStr (Some (before_nul (p_name x))); AInt num]));;
    on_kp (put_tf p tf_a0 (-1))
  end.
End syscall.
