(* ===== verification/FsBoot.v ===== *)
(** A file system as mkfs makes it, for the witnesses of the file system's theorems: 1000
    blocks, the log of 30 blocks at block 2, the inodes at block 32, the free map at
    block 45 and the root directory, inode 1, in block 46. *)
From stdpp Require Import gmap.
From S2P Require Import Prelude Machine CString Spinlock Sched Sleeplock Proc ProcSpec Bio BioSpec Bcache Log LogSpec LogCrash LogTrans Fs FsCodec FsView FsAlloc FsInode FsFile UserCopy.

#[export] Instance kbuf3 : KernelBuf := 2147500000.

Definition sb3 : superblock := mkSb FSMAGIC 1000 954 200 30 2 32 45.

(** struct dirent *)
Definition dirent (inum : Z) (name : list Z) : list Z :=
  [inum mod 256; inum / 256] ++ take 14 (name ++ replicate 14 0).

(** The root directory: ".", "..", "a" and "bb" *)
Definition root_entries : list Z :=
  dirent 1 [46] ++ dirent 1 [46; 46] ++ dirent 2 [97] ++ dirent 0 [120] ++ dirent 3 [98; 98].

Definition fill (l : list Z) : list Z := l ++ replicate (Z.to_nat BSIZE - length l) 0.

Definition root_dinode : inode :=
  mkInode 0 1 0 (initsleeplock "") 0 T_DIR 0 0 1 80 (λ k, if k =? 0 then 46 else 0).

(** 47 blocks are in use *)
Definition map3 : list Z := fill (replicate 5 255 ++ [127]).

Definition fs_block (n : Z) : list Z :=
  if n =? 32 then put_dinode zero_block (inode_off 1) root_dinode
  else if n =? 45 then map3
  else if n =? 46 then fill root_entries
  else zero_block.

Definition fs_disk : mdisk := mkMd fs_block [].

Lemma fs_disk_ok : dv_inv (P := kst) fs_disk.
Proof.
  intros n. cbn [dv_inv fs_disk md_block]. unfold fs_block.
  destruct (n =? 32); [rewrite length_put_dinode; reflexivity|].
  destruct (n =? 45); [reflexivity|]. destruct (n =? 46); reflexivity.
Qed.

#[local] Opaque abs.

(** A system call on it has just called begin_op(). *)
Lemma fs_open (f : Z → Z → inode) :
  ∃ e (s : fsst kst mdisk), frel e (mkV fs_block ∅ ∅ sb3 (f (e_pid e)) None) s ∧
    e_out e = 1 ∧ e_start e = 2 ∧ e_size e = 30 ∧ e_disk e = fs_block.
Proof.
  destruct (booted_disk fs_disk fs_disk_ok) as (b & Hinv & Ha).
  assert (Hok : log_ok 0 (mkL3 b)).
  { split; unfold view; cbn [mkL3 l_b]; rewrite ?Ha; try reflexivity.
    - by eexists.
    - done.
    - apply trans_ok_nil.
    - cbn. lia. }
  assert (Hwp : wp (begin_op 0) (λ _ s1, log_ok 1 s1 ∧ view s1 = view (mkL3 b) ∧ l_start s1 = 2 ∧ l_size s1 = 30 ∧ lh_n s1 = 0)
    (mkL3 b)) by (eapply wp_begin_op; [exact Hok|done|auto]).
  apply wp_elim in Hwp as ([] & s1 & _ & Hok1 & Hv1 & Hst & Hsz & Hn).
  pose proof (log_ok_lrel 1 s1 Hok1 Hn) as Hl. rewrite Hst, Hsz, Hv1 in Hl.
  assert (Hd : a_disk (view (mkL3 b)) = fs_block) by (unfold view; cbn [mkL3 l_b]; by rewrite Ha).
  assert (Hc : a_content (view (mkL3 b)) = fs_block) by (unfold view; cbn [mkL3 l_b]; by rewrite Ha).
  rewrite Hd, Hc in Hl. exists (mkE 1 2 30 fs_block (so_id (b_p (l_b s1)))), (mkFs s1 sb3 (initlock "icache") (f (so_id (b_p (l_b s1))))).
  split; [|split; [reflexivity|split; [reflexivity|split; reflexivity]]].
  split; try reflexivity; [exact Hl|done].
Qed.

(** The inode cache with the root directory in slot 0, locked by the caller *)
Definition root_slot (pid : Z) : inode :=
  mkInode ROOTDEV 1 1 (sl_take pid (initsleeplock "inode")) 1 T_DIR 0 0 1 80 (λ k, if k =? 0 then 46 else 0).
Definition inodes3 (pid i : Z) : inode :=
  if i =? 0 then root_slot pid else mkInode 0 0 0 (initsleeplock "inode") 0 0 0 0 0 0 (λ _, 0).

Definition fsv3 (pid : Z) : fsv kst := mkV fs_block ∅ ∅ sb3 (inodes3 pid) None.

Lemma bmap3 b : 0 ≤ b < 1000 → BBLOCK b sb3 = 45.
Proof. intros. unfold BBLOCK, BPB, BSIZE, sb3. cbn [s_bmapstart]. rewrite u32_small; zdm. Qed.

Lemma used3 b : 0 ≤ b < 1000 → used fs_block sb3 b = (b <? 47).
Proof.
  intros Hb. assert (Hall : forallb (λ b, Bool.eqb (used fs_block sb3 b) (b <? 47)) (seqZ 0 1000) = true) by (vm_compute; reflexivity).
  rewrite forallb_forall in Hall. apply eqb_prop, Hall. apply list_elem_of_In, elem_of_seqZ. lia.
Qed.

Lemma logged3 e b : e_start e = 2 → 32 ≤ b < 1000 → loggable e b.
Proof. intros E Hb. unfold loggable, in_log. rewrite E. unfold LOGSIZE, MAXOPBLOCKS. lia. Qed.

Lemma room3 e pid n : e_size e = 30 → n ≤ 29 → room e (fsv3 pid) n.
Proof.
  intros Ez Hn. unfold room. rewrite Ez. cbn [fsv3 v_lg]. rewrite size_empty. unfold LOGSIZE, MAXOPBLOCKS. lia.
Qed.

Lemma map_ok3 e pid : e_out e = 1 → e_start e = 2 → map_ok e (fsv3 pid).
Proof.
  intros Eo Es. split; cbn [fsv3 v_sb v_c v_hs v_lg sb3 s_size].
  - lia.
  - lia.
  - intros b Hb. rewrite bmap3 by done. split; [apply logged3; [done|lia]|done].
  - intros b Hb Hu. rewrite used3 in Hu by done. apply Z.ltb_ge in Hu.
    split; [apply logged3; [done|lia]|]. split; [done|]. intros x Hx. rewrite bmap3 by done. lia.
  - reflexivity.
Qed.

Lemma balloc_correct_witness : ∃ s s' : fsst kst mdisk, balloc 0 ROOTDEV s = Ret 47 s'.
Proof.
  destruct (fs_open inodes3) as (e & s & Hv & Eo & Es & Ez & Ed).
  destruct (balloc_correct 0 e (fsv3 (e_pid e)) s Hv (map_ok3 e _ Eo Es)) as [[Hfull _]|(b & s' & v' & Hf & E & _)].
  - apply room3; [exact Ez|lia].
  - assert (used fs_block sb3 999 = true) as Hx by (apply Hfull; cbn; lia).
    rewrite used3 in Hx by lia. discriminate.
  - exists s, s'. rewrite E. f_equal. destruct Hf as (Hb & Hu & Hall). cbn [fsv3 v_sb v_c sb3 s_size] in *.
    rewrite used3 in Hu by done. apply Z.ltb_ge in Hu. destruct (decide (b = 47)); [done|].
    specialize (Hall 47 ltac:(lia)). rewrite used3 in Hall by lia. discriminate.
Defined.

Lemma bfree_correct_witness : ∃ s s' : fsst kst mdisk, bfree 0 ROOTDEV 46 s = Ret () s'.
Proof.
  destruct (fs_open inodes3) as (e & s & Hv & Eo & Es & Ez & Ed).
  pose proof (bfree_correct 0 e (fsv3 (e_pid e)) s 46 Hv (map_ok3 e _ Eo Es)) as Hw.
  cbn [fsv3 v_sb v_c] in Hw. rewrite used3 in Hw by lia. destruct Hw as (s' & v' & E & _).
  - apply room3; [exact Ez|lia].
  - cbn. lia.
  - exists s, s'. exact E.
Defined.

Lemma icache3 pid : icache_ok (inodes3 pid).
Proof.
  split.
  - intros d n i j (_ & Hi & _) (_ & Hj & _). unfold inodes3 in *.
    destruct (Z.eqb_spec i 0), (Z.eqb_spec j 0); cbn in *; lia.
  - intros i _. unfold inodes3. destruct (i =? 0); cbn; lia.
Qed.

Lemma iget_correct_witness : ∃ (s s' : fsst kst mdisk) i, iget ROOTDEV 1 s = Ret i s'.
Proof.
  destruct (fs_open inodes3) as (e & s & Hv & Eo & Es & Ez & Ed).
  destruct (iget_correct e (fsv3 (e_pid e)) s ROOTDEV 1 Hv eq_refl (icache3 _)) as [(i & s' & f' & E & _)|(Hno & _)].
  - exists s, s', i. exact E.
  - exfalso. apply (Hno 0). split; [split; [lia|reflexivity]|]. split; [reflexivity|]. split; reflexivity.
Defined.

Lemma root_ok : dinode_ok (root_slot 0).
Proof.
  split; cbn [root_slot i_type i_major i_minor i_nlink i_size i_addrs]; try (unfold T_DIR; lia).
  intros j _. destruct (j =? 0); lia.
Qed.

Lemma inode_persists_witness : ∃ (s s' : fsst kst mdisk) j, reload 0 0 1 s = Ret j s' ∧ i_size (inodes s' j) = 80.
Proof.
  destruct (fs_open inodes3) as (e & s & Hv & Eo & Es & Ez & Ed).
  destruct (inode_persists 0 e (fsv3 (e_pid e)) s 0 1 Hv eq_refl (icache3 _)) as (j & s' & E & _ & _ & _ & _ & Hd).
  - split; [split; [lia|reflexivity]|]. split; [reflexivity|]. split; reflexivity.
  - reflexivity.
  - split; [reflexivity|]. split; [reflexivity|]. split; reflexivity.
  - discriminate.
  - discriminate.
  - destruct root_ok. by split.
  - intros j _ Hj. cbn [fsv3 v_in] in *. unfold inodes3 in *. destruct (j =? 0); [discriminate Hj|]. by split_and!.
  - reflexivity.
  - apply logged3; [exact Es|]. vm_compute. split; [discriminate|reflexivity].
  - apply room3; [exact Ez|lia].
  - lia.
  - reflexivity.
  - exists s, s', j. split; [exact E|]. destruct Hd as (_ & _ & _ & _ & Hs & _). exact Hs.
Defined.

(** ** The root directory as a file *)
Lemma fa3 pid t : aslot t → fa (fsv3 pid) 0 t = if t =? 0 then 46 else 0.
Proof.
  intros [? _]. unfold fa, amap. cbn [fsv3 v_in inodes3 root_slot i_addrs Z.eqb].
  destruct (t <=? NDIRECT) eqn:E; [done|]. apply Z.leb_gt in E. unfold NDIRECT in *. destruct (Z.eqb_spec t 0); [lia|done].
Qed.

Lemma file3 e pid : e_out e = 1 → e_start e = 2 → file_at e (fsv3 pid) 0.
Proof.
  intros Eo Es. change (v_sb (fsv3 pid)) with sb3.
  assert (Hib : iblk (fsv3 pid) 0 = 32) by reflexivity.
  split; [|split|reflexivity]; change (v_sb (fsv3 pid)) with sb3; rewrite ?Hib.
  - split; change (s_size sb3) with 1000.
    + lia.
    + lia.
    + intros b Hb. rewrite bmap3 by done. split; [apply logged3; [done|lia]|lia].
    + apply logged3; [done|lia].
    + intros b Hb Hu. unfold us in Hu. cbn [fsv3 v_c v_sb] in Hu. rewrite used3 in Hu by done. apply Z.ltb_ge in Hu.
      split; [lia|]. split; [lia|]. split; [apply logged3; [done|lia]|]. intros x Hx. rewrite bmap3 by done. lia.
  - intros t Ht. rewrite fa3 by done. destruct (t =? 0); [|done]. intros _. split; change (s_size sb3) with 1000.
    + lia.
    + exact (used3 46 ltac:(lia)).
    + lia.
    + apply logged3; [done|lia].
    + intros x Hx. rewrite bmap3 by done. lia.
  - intros t t' Ht Ht'. rewrite !fa3 by done. destruct (Z.eqb_spec t 0), (Z.eqb_spec t' 0); lia.
Qed.

Lemma full3 pid : full_file (fsv3 pid) 0.
Proof.
  split; [vm_compute; split; discriminate|]. intros p Hp. change (0 ≤ p < 80) in Hp.
  replace (p / BSIZE) with 0 by (unfold BSIZE; zdm). done.
Qed.

Lemma can_write3 e pid : e_out e = 1 → e_start e = 2 → e_size e = 30 → can_write e (fsv3 pid) 0 80 16.
Proof.
  intros Eo Es Ez. assert (Hn : nblk 80 16 = 1) by reflexivity. split; rewrite ?Hn.
  - by apply file3.
  - reflexivity.
  - vm_compute. split; discriminate.
  - vm_compute. discriminate.
  - apply room3; [exact Ez|lia].
  - vm_compute. discriminate.
Qed.

Lemma writei_correct_witness :
  ∃ s s' : fsst kst mdisk, writei 0 0 (FromKernel (dirent 4 [99])) 80 16 s = Ret 16 s'.
Proof.
  destruct (fs_open inodes3) as (e & s & Hv & Eo & Es & Ez & Ed).
  destruct (writei_correct 0 e (fsv3 (e_pid e)) s 0 80 (dirent 4 [99]) Hv (can_write3 e _ Eo Es Ez)) as (s' & v' & E & _).
  exists s, s'. exact E.
Defined.

Lemma readi_correct_witness :
  ∃ s s' : fsst kst mdisk, readi 0 0 ToKernel 32 100 s = Ret (48, drop 32 root_entries) s'.
Proof.
  destruct (fs_open inodes3) as (e & s & Hv & Eo & Es & Ez & Ed).
  destruct (readi_correct 0 e (fsv3 (e_pid e)) s 0 32 100 Hv eq_refl eq_refl (room3 e _ 0 Ez ltac:(lia)) (full3 _))
    as (s' & E & _); [lia|lia|].
  exists s, s'. rewrite E. f_equal; vm_compute; reflexivity.
Defined.

Lemma write_read_roundtrip_witness :
  ∃ s s' : fsst kst mdisk, (writei 0 0 (FromKernel (dirent 4 [99])) 80 16;; readi 0 0 ToKernel 80 16) s = Ret (16, dirent 4 [99]) s'.
Proof.
  destruct (fs_open inodes3) as (e & s & Hv & Eo & Es & Ez & Ed).
  destruct (write_read_roundtrip 0 e (fsv3 (e_pid e)) s 0 80 (dirent 4 [99]) Hv (can_write3 e _ Eo Es Ez) (full3 _)) as (s' & E).
  exists s, s'. exact E.
Defined.
