(* ===== verification/FsDir.v ===== *)
(** Directories (fs.c): dirlookup() on the entries of a directory. *)
From stdpp Require Import gmap.
From Stdlib Require Import FunctionalExtensionality.
From S2P Require Import Prelude Machine CString Spinlock Sched Sleeplock Proc ProcSpec Bio BioSpec Bcache Log LogSpec LogCrash LogTrans Fs FsCodec FsView FsAlloc FsInode FsFile UserCopy FsBoot.

(** ** Names *)

(** The name in a char[DIRSIZ]: up to its NUL, at most DIRSIZ bytes. *)
Definition cname (l : list Z) : list Z := cstr (Z.to_nat DIRSIZ) (lmem l) 0.

Lemma cstr_shift n m m' a b : (∀ i, 0 ≤ i < Z.of_nat n → m (a + i) = m' (b + i)) → cstr n m a = cstr n m' b.
Proof.
  revert a b. induction n as [|n IH]; intros a b Hm; [done|]. cbn [cstr].
  pose proof (Hm 0 ltac:(lia)) as E. rewrite !Z.add_0_r in E. rewrite E. destruct (m' b =? 0); [done|]. f_equal.
  apply IH. intros i Hi. replace (a + 1 + i) with (a + (i + 1)) by lia. replace (b + 1 + i) with (b + (i + 1)) by lia.
  apply Hm. lia.
Qed.

Lemma namecmp_zero s t : namecmp s t = 0 ↔ cname s = cname t.
Proof.
  unfold namecmp, strncmp. change (u32 DIRSIZ) with DIRSIZ. rewrite strncmp_loop_zero. unfold cname.
  assert (E1 : cstr (Z.to_nat DIRSIZ) (two s t) 0 = cstr (Z.to_nat DIRSIZ) (lmem s) 0).
  { apply cstr_shift. intros i Hi. unfold two. destruct (Z.ltb_spec (0 + i) 4096); [done|]. change (Z.of_nat (Z.to_nat DIRSIZ)) with 14 in Hi. lia. }
  assert (E2 : cstr (Z.to_nat DIRSIZ) (two s t) 4096 = cstr (Z.to_nat DIRSIZ) (lmem t) 0).
  { apply cstr_shift. intros i Hi. unfold two. destruct (Z.ltb_spec (4096 + i) 4096); [lia|]. f_equal. lia. }
  by rewrite E1, E2.
Qed.

Section dir.
Context {P D : Type} `{DriverOk P D} `{!Caller P}.
Abbreviation dev := ROOTDEV.

(** Entry [k] of the directory, and whether it is in use for the name *)
Definition dent (v : fsv P) (dp k : Z) : list Z := fbytes v dp (k * sizeof_dirent) sizeof_dirent.
Definition names (v : fsv P) (dp : Z) (name : list Z) (k : Z) : bool :=
  negb (de_inum (dent v dp k) =? 0) && bool_decide (cname name = cname (de_name (dent v dp k))).

Record dir_ok (v : fsv P) (dp : Z) : Prop := {
  di_dev : i_dev (v_in v dp) = dev;
  di_type : i_type (v_in v dp) = T_DIR;
  di_full : full_file v dp;
  di_size : i_size (v_in v dp) mod sizeof_dirent = 0
}.

Definition nents (v : fsv P) (dp : Z) : Z := i_size (v_in v dp) / sizeof_dirent.

Lemma wp_dirent_read fuel e v (s : fsst P D) dp k (Q : Z * list Z → fsst P D → Prop) :
  frel e v s → v_hs v = ∅ → room e v 0 → dir_ok v dp → 0 ≤ k < nents v dp →
  (∀ s', frel e v s' → Q (sizeof_dirent, dent v dp k) s') →
  wp (readi fuel dp ToKernel (k * sizeof_dirent) sizeof_dirent) Q s.
Proof.
  intros Hv Hh Hr [Hdev _ Hfull Hmod] Hk HQ. pose proof Hfull as [Hsz _]. unfold nents in Hk.
  assert (Hmax : MAXFILE * BSIZE < 2 ^ 31) by done. change sizeof_dirent with 16 in *.
  eapply wp_readi; [exact Hv|done|done|done|done|zdm|lia|]. intros s' Hv'.
  replace (readable v dp (k * 16) 16) with 16; [by apply HQ|].
  unfold readable. destruct (Z.ltb_spec (i_size (v_in v dp)) (k * 16)); [zdm|].
  destruct (Z.leb_spec (2 ^ 32) (k * 16 + 16)); [zdm|]. cbn [orb]. zdm.
Qed.

(** iget(): slot [i] holds one reference more to the inode than in [f], or the first one; the other slots are as they were. *)
Definition referenced (f f' : Z → inode) (inum i : Z) : Prop :=
  (∀ j, j ≠ i → f' j = f j) ∧
  (caches f dev inum i ∧ f' i = set_iref (i_ref (f i) + 1) (f i) ∨
   (∀ j, ¬ caches f dev inum j) ∧ islot i ∧ i_ref (f i) = 0 ∧ f' i = recycled dev inum (f i)).

Lemma referenced_caches f f' inum i : referenced f f' inum i → caches f' dev inum i ∧ i_ref (f' i) = i_ref (f i) + 1.
Proof.
  intros [_ [[(Hi & Hr & Hd & Hn) E]|(_ & Hi & Hz & E)]]; unfold caches; rewrite E; cbn; [split_and!; try done; lia|by rewrite Hz].
Qed.

(** What dirlookup() has found from entry [k0] on *)
Definition found_from (e : fenv) (v : fsv P) (dp : Z) (name : list Z) (k0 : Z) (r : option (Z * Z)) (s' : fsst P D) : Prop :=
  match r with
  | None => frel e v s' ∧ ∀ k, k0 ≤ k < nents v dp → names v dp name k = false
  | Some (ip, off) => ∃ k f', off = k * sizeof_dirent ∧ k0 ≤ k < nents v dp ∧ names v dp name k = true ∧
      (∀ j, k0 ≤ j < k → names v dp name j = false) ∧
      frel e (vset_in f' v) s' ∧ icache_ok f' ∧ referenced (v_in v) f' (de_inum (dent v dp k)) ip
  end.

Lemma found_next e v dp name k r s' :
  names v dp name k = false → found_from e v dp name (k + 1) r s' → found_from e v dp name k r s'.
Proof.
  intros Hk. destruct r as [[ip off]|]; cbn [found_from].
  - intros (j & f' & -> & Hj & Hn & Hall & Hrest). exists j, f'. split; [done|]. split; [lia|]. split; [done|].
    split; [|done]. intros x Hx. destruct (decide (x = k)) as [->|]; [done|]. apply Hall. lia.
  - intros [Hv Hall]. split; [done|]. intros x Hx. destruct (decide (x = k)) as [->|]; [done|]. apply Hall. lia.
Qed.

Lemma wp_dirlookup_loop fuel n e v (s : fsst P D) dp name k (Q : option (Z * Z) → fsst P D → Prop) :
  frel e v s → v_hs v = ∅ → v_ic v = None → room e v 0 → dir_ok v dp → icache_ok (v_in v) →
  (∃ j, islot j ∧ i_ref (v_in v j) = 0) → 0 ≤ k ≤ nents v dp → nents v dp - k < Z.of_nat n →
  (∀ r s', found_from e v dp name k r s' → Q r s') →
  wp (dirlookup_loop fuel n dp name (k * sizeof_dirent)) Q s.
Proof.
  intros Hv Hh Hic Hr Hd Hok Hslot. revert s k Hv.
  assert (Hmax : MAXFILE * BSIZE < 2 ^ 31) by done.
  pose proof Hd as [Hdev Hty [Hsz _] Hmod]. unfold nents in *.
  induction n as [|n IH]; intros s k Hv Hk Hn HQ; [lia|]. cbn [dirlookup_loop].
  apply wp_bind. eapply fv_geti; [exact Hv|].
  destruct (Z.ltb_spec (k * sizeof_dirent) (i_size (v_in v dp))) as [Hlt|Hge].
  2:{ apply wp_ret, HQ. split; [done|]. intros j Hj. unfold nents in Hj. change sizeof_dirent with 16 in *. zdm. }
  assert (Hk' : 0 ≤ k < nents v dp) by (unfold nents; change sizeof_dirent with 16 in *; zdm).
  apply wp_bind. eapply wp_dirent_read; [exact Hv|done|done|done|done|]. intros s1 Hv1. cbn [fst snd].
  rewrite Z.eqb_refl. cbn [negb].
  assert (Hnext : ∀ s2, frel e v s2 → names v dp name k = false →
    wp (dirlookup_loop fuel n dp name (u32 (k * sizeof_dirent + sizeof_dirent))) Q s2).
  { intros s2 Hv2 Hnm. replace (u32 (k * sizeof_dirent + sizeof_dirent)) with ((k + 1) * sizeof_dirent).
    - apply IH; [done|unfold nents in Hk'; lia|lia|]. intros r s' Hf. apply HQ. by apply found_next.
    - rewrite u32_small; change sizeof_dirent with 16 in *; lia. }
  unfold names in Hnext. destruct (Z.eqb_spec (de_inum (dent v dp k)) 0) as [E0|E0]; [by apply Hnext|].
  destruct (Z.eqb_spec (namecmp name (de_name (dent v dp k))) 0) as [E1|E1].
  2:{ apply Hnext; [done|]. cbn [negb andb]. apply bool_decide_false. by rewrite <- namecmp_zero. }
  assert (Hnm : names v dp name k = true).
  { unfold names. rewrite (proj2 (Z.eqb_neq _ _) E0). cbn [negb andb]. apply bool_decide_true. by apply namecmp_zero. }
  rewrite Hdev. apply wp_bind.
  eapply wp_iget; [exact Hv1|done|done|done|..]; intros ip s2.
  - intros Hc Hv2. apply wp_ret, HQ. destruct Hc as (Hi & Hrf & Hd1 & Hd2). eexists k, _.
    split; [done|]. split; [lia|]. split; [done|]. split; [lia|]. split; [exact Hv2|]. split.
    + apply icache_ok_ref; [done|done|done|lia].
    + split; [by intros j; apply upd_ne|]. left. by rewrite upd_eq.
  - intros Hno Hi Hrf Hv2. apply wp_ret, HQ. eexists k, _.
    split; [done|]. split; [lia|]. split; [done|]. split; [lia|]. split; [exact Hv2|]. split.
    + by apply icache_ok_recycle.
    + split; [by intros j; apply upd_ne|]. right. by rewrite upd_eq.
Qed.

Lemma wp_dirlookup fuel e v (s : fsst P D) dp name (Q : option (Z * Z) → fsst P D → Prop) :
  frel e v s → v_hs v = ∅ → v_ic v = None → room e v 0 → dir_ok v dp → icache_ok (v_in v) →
  (∃ j, islot j ∧ i_ref (v_in v j) = 0) →
  (∀ r s', found_from e v dp name 0 r s' → Q r s') → wp (dirlookup fuel dp name) Q s.
Proof.
  intros Hv Hh Hic Hr Hd Hok Hslot HQ. pose proof Hd as [_ Hty [Hsz _] _].
  unfold dirlookup. apply wp_bind. eapply fv_geti; [exact Hv|]. rewrite Hty. change (negb (T_DIR =? T_DIR)) with false. cbv iota.
  eapply (wp_dirlookup_loop fuel _ e v s dp name 0); [exact Hv|done..| | |exact HQ];
    unfold nents; change sizeof_dirent with 16; zdm.
Qed.

(** C33: dirlookup() finds the first entry with the name. In a directory whose size is a number
    of entries, it returns the offset of the first entry that is in use and has the same name (up to DIRSIZ bytes or a NUL), and the slot of its
    inode in the inode cache, with one more reference: if the inode was cached, the count of its slot is one higher and the rest of the slot is as it was;
    otherwise the inode takes a slot that was free, with count 1 and its contents not yet valid. The other slots keep their inodes and counts. When no entry has the name
    it returns 0 and nothing changes. *)
Theorem dirlookup_correct fuel e v (s : fsst P D) dp name :
  frel e v s → v_hs v = ∅ → v_ic v = None → room e v 0 → dir_ok v dp → icache_ok (v_in v) →
  (∃ j, islot j ∧ i_ref (v_in v j) = 0) →
  ∃ r s', dirlookup fuel dp name s = Ret r s' ∧
    match r with
    | None => frel e v s' ∧ ∀ k, 0 ≤ k < nents v dp → names v dp name k = false
    | Some (ip, off) => ∃ k f', off = k * sizeof_dirent ∧ 0 ≤ k < nents v dp ∧ names v dp name k = true ∧
        (∀ j, 0 ≤ j < k → names v dp name j = false) ∧
        frel e (vset_in f' v) s' ∧ icache_ok f' ∧ caches f' dev (de_inum (dent v dp k)) ip ∧ i_ref (f' ip) = i_ref (v_in v ip) + 1 ∧
        (∀ j, j ≠ ip → f' j = v_in v j) ∧
        (f' ip = set_iref (i_ref (v_in v ip) + 1) (v_in v ip) ∨ i_ref (v_in v ip) = 0 ∧ f' ip = recycled dev (de_inum (dent v dp k)) (v_in v ip))
    end.
Proof.
  intros Hv Hh Hic Hr Hd Hok Hslot.
  assert (Hwp : wp (dirlookup fuel dp name) (found_from e v dp name 0) s) by (eapply wp_dirlookup; eauto).
  apply wp_elim in Hwp as (r & s' & E & Hf). exists r, s'. split; [done|]. destruct r as [[ip off]|]; [|exact Hf].
  destruct Hf as (k & f' & Eo & Hk & Hn & Hall & Hv' & Hok' & Href). exists k, f'. destruct (referenced_caches _ _ _ _ Href) as [Hc Hi].
  destruct Href as [Hoth Hor].
  assert (f' ip = set_iref (i_ref (v_in v ip) + 1) (v_in v ip) ∨ i_ref (v_in v ip) = 0 ∧ f' ip = recycled dev (de_inum (dent v dp k)) (v_in v ip))
    by (destruct Hor as [[_ ?]|(_ & _ & ? & ?)]; [by left|by right]).
  repeat (split; [done|]). done.
Qed.
End dir.

Lemma dir3 pid : dir_ok (fsv3 pid) 0.
Proof. split; [reflexivity|reflexivity|apply full3|reflexivity]. Qed.

(** ".." is the second entry: the root directory itself, inode 1, which slot 0 caches with one reference. *)
Lemma dirlookup_correct_witness : ∃ s s' : fsst kst mdisk, dirlookup 0 0 [46; 46] s = Ret (Some (0, 16)) s' ∧ i_ref (inodes s 0) = 1 ∧ i_ref (inodes s' 0) = 2.
Proof.
  destruct (fs_open inodes3) as (e & s & Hv & Eo & Es & Ez & Ed).
  destruct (dirlookup_correct 0 e (fsv3 (e_pid e)) s 0 [46; 46] Hv eq_refl eq_refl (room3 e _ 0 Ez ltac:(lia)) (dir3 _) (icache3 _))
    as (r & s' & E & Hr).
  - exists 1. split; [split; [lia|reflexivity]|reflexivity].
  - assert (Hn : ∀ k, 0 ≤ k < 5 → names (fsv3 (e_pid e)) 0 [46; 46] k = (k =? 1)).
    { intros k Hk. assert (k = 0 ∨ k = 1 ∨ k = 2 ∨ k = 3 ∨ k = 4) as [->|[->|[->|[->| ->]]]] by lia; vm_compute; reflexivity. }
    assert (Hne : nents (fsv3 (e_pid e)) 0 = 5) by reflexivity. rewrite Hne in Hr.
    destruct r as [[ip off]|].
    + destruct Hr as (k & f' & -> & Hk & Hnk & _ & Hv' & Hok & Hc & Hi & Hoth & _). rewrite Hn in Hnk by done. apply Z.eqb_eq in Hnk as ->.
      assert (ip = 0) as ->.
      { destruct (decide (ip = 0)) as [|Hne0]; [done|]. apply (ic_uniq _ Hok _ _ ip 0 Hc). unfold caches. rewrite Hoth by congruence.
        split; [split; [lia|reflexivity]|]. split; [reflexivity|]. split; [reflexivity|]. vm_compute. reflexivity. }
      exists s, s'. split; [exact E|]. rewrite (fr_in _ _ _ Hv), (fr_in _ _ _ Hv'). split; [reflexivity|exact Hi].
    + destruct Hr as [_ Hno]. specialize (Hno 1 ltac:(lia)). rewrite Hn in Hno by lia. discriminate.
Defined.
