(* ===== verification/FileSpec.v ===== *)
(** file.c and sysfile.c: the file table on the process layer, and its reference counts.

    An open file has as many references as there are file descriptors, of all processes,
    that refer to it ([refs_ok]). *)
From S2P Require Import Prelude Machine CString Spinlock Kalloc PageTable Vm Sched Proc ProcSpec Sleeplock Bio Log Fs UserMem Shared UserCopy Ring Pipe ProcUser Uart Printf Console File Args Sysfile VmUser Bcache FsCodec FsBoot ConsoleProc.

(** ** Counting *)
Fixpoint count (n : nat) (g : Z → Z) : Z :=
  match n with O => 0 | S n => count n g + g (Z.of_nat n) end.

Lemma count_ext n g g' : (∀ j, 0 ≤ j < Z.of_nat n → g' j = g j) → count n g' = count n g.
Proof.
  induction n as [|n IH]; intros He; cbn [count]; [done|]. rewrite IH, He by (intros; try apply He; lia). done.
Qed.

Lemma count_change n g g' k :
  0 ≤ k < Z.of_nat n → (∀ j, 0 ≤ j < Z.of_nat n → j ≠ k → g' j = g j) → count n g' = count n g + (g' k - g k).
Proof.
  induction n as [|n IH]; intros Hk He; [lia|]. cbn [count]. destruct (decide (k = Z.of_nat n)) as [->|Hne].
  - rewrite (count_ext n g g') by (intros; apply He; lia). lia.
  - rewrite IH, (He (Z.of_nat n)) by (intros; try apply He; lia). lia.
Qed.

Lemma count_nonneg n g : (∀ j, 0 ≤ j < Z.of_nat n → 0 ≤ g j) → 0 ≤ count n g.
Proof.
  induction n as [|n IH]; intros Hg; cbn [count]; [done|].
  pose proof (IH (λ j Hj, Hg j ltac:(lia))). pose proof (Hg (Z.of_nat n) ltac:(lia)). lia.
Qed.

Lemma count_ge n g k : 0 ≤ k < Z.of_nat n → (∀ j, 0 ≤ j < Z.of_nat n → 0 ≤ g j) → g k ≤ count n g.
Proof.
  intros Hk Hg. pose proof (count_change n (λ j, if j =? k then 0 else g j) g k Hk) as Hc. cbv beta in Hc.
  rewrite Z.eqb_refl in Hc. rewrite Hc by (intros j _ Hj; by destruct (Z.eqb_spec j k)).
  enough (0 ≤ count n (λ j, if j =? k then 0 else g j)) by lia.
  apply count_nonneg. intros j Hj. destruct (j =? k); [lia|by apply Hg].
Qed.

(** ** References *)
Definition names (t : Z → option Z) (f fd : Z) : Z := b2z (bool_decide (t fd = Some f)).
(** The descriptors that refer to file [f] *)
Definition refs (ps : Z → proc) (f : Z) : Z :=
  count (Z.to_nat NPROC) (λ p, count (Z.to_nat NOFILE) (names (p_ofile (ps p)) f)).

Section filespec.
Context {D U : Type} `{Symbols} `{KernelBuf} `{!Driver kst D} `{!Chip U}.
Abbreviation st := (sys kst D U).

Definition yk (s : st) : kst := f_p (y_fs s).

Record refs_ok (s : st) : Prop := {
  ro_lock : lock_free (ft_lock s);
  ro_count : ∀ f, 0 ≤ f < NFILE → f_ref (files s f) = refs (procs (yk s)) f;
  ro_files : ∀ p fd f, 0 ≤ p < NPROC → 0 ≤ fd < NOFILE → p_ofile (procs (yk s) p) fd = Some f → 0 ≤ f < NFILE
}.

Lemma names_range t f fd : 0 ≤ names t f fd ≤ 1.
Proof. unfold names. destruct (bool_decide _); cbn; lia. Qed.

(** A file that a descriptor refers to has a reference. *)
Lemma refs_pos ps p fd f :
  0 ≤ p < NPROC → 0 ≤ fd < NOFILE → p_ofile (ps p) fd = Some f → 1 ≤ refs ps f.
Proof.
  intros Hp Hfd E. set (g := λ p, count (Z.to_nat NOFILE) (names (p_ofile (ps p)) f)).
  assert (Hg : ∀ q, 0 ≤ g q) by (intros q; apply count_nonneg; intros; apply names_range).
  pose proof (count_ge (Z.to_nat NPROC) g p ltac:(done) (λ j _, Hg j)) as H1.
  pose proof (count_ge (Z.to_nat NOFILE) (names (p_ofile (ps p)) f) fd ltac:(done) (λ j _, proj1 (names_range _ _ j))) as H2.
  unfold names in H2 at 1. rewrite bool_decide_true in H2 by done. cbn [b2z] in H2. unfold refs. fold g. unfold g in H1 at 1. lia.
Qed.

(** p->ofile[fd] = f *)
Definition put_fd (p fd : Z) (v : option Z) (k : kst) : kst :=
  set_procs (upd (procs k) p (set_ofile (upd (p_ofile (procs k p)) fd v) (procs k p))) k.

Lemma refs_put_fd k p fd v f :
  0 ≤ p < NPROC → 0 ≤ fd < NOFILE →
  refs (procs (put_fd p fd v k)) f =
  refs (procs k) f + (b2z (bool_decide (v = Some f)) - names (p_ofile (procs k p)) f fd).
Proof.
  intros Hp Hfd. unfold refs.
  rewrite (count_change (Z.to_nat NPROC) (λ q, count (Z.to_nat NOFILE) (names (p_ofile (procs k q)) f)) _ p).
  - f_equal. cbn [put_fd procs set_procs]. rewrite upd_eq. cbn [p_ofile set_ofile].
    rewrite (count_change (Z.to_nat NOFILE) (names (p_ofile (procs k p)) f) _ fd); [|done|].
    + unfold names. rewrite upd_eq. lia.
    + intros j _ Hj. unfold names. by rewrite upd_ne.
  - done.
  - intros j _ Hj. cbn [put_fd procs set_procs]. by rewrite upd_ne.
Qed.

(** ** The process layer under the file table *)
Definition settled_k (k : kst) : kst := set_khart (settle (k_hart k)) k.

Lemma wp_on_k {A} (m : M kst A) (Q : A → st → Prop) s :
  wp m (λ a k, Q a (set_yproc k s)) (yk s) → wp (on_k m) Q s.
Proof. intros Hm. by apply wp_zoom. Qed.

(** The running process *)
Definition me (k : kst) : Z := default 0 (c_proc k).

Lemma wp_my k (Q : Z → kst → Prop) : kst_ok k → Q (me k) (settled_k k) → wp my Q k.
Proof.
  intros [Hh (i & Hi & _) _] HQ. unfold my. apply wp_bind, wp_myproc; [done|]. unfold me in HQ. rewrite Hi in *. exact HQ.
Qed.

Lemma settled_k_ok k : kst_ok k → kst_ok (settled_k k) ∧ settled_k (settled_k k) = settled_k k.
Proof.
  intros Hk. split; [by apply kst_ok_settle|]. unfold settled_k, set_khart, set_pm, pm_set_hart, k_hart. cbn. by rewrite settle_settle.
Qed.

(** A register of the process *)
Definition reg (k : kst) (r : Z) : Z := load64 (kmem k) (p_trapframe (procs k (me k)) + r).

Lemma wp_argint_0 k (Q : Z → kst → Prop) : kst_ok k → Q (s32 (reg k tf_a0)) (settled_k k) → wp (argint 0) Q k.
Proof. intros Hk HQ. unfold argint, argraw. apply wp_bind, wp_bind, wp_my; [done|]. exact HQ. Qed.

(** argfd(0, ...) *)
Definition arg_file (k : kst) (fd : Z) : option Z :=
  if (0 <=? fd) && (fd <? NOFILE) then p_ofile (procs k (me k)) fd else None.

Lemma wp_argfd_0 s (Q : option (Z * Z) → st → Prop) :
  kst_ok (yk s) →
  (let fd := s32 (reg (yk s) tf_a0) in
   match arg_file (yk s) fd with
   | Some f => Q (Some (fd, f)) (set_yproc (settled_k (yk s)) s)
   | None => Q None (set_yproc (settled_k (yk s)) s)
   end) → wp (argfd 0) Q s.
Proof.
  intros Hk HQ. cbv zeta in HQ. unfold argfd. apply wp_bind, wp_on_k, wp_argint_0; [done|].
  destruct (settled_k_ok _ Hk) as [Hk2 Hid]. unfold arg_file in HQ. set (fd := s32 (reg (yk s) tf_a0)) in *.
  destruct (Z.ltb_spec fd 0), (Z.leb_spec 0 fd), (Z.ltb_spec fd NOFILE), (Z.leb_spec NOFILE fd); try lia; cbn [orb andb] in *; try exact HQ.
  apply wp_bind, wp_on_k, wp_my; [exact Hk2|]. change (yk (set_yproc (settled_k (yk s)) s)) with (settled_k (yk s)).
  rewrite Hid. apply wp_bind, wp_on_k, wp_gets. change (me (settled_k (yk s))) with (me (yk s)).
  change (procs (yk (set_yproc (settled_k (yk s)) (set_yproc (settled_k (yk s)) s)))) with (procs (yk s)).
  by destruct (p_ofile (procs (yk s) (me (yk s))) fd).
Qed.

(** fdalloc(): the lowest descriptor that is free *)
Lemma wp_fdalloc_loop n p f fd k (Q : Z → kst → Prop) :
  (∀ r, fd ≤ r < fd + Z.of_nat n → p_ofile (procs k p) r = None →
     (∀ j, fd ≤ j < r → p_ofile (procs k p) j ≠ None) → Q r (put_fd p r (Some f) k)) →
  ((∀ j, fd ≤ j < fd + Z.of_nat n → p_ofile (procs k p) j ≠ None) → Q (-1) k) →
  wp (fdalloc_loop n p f fd) Q k.
Proof.
  revert fd. induction n as [|n IH]; intros fd HQ1 HQ0; cbn [fdalloc_loop].
  { apply wp_ret, HQ0. lia. }
  apply wp_bind, wp_gets. destruct (decide (p_ofile (procs k p) fd = None)) as [E|E].
  - apply wp_bind, wp_modify, wp_ret. apply HQ1; [lia|done|lia].
  - apply IH.
    + intros r Hr Hn Hj. apply HQ1; [lia|done|]. intros j Hjr. destruct (decide (j = fd)) as [->|]; [done|]. apply Hj. lia.
    + intros Hj. apply HQ0. intros j Hjr. destruct (decide (j = fd)) as [->|]; [done|]. apply Hj. lia.
Qed.

(** The descriptors below [r] are in use *)
Definition used_below (k : kst) (r : Z) : Prop := ∀ j, 0 ≤ j < r → p_ofile (procs k (me k)) j ≠ None.

Lemma wp_fdalloc f k (Q : Z → kst → Prop) :
  kst_ok k →
  (∀ r, 0 ≤ r < NOFILE → p_ofile (procs k (me k)) r = None → used_below k r → Q r (put_fd (me k) r (Some f) (settled_k k))) →
  (used_below k NOFILE → Q (-1) (settled_k k)) → wp (fdalloc f) Q k.
Proof.
  intros Hk HQ1 HQ0. unfold fdalloc. apply wp_bind, wp_my; [done|]. apply wp_fdalloc_loop; [|exact HQ0].
  intros r Hr Hn Hj. apply HQ1; [done|done|exact Hj].
Qed.

(** ** The file table's lock *)
Lemma wp_ft_acq s (Q : unit → st → Prop) :
  lock_free (ft_lock s) →
  (let h := push_off (k_hart (yk s)) in
   Q () (mkSys (set_fp (set_khart h (yk s)) (y_fs s)) (take_lock h (ft_lock s)) (files s) (pipes s) (y_cons s) (y_devsw s))) →
  wp (on_ftable acq) Q s.
Proof. intros Hl HQ. apply wp_zoom. eapply wp_intro; [by apply acq_eq|]. exact HQ. Qed.

Lemma wp_ft_rel s h lk (Q : unit → st → Prop) :
  hart_ok h → lock_free lk → k_hart (yk s) = push_off h → ft_lock s = take_lock (push_off h) lk →
  Q () (mkSys (set_fp (set_khart (settle h) (yk s)) (y_fs s)) lk (files s) (pipes s) (y_cons s) (y_devsw s)) →
  wp (on_ftable rel) Q s.
Proof.
  intros Hh Hl Hp Hlk HQ. apply wp_zoom. rewrite Hlk. eapply wp_intro; [apply (rel_eq (P := kst) (yk s) h); [done|done|apply take_lock_held]|].
  rewrite take_lock_released by done. exact HQ.
Qed.

(** ** filealloc(), filedup(), fileclose() *)
Definition put_file (f : Z) (x : file) (s : st) : st := set_files (upd (files s) f x) s.
Definition settled_y (s : st) : st := set_yproc (settled_k (yk s)) s.

Lemma wp_filealloc_loop n f s0 s (Q : option Z → st → Prop) :
  kst_ok (yk s0) → lock_free (ft_lock s0) →
  (let h := push_off (k_hart (yk s0)) in
   s = mkSys (set_fp (set_khart h (yk s0)) (y_fs s0)) (take_lock h (ft_lock s0)) (files s0) (pipes s0) (y_cons s0) (y_devsw s0)) →
  (∀ r, f ≤ r < f + Z.of_nat n → f_ref (files s0 r) = 0 → (∀ j, f ≤ j < r → f_ref (files s0 j) ≠ 0) →
     Q (Some r) (put_file r (set_fref 1 (files s0 r)) (settled_y s0))) →
  ((∀ j, f ≤ j < f + Z.of_nat n → f_ref (files s0 j) ≠ 0) → Q None (settled_y s0)) →
  wp (filealloc_loop n f) Q s.
Proof.
  intros Hk Hl ->. revert f. induction n as [|n IH]; intros f HQ1 HQ0; cbn [filealloc_loop].
  { apply wp_bind. eapply (wp_ft_rel _ (k_hart (yk s0))); [apply Hk|exact Hl|done|done|]. apply wp_ret, HQ0. lia. }
  apply wp_bind, wp_gets. cbn [files]. destruct (Z.eqb_spec (f_ref (files s0 f)) 0) as [E|E].
  - apply wp_bind, wp_modify, wp_bind. eapply (wp_ft_rel _ (k_hart (yk s0))); [apply Hk|exact Hl|done|done|].
    apply wp_ret. apply HQ1; [lia|done|lia].
  - apply IH.
    + intros r Hr Hn Hj. apply HQ1; [lia|done|]. intros j Hjr. destruct (decide (j = f)) as [->|]; [done|]. apply Hj. lia.
    + intros Hj. apply HQ0. intros j Hjr. destruct (decide (j = f)) as [->|]; [done|]. apply Hj. lia.
Qed.

Lemma wp_filealloc s (Q : option Z → st → Prop) :
  kst_ok (yk s) → lock_free (ft_lock s) →
  (∀ r, 0 ≤ r < NFILE → f_ref (files s r) = 0 → (∀ j, 0 ≤ j < r → f_ref (files s j) ≠ 0) →
     Q (Some r) (put_file r (set_fref 1 (files s r)) (settled_y s))) →
  ((∀ j, 0 ≤ j < NFILE → f_ref (files s j) ≠ 0) → Q None (settled_y s)) →
  wp filealloc Q s.
Proof.
  intros Hk Hl HQ1 HQ0. unfold filealloc. apply wp_bind, wp_ft_acq; [done|]. by apply (wp_filealloc_loop _ _ s).
Qed.

Lemma wp_filedup f s (Q : Z → st → Prop) :
  kst_ok (yk s) → lock_free (ft_lock s) → 1 ≤ f_ref (files s f) →
  Q f (put_file f (set_fref (f_ref (files s f) + 1) (files s f)) (settled_y s)) → wp (filedup f) Q s.
Proof.
  intros Hk Hl Hr HQ. unfold filedup. apply wp_bind, wp_ft_acq; [done|]. apply wp_bind, wp_gets. cbn [files].
  destruct (Z.ltb_spec (f_ref (files s f)) 1); [lia|]. apply wp_bind, wp_modify, wp_bind.
  eapply (wp_ft_rel _ (k_hart (yk s))); [apply Hk|exact Hl|done|done|]. apply wp_ret. exact HQ.
Qed.

(** fileclose() of a file that nothing was opened on yet *)
Lemma wp_fileclose_none fuel f s (Q : unit → st → Prop) :
  kst_ok (yk s) → lock_free (ft_lock s) → f_ref (files s f) = 1 → f_type (files s f) = FD_NONE →
  Q () (put_file f (set_fref 0 (files s f)) (settled_y s)) → wp (fileclose fuel f) Q s.
Proof.
  intros Hk Hl Hr Ht HQ. unfold fileclose. apply wp_bind, wp_ft_acq; [done|]. apply wp_bind, wp_gets. cbn [files]. rewrite Hr.
  change (1 <? 1) with false. cbv iota. apply wp_bind, wp_modify, wp_bind, wp_gets.
  cbn [files set_files]. rewrite upd_eq. cbn [f_ref set_fref]. rewrite Hr. change (0 <? 1 - 1) with false. cbv iota.
  apply wp_bind, wp_modify, wp_bind, wp_modify, wp_bind. eapply (wp_ft_rel _ (k_hart (yk s))); [apply Hk|exact Hl|done|done|].
  cbn [f_type set_fref]. rewrite Ht. destruct (decide (FD_NONE = FD_PIPE)) as [|_]; [done|].
  destruct (decide (FD_NONE = FD_INODE ∨ FD_NONE = FD_DEVICE)) as [[|]|_]; [done|done|]. apply wp_ret.
  cbn [set_files files]. rewrite !upd_eq, !upd_upd.
  replace (set_ftype FD_NONE (set_fref 0 (set_fref (1 - 1) (files s f)))) with (set_fref 0 (files s f))
    by (unfold set_ftype, set_fref; cbn; by rewrite Ht).
  exact HQ.
Qed.

(** ** dup() *)
(** A new reference, and a new descriptor for it *)
Lemma refs_ok_ref s i r f :
  refs_ok s → 0 ≤ i < NPROC → 0 ≤ r < NOFILE → p_ofile (procs (yk s) i) r = None → 0 ≤ f < NFILE →
  refs_ok (put_file f (set_fref (f_ref (files s f) + 1) (files s f)) (set_yproc (put_fd i r (Some f) (settled_k (yk s))) s)).
Proof.
  intros Hr Hi Hrr Hnone Hf. set (k1 := put_fd i r (Some f) (settled_k (yk s))).
  assert (Hnew : ∀ g, refs (procs k1) g = refs (procs (yk s)) g + b2z (bool_decide (f = g))).
  { intros g. unfold k1. rewrite refs_put_fd by done. change (procs (settled_k (yk s))) with (procs (yk s)). unfold names.
    rewrite (bool_decide_false (p_ofile _ _ = _)) by by rewrite Hnone.
    rewrite (bool_decide_ext (Some f = Some g) (f = g)) by naive_solver. cbn [b2z]. lia. }
  split; [apply Hr| |].
  - intros g Hg. change (f_ref (upd (files s) f (set_fref (f_ref (files s f) + 1) (files s f)) g) = refs (procs k1) g).
    rewrite Hnew. unfold upd. destruct (Z.eqb_spec g f) as [->|Hne].
    + rewrite bool_decide_true by done. cbn [f_ref set_fref b2z]. by rewrite (ro_count _ Hr).
    + rewrite bool_decide_false by congruence. cbn [b2z]. rewrite (ro_count _ Hr) by done. lia.
  - intros p d g Hp Hd. change (p_ofile (procs k1 p) d = Some g → 0 ≤ g < NFILE). unfold k1. cbn [put_fd procs set_procs]. unfold upd at 1.
    destruct (Z.eqb_spec p i) as [->|]; [|exact (ro_files _ Hr p d g Hp Hd)]. cbn [p_ofile set_ofile]. unfold upd.
    destruct (Z.eqb_spec d r) as [->|]; [by intros [= <-]|exact (ro_files _ Hr i d g Hi Hd)].
Qed.

(** C23: dup() keeps the reference counts of the file table. Called with a descriptor that is not open it
    returns -1, and also when all NOFILE descriptors are in use; then files and descriptors stay
    as they are. Otherwise it returns the lowest descriptor that was free, which now refers to the same file as the
    argument; that file has one reference more, and no other file or descriptor has changed.
    In every case each file has exactly as many references as descriptors of all processes refer to it. *)
Theorem sys_dup_correct s :
  kst_ok (yk s) → refs_ok s →
  let i := me (yk s) in
  ∃ r s', sys_dup s = Ret r s' ∧ kst_ok (yk s') ∧ refs_ok s' ∧
    match arg_file (yk s) (s32 (reg (yk s) tf_a0)) with
    | None => r = -1 ∧ s' = settled_y s
    | Some f =>
      (r = -1 ∧ used_below (yk s) NOFILE ∧ s' = settled_y s) ∨
      (0 ≤ r < NOFILE ∧ p_ofile (procs (yk s) i) r = None ∧ used_below (yk s) r ∧
       s' = put_file f (set_fref (f_ref (files s f) + 1) (files s f)) (set_yproc (put_fd i r (Some f) (settled_k (yk s))) s))
    end.
Proof.
  intros Hk Hr i. destruct (settled_k_ok _ Hk) as [Hk2 Hid].
  assert (Hsame : kst_ok (yk (settled_y s)) ∧ refs_ok (settled_y s)) by (split; [exact Hk2|]; destruct Hr; by split).
  apply wp_elim. unfold sys_dup. apply wp_bind, wp_argfd_0; [done|]. cbv zeta.
  destruct (arg_file (yk s) (s32 (reg (yk s) tf_a0))) as [f|] eqn:Ef; [|apply wp_ret; naive_solver].
  assert (Hof : ∃ fd, 0 ≤ fd < NOFILE ∧ p_ofile (procs (yk s) i) fd = Some f).
  { unfold arg_file in Ef. set (fd := s32 (reg (yk s) tf_a0)) in *. exists fd.
    destruct (Z.leb_spec 0 fd), (Z.ltb_spec fd NOFILE); cbn [andb] in Ef; done. }
  destruct Hof as (fd & Hfd & Hof). assert (Hi : 0 ≤ i < NPROC) by (destruct Hk as [_ (? & E & ?) _]; subst i; unfold me; by rewrite E).
  apply wp_bind, wp_on_k, wp_fdalloc; [exact Hk2| |].
  2:{ intros Hub. change (yk (set_yproc (settled_k (yk s)) s)) with (settled_k (yk s)). rewrite Hid. apply wp_ret. naive_solver. }
  intros r Hrr Hnone Hub. change (yk (set_yproc (settled_k (yk s)) s)) with (settled_k (yk s)) in *. rewrite Hid.
  change (me (settled_k (yk s))) with i in *. change (procs (settled_k (yk s))) with (procs (yk s)) in Hnone.
  destruct (Z.ltb_spec r 0); [lia|]. set (k1 := put_fd i r (Some f) (settled_k (yk s))).
  assert (Hk1 : kst_ok k1).
  { destruct Hk2 as [? ? Hls]. split; [done|done|]. intros j Hj. cbn. unfold upd. destruct (Z.eqb_spec j i) as [->|]; [by apply Hls|by apply Hls]. }
  assert (Hf : 0 ≤ f < NFILE) by exact (ro_files _ Hr i fd f Hi Hfd Hof).
  apply wp_bind, wp_filedup; [exact Hk1|apply Hr| |].
  { change (1 ≤ f_ref (files s f)). rewrite (ro_count _ Hr f Hf). by apply (refs_pos _ i fd). }
  apply wp_ret. unfold settled_y. change (yk (set_yproc k1 (set_yproc (settled_k (yk s)) s))) with k1.
  replace (settled_k k1) with k1 by (symmetry; unfold k1; rewrite <- Hid at 2; reflexivity).
  split; [exact Hk1|]. split; [|right; split; [done|split; [exact Hnone|split; [exact Hub|reflexivity]]]].
  exact (refs_ok_ref s i r f Hr Hi Hrr Hnone Hf).
Qed.

(** ** pipealloc() *)
Definition slot_free (s : st) (f : Z) : Prop := 0 ≤ f < NFILE ∧ f_ref (files s f) = 0.

(** The files and pipes of [s], with the page allocator's free list [l], in a state with the same processes *)
Record same_files (s : st) (l : list Z) (s' : st) : Prop := {
  sf_ok : kst_ok (yk s');
  sf_procs : procs (yk s') = procs (yk s) ∧ c_proc (yk s') = c_proc (yk s);
  sf_lock : ft_lock s' = ft_lock s;
  sf_files : files s' = files s;
  sf_pipes : pipes s' = pipes s;
  sf_list : kinv (k_pm (yk s')) l
}.

Lemma kinv_settled k l : kinv (k_pm k) l → kinv (k_pm (settled_k k)) l.
Proof. intros [Hh Hlk Hm Hl Hp Hn]. split; try done. by apply settle_ok. Qed.

Lemma same_files_settled s l s' : same_files s l s' → same_files s l (settled_y s').
Proof. intros [Hk Hp Hl Hf Hpi Hi]. split; [by apply settled_k_ok|done|done|done|done|by apply kinv_settled]. Qed.

(** An allocated slot given back *)
Lemma put_back (s : st) f x : f_ref (files s f) = 0 → x = set_fref 1 (files s f) → upd (upd (files s) f x) f (set_fref 0 x) = files s.
Proof.
  intros Hr ->. rewrite upd_upd. replace (set_fref 0 (set_fref 1 (files s f))) with (files s f); [apply upd_id|].
  unfold set_fref. cbn. rewrite <- Hr. by destruct (files s f).
Qed.

(** fileclose() on the way out of pipealloc() *)
Lemma wp_give_back fuel f s l s' (Q : unit → st → Prop) :
  same_files (put_file f (set_fref 1 (files s f)) s) l s' → lock_free (ft_lock s) → f_ref (files s f) = 0 → f_type (files s f) = FD_NONE →
  (∀ s'', same_files s l s'' → Q () s'') → wp (fileclose fuel f) Q s'.
Proof.
  intros [Hk Hp Hl Hf Hpi Hi] Hlk Hr Ht HQ. cbn in Hf.
  apply wp_fileclose_none; [done|by rewrite Hl|by rewrite Hf, upd_eq|by rewrite Hf, upd_eq|]. apply HQ.
  split; [by apply settled_k_ok|done|done| |done|by apply kinv_settled].
  change (upd (files s') f (set_fref 0 (files s' f)) = files s). rewrite Hf, upd_eq. by apply put_back.
Qed.

(** An end of the pipe [pi] *)
Definition pipe_end (pi readable writable : Z) (x : file) : file :=
  mkFile FD_PIPE 1 readable writable pi (f_ip x) (f_off x) (f_major x).

Record new_pipe (s : st) (l : list Z) (rf wf : Z) (s' : st) : Prop := {
  np_ok : kst_ok (yk s');
  np_procs : procs (yk s') = procs (yk s);
  np_slots : slot_free s rf ∧ slot_free s wf ∧ rf < wf ∧ (∀ f, slot_free s f → f = rf ∨ wf ≤ f);
  np_page : ∃ pi l', l = pi :: l' ∧ kinv (k_pm (yk s')) l' ∧
    files s' = upd (upd (files s) rf (pipe_end pi 1 0 (files s rf))) wf (pipe_end pi 0 1 (files s wf)) ∧
    (∀ a, a ≠ pi → pipes s' a = pipes s a) ∧
    pipe_ok (pipes s' pi) ∧ contents (pipes s' pi) = [] ∧ lock_free (pi_lock (pipes s' pi)) ∧
    readopen (pipes s' pi) = 1 ∧ writeopen (pipes s' pi) = 1
}.

(** kalloc() under the file table *)
Lemma wp_pg_alloc s l s' (Q : Z → st → Prop) :
  same_files s l s' →
  (l = [] → ∀ s'', same_files s [] s'' → Q 0 s'') →
  (∀ p l' s'', l = p :: l' → same_files s l' s'' → p ≠ 0 → Q p s'') →
  wp (on_proc pg_alloc) Q s'.
Proof.
  intros [[Hh Hc Hlk] Hp Hl Hf Hpi Hi] HQ0 HQ1. apply wp_zoom, wp_zoom. eapply wp_kalloc; [exact Hi| |].
  - intros -> m Hm _. apply HQ0; [done|]. split; try done. split; [apply Hm|done|done].
  - intros p l' m -> Hm Hpg Hn _. apply (HQ1 p l'); [done| |].
    + split; try done. split; [apply Hm|done|done].
    + destruct (freelist_nonzero _ _ _ Hi) as [_ ?]. done.
Qed.

(** The fields that pipealloc() sets *)
Lemma wp_pipe_fields rf wf pi s0 l' s (Q : option (Z * Z) → st → Prop) :
  rf ≠ wf → same_files s0 l' s → f_ref (files s0 rf) = 1 → f_ref (files s0 wf) = 1 →
  (∀ s', kst_ok (yk s') → procs (yk s') = procs (yk s0) → kinv (k_pm (yk s')) l' →
     files s' = upd (upd (files s0) rf (pipe_end pi 1 0 (files s0 rf))) wf (pipe_end pi 0 1 (files s0 wf)) →
     pipes s' = upd (pipes s0) pi (mkPipe (initlock "pipe") (pi_data (pipes s0 pi)) 0 0 1 1) → Q (Some (rf, wf)) s') →
  wp (on_pipe pi (putpi (set_readopen 1);; putpi (set_writeopen 1);; putpi (set_nwrite 0);; putpi (set_nread 0);;
                  putpi (set_pilock (initlock "pipe")));;
      putf rf (set_ftype FD_PIPE);; putf rf (set_readable 1);; putf rf (set_writable 0);; putf rf (set_fpipe pi);;
      putf wf (set_ftype FD_PIPE);; putf wf (set_readable 0);; putf wf (set_writable 1);; putf wf (set_fpipe pi);;
      mret (Some (rf, wf))) Q s.
Proof.
  intros Hne [Hk [Hp _] Hl Hf Hpi Hi] Hr Hw HQ. apply wp_bind, wp_zoom.
  do 4 (apply wp_bind, wp_modify). apply wp_modify. do 8 (apply wp_bind, wp_modify). apply wp_ret.
  apply HQ; [exact Hk|exact Hp|exact Hi| |].
  - cbn [files set_files set_pipes set_yproc set_fs]. repeat first [rewrite upd_eq | rewrite upd_upd].
    rewrite !(upd_ne _ _ _ wf) by congruence. rewrite Hf.
    unfold pipe_end, set_fpipe, set_writable, set_readable, set_ftype. cbn [f_ref f_ip f_off f_major]. by rewrite Hr, Hw.
  - change (upd (pipes s) pi (mkPipe (initlock "pipe") (pi_data (pipes s pi)) 0 0 1 1) = upd (pipes s0) pi (mkPipe (initlock "pipe") (pi_data (pipes s0 pi)) 0 0 1 1)).
    by rewrite Hpi.
Qed.

(** C24: pipealloc() makes both ends of a pipe or nothing. Called on a file table whose free
    slots are closed, it returns. On success the two ends are the two lowest free slots, one only readable
    and one only writable, each with one reference, both of a new empty pipe in a page taken from the
    free list; all other files and pipes are as before. It fails only if there are fewer than two free slots
    or no free page, and then files, pipes and the free list are exactly as they were. *)
Theorem pipealloc_correct fuel s l :
  kst_ok (yk s) → lock_free (ft_lock s) → kinv (k_pm (yk s)) l → (∀ f, slot_free s f → f_type (files s f) = FD_NONE) →
  ∃ r s', pipealloc fuel s = Ret r s' ∧
    match r with
    | Some (rf, wf) => new_pipe s l rf wf s'
    | None => same_files s l s' ∧ (l = [] ∨ ∀ i j, slot_free s i → slot_free s j → i = j)
    end.
Proof.
  intros Hk Hl Hi Hnone. apply wp_elim. unfold pipealloc.
  assert (Hs0 : same_files s l (settled_y s)) by (apply same_files_settled; by split).
  apply wp_bind, wp_filealloc; [done|done| |].
  2:{ intros Hall. apply wp_bind, wp_ret, wp_bind, wp_ret, wp_bind, wp_ret, wp_ret. split; [done|]. right.
      intros i j [Hi0 Hf] _. by apply Hall in Hi0. }
  intros rf Hrf Hr0 Hrlow. set (s1 := put_file rf (set_fref 1 (files s rf)) (settled_y s)).
  assert (H1 : same_files (put_file rf (set_fref 1 (files s rf)) s) l s1) by (destruct Hs0; by split).
  apply wp_bind, wp_filealloc; [apply H1|exact Hl| |].
  2:{ intros Hall. apply wp_bind, wp_ret, wp_bind.
      eapply (wp_give_back fuel rf s l); [by apply same_files_settled|done|done|by apply Hnone|]. intros s3 H3.
      apply wp_bind, wp_ret, wp_ret. split; [done|]. right.
      assert (Honly : ∀ i, slot_free s i → i = rf).
      { intros i [Hii Hif]. destruct (decide (i = rf)) as [|Hne]; [done|]. destruct (Hall i Hii). cbn. by rewrite upd_ne. }
      intros i j Hii Hjj. by rewrite (Honly i), (Honly j). }
  intros wf Hwf Hw0 Hwlow. cbn in Hw0, Hwlow. assert (Hne : rf ≠ wf) by (intros ->; by rewrite upd_eq in Hw0).
  rewrite upd_ne in Hw0 by congruence. assert (Hlt : rf < wf).
  { destruct (Z.lt_trichotomy rf wf) as [|[|Hc]]; [done|done|]. destruct (Hrlow wf); [lia|done]. }
  set (sa := put_file wf (set_fref 1 (files s wf)) s). set (sb := put_file rf (set_fref 1 (files sa rf)) sa).
  set (s2 := put_file wf (set_fref 1 (files s1 wf)) (settled_y s1)).
  assert (H2 : same_files sb l s2).
  { destruct (same_files_settled _ _ _ H1) as [? ? ? Hf ? ?]. split; try done.
    unfold s2, sb, sa. cbn [files put_file set_files]. rewrite Hf. cbn [files put_file set_files s1 settled_y set_yproc set_fs].
    rewrite !upd_ne by congruence. by rewrite upd_comm. }
  apply wp_bind. eapply wp_pg_alloc; [exact H2| |].
  - intros -> s3 H3. change (0 =? 0) with true. cbv iota. apply wp_bind, wp_ret, wp_bind.
    eapply (wp_give_back fuel rf sa []); [exact H3|done|by cbn; rewrite upd_ne|cbn; rewrite upd_ne by done; by apply Hnone|].
    intros s4 H4. apply wp_bind. eapply (wp_give_back fuel wf s []); [exact H4|done|done|by apply Hnone|].
    intros s5 H5. apply wp_ret. split; [done|by left].
  - intros pi l' s3 -> H3 Hpi. destruct (Z.eqb_spec pi 0); [done|].
    eapply wp_pipe_fields; [done|exact H3|by cbn; rewrite upd_eq|by cbn; rewrite upd_ne, upd_eq|].
    intros s4 Hk4 Hp4 Hi4 Hf4 Hpi4. split; [done|exact Hp4| |].
    + split; [done|]. split; [done|]. split; [done|]. intros f [Hf Hff].
      destruct (decide (f = rf)) as [|Hn]; [by left|right]. destruct (Z.le_gt_cases wf f) as [|Hc]; [done|].
      destruct (Hwlow f); [lia|]. by rewrite upd_ne.
    + exists pi, l'. split; [done|]. split; [done|]. rewrite Hpi4. split.
      * rewrite Hf4. unfold sb, sa. cbn [files put_file set_files]. rewrite !upd_eq, !(upd_ne _ _ _ rf) by done.
        rewrite !(upd_ne _ rf _ wf) by congruence. rewrite !upd_eq, upd_upd.
        rewrite (upd_comm (files s) wf rf) by congruence. by rewrite upd_upd.
      * split; [intros a Ha; by rewrite upd_ne|]. rewrite upd_eq. by repeat split; try lia.
Qed.
End filespec.

(** ** Witnesses: process 0 with descriptor 0 open on file 3 *)
Definition file3 (ref : Z) : file := mkFile FD_NONE ref 0 0 0 None 0 0.
Definition procs_open (i : Z) : proc := if i =? 0 then set_ofile (upd (λ _, None) 0 (Some 3)) (procs3 0) else procs3 i.
Definition kst_open (m : pmem) : kst := mkK m (Some 0) procs_open (initlock "nextpid") 4 (Some 0).
Definition sys_open3 (m : pmem) : sys kst mdisk (list Z) :=
  mkSys (mkFs (mkL (mkB (kst_open m) (b_d bst3) (initlock "bcache") (bufs bst3)) (initlock "log") 2 30 0 0 ROOTDEV 0 (λ _, 0))
           sb3
           (initlock "icache") (λ _, ip17))
        (initlock "ftable") (λ f, file3 (if f =? 3 then 1 else 0)) (λ _, pipe8) (console1 0 0) (λ _, mkDevsw None None).

Lemma kst_open_ok m : hart_ok (pm_hart m) → kst_ok (kst_open m).
Proof.
  intros Hh. split; [exact Hh|by exists 0|]. intros i _. cbn. unfold procs_open, procs3. by repeat case_match.
Qed.

Lemma refs_open : forallb (λ f, refs procs_open f =? (if f =? 3 then 1 else 0)) (seqZ 0 NFILE) = true.
Proof. vm_compute. reflexivity. Qed.

Lemma sys_open3_refs m : refs_ok (sys_open3 m).
Proof.
  split; [done| |].
  - intros f Hf. pose proof refs_open as Hr. rewrite forallb_forall in Hr.
    assert (Hin : In f (seqZ 0 NFILE)) by (apply list_elem_of_In, elem_of_seqZ; unfold NFILE in *; lia).
    specialize (Hr f Hin). apply Z.eqb_eq in Hr. symmetry. exact Hr.
  - intros p fd f _ _ E. cbn in E. unfold procs_open in E. destruct (p =? 0).
    + cbn in E. unfold upd in E. destruct (fd =? 0); [by injection E as <-|done].
    + unfold procs3 in E. by repeat case_match.
Qed.

Lemma sys_dup_correct_witness :
  ∃ s s' : sys kst mdisk (list Z), sys_dup s = Ret 1 s' ∧ f_ref (files s' 3) = 2 ∧ p_ofile (procs (yk s') 0) 1 = Some 3.
Proof.
  set (m := mkPmem (mkHart 0 2 0 0) (initlock "kmem") 0 (λ _, 0)).
  destruct (sys_dup_correct (sys_open3 m)) as (r & s' & E & _ & _ & Hm);
    [apply kst_open_ok; split; vm_compute; congruence|apply sys_open3_refs|].
  change (arg_file (yk (sys_open3 m)) (s32 (reg (yk (sys_open3 m)) tf_a0))) with (Some 3) in Hm. cbv iota in Hm.
  destruct Hm as [(_ & Hub & _)|(Hr & Hn & Hub & Es)].
  - exfalso. apply (Hub 1); [done|reflexivity].
  - assert (r = 1) as ->.
    { destruct (Z.lt_trichotomy r 1) as [Hc|[Hc|Hc]]; [|done|].
      - replace r with 0 in Hn by lia. discriminate Hn.
      - exfalso. apply (Hub 1); [lia|reflexivity]. }
    exists (sys_open3 m), s'. split; [exact E|]. rewrite Es. split; reflexivity.
Defined.

Lemma pipealloc_correct_witness :
  ∃ (s s' : sys kst mdisk (list Z)) rf wf, pipealloc (Pages0 := @kst_pages syms8) 0 s = Ret (Some (rf, wf)) s' ∧ f_writable (files s' wf) = 1.
Proof.
  destruct (wp_elim (@kinit syms8) (λ _ s', @kinv syms8 s' (@boot_pages syms8)) pmem3) as ([] & m & E & Hk).
  { apply (@wp_kinit syms8); [vm_compute; split; congruence|apply pmem3_boot|done]. }
  clear E. assert (H1 : kst_ok (yk (sys_open3 m))) by (apply kst_open_ok, Hk).
  assert (H2 : lock_free (ft_lock (sys_open3 m))) by (split; reflexivity).
  assert (H3 : @kinv syms8 (k_pm (yk (sys_open3 m))) (@boot_pages syms8)) by exact Hk.
  assert (H4 : ∀ f, slot_free (sys_open3 m) f → f_type (files (sys_open3 m) f) = FD_NONE) by (intros f _; reflexivity).
  destruct (@pipealloc_correct mdisk (list Z) syms8 mdisk_driver 0 (sys_open3 m) (@boot_pages syms8) H1 H2 H3 H4) as (r & s' & Ep & Hr).
  destruct r as [[rf wf]|].
  - exists (sys_open3 m), s', rf, wf. split; [exact Ep|]. destruct Hr as [_ _ _ (pi & l' & _ & _ & Hf & _)]. rewrite Hf, upd_eq. reflexivity.
  - exfalso. destruct Hr as [_ [Hl|Hone]].
    + vm_compute in Hl. discriminate Hl.
    + assert (0 = 1) by (apply Hone; by split). lia.
Defined.
