(* ===== verification/Grep.v ===== *)
(** grep.c: the regular expression matcher of Kernighan and Pike, and the loop over the
    lines of a file.

    A C string is the list of its bytes without the NUL, so an empty list, or a zero byte,
    is its end.  matchhere() and matchstar() call each other; here matchstar() is the local
    loop over the text, for the rest of the expression. *)
From S2P Require Import Prelude.

Definition HAT : Z := 94.     (* '^' *)
Definition STAR : Z := 42.    (* '*' *)
Definition DOLLAR : Z := 36.  (* '$' *)
Definition DOT : Z := 46.     (* '.' *)
Definition NL : Z := 10.

(** The byte a string pointer points at: the NUL at the end of the string *)
Definition chr (s : list Z) : Z := match s with [] => 0 | c :: _ => c end.

(** matchstar(): [here] is matchhere() of the rest of the expression *)
Fixpoint matchstar (here : list Z → bool) (c : Z) (text : list Z) : bool :=
  if here text then true
  else
    match text with
    | [] => false
    | t :: text' => if negb (t =? 0) && ((t =? c) || (c =? DOT)) then matchstar here c text' else false
    end.

(** matchhere() *)
Fixpoint matchhere (re text : list Z) {struct re} : bool :=
  match re with
  | [] => true
  | c :: re1 =>
    if c =? 0 then true
    else
      match re1 with
      | d :: re2 =>
        if d =? STAR then matchstar (matchhere re2) c text
        else if (c =? DOLLAR) && (d =? 0) then chr text =? 0
        else
          match text with
          | t :: text' => if negb (t =? 0) && ((c =? DOT) || (c =? t)) then matchhere re1 text' else false
          | [] => false
          end
      | [] =>
        if c =? DOLLAR then chr text =? 0
        else
          match text with
          | t :: text' => if negb (t =? 0) && ((c =? DOT) || (c =? t)) then matchhere re1 text' else false
          | [] => false
          end
      end
  end.

(** match() *)
Fixpoint match_loop (re text : list Z) : bool :=
  if matchhere re text then true
  else
    match text with
    | [] => false
    | t :: text' => if t =? 0 then false else match_loop re text'
    end.

Definition re_match (re text : list Z) : bool :=
  if chr re =? HAT then matchhere (tail re) text else match_loop re text.

(** ** What the expressions mean

    [here re text]: some prefix of [text] matches [re].  A character is [.] or itself, a
    character before a star is any number of them, and [$] at the end of the expression
    is the end of the text. *)
Definition one (c t : Z) : Prop := c = DOT ∨ c = t.

Inductive here : list Z → list Z → Prop :=
| here_nil text : here [] text
| here_star c re text run rest :
    text = run ++ rest → Forall (one c) run → here re rest → here (c :: STAR :: re) text
| here_end : here [DOLLAR] []
| here_one c re t text :
    hd_error re ≠ Some STAR → (c = DOLLAR → re ≠ []) → one c t → here re text → here (c :: re) (t :: text).

(** Strings without a NUL inside *)
Definition nonul (s : list Z) : Prop := Forall (λ c, c ≠ 0) s.

Lemma matchstar_spec (p : list Z → bool) c text :
  nonul text → matchstar p c text = true ↔ ∃ run rest, text = run ++ rest ∧ Forall (one c) run ∧ p rest = true.
Proof.
  intros Hn. induction text as [|t text IH]; cbn [matchstar].
  - destruct (p []) eqn:E; split; try done.
    + intros _. by exists [], [].
    + intros (run & rest & Er & _ & Hp). symmetry in Er. apply app_nil in Er as [-> ->]. congruence.
  - apply Forall_cons in Hn as [Ht Hn]. destruct (p (t :: text)) eqn:E.
    { split; [|done]. intros _. by exists [], (t :: text). }
    rewrite (proj2 (Z.eqb_neq _ _) Ht). cbn [negb andb].
    destruct ((t =? c) || (c =? DOT)) eqn:Eo.
    + rewrite IH by done. split.
      * intros (run & rest & -> & Hr & Hp). exists (t :: run), rest. split; [done|]. split; [|done]. constructor; [|done].
        apply orb_true_iff in Eo as [->%Z.eqb_eq| ->%Z.eqb_eq]; [by right|by left].
      * intros ([|x run] & rest & Er & Hr & Hp); [cbn in Er; subst; congruence|]. injection Er as -> ->.
        apply Forall_cons in Hr as [_ Hr]. by exists run, rest.
    + split; [done|]. intros ([|x run] & rest & Er & Hr & Hp); [cbn in Er; subst; congruence|]. injection Er as -> ->.
      apply Forall_cons in Hr as [[Hx|Hx] _]; subst; rewrite Z.eqb_refl in Eo; by rewrite ?orb_true_r in Eo.
Qed.

Lemma step_spec (m : list Z → bool) c text :
  (match text with
   | t :: text' => if negb (t =? 0) && ((c =? DOT) || (c =? t)) then m text' else false
   | [] => false
   end) = true ↔ ∃ t text', text = t :: text' ∧ t ≠ 0 ∧ one c t ∧ m text' = true.
Proof.
  destruct text as [|t text]; [split; [done|by intros (? & ? & ? & _)]|]. unfold one. split.
  - destruct (Z.eqb_spec t 0); [done|]. cbn [negb andb]. destruct ((c =? DOT) || (c =? t)) eqn:E; [|done].
    apply orb_true_iff in E as [->%Z.eqb_eq| ->%Z.eqb_eq]; intros Hm; eauto 10.
  - intros (t' & text' & [= <- <-] & Ht & Ho & Hm). rewrite (proj2 (Z.eqb_neq _ _) Ht). cbn [negb andb].
    destruct Ho as [->| ->]; rewrite Z.eqb_refl; by rewrite ?orb_true_r.
Qed.

Lemma matchhere_spec re text : nonul re → nonul text → matchhere re text = true ↔ here re text.
Proof.
  intros Hre. revert text. remember (length re) as n eqn:En. revert re Hre En.
  induction (lt_wf n) as [n _ IH]. intros re Hre -> text Ht.
  destruct re as [|c re1]; cbn [matchhere]; [split; [constructor|done]|].
  apply Forall_cons in Hre as [Hc Hre1]. rewrite (proj2 (Z.eqb_neq _ _) Hc).
  assert (Htail : ∀ text', nonul text' → matchhere re1 text' = true ↔ here re1 text').
  { intros text'. apply (IH (length re1)); [cbn; lia|done|done]. }
  assert (Hend : (chr text =? 0) = true ↔ text = []).
  { destruct text as [|t text]; [done|]. apply Forall_cons in Ht as [Hz _]. cbn [chr]. rewrite Z.eqb_eq. split; done. }
  destruct re1 as [|d re2].
  - destruct (Z.eqb_spec c DOLLAR) as [->|Hd].
    + rewrite Hend. split; [intros ->; constructor|]. intros Hh. inversion Hh; subst; naive_solver.
    + rewrite step_spec. split.
      * intros (t & text' & -> & _ & Ho & Hm). apply Forall_cons in Ht as [_ Ht']. constructor; try done. by apply Htail.
      * intros Hh. inversion Hh; subst; [done|]. apply Forall_cons in Ht as [Hz Ht']. eexists _, _. split_and!; try done.
  - destruct (Z.eqb_spec d STAR) as [->|Hd].
    + apply Forall_cons in Hre1 as [_ Hre2]. rewrite matchstar_spec by done. split.
      * intros (run & rest & -> & Hr & Hm). econstructor; [done|done|].
        apply (IH (length re2)); try done; [cbn; lia|]. by apply Forall_app in Ht as [_ ?].
      * intros Hh. inversion Hh as [|? ? ? run rest Et Hr Hrest| |]; subst; [|done].
        exists run, rest. split; [done|]. split; [done|]. apply (IH (length re2)); try done; [cbn; lia|].
        by apply Forall_app in Ht as [_ ?].
    + pose proof Hre1 as [Hd0 _]%Forall_cons. rewrite (proj2 (Z.eqb_neq _ _) Hd0), andb_false_r. rewrite step_spec. split.
      * intros (t & text' & -> & _ & Ho & Hm). apply Forall_cons in Ht as [_ Ht']. constructor; try done.
        -- cbn. congruence.
        -- by apply Htail.
      * intros Hh. inversion Hh as [|? ? ? ? ? ? ? ?| |]; subst; [done|]. apply Forall_cons in Ht as [Hz Ht'].
        eexists _, _. split_and!; try done. by apply Htail.
Qed.

Lemma match_loop_spec re text :
  nonul re → nonul text → match_loop re text = true ↔ ∃ pre suf, text = pre ++ suf ∧ here re suf.
Proof.
  intros Hre. induction text as [|t text IH]; intros Ht; cbn [match_loop].
  - destruct (matchhere re []) eqn:E.
    + split; [|done]. intros _. exists [], []. split; [done|]. by apply matchhere_spec.
    + split; [done|]. intros (pre & suf & Ep & Hh). symmetry in Ep. apply app_nil in Ep as [-> ->].
      apply matchhere_spec in Hh; [congruence|done|done].
  - pose proof Ht as [Hz Ht']%Forall_cons. destruct (matchhere re (t :: text)) eqn:E.
    { split; [|done]. intros _. exists [], (t :: text). split; [done|]. by apply matchhere_spec. }
    rewrite (proj2 (Z.eqb_neq _ _) Hz), IH by done. split.
    + intros (pre & suf & -> & Hh). by exists (t :: pre), suf.
    + intros ([|x pre] & suf & Ep & Hh).
      * cbn in Ep. subst suf. apply matchhere_spec in Hh; [congruence|done|done].
      * injection Ep as -> ->. by exists pre, suf.
Qed.

(** C36: match() decides the regular expression. For strings without a NUL inside it returns 1 exactly when the
    text, or with a leading ^ its beginning, contains a string that the expression
    denotes, where star is any number of repetitions, however many of them have to be
    tried. *)
Theorem match_correct re text :
  nonul re → nonul text →
  re_match re text = true ↔
  match re with
  | c :: re' => if c =? HAT then here re' text else ∃ pre suf, text = pre ++ suf ∧ here re suf
  | [] => True
  end.
Proof.
  intros Hre Ht. unfold re_match. destruct re as [|c re]; cbn [chr tail].
  - change (0 =? HAT) with false. cbv iota. split; [done|]. intros _. destruct text; reflexivity.
  - destruct (c =? HAT) eqn:E; [|by apply match_loop_spec]. apply Forall_cons in Hre as [_ Hre']. by apply matchhere_spec.
Qed.

(** "^ab*.$" on "abbbc" *)
Lemma match_correct_witness : here [97; 98; 42; 46; 36] [97; 98; 98; 98; 99].
Proof.
  apply (match_correct [94; 97; 98; 42; 46; 36] [97; 98; 98; 98; 99]);
    [repeat constructor; discriminate|repeat constructor; discriminate|reflexivity].
Defined.

(** ** grep()

    [buf] is the part of the buffer in use, which a NUL follows.  The input comes from
    read(): [sizes] says how many bytes are there at each call (a pipe or the console may
    have few), and a call returns that many, as many as fit, or as many as are left. *)
Definition BUFSIZE : Z := 1024.

(** strchr(): the bytes before the first [c], and those after it *)
Fixpoint strchr (s : list Z) (c : Z) : option (list Z * list Z) :=
  match s with
  | [] => None
  | x :: s =>
    if x =? 0 then None
    else if x =? c then Some ([], s)
    else match strchr s c with Some (l, r) => Some (x :: l, r) | None => None end
  end.

(** The loop over the lines in the buffer: what is left of it, and the output *)
Fixpoint grep_lines (fuel : nat) (pattern p out : list Z) : option (list Z * list Z) :=
  match fuel with
  | O => None
  | S fuel =>
    match strchr p NL with
    | Some (line, rest) => grep_lines fuel pattern rest (if re_match pattern line then out ++ line ++ [NL] else out)
    | None => Some (p, out)
    end
  end.

Definition read (sizes : list nat) (inp : list Z) (cap : Z) : list Z * list nat * list Z :=
  let n := match sizes with [] => Z.to_nat cap | k :: _ => Nat.min (S k) (Z.to_nat cap) end in
  (take n inp, tail sizes, drop n inp).

Fixpoint grep_loop (fuel : nat) (pattern : list Z) (sizes : list nat) (inp buf out : list Z) : option (list Z) :=
  match fuel with
  | O => None
  | S fuel =>
    let '(chunk, sizes, inp) := read sizes inp (BUFSIZE - Z.of_nat (length buf) - 1) in
    if (0 <? Z.of_nat (length chunk)) then
      let buf := buf ++ chunk in
      match grep_lines (S (length buf)) pattern buf out with
      | Some (p, out) => grep_loop fuel pattern sizes inp p out
      | None => None
      end
    else Some out
  end.

Definition grep (pattern : list Z) (sizes : list nat) (inp : list Z) : option (list Z) :=
  grep_loop (S (length inp)) pattern sizes inp [] [].

(** The lines of the input that end in a newline and match, [cur] being the line so far *)
Fixpoint matching (pattern cur inp : list Z) : list Z :=
  match inp with
  | [] => []
  | c :: inp =>
    if c =? NL then (if re_match pattern cur then cur ++ [NL] else []) ++ matching pattern [] inp
    else matching pattern (cur ++ [c]) inp
  end.

(** The longest line, [n] bytes of it seen so far *)
Fixpoint longest (n : nat) (inp : list Z) : nat :=
  match inp with
  | [] => n
  | c :: inp => Nat.max n (longest (if c =? NL then 0 else S n) inp)
  end.

Definition nonl (s : list Z) : Prop := Forall (λ c, c ≠ NL) s.

Lemma strchr_Some s line rest :
  strchr s NL = Some (line, rest) → s = line ++ NL :: rest ∧ nonl line.
Proof.
  revert line rest. induction s as [|x s IH]; intros line rest; cbn [strchr]; [done|].
  destruct (x =? 0); [done|]. destruct (Z.eqb_spec x NL) as [->|Hx].
  - intros [= <- <-]. split; [done|constructor].
  - destruct (strchr s NL) as [[l r]|]; [|done]. intros [= <- <-]. destruct (IH _ _ eq_refl) as [-> Hl].
    split; [done|]. by constructor.
Qed.

Lemma strchr_None s : nonul s → strchr s NL = None → nonl s.
Proof.
  induction s as [|x s IH]; intros Hs; cbn [strchr]; [constructor|]. apply Forall_cons in Hs as [Hx Hs].
  rewrite (proj2 (Z.eqb_neq _ _) Hx). destruct (Z.eqb_spec x NL); [done|].
  destruct (strchr s NL) as [[l r]|]; [done|]. intros _. constructor; [done|]. by apply IH.
Qed.

Lemma matching_run pattern cur run inp : nonl run → matching pattern cur (run ++ inp) = matching pattern (cur ++ run) inp.
Proof.
  revert cur. induction run as [|c run IH]; intros cur Hr; [by rewrite app_nil_r|]. apply Forall_cons in Hr as [Hc Hr].
  cbn [app matching]. rewrite (proj2 (Z.eqb_neq _ _) Hc), IH by done. by rewrite <- app_assoc.
Qed.

Lemma longest_ge n inp : (n ≤ longest n inp)%nat.
Proof. destruct inp; cbn [longest]; lia. Qed.

Lemma longest_run n run inp : nonl run → longest n (run ++ inp) = Nat.max n (longest (n + length run) inp).
Proof.
  revert n. induction run as [|c run IH]; intros n Hr; cbn [app length].
  - rewrite Nat.add_0_r. destruct inp; cbn [longest]; lia.
  - apply Forall_cons in Hr as [Hc Hr]. cbn [longest]. rewrite (proj2 (Z.eqb_neq _ _) Hc), IH by done.
    replace (S n + length run)%nat with (n + S (length run))%nat by lia.
    pose proof (longest_ge (n + S (length run)) inp). lia.
Qed.

(** The lines in the buffer are handled, and what is left has no newline. *)
Lemma grep_lines_spec fuel pattern p out rest :
  nonul p → (length p < fuel)%nat →
  ∃ left out', grep_lines fuel pattern p out = Some (left, out ++ out') ∧ nonl left ∧ nonul left ∧
    matching pattern [] (p ++ rest) = out' ++ matching pattern left rest ∧
    (longest (length left) rest ≤ longest 0 (p ++ rest))%nat.
Proof.
  revert p out. induction fuel as [|fuel IH]; intros p out Hp Hf; [lia|]. cbn [grep_lines].
  destruct (strchr p NL) as [[line r]|] eqn:E.
  - apply strchr_Some in E as [-> Hl]. apply Forall_app in Hp as [_ [_ Hr]%Forall_cons].
    rewrite length_app in Hf. cbn [length] in Hf.
    destruct (IH r (if re_match pattern line then out ++ line ++ [NL] else out) Hr ltac:(lia))
      as (left & out' & -> & Hnl & Hnn & Hm & Hlg).
    exists left, ((if re_match pattern line then line ++ [NL] else []) ++ out').
    split; [|split; [done|split; [done|split]]].
    + f_equal. f_equal. destruct (re_match pattern line); by rewrite <- ?app_assoc.
    + rewrite <- app_assoc. cbn [app]. rewrite matching_run by done. cbn [matching app]. rewrite Z.eqb_refl, Hm.
      by rewrite app_assoc.
    + rewrite <- app_assoc. cbn [app]. rewrite longest_run by done. cbn [longest]. rewrite Z.eqb_refl. lia.
  - pose proof (strchr_None p Hp E) as Hnl. exists p, []. rewrite app_nil_r.
    split; [done|]. split; [done|]. split; [done|]. cbn [app]. split; [by apply (matching_run pattern [])|].
    rewrite longest_run by done. cbn. lia.
Qed.

Lemma grep_loop_spec fuel pattern sizes inp buf out :
  nonul inp → nonul buf → nonl buf → Z.of_nat (longest (length buf) inp) < BUFSIZE - 1 → (length inp < fuel)%nat →
  grep_loop fuel pattern sizes inp buf out = Some (out ++ matching pattern buf inp).
Proof.
  revert sizes inp buf out. induction fuel as [|fuel IH]; intros sizes inp buf out Hi Hb Hn Hl Hf; [lia|].
  cbn [grep_loop]. unfold read. pose proof (longest_ge (length buf) inp).
  set (cap := BUFSIZE - Z.of_nat (length buf) - 1) in *.
  set (n := match sizes with [] => Z.to_nat cap | k :: _ => Nat.min (S k) (Z.to_nat cap) end).
  assert (Hn1 : (1 ≤ n)%nat) by (unfold n; destruct sizes; lia).
  destruct (Z.ltb_spec 0 (Z.of_nat (length (take n inp)))) as [Hpos|Hzero].
  2:{ rewrite length_take in Hzero. assert (inp = []) as -> by (destruct inp; [done|cbn [length] in Hzero; lia]).
      cbn [matching]. by rewrite app_nil_r. }
  rewrite length_take in Hpos. rewrite <- (take_drop n inp) in Hi, Hl.
  apply Forall_app in Hi as [Hi1 Hi2].
  destruct (grep_lines_spec (S (length (buf ++ take n inp))) pattern (buf ++ take n inp) out (drop n inp))
    as (left & out' & E & Hnl & Hnn & Hm & Hlg); [by apply Forall_app|lia|].
  rewrite E. rewrite <- app_assoc, longest_run in Hlg by done.
  rewrite <- app_assoc, matching_run in Hm by done. cbn [app] in Hm.
  rewrite IH; [|done|done|done|cbn [Nat.add] in Hlg; lia|rewrite length_drop; lia].
  rewrite <- app_assoc, <- Hm, take_drop. done.
Qed.

(** Grep() prints exactly the matching lines. However read() cuts the input into pieces, if
    no line fills the buffer (1023 bytes or more) and the input has no NUL, grep() ends and its output is the lines that
    end in a newline and match, in order; a last line without a newline is never
    printed. *)
Theorem grep_correct pattern sizes inp :
  nonul inp → Z.of_nat (longest 0 inp) < BUFSIZE - 1 → grep pattern sizes inp = Some (matching pattern [] inp).
Proof.
  intros Hi Hl. unfold grep. rewrite grep_loop_spec; [done|done|constructor|constructor|done|lia].
Qed.

(** "ab\nc\nb\nab" read one, two, then three bytes at a time, for "b": "ab\nb\n" *)
Lemma grep_correct_witness : grep [98] [0; 1; 2]%nat [97; 98; 10; 99; 10; 98; 10; 97; 98] = Some [97; 98; 10; 98; 10].
Proof.
  rewrite (grep_correct [98] [0; 1; 2]%nat [97; 98; 10; 99; 10; 98; 10; 97; 98]);
    [reflexivity|repeat constructor; discriminate|reflexivity].
Defined.
