(* ===== verification/Sh.v ===== *)
(** sh.c: the shell's command parser.

    The line is a NUL-terminated string in memory; pointers into it are addresses.  The parsing functions
    advance a pointer, here the state of the monad; [es] is the end of the line.  A word
    of a command is a pair of pointers to its first byte and just past its last one, as in
    argv and eargv.  parseexec() fills in the arguments of an execcmd that redirections
    already point to; here it collects both and builds the tree at its end.  malloc() is
    taken to succeed, as in the code. *)
From S2P Require Import Prelude Machine CString.

Definition MAXARGS : Z := 10.
Definition O_RDONLY : Z := 0x000.
Definition O_WRONLY : Z := 0x001.
Definition O_RDWR : Z := 0x002.
Definition O_CREATE : Z := 0x200.
Definition O_TRUNC : Z := 0x400.

(** struct cmd and its variants *)
Definition word : Type := Z * Z.

Inductive cmd : Type :=
| EXEC (argv : list word)
| REDIR (c : cmd) (file : word) (mode fd : Z)
| PIPE (left right : cmd)
| LIST (left right : cmd)
| BACK (c : cmd).

(** whitespace and symbols, and strchr() in them *)
Definition whitespace : list Z := [32; 9; 13; 10; 11].
Definition symbols : list Z := [60; 124; 62; 38; 59; 40; 41].
Definition among (set : list Z) (c : Z) : bool := existsb (Z.eqb c) set.
Definition isws (c : Z) : bool := among whitespace c.
Definition isword (c : Z) : bool := negb (isws c) && negb (among symbols c).

(** while(s < es && test(...)) s++, with [k] bytes left before [es] *)
Fixpoint skip (k : nat) (test : Z → bool) (m : mem) (s : Z) : Z :=
  match k with
  | O => s
  | S k => if test (m s) then skip k test m (s + 1) else s
  end.

Section parse.
Context (m : mem) (es : Z).

Definition skip_to (test : Z → bool) (s : Z) : Z := skip (Z.to_nat (es - s)) test m s.

(** gettoken(): the token, the word it found, and the pointer after it *)
Definition gettoken : M Z (Z * word) :=
  s ← get;
  let q := skip_to isws s in
  let c := m q in
  let '(ret, eq) :=
    if c =? 0 then (0, q)
    else if among [124; 40; 41; 59; 38; 60] c then (c, q + 1)
    else if c =? 62 then (if m (q + 1) =? 62 then (43, q + 2) else (62, q + 1))
    else (97, skip_to isword q) in
  modify (λ _ : Z, skip_to isws eq);;
  mret (ret, (q, eq)).

(** peek() *)
Definition peek (toks : list Z) : M Z bool :=
  s ← get;
  let s := skip_to isws s in
  modify (λ _ : Z, s);;
  mret (negb (m s =? 0) && among toks (m s)).

(** parseredirs(): the redirections found; [redircmd] puts them around a command *)
Definition redir : Type := word * Z * Z.
Definition redircmd (c : cmd) (r : redir) : cmd := let '(file, mode, fd) := r in REDIR c file mode fd.

Fixpoint parseredirs_loop (k : nat) (rs : list redir) : M Z (list redir) :=
  b ← peek [60; 62];
  if (b : bool) then
    match k with
    | O => no_fuel
    | S k =>
      t ← gettoken;
      w ← gettoken;
      if negb (fst w =? 97) then panic "missing file for redirection"
      else
        parseredirs_loop k
          (if fst t =? 60 then rs ++ [(snd w, O_RDONLY, 0)]
           else if fst t =? 62 then rs ++ [(snd w, Z.lor (Z.lor O_WRONLY O_CREATE) O_TRUNC, 1)]
           else if fst t =? 43 then rs ++ [(snd w, Z.lor O_WRONLY O_CREATE, 1)]
           else rs)
    end
  else mret rs.
Definition parseredirs : M Z (list redir) :=
  s ← get;
  parseredirs_loop (Z.to_nat (es - s)) [].

(** The loop of parseexec() over the arguments *)
Fixpoint parseexec_loop (k : nat) (argv : list word) (rs : list redir) : M Z cmd :=
  b ← peek [124; 41; 38; 59];
  if (b : bool) then mret (foldl redircmd (EXEC argv) rs)
  else
    t ← gettoken;
    if fst t =? 0 then mret (foldl redircmd (EXEC argv) rs)
    else if negb (fst t =? 97) then panic "syntax"
    else
      let argv := argv ++ [snd t] in
      if MAXARGS <=? Z.of_nat (length argv) then panic "too many args"
      else
        match k with
        | O => no_fuel
        | S k => rs' ← parseredirs; parseexec_loop k argv (rs ++ rs')
        end.

(** The loop of parseline() over the &s *)
Fixpoint parseback (k : nat) (c : cmd) : M Z cmd :=
  b ← peek [38];
  if (b : bool) then
    match k with
    | O => no_fuel
    | S k => gettoken;; parseback k (BACK c)
    end
  else mret c.

(** parseline(), parsepipe(), parseexec() and parseblock() call each other. *)
Fixpoint parseline (fuel : nat) : M Z cmd :=
  match fuel with
  | O => no_fuel
  | S fuel =>
    c ← parsepipe fuel;
    s ← get;
    c ← parseback (Z.to_nat (es - s)) c;
    b ← peek [59];
    if (b : bool) then gettoken;; r ← parseline fuel; mret (LIST c r)
    else mret c
  end
with parsepipe (fuel : nat) : M Z cmd :=
  match fuel with
  | O => no_fuel
  | S fuel =>
    c ← parseexec fuel;
    b ← peek [124];
    if (b : bool) then gettoken;; r ← parsepipe fuel; mret (PIPE c r)
    else mret c
  end
with parseexec (fuel : nat) : M Z cmd :=
  match fuel with
  | O => no_fuel
  | S fuel =>
    b ← peek [40];
    if (b : bool) then parseblock fuel
    else
      rs ← parseredirs;
      s ← get;
      parseexec_loop (Z.to_nat (es - s)) [] rs
  end
with parseblock (fuel : nat) : M Z cmd :=
  match fuel with
  | O => no_fuel
  | S fuel =>
    b ← peek [40];
    if negb b then panic "parseblock"
    else
      gettoken;;
      c ← parseline fuel;
      b ← peek [41];
      if negb b then panic "syntax - missing )"
      else
        gettoken;;
        rs ← parseredirs;
        mret (foldl redircmd c rs)
  end.
End parse.

(** nulterminate() *)
Fixpoint nul_words (m : mem) (ws : list word) : mem :=
  match ws with
  | [] => m
  | (_, eq) :: ws => nul_words (upd m eq 0) ws
  end.

Fixpoint nulterminate (m : mem) (c : cmd) : mem :=
  match c with
  | EXEC argv => nul_words m argv
  | REDIR c file _ _ => upd (nulterminate m c) (snd file) 0
  | PIPE l r => nulterminate (nulterminate m l) r
  | LIST l r => nulterminate (nulterminate m l) r
  | BACK c => nulterminate m c
  end.

(** parsecmd() of the string of [len] bytes at [s]: the command and the memory after
    nulterminate().  Before the last panic it prints the [leftovers]. *)
Definition parsecmd (m : mem) (s len : Z) : outcome Z (cmd * mem) :=
  let es := s + len in
  (c ← parseline m es (Z.to_nat (4 * len + 4));
   peek m es [];;
   s' ← get;
   if negb (s' =? es) then panic "syntax"
   else mret (c, nulterminate m c)) s.

(** What is left of the line after a command, which parsecmd() prints before it panics *)
Definition leftovers (m : mem) (s len : Z) : option Z :=
  let es := s + len in
  match (c ← parseline m es (Z.to_nat (4 * len + 4)); peek m es []) s with
  | Ret _ s' => if negb (s' =? es) then Some s' else None
  | _ => None
  end.

(** ** Parsing ends, and its words are words

    [fine p Q s]: from [s], the parser [p] does not run out of fuel; if it does not panic it
    gives a result and a pointer that satisfy [Q]. *)
Definition fine {A} (p : M Z A) (Q : A → Z → Prop) (s : Z) : Prop :=
  match p s with Ret a s' => Q a s' | Panic _ _ => True | _ => False end.

Lemma fine_bind {A B} (p : M Z A) (f : A → M Z B) Q s :
  fine p (λ a s', fine (f a) Q s') s → fine (mbind f p) Q s.
Proof. unfold fine, mbind, M_bind. destruct (p s); simpl; done. Qed.

Lemma fine_mono {A} (p : M Z A) (Q Q' : A → Z → Prop) s :
  fine p Q s → (∀ a s', Q a s' → Q' a s') → fine p Q' s.
Proof. unfold fine. destruct (p s); naive_solver. Qed.

Lemma fine_get (Q : Z → Z → Prop) s : Q s s → fine get Q s.
Proof. done. Qed.

Lemma fine_ret {A} (a : A) (Q : A → Z → Prop) s : Q a s → fine (mret a) Q s.
Proof. done. Qed.

Lemma skip_spec k test m s :
  let r := skip k test m s in
  s ≤ r ≤ s + Z.of_nat k ∧ (∀ x, s ≤ x < r → test (m x) = true) ∧ (r = s + Z.of_nat k ∨ test (m r) = false).
Proof.
  revert s. induction k as [|k IH]; intros s; cbn [skip].
  - split; [lia|]. split; [lia|]. left. lia.
  - destruct (test (m s)) eqn:E.
    + destruct (IH (s + 1)) as (Hr & Hall & Hend). split; [lia|]. split.
      * intros x Hx. destruct (decide (x = s)) as [->|]; [done|]. apply Hall. lia.
      * destruct Hend as [->|]; [left; lia|by right].
    + split; [lia|]. split; [lia|by right].
Qed.

Section proofs.
Context (m : mem) (s0 es : Z).

(** The string from [s0] to its NUL at [es] *)
Hypothesis Hnul : m es = 0.
Hypothesis Hnon : ∀ x, s0 ≤ x < es → m x ≠ 0.

Definition inside (s : Z) : Prop := s0 ≤ s ≤ es.

Lemma skip_to_spec test s :
  s ≤ es → let r := skip_to m es test s in
  s ≤ r ≤ es ∧ (∀ x, s ≤ x < r → test (m x) = true) ∧ (r = es ∨ test (m r) = false).
Proof.
  intros Hs. unfold skip_to. destruct (skip_spec (Z.to_nat (es - s)) test m s) as (Hr & Hall & Hend).
  split; [lia|]. split; [done|]. destruct Hend as [->|]; [left; lia|by right].
Qed.

(** A word of the line: no white space or symbol inside, and one (or the end) after it *)
Record word_ok (w : word) : Prop := {
  wo_start : s0 ≤ fst w < snd w;
  wo_end : snd w ≤ es;
  wo_in : ∀ x, fst w ≤ x < snd w → isword (m x) = true;
  wo_out : snd w = es ∨ isword (m (snd w)) = false
}.

Lemma fine_gettoken s (Q : Z * word → Z → Prop) :
  inside s →
  (∀ ret w s', inside s' → s ≤ s' → (m s ≠ 0 → isws (m s) = false → s < s') → (ret ≠ 0 → s < s') →
     (ret = 97 → word_ok w) → Q (ret, w) s') →
  fine (gettoken m es) Q s.
Proof.
  intros [Hs0 Hs] HQ. unfold fine, gettoken. m_unfold.
  destruct (skip_to_spec isws s Hs) as (Hq & _ & Hqe). set (q := skip_to m es isws s) in *.
  assert (Hskip : isws (m s) = false → q = s).
  { intros E. unfold q, skip_to. destruct (Z.to_nat (es - s)); cbn [skip]; by rewrite ?E. }
  assert (Hfin : ∀ ret e, q ≤ e ≤ es → (m q ≠ 0 → q < e) → (ret ≠ 0 → q < e) → (ret = 97 → word_ok (q, e)) →
            Q (ret, (q, e)) (skip_to m es isws e)).
  { intros ret e He Hprog Hret Hw. destruct (skip_to_spec isws e ltac:(lia)) as (Hr & _ & _).
    apply HQ; [split; lia|lia| |intros; specialize (Hret ltac:(done)); lia|done].
    intros Hm Hws. rewrite (Hskip Hws) in *. specialize (Hprog Hm). lia. }
  assert (Hlt : m q ≠ 0 → q < es).
  { intros Hm. destruct (Z.eqb_spec q es) as [E|]; [rewrite E in Hm; done|lia]. }
  destruct (Z.eqb_spec (m q) 0) as [E0|E0]; cbn [fst snd]; [apply Hfin; done || lia|]. specialize (Hlt E0).
  assert (Hnw : isws (m q) = false) by (destruct Hqe; [lia|done]).
  destruct (among [124; 40; 41; 59; 38; 60] (m q)) eqn:Es.
  { apply Hfin; [lia|lia|lia|]. intros E. rewrite E in Es. discriminate. }
  destruct (Z.eqb_spec (m q) 62) as [E62|E62].
  { destruct (Z.eqb_spec (m (q + 1)) 62) as [E2|E2]; (apply Hfin; [|lia|lia|lia]); [|lia].
    destruct (Z.eqb_spec (q + 1) es) as [E3|]; [rewrite E3 in E2; lia|lia]. }
  destruct (skip_to_spec isword q ltac:(lia)) as (He & Hin & Hout).
  assert (Hwq : isword (m q) = true).
  { unfold isword. rewrite Hnw. cbn [negb andb]. apply negb_true_iff. destruct (among symbols (m q)) eqn:E; [|done].
    exfalso. apply Z.eqb_neq in E62. revert E Es. unfold among, symbols. cbn [existsb]. rewrite E62.
    repeat match goal with |- context [m q =? ?k] => destruct (m q =? k) end; done. }
  assert (q < skip_to m es isword q).
  { destruct (Z.eqb_spec (skip_to m es isword q) q) as [E|]; [|lia]. rewrite E in Hout. destruct Hout; [lia|congruence]. }
  apply Hfin; [lia|lia|lia|]. intros _. split; cbn [fst snd]; [lia|lia|done|done].
Qed.

Lemma fine_peek toks s (Q : bool → Z → Prop) :
  inside s →
  (∀ b s', inside s' → s ≤ s' → (b = true → m s' ≠ 0 ∧ isws (m s') = false) → Q b s') → fine (peek m es toks) Q s.
Proof.
  intros [Hs0 Hs] HQ. unfold fine, peek. m_unfold. destruct (skip_to_spec isws s Hs) as (Hq & _ & Hqe).
  apply HQ; [split; lia|lia|]. intros [Hm%negb_true_iff _]%andb_true_iff. apply Z.eqb_neq in Hm. split; [done|].
  destruct Hqe as [E|]; [|done]. by rewrite E in Hm.
Qed.

(** The words of a command *)
Fixpoint words (c : cmd) : list word :=
  match c with
  | EXEC argv => argv
  | REDIR c file _ _ => words c ++ [file]
  | PIPE l r | LIST l r => words l ++ words r
  | BACK c => words c
  end.
Definition words_ok (c : cmd) : Prop := Forall word_ok (words c).
Definition redirs_ok (rs : list redir) : Prop := Forall (λ r, word_ok (fst (fst r))) rs.

Lemma words_redirs rs c : words_ok c → redirs_ok rs → words_ok (foldl redircmd c rs).
Proof.
  revert c. induction rs as [|[[w mode] fd] rs IH]; intros c Hc Hr; [done|].
  apply Forall_cons in Hr as [Hw Hr]. cbn [foldl]. apply IH; [|done]. unfold words_ok. cbn [redircmd words].
  apply Forall_app. split; [done|]. constructor; [exact Hw|constructor].
Qed.

Lemma fine_redirs_loop k rs s (Q : list redir → Z → Prop) :
  inside s → es - s ≤ Z.of_nat k → redirs_ok rs →
  (∀ rs' s', inside s' → s ≤ s' → redirs_ok rs' → Q rs' s') → fine (parseredirs_loop m es k rs) Q s.
Proof.
  revert s rs. induction k as [|k IH]; intros s rs Hs Hk Hrs HQ; cbn [parseredirs_loop];
    apply fine_bind, fine_peek; try done; intros b s1 Hs1 Hle1 Hb; (destruct b; [|apply fine_ret; by apply HQ]);
    destruct (Hb eq_refl) as [Hm Hw].
  { destruct Hs1. assert (s1 = es) as -> by lia. done. }
  apply fine_bind, fine_gettoken; [done|]. intros t w s2 Hs2 Hle2 Hp2 _ _. specialize (Hp2 Hm Hw).
  apply fine_bind, fine_gettoken; [done|]. intros ret w' s3 Hs3 Hle3 _ Hp3 Hw3. cbn [fst snd].
  destruct (Z.eqb_spec ret 97) as [->|]; [|done]. cbn [negb]. apply IH; [done|lia| |].
  - repeat case_match; try done; (apply Forall_app; split; [done|]; constructor; [by apply Hw3|constructor]).
  - intros rs' s4 Hs4 Hle4 Hr4. apply HQ; [done|lia|done].
Qed.

Lemma fine_redirs s (Q : list redir → Z → Prop) :
  inside s → (∀ rs s', inside s' → s ≤ s' → redirs_ok rs → Q rs s') → fine (parseredirs m es) Q s.
Proof. intros Hs HQ. apply fine_bind, fine_get, fine_redirs_loop; [done|lia|constructor|done]. Qed.

Lemma fine_exec_loop k argv rs s (Q : cmd → Z → Prop) :
  inside s → es - s ≤ Z.of_nat k → Forall word_ok argv → redirs_ok rs →
  (∀ c s', inside s' → s ≤ s' → words_ok c → Q c s') → fine (parseexec_loop m es k argv rs) Q s.
Proof.
  revert s argv rs. induction k as [|k IH]; intros s argv rs Hs Hk Ha Hrs HQ; cbn [parseexec_loop];
    apply fine_bind, fine_peek; try done; intros b s1 Hs1 Hle1 _;
    (destruct b; [apply fine_ret; apply HQ; [done|done|by apply words_redirs]|]);
    (apply fine_bind, fine_gettoken; [done|]); intros t w s2 Hs2 Hle2 _ Hp2 Hw2; cbn [fst snd];
    (destruct (Z.eqb_spec t 0) as [|Ht]; [apply fine_ret; apply HQ; [done|lia|by apply words_redirs]|]);
    specialize (Hp2 Ht); [destruct Hs1, Hs2; lia|].
  destruct (Z.eqb_spec t 97) as [->|]; [|done]. cbn [negb]. case_match; [done|].
  apply fine_bind, fine_redirs; [done|]. intros rs' s3 Hs3 Hle3 Hr3. apply IH; [done|lia| | |].
  - apply Forall_app. split; [done|]. constructor; [by apply Hw2|constructor].
  - by apply Forall_app.
  - intros c s4 Hs4 Hle4 Hc4. apply HQ; [done|lia|done].
Qed.

Lemma fine_back k c s (Q : cmd → Z → Prop) :
  inside s → es - s ≤ Z.of_nat k → words_ok c →
  (∀ c s', inside s' → s ≤ s' → words_ok c → Q c s') → fine (parseback m es k c) Q s.
Proof.
  revert s c. induction k as [|k IH]; intros s c Hs Hk Hc HQ; cbn [parseback];
    apply fine_bind, fine_peek; try done; intros b s1 Hs1 Hle1 Hb; (destruct b; [|apply fine_ret; by apply HQ]);
    destruct (Hb eq_refl) as [Hm Hw].
  { destruct Hs1. assert (s1 = es) as -> by lia. done. }
  apply fine_bind, fine_gettoken; [done|]. intros t w s2 Hs2 Hle2 Hp2 _ _. specialize (Hp2 Hm Hw).
  apply IH; [done|lia|done|]. intros c' s3 Hs3 Hle3 Hc3. apply HQ; [done|lia|done].
Qed.

Definition parses (p : M Z cmd) (s : Z) : Prop :=
  ∀ Q : cmd → Z → Prop, (∀ c s', inside s' → s ≤ s' → words_ok c → Q c s') → fine p Q s.

Lemma fine_parse fuel :
  (∀ s, inside s → 4 * (es - s) + 4 ≤ Z.of_nat fuel → parses (parseline m es fuel) s) ∧
  (∀ s, inside s → 4 * (es - s) + 3 ≤ Z.of_nat fuel → parses (parsepipe m es fuel) s) ∧
  (∀ s, inside s → 4 * (es - s) + 2 ≤ Z.of_nat fuel → parses (parseexec m es fuel) s) ∧
  (∀ s, inside s → 4 * (es - s) + 1 ≤ Z.of_nat fuel → parses (parseblock m es fuel) s).
Proof.
  induction fuel as [|fuel (IHl & IHp & IHe & IHb)]; [split_and!; intros s [? ?]; lia|].
  split_and!; intros s Hs Hf Q HQ; cbn [parseline parsepipe parseexec parseblock].
  - apply fine_bind, (IHp s); [done|lia|]. intros c1 s1 Hs1 Hle1 Hc1.
    apply fine_bind, fine_get, fine_bind, fine_back; [done|lia|done|]. intros c2 s2 Hs2 Hle2 Hc2.
    apply fine_bind, fine_peek; [done|]. intros b s3 Hs3 Hle3 Hb.
    destruct b; [|apply fine_ret; apply HQ; [done|lia|done]]. destruct (Hb eq_refl) as [Hm Hw].
    apply fine_bind, fine_gettoken; [done|]. intros t w s4 Hs4 Hle4 Hp4 _ _. specialize (Hp4 Hm Hw).
    apply fine_bind, (IHl s4); [done|lia|]. intros r s5 Hs5 Hle5 Hr. apply fine_ret. apply HQ; [done|lia|].
    unfold words_ok. cbn [words]. by apply Forall_app.
  - apply fine_bind, (IHe s); [done|lia|]. intros c1 s1 Hs1 Hle1 Hc1.
    apply fine_bind, fine_peek; [done|]. intros b s3 Hs3 Hle3 Hb.
    destruct b; [|apply fine_ret; apply HQ; [done|lia|done]]. destruct (Hb eq_refl) as [Hm Hw].
    apply fine_bind, fine_gettoken; [done|]. intros t w s4 Hs4 Hle4 Hp4 _ _. specialize (Hp4 Hm Hw).
    apply fine_bind, (IHp s4); [done|lia|]. intros r s5 Hs5 Hle5 Hr. apply fine_ret. apply HQ; [done|lia|].
    unfold words_ok. cbn [words]. by apply Forall_app.
  - apply fine_bind, fine_peek; [done|]. intros b s1 Hs1 Hle1 Hb.
    destruct b.
    + apply (IHb s1); [done|lia|]. intros c s2 Hs2 Hle2 Hc. apply HQ; [done|lia|done].
    + apply fine_bind, fine_redirs; [done|]. intros rs s2 Hs2 Hle2 Hrs. apply fine_bind, fine_get.
      apply fine_exec_loop; [done|lia|constructor|done|]. intros c s3 Hs3 Hle3 Hc. apply HQ; [done|lia|done].
  - apply fine_bind, fine_peek; [done|]. intros b s1 Hs1 Hle1 Hb.
    destruct b; [|done]. destruct (Hb eq_refl) as [Hm Hw]. cbn [negb].
    apply fine_bind, fine_gettoken; [done|]. intros t w s2 Hs2 Hle2 Hp2 _ _. specialize (Hp2 Hm Hw).
    apply fine_bind, (IHl s2); [done|lia|]. intros c s3 Hs3 Hle3 Hc.
    apply fine_bind, fine_peek; [done|]. intros b s4 Hs4 Hle4 _. destruct b; [|done]. cbn [negb].
    apply fine_bind, fine_gettoken; [done|]. intros t' w' s5 Hs5 Hle5 _ _ _.
    apply fine_bind, fine_redirs; [done|]. intros rs s6 Hs6 Hle6 Hrs. apply fine_ret. apply HQ; [done|lia|].
    by apply words_redirs.
Qed.

(** ** nulterminate() *)
Lemma nul_words_spec ws mm x : nul_words mm ws x = if bool_decide (x ∈ ws.*2) then 0 else mm x.
Proof.
  revert mm. induction ws as [|[q e] ws IH]; intros mm; cbn [nul_words fmap list_fmap snd].
  - by rewrite bool_decide_false by set_solver.
  - rewrite IH. unfold upd. repeat case_bool_decide; try set_solver.
    + destruct (Z.eqb_spec x e); [done|]. set_solver.
    + destruct (Z.eqb_spec x e) as [->|]; [set_solver|done].
Qed.

Lemma nulterminate_spec c mm x : nulterminate mm c x = if bool_decide (x ∈ (words c).*2) then 0 else mm x.
Proof.
  revert mm. induction c as [argv|c IH f mode fd|l IHl r IHr|l IHl r IHr|c IH]; intros mm; cbn [nulterminate words].
  - apply nul_words_spec.
  - unfold upd. rewrite IH, fmap_app. cbn [fmap list_fmap]. repeat case_bool_decide; destruct (Z.eqb_spec x (snd f)); set_solver.
  - rewrite IHr, IHl, fmap_app. repeat case_bool_decide; set_solver.
  - rewrite IHr, IHl, fmap_app. repeat case_bool_decide; set_solver.
  - apply IH.
Qed.

(** The end of one word is never inside another. *)
Lemma words_apart w w' x : word_ok w → word_ok w' → fst w ≤ x < snd w → x ≠ snd w'.
Proof.
  intros [Hs He Hin _] [_ _ _ Hout] Hx ->. destruct Hout as [E|E]; [lia|]. rewrite Hin in E by done. done.
Qed.

Lemma word_terminated c w :
  words_ok c → w ∈ words c →
  cstring (nulterminate m c) (fst w) (snd w - fst w) ∧
  ∀ x, fst w ≤ x < snd w → nulterminate m c x = m x ∧ isword (m x) = true.
Proof.
  intros Hc Hw. pose proof (proj1 (Forall_forall _ _) Hc w Hw) as Hok. pose proof Hok as [Hs He Hin _].
  assert (Hsame : ∀ x, fst w ≤ x < snd w → nulterminate m c x = m x).
  { intros x Hx. rewrite nulterminate_spec, bool_decide_false; [done|].
    intros (w' & E & Hw')%list_elem_of_fmap. apply (words_apart w w' x Hok); [|done|done].
    by apply (proj1 (Forall_forall _ _) Hc). }
  split; [split; [lia|split]|auto].
  - replace (fst w + (snd w - fst w)) with (snd w) by lia. rewrite nulterminate_spec, bool_decide_true; [done|].
    apply list_elem_of_fmap. by exists w.
  - intros i Hi. rewrite Hsame by lia. apply Hnon. lia.
Qed.
End proofs.

Lemma parsecmd_ends m s len :
  cstring m s len → (∃ c m' s', parsecmd m s len = Ret (c, m') s') ∨ ∃ msg s', parsecmd m s len = Panic msg s'.
Proof.
  intros (Hl & Hnul & Hnon). unfold parsecmd. set (es := s + len) in *.
  set (p := mbind _ _). assert (Hf : fine p (λ _ _, True) s).
  { unfold p. apply fine_bind. destruct (fine_parse m s es Hnul (Z.to_nat (4 * len + 4))) as [Hp _].
    apply (Hp s); [split; lia|lia|]. intros c s1 Hs1 Hle Hc. apply fine_bind, (fine_peek m s es Hnul); [done|].
    intros b s2 Hs2 Hle2 _. apply fine_bind, fine_get. by destruct (s2 =? es). }
  unfold fine in Hf. destruct (p s) as [[c m'] s'|msg s'| |]; [by left; eauto|by right; eauto|done|done].
Qed.

Lemma parsecmd_word m s len c m' s' :
  cstring m s len → parsecmd m s len = Ret (c, m') s' →
  ∀ w, w ∈ words c → s ≤ fst w < snd w ∧ snd w ≤ s + len ∧
    cstring m' (fst w) (snd w - fst w) ∧ ∀ x, fst w ≤ x < snd w → m' x = m x ∧ isword (m x) = true.
Proof.
  intros (Hl & Hnul & Hnon) E w Hw. set (es := s + len) in *.
  assert (Hnon' : ∀ x, s ≤ x < es → m x ≠ 0) by (intros x Hx; replace x with (s + (x - s)) by lia; apply Hnon; lia).
  unfold parsecmd in E. fold es in E.
  apply bind_Ret_inv in E as (c1 & s1 & E1 & E). apply bind_Ret_inv in E as (b & s2 & E2 & E).
  apply bind_Ret_inv in E as (s3 & s4 & E3 & E). destruct (negb (s3 =? es)); [done|]. injection E as -> <- _.
  destruct (fine_parse m s es Hnul (Z.to_nat (4 * len + 4))) as [Hp _].
  assert (Hc : words_ok m s es c).
  { pose proof (Hp s ltac:(split; lia) ltac:(lia) (λ c _, words_ok m s es c) ltac:(auto)) as Hf.
    unfold fine in Hf. by rewrite E1 in Hf. }
  destruct (word_terminated m s es Hnul Hnon' c w Hc Hw) as [Hcs Hb].
  pose proof (proj1 (Forall_forall _ _) Hc w Hw) as [? ? _ _]. done.
Qed.

(** The parser ends on every line. For any NUL-terminated string, parsecmd() returns a
    command or reports a syntax error (it panics); no line makes its mutually recursive
    functions or their loops run forever. *)
Theorem parsecmd_total m s len :
  cstring m s len → (∃ c m' s', parsecmd m s len = Ret (c, m') s') ∨ ∃ msg s', parsecmd m s len = Panic msg s'.
Proof. apply parsecmd_ends. Qed.

(** C26: the words of a parsed command are proper strings. When parsecmd() returns, then in the memory that
    nulterminate() leaves every argument and file name of the command is a
    NUL-terminated string, with the bytes it had in the line, none of them white space or
    a symbol: no NUL that terminates one word damages another. *)
Theorem parsecmd_words m s len c m' s' :
  cstring m s len → parsecmd m s len = Ret (c, m') s' →
  ∀ w, w ∈ words c → s ≤ fst w < snd w ∧ snd w ≤ s + len ∧
    cstring m' (fst w) (snd w - fst w) ∧ ∀ x, fst w ≤ x < snd w → m' x = m x ∧ isword (m x) = true.
Proof. apply parsecmd_word. Qed.

(** The line "cat<x|wc" at address 0 *)
Definition line1 : mem := λ a, nth (Z.to_nat a) [99; 97; 116; 60; 120; 124; 119; 99] 0.

Lemma line1_ok : cstring line1 0 8.
Proof.
  split; [lia|]. split; [reflexivity|]. intros i Hi. unfold line1. assert (Hn : (Z.to_nat (0 + i) < 8)%nat) by lia.
  destruct (Z.to_nat (0 + i)) as [|[|[|[|[|[|[|[|n]]]]]]]]; cbn; lia.
Qed.

Lemma parsecmd_total_witness :
  ∃ c m' s', parsecmd line1 0 8 = Ret (c, m') s' ∧ c = PIPE (REDIR (EXEC [(0, 3)]) (4, 5) 0 0) (EXEC [(6, 8)]).
Proof.
  destruct (parsecmd_total line1 0 8 line1_ok) as [(c & m' & s' & E)|(msg & s' & E)].
  - exists c, m', s'. split; [exact E|]. vm_compute in E. by injection E as <- _ _.
  - exfalso. vm_compute in E. discriminate.
Defined.

Definition cmd1 : cmd := PIPE (REDIR (EXEC [(0, 3)]) (4, 5) 0 0) (EXEC [(6, 8)]).

Lemma parsecmd1 : parsecmd line1 0 8 = Ret (cmd1, nulterminate line1 cmd1) 8.
Proof. vm_compute. reflexivity. Qed.

Lemma parsecmd_words_witness : parsecmd line1 0 8 = Ret (cmd1, nulterminate line1 cmd1) 8 ∧ cstring (nulterminate line1 cmd1) 0 3.
Proof.
  split; [exact parsecmd1|].
  refine (proj1 (proj2 (proj2 (parsecmd_words line1 0 8 _ _ _ line1_ok parsecmd1 (0, 3) _)))).
  cbn [cmd1 words app]. left.
Defined.
