(* ===== verification/Uprintf.v ===== *)
(** printf.c of the user library: formatted output to a file descriptor.

    putc() is the parameter [putc]: write() of one byte to the descriptor. *)
From S2P Require Import Prelude Machine Printf.

(** digits[]: 0123456789ABCDEF *)
Definition udigits (x : Z) : Z := digit 65 x.

Section printf.
Context {W : Type} (putc : Z → M W unit).

(** printint() *)
Definition printint (xx base : Z) (sgn : bool) : M W unit :=
  let neg := sgn && (xx <? 0) in
  let x := if neg then u32 (- xx) else u32 xx in
  match convert 32 udigits base x with
  | None => no_fuel
  | Some buf => putcs putc (rev (if neg then buf ++ [MINUS] else buf))
  end.

(** printptr() *)
Fixpoint printptr_loop (k : nat) (x : Z) : M W unit :=
  match k with
  | O => mret ()
  | S k => putc (udigits (Z.shiftr x (8 * 8 - 4)));; printptr_loop k (u64 (Z.shiftl x 4))
  end.
Definition printptr (x : Z) : M W unit :=
  putc 48;; putc 120;; printptr_loop 16 x.

(** One directive of vprintf(), the character after the percent sign; the arguments left.
    printint()'s parameter is an int: what %l prints is the low half of its argument.
    %c takes a uint, here an [AInt]. *)
Definition directive (c : Z) (ap : list arg) : M W (list arg) :=
  if c =? 100 then v ← va_int ap; printint (fst v) 10 true;; mret (snd v)
  else if c =? 108 then v ← va_long ap; printint (s32 (fst v)) 10 false;; mret (snd v)
  else if c =? 120 then v ← va_int ap; printint (fst v) 16 false;; mret (snd v)
  else if c =? 112 then v ← va_long ap; printptr (fst v);; mret (snd v)
  else if c =? 115 then v ← va_str ap; putcs putc (default null_str (fst v));; mret (snd v)
  else if c =? 99 then v ← va_int ap; putc (u8 (fst v));; mret (snd v)
  else if c =? PERCENT then putc c;; mret ap
  else putc PERCENT;; putc c;; mret ap.

(** vprintf(): [state] is 0 or '%' *)
Fixpoint vprintf (state : Z) (fmt : list Z) (ap : list arg) : M W unit :=
  match fmt with
  | [] => mret ()
  | c :: fmt =>
    if state =? 0 then
      if c =? PERCENT then vprintf PERCENT fmt ap
      else putc c;; vprintf state fmt ap
    else if state =? PERCENT then
      ap ← directive c ap;
      vprintf 0 fmt ap
    else vprintf state fmt ap
  end.
End printf.

(** ** Numbers *)
Lemma udigit_dec d : 0 ≤ d < 10 → udigits d = 48 + d ∧ digits d = 48 + d.
Proof. intros Hd. unfold udigits, digits, digit. destruct (Z.ltb_spec d 10); lia. Qed.

(** The magnitude that is printed *)
Lemma magnitude xx : -2 ^ 31 ≤ xx < 2 ^ 31 → (if xx <? 0 then u32 (- xx) else u32 xx) = Z.abs xx.
Proof. intros Hx. destruct (Z.ltb_spec xx 0); rewrite u32_small; lia. Qed.

Lemma convert_dec k x : convert k digits 10 x = convert k udigits 10 x.
Proof.
  revert x. induction k as [|k IH]; intros x; [done|]. cbn [convert].
  destruct (udigit_dec (x mod 10)) as [-> ->]; [by apply Z.mod_pos_bound|]. by rewrite IH.
Qed.

(** printf("%d") prints the number. For any int the user library's and the kernel's printint() return, never
    write more than 11 of the 16 bytes of buf, and print the same characters: the decimal
    digits of the number, at least one, preceded by a minus sign if it is negative, also for the least int. *)
Theorem printint_decimal (xx : Z) (out : list Z) :
  -2 ^ 31 ≤ xx < 2 ^ 31 →
  ∃ ds, printint collect xx 10 true out =
      Ret () (out ++ (if xx <? 0 then [MINUS] else []) ++ map (Z.add 48) (rev ds)) ∧
    Printf.printint collect xx 10 true out = printint collect xx 10 true out ∧
    Forall (λ d, 0 ≤ d < 10) ds ∧ number 10 ds = Z.abs xx ∧ (0 < length ds)%nat ∧
    (length ds + (if (xx <? 0)%Z then 1 else 0) ≤ 11)%nat.
Proof.
  intros Hx. destruct (convert_digits 32 udigits 10 (Z.abs xx)) as (ds & E & Hn & Hall & Hlen & Hmax); [lia|lia|lia|].
  destruct (convert_digits 32 digits 10 (Z.abs xx)) as (ds' & E' & _ & _ & _ & _); [lia|lia|lia|].
  exists ds. unfold printint, Printf.printint. cbn [andb]. rewrite magnitude by done.
  assert (Em : map udigits ds = map (Z.add 48) ds).
  { apply map_ext_in. intros d Hd%list_elem_of_In. rewrite Forall_forall in Hall. by apply udigit_dec, Hall. }
  rewrite convert_dec, E, Em. rewrite collect_putcs. split; [|split; [done|]].
  - do 2 f_equal. destruct (xx <? 0); rewrite ?rev_app_distr, <- map_rev; done.
  - split; [done|]. split; [done|]. split; [done|].
    assert (length ds ≤ 10)%nat by (apply Hmax; [lia|lia]). destruct (xx <? 0); lia.
Qed.

Lemma printint_decimal_witness :
  Printf.printint collect (-2147483648) 10 true [] = Ret () [45; 50; 49; 52; 55; 52; 56; 51; 54; 52; 56].
Proof.
  destruct (printint_decimal (-2147483648) []) as (ds & E & E' & _); [lia|]. rewrite E'. vm_compute. reflexivity.
Defined.

(** ** The two printf()s *)

(** A format without %x, %p, %l and %c *)
Fixpoint plain_fmt (fmt : list Z) : bool :=
  match fmt with
  | [] => true
  | c :: fmt =>
    if c =? PERCENT then
      match fmt with
      | [] => true
      | d :: fmt => negb (existsb (Z.eqb d) [120; 112; 108; 99]) && plain_fmt fmt
      end
    else plain_fmt fmt
  end.

Lemma list_pair_ind (Q : list Z → Prop) :
  Q [] → (∀ c, Q [c]) → (∀ c d l, Q l → Q (d :: l) → Q (c :: d :: l)) → ∀ l, Q l.
Proof.
  intros H0 H1 H2. assert (Hall : ∀ l, Q l ∧ ∀ c, Q (c :: l)); [|intros l; apply Hall].
  induction l as [|d l [IH IHc]]; [auto|]. split; [apply IHc|]. intros c. apply H2; [done|apply IHc].
Qed.

(** The kernel's and the user library's printf() print the same. For every format without %x, %p, %l and %c, whatever the
    arguments and whatever putc() does, the loop of the kernel's printf() and the state machine of vprintf() do
    the same: %d, %s and %% print alike, an unknown directive is printed as it is, and a percent sign at
    the end prints nothing. *)
Theorem printf_agree {W} (putc : Z → M W unit) (fmt : list Z) (ap : list arg) (s : W) :
  plain_fmt fmt = true → printf_loop putc fmt ap s = vprintf putc 0 fmt ap s.
Proof.
  revert ap s. induction fmt as [|c|c d fmt IH IHd] using list_pair_ind; intros ap s Hp; [done| |].
  - cbn [printf_loop vprintf]. change (0 =? 0) with true. cbv iota. by destruct (c =? PERCENT).
  - cbn [printf_loop vprintf plain_fmt] in *. change (0 =? 0) with true. cbv iota in *.
    destruct (Z.eqb_spec c PERCENT) as [->|Hc]; cbn [negb] in *.
    2:{ apply bind_ext. intros _ s'. by apply IHd. }
    apply andb_true_iff in Hp as [Hd Hp]. change (PERCENT =? 0) with false. change (PERCENT =? PERCENT) with true. cbv iota.
    cbn [existsb] in Hd. apply negb_true_iff in Hd. repeat (apply orb_false_iff in Hd as [? Hd]).
    unfold directive. repeat match goal with E : (d =? _) = false |- _ => rewrite E; clear E end.
    assert (Hloop : ∀ ap' (m : M W unit) s', mbind (λ _, printf_loop putc fmt ap') m s' = mbind (λ _, vprintf putc 0 fmt ap') m s')
      by (intros; apply bind_ext; intros; by apply IH).
    destruct (d =? 100); [|destruct (d =? 115); [|destruct (Z.eqb_spec d PERCENT) as [->|]]].
    + rewrite bind_assoc. apply bind_ext. intros [v ap'] s'. rewrite bind_assoc. cbn [fst snd]. unfold Printf.printint, printint.
      rewrite convert_dec. apply Hloop.
    + rewrite bind_assoc. apply bind_ext. intros [v ap'] s'. rewrite bind_assoc. apply Hloop.
    + rewrite bind_assoc. apply Hloop.
    + rewrite bind_assoc. apply bind_ext. intros _ s'. rewrite bind_assoc. apply Hloop.
Qed.

(** "pid %d%%" *)
Lemma printf_agree_witness : ∃ out,
  printf_loop collect [112; 105; 100; 32; 37; 100; 37; 37] [AInt (-7)] [] = Ret () out ∧ out = [112; 105; 100; 32; 45; 55; 37].
Proof.
  exists [112; 105; 100; 32; 45; 55; 37]. split; [|done].
  rewrite (printf_agree collect [112; 105; 100; 32; 37; 100; 37; 37] [AInt (-7)] []); vm_compute; reflexivity.
Defined.
