(* ===== verification/Umalloc.v ===== *)
(** umalloc.c: the storage allocator of user programs, by Kernighan and Ritchie.

    [heap] is the state of the process that the allocator works on: its memory, the static
    variable freep, and the operating system, which sbrk() asks for more memory.  A Header is
    16 bytes: the pointer to the next free block and, at offset 8, the size in units of 16
    bytes.  [base] is the address of the static variable base.  [fuel] bounds the turns of
    a walk around the circular list of free blocks. *)
From S2P Require Import Prelude Machine.

(** What malloc() asks of the operating system: sbrk(n) on the memory of the process *)
Class Os (W : Type) := { sbrk : Z → M (mem * W) Z }.

Record heap (W : Type) := mkHeap { h_mem : mem; h_freep : Z; h_os : W }.
Arguments mkHeap {W}.
Arguments h_mem {W}.
Arguments h_freep {W}.
Arguments h_os {W}.

Definition sizeof_Header : Z := 16.

Section umalloc.
Context {W : Type} `{Os W} (base : Z).
Abbreviation st := (heap W).

(** p->s.ptr, p->s.size, and stores to them *)
Definition ptr (p : Z) : M st Z := gets (λ s, load64 (h_mem s) p).
Definition size (p : Z) : M st Z := gets (λ s, load32 (h_mem s) (p + 8)).
Definition set_hmem m (s : st) : st := mkHeap m (h_freep s) (h_os s).
Definition set_ptr (p v : Z) : M st unit := modify (λ s, set_hmem (store64 (h_mem s) p v) s).
Definition set_size (p v : Z) : M st unit := modify (λ s, set_hmem (store32 (h_mem s) (p + 8) v) s).
Definition set_freep (p : Z) : M st unit := modify (λ s, mkHeap (h_mem s) p (h_os s)).
Definition on_os {A} (m : M (mem * W) A) : M st A :=
  zoom (λ s, (h_mem s, h_os s)) (λ '(m, o) s, mkHeap m (h_freep s) o) m.
(** p + n for a Header pointer *)
Definition hdr_add (p n : Z) : Z := u64 (p + n * sizeof_Header).

(** free(): the loop that finds the place of bp *)
Fixpoint free_loop (fuel : nat) (bp p : Z) : M st Z :=
  q ← ptr p;
  if (p <? bp) && (bp <? q) then mret p
  else if (q <=? p) && ((p <? bp) || (bp <? q)) then mret p
  else
    match fuel with
    | O => no_fuel
    | S fuel => free_loop fuel bp q
    end.

Definition free (fuel : nat) (ap : Z) : M st unit :=
  let bp := u64 (ap - sizeof_Header) in
  freep ← gets h_freep;
  p ← free_loop fuel bp freep;
  n ← size bp;
  q ← ptr p;
  (if hdr_add bp n =? q then
     n ← size bp;
     qn ← size q;
     set_size bp (u32 (n + qn));;
     qq ← ptr q;
     set_ptr bp qq
   else set_ptr bp q);;
  pn ← size p;
  (if hdr_add p pn =? bp then
     n ← size bp;
     set_size p (u32 (pn + n));;
     bq ← ptr bp;
     set_ptr p bq
   else set_ptr p bp);;
  set_freep p.

(** morecore(); the argument of sbrk() is an int *)
Definition morecore (fuel : nat) (nu : Z) : M st Z :=
  let nu := if nu <? 4096 then 4096 else nu in
  p ← on_os (sbrk (s32 (nu * sizeof_Header)));
  if p =? 2 ^ 64 - 1 then mret 0
  else
    set_size p nu;;
    free fuel (hdr_add p 1);;
    gets h_freep.

(** malloc(): the loop over the free blocks, with at most [k] more turns *)
Fixpoint malloc_loop (fuel k : nat) (nunits prevp p : Z) : M st Z :=
  n ← size p;
  if nunits <=? n then
    r ← (if n =? nunits then
           q ← ptr p;
           set_ptr prevp q;;
           mret p
         else
           set_size p (u32 (n - nunits));;
           n ← size p;
           let p := hdr_add p n in
           set_size p nunits;;
           mret p);
    set_freep prevp;;
    mret (hdr_add r 1)
  else
    freep ← gets h_freep;
    r ← (if p =? freep then
           p ← morecore fuel nunits;
           mret (if p =? 0 then None else Some p)
         else mret (Some p));
    match r with
    | None => mret 0
    | Some p =>
      match k with
      | O => no_fuel
      | S k => q ← ptr p; malloc_loop fuel k nunits p q
      end
    end.

Definition malloc (fuel : nat) (nbytes : Z) : M st Z :=
  let nunits := u32 ((nbytes + sizeof_Header - 1) / sizeof_Header + 1) in
  freep ← gets h_freep;
  prevp ← (if freep =? 0 then
             set_ptr base base;;
             set_freep base;;
             set_size base 0;;
             mret base
           else mret freep);
  p ← ptr prevp;
  malloc_loop fuel fuel nunits prevp p.
End umalloc.
