(* ===== verification/UmallocSpec.v ===== *)
(** umalloc.c: malloc() and free() keep a circular list of free blocks in address order, never
    hand out memory twice and lose none.

    Memory is counted in units of 16 bytes.  A block is a pair of its first unit, where its
    header is, and its size in units.  Unit 0 stands for the static variable base, which is
    not part of the heap: [ad] gives the address of a unit. *)
From S2P Require Import Prelude Machine Umalloc.

(** ** What the operating system promises *)
Class OsOk (W : Type) `{Os W} := {
  os_inv : W → Prop;
  os_brk : W → Z;
  os_sbrk n m o : os_inv o → 0 < n < 2 ^ 31 →
    ∃ r m' o', sbrk n (m, o) = Ret r (m', o') ∧ os_inv o' ∧ (∀ x, x < os_brk o → m' x = m x) ∧
      ((r = 2 ^ 64 - 1 ∧ os_brk o' = os_brk o) ∨
       (r = os_brk o ∧ os_brk o' = os_brk o + n ∧ os_brk o' < 2 ^ 31))
}.

(** ** Blocks *)
Abbreviation blk := (Z * Z)%type.
Definition units (l : list blk) : list Z := concat (map (λ b, seqZ (fst b) (snd b)) l).

Lemma units_app l1 l2 : units (l1 ++ l2) = units l1 ++ units l2.
Proof. unfold units. by rewrite map_app, concat_app. Qed.

Lemma elem_of_units l u : u ∈ units l ↔ ∃ b n, (b, n) ∈ l ∧ b ≤ u < b + n.
Proof.
  unfold units. induction l as [|[b n] l IH]; cbn [map concat fst snd].
  - split; [intros Hu; by apply not_elem_of_nil in Hu|intros (? & ? & Hin & _); by apply not_elem_of_nil in Hin].
  - rewrite elem_of_app, elem_of_seqZ, IH. split.
    + intros [Hu|(b' & n' & Hin & Hu)]; [exists b, n|exists b', n']; rewrite elem_of_cons; auto.
    + intros (b' & n' & [[= -> ->]|Hin]%elem_of_cons & Hu); [by left|right; eauto].
Qed.

(** Free blocks: in address order, with a gap after each, from [p] on *)
Fixpoint sorted (p : Z) (l : list blk) : Prop :=
  match l with
  | [] => True
  | (q, n) :: l => p < q ∧ 0 < n ∧ sorted (q + n) l
  end.

Fixpoint lastn (p : Z) (l : list blk) : Z := match l with [] => p | (q, _) :: l => lastn q l end.
Definition first (l : list blk) (e : Z) : Z := match l with [] => e | (q, _) :: _ => q end.

Lemma lastn_app p l1 q n l2 : lastn p (l1 ++ (q, n) :: l2) = lastn q l2.
Proof. revert p. induction l1 as [|[q' n'] l1 IH]; intros p; cbn; [done|apply IH]. Qed.

Lemma lastn_in p l : l = [] ∧ lastn p l = p ∨ ∃ l' n, l = l' ++ [(lastn p l, n)].
Proof.
  revert p. induction l as [|[q n] l IH]; intros p; [by left|right]. cbn [lastn].
  destruct (IH q) as [[-> E]|(l' & n' & E)]; [exists [], n; by rewrite E|exists ((q, n) :: l'), n']. by rewrite E at 1.
Qed.

Lemma sorted_pos p l q n : sorted p l → (q, n) ∈ l → p < q ∧ 0 < n.
Proof.
  revert p. induction l as [|[q' n'] l IH]; intros p Hs; [intros Hin; by apply not_elem_of_nil in Hin|].
  destruct Hs as (Hp & Hn & Hs). intros [[= -> ->]|Hin]%elem_of_cons; [done|]. destruct (IH _ Hs Hin). lia.
Qed.

Lemma sorted_mono p p' l : p' ≤ p → sorted p l → sorted p' l.
Proof. destruct l as [|[q n] l]; [done|]. cbn. intros Hp (? & ? & ?). split; [lia|done]. Qed.

(** Where a list of free blocks ends *)
Fixpoint top (p : Z) (l : list blk) : Z := match l with [] => p | (q, n) :: l => top (q + n) l end.

Lemma sorted_app p l1 l2 : sorted p (l1 ++ l2) ↔ sorted p l1 ∧ sorted (top p l1) l2.
Proof.
  revert p. induction l1 as [|[q n] l1 IH]; intros p; cbn; [naive_solver|]. rewrite IH. naive_solver.
Qed.

Lemma top_app p l1 q n : top p (l1 ++ [(q, n)]) = q + n.
Proof. revert p. induction l1 as [|[q' n'] l1 IH]; intros p; cbn; [done|apply IH]. Qed.

Lemma top_ge p l : sorted p l → p ≤ top p l.
Proof.
  revert p. induction l as [|[q n] l IH]; intros p Hs; cbn; [lia|]. destruct Hs as (? & ? & Hs). specialize (IH _ Hs). lia.
Qed.

Lemma top_in p l q n : sorted p l → (q, n) ∈ l → q + n ≤ top p l.
Proof.
  revert p. induction l as [|[q' n'] l IH]; intros p Hs; [intros Hin; by apply not_elem_of_nil in Hin|].
  destruct Hs as (? & ? & Hs). intros [[= -> ->]|Hin]%elem_of_cons; cbn; [by apply top_ge|by apply IH].
Qed.

(** The free blocks below and above a unit that is in none of them *)
Lemma sorted_split p l b : sorted p l → p < b → b ∉ units l →
  ∃ l1 l2, l = l1 ++ l2 ∧ top p l1 ≤ b ∧ (∀ q n, (q, n) ∈ l1 → q < b) ∧ (∀ q n, (q, n) ∈ l2 → b < q).
Proof.
  revert p. induction l as [|[q n] l IH]; intros p Hs Hp Hb.
  { exists [], []. split_and!; [done|cbn; lia|..]; intros ? ? Hin; by apply not_elem_of_nil in Hin. }
  destruct Hs as (Hpq & Hn & Hs). destruct (decide (b < q)) as [Hlt|Hge].
  - exists [], ((q, n) :: l). split_and!; [done|cbn; lia|intros ? ? Hin; by apply not_elem_of_nil in Hin|].
    intros q' n' [[= -> ->]|Hin]%elem_of_cons; [done|]. destruct (sorted_pos _ _ _ _ Hs Hin). lia.
  - assert (Hout : q + n ≤ b).
    { destruct (decide (q + n ≤ b)) as [|Hc]; [done|]. destruct Hb. apply elem_of_units. exists q, n. split; [by left|lia]. }
    assert (Hb' : b ∉ units l).
    { intros Hin. apply Hb. apply elem_of_units in Hin as (q' & n' & Hin & Hu). apply elem_of_units. exists q', n'. split; [by right|done]. }
    destruct l as [|[q1 n1] l].
    { exists [(q, n)], []. split_and!; [done|cbn; lia| |intros ? ? Hin; by apply not_elem_of_nil in Hin].
      intros q' n' Hin%list_elem_of_singleton. injection Hin as -> ->. lia. }
    destruct (decide (q + n = b)) as [He|Hne].
    + exists [(q, n)], ((q1, n1) :: l). split_and!; [done|cbn; lia| |].
      * intros q' n' Hin%list_elem_of_singleton. injection Hin as -> ->. lia.
      * intros q' n' Hin. destruct (sorted_pos _ _ _ _ Hs Hin). lia.
    + destruct (IH (q + n) Hs ltac:(lia) Hb') as (l1 & l2 & E & Ht & H1 & H2).
      exists ((q, n) :: l1), l2. split_and!; [cbn; by rewrite E|done| |done].
      intros q' n' [[= -> ->]|Hin]%elem_of_cons; [lia|by eapply H1].
Qed.

(** A block put back between the free blocks [l1] below and [l2] above it, joined with its
    neighbours: [r] and [n'] are the blocks after it and its size after the right side, [L'] the result *)
Definition join_right (b n : Z) (l2 : list blk) (n' : Z) (r : list blk) : Prop :=
  (r = l2 ∧ n' = n ∧ ∀ q k l, l2 = (q, k) :: l → b + n ≠ q) ∨ (∃ k, l2 = (b + n, k) :: r ∧ n' = n + k).
Definition join_left (l1 : list blk) (b n' : Z) (r L' : list blk) : Prop :=
  (L' = l1 ++ (b, n') :: r ∧ ∀ l p k, l1 = l ++ [(p, k)] → p + k ≠ b) ∨
  (∃ l p k, l1 = l ++ [(p, k)] ∧ p + k = b ∧ L' = l ++ (p, k + n') :: r).

Lemma seqZ_join b n k : 0 ≤ n → 0 ≤ k → seqZ b (n + k) = seqZ b n ++ seqZ (b + n) k.
Proof. intros. by rewrite seqZ_app by lia. Qed.

Lemma units_cons b n l : units ((b, n) :: l) = seqZ b n ++ units l.
Proof. done. Qed.

Lemma joined_units l1 l2 b n n' r L' :
  join_right b n l2 n' r → join_left l1 b n' r L' → 0 < n → (∀ q k, (q, k) ∈ l1 ++ l2 → 0 < k) →
  units L' ≡ₚ seqZ b n ++ units (l1 ++ l2).
Proof.
  intros Hr Hl Hn Hpos. assert (Hr' : units ((b, n') :: r) = seqZ b n ++ units l2).
  { destruct Hr as [(-> & -> & _)|(k & -> & ->)]; [done|]. rewrite !units_cons, seqZ_join, <- app_assoc; [done|lia|].
    specialize (Hpos (b + n) k ltac:(set_solver)). lia. }
  assert (Hn' : 0 < n').
  { destruct Hr as [(_ & -> & _)|(k & E & ->)]; [done|]. specialize (Hpos (b + n) k ltac:(rewrite E; set_solver)). lia. }
  rewrite units_app. destruct Hl as [[-> _]|(l & p & k & -> & Hp & ->)].
  - rewrite units_app, Hr'. solve_Permutation.
  - rewrite !units_app, units_cons, seqZ_join; [|specialize (Hpos p k ltac:(set_solver)); lia|lia].
    rewrite Hp, units_cons, <- app_assoc, app_nil_r. change (seqZ b n' ++ units r) with (units ((b, n') :: r)). rewrite Hr'. solve_Permutation.
Qed.

Lemma joined_sorted l1 l2 b n n' r L' :
  join_right b n l2 n' r → join_left l1 b n' r L' → sorted 0 (l1 ++ l2) → 0 < n → 0 < b → top 0 l1 ≤ b →
  (∀ q k, (q, k) ∈ l2 → b + n ≤ q) → sorted 0 L'.
Proof.
  intros Hr Hl Hs Hn Hb Ht H2. apply sorted_app in Hs as [Hs1 Hs2].
  assert (Hr' : 0 < n' ∧ sorted (b + n') r).
  { destruct Hr as [(-> & -> & Hne)|(k & -> & ->)].
    - split; [done|]. destruct l2 as [|[q k] l2]; [done|]. destruct Hs2 as (? & ? & ?). split; [|done].
      specialize (H2 q k ltac:(by left)). specialize (Hne q k l2 eq_refl). lia.
    - destruct Hs2 as (? & ? & ?). split; [lia|]. by replace (b + (n + k)) with (b + n + k) by lia. }
  destruct Hl as [[-> Hne]|(l & p & k & -> & Hp & ->)].
  - apply sorted_app. split; [done|]. split; [|done]. destruct (decide (top 0 l1 = b)) as [E|]; [|lia].
    destruct (lastn_in 0 l1) as [[-> _]|(l & k & El)]; [cbn in *; lia|]. rewrite El, top_app in E. by destruct (Hne _ _ _ El).
  - destruct Hr' as [Hn' Hr']. apply sorted_app in Hs1 as [Hs1 (? & ? & _)]. apply sorted_app. split; [done|].
    split; [done|]. split; [lia|]. replace (p + (k + n')) with (b + n') by lia. apply Hr'.
Qed.

(** Binds regrouped, to run a part of a function by its own lemma *)
Lemma wp_bind2 {S' A B C D} (m : M S' A) (m' : M S' B) (f : A → B → M S' C) (g : C → M S' D) Q s :
  wp (a ← m; b ← m'; f a b) (λ c, wp (g c) Q) s → wp (a ← m; b ← m'; c ← f a b; g c) Q s.
Proof.
  intros Hw. apply wp_bind_inv in Hw. apply wp_bind. eapply wp_mono; [exact Hw|]. cbv beta. intros a s1 Hw1.
  apply wp_bind_inv in Hw1. apply wp_bind. eapply wp_mono; [exact Hw1|]. cbv beta. intros b s2 Hw2. by apply wp_bind.
Qed.

Lemma wp_bind1 {S' A C D} (m : M S' A) (f : A → M S' C) (g : C → M S' D) Q s :
  wp (a ← m; f a) (λ c, wp (g c) Q) s → wp (a ← m; c ← f a; g c) Q s.
Proof.
  intros Hw. apply wp_bind_inv in Hw. apply wp_bind. eapply wp_mono; [exact Hw|]. cbv beta. intros a s1 Hw1. by apply wp_bind.
Qed.

Section spec.
Context {W : Type} `{OsOk W} (base lo : Z).
Abbreviation st := (heap W).

(** The variable base is below the heap, which starts at unit [lo]. *)
Hypothesis Hbase : 0 < base ∧ base + 16 ≤ 16 * lo ∧ lo < 2 ^ 27.

(** ** Headers *)
Definition ad (u : Z) : Z := if u =? 0 then base else 16 * u.
Definition node (u : Z) : Prop := u = 0 ∨ lo ≤ u < 2 ^ 27.
Definition pv (m : mem) (u : Z) : Z := load64 m (ad u).
Definition sv (m : mem) (u : Z) : Z := load32 m (ad u + 8).

Lemma ad_node u : node u → 0 < ad u < 2 ^ 31 ∧ (u = 0 → ad u = base) ∧ (u ≠ 0 → ad u = 16 * u ∧ lo ≤ u).
Proof.
  unfold node, ad. intros [->|Hu]; [cbn; lia|]. destruct (Z.eqb_spec u 0) as [->|]; lia.
Qed.

Lemma ad_lt u v : node u → node v → ad u < ad v ↔ u < v.
Proof. unfold node, ad. intros Hu Hv. destruct (Z.eqb_spec u 0), (Z.eqb_spec v 0); lia. Qed.

Lemma ad_far u v : node u → node v → u ≠ v → ad u + 16 ≤ ad v ∨ ad v + 16 ≤ ad u.
Proof. unfold node, ad. intros Hu Hv Hn. destruct (Z.eqb_spec u 0), (Z.eqb_spec v 0); lia. Qed.

Lemma ad_inj u v : node u → node v → ad u = ad v → u = v.
Proof. intros Hu Hv E. destruct (decide (u = v)) as [|Hn]; [done|]. pose proof (ad_far u v Hu Hv Hn). lia. Qed.

Lemma pv_set_ptr m p v u : node u → node p → 0 ≤ v < 2 ^ 64 → pv (store64 m (ad p) v) u = upd (pv m) p v u.
Proof.
  intros Hu Hp Hv. unfold pv, upd. destruct (Z.eqb_spec u p) as [->|Hn].
  - by apply load64_store64_eq.
  - apply load64_store64_ne. pose proof (ad_far u p Hu Hp Hn). lia.
Qed.

Lemma sv_set_ptr m p v u : node u → node p → sv (store64 m (ad p) v) u = sv m u.
Proof.
  intros Hu Hp. unfold sv, load32, store64. apply load_store_ne. destruct (decide (u = p)) as [->|Hn]; [lia|].
  pose proof (ad_far u p Hu Hp Hn). lia.
Qed.

Lemma pv_set_size m p v u : node u → node p → pv (store32 m (ad p + 8) v) u = pv m u.
Proof.
  intros Hu Hp. unfold pv, load64, store32. apply load_store_ne. destruct (decide (u = p)) as [->|Hn]; [lia|].
  pose proof (ad_far u p Hu Hp Hn). lia.
Qed.

Lemma sv_set_size m p v u : node u → node p → 0 ≤ v < 2 ^ 32 → sv (store32 m (ad p + 8) v) u = upd (sv m) p v u.
Proof.
  intros Hu Hp Hv. unfold sv, upd, load32, store32. destruct (Z.eqb_spec u p) as [->|Hn].
  - rewrite load_store_eq. by apply Z.mod_small.
  - apply load_store_ne. pose proof (ad_far u p Hu Hp Hn). lia.
Qed.

(** Memory that changed only in the headers of the units of [T] *)
Definition hdrs_only (T : list Z) (m m' : mem) : Prop := ∀ x, (∀ u, u ∈ T → x < ad u ∨ ad u + 16 ≤ x) → m' x = m x.

Lemma hdrs_store n k T p m v : n + Z.of_nat k ≤ 16 → 0 ≤ n → p ∈ T → hdrs_only T m (store k m (ad p + n) v).
Proof. intros Hk Hn Hp x Hx. apply store_out. specialize (Hx p Hp). lia. Qed.

Lemma hdrs_trans T m1 m2 m3 : hdrs_only T m1 m2 → hdrs_only T m2 m3 → hdrs_only T m1 m3.
Proof. intros H12 H23 x Hx. rewrite H23, H12; done. Qed.

(** ** The circular list *)
Fixpoint links (f : Z → Z) (p : Z) (l : list blk) (e : Z) : Prop :=
  match l with
  | [] => f p = ad e
  | (q, _) :: l => f p = ad q ∧ links f q l e
  end.

Lemma links_app f p l1 l2 e : links f p (l1 ++ l2) e ↔ links f p l1 (first l2 e) ∧ links f (lastn p l1) l2 e.
Proof.
  revert p. induction l1 as [|[q n] l1 IH]; intros p; cbn [app links lastn].
  - destruct l2 as [|[q n] l2]; cbn; naive_solver.
  - rewrite IH. naive_solver.
Qed.

Lemma links_ext f g p l e : (∀ u, u = p ∨ u ∈ l.*1 → f u = g u) → links f p l e → links g p l e.
Proof.
  revert p. induction l as [|[q n] l IH]; intros p He; cbn [links].
  - intros <-. symmetry. apply He. by left.
  - intros [<- Hl]. split; [symmetry; apply He; by left|]. apply IH; [|done].
    intros u [->|Hu]; apply He; right; cbn; [by left|by right].
Qed.

(** A link changed at the last node *)
Lemma links_last f p l e v : NoDup (p :: l.*1) → links f p l e → links (upd f (lastn p l) (ad v)) p l v.
Proof.
  revert p. induction l as [|[q n] l IH]; intros p Hnd; cbn [links lastn fmap list_fmap].
  - intros _. apply upd_eq.
  - intros [Hf Hl]. cbn in Hnd. apply NoDup_cons in Hnd as [Hp Hnd]. split.
    + rewrite upd_ne; [done|]. intros E. apply Hp. rewrite E. clear. revert q. cbn. induction l as [|[q' n'] l IH]; intros q; cbn; [by left|right; apply IH].
    + by apply IH.
Qed.

(** The links after the first one *)
Definition rest (f : Z → Z) (l : list blk) (e : Z) : Prop := match l with [] => True | (q, _) :: l => links f q l e end.

Lemma links_first f p l e : links f p l e ↔ f p = ad (first l e) ∧ rest f l e.
Proof. destruct l as [|[q n] l]; cbn; naive_solver. Qed.

Lemma rest_ext f g l e : (∀ u, u ∈ l.*1 → f u = g u) → rest f l e → rest g l e.
Proof.
  destruct l as [|[q n] l]; [done|]. cbn [rest]. intros He. apply links_ext. intros u Hu. apply He. cbn. rewrite elem_of_cons. naive_solver.
Qed.

Lemma elem_of_fst (l : list blk) u : u ∈ l.*1 ↔ ∃ n, (u, n) ∈ l.
Proof.
  rewrite list_elem_of_fmap. split; [intros ([q n] & -> & Hin); by exists n|intros [n Hin]; by exists (u, n)].
Qed.

Lemma sorted_nodup p l : sorted p l → NoDup (p :: l.*1).
Proof.
  revert p. induction l as [|[q n] l IH]; intros p Hs; cbn [fmap list_fmap fst].
  - constructor; [apply not_elem_of_nil|constructor].
  - pose proof Hs as (Hp & Hn & Hs'). constructor.
    + change (q :: l.*1) with (((q, n) :: l).*1). intros [k Hin]%elem_of_fst. destruct (sorted_pos _ _ _ _ Hs Hin). lia.
    + constructor.
      * intros [k Hin]%elem_of_fst. destruct (sorted_pos _ _ _ _ Hs' Hin). lia.
      * specialize (IH _ Hs'). by apply NoDup_cons in IH as [_ ?].
Qed.

Lemma lastn_elem p l : lastn p l ∈ p :: l.*1.
Proof.
  destruct (lastn_in p l) as [[-> E]|(l' & n & E)]; [cbn; by left|]. right. rewrite E at 2. rewrite fmap_app, elem_of_app. right. cbn. by left.
Qed.

(** A block put between the free blocks below and above it; [r] are the blocks after it *)
Section insert.
Context (f f' : Z → Z) (l1 l2 r : list blk) (b : Z).
Hypothesis Hf : links f 0 (l1 ++ l2) 0.
Hypothesis Hs : sorted 0 (l1 ++ l2).
Hypothesis H1 : ∀ q n, (q, n) ∈ l1 → q < b.
Hypothesis H2 : ∀ q n, (q, n) ∈ l2 → b < q.
Hypothesis Hb : 0 < b.
Hypothesis Hr : r = l2 ∨ ∃ q n, l2 = (q, n) :: r.

Let p := lastn 0 l1.

Lemma rest_r : rest f r 0.
Proof.
  apply links_app in Hf as [_ Hl]. apply links_first in Hl as [_ Hl]. destruct Hr as [->|(q & n & E)]; [done|].
  rewrite E in Hl. cbn in Hl. by apply links_first in Hl as [_ ?].
Qed.

Lemma above_r u : u ∈ r.*1 → b < u ∧ u ≠ p.
Proof.
  intros [n Hin]%elem_of_fst. assert (Hb2 : b < u).
  { apply (H2 u n). destruct Hr as [->|(q & k & ->)]; [done|by right]. }
  split; [done|]. intros ->. unfold p in *. pose proof (lastn_elem 0 l1) as [E|[k Hk]%elem_of_fst]%elem_of_cons; [lia|].
  specialize (H1 _ _ Hk). lia.
Qed.

Lemma below_p : p < b ∧ p ≠ b.
Proof.
  unfold p. pose proof (lastn_elem 0 l1) as [E|[k Hk]%elem_of_fst]%elem_of_cons; [lia|]. specialize (H1 _ _ Hk). lia.
Qed.

Lemma links_insert n :
  (∀ u, u = 0 ∨ u ∈ l1.*1 ∨ u ∈ r.*1 ∨ u = b → f' u = upd (upd f b (ad (first r 0))) p (ad b) u) →
  links f' 0 (l1 ++ (b, n) :: r) 0.
Proof.
  intros He. destruct below_p as [Hp Hpb]. pose proof Hf as Hf0. apply links_app in Hf0 as [Hl _]. apply links_app. cbn [first].
  split; [|cbn [links]; split; [|apply links_first; split]].
  - eapply links_ext; [|apply (links_last f 0 l1 (first l2 0) b); [|exact Hl]].
    + intros u Hu. fold p. rewrite He by naive_solver. unfold upd. destruct (Z.eqb_spec u p); [done|].
      destruct (Z.eqb_spec u b) as [->|]; [|done]. exfalso. destruct Hu as [->|[k Hk]%elem_of_fst]; [lia|]. specialize (H1 _ _ Hk). lia.
    + pose proof Hs as Hs0. apply sorted_app in Hs0 as [Hs1 _]. by apply sorted_nodup.
  - fold p. rewrite He; [apply upd_eq|]. pose proof (lastn_elem 0 l1) as Hin. fold p in Hin. apply elem_of_cons in Hin. naive_solver.
  - rewrite He by auto. by rewrite upd_ne, upd_eq.
  - eapply rest_ext; [|apply rest_r]. intros u Hu. destruct (above_r u Hu). rewrite He by auto. by rewrite !upd_ne by lia.
Qed.

Lemma links_absorb l1' pn n :
  l1 = l1' ++ [(p, pn)] →
  (∀ u, u = 0 ∨ u ∈ l1.*1 ∨ u ∈ r.*1 → u ≠ p → u ≠ b → f' u = f u) → f' p = ad (first r 0) →
  links f' 0 (l1' ++ (p, n) :: r) 0.
Proof.
  intros El He Hp'. destruct below_p as [Hp Hpb]. pose proof rest_r as Hrest. pose proof above_r as Habove.
  pose proof Hf as Hf0. pose proof Hs as Hs0. rewrite El in Hf0, Hs0, He.
  rewrite <- app_assoc in Hf0, Hs0. apply links_app in Hf0 as [Hl Hl']. cbn [app first links] in Hl, Hl'.
  apply sorted_app in Hs0 as [Hs1 (Hpt & _)].
  assert (Hlow : ∀ u, u = 0 ∨ u ∈ l1'.*1 → f u = f' u).
  { intros u Hu. symmetry. assert (Hub : u < p).
    { destruct Hu as [->|[k Hk]%elem_of_fst]; [pose proof (top_ge _ _ Hs1); lia|].
      pose proof (top_in _ _ _ _ Hs1 Hk). destruct (sorted_pos _ _ _ _ Hs1 Hk). lia. }
    apply He; [|lia|lia]. rewrite fmap_app, elem_of_app. naive_solver. }
  apply links_app. cbn [first links]. split; [by eapply links_ext|]. split; [|apply links_first; split].
  - rewrite <- Hlow; [apply Hl'|]. pose proof (lastn_elem 0 l1') as Hin. by apply elem_of_cons in Hin.
  - done.
  - eapply rest_ext; [|exact Hrest]. intros u Hu. destruct (Habove u Hu). symmetry. apply He; [auto|done|lia].
Qed.
End insert.

(** ** The heap
    [L] are the free blocks, [A] the allocated ones, [G] all units that sbrk() has given. *)
Record heap_ok (s : st) (L A : list blk) (G : list Z) : Prop := {
  hk_links : links (pv (h_mem s)) 0 L 0;
  hk_sorted : sorted 0 L;
  hk_base : sv (h_mem s) 0 = 0;
  hk_sizes : ∀ q n, (q, n) ∈ L ++ A → sv (h_mem s) q = n ∧ 0 < n;
  hk_freep : ∃ p, h_freep s = ad p ∧ p ∈ 0 :: L.*1;
  hk_units : units (L ++ A) ≡ₚ G;
  hk_nodup : NoDup G;
  hk_range : ∀ u, u ∈ G → lo ≤ u ∧ 16 * (u + 1) ≤ os_brk (h_os s);
  hk_os : os_inv (h_os s) ∧ 16 * lo ≤ os_brk (h_os s) < 2 ^ 31 ∧ os_brk (h_os s) mod 16 = 0
}.

(** The bytes of the blocks of [A], headers included, are the same. *)
Definition keeps (A : list blk) (s s' : st) : Prop :=
  ∀ a n x, (a, n) ∈ A → 16 * a ≤ x < 16 * (a + n) → h_mem s' x = h_mem s x.

Section ok.
Context (s : st) (L A : list blk) (G : list Z) (Hok : heap_ok s L A G).

Lemma ok_unit b n u : (b, n) ∈ L ++ A → b ≤ u < b + n → lo ≤ u < 2 ^ 27 ∧ 16 * (u + 1) ≤ os_brk (h_os s).
Proof.
  intros Hin Hu. destruct (hk_range _ _ _ _ Hok u) as [H1 H2].
  - rewrite <- (hk_units _ _ _ _ Hok). apply elem_of_units. eauto.
  - pose proof (proj2 (hk_os _ _ _ _ Hok)). lia.
Qed.

Lemma ok_node b n : (b, n) ∈ L ++ A → node b ∧ 0 < b.
Proof.
  intros Hin. destruct (hk_sizes _ _ _ _ Hok b n Hin). destruct (ok_unit b n b Hin ltac:(lia)). split; [right; lia|].
  destruct Hbase. lia.
Qed.

Lemma ok_block b n : (b, n) ∈ L ++ A → node b ∧ 0 < b ∧ 0 < n ∧ b + n ≤ 2 ^ 27 ∧ sv (h_mem s) b = n.
Proof.
  intros Hin. destruct (ok_node _ _ Hin). destruct (hk_sizes _ _ _ _ Hok _ _ Hin).
  destruct (ok_unit b n (b + n - 1) Hin ltac:(lia)). split_and!; try done; lia.
Qed.

Lemma ok_free_node u : u ∈ 0 :: L.*1 → node u.
Proof.
  intros [->|[n Hin]%elem_of_fst]%elem_of_cons; [by left|]. apply (ok_node u n). apply elem_of_app. by left.
Qed.

Lemma ok_free_unit u : u ∈ units L → lo ≤ u ∧ u ∉ units A.
Proof.
  intros Hu. pose proof (hk_nodup _ _ _ _ Hok) as Hnd. rewrite <- (hk_units _ _ _ _ Hok), units_app in Hnd.
  apply NoDup_app in Hnd as (_ & Hd & _). split; [|by apply Hd].
  apply (hk_range _ _ _ _ Hok). rewrite <- (hk_units _ _ _ _ Hok), units_app. set_solver.
Qed.

(** Blocks are apart. *)
Lemma ok_apart q n a k u : (q, n) ∈ L → (a, k) ∈ A → ¬ (q ≤ u < q + n ∧ a ≤ u < a + k).
Proof.
  intros HL HA [Hu Hu']. pose proof (hk_nodup _ _ _ _ Hok) as Hnd. rewrite <- (hk_units _ _ _ _ Hok), units_app in Hnd.
  apply NoDup_app in Hnd as (_ & Hd & _). apply (Hd u); apply elem_of_units; eauto.
Qed.
End ok.

(** ** free(): finding the place *)
Lemma wp_free_up fuel l1 l2 b s p (Q : Z → st → Prop) :
  links (pv (h_mem s)) p l1 (first l2 0) → node b → node p → (∀ u, u ∈ (l1 ++ l2).*1 → node u) →
  sorted p l1 → (∀ q n, (q, n) ∈ l1 → q < b) → (∀ q n, (q, n) ∈ l2 → b < q) → p < b → 0 ≤ p →
  (length l1 ≤ fuel)%nat → Q (ad (lastn p l1)) s → wp (free_loop fuel (ad b) (ad p)) Q s.
Proof.
  revert fuel p. induction l1 as [|[q n] l1 IH]; intros fuel p Hl Hb Hp Hn Hs H1 H2 Hpb Hp0 Hf HQ.
  - destruct fuel as [|fuel]; cbn [free_loop];
      apply wp_bind, wp_gets; change (load64 (h_mem s) (ad p)) with (pv (h_mem s) p); cbn [links] in Hl; rewrite Hl;
      pose proof (proj2 (ad_lt p b Hp Hb) Hpb);
      (destruct l2 as [|[q n] l2]; cbn [first];
       [assert (ad 0 ≤ ad p) by (destruct (decide (p = 0)) as [->|]; [done|]; pose proof (proj2 (ad_lt 0 p ltac:(by left) Hp) ltac:(lia)); lia);
        destruct (Z.ltb_spec (ad p) (ad b)), (Z.ltb_spec (ad b) (ad 0)), (Z.leb_spec (ad 0) (ad p)); cbn [andb orb]; try lia; by apply wp_ret
       |assert (Hq : node q) by (apply Hn; cbn; by left);
        pose proof (proj2 (ad_lt b q Hb Hq) (H2 q n ltac:(by left)));
        destruct (Z.ltb_spec (ad p) (ad b)), (Z.ltb_spec (ad b) (ad q)); cbn [andb orb]; try lia; by apply wp_ret]).
  - destruct Hl as [Hpq Hl]. destruct Hs as (Hlt & Hn0 & Hs). cbn [length] in Hf. destruct fuel as [|fuel]; [lia|]. cbn [free_loop].
    apply wp_bind, wp_gets. change (load64 (h_mem s) (ad p)) with (pv (h_mem s) p). rewrite Hpq.
    assert (Hq : node q) by (apply Hn; cbn; by left). assert (Hqb : q < b) by (apply (H1 q n); by left).
    pose proof (proj2 (ad_lt p q Hp Hq) Hlt). pose proof (proj2 (ad_lt q b Hq Hb) Hqb).
    destruct (Z.ltb_spec (ad p) (ad b)), (Z.ltb_spec (ad b) (ad q)), (Z.leb_spec (ad q) (ad p)); cbn [andb orb]; try lia.
    apply IH; try done; [|eapply sorted_mono; [|exact Hs]; lia| |lia|lia].
    + intros u Hu. apply Hn. cbn. by right.
    + intros q' n' Hin. apply (H1 q' n'). by right.
Qed.

Lemma wp_free_down fuel l2 b s p (Q : Z → st → Prop) :
  links (pv (h_mem s)) p l2 0 → node b → node p → (∀ u, u ∈ l2.*1 → node u) → sorted p l2 → b < p → 0 < b →
  (length l2 < fuel)%nat → (∀ fuel', (fuel ≤ fuel' + S (length l2))%nat → wp (free_loop fuel' (ad b) (ad 0)) Q s) →
  wp (free_loop fuel (ad b) (ad p)) Q s.
Proof.
  revert fuel p. induction l2 as [|[q n] l2 IH]; intros fuel p Hl Hb Hp Hn Hs Hbp Hb0 Hf HQ; cbn [length] in Hf;
    (destruct fuel as [|fuel]; [lia|]); cbn [free_loop]; apply wp_bind, wp_gets;
    change (load64 (h_mem s) (ad p)) with (pv (h_mem s) p); pose proof (proj2 (ad_lt b p Hb Hp) Hbp).
  - cbn [links] in Hl. rewrite Hl. pose proof (proj2 (ad_lt 0 b ltac:(by left) Hb) Hb0).
    destruct (Z.ltb_spec (ad p) (ad b)), (Z.ltb_spec (ad b) (ad 0)), (Z.leb_spec (ad 0) (ad p)); cbn [andb orb]; try lia.
    apply HQ. cbn [length]. lia.
  - destruct Hl as [Hpq Hl]. destruct Hs as (Hlt & Hn0 & Hs). rewrite Hpq.
    assert (Hq : node q) by (apply Hn; cbn; by left). pose proof (proj2 (ad_lt p q Hp Hq) Hlt).
    destruct (Z.ltb_spec (ad p) (ad b)), (Z.leb_spec (ad q) (ad p)); cbn [andb orb]; try lia.
    apply IH; try done; [|eapply sorted_mono; [|exact Hs]; lia|lia|lia|].
    + intros u Hu. apply Hn. cbn. by right.
    + intros fuel' Hf'. apply HQ. cbn [length]. lia.
Qed.

Lemma wp_free_loop fuel s L A G l1 l2 b (Q : Z → st → Prop) :
  heap_ok s L A G → L = l1 ++ l2 → node b → 0 < b → (∀ q n, (q, n) ∈ l1 → q < b) → (∀ q n, (q, n) ∈ l2 → b < q) →
  (2 * length L < fuel)%nat → Q (ad (lastn 0 l1)) s → wp (free_loop fuel (ad b) (h_freep s)) Q s.
Proof.
  intros Hok -> Hb Hb0 H1 H2 Hf HQ. destruct (hk_freep _ _ _ _ Hok) as (p & -> & Hp).
  pose proof (hk_links _ _ _ _ Hok) as Hl. pose proof (hk_sorted _ _ _ _ Hok) as Hs.
  assert (Hn : ∀ u, u ∈ (l1 ++ l2).*1 → node u) by (intros u Hu; eapply ok_free_node; [done|by right]).
  apply links_app in Hl as [Hl1 Hl2]. apply sorted_app in Hs as [Hs1 Hs2]. rewrite length_app in Hf.
  assert (Hstart : ∀ fuel', (length l1 ≤ fuel')%nat → wp (free_loop fuel' (ad b) (ad 0)) Q s).
  { intros fuel' Hf'. apply (wp_free_up fuel' l1 l2); try done. by left. }
  apply elem_of_cons in Hp as [->|[n Hp]%elem_of_fst]; [apply Hstart; lia|]. apply elem_of_app in Hp as [Hp|Hp].
  - apply list_elem_of_split in Hp as (x & y & E). pose proof (H1 p n ltac:(rewrite E; set_solver)) as Hpb. rewrite E in Hl1, Hs1, HQ, H1, Hn, Hf.
    rewrite length_app in Hf. cbn [length] in Hf.
    apply links_app in Hl1 as [_ [_ Hl1]]. apply sorted_app in Hs1 as [_ (? & ? & Hs1)]. rewrite lastn_app in HQ.
    apply (wp_free_up fuel y l2); try done; [..|lia].
    + apply Hn. rewrite !fmap_app. set_solver.
    + intros u Hu. apply Hn. rewrite !fmap_app in *. set_solver.
    + eapply sorted_mono; [|exact Hs1]. lia.
    + intros q k Hin. apply (H1 q k). set_solver.
    + destruct (Hn p ltac:(rewrite !fmap_app; set_solver)); [lia|destruct Hbase; lia].
  - apply list_elem_of_split in Hp as (x & y & E). pose proof (H2 p n ltac:(rewrite E; set_solver)) as Hbp. rewrite E in Hl2, Hs2, Hn, Hf.
    rewrite length_app in Hf. cbn [length] in Hf.
    apply links_app in Hl2 as [_ [_ Hl2]]. apply sorted_app in Hs2 as [_ (? & ? & Hs2)].
    apply (wp_free_down fuel y); try done; [..|lia|].
    + apply Hn. rewrite !fmap_app. set_solver.
    + intros u Hu. apply Hn. rewrite !fmap_app. set_solver.
    + eapply sorted_mono; [|exact Hs2]. lia.
    + intros fuel' Hf'. apply Hstart. lia.
Qed.

(** ** The headers that an operation has written since [s0]
    [fp] and [fs] are the pointers and sizes now; only headers of the units of [T] have changed. *)
Definition view (s0 : st) (T : list Z) (s : st) (fp fs : Z → Z) : Prop :=
  (∀ u, node u → pv (h_mem s) u = fp u ∧ sv (h_mem s) u = fs u) ∧ hdrs_only T (h_mem s0) (h_mem s) ∧
  h_os s = h_os s0 ∧ h_freep s = h_freep s0.

Lemma view_refl s T : view s T s (pv (h_mem s)) (sv (h_mem s)).
Proof. split_and!; done. Qed.

Section view.
Context (s0 : st) (T : list Z) (s : st) (fp fs : Z → Z) (Hv : view s0 T s fp fs).

Lemma wp_ptr p (Q : Z → st → Prop) : node p → Q (fp p) s → wp (ptr (ad p)) Q s.
Proof. intros Hp HQ. apply wp_gets. change (load64 (h_mem s) (ad p)) with (pv (h_mem s) p). by rewrite (proj1 (proj1 Hv p Hp)). Qed.

Lemma wp_size p (Q : Z → st → Prop) : node p → Q (fs p) s → wp (size (ad p)) Q s.
Proof. intros Hp HQ. apply wp_gets. change (load32 (h_mem s) (ad p + 8)) with (sv (h_mem s) p). by rewrite (proj2 (proj1 Hv p Hp)). Qed.

Lemma wp_set_ptr p v (Q : unit → st → Prop) : node p → p ∈ T → 0 ≤ v < 2 ^ 64 →
  (∀ s', view s0 T s' (upd fp p v) fs → Q () s') → wp (set_ptr (ad p) v) Q s.
Proof.
  intros Hp HT Hr HQ. apply wp_modify, HQ. destruct Hv as (Hh & Ho & Hos & Hfr). split_and!; [|..|done|done].
  - intros u Hu. destruct (Hh u Hu) as [E1 E2]. cbn [h_mem set_hmem]. rewrite pv_set_ptr, sv_set_ptr by done. split; [|done].
    unfold upd. by destruct (u =? p).
  - eapply hdrs_trans; [exact Ho|]. cbn [h_mem set_hmem]. rewrite <- (Z.add_0_r (ad p)). by apply hdrs_store.
Qed.

Lemma wp_set_size p v (Q : unit → st → Prop) : node p → p ∈ T → 0 ≤ v < 2 ^ 32 →
  (∀ s', view s0 T s' fp (upd fs p v) → Q () s') → wp (set_size (ad p) v) Q s.
Proof.
  intros Hp HT Hr HQ. apply wp_modify, HQ. destruct Hv as (Hh & Ho & Hos & Hfr). split_and!; [|..|done|done].
  - intros u Hu. destruct (Hh u Hu) as [E1 E2]. cbn [h_mem set_hmem]. rewrite pv_set_size, sv_set_size by done. split; [done|].
    unfold upd. by destruct (u =? p).
  - eapply hdrs_trans; [exact Ho|]. cbn [h_mem set_hmem]. by apply hdrs_store.
Qed.
End view.

(** Writing to headers outside the blocks of [A] keeps them. *)
Lemma hdrs_keeps T A s s' : hdrs_only T (h_mem s) (h_mem s') → (∀ u, u ∈ units A → lo ≤ u) →
  (∀ u, u ∈ T → u = 0 ∨ (lo ≤ u ∧ u ∉ units A)) → keeps A s s'.
Proof.
  intros Ho HA HT a n x Hin Hx. apply Ho. intros u Hu.
  assert (Hxu : x / 16 ∈ units A) by (apply elem_of_units; exists a, n; split; [done|zdm]).
  pose proof (HA _ Hxu). destruct (HT u Hu) as [->|[Hlo Hn]].
  - unfold ad. cbn. destruct Hbase. zdm.
  - assert (u ≠ x / 16) by (intros ->; done). unfold ad. destruct (Z.eqb_spec u 0); [destruct Hbase|]; zdm.
Qed.

(** ** free() *)
Lemma hdr_add_ad b n : 0 < b → 0 ≤ n → b + n < 2 ^ 32 → hdr_add (ad b) n = 16 * (b + n).
Proof.
  intros. unfold hdr_add, ad, sizeof_Header. destruct (Z.eqb_spec b 0); [lia|]. rewrite u64_small; lia.
Qed.

Section free.
Context (s : st) (L A1 A2 l1 l2 : list blk) (G : list Z) (b n : Z).
Hypothesis Hok : heap_ok s L (A1 ++ (b, n) :: A2) G.
Hypothesis HL : L = l1 ++ l2.
Hypothesis H1 : ∀ q k, (q, k) ∈ l1 → q < b.
Hypothesis H2 : ∀ q k, (q, k) ∈ l2 → b < q.
Let p := lastn 0 l1.
Let T := [p; b].
Abbreviation pv0 := (pv (h_mem s)).
Abbreviation sv0 := (sv (h_mem s)).

Lemma free_node : node b ∧ 0 < b ∧ 0 < n ∧ b + n ≤ 2 ^ 27 ∧ sv0 b = n.
Proof. apply (ok_block _ _ _ _ Hok). set_solver. Qed.

Lemma free_above q k : (q, k) ∈ l2 → b + n ≤ q ∧ node q ∧ 0 < k ∧ q + k ≤ 2 ^ 27 ∧ sv0 q = k.
Proof.
  intros Hin. assert (HinL : (q, k) ∈ L) by (rewrite HL; set_solver).
  destruct (ok_block _ _ _ _ Hok q k ltac:(set_solver)) as (? & ? & ? & ? & ?).
  pose proof (ok_apart _ _ _ _ Hok q k b n q HinL ltac:(set_solver)). specialize (H2 q k Hin).
  split_and!; try done; lia.
Qed.

Lemma free_prev : node p ∧ p < b ∧ ((l1 = [] ∧ p = 0) ∨ ∃ l k, l1 = l ++ [(p, k)] ∧ 0 < p ∧ sv0 p = k ∧ 0 < k ∧ p + k ≤ b).
Proof.
  destruct free_node as (Hb & Hb0 & Hn & Hbn & _). destruct (lastn_in 0 l1) as [[E E']|(l & k & E)].
  { unfold p. rewrite E'. split_and!; [by left|lia|by left]. }
  fold p in E. assert (HinL : (p, k) ∈ L) by (rewrite HL, E; set_solver).
  assert (Hin' : (p, k) ∈ L ++ A1 ++ (b, n) :: A2) by set_solver.
  destruct (ok_node _ _ _ _ Hok _ _ Hin'). destruct (hk_sizes _ _ _ _ Hok _ _ Hin').
  pose proof (ok_apart _ _ _ _ Hok p k b n b HinL ltac:(set_solver)). specialize (H1 p k ltac:(rewrite E; set_solver)).
  split_and!; [done|done|right]. exists l, k. split_and!; try done; lia.
Qed.

Lemma free_next : pv0 p = ad (first l2 0) ∧ rest pv0 l2 0.
Proof. pose proof (hk_links _ _ _ _ Hok) as Hl. rewrite HL in Hl. apply links_app in Hl as [_ Hl]. by apply links_first in Hl. Qed.

(** The join with the block above *)
Lemma wp_right (Q : unit → st → Prop) :
  (∀ s' n' r, join_right b n l2 n' r → view s T s' (upd pv0 b (ad (first r 0))) (upd sv0 b n') → Q () s') →
  wp (n ← size (ad b); q ← ptr (ad p);
      if hdr_add (ad b) n =? q then
        n ← size (ad b); qn ← size q; set_size (ad b) (u32 (n + qn));; qq ← ptr q; set_ptr (ad b) qq
      else set_ptr (ad b) q) Q s.
Proof.
  intros HQ. destruct free_node as (Hb & Hb0 & Hn & Hbn & Hsb). destruct free_prev as (Hp & Hpb & _).
  destruct free_next as [Hnext Hrest]. pose proof free_above as Habove. pose proof (view_refl s T) as Hv.
  apply wp_bind, (wp_size _ _ _ _ _ Hv); [done|]. apply wp_bind, (wp_ptr _ _ _ _ _ Hv); [done|].
  rewrite Hsb, hdr_add_ad, Hnext by lia. assert (HbT : b ∈ T) by set_solver.
  assert (Hid : upd sv0 b n = sv0) by (rewrite <- Hsb; apply upd_id).
  destruct l2 as [|[q k] l2'].
  - cbn [first]. destruct (Z.eqb_spec (16 * (b + n)) (ad 0)) as [E|_].
    { exfalso. destruct (ad_node 0 ltac:(by left)) as (_ & E0 & _). rewrite (E0 eq_refl) in E. destruct Hb; destruct Hbase; lia. }
    destruct (ad_node 0 ltac:(by left)) as (? & _ & _).
    apply (wp_set_ptr _ _ _ _ _ Hv); [done|done|lia|]. intros s' Hs'. apply (HQ s' n []); [left; split_and!; done|].
    by rewrite Hid.
  - destruct (Habove q k ltac:(by left)) as (Hbq & Hq & Hk & Hqk & Hsq). cbn [first rest] in Hrest |- *.
    destruct (ad_node q Hq) as (? & _ & Eq). destruct (Eq ltac:(lia)) as [Eq' _]. destruct (Z.eqb_spec (16 * (b + n)) (ad q)) as [E|E].
    + apply wp_bind, (wp_size _ _ _ _ _ Hv); [done|]. apply wp_bind, (wp_size _ _ _ _ _ Hv); [done|].
      rewrite Hsb, Hsq, u32_small by lia. apply wp_bind, (wp_set_size _ _ _ _ _ Hv); [done|done|lia|]. intros s1 Hs1.
      apply wp_bind, (wp_ptr _ _ _ _ _ Hs1); [done|]. apply links_first in Hrest as [Eqq _]. rewrite Eqq.
      assert (Hf : node (first l2' 0)).
      { destruct l2' as [|[q' k'] l2'']; [by left|]. cbn. apply (Habove q' k'). set_solver. }
      destruct (ad_node _ Hf) as (? & _). apply (wp_set_ptr _ _ _ _ _ Hs1); [done|done|lia|]. intros s2 Hs2.
      apply (HQ s2 (n + k) l2'); [|done]. right. exists k. split; [|done]. do 2 f_equal. lia.
    + apply (wp_set_ptr _ _ _ _ _ Hv); [done|done|lia|]. intros s' Hs'. apply (HQ s' n ((q, k) :: l2')); [left; split_and!; [done|done|]|].
      * intros q0 k0 l0 [= <- <- <-]. lia.
      * by rewrite Hid.
Qed.

Lemma free_other a k : (a, k) ∈ A1 ++ A2 → a ≠ b ∧ a ≠ p ∧ (∀ q j, (q, j) ∈ L → a ≠ q) ∧ node a ∧ sv0 a = k ∧ 0 < k.
Proof.
  intros Hin. assert (HA : (a, k) ∈ A1 ++ (b, n) :: A2) by set_solver. assert (Hin' : (a, k) ∈ L ++ A1 ++ (b, n) :: A2) by set_solver.
  destruct (ok_node _ _ _ _ Hok _ _ Hin'). destruct (hk_sizes _ _ _ _ Hok _ _ Hin').
  destruct free_node as (Hb & Hb0 & Hn & _).
  assert (Hq : ∀ q j, (q, j) ∈ L → a ≠ q).
  { intros q j Hj ->. destruct (hk_sizes _ _ _ _ Hok q j ltac:(set_solver)).
    apply (ok_apart _ _ _ _ Hok q j q k q Hj HA). lia. }
  split_and!; try done.
  - intros ->. pose proof (hk_nodup _ _ _ _ Hok) as Hnd. rewrite <- (hk_units _ _ _ _ Hok), units_app in Hnd.
    apply NoDup_app in Hnd as (_ & _ & Hnd). rewrite units_app, units_cons, Permutation_app_swap_app, <- units_app in Hnd.
    apply NoDup_app in Hnd as (_ & Hd & _). apply (Hd b); [apply elem_of_seqZ; lia|]. apply elem_of_units. exists b, k. split; [done|lia].
  - destruct free_prev as (_ & _ & [[_ ->]|(l & j & El & _)]); [lia|]. apply (Hq p j). rewrite HL, El. set_solver.
Qed.

(** The heap after the joins *)
Lemma free_ok n' r L' s' : join_right b n l2 n' r → join_left l1 b n' r L' → links (pv (h_mem s')) 0 L' 0 →
  (∀ q k, (q, k) ∈ L' ++ A1 ++ A2 → sv (h_mem s') q = k) → sv (h_mem s') 0 = 0 → p ∈ 0 :: L'.*1 → h_os s' = h_os s →
  heap_ok (mkHeap (h_mem s') (ad p) (h_os s')) L' (A1 ++ A2) G.
Proof.
  intros Hr Hl Hlinks Hsz Hz Hp Hos. destruct free_node as (Hb & Hb0 & Hn & _).
  assert (Hpos : ∀ q k, (q, k) ∈ l1 ++ l2 → 0 < k).
  { intros q k Hin. rewrite <- HL in Hin. by destruct (hk_sizes _ _ _ _ Hok q k ltac:(set_solver)). }
  assert (Hs : sorted 0 L').
  { eapply joined_sorted; [done|done|rewrite <- HL; apply (hk_sorted _ _ _ _ Hok)|done|done| |].
    - destruct free_prev as (_ & _ & [[El _]|(l & j & El & _ & _ & _ & Hle)]); rewrite El; [cbn; lia|]. rewrite top_app. lia.
    - intros q k Hin. by destruct (free_above q k Hin). }
  split; cbn; try done.
  - intros q k Hin. split; [by apply Hsz|]. apply elem_of_app in Hin as [Hin|Hin]; [by eapply sorted_pos|].
    by destruct (free_other q k Hin) as (_ & _ & _ & _ & _ & ?).
  - by exists p.
  - rewrite <- (hk_units _ _ _ _ Hok), !(units_app _ (_ ++ _)), (joined_units _ _ _ _ _ _ _ Hr Hl Hn Hpos), <- HL, (units_app A1 (_ :: _)), units_cons, (units_app A1 A2).
    solve_Permutation.
  - apply (hk_nodup _ _ _ _ Hok).
  - rewrite Hos. apply (hk_range _ _ _ _ Hok).
  - rewrite Hos. apply (hk_os _ _ _ _ Hok).
Qed.

Lemma free_above_r n' r q k : join_right b n l2 n' r → (q, k) ∈ r → (q, k) ∈ l2.
Proof. intros [(-> & _)|(k' & -> & _)]; [done|by right]. Qed.

Lemma free_below q k : (q, k) ∈ l1 → q < b ∧ node q ∧ sv0 q = k ∧ (q, k) ∈ L.
Proof.
  intros Hin. assert (HinL : (q, k) ∈ L) by (rewrite HL; set_solver).
  destruct (hk_sizes _ _ _ _ Hok q k ltac:(set_solver)). destruct (ok_node _ _ _ _ Hok q k ltac:(set_solver)). split_and!; try done. by apply (H1 q k).
Qed.

(** No join: the block is linked after [p]. *)
Lemma free_apart n' r s2 : join_right b n l2 n' r → (∀ l p k, l1 = l ++ [(p, k)] → p + k ≠ b) →
  view s T s2 (upd (upd pv0 b (ad (first r 0))) p (ad b)) (upd sv0 b n') →
  heap_ok (mkHeap (h_mem s2) (ad p) (h_os s2)) (l1 ++ (b, n') :: r) (A1 ++ A2) G.
Proof.
  intros Hr Hne (Hh & Ho & Hos & Hfr). destruct free_node as (Hb & Hb0 & Hn & _).
  assert (Hrl : r = l2 ∨ ∃ q k, l2 = (q, k) :: r) by (destruct Hr as [(-> & _)|(k & -> & _)]; eauto).
  eapply free_ok; [done|by left| | | | |done].
  - pose proof (hk_links _ _ _ _ Hok) as Hl. pose proof (hk_sorted _ _ _ _ Hok) as Hs. rewrite HL in Hl, Hs.
    eapply (links_insert pv0 _ l1 l2 r b Hl Hs H1 H2 Hb0 Hrl). intros u Hu. refine (proj1 (Hh u _)).
    destruct Hu as [->|[[k Hk]%elem_of_fst|[[k Hk]%elem_of_fst| -> ]]]; [by left|by destruct (free_below u k Hk) as (_ & ? & _)| |done].
    by destruct (free_above u k (free_above_r _ _ _ _ Hr Hk)) as (_ & ? & _).
  - intros q k [[Hin|[[= -> ->]|Hin]%elem_of_cons]%elem_of_app|Hin]%elem_of_app.
    + destruct (free_below q k Hin) as (? & Hq & ? & _). rewrite (proj2 (Hh q Hq)), upd_ne by lia. done.
    + rewrite (proj2 (Hh b Hb)). apply upd_eq.
    + destruct (free_above q k (free_above_r _ _ _ _ Hr Hin)) as (? & Hq & ? & _ & ?). rewrite (proj2 (Hh q Hq)), upd_ne by lia. done.
    + destruct (free_other q k Hin) as (? & _ & _ & Hq & ? & _). rewrite (proj2 (Hh q Hq)), upd_ne by lia. done.
  - rewrite (proj2 (Hh 0 ltac:(by left))), upd_ne by lia. apply (hk_base _ _ _ _ Hok).
  - unfold p. pose proof (lastn_elem 0 l1) as Hin. rewrite fmap_app. set_solver.
Qed.

(** A join: the block below grows. *)
Lemma free_joined n' r l k s2 : join_right b n l2 n' r → l1 = l ++ [(p, k)] → p + k = b → 0 < p →
  view s T s2 (upd (upd pv0 b (ad (first r 0))) p (ad (first r 0))) (upd (upd sv0 b n') p (k + n')) →
  heap_ok (mkHeap (h_mem s2) (ad p) (h_os s2)) (l ++ (p, k + n') :: r) (A1 ++ A2) G.
Proof.
  intros Hr El Hpk Hp0 (Hh & Ho & Hos & Hfr). destruct free_node as (Hb & Hb0 & Hn & _). destruct free_prev as (Hp & Hpb & _).
  assert (Hrl : r = l2 ∨ ∃ q k, l2 = (q, k) :: r) by (destruct Hr as [(-> & _)|(k' & -> & _)]; eauto).
  pose proof (hk_links _ _ _ _ Hok) as Hl. pose proof (hk_sorted _ _ _ _ Hok) as Hs. rewrite HL in Hl, Hs.
  assert (Hlow : ∀ q j, (q, j) ∈ l → q < p ∧ node q ∧ sv0 q = j).
  { intros q j Hin. destruct (free_below q j ltac:(rewrite El; set_solver)) as (_ & ? & ? & _). split_and!; try done.
    pose proof Hs as Hs'. rewrite El, <- app_assoc in Hs'. apply sorted_app in Hs' as [Hs1 (? & _)].
    pose proof (top_in _ _ _ _ Hs1 Hin). destruct (sorted_pos _ _ _ _ Hs1 Hin). lia. }
  eapply free_ok; [done|right; by exists l, p, k| | | | |done].
  - eapply (links_absorb pv0 _ l1 l2 r b Hl Hs H1 H2 Hb0 Hrl); [exact El| |].
    + intros u Hu Hup Hub. assert (Hnu : node u).
      { destruct Hu as [->|[[j Hk]%elem_of_fst|[j Hk]%elem_of_fst]]; [by left|by destruct (free_below u j Hk) as (_ & ? & _)|].
        by destruct (free_above u j (free_above_r _ _ _ _ Hr Hk)) as (_ & ? & _). }
      rewrite (proj1 (Hh u Hnu)), !upd_ne; done.
    + fold p. rewrite (proj1 (Hh p Hp)). apply upd_eq.
  - intros q j [[Hin|[[= -> ->]|Hin]%elem_of_cons]%elem_of_app|Hin]%elem_of_app.
    + destruct (Hlow q j Hin) as (? & Hq & ?). rewrite (proj2 (Hh q Hq)), !upd_ne by lia. done.
    + rewrite (proj2 (Hh p Hp)). apply upd_eq.
    + destruct (free_above q j (free_above_r _ _ _ _ Hr Hin)) as (? & Hq & ? & _ & ?). rewrite (proj2 (Hh q Hq)), !upd_ne by lia. done.
    + destruct (free_other q j Hin) as (? & ? & _ & Hq & ? & _). rewrite (proj2 (Hh q Hq)), !upd_ne by lia. done.
  - rewrite (proj2 (Hh 0 ltac:(by left))), !upd_ne by lia. apply (hk_base _ _ _ _ Hok).
  - rewrite fmap_app. set_solver.
Qed.

Lemma free_first n' r : join_right b n l2 n' r → 0 < n' ∧ b + n' ≤ 2 ^ 27 ∧ node (first r 0).
Proof.
  intros Hr. destruct free_node as (Hb & Hb0 & Hn & Hbn & _). split; [|split].
  - destruct Hr as [(_ & -> & _)|(k & E & ->)]; [done|]. destruct (free_above (b + n) k) as (_ & _ & ? & _); [rewrite E; by left|lia].
  - destruct Hr as [(_ & -> & _)|(k & E & ->)]; [done|]. destruct (free_above (b + n) k) as (_ & _ & _ & ? & _); [rewrite E; by left|lia].
  - destruct r as [|[q k] r']; [by left|]. by destruct (free_above q k (free_above_r _ _ q k Hr ltac:(by left))) as (_ & ? & _).
Qed.

(** The join with the block below *)
Lemma wp_left n' r s1 (Q : unit → st → Prop) :
  join_right b n l2 n' r → view s T s1 (upd pv0 b (ad (first r 0))) (upd sv0 b n') →
  (∀ s' L', join_left l1 b n' r L' → heap_ok (mkHeap (h_mem s') (ad p) (h_os s')) L' (A1 ++ A2) G →
     hdrs_only T (h_mem s) (h_mem s') → h_os s' = h_os s → Q () s') →
  wp (pn ← size (ad p);
      if hdr_add (ad p) pn =? ad b then
        n ← size (ad b); set_size (ad p) (u32 (pn + n));; bq ← ptr (ad b); set_ptr (ad p) bq
      else set_ptr (ad p) (ad b)) Q s1.
Proof.
  intros Hr Hv HQ. destruct free_node as (Hb & Hb0 & Hn & Hbn & _). destruct free_prev as (Hp & Hpb & Hcase).
  assert (HpT : p ∈ T) by set_solver. destruct (ad_node b Hb) as (Hadb & _ & Eb). destruct (Eb ltac:(lia)) as [Eb' _].
  apply wp_bind, (wp_size _ _ _ _ _ Hv); [done|]. rewrite upd_ne by lia.
  destruct (free_first n' r Hr) as (Hn' & Hbn' & Hf). destruct (ad_node _ Hf) as (Hadf & _).
  destruct Hcase as [[El Ep]|(l & k & El & Hp0 & Hsp & Hk & Hpk)].
  - assert (Hne : hdr_add (ad p) (sv0 p) ≠ ad b).
    { rewrite Ep, (hk_base _ _ _ _ Hok). unfold hdr_add. rewrite Z.mul_0_l, Z.add_0_r. destruct (ad_node 0 ltac:(by left)) as (? & _).
      rewrite u64_small by lia. intros E. apply ad_inj in E; [lia|by left|done]. }
    apply Z.eqb_neq in Hne. rewrite Hne. apply (wp_set_ptr _ _ _ _ _ Hv); [done|done|lia|]. intros s2 Hs2.
    assert (Hno : ∀ l p k, l1 = l ++ [(p, k)] → p + k ≠ b) by (intros l q k E; rewrite El in E; by destruct l).
    eapply HQ; [by left|by apply free_apart|by apply Hs2|by apply Hs2].
  - assert (Hcmp : (hdr_add (ad p) k =? ad b) = (p + k =? b)).
    { rewrite hdr_add_ad, Eb' by lia. destruct (Z.eqb_spec (16 * (p + k)) (16 * b)), (Z.eqb_spec (p + k) b); lia. }
    rewrite Hsp, Hcmp. destruct (Z.eqb_spec (p + k) b) as [E|E].
    + apply wp_bind, (wp_size _ _ _ _ _ Hv); [done|]. rewrite upd_eq, u32_small by lia.
      apply wp_bind, (wp_set_size _ _ _ _ _ Hv); [done|done|lia|]. intros s2 Hs2.
      apply wp_bind, (wp_ptr _ _ _ _ _ Hs2); [done|]. rewrite upd_eq.
      apply (wp_set_ptr _ _ _ _ _ Hs2); [done|done|lia|]. intros s3 Hs3.
      eapply (HQ s3 (l ++ (p, k + n') :: r)); [right; exists l, p, k; split_and!; [done|lia|done]| |by apply Hs3|by apply Hs3].
      by apply free_joined.
    + apply (wp_set_ptr _ _ _ _ _ Hv); [done|done|lia|]. intros s2 Hs2.
      assert (Hno : ∀ l p k, l1 = l ++ [(p, k)] → p + k ≠ b).
      { intros l' q k' E'. rewrite El in E'. apply app_inj_tail in E' as [_ [= <- <-]]. lia. }
      eapply HQ; [by left|by apply free_apart|by apply Hs2|by apply Hs2].
Qed.
End free.

(** free() of an allocated block: the block is free, all other allocated blocks are as they were. *)
Lemma wp_free fuel s L A1 A2 G b n (Q : unit → st → Prop) :
  heap_ok s L (A1 ++ (b, n) :: A2) G → (2 * length L < fuel)%nat →
  (∀ s' L', heap_ok s' L' (A1 ++ A2) G → (length L' ≤ S (length L))%nat → keeps (A1 ++ A2) s s' → h_os s' = h_os s →
     (∃ q k, (q, k) ∈ L' ∧ n ≤ k) → Q () s') →
  wp (free fuel (16 * (b + 1))) Q s.
Proof.
  intros Hok Hfuel HQ. destruct (ok_block _ _ _ _ Hok b n ltac:(set_solver)) as (Hb & Hb0 & Hn & Hbn & Hsb).
  assert (Hout : b ∉ units L).
  { intros (q & k & Hin & Hu)%elem_of_units. apply (ok_apart _ _ _ _ Hok q k b n b Hin ltac:(set_solver)). lia. }
  destruct (sorted_split 0 L b (hk_sorted _ _ _ _ Hok) Hb0 Hout) as (l1 & l2 & HL & _ & H1 & H2).
  unfold free. replace (u64 (16 * (b + 1) - sizeof_Header)) with (ad b).
  2: { unfold ad, sizeof_Header. destruct (Z.eqb_spec b 0); [lia|]. rewrite u64_small; lia. }
  apply wp_bind, wp_gets, wp_bind. eapply wp_free_loop; try done.
  apply (wp_bind2 _ (ptr _)). eapply (wp_right s L A1 A2 l1 l2 G b n Hok HL H1 H2). intros s1 n' r Hr Hv.
  apply (wp_bind1 _). eapply (wp_left s L A1 A2 l1 l2 G b n Hok HL H1 H2 n' r s1 _ Hr Hv). intros s2 L' Hl Hok' Ho Hos.
  apply wp_modify. eapply HQ; [exact Hok'| | |exact Hos|].
  - rewrite HL, length_app. destruct Hr as [(-> & _)|(k & -> & _)], Hl as [[-> _]|(l & p & k' & -> & _ & ->)];
      rewrite ?length_app; cbn [length]; lia.
  - apply (hdrs_keeps [lastn 0 l1; b]); [done|..].
    + intros u Hu. apply (hk_range _ _ _ _ Hok'). rewrite <- (hk_units _ _ _ _ Hok'), units_app. set_solver.
    + intros u Hu. destruct (decide (u = 0)) as [|Hu0]; [by left|right]. apply (ok_free_unit _ _ _ _ Hok').
      assert (Hperm : units L' ≡ₚ seqZ b n ++ units L).
      { apply (Permutation_app_inv_r (units (A1 ++ A2))). rewrite <- units_app, (hk_units _ _ _ _ Hok').
        rewrite <- (hk_units _ _ _ _ Hok), !units_app, units_cons. solve_Permutation. }
      rewrite Hperm, elem_of_app, elem_of_seqZ. apply elem_of_cons in Hu as [->| ->%list_elem_of_singleton]; [right|left; lia].
      pose proof (lastn_elem 0 l1) as [?|[k Hk]%elem_of_fst]%elem_of_cons; [done|]. apply elem_of_units. exists (lastn 0 l1), k.
      split; [rewrite HL; set_solver|]. destruct (hk_sizes _ _ _ _ Hok (lastn 0 l1) k ltac:(rewrite HL; set_solver)). lia.
  - assert (Hn' : n ≤ n').
    { destruct Hr as [(_ & -> & _)|(k & E & ->)]; [lia|]. destruct (hk_sizes _ _ _ _ Hok (b + n) k ltac:(rewrite HL, E; set_solver)). lia. }
    destruct Hl as [[-> _]|(l & p & k & E & _ & ->)]; [exists b, n'|exists p, (k + n')]; (split; [set_solver|]); [done|].
    destruct (hk_sizes _ _ _ _ Hok p k ltac:(rewrite HL, E; set_solver)). lia.
Qed.

(** ** morecore() *)
Lemma keeps_trans A s1 s2 s3 : keeps A s1 s2 → keeps A s2 s3 → keeps A s1 s3.
Proof. intros H12 H23 a n x Hin Hx. by rewrite (H23 a n x), (H12 a n x). Qed.

(** The units of a heap are below the break. *)
Lemma ok_mem s L A G m' o' : heap_ok s L A G → (∀ x, x < os_brk (h_os s) → m' x = h_mem s x) →
  os_inv o' → os_brk (h_os s) ≤ os_brk o' < 2 ^ 31 → os_brk o' mod 16 = 0 →
  heap_ok (mkHeap m' (h_freep s) o') L A G ∧ keeps A s (mkHeap m' (h_freep s) o').
Proof.
  intros Hok Hm Ho Hbrk Hmod. destruct (hk_os _ _ _ _ Hok) as (_ & Hlo & _).
  assert (Hsame : ∀ u, u = 0 ∨ (∃ n, (u, n) ∈ L ++ A) → pv m' u = pv (h_mem s) u ∧ sv m' u = sv (h_mem s) u).
  { intros u Hu. assert (Hlt : ad u + 16 ≤ os_brk (h_os s)).
    { destruct Hu as [->|[n Hin]]; [unfold ad; cbn; destruct Hbase; lia|]. destruct (ok_block _ _ _ _ Hok u n Hin) as (? & ? & ? & _).
      destruct (ok_unit _ _ _ _ Hok u n u Hin ltac:(lia)). unfold ad. destruct (Z.eqb_spec u 0); lia. }
    split; apply load_ext; intros x Hx; apply Hm; lia. }
  split; [split; cbn [h_mem h_freep h_os]; try apply Hok|].
  - eapply links_ext; [|apply (hk_links _ _ _ _ Hok)]. intros u Hu. symmetry. apply Hsame.
    destruct Hu as [->|[n Hin]%elem_of_fst]; [by left|right; exists n; set_solver].
  - rewrite (proj2 (Hsame 0 ltac:(by left))). apply (hk_base _ _ _ _ Hok).
  - intros q n Hin. rewrite (proj2 (Hsame q ltac:(by right; exists n))). by apply (hk_sizes _ _ _ _ Hok).
  - intros u Hu. destruct (hk_range _ _ _ _ Hok u Hu). lia.
  - split_and!; [done|lia..].
  - intros a n x Hin Hx. cbn. apply Hm. destruct (ok_unit _ _ _ _ Hok a n (x / 16) ltac:(set_solver) ltac:(zdm)). zdm.
Qed.

(** A block that is new in the heap, as allocated *)
Lemma ok_new s s' L A G b n : heap_ok s L A G → lo ≤ b → 0 < n → 16 * (b + n) ≤ os_brk (h_os s) → (∀ u, b ≤ u < b + n → u ∉ G) →
  view s [b] s' (pv (h_mem s)) (upd (sv (h_mem s)) b n) → heap_ok s' L ((b, n) :: A) (seqZ b n ++ G) ∧ keeps A s s'.
Proof.
  intros Hok Hb Hn Hbrk Hnew (Hh & Ho & Hos & Hfr). destruct (hk_os _ _ _ _ Hok) as (_ & Hlo & _).
  assert (Hnode : node b) by (right; lia). assert (HbG : b ∉ G) by (apply Hnew; lia).
  assert (Hout : ∀ q k, (q, k) ∈ L ++ A → q ≠ b ∧ node q).
  { intros q k Hin. destruct (ok_block _ _ _ _ Hok q k Hin) as (? & _ & ? & _). split; [|done]. intros ->. apply HbG.
    rewrite <- (hk_units _ _ _ _ Hok). apply elem_of_units. exists b, k. split; [done|lia]. }
  split; [split; rewrite ?Hos, ?Hfr; try apply Hok|].
  - eapply links_ext; [|apply (hk_links _ _ _ _ Hok)]. intros u Hu. symmetry. refine (proj1 (Hh u _)).
    apply (ok_free_node _ _ _ _ Hok). set_solver.
  - rewrite (proj2 (Hh 0 ltac:(by left))), upd_ne by (destruct Hbase; lia). apply (hk_base _ _ _ _ Hok).
  - intros q k Hin. assert (Hin' : (q, k) = (b, n) ∨ (q, k) ∈ L ++ A) by set_solver. destruct Hin' as [[= -> ->]|Hin'].
    + rewrite (proj2 (Hh b Hnode)), upd_eq. done.
    + destruct (Hout q k Hin'). rewrite (proj2 (Hh q ltac:(done))), upd_ne by done. by apply (hk_sizes _ _ _ _ Hok).
  - rewrite <- (hk_units _ _ _ _ Hok), !units_app, units_cons. solve_Permutation.
  - apply NoDup_app. split_and!; [apply NoDup_seqZ| |apply Hok]. intros u Hu%elem_of_seqZ. by apply Hnew.
  - intros u [Hu%elem_of_seqZ|Hu]%elem_of_app; [lia|by apply (hk_range _ _ _ _ Hok)].
  - apply (hdrs_keeps [b]); [done|..].
    + intros u Hu. apply (hk_range _ _ _ _ Hok). rewrite <- (hk_units _ _ _ _ Hok), units_app. set_solver.
    + intros u ->%list_elem_of_singleton. right. split; [done|]. intros Hu. apply HbG. rewrite <- (hk_units _ _ _ _ Hok), units_app. set_solver.
Qed.

(** The break has moved by the units of [G']. *)
Definition grown (s s' : st) (G' : list Z) : Prop := os_brk (h_os s') = os_brk (h_os s) + 16 * Z.of_nat (length G').

Lemma grown_os s s' : h_os s' = h_os s → grown s s' [].
Proof. unfold grown. intros ->. cbn. lia. Qed.

(** sbrk() has been asked for the memory of a request and has refused, with the break at most [lim]. *)
Definition refused (lim nu : Z) : Prop :=
  ∃ m o m' o', os_inv o ∧ os_brk o ≤ lim ∧ sbrk (16 * Z.max nu 4096) (m, o) = Ret (2 ^ 64 - 1) (m', o').

Lemma wp_morecore fuel s L A G nu (Q : Z → st → Prop) :
  heap_ok s L A G → (2 * length L < fuel)%nat → 0 < nu < 2 ^ 27 →
  (∀ s', heap_ok s' L A G → keeps A s s' → grown s s' [] → refused (os_brk (h_os s)) nu → Q 0 s') →
  (∀ s' L' G', heap_ok s' L' A (G' ++ G) → (length L' ≤ S (length L))%nat → keeps A s s' → grown s s' G' →
     (∃ q k, (q, k) ∈ L' ∧ nu ≤ k) → Q (h_freep s') s') →
  wp (morecore fuel nu) Q s.
Proof.
  intros Hok Hfuel Hnu Hfail HQ. unfold morecore. set (n := if nu <? 4096 then 4096 else nu).
  assert (Hn : nu ≤ n ∧ 0 < n < 2 ^ 27 ∧ n * 16 = 16 * Z.max nu 4096) by (unfold n; destruct (Z.ltb_spec nu 4096); lia). clearbody n. destruct Hn as (Hn1 & Hn2 & En).
  destruct (hk_os _ _ _ _ Hok) as (Hinv & Hbrk & Hmod). unfold sizeof_Header. rewrite s32_small by lia.
  destruct (os_sbrk (n * 16) (h_mem s) (h_os s) Hinv ltac:(lia)) as (r & m' & o' & E & Hinv' & Hm & Hr).
  apply wp_bind. unfold on_os. apply wp_zoom. eapply wp_intro; [exact E|]. cbv beta iota.
  destruct Hr as [[-> Hb]|(-> & Hb & Hb')].
  - rewrite Z.eqb_refl. apply wp_ret. destruct (ok_mem s L A G m' o' Hok Hm Hinv' ltac:(lia) ltac:(by rewrite Hb)).
    apply Hfail; [done|done|unfold grown; cbn; lia|]. rewrite En in E. exists (h_mem s), (h_os s), m', o'. by split_and!.
  - destruct (Z.eqb_spec (os_brk (h_os s)) (2 ^ 64 - 1)); [lia|]. set (b := os_brk (h_os s) / 16). assert (Eb : os_brk (h_os s) = 16 * b) by (unfold b; zdm).
    destruct (ok_mem s L A G m' o' Hok Hm Hinv' ltac:(lia) ltac:(rewrite Hb, Z.mod_add; done)) as [Hok1 Hk1].
    set (s1 := mkHeap m' (h_freep s) o') in *. assert (Had : os_brk (h_os s) = ad b) by (unfold ad; destruct (Z.eqb_spec b 0); [destruct Hbase|]; lia).
    rewrite Had. apply wp_bind, (wp_set_size s1 [b] s1 _ _ (view_refl s1 [b])); [right; lia|by left|lia|]. intros s2 Hv2.
    assert (Hfresh : ∀ u, b ≤ u < b + n → u ∉ G) by (intros u Hu Hin; destruct (hk_range _ _ _ _ Hok u Hin); lia).
    destruct (ok_new s1 s2 L A G b n Hok1 ltac:(lia) ltac:(lia) ltac:(cbn; lia) Hfresh Hv2) as [Hok2 Hk2].
    rewrite hdr_add_ad by (destruct Hbase; lia).
    apply wp_bind. eapply (wp_free fuel s2 L [] A); [exact Hok2|done|]. intros s3 L' Hok3 Hlen Hk3 Hos3 (q & k & Hin & Hk).
    apply wp_gets. eapply (HQ s3 L' (seqZ b n)); [done|done| | |exists q, k; split; [done|lia]].
    + eapply keeps_trans; [exact Hk1|]. by eapply keeps_trans.
    + unfold grown. rewrite Hos3, length_seqZ. destruct Hv2 as (_ & _ & -> & _). cbn. lia.
Qed.

(** ** malloc() *)
Section take.
Context (s : st) (L A l1 l2 : list blk) (G : list Z) (b n nu : Z).
Hypothesis Hok : heap_ok s L A G.
Hypothesis HL : L = l1 ++ (b, n) :: l2.
Hypothesis Hnu : 0 < nu.
Let p := lastn 0 l1.
Abbreviation pv0 := (pv (h_mem s)).
Abbreviation sv0 := (sv (h_mem s)).

Lemma take_block : node b ∧ 0 < b ∧ 0 < n ∧ b + n ≤ 2 ^ 27 ∧ sv0 b = n.
Proof. apply (ok_block _ _ _ _ Hok). rewrite HL. set_solver. Qed.

Lemma take_order : sorted 0 l1 ∧ top 0 l1 < b ∧ sorted (b + n) l2.
Proof. pose proof (hk_sorted _ _ _ _ Hok) as Hs. rewrite HL in Hs. apply sorted_app in Hs as [? (? & _ & ?)]. done. Qed.

Lemma take_prev : node p ∧ p < b ∧ p ∈ 0 :: l1.*1.
Proof.
  pose proof (lastn_elem 0 l1) as Hp. fold p in Hp. destruct take_order as (Hs & Ht & _). destruct take_block as (_ & ? & _).
  split_and!; [|  |done]; apply elem_of_cons in Hp as [->|[k Hk]%elem_of_fst]; [by left| |lia|].
  - by destruct (ok_block _ _ _ _ Hok p k ltac:(rewrite HL; set_solver)).
  - pose proof (top_in _ _ _ _ Hs Hk). destruct (sorted_pos _ _ _ _ Hs Hk). lia.
Qed.

(** The whole block: it leaves the list. *)
Lemma take_whole s' : view s [p] s' (upd pv0 p (ad (first l2 0))) sv0 →
  heap_ok (mkHeap (h_mem s') (ad p) (h_os s')) (l1 ++ l2) ((b, n) :: A) G.
Proof.
  intros (Hh & Ho & Hos & Hfr). destruct take_order as (Hs1 & Ht & Hs2). destruct take_prev as (Hp & Hpb & Hpl). destruct take_block as (Hb & Hb0 & Hn & _).
  pose proof (hk_links _ _ _ _ Hok) as Hl. rewrite HL in Hl. apply links_app in Hl as [Hl1 [Hpb' Hl2]]. cbn [first links] in Hl1, Hl2.
  assert (Hnode : ∀ u, u ∈ 0 :: L.*1 → node u) by apply (ok_free_node _ _ _ _ Hok).
  assert (Hin : ∀ q k, (q, k) ∈ (l1 ++ l2) ++ (b, n) :: A → (q, k) ∈ L ++ A) by (intros q k; rewrite HL; set_solver).
  assert (Hlt : ∀ q k, (q, k) ∈ l2 → p < q).
  { intros q k Hq. destruct (sorted_pos _ _ _ _ Hs2 Hq). lia. }
  split; cbn [h_mem h_freep h_os]; rewrite ?Hos; try apply Hok.
  - apply links_app. split.
    + eapply links_ext; [|apply (links_last pv0 0 l1 b (first l2 0)); [by apply sorted_nodup|done]].
      intros u Hu. symmetry. fold p. refine (proj1 (Hh u _)). apply Hnode. rewrite HL, fmap_app. set_solver.
    + fold p. apply links_first in Hl2 as [Hbl Hl2]. apply links_first. split; [rewrite (proj1 (Hh p Hp)); apply upd_eq|].
      eapply rest_ext; [|exact Hl2]. intros u Hu. symmetry. assert (Hu' : node u) by (apply Hnode; rewrite HL, fmap_app; set_solver).
      rewrite (proj1 (Hh u Hu')), upd_ne; [done|]. apply elem_of_fst in Hu as [k Hu]. specialize (Hlt u k Hu). lia.
  - apply sorted_app. split; [done|]. eapply sorted_mono; [|exact Hs2]. lia.
  - rewrite (proj2 (Hh 0 ltac:(by left))). apply (hk_base _ _ _ _ Hok).
  - intros q k Hq. specialize (Hin q k Hq). destruct (ok_block _ _ _ _ Hok q k Hin) as (Hq' & _). rewrite (proj2 (Hh q Hq')). by apply (hk_sizes _ _ _ _ Hok).
  - exists p. split; [done|]. rewrite fmap_app. set_solver.
  - rewrite <- (hk_units _ _ _ _ Hok), HL, !units_app, !units_cons. solve_Permutation.
Qed.

(** A part of it: the block is cut, and its upper end is allocated. *)
Lemma take_part s' : nu < n → view s [b; b + (n - nu)] s' pv0 (upd (upd sv0 b (n - nu)) (b + (n - nu)) nu) →
  heap_ok (mkHeap (h_mem s') (ad p) (h_os s')) (l1 ++ (b, n - nu) :: l2) ((b + (n - nu), nu) :: A) G.
Proof.
  intros Hlt (Hh & Ho & Hos & Hfr). destruct take_order as (Hs1 & Ht & Hs2). destruct take_prev as (Hp & Hpb & Hpl). destruct take_block as (Hb & Hb0 & Hn & Hbn & _).
  set (a := b + (n - nu)) in *. assert (Ha : node a) by (destruct Hb; [lia|right; lia]).
  assert (Hnode : ∀ u, u ∈ 0 :: L.*1 → node u) by apply (ok_free_node _ _ _ _ Hok).
  assert (Hout : ∀ q k, (q, k) ∈ l1 ++ l2 ++ A → node q ∧ q ≠ b ∧ q ≠ a ∧ sv0 q = k ∧ 0 < k).
  { intros q k Hq. destruct (ok_block _ _ _ _ Hok q k ltac:(rewrite HL; set_solver)) as (? & ? & Hk & _ & ?). split_and!; try done.
    - intros ->. revert Hq. rewrite !elem_of_app. intros [Hq|[Hq|Hq]].
      + pose proof (top_in _ _ _ _ Hs1 Hq). lia.
      + destruct (sorted_pos _ _ _ _ Hs2 Hq). lia.
      + apply (ok_apart _ _ _ _ Hok b n b k b ltac:(rewrite HL; set_solver) Hq). lia.
    - intros ->. revert Hq. rewrite !elem_of_app. intros [Hq|[Hq|Hq]].
      + pose proof (top_in _ _ _ _ Hs1 Hq). lia.
      + destruct (sorted_pos _ _ _ _ Hs2 Hq). lia.
      + apply (ok_apart _ _ _ _ Hok b n a k a ltac:(rewrite HL; set_solver) Hq). lia. }
  split; cbn [h_mem h_freep h_os]; rewrite ?Hos; try apply Hok.
  - pose proof (hk_links _ _ _ _ Hok) as Hl. rewrite HL in Hl. apply links_app in Hl as [Hl1 Hl2]. cbn [first links] in Hl1, Hl2.
    eapply (links_ext pv0); [|apply links_app; cbn [first links]; split; [exact Hl1|exact Hl2]].
    intros u Hu. symmetry. refine (proj1 (Hh u _)). apply Hnode. rewrite HL, fmap_app. rewrite fmap_app in Hu. set_solver.
  - apply sorted_app. split; [done|]. split; [done|]. split; [lia|]. eapply sorted_mono; [|exact Hs2]. lia.
  - rewrite (proj2 (Hh 0 ltac:(by left))), !upd_ne by lia. apply (hk_base _ _ _ _ Hok).
  - intros q k Hq. assert (Hq' : (q, k) = (b, n - nu) ∨ (q, k) = (a, nu) ∨ (q, k) ∈ l1 ++ l2 ++ A) by set_solver.
    destruct Hq' as [[= -> ->]|[[= -> ->]|Hq']].
    + rewrite (proj2 (Hh b Hb)), upd_ne, upd_eq by lia. lia.
    + rewrite (proj2 (Hh a Ha)), upd_eq. lia.
    + destruct (Hout q k Hq') as (Hqn & ? & ? & ? & ?). rewrite (proj2 (Hh q Hqn)), !upd_ne by done. done.
  - exists p. split; [done|]. rewrite fmap_app. set_solver.
  - rewrite <- (hk_units _ _ _ _ Hok), HL, !units_app, !units_cons. replace n with ((n - nu) + nu) at 2 by lia.
    rewrite seqZ_join by lia. solve_Permutation.
Qed.

Lemma wp_take_block (Q : Z → st → Prop) : nu ≤ n →
  (∀ s' L' a, heap_ok s' L' ((a, nu) :: A) G → (length L' ≤ length L)%nat → keeps A s s' → h_os s' = h_os s → Q (16 * (a + 1)) s') →
  wp (r ← (if n =? nu then q ← ptr (ad b); set_ptr (ad p) q;; mret (ad b)
           else set_size (ad b) (u32 (n - nu));; n ← size (ad b); let p := hdr_add (ad b) n in set_size p nu;; mret p);
      set_freep (ad p);; mret (hdr_add r 1)) Q s.
Proof.
  intros Hle HQ. destruct take_prev as (Hp & Hpb & Hpl). destruct take_block as (Hb & Hb0 & Hn & Hbn & _).
  assert (HA : ∀ u, u ∈ units A → lo ≤ u).
  { intros u Hu. apply (hk_range _ _ _ _ Hok). rewrite <- (hk_units _ _ _ _ Hok), units_app. set_solver. }
  assert (HLu : ∀ u, u = 0 ∨ u ∈ units L → u = 0 ∨ (lo ≤ u ∧ u ∉ units A)).
  { intros u [->|Hu]; [by left|right]. by apply (ok_free_unit _ _ _ _ Hok). }
  destruct (Z.eqb_spec n nu) as [E|E].
  - pose proof (view_refl s [p]) as Hv. apply wp_bind, wp_bind, (wp_ptr _ _ _ _ _ Hv); [done|].
    pose proof (hk_links _ _ _ _ Hok) as Hl. rewrite HL in Hl. apply links_app in Hl as [_ [_ Hl2]]. apply links_first in Hl2 as [-> Hl2].
    assert (Hf : node (first l2 0)).
    { apply (ok_free_node _ _ _ _ Hok). rewrite HL, fmap_app. destruct l2 as [|[q k] l2']; cbn; set_solver. }
    destruct (ad_node _ Hf) as (? & _). apply wp_bind, (wp_set_ptr _ _ _ _ _ Hv); [done|by left|lia|]. intros s' Hs'.
    apply wp_ret, wp_bind, wp_modify, wp_ret. rewrite hdr_add_ad by lia. eapply HQ; [rewrite <- E; by apply take_whole| | |by apply Hs'].
    + rewrite HL, !length_app. cbn [length]. lia.
    + apply (hdrs_keeps [p]); [apply Hs'|done|]. intros u ->%list_elem_of_singleton. apply HLu.
      apply elem_of_cons in Hpl as [->|[k Hk]%elem_of_fst]; [by left|right]. apply elem_of_units. exists p, k.
      assert (Hin : (p, k) ∈ L) by (rewrite HL; set_solver). split; [done|]. destruct (hk_sizes _ _ _ _ Hok p k ltac:(set_solver)). lia.
  - pose proof (view_refl s [b; b + (n - nu)]) as Hv. set (a := b + (n - nu)) in *. rewrite u32_small by lia.
    assert (Ha : node a ∧ ad a = 16 * (b + (n - nu))).
    { destruct Hb as [->|Hb]; [lia|]. split; [right; lia|]. unfold ad. destruct (Z.eqb_spec a 0); lia. }
    destruct Ha as [Ha Ead]. apply wp_bind, wp_bind, (wp_set_size _ _ _ _ _ Hv); [done|by left|lia|]. intros s1 Hs1.
    apply wp_bind, (wp_size _ _ _ _ _ Hs1); [done|]. rewrite upd_eq, hdr_add_ad, <- Ead by lia.
    apply wp_bind, (wp_set_size _ _ _ _ _ Hs1); [done|set_solver|lia|]. intros s2 Hs2. apply wp_ret, wp_bind, wp_modify, wp_ret.
    rewrite hdr_add_ad by lia. eapply HQ; [apply take_part; [lia|exact Hs2]| | |by apply Hs2].
    + rewrite HL, !length_app. cbn [length]. lia.
    + apply (hdrs_keeps [b; a]); [apply Hs2|done|]. intros u Hu. apply HLu. right. apply elem_of_units. exists b, n.
      split; [rewrite HL; set_solver|]. apply elem_of_cons in Hu as [->| ->%list_elem_of_singleton]; lia.
Qed.
End take.

(** One round over the list, from the block after freep: the first block that is large enough is taken; after
    a round without one, morecore() is called. *)
Section round.
Context (s : st) (L A : list blk) (G : list Z) (fuel : nat) (nu : Z) (Q : Z → st → Prop) (K : nat).
Hypothesis Hok : heap_ok s L A G.
Hypothesis Hnu : 0 < nu.
Hypothesis Htake : ∀ s' L' a, heap_ok s' L' ((a, nu) :: A) G → (length L' ≤ length L)%nat → keeps A s s' →
  h_os s' = h_os s → Q (16 * (a + 1)) s'.
Hypothesis Hmore : ∀ k, (K ≤ k)%nat → (∀ q n, (q, n) ∈ L → n < nu) →
  wp (r ← (p ← morecore fuel nu; mret (if p =? 0 then None else Some p));
      match r with
      | None => mret 0
      | Some p => match k with O => no_fuel | S k => q ← ptr p; malloc_loop fuel k nu p q end
      end) Q s.

(** At a block *)
Lemma round_block k l1 b n l2 : L = l1 ++ (b, n) :: l2 →
  (n < nu → wp (freep ← gets h_freep;
      r ← (if ad b =? freep then p ← morecore fuel nu; mret (if p =? 0 then None else Some p) else mret (Some (ad b)));
      match r with
      | None => mret 0
      | Some p => match k with O => no_fuel | S k => q ← ptr p; malloc_loop fuel k nu p q end
      end) Q s) →
  wp (malloc_loop fuel k nu (ad (lastn 0 l1)) (ad b)) Q s.
Proof.
  intros HL Hnext. destruct (ok_block _ _ _ _ Hok b n ltac:(rewrite HL; set_solver)) as (Hb & _ & _ & _ & Hsb).
  assert (Hc : wp (size (ad b)) (λ n' s', n' = n ∧ s' = s) s) by (apply (wp_size s [] s _ _ (view_refl s [])); done).
  destruct k as [|k]; cbn [malloc_loop]; apply wp_bind; (eapply wp_mono; [exact Hc|]); cbv beta; intros ? ? [-> ->];
    (destruct (Z.leb_spec nu n) as [Hle|Hlt]; [by apply (wp_take_block s L A l1 l2 G b n nu Hok HL Hnu)|by apply Hnext]).
Qed.

Lemma round_walk seg : ∀ k l1 l2, L = l1 ++ seg ++ l2 → (∀ q, q ∈ seg.*1 → h_freep s ≠ ad q) → (length seg ≤ k)%nat →
  ((∀ q n, (q, n) ∈ seg → n < nu) → ∀ k', (k ≤ k' + length seg)%nat →
     wp (malloc_loop fuel k' nu (ad (lastn 0 (l1 ++ seg))) (ad (first l2 0))) Q s) →
  wp (malloc_loop fuel k nu (ad (lastn 0 l1)) (ad (first (seg ++ l2) 0))) Q s.
Proof.
  induction seg as [|[b n] seg IH]; intros k l1 l2 HL Hfr Hk Hend.
  { cbn [app]. rewrite <- (app_nil_r l1) at 1. apply Hend; [intros q n Hin; by apply not_elem_of_nil in Hin|cbn; lia]. }
  cbn [app first length] in *. apply (round_block k l1 b n (seg ++ l2) HL). intros Hn.
  apply wp_bind, wp_gets. destruct (Z.eqb_spec (ad b) (h_freep s)) as [E|_]; [exfalso; apply (Hfr b); [by left|done]|].
  apply wp_bind, wp_ret. destruct k as [|k]; [lia|].
  destruct (ok_block _ _ _ _ Hok b n ltac:(rewrite HL; set_solver)) as (Hb & _).
  apply wp_bind, (wp_ptr s [] s _ _ (view_refl s [])); [done|].
  pose proof (hk_links _ _ _ _ Hok) as Hl. rewrite HL in Hl. apply links_app in Hl as [_ [_ Hl]]. apply links_first in Hl as [-> _].
  replace (ad b) with (ad (lastn 0 (l1 ++ [(b, n)]))) by (by rewrite lastn_app).
  apply (IH k (l1 ++ [(b, n)]) l2); [by rewrite <- app_assoc|intros q Hq; apply Hfr; by right|lia|].
  intros Hseg k' Hk'. rewrite <- app_assoc. apply Hend; [|lia]. intros q j [[= -> ->]|Hin]%elem_of_cons; [done|by eapply Hseg].
Qed.

Lemma round_base k : wp (freep ← gets h_freep;
      r ← (if ad 0 =? freep then p ← morecore fuel nu; mret (if p =? 0 then None else Some p) else mret (Some (ad 0)));
      match r with
      | None => mret 0
      | Some p => match k with O => no_fuel | S k => q ← ptr p; malloc_loop fuel k nu p q end
      end) Q s → wp (malloc_loop fuel k nu (ad (lastn 0 L)) (ad 0)) Q s.
Proof.
  intros Hw. assert (Hc : wp (size (ad 0)) (λ n' s', n' = 0 ∧ s' = s) s).
  { apply (wp_size s [] s _ _ (view_refl s [])); [by left|]. split; [apply (hk_base _ _ _ _ Hok)|done]. }
  destruct k as [|k]; cbn [malloc_loop]; apply wp_bind; (eapply wp_mono; [exact Hc|]); cbv beta; intros ? ? [-> ->];
    (destruct (Z.leb_spec nu 0) as [Hle|Hlt]; [lia|done]).
Qed.

Lemma wp_round k : (S (length L) + K ≤ k)%nat →
  wp (p ← ptr (h_freep s); malloc_loop fuel k nu (h_freep s) p) Q s.
Proof.
  intros Hk. destruct (hk_freep _ _ _ _ Hok) as (p & Ep & Hp). rewrite Ep.
  apply wp_bind, (wp_ptr s [] s _ _ (view_refl s [])); [by apply (ok_free_node _ _ _ _ Hok)|].
  pose proof (hk_links _ _ _ _ Hok) as Hl. pose proof (hk_sorted _ _ _ _ Hok) as Hs.
  assert (Hinj : ∀ u v, u ∈ 0 :: L.*1 → v ∈ 0 :: L.*1 → ad u = ad v → u = v).
  { intros u v Hu Hv. apply ad_inj; by apply (ok_free_node _ _ _ _ Hok). }
  apply sorted_nodup in Hs. apply NoDup_cons in Hs as [H0L Hnd].
  apply elem_of_cons in Hp as [->|[n Hp]%elem_of_fst].
  - apply links_first in Hl as [-> _]. rewrite <- (app_nil_r L) at 1.
    apply (round_walk L k [] []); [by rewrite app_nil_r| |lia|].
    + intros q Hq. rewrite Ep. intros E%Hinj; [by subst q|by left|by right].
    + intros Hall k' Hk'. cbn [app first]. apply round_base. apply wp_bind, wp_gets. rewrite Ep, Z.eqb_refl. apply Hmore; [lia|done].
  - apply list_elem_of_split in Hp as (x & y & E). pose proof Hl as Hl'. rewrite E in Hl'. apply links_app in Hl' as [_ [_ Hl']].
    apply links_first in Hl' as [-> _]. assert (Hfar : ∀ q, q ∈ x.*1 ∨ q ∈ y.*1 ∨ q = 0 → h_freep s ≠ ad q).
    { intros q Hq. rewrite Ep. intros Epq%Hinj; [subst q|rewrite E, fmap_app; set_solver|rewrite E, fmap_app; set_solver].
      rewrite E, fmap_app in Hnd, H0L. apply NoDup_app in Hnd as (_ & Hd & [Hy _]%NoDup_cons).
      destruct Hq as [Hq|[Hq|Hq]]; [apply (Hd p Hq); by left|by apply Hy|apply H0L; set_solver]. }
    rewrite E, length_app in Hk. cbn [length] in Hk.
    replace (ad p) with (ad (lastn 0 (x ++ [(p, n)]))) by (by rewrite lastn_app). rewrite <- (app_nil_r y) at 1.
    apply (round_walk y k (x ++ [(p, n)]) []); [rewrite app_nil_r, <- app_assoc; done|intros q Hq; apply Hfar; auto|lia|].
    intros Hy k' Hk'. cbn [first]. rewrite <- app_assoc. cbn [app]. rewrite <- E. apply round_base. apply wp_bind, wp_gets.
    destruct (Z.eqb_spec (ad 0) (h_freep s)) as [E0|_]; [by destruct (Hfar 0 ltac:(auto))|]. apply wp_bind, wp_ret.
    destruct k' as [|k']; [lia|]. apply wp_bind, (wp_ptr s [] s _ _ (view_refl s [])); [by left|].
    apply links_first in Hl as [-> _]. change (ad 0) with (ad (lastn 0 [])) at 1. rewrite E at 1.
    apply (round_walk x k' [] ((p, n) :: y)); [by rewrite E|intros q Hq; apply Hfar; auto|lia|].
    intros Hx k'' Hk''. cbn [app first]. apply (round_block k'' x p n y E). intros Hn.
    apply wp_bind, wp_gets. rewrite Ep, Z.eqb_refl. apply Hmore; [lia|]. intros q j. rewrite E. intros Hin.
    assert (Hc : (q, j) ∈ x ∨ (q, j) = (p, n) ∨ (q, j) ∈ y) by set_solver. destruct Hc as [?|[[= -> ->]|?]]; eauto.
Qed.
End round.

(** The number of units malloc() takes for a request *)
Definition nunits (nbytes : Z) : Z := (nbytes + 15) / 16 + 1.

Lemma nunits_range nbytes : 0 ≤ nbytes < 2 ^ 31 - 31 → 0 < nunits nbytes < 2 ^ 27 ∧ nbytes ≤ 16 * (nunits nbytes - 1).
Proof. unfold nunits. intros. zdm. Qed.

(** A process that has not called malloc() yet *)
Definition fresh (s : st) : Prop :=
  h_freep s = 0 ∧ os_inv (h_os s) ∧ os_brk (h_os s) = 16 * lo.
Definition heap_st (s : st) (L A : list blk) (G : list Z) : Prop := heap_ok s L A G ∨ (fresh s ∧ L = [] ∧ A = [] ∧ G = []).

Lemma wp_malloc_loop fuel s L A G nu (Q : Z → st → Prop) :
  heap_ok s L A G → (2 * length L + 5 ≤ fuel)%nat → 0 < nu < 2 ^ 27 →
  (∀ s', heap_ok s' L A G → keeps A s s' → grown s s' [] → (∀ q n, (q, n) ∈ L → n < nu) → refused (os_brk (h_os s)) nu → Q 0 s') →
  (∀ s' L' a G', heap_ok s' L' ((a, nu) :: A) (G' ++ G) → (length L' ≤ S (length L))%nat → keeps A s s' → grown s s' G' →
     Q (16 * (a + 1)) s') →
  wp (p ← ptr (h_freep s); malloc_loop fuel fuel nu (h_freep s) p) Q s.
Proof.
  intros Hok Hfuel Hnu Hfail HQ. eapply (wp_round s L A G fuel nu Q (length L + 3) Hok ltac:(lia)); [..|lia].
  - intros s' L' a Hok' Hlen Hk Hos. apply (HQ s' L' a []); [done|lia|done|by apply grown_os].
  - intros k Hk Hsmall. apply wp_bind, wp_bind. eapply (wp_morecore fuel s L A G nu); [done|lia|lia|..].
    + intros s' Hok' Hk' Hgr Href. apply wp_ret. cbn. apply wp_ret. by apply Hfail.
    + intros s1 L' G' Hok1 Hlen Hk1 Hgr (q & n & Hin & Hn). apply wp_ret.
      destruct (hk_freep _ _ _ _ Hok1) as (p & Ep & Hp). pose proof (ok_free_node _ _ _ _ Hok1 p Hp) as Hpn.
      destruct (ad_node p Hpn) as (Hpos & _). destruct (Z.eqb_spec (h_freep s1) 0) as [E0|_]; [lia|]. destruct k as [|k]; [lia|].
      eapply (wp_round s1 L' A (G' ++ G) fuel nu Q 0 Hok1 ltac:(lia)); [..|lia].
      * intros s2 L2 a Hok2 Hlen2 Hk2 Hos2. apply (HQ s2 L2 a G'); [done|lia|by eapply keeps_trans|]. unfold grown. by rewrite Hos2.
      * intros k' _ Hno. specialize (Hno q n Hin). lia.
Qed.

Lemma fresh_init s s' : fresh s → view (mkHeap (h_mem s) (ad 0) (h_os s)) [0] s' (upd (pv (h_mem s)) 0 (ad 0)) (upd (sv (h_mem s)) 0 0) →
  heap_ok s' [] [] [].
Proof.
  intros (Hf & Ho & Hb) (Hh & _ & Hos & Hfr). split; rewrite ?Hos; cbn [h_os]; try done.
  - cbn [links]. rewrite (proj1 (Hh 0 ltac:(by left))). apply upd_eq.
  - rewrite (proj2 (Hh 0 ltac:(by left))). apply upd_eq.
  - intros q n Hin. by apply not_elem_of_nil in Hin.
  - exists 0. split; [done|by left].
  - constructor.
  - intros u Hin. by apply not_elem_of_nil in Hin.
  - rewrite Hb. split_and!; [done|lia|destruct Hbase; lia|]. by rewrite Z.mul_comm, Z.mod_mul.
Qed.

Lemma wp_init s (Q : Z → st → Prop) : fresh s →
  (∀ s', heap_ok s' [] [] [] → h_os s' = h_os s → h_freep s' = ad 0 → Q (ad 0) s') →
  wp (set_ptr base base;; set_freep base;; set_size base 0;; mret base) Q s.
Proof.
  intros Hfresh HQ. change base with (ad 0). destruct (ad_node 0 ltac:(by left)) as (Hpos & _).
  apply wp_bind, (wp_set_ptr s [0] s _ _ (view_refl s [0])); [by left|by left|lia|]. intros s1 (Hh1 & Ho1 & Hos1 & Hfr1).
  apply wp_bind, wp_modify. set (s0 := mkHeap (h_mem s) (ad 0) (h_os s)).
  assert (Hv1 : view s0 [0] (mkHeap (h_mem s1) (ad 0) (h_os s1)) (upd (pv (h_mem s)) 0 (ad 0)) (sv (h_mem s))) by (split_and!; done).
  apply wp_bind, (wp_set_size _ _ _ _ _ Hv1); [by left|by left|lia|]. intros s2 Hv2. apply wp_ret.
  apply HQ; [by eapply fresh_init|destruct Hv2 as (_ & _ & E & _); exact E|destruct Hv2 as (_ & _ & _ & E); exact E].
Qed.

(** malloc(): a block that is new among the allocated ones and large enough, or, when no free block is large enough and sbrk() gives no more, 0. *)
Lemma wp_malloc fuel s L A G nbytes (Q : Z → st → Prop) :
  heap_st s L A G → (2 * length L + 5 ≤ fuel)%nat → 0 ≤ nbytes < 2 ^ 31 - 31 →
  (∀ s', heap_ok s' L A G → keeps A s s' → grown s s' [] → (∀ q n, (q, n) ∈ L → n < nunits nbytes) →
     refused (os_brk (h_os s)) (nunits nbytes) → Q 0 s') →
  (∀ s' L' a G', heap_ok s' L' ((a, nunits nbytes) :: A) (G' ++ G) → (length L' ≤ S (length L))%nat → keeps A s s' →
     grown s s' G' → Q (16 * (a + 1)) s') →
  wp (malloc base fuel nbytes) Q s.
Proof.
  intros Hst Hfuel Hn Hfail HQ. destruct (nunits_range nbytes Hn) as [Hnu _]. unfold malloc, sizeof_Header.
  replace (u32 ((nbytes + 16 - 1) / 16 + 1)) with (nunits nbytes).
  2: { replace (nbytes + 16 - 1) with (nbytes + 15) by lia. change ((nbytes + 15) / 16 + 1) with (nunits nbytes). rewrite u32_small; lia. }
  apply wp_bind, wp_gets, wp_bind. destruct Hst as [Hok|(Hfresh & -> & -> & ->)].
  - destruct (hk_freep _ _ _ _ Hok) as (p & Ep & Hp). destruct (ad_node p (ok_free_node _ _ _ _ Hok p Hp)) as (Hpos & _).
    destruct (Z.eqb_spec (h_freep s) 0) as [E0|_]; [lia|]. apply wp_ret. by eapply wp_malloc_loop.
  - rewrite (proj1 Hfresh). cbn [Z.eqb]. eapply wp_init; [done|]. intros s2 Hok2 Hos2 Hfr2. rewrite <- Hfr2.
    assert (Hk : ∀ s', keeps [] s s') by (intros s' a n x Hin; by apply not_elem_of_nil in Hin).
    eapply (wp_malloc_loop fuel s2 [] [] []); [done..| |].
    + intros s' Hok' _ Hgr Hno Href. rewrite Hos2 in Href. apply Hfail; [done|done| |done|done]. unfold grown in *. by rewrite Hgr, Hos2.
    + intros s' L' a G' Hok' Hlen _ Hgr. apply (HQ s' L' a G'); [done|done|done|]. unfold grown in *. by rewrite Hgr, Hos2.
Qed.
End spec.
