(* ===== verification/UmallocRun.v ===== *)
(** umalloc.c: a program that allocates, frees and writes to its objects.

    [client] runs a list of requests; for every live object it keeps, besides the pointer and the
    length it asked for, the bytes that it has seen or put there.  The theorems say that the
    objects are apart from each other and hold these bytes whatever the allocator does. *)
From S2P Require Import Prelude Machine Umalloc UmallocSpec.

Inductive op : Type :=
| OMalloc (nbytes : Z)
| OFree (i : nat)            (* the i-th live object *)
| OPut (i : nat) (k v : Z).  (* byte k of the i-th live object *)

Record obj := mkObj { o_ptr : Z; o_len : Z; o_val : Z → Z }.

Section client.
Context {W : Type} `{OsOk W} (base lo : Z).
Abbreviation st := (heap W).

Definition do_op (fuel : nat) (o : op) (l : list obj) : M st (list obj) :=
  match o with
  | OMalloc nbytes =>
    p ← malloc base fuel nbytes;
    m ← gets h_mem;
    mret (if p =? 0 then l else mkObj p nbytes (λ k, m (p + k)) :: l)
  | OFree i =>
    match l !! i with
    | Some x => free fuel (o_ptr x);; mret (delete i l)
    | None => mret l
    end
  | OPut i k v =>
    match l !! i with
    | Some x =>
      if (0 <=? k) && (k <? o_len x) then
        modify (λ s, set_hmem (upd (h_mem s) (o_ptr x + k) (u8 v)) s);;
        mret (<[i := mkObj (o_ptr x) (o_len x) (upd (o_val x) k (u8 v))]> l)
      else mret l
    | None => mret l
    end
  end.

Fixpoint client (fuel : nat) (ops : list op) (l : list obj) : M st (list obj) :=
  match ops with
  | [] => mret l
  | o :: ops => l ← do_op fuel o l; client fuel ops l
  end.

(** A request that sbrk(int) can be asked for *)
Definition op_ok (o : op) : Prop := match o with OMalloc n => 0 ≤ n < 2 ^ 31 - 31 | _ => True end.

Hypothesis Hbase : 0 < base ∧ base + 16 ≤ 16 * lo ∧ lo < 2 ^ 27.

(** An object is the payload of an allocated block. *)
Definition held (s : st) (b : blk) (x : obj) : Prop :=
  o_ptr x = 16 * (fst b + 1) ∧ 0 ≤ o_len x ≤ 16 * (snd b - 1) ∧
  ∀ k, 0 ≤ k < o_len x → h_mem s (o_ptr x + k) = o_val x k.

Definition client_ok (s : st) (n : nat) (l : list obj) : Prop :=
  ∃ L A G, heap_st base lo s L A G ∧ Forall2 (held s) A l ∧ (length L ≤ n)%nat ∧ os_brk (h_os s) = 16 * (lo + Z.of_nat (length G)).

(** How many objects are live after the requests, when none is refused *)
Definition live1 (o : op) (c : nat) : nat :=
  match o with OMalloc _ => S c | OFree i => if decide (i < c)%nat then pred c else c | OPut _ _ _ => c end.
Fixpoint live (ops : list op) (c : nat) : nat := match ops with [] => c | o :: ops => live ops (live1 o c) end.

(** Some malloc() found no memory: sbrk() has refused it. *)
Definition denied (ops : list op) (lim : Z) : Prop := ∃ nb, OMalloc nb ∈ ops ∧ refused lim (nunits nb).

Lemma refused_mono lim lim' nu : lim ≤ lim' → refused lim nu → refused lim' nu.
Proof. intros Hl (m & o & m' & o' & Hi & Hb & E). exists m, o, m', o'. split_and!; [done|lia|done]. Qed.

Lemma denied_mono ops ops' lim lim' : ops ⊆ ops' → lim ≤ lim' → denied ops lim → denied ops' lim'.
Proof. intros Hs Hl (nb & Hin & Hr). exists nb. split; [by apply Hs|by eapply refused_mono]. Qed.

(** ** Objects are apart *)
Lemma units_disjoint A i j a n a' n' u : NoDup (units A) → A !! i = Some (a, n) → A !! j = Some (a', n') → i ≠ j →
  a ≤ u < a + n → a' ≤ u < a' + n' → False.
Proof.
  revert i j. induction A as [|[b k] A IH]; intros i j Hnd Hi Hj Hne Hu Hu'; [done|].
  rewrite units_cons in Hnd. apply NoDup_app in Hnd as (_ & Hd & Hnd). destruct i as [|i], j as [|j]; cbn in Hi, Hj; [done|..].
  - injection Hi as -> ->. apply (Hd u); [apply elem_of_seqZ; lia|]. apply elem_of_units. apply list_elem_of_lookup_2 in Hj. eauto.
  - injection Hj as -> ->. apply (Hd u); [apply elem_of_seqZ; lia|]. apply elem_of_units. apply list_elem_of_lookup_2 in Hi. eauto.
  - apply (IH i j); auto.
Qed.

Lemma ok_nodup s L A G : heap_ok base lo s L A G → NoDup (units A).
Proof.
  intros Hok. pose proof (hk_nodup _ _ _ _ _ _ Hok) as Hnd. rewrite <- (hk_units _ _ _ _ _ _ Hok), units_app in Hnd.
  by apply NoDup_app in Hnd as (_ & _ & ?).
Qed.

(** Objects keep their bytes when their blocks do. *)
Lemma held_keeps s s' A l : keeps A s s' → Forall2 (held s) A l → (∀ a n, (a, n) ∈ A → 0 < n) → Forall2 (held s') A l.
Proof.
  intros Hk Hh Hpos. induction Hh as [|[a n] x A l (Hp & Hl & Hv) Hh IH]; constructor.
  - split; [done|split; [done|]]. intros k Hr. cbn in Hp, Hl. rewrite <- Hv by done. apply (Hk a n); [by left|]. lia.
  - apply IH; [|intros a' n' Hin; apply (Hpos a'); by right]. intros a' n' y Hin. apply Hk. by right.
Qed.

(** A store to the payload of a block leaves the heap well formed. *)
Lemma ok_payload s L A G i a n x v : heap_ok base lo s L A G → A !! i = Some (a, n) → 16 * (a + 1) ≤ x < 16 * (a + n) →
  heap_ok base lo (set_hmem (upd (h_mem s) x v) s) L A G.
Proof.
  intros Hok Hi Hx. pose proof (list_elem_of_lookup_2 _ _ _ Hi) as HA.
  assert (Hsame : ∀ u, u = 0 ∨ (∃ k, (u, k) ∈ L ++ A) →
    pv base (upd (h_mem s) x v) u = pv base (h_mem s) u ∧ sv base (upd (h_mem s) x v) u = sv base (h_mem s) u).
  { intros u Hu. destruct (ok_unit base lo s L A G Hok a n (x / 16) ltac:(set_solver) ltac:(zdm)) as [Hlo _].
    assert (Hout : x < ad base u ∨ ad base u + 16 ≤ x).
    { destruct Hu as [->|[k Hin]]; [unfold ad; cbn; destruct Hbase; zdm|].
      destruct (ok_block base lo Hbase s L A G Hok u k Hin) as (_ & Hu0 & Hk & _). assert (Hne : x / 16 ≠ u).
      { intros E. apply elem_of_app in Hin as [Hin|Hin]; [apply (ok_apart base lo s L A G Hok u k a n u Hin HA); zdm|].
        apply list_elem_of_lookup_1 in Hin as [j Hj]. destruct (decide (i = j)) as [->|Hij].
        - rewrite Hi in Hj. injection Hj as -> ->. zdm.
        - apply (units_disjoint A i j a n u k u (ok_nodup _ _ _ _ Hok) Hi Hj Hij); zdm. }
      unfold ad. destruct (Z.eqb_spec u 0); zdm. }
    split; apply load_ext; intros y Hy; apply upd_ne; lia. }
  split; cbn [h_mem set_hmem h_freep h_os]; try apply Hok.
  - eapply links_ext; [|apply (hk_links _ _ _ _ _ _ Hok)]. intros u Hu. symmetry. apply Hsame.
    destruct Hu as [->|[k Hin]%elem_of_fst]; [by left|right; exists k; set_solver].
  - rewrite (proj2 (Hsame 0 ltac:(by left))). apply (hk_base _ _ _ _ _ _ Hok).
  - intros q k Hin. rewrite (proj2 (Hsame q ltac:(by right; exists k))). by apply (hk_sizes _ _ _ _ _ _ Hok).
Qed.

(** ** One request *)
Lemma pos_sizes s L A G : heap_ok base lo s L A G → ∀ a n, (a, n) ∈ A → 0 < n.
Proof. intros Hok a n Hin. by destruct (hk_sizes _ _ _ _ _ _ Hok a n ltac:(set_solver)). Qed.

Lemma wp_op_malloc fuel nbytes s n l (Q : list obj → st → Prop) :
  client_ok s n l → 0 ≤ nbytes < 2 ^ 31 - 31 → (2 * n + 5 ≤ fuel)%nat →
  (∀ l' s', client_ok s' (S n) l' → os_brk (h_os s) ≤ os_brk (h_os s') →
     (length l' = S (length l) ∨ length l' = length l ∧ refused (os_brk (h_os s)) (nunits nbytes)) → Q l' s') →
  wp (do_op fuel (OMalloc nbytes) l) Q s.
Proof.
  intros (L & A & G & Hst & Hh & Hlen & Hbrk) Hn Hfuel HQ. cbn [do_op]. apply wp_bind.
  eapply (wp_malloc base lo Hbase fuel s L A G nbytes); [done|lia|done|..].
  - intros s' Hok' Hk Hgr _ Href. unfold grown in Hgr. cbn in Hgr. apply wp_bind, wp_gets, wp_ret, HQ; [|lia|by right].
    cbn. exists L, A, G. split_and!; [by left| |lia|lia]. eapply held_keeps; [done..|]. by eapply pos_sizes.
  - intros s' L' a G' Hok' Hlen' Hk Hgr. unfold grown in Hgr. apply wp_bind, wp_gets, wp_ret.
    destruct (ok_block base lo Hbase _ _ _ _ Hok' a (nunits nbytes) ltac:(set_solver)) as (_ & Ha & _).
    destruct (nunits_range nbytes Hn) as [_ Hb]. destruct (Z.eqb_spec (16 * (a + 1)) 0); [lia|].
    apply HQ; [|lia|by left].
    exists L', ((a, nunits nbytes) :: A), (G' ++ G). split_and!; [by left| |lia|rewrite length_app; lia]. constructor.
    + split; [done|split; [cbn; lia|done]].
    + eapply held_keeps; [done..|]. intros b k Hin. eapply (pos_sizes _ _ _ _ Hok'). by right.
Qed.

Lemma wp_op_free fuel i s n l (Q : list obj → st → Prop) :
  client_ok s n l → (2 * n + 5 ≤ fuel)%nat →
  (∀ l' s', client_ok s' (S n) l' → os_brk (h_os s') = os_brk (h_os s) → length l' = live1 (OFree i) (length l) → Q l' s') → wp (do_op fuel (OFree i) l) Q s.
Proof.
  intros (L & A & G & Hst & Hh & Hlen & Hbrk) Hfuel HQ. cbn [do_op]. destruct (l !! i) as [x|] eqn:Hi.
  2: { apply wp_ret, HQ; [|done|]; [exists L, A, G; split_and!; [done|done|lia|done]|].
    cbn [live1]. rewrite decide_False; [done|]. apply lookup_ge_None_1 in Hi. lia. }
  destruct (Forall2_lookup_r _ _ _ _ _ Hh Hi) as ([a k] & HA & (Hp & _)). cbn in Hp.
  assert (Hok : heap_ok base lo s L A G) by (destruct Hst as [|(_ & _ & -> & _)]; [done|by rewrite lookup_nil in HA]).
  pose proof (list_elem_of_split_length _ _ _ HA) as (A1 & A2 & EA & Ei). apply wp_bind. rewrite Hp.
  eapply (wp_free base lo Hbase fuel s L A1 A2 G a k); [by rewrite <- EA|lia|]. intros s' L' Hok' Hlen' Hk Hos _.
  apply wp_ret, HQ; [|by rewrite Hos|].
  2: { cbn [live1]. rewrite decide_True by (by eapply lookup_lt_Some). rewrite length_delete by (by eexists). lia. }
  exists L', (A1 ++ A2), G. split_and!; [by left| |lia|by rewrite Hos].
  assert (Hdel : delete i A = A1 ++ A2) by (rewrite EA, Ei, delete_middle; done). rewrite <- Hdel in *.
  eapply held_keeps; [done| |by eapply pos_sizes]. by apply Forall2_delete.
Qed.

Lemma wp_op_put fuel i k v s n l (Q : list obj → st → Prop) :
  client_ok s n l → (∀ l' s', client_ok s' (S n) l' → os_brk (h_os s') = os_brk (h_os s) → length l' = length l → Q l' s') →
  wp (do_op fuel (OPut i k v) l) Q s.
Proof.
  intros (L & A & G & Hst & Hh & Hlen & Hbrk) HQ. cbn [do_op]. assert (Hsame : Q l s).
  { apply HQ; [|done|done]. exists L, A, G. split_and!; [done|done|lia|done]. }
  destruct (l !! i) as [x|] eqn:Hi; [|by apply wp_ret]. destruct ((0 <=? k) && (k <? o_len x)) eqn:Hr; [|by apply wp_ret].
  apply andb_true_iff in Hr as [?%Z.leb_le ?%Z.ltb_lt].
  destruct (Forall2_lookup_r _ _ _ _ _ Hh Hi) as ([a j] & HA & (Hp & Hl & Hv)). cbn [fst snd] in Hp, Hl.
  assert (Hok : heap_ok base lo s L A G) by (destruct Hst as [|(_ & _ & -> & _)]; [done|by rewrite lookup_nil in HA]).
  apply wp_bind, wp_modify, wp_ret, HQ; [|done|by rewrite length_insert]. exists L, A, G. split_and!; [left; eapply ok_payload; [done|exact HA|lia]| |lia|done].
  apply Forall2_same_length_lookup. split; [rewrite length_insert; by eapply Forall2_length|]. intros i' [a' j'] y HA' Hy.
  destruct (decide (i = i')) as [<-|Hne].
  - rewrite list_lookup_insert_eq in Hy by (by eapply lookup_lt_Some). injection Hy as <-. rewrite HA in HA'. injection HA' as <- <-.
    split; [done|split; [done|]]. cbn [o_ptr o_len o_val]. intros k' Hk'. cbn. unfold upd.
    destruct (Z.eqb_spec (o_ptr x + k') (o_ptr x + k)), (Z.eqb_spec k' k); try lia. by apply Hv.
  - rewrite list_lookup_insert_ne in Hy by done.
    destruct (Forall2_lookup_lr _ _ _ _ _ _ Hh HA' Hy) as (Hp' & Hl' & Hv'). cbn [fst snd] in Hp', Hl'. split; [done|split; [done|]]. intros k' Hk'.
    cbn [h_mem set_hmem]. rewrite upd_ne; [by apply Hv'|]. intros E.
    apply (units_disjoint A i i' a j a' j' ((o_ptr x + k) / 16) (ok_nodup _ _ _ _ Hok) HA HA' Hne); zdm.
Qed.

Lemma wp_op fuel o s n l (Q : list obj → st → Prop) : client_ok s n l → op_ok o → (2 * n + 5 ≤ fuel)%nat →
  (∀ l' s', client_ok s' (S n) l' → os_brk (h_os s) ≤ os_brk (h_os s') →
     (length l' = live1 o (length l) ∨ denied [o] (os_brk (h_os s'))) → Q l' s') → wp (do_op fuel o l) Q s.
Proof.
  intros Hc Ho Hfuel HQ. destruct o as [nb|i|i k v].
  - eapply wp_op_malloc; [done..|]. intros l' s' Hc' Hb [Hl|[_ Hr]]; (apply HQ; [done|done|]); [by left|right].
    exists nb. split; [by left|by eapply refused_mono].
  - eapply wp_op_free; [done..|]. intros l' s' Hc' Hb Hl. apply HQ; [done|lia|by left].
  - eapply wp_op_put; [done|]. intros l' s' Hc' Hb Hl. apply HQ; [done|lia|by left].
Qed.

Lemma wp_client ops : ∀ fuel s n l (Q : list obj → st → Prop), client_ok s n l → Forall op_ok ops →
  (2 * (n + length ops) + 5 ≤ fuel)%nat →
  (∀ l' s', client_ok s' (n + length ops) l' → os_brk (h_os s) ≤ os_brk (h_os s') →
     (length l' = live ops (length l) ∨ denied ops (os_brk (h_os s'))) → Q l' s') → wp (client fuel ops l) Q s.
Proof.
  induction ops as [|o ops IH]; intros fuel s n l Q Hc Hops Hfuel HQ; cbn [client].
  - apply wp_ret, HQ; [|lia|by left]. cbn. by rewrite Nat.add_0_r.
  - apply Forall_cons in Hops as [Ho Hops]. cbn [length] in *. apply wp_bind. eapply wp_op; [done|done|lia|].
    intros l' s' Hc' Hb' Hl'. eapply IH; [exact Hc'|done|lia|]. intros l2 s2 Hc2 Hb2 Hl2. apply HQ; [by rewrite <- Nat.add_succ_comm|lia|].
    destruct Hl' as [El|Hd]; [|right; eapply denied_mono; [|exact Hb2|exact Hd]; set_solver].
    destruct Hl2 as [El2|Hd2]; [left; cbn [live]; by rewrite <- El|right; eapply denied_mono; [|reflexivity|exact Hd2]; set_solver].
Qed.

Lemma client_ok_boot s : fresh lo s → client_ok s 0 [].
Proof. intros Hf. exists [], [], []. split_and!; [by right|constructor|cbn; lia|cbn; destruct Hf as (_ & _ & ->); lia]. Qed.

Lemma held_range s L A G a j x : heap_ok base lo s L A G → (a, j) ∈ A → held s (a, j) x →
  16 * lo < o_ptr x ∧ o_ptr x + o_len x ≤ os_brk (h_os s).
Proof.
  intros Hok Hin (Hp & Hl & _). cbn [fst snd] in *. pose proof (pos_sizes _ _ _ _ Hok a j Hin).
  destruct (ok_unit base lo s L A G Hok a j (a + j - 1) ltac:(set_solver) ltac:(lia)).
  destruct (ok_unit base lo s L A G Hok a j a ltac:(set_solver) ltac:(lia)). lia.
Qed.

(** C14: whatever a process does with malloc() of less than 2^31 - 31 bytes each, free() and stores to its own objects, from its first call on: the calls
    return, the live objects lie apart from each other in the memory that sbrk() gave, with the length that was asked for,
    and each holds the bytes that were put there; as many are live as the calls say ([live]), unless sbrk() has refused the memory for a request.
    Without the bound ([op_ok]) it does not hold: see [malloc_overflow]. *)
Theorem malloc_objects fuel ops s : fresh lo s → Forall op_ok ops → (2 * length ops + 5 ≤ fuel)%nat →
  ∃ l s', client fuel ops [] s = Ret l s' ∧
    (length l = live ops 0 ∨ denied ops (os_brk (h_os s'))) ∧
    (∀ x, x ∈ l → 16 * lo < o_ptr x ∧ o_ptr x + o_len x ≤ os_brk (h_os s') ∧
       ∀ k, 0 ≤ k < o_len x → h_mem s' (o_ptr x + k) = o_val x k) ∧
    (∀ i j x y, l !! i = Some x → l !! j = Some y → i ≠ j → o_ptr x + o_len x ≤ o_ptr y ∨ o_ptr y + o_len y ≤ o_ptr x).
Proof.
  intros Hf Hops Hfuel. apply wp_elim. eapply wp_client; [by apply client_ok_boot|done|lia|].
  intros l s' (L & A & G & Hst & Hh & _ & _) _ Hlive. split; [exact Hlive|].
  assert (Hok : heap_ok base lo s' L A G ∨ l = []).
  { destruct Hst as [Hok|(_ & _ & -> & _)]; [by left|right]. by apply Forall2_nil_inv_l in Hh. }
  destruct Hok as [Hok| ->]; [|split; [intros x Hin; by apply not_elem_of_nil in Hin|done]]. split.
  - intros x Hin. apply list_elem_of_lookup_1 in Hin as [i Hi]. destruct (Forall2_lookup_r _ _ _ _ _ Hh Hi) as ([a j] & HA & Hheld).
    apply list_elem_of_lookup_2 in HA. destruct (held_range _ _ _ _ _ _ _ Hok HA Hheld). split_and!; [done|done|]. by destruct Hheld as (_ & _ & ?).
  - intros i j x y Hi Hj Hne. destruct (Forall2_lookup_r _ _ _ _ _ Hh Hi) as ([a n] & HA & (Hp & Hl & _)).
    destruct (Forall2_lookup_r _ _ _ _ _ Hh Hj) as ([a' n'] & HA' & (Hp' & Hl' & _)). cbn [fst snd] in *.
    pose proof (pos_sizes _ _ _ _ Hok a n (list_elem_of_lookup_2 _ _ _ HA)). pose proof (pos_sizes _ _ _ _ Hok a' n' (list_elem_of_lookup_2 _ _ _ HA')).
    assert (Hd := λ u, units_disjoint A i j a n a' n' u (ok_nodup _ _ _ _ Hok) HA HA' Hne).
    pose proof (Hd a). pose proof (Hd a'). lia.
Qed.

(** C30: and the heap stays well formed, after any such calls with requests of less than 2^31 - 31 bytes ([op_ok]; for larger ones see [malloc_overflow]): the free blocks form a circular list in address order, from base, with gaps between
    them, freep points into it, every free or live block has its size in its header, and the units of the free and the live
    blocks are, each once, the units between the first and the present break: none is lost or in two blocks. *)
Theorem malloc_heap_wf fuel ops s : fresh lo s → Forall op_ok ops → (2 * length ops + 5 ≤ fuel)%nat →
  ∃ l s' L A, client fuel ops [] s = Ret l s' ∧ Forall2 (held s') A l ∧
    (h_freep s' = 0 ∧ L = [] ∨ ∃ p, h_freep s' = ad base p ∧ p ∈ 0 :: L.*1 ∧ links base (pv base (h_mem s')) 0 L 0) ∧
    sorted 0 L ∧ (∀ q n, (q, n) ∈ L ++ A → sv base (h_mem s') q = n ∧ 0 < n) ∧
    units (L ++ A) ≡ₚ seqZ lo (os_brk (h_os s') / 16 - lo).
Proof.
  intros Hf Hops Hfuel. assert (Hc : wp (client fuel ops []) (λ l s', client_ok s' (length ops) l) s).
  { eapply wp_client; [by apply client_ok_boot|done|lia|by intros l s' ?]. }
  apply wp_elim in Hc as (l & s' & E & L & A & G & Hst & Hh & _ & Hbrk). exists l, s', L, A. split; [done|split; [done|]].
  rewrite Hbrk. replace (16 * (lo + Z.of_nat (length G)) / 16 - lo) with (Z.of_nat (length G)) by zdm.
  destruct Hst as [Hok|((Hfr & _) & -> & -> & ->)].
  - split_and!; [right; destruct (hk_freep _ _ _ _ _ _ Hok) as (p & ? & ?); exists p; split_and!; [done|done|apply Hok]|apply Hok|apply Hok|].
    rewrite (hk_units _ _ _ _ _ _ Hok). apply submseteq_length_Permutation; [|rewrite length_seqZ; lia].
    apply NoDup_submseteq; [apply Hok|]. intros u Hu. apply elem_of_seqZ. destruct (hk_range _ _ _ _ _ _ Hok u Hu). lia.
  - split_and!; [by left|done|intros q n Hin; by apply not_elem_of_nil in Hin|done].
Qed.
End client.

(** ** Requests of almost 4 GB
    morecore() computes the number of bytes in 64 bits, but sbrk() takes an int: a request of 2^32 - 1 bytes asks
    for 16 bytes. *)
Section overflow.
Context {W : Type} `{OsOk W} (base lo : Z).
Hypothesis Hbase : 0 < base ∧ base + 16 ≤ 16 * lo ∧ lo < 2 ^ 27.
Abbreviation st := (heap W).
Abbreviation big := (2 ^ 28 + 1).

Lemma lo_node : node lo lo ∧ ad base lo = 16 * lo ∧ 0 < lo.
Proof. unfold node, ad. destruct (Z.eqb_spec lo 0); destruct Hbase; split_and!; try lia. Qed.

(** free() of a block into the empty list, whatever its size *)
Lemma wp_free_first fuel s n (Q : unit → st → Prop) :
  pv base (h_mem s) 0 = ad base 0 → sv base (h_mem s) 0 = 0 → sv base (h_mem s) lo = n → 0 < n < 2 ^ 31 → h_freep s = ad base 0 →
  (∀ s', pv base (h_mem s') 0 = ad base lo → sv base (h_mem s') 0 = 0 → sv base (h_mem s') lo = n →
     pv base (h_mem s') lo = ad base 0 → h_freep s' = ad base 0 → h_os s' = h_os s → Q () s') →
  wp (free fuel (16 * (lo + 1))) Q s.
Proof.
  intros Hp0 Hs0 Hsl Hn Hfr HQ. destruct lo_node as (Hlo & Elo & Hpos). assert (H0n : node lo 0) by (by left).
  pose proof (view_refl base lo s [0; lo]) as Hv.
  unfold free. replace (u64 (16 * (lo + 1) - sizeof_Header)) with (ad base lo) by (unfold sizeof_Header; rewrite u64_small; lia).
  assert (Hlt : ad base 0 < ad base lo) by (by apply (ad_lt base lo Hbase)).
  assert (Hloop : wp (free_loop fuel (ad base lo) (ad base 0)) (λ r s', r = ad base 0 ∧ s' = s) s).
  { destruct fuel as [|fuel]; cbn [free_loop]; apply wp_bind, (wp_ptr _ _ _ _ _ _ _ Hv); try done; rewrite Hp0;
      destruct (Z.ltb_spec (ad base 0) (ad base lo)), (Z.ltb_spec (ad base lo) (ad base 0)), (Z.leb_spec (ad base 0) (ad base 0));
      cbn [andb orb]; try lia; by apply wp_ret. }
  apply wp_bind, wp_gets, wp_bind. rewrite Hfr. eapply wp_mono; [exact Hloop|]. cbv beta. intros ? ? [-> ->].
  apply wp_bind, (wp_size _ _ _ _ _ _ _ Hv); [done|]. apply wp_bind, (wp_ptr _ _ _ _ _ _ _ Hv); [done|].
  assert (H0r : 0 < ad base 0 < 2 ^ 31) by (unfold ad; cbn; destruct Hbase; lia).
  rewrite Hsl, Hp0, hdr_add_ad by (destruct Hbase; lia).
  destruct (Z.eqb_spec (16 * (lo + n)) (ad base 0)) as [E|_]; [lia|].
  apply wp_bind, (wp_set_ptr base lo Hbase _ _ _ _ _ Hv); [done|set_solver|lia|]. intros s1 Hv1.
  apply wp_bind, (wp_size _ _ _ _ _ _ _ Hv1); [done|]. rewrite Hs0.
  replace (hdr_add (ad base 0) 0) with (ad base 0) by (unfold hdr_add; rewrite Z.mul_0_l, Z.add_0_r, u64_small; lia).
  destruct (Z.eqb_spec (ad base 0) (ad base lo)) as [E|_]; [lia|].
  apply wp_bind, (wp_set_ptr base lo Hbase _ _ _ _ _ Hv1); [done|set_solver|lia|]. intros s2 (Hh2 & _ & Hos2 & _). apply wp_modify.
  apply HQ; cbn [h_mem h_freep h_os]; [rewrite (proj1 (Hh2 0 H0n)); apply upd_eq|by rewrite (proj2 (Hh2 0 H0n))|by rewrite (proj2 (Hh2 lo Hlo))| |done|done].
  rewrite (proj1 (Hh2 lo Hlo)), upd_ne, upd_eq; [done|lia].
Qed.

(** morecore() for that request *)
Lemma wp_more_big fuel s (Q : Z → st → Prop) : heap_ok base lo s [] [] [] → os_brk (h_os s) = 16 * lo →
  (∀ m r m' o', sbrk 16 (m, h_os s) = Ret r (m', o') → r ≠ 2 ^ 64 - 1) →
  (∀ s', pv base (h_mem s') 0 = ad base lo → sv base (h_mem s') 0 = 0 → sv base (h_mem s') lo = big →
     pv base (h_mem s') lo = ad base 0 → h_freep s' = ad base 0 → os_brk (h_os s') = 16 * lo + 16 → Q (ad base 0) s') →
  wp (morecore fuel big) Q s.
Proof.
  intros Hok Hbrk Hgrow HQ. destruct lo_node as (Hlo & Elo & Hpos). assert (H0n : node lo 0) by (by left).
  unfold morecore. change (big <? 4096) with false. cbv iota zeta. change (s32 _) with 16.
  destruct (os_sbrk 16 (h_mem s) (h_os s) (proj1 (hk_os _ _ _ _ _ _ Hok)) ltac:(lia)) as (r & m' & o' & E & Hinv & Hm & Hr).
  apply wp_bind. unfold on_os. apply wp_zoom. eapply wp_intro; [exact E|]. cbv beta iota. specialize (Hgrow _ _ _ _ E).
  destruct (Z.eqb_spec r (2 ^ 64 - 1)); [done|]. destruct Hr as [[? _]|(-> & Hb & Hb')]; [done|]. rewrite Hbrk.
  destruct (ok_mem base lo Hbase s [] [] [] m' o' Hok Hm Hinv ltac:(lia) ltac:(rewrite Hb, Hbrk; zdm)) as [Hok1 _].
  set (s1 := mkHeap m' (h_freep s) o') in *. rewrite <- Elo.
  apply wp_bind, (wp_set_size base lo Hbase s1 [lo] s1 _ _ (view_refl base lo s1 [lo])); [done|by left|lia|]. intros s2 (Hh2 & _ & Hos2 & Hfr2).
  rewrite hdr_add_ad by (destruct Hbase; lia). pose proof (hk_links _ _ _ _ _ _ Hok1) as Hl1. cbn [links] in Hl1.
  assert (Hfr1 : h_freep s1 = ad base 0).
  { destruct (hk_freep _ _ _ _ _ _ Hok1) as (p & -> & Hp). by apply list_elem_of_singleton in Hp as ->. }
  apply wp_bind. eapply (wp_free_first fuel s2 big); try done.
  - by rewrite (proj1 (Hh2 0 H0n)).
  - rewrite (proj2 (Hh2 0 H0n)), upd_ne by lia. apply (hk_base _ _ _ _ _ _ Hok1).
  - rewrite (proj2 (Hh2 lo Hlo)). apply upd_eq.
  - by rewrite Hfr2.
  - intros s3 Hp3 Hs3 Hl3 Hq3 Hfr3 Hos3. apply wp_gets. rewrite Hfr3. apply HQ; try done. rewrite Hos3, Hos2. cbn. lia.
Qed.

(** Malloc(2^32 - 1) by a process that has no heap yet asks sbrk() for 16 bytes and, when it gets them, returns a pointer
    to the end of the process's memory: not one byte of the block it returns is memory of the process. *)
Theorem malloc_overflow fuel s : fresh lo s → (2 ≤ fuel)%nat →
  (∀ m r m' o', sbrk 16 (m, h_os s) = Ret r (m', o') → r ≠ 2 ^ 64 - 1) →
  wp (malloc base fuel (2 ^ 32 - 1)) (λ r s', os_brk (h_os s') = os_brk (h_os s) + 16 ∧ r = os_brk (h_os s')) s.
Proof.
  intros (Hfr & Hinv & Hbrk) Hfuel Hgrow. destruct lo_node as (Hlo & Elo & Hpos). assert (H0n : node lo 0) by (by left).
  assert (H0r : 0 < ad base 0 < 2 ^ 31) by (unfold ad; cbn; destruct Hbase; lia).
  unfold malloc. change (u32 _) with big. rewrite Hbrk.
  apply wp_bind, wp_gets, wp_bind. rewrite Hfr. cbn [Z.eqb]. eapply (wp_init base lo Hbase); [done|]. intros s1 Hok1 Hos1 Hfr1.
  pose proof (hk_links _ _ _ _ _ _ Hok1) as Hl1. cbn [links] in Hl1. pose proof (hk_base _ _ _ _ _ _ Hok1) as Hb1.
  pose proof (view_refl base lo s1 []) as Hv1. apply wp_bind, (wp_ptr _ _ _ _ _ _ _ Hv1); [done|]. rewrite Hl1.
  destruct fuel as [|[|fuel]]; [lia..|]. set (f := S (S fuel)) at 1. unfold f at 1. cbn [malloc_loop].
  apply wp_bind, (wp_size _ _ _ _ _ _ _ Hv1); [done|]. rewrite Hb1. cbn [Z.leb Z.compare].
  apply wp_bind, wp_gets. rewrite Hfr1, Z.eqb_refl. apply wp_bind, wp_bind.
  apply wp_more_big; [done|by rewrite Hos1|by rewrite Hos1|]. intros s2 Hp2 Hs2 Hl2 Hq2 Hfr2 Hos2. apply wp_ret.
  destruct (Z.eqb_spec (ad base 0) 0); [lia|]. pose proof (view_refl base lo s2 [0]) as Hv2.
  apply wp_bind, (wp_ptr _ _ _ _ _ _ _ Hv2); [done|]. rewrite Hp2. apply wp_bind, (wp_size _ _ _ _ _ _ _ Hv2); [done|]. rewrite Hl2.
  rewrite Z.leb_refl, Z.eqb_refl. apply wp_bind, wp_bind, (wp_ptr _ _ _ _ _ _ _ Hv2); [done|]. rewrite Hq2.
  apply wp_bind, (wp_set_ptr base lo Hbase _ _ _ _ _ Hv2); [done|by left|lia|]. intros s3 (_ & _ & Hos3 & _).
  apply wp_ret, wp_bind, wp_modify, wp_ret. cbn [h_os]. rewrite hdr_add_ad, Hos3 by (destruct Hbase; lia). lia.
Qed.
End overflow.

(** ** An operating system that gives memory below [2 ^ 31] *)
#[local] Instance sbrk_os : Os Z := {
  sbrk n := λ '(m, brk), if (0 <? n) && (brk + n <? 2 ^ 31) then Ret brk (m, brk + n) else Ret (2 ^ 64 - 1) (m, brk)
}.
#[local] Program Instance sbrk_os_ok : OsOk Z := { os_inv brk := 0 ≤ brk; os_brk brk := brk }.
Next Obligation.
  intros n m brk Hi Hn. cbn in Hi |- *. destruct (Z.ltb_spec 0 n); [|lia]. cbn [andb]. destruct (Z.ltb_spec (brk + n) (2 ^ 31)).
  - exists brk, m, (brk + n). split_and!; [done|lia|done|right]. lia.
  - exists (2 ^ 64 - 1), m, brk. split_and!; [done|lia|done|by left].
Qed.

Definition proc0 : heap Z := mkHeap (λ _, 170) 0 16384.
Definition ops0 : list op := [OMalloc 100; OMalloc 40; OPut 1 99 7; OFree 0; OMalloc 70000; OPut 0 0 1; OFree 1; OMalloc 8].

Lemma proc0_ok : (0 < 4096 ∧ 4096 + 16 ≤ 16 * 1024 ∧ 1024 < 2 ^ 27) ∧ fresh 1024 proc0.
Proof. split; [lia|]. split_and!; [done|cbn; lia|done]. Qed.

Lemma ops0_ok : Forall op_ok ops0.
Proof. repeat constructor; cbn; lia. Qed.

(** The pointers of the live objects at the end, and the first byte of the second one *)
Definition seen (o : outcome (heap Z) (list obj)) : list Z * Z :=
  match o with Ret l s => (map o_ptr l, h_mem s 81936) | _ => ([], 0) end.

Example ops0_seen : seen (client 4096 100 ops0 [] proc0) = ([81904; 81936], 1).
Proof. vm_compute. reflexivity. Qed.

Lemma malloc_objects_witness : ∃ l s', client 4096 100 ops0 [] proc0 = Ret l s' ∧ length l = 2%nat ∧
  (∀ i j x y, l !! i = Some x → l !! j = Some y → i ≠ j → o_ptr x + o_len x ≤ o_ptr y ∨ o_ptr y + o_len y ≤ o_ptr x).
Proof.
  destruct (malloc_objects 4096 1024 (proj1 proc0_ok) 100 ops0 proc0 (proj2 proc0_ok) ops0_ok ltac:(cbn; lia)) as (l & s' & E & _ & _ & Hd).
  exists l, s'. split; [exact E|split; [|exact Hd]].
  pose proof ops0_seen as Hs. rewrite E in Hs. cbn [seen] in Hs. injection Hs as Hs _. by rewrite <- (length_map o_ptr), Hs.
Defined.

Lemma malloc_heap_wf_witness : ∃ l s' L A, client 4096 100 ops0 [] proc0 = Ret l s' ∧ Forall2 (held s') A l ∧
  units (L ++ A) ≡ₚ seqZ 1024 (h_os s' / 16 - 1024).
Proof.
  destruct (malloc_heap_wf 4096 1024 (proj1 proc0_ok) 100 ops0 proc0 (proj2 proc0_ok) ops0_ok ltac:(cbn; lia)) as (l & s' & L & A & E & Hh & _ & _ & _ & Hu).
  exists l, s', L, A. split; [exact E|split; [exact Hh|exact Hu]].
Defined.

Lemma malloc_overflow_witness : wp (malloc 4096 2 (2 ^ 32 - 1)) (λ r s', h_os s' = 16400 ∧ r = h_os s') proc0.
Proof.
  apply (malloc_overflow 4096 1024 (proj1 proc0_ok) 2 proc0 (proj2 proc0_ok)); [lia|].
  intros m r m' o' E. cbn in E. injection E as <- <- <-. lia.
Defined.
