(* ===== verification/Virtio.v ===== *)
(** virtio_disk.c: the driver of qemu's virtio disk.

    [vdisk D] is the driver's state: struct disk with the descriptors, the avail ring and the
    used area, which the device shares; the buffers of the buffer cache; the device [D] with its
    registers.  The driver runs on the process layer and this state.  Buffer pointers are
    indices, as in Bio.v.  An address that the driver gives to the device is a [dma]: of
    a request header on a kernel stack, which holds until the request is done, of the data of a buffer, or of a status
    byte.  [fuel] bounds how often a thread is woken and has to sleep again. *)
From S2P Require Import Prelude Machine CString Spinlock Sched Sleeplock Bio Log Fs UserMem Shared.

(** ** virtio.h *)
Definition VIRTIO_MMIO_MAGIC_VALUE : Z := 0x000.
Definition VIRTIO_MMIO_VERSION : Z := 0x004.
Definition VIRTIO_MMIO_DEVICE_ID : Z := 0x008.
Definition VIRTIO_MMIO_VENDOR_ID : Z := 0x00c.
Definition VIRTIO_MMIO_DEVICE_FEATURES : Z := 0x010.
Definition VIRTIO_MMIO_DRIVER_FEATURES : Z := 0x020.
Definition VIRTIO_MMIO_GUEST_PAGE_SIZE : Z := 0x028.
Definition VIRTIO_MMIO_QUEUE_SEL : Z := 0x030.
Definition VIRTIO_MMIO_QUEUE_NUM_MAX : Z := 0x034.
Definition VIRTIO_MMIO_QUEUE_NUM : Z := 0x038.
Definition VIRTIO_MMIO_QUEUE_PFN : Z := 0x040.
Definition VIRTIO_MMIO_QUEUE_NOTIFY : Z := 0x050.
Definition VIRTIO_MMIO_INTERRUPT_STATUS : Z := 0x060.
Definition VIRTIO_MMIO_INTERRUPT_ACK : Z := 0x064.
Definition VIRTIO_MMIO_STATUS : Z := 0x070.
Definition VIRTIO_CONFIG_S_ACKNOWLEDGE : Z := 1.
Definition VIRTIO_CONFIG_S_DRIVER : Z := 2.
Definition VIRTIO_CONFIG_S_DRIVER_OK : Z := 4.
Definition VIRTIO_CONFIG_S_FEATURES_OK : Z := 8.
Definition VIRTIO_BLK_F_RO : Z := 5.
Definition VIRTIO_BLK_F_SCSI : Z := 7.
Definition VIRTIO_BLK_F_CONFIG_WCE : Z := 11.
Definition VIRTIO_BLK_F_MQ : Z := 12.
Definition VIRTIO_F_ANY_LAYOUT : Z := 27.
Definition VIRTIO_RING_F_INDIRECT_DESC : Z := 28.
Definition VIRTIO_RING_F_EVENT_IDX : Z := 29.
Definition NUM : Z := 8.
Definition VRING_DESC_F_NEXT : Z := 1.
Definition VRING_DESC_F_WRITE : Z := 2.
Definition VIRTIO_BLK_T_IN : Z := 0.
Definition VIRTIO_BLK_T_OUT : Z := 1.

(** struct virtio_blk_outhdr *)
Record outhdr := mkHdr { h_type : Z; h_reserved : Z; h_sector : Z }.

Inductive dma : Type :=
| DNull
| DHdr (h : outhdr)
| DData (b : Z)      (* b->data *)
| DStatus (i : Z).   (* &disk.info[i].status *)

(** struct VRingDesc *)
Record vdesc := mkDesc { dd_addr : dma; dd_len : Z; dd_flags : Z; dd_next : Z }.

(** The device: its memory-mapped registers; the blocks of the disk, and how many entries of the avail ring it has taken *)
Class Device (D : Type) := {
  mmio_read : Z → D → Z * D;
  mmio_write : Z → Z → D → D;
  dv_disk : D → Z → list Z;
  dv_next : D → Z
}.

(** struct disk, with the buffers and the device *)
Record vdisk (D : Type) := mkV {
  vdisk_lock : spinlock;
  v_desc : Z → vdesc;
  v_avail : Z → Z;         (* avail[2...] *)
  v_avail_idx : Z;         (* avail[1] *)
  v_used_id : Z;           (* used->id *)
  v_used : Z → Z;          (* used->elems[].id *)
  v_free : Z → Z;
  v_used_idx : Z;
  v_info_b : Z → option Z;
  v_info_st : Z → Z;
  v_bufs : Z → buf;
  v_dev : D
}.
Arguments mkV {D}.
Arguments vdisk_lock {D}.
Arguments v_desc {D}.
Arguments v_avail {D}.
Arguments v_avail_idx {D}.
Arguments v_used_id {D}.
Arguments v_used {D}.
Arguments v_free {D}.
Arguments v_used_idx {D}.
Arguments v_info_b {D}.
Arguments v_info_st {D}.
Arguments v_bufs {D}.
Arguments v_dev {D}.

Section setters.
Context {D : Type}.
Implicit Types x : vdisk D.
Definition set_vlock v x := mkV v (v_desc x) (v_avail x) (v_avail_idx x) (v_used_id x) (v_used x) (v_free x) (v_used_idx x) (v_info_b x) (v_info_st x) (v_bufs x) (v_dev x).
Definition set_desc v x := mkV (vdisk_lock x) v (v_avail x) (v_avail_idx x) (v_used_id x) (v_used x) (v_free x) (v_used_idx x) (v_info_b x) (v_info_st x) (v_bufs x) (v_dev x).
Definition set_avail v x := mkV (vdisk_lock x) (v_desc x) v (v_avail_idx x) (v_used_id x) (v_used x) (v_free x) (v_used_idx x) (v_info_b x) (v_info_st x) (v_bufs x) (v_dev x).
Definition set_avail_idx v x := mkV (vdisk_lock x) (v_desc x) (v_avail x) v (v_used_id x) (v_used x) (v_free x) (v_used_idx x) (v_info_b x) (v_info_st x) (v_bufs x) (v_dev x).
Definition set_free v x := mkV (vdisk_lock x) (v_desc x) (v_avail x) (v_avail_idx x) (v_used_id x) (v_used x) v (v_used_idx x) (v_info_b x) (v_info_st x) (v_bufs x) (v_dev x).
Definition set_used_idx v x := mkV (vdisk_lock x) (v_desc x) (v_avail x) (v_avail_idx x) (v_used_id x) (v_used x) (v_free x) v (v_info_b x) (v_info_st x) (v_bufs x) (v_dev x).
Definition set_info_b v x := mkV (vdisk_lock x) (v_desc x) (v_avail x) (v_avail_idx x) (v_used_id x) (v_used x) (v_free x) (v_used_idx x) v (v_info_st x) (v_bufs x) (v_dev x).
Definition set_info_st v x := mkV (vdisk_lock x) (v_desc x) (v_avail x) (v_avail_idx x) (v_used_id x) (v_used x) (v_free x) (v_used_idx x) (v_info_b x) v (v_bufs x) (v_dev x).
Definition set_vbufs v x := mkV (vdisk_lock x) (v_desc x) (v_avail x) (v_avail_idx x) (v_used_id x) (v_used x) (v_free x) (v_used_idx x) (v_info_b x) (v_info_st x) v (v_dev x).
Definition set_dev (v : D) x := mkV (vdisk_lock x) (v_desc x) (v_avail x) (v_avail_idx x) (v_used_id x) (v_used x) (v_free x) (v_used_idx x) (v_info_b x) (v_info_st x) (v_bufs x) v.
(** memset(disk.pages, 0, ...): the descriptors, the avail ring and the used area *)
Definition clear_pages x :=
  mkV (vdisk_lock x) (λ _, mkDesc DNull 0 0 0) (λ _, 0) 0 0 (λ _, 0) (v_free x) (v_used_idx x) (v_info_b x) (v_info_st x) (v_bufs x) (v_dev x).
(** Stores to fields: disk.desc[i], the fields of disk.info[i], a buffer, the avail ring and a register *)
Definition at_desc i d x := set_desc (upd (v_desc x) i d) x.
Definition at_info_st i v x := set_info_st (upd (v_info_st x) i v) x.
Definition at_info_b i v x := set_info_b (upd (v_info_b x) i v) x.
Definition at_vbuf b f x := set_vbufs (upd (v_bufs x) b (f (v_bufs x b))) x.
Definition put_avail i x := set_avail (upd (v_avail x) (v_avail_idx x mod NUM) i) x.
Definition next_avail x := set_avail_idx (u16 (v_avail_idx x + 1)) x.
Definition at_R `{!Device D} r v x := set_dev (mmio_write r v (v_dev x)) x.
End setters.

#[export] Instance vdisk_locked {D} : Locked (vdisk D) := { lk_of := vdisk_lock; with_lk := set_vlock }.

Section virtio.
Context {P D : Type} `{Sched P} `{!Device D}.
Abbreviation st := (P * vdisk D)%type.

Definition getv : M st (vdisk D) := gets snd.
Definition putv (f : vdisk D → vdisk D) : M st unit := modify (λ '(p, x), (p, f x)).
(** a read of *R(r), and *R(r) = v *)
Definition R (r : Z) : M st Z :=
  λ '(p, x), let '(v, d) := mmio_read r (v_dev x) in Ret v (p, set_dev d x).
Definition set_R (r v : Z) : M st unit := putv (at_R r v).

(** virtio_disk_init(); [pages] is the address of disk.pages *)
Fixpoint init_free (k : nat) (i : Z) : M st unit :=
  match k with
  | O => mret ()
  | S k => putv (λ x, set_free (upd (v_free x) i 1) x);; init_free k (i + 1)
  end.
Definition without (features bit : Z) : Z := Z.land features (Z.lnot (Z.shiftl 1 bit)).
Definition virtio_disk_init (pages : Z) : M st unit :=
  putv (set_vlock (initlock "virtio_disk"));;
  magic ← R VIRTIO_MMIO_MAGIC_VALUE;
  bad ← (if negb (magic =? 0x74726976) then mret true
         else
           version ← R VIRTIO_MMIO_VERSION;
           if negb (version =? 1) then mret true
           else
             id ← R VIRTIO_MMIO_DEVICE_ID;
             if negb (id =? 2) then mret true
             else vendor ← R VIRTIO_MMIO_VENDOR_ID; mret (negb (vendor =? 0x554d4551)));
  if (bad : bool) then panic "could not find virtio disk"
  else
    let status := Z.lor 0 VIRTIO_CONFIG_S_ACKNOWLEDGE in
    set_R VIRTIO_MMIO_STATUS status;;
    let status := Z.lor status VIRTIO_CONFIG_S_DRIVER in
    set_R VIRTIO_MMIO_STATUS status;;
    features ← R VIRTIO_MMIO_DEVICE_FEATURES;
    let features := without features VIRTIO_BLK_F_RO in
    let features := without features VIRTIO_BLK_F_SCSI in
    let features := without features VIRTIO_BLK_F_CONFIG_WCE in
    let features := without features VIRTIO_BLK_F_MQ in
    let features := without features VIRTIO_F_ANY_LAYOUT in
    let features := without features VIRTIO_RING_F_EVENT_IDX in
    let features := without features VIRTIO_RING_F_INDIRECT_DESC in
    set_R VIRTIO_MMIO_DRIVER_FEATURES (u32 features);;
    let status := Z.lor status VIRTIO_CONFIG_S_FEATURES_OK in
    set_R VIRTIO_MMIO_STATUS status;;
    let status := Z.lor status VIRTIO_CONFIG_S_DRIVER_OK in
    set_R VIRTIO_MMIO_STATUS status;;
    set_R VIRTIO_MMIO_GUEST_PAGE_SIZE PGSIZE;;
    set_R VIRTIO_MMIO_QUEUE_SEL 0;;
    max ← R VIRTIO_MMIO_QUEUE_NUM_MAX;
    if max =? 0 then panic "virtio disk has no queue 0"
    else if max <? NUM then panic "virtio disk max queue too short"
    else
      set_R VIRTIO_MMIO_QUEUE_NUM NUM;;
      putv clear_pages;;
      set_R VIRTIO_MMIO_QUEUE_PFN (u32 (Z.shiftr pages PGSHIFT));;
      init_free (Z.to_nat NUM) 0.

(** alloc_desc() *)
Fixpoint alloc_desc_loop (k : nat) (i : Z) : M st Z :=
  match k with
  | O => mret (-1)
  | S k =>
    x ← getv;
    if v_free x i =? 0 then alloc_desc_loop k (i + 1)
    else putv (λ x, set_free (upd (v_free x) i 0) x);; mret i
  end.
Definition alloc_desc : M st Z := alloc_desc_loop (Z.to_nat NUM) 0.

(** free_desc() *)
Definition free_desc (i : Z) : M st unit :=
  if NUM <=? i then panic "virtio_disk_intr 1"
  else
    x ← getv;
    if negb (v_free x i =? 0) then panic "virtio_disk_intr 2"
    else
      putv (λ x, let d := v_desc x i in set_desc (upd (v_desc x) i (mkDesc DNull (dd_len d) (dd_flags d) (dd_next d))) x);;
      putv (λ x, set_free (upd (v_free x) i 1) x);;
      on_sched (sc_wakeup CDiskFree).

(** free_chain(), for at most [fuel] descriptors *)
Fixpoint free_chain (fuel : nat) (i : Z) : M st unit :=
  match fuel with
  | O => no_fuel
  | S fuel =>
    free_desc i;;
    x ← getv;
    if negb (Z.land (dd_flags (v_desc x i)) VRING_DESC_F_NEXT =? 0) then free_chain fuel (dd_next (v_desc x i))
    else mret ()
  end.

(** alloc3_desc(): idx if it returns 0 *)
Fixpoint free_descs (idx : list Z) : M st unit :=
  match idx with
  | [] => mret ()
  | i :: idx => free_desc i;; free_descs idx
  end.
Fixpoint alloc3_loop (k : nat) (idx : list Z) : M st (option (list Z)) :=
  match k with
  | O => mret (Some idx)
  | S k =>
    i ← alloc_desc;
    if i <? 0 then free_descs idx;; mret None
    else alloc3_loop k (idx ++ [i])
  end.
Definition alloc3_desc : M st (option (list Z)) := alloc3_loop 3 [].

(** virtio_disk_rw(): the loop that allocates the descriptors *)
Fixpoint rw_alloc (fuel : nat) : M st (list Z) :=
  r ← alloc3_desc;
  match r with
  | Some idx => mret idx
  | None =>
    match fuel with
    | O => no_fuel
    | S fuel => on_lock (sleep CDiskFree);; rw_alloc fuel
    end
  end.

(** virtio_disk_rw(): formatting the descriptors and telling the device *)
Definition put_desc (i : Z) (d : vdesc) : M st unit := putv (at_desc i d).
Definition put_vbuf (b : Z) (f : buf → buf) : M st unit := putv (at_vbuf b f).
Definition rw_submit (b : Z) (write : bool) (sector i0 i1 i2 : Z) : M st unit :=
  let buf0 := mkHdr (if write then VIRTIO_BLK_T_OUT else VIRTIO_BLK_T_IN) 0 sector in
  put_desc i0 (mkDesc (DHdr buf0) 16 VRING_DESC_F_NEXT i1);;
  put_desc i1 (mkDesc (DData b) BSIZE (Z.lor (if write then 0 else VRING_DESC_F_WRITE) VRING_DESC_F_NEXT) i2);;
  putv (at_info_st i0 0);;
  put_desc i2 (mkDesc (DStatus i0) 1 VRING_DESC_F_WRITE 0);;
  put_vbuf b (Bio.set_disk 1);;
  putv (at_info_b i0 (Some b));;
  putv (put_avail i0);;
  putv next_avail;;
  set_R VIRTIO_MMIO_QUEUE_NOTIFY 0.

(** virtio_disk_rw(): waiting for the interrupt *)
Fixpoint rw_wait (fuel : nat) (b : Z) : M st unit :=
  x ← getv;
  if b_disk (v_bufs x b) =? 1 then
    match fuel with
    | O => no_fuel
    | S fuel => on_lock (sleep (CDiskBuf b));; rw_wait fuel b
    end
  else mret ().

Definition rw_finish (i0 : Z) : M st unit :=
  putv (at_info_b i0 None);;
  free_chain (Z.to_nat NUM) i0.

Definition virtio_disk_rw (fuel : nat) (b : Z) (write : bool) : M st unit :=
  x ← getv;
  let sector := u32 (b_blockno (v_bufs x b) * (BSIZE / 512)) in
  on_lock acq;;
  idx ← rw_alloc fuel;
  match idx with
  | [i0; i1; i2] =>
    rw_submit b write sector i0 i1 i2;;
    rw_wait fuel b;;
    rw_finish i0;;
    on_lock rel
  | _ => no_fuel
  end.

(** virtio_disk_intr(); a null buffer pointer faults, and kerneltrap() panics *)
Fixpoint intr_loop (fuel : nat) : M st unit :=
  x ← getv;
  if v_used_idx x mod NUM =? v_used_id x mod NUM then mret ()
  else
    match fuel with
    | O => no_fuel
    | S fuel =>
      let id := v_used x (v_used_idx x) in
      if negb (v_info_st x id =? 0) then panic "virtio_disk_intr status"
      else
        match v_info_b x id with
        | None => panic "kerneltrap"
        | Some b =>
          put_vbuf b (Bio.set_disk 0);;
          on_sched (sc_wakeup (CDiskBuf b));;
          putv (λ x, set_used_idx ((v_used_idx x + 1) mod NUM) x);;
          intr_loop fuel
        end
    end.
Definition virtio_disk_intr : M st unit :=
  on_lock acq;;
  intr_loop (Z.to_nat NUM);;
  status ← R VIRTIO_MMIO_INTERRUPT_STATUS;
  set_R VIRTIO_MMIO_INTERRUPT_ACK (Z.land status 3);;
  on_lock rel.
End virtio.

(** virtio_disk_rw() as the disk driver that bio.c calls, with the buffer of the buffer cache that it is given *)
Definition virtio_driver {P D : Type} `{Sched P} `{!Device D} (fuel : nat) : Driver P (vdisk D) := {|
  Bio.virtio_disk_rw i w :=
    zoom (λ '(p, x, b), (p, set_vbufs (upd (v_bufs x) i b) x)) (λ '(p, x) _, (p, x, v_bufs x i)) (virtio_disk_rw fuel i w)
|}.
