(* ===== verification/VirtioSpec.v ===== *)
(** virtio_disk.c: threads, the device and the interrupt handler share the descriptors and the
    rings.

    [ginv a E x]: the driver's state [x] is in order with the requests [a] in flight, by how
    far they have come, and the descriptors [E] allocated for no request yet.  [rely b n] is what
    a thread that owns buffer [b] of block [n] may rely on while others run.  The theorems:
    virtio_disk_rw() transfers the block whatever the others do within [rely], and
    what it does itself is within the [rely] of every other thread; so are the steps of the device and
    virtio_disk_intr(). *)
From S2P Require Import Prelude Machine CString Spinlock Sched Sleeplock Bio Log Fs UserMem Shared Virtio.

(** ** The device
    Register accesses do not transfer blocks. *)
Class DeviceOk (D : Type) `{Device D} := {
  dv_taken : D → list Z;   (* heads of chains that it has taken from the avail ring and not finished *)
  dv_read_ok r d : let d' := snd (mmio_read r d) in dv_disk d' = dv_disk d ∧ dv_next d' = dv_next d ∧ dv_taken d' = dv_taken d;
  dv_write_ok r v d : let d' := mmio_write r v d in dv_disk d' = dv_disk d ∧ dv_next d' = dv_next d ∧ dv_taken d' = dv_taken d
}.

(** ** Requests *)
Record req := mkReq { r_i0 : Z; r_i1 : Z; r_i2 : Z; r_buf : Z; r_write : bool; r_sector : Z }.
Definition idxs (r : req) : list Z := [r_i0 r; r_i1 r; r_i2 r].
Definition r_block (r : req) : Z := r_sector r / 2.

(** In the avail ring, taken by the device, in the used ring, and reported to the thread that waits *)
Record stages := mkStages { g_q : list req; g_t : list req; g_s : list req; g_f : list req }.
Definition pend (a : stages) : list req := g_q a ++ g_t a.
Definition fin (a : stages) : list req := g_s a ++ g_f a.
Definition all (a : stages) : list req := pend a ++ fin a.
Definition claimed (l : list req) (E : list Z) : list Z := concat (map idxs l) ++ E.

Lemma claimed_app l1 l2 E : claimed (l1 ++ l2) E ≡ₚ claimed l1 (concat (map idxs l2) ++ E).
Proof. unfold claimed. rewrite map_app, concat_app. solve_Permutation. Qed.

Lemma elem_of_claimed l E i : i ∈ claimed l E ↔ (∃ r, r ∈ l ∧ i ∈ idxs r) ∨ i ∈ E.
Proof.
  unfold claimed. rewrite elem_of_app. apply or_iff_compat_r. induction l as [|r l IH]; cbn [map concat].
  - split; [intros Hi; by apply not_elem_of_nil in Hi|intros (? & Hi & _); by apply not_elem_of_nil in Hi].
  - rewrite elem_of_app, IH. set_solver.
Qed.

Lemma claimed_length l E : length (claimed l E) = (3 * length l + length E)%nat.
Proof. unfold claimed. rewrite length_app. f_equal. induction l as [|r l IH]; [done|]. cbn [map concat length]. rewrite length_app, IH. cbn. lia. Qed.

(** The entries of a ring from [n] on *)
Definition ring (f : Z → Z) (n : Z) (l : list Z) : Prop := ∀ k i, l !! k = Some i → f ((n + Z.of_nat k) mod NUM) = i.

Lemma ring_mod f n m l : n mod NUM = m mod NUM → ring f n l → ring f m l.
Proof.
  intros Hm Hr k i Hk. rewrite <- (Hr k i Hk). f_equal. by rewrite <- (Zplus_mod_idemp_l n), Hm, Zplus_mod_idemp_l.
Qed.

Lemma ring_snoc f n l i m : ring f n l → (length l < 8)%nat → m mod NUM = (n + Z.of_nat (length l)) mod NUM →
  ring (upd f (m mod NUM) i) n (l ++ [i]).
Proof.
  intros Hr Hlen Hm k j Hk. apply lookup_app_Some in Hk as [Hk|[Hge Hk]].
  - rewrite upd_ne; [by apply Hr|]. apply lookup_lt_Some in Hk. rewrite Hm. unfold NUM. zdm.
  - destruct (k - length l)%nat eqn:Ek; [|done]. injection Hk as <-. replace k with (length l) by lia. rewrite Hm. apply upd_eq.
Qed.

Lemma ring_tail f n i l : ring f n (i :: l) → f (n mod NUM) = i ∧ ring f (n + 1) l.
Proof.
  intros Hr. split.
  - rewrite <- (Hr 0%nat i eq_refl). cbn. by rewrite Z.add_0_r.
  - intros k j Hk. rewrite <- (Hr (S k) j Hk). f_equal. f_equal. lia.
Qed.

Section spec.
Context {D : Type} `{DeviceOk D}.
Implicit Types x : vdisk D.

Definition chain x (r : req) : Prop :=
  v_desc x (r_i0 r) = mkDesc (DHdr (mkHdr (if r_write r then VIRTIO_BLK_T_OUT else VIRTIO_BLK_T_IN) 0 (r_sector r))) 16 VRING_DESC_F_NEXT (r_i1 r) ∧
  v_desc x (r_i1 r) = mkDesc (DData (r_buf r)) BSIZE (Z.lor (if r_write r then 0 else VRING_DESC_F_WRITE) VRING_DESC_F_NEXT) (r_i2 r) ∧
  v_desc x (r_i2 r) = mkDesc (DStatus (r_i0 r)) 1 VRING_DESC_F_WRITE 0 ∧
  v_info_b x (r_i0 r) = Some (r_buf r) ∧ v_info_st x (r_i0 r) = 0.

Definition flag x (r : req) : Z := b_disk (v_bufs x (r_buf r)).

(** The descriptors of the requests [l] and of [E] are apart, and the others are free. *)
Record shape (l : list req) (E : list Z) (x : vdisk D) : Prop := {
  sh_nodup : NoDup (claimed l E);
  sh_range : ∀ i, i ∈ claimed l E → 0 ≤ i < NUM;
  sh_free : ∀ i, 0 ≤ i < NUM → v_free x i = if decide (i ∈ claimed l E) then 0 else 1;
  sh_bufs : NoDup (map r_buf l);
  sh_blocks : NoDup (map r_block l);
  sh_chain : ∀ r, r ∈ l → chain x r
}.

Record ginv (a : stages) (E : list Z) (x : vdisk D) : Prop := {
  gi_shape : shape (all a) E x;
  gi_busy : ∀ r, r ∈ pend a ++ g_s a → flag x r = 1;
  gi_done : ∀ r, r ∈ g_f a → flag x r = 0;
  gi_avail : ring (v_avail x) (dv_next (v_dev x)) (map r_i0 (g_q a));
  gi_next : 0 ≤ dv_next (v_dev x) < 2 ^ 16 ∧ v_avail_idx x = u16 (dv_next (v_dev x) + Z.of_nat (length (g_q a)));
  gi_taken : map r_i0 (g_t a) = dv_taken (v_dev x);
  gi_used : ring (v_used x) (v_used_idx x) (map r_i0 (g_s a));
  gi_uidx : 0 ≤ v_used_idx x < NUM ∧ v_used_id x mod NUM = (v_used_idx x + Z.of_nat (length (g_s a))) mod NUM
}.

Lemma claimed_perm l l' E E' : l ≡ₚ l' → E ≡ₚ E' → claimed l E ≡ₚ claimed l' E'.
Proof.
  unfold claimed. intros Hl HE. apply Permutation_app; [|done]. induction Hl as [|r l l' _ IH|r r' l|l1 l2 l3 _ IH1 _ IH2]; cbn [map concat].
  - done.
  - by apply Permutation_app.
  - solve_Permutation.
  - by transitivity (concat (map idxs l2)).
Qed.

Lemma shape_perm l l' E E' x : l ≡ₚ l' → E ≡ₚ E' → shape l E x → shape l' E' x.
Proof.
  intros Hl HE Hs. pose proof (claimed_perm l l' E E' Hl HE) as Hc. split.
  - rewrite <- Hc. apply Hs.
  - intros i. rewrite <- Hc. apply Hs.
  - intros i Hi. rewrite (sh_free _ _ _ Hs i Hi). apply decide_ext. by rewrite Hc.
  - rewrite <- Hl. apply Hs.
  - rewrite <- Hl. apply Hs.
  - intros r. rewrite <- Hl. apply Hs.
Qed.

(** There are descriptors for two requests. *)
Lemma nodup_bound (l : list Z) n : NoDup l → (∀ i, i ∈ l → 0 ≤ i < n) → Z.of_nat (length l) ≤ Z.max 0 n.
Proof.
  intros Hnd Hr. assert (Hs : l ⊆+ seqZ 0 n) by (apply NoDup_submseteq; [done|]; intros i Hi; apply elem_of_seqZ; specialize (Hr i Hi); lia).
  apply submseteq_length in Hs. rewrite length_seqZ in Hs. lia.
Qed.

Lemma ginv_two a E x : ginv a E x → (3 * length (all a) + length E ≤ 8)%nat.
Proof.
  intros Hg. pose proof (nodup_bound _ NUM (sh_nodup _ _ _ (gi_shape _ _ _ Hg)) (sh_range _ _ _ (gi_shape _ _ _ Hg))) as Hb. rewrite claimed_length in Hb. unfold NUM in Hb. lia.
Qed.

Lemma all_length a : length (all a) = (length (g_q a) + length (g_t a) + length (g_s a) + length (g_f a))%nat.
Proof. unfold all, pend, fin. rewrite !length_app. lia. Qed.

Lemma shape_same l E x x' : shape l E x → v_free x' = v_free x → v_desc x' = v_desc x → v_info_b x' = v_info_b x →
  v_info_st x' = v_info_st x → shape l E x'.
Proof.
  intros [? ? ? ? ? Hc] E1 E2 E3 E4. split; try done; [by rewrite E1|]. intros r Hr. specialize (Hc r Hr). unfold chain. by rewrite E2, E3, E4.
Qed.

Lemma ginv_lk a E x lk : ginv a E x → ginv a E (set_vlock lk x).
Proof. intros [Hs ? ? ? ? ? ? ?]. split; try done. by eapply shape_same. Qed.

Lemma ginv_dev a E x d : ginv a E x → dv_next d = dv_next (v_dev x) → dv_taken d = dv_taken (v_dev x) → ginv a E (set_dev d x).
Proof. intros [? ? ? ? ? ? ? ?] E1 E2. split; try done; cbn; rewrite ?E1, ?E2; try done. by eapply shape_same. Qed.

(** ** Allocating and freeing descriptors *)
Lemma shape_alloc l E x i : shape l E x → 0 ≤ i < NUM → v_free x i ≠ 0 → shape l (E ++ [i]) (set_free (upd (v_free x) i 0) x).
Proof.
  intros Hg Hi Hf. assert (Hn : i ∉ claimed l E).
  { intros Hin. rewrite (sh_free _ _ _ Hg i Hi) in Hf. by rewrite decide_True in Hf. }
  assert (Hc : claimed l (E ++ [i]) = claimed l E ++ [i]) by (unfold claimed; by rewrite app_assoc).
  split; rewrite ?Hc; try apply Hg.
  - apply NoDup_app. split_and!; [apply Hg| |apply NoDup_singleton]. intros j Hj ->%list_elem_of_singleton. done.
  - intros j [Hj| ->%list_elem_of_singleton]%elem_of_app; [by apply (sh_range _ _ _ Hg)|done].
  - intros j Hj. cbn. unfold upd. destruct (Z.eqb_spec j i) as [->|Hne].
    + rewrite decide_True; [done|]. set_solver.
    + rewrite (sh_free _ _ _ Hg j Hj). apply decide_ext. rewrite elem_of_app, list_elem_of_singleton. naive_solver.
Qed.

Lemma ginv_alloc a E x i : ginv a E x → 0 ≤ i < NUM → v_free x i ≠ 0 → ginv a (E ++ [i]) (set_free (upd (v_free x) i 0) x).
Proof. intros [Hs ? ? ? ? ? ? ?] Hi Hf. split; try done. by apply shape_alloc. Qed.

(** What free_desc() does *)
Definition freed (i : Z) x : vdisk D :=
  let d := v_desc x i in
  set_free (upd (v_free x) i 1) (set_desc (upd (v_desc x) i (mkDesc DNull (dd_len d) (dd_flags d) (dd_next d))) x).

Lemma chain_desc x r i d : chain x r → i ∉ idxs r → chain (set_desc (upd (v_desc x) i d) x) r.
Proof.
  intros (Hd0 & Hd1 & Hd2 & Hb & Hs) Hi. unfold idxs in Hi. split_and!; cbn; try done; rewrite upd_ne; set_solver.
Qed.

Lemma shape_freed l E1 E2 x i : shape l (E1 ++ i :: E2) x → shape l (E1 ++ E2) (freed i x).
Proof.
  intros Hg. assert (Hc : claimed l (E1 ++ i :: E2) ≡ₚ i :: claimed l (E1 ++ E2)) by (unfold claimed; solve_Permutation).
  pose proof (sh_nodup _ _ _ Hg) as Hnd. rewrite Hc in Hnd. apply NoDup_cons in Hnd as [Hi Hnd].
  split; try apply Hg.
  - done.
  - intros j Hj. apply (sh_range _ _ _ Hg). rewrite Hc. by right.
  - intros j Hj. cbn. unfold upd. destruct (Z.eqb_spec j i) as [->|Hne]; [by rewrite decide_False|].
    rewrite (sh_free _ _ _ Hg j Hj). apply decide_ext. rewrite Hc, elem_of_cons. naive_solver.
  - intros r Hr. apply chain_desc; [by apply (sh_chain _ _ _ Hg)|]. intros Hir. apply Hi. apply elem_of_claimed. left. eauto.
Qed.

Lemma ginv_freed a E1 E2 x i : ginv a (E1 ++ i :: E2) x → ginv a (E1 ++ E2) (freed i x).
Proof. intros [Hs ? ? ? ? ? ? ?]. split; try done. by apply shape_freed. Qed.

Lemma freed_free a E1 E2 x i : ginv a (E1 ++ i :: E2) x → 0 ≤ i < NUM ∧ v_free x i = 0.
Proof.
  intros [Hs _ _ _ _ _ _ _]. assert (Hin : i ∈ claimed (all a) (E1 ++ i :: E2)) by (apply elem_of_claimed; right; set_solver).
  pose proof (sh_range _ _ _ Hs i Hin). split; [done|]. by rewrite (sh_free _ _ _ Hs i), decide_True.
Qed.

(** ** The life of a request
    rw_submit() *)
Definition submitted (r : req) x : vdisk D :=
  let hdr := mkHdr (if r_write r then VIRTIO_BLK_T_OUT else VIRTIO_BLK_T_IN) 0 (r_sector r) in
  at_R VIRTIO_MMIO_QUEUE_NOTIFY 0
    (next_avail (put_avail (r_i0 r) (at_info_b (r_i0 r) (Some (r_buf r)) (at_vbuf (r_buf r) (Bio.set_disk 1)
    (at_desc (r_i2 r) (mkDesc (DStatus (r_i0 r)) 1 VRING_DESC_F_WRITE 0) (at_info_st (r_i0 r) 0
    (at_desc (r_i1 r) (mkDesc (DData (r_buf r)) BSIZE (Z.lor (if r_write r then 0 else VRING_DESC_F_WRITE) VRING_DESC_F_NEXT) (r_i2 r))
    (at_desc (r_i0 r) (mkDesc (DHdr hdr) 16 VRING_DESC_F_NEXT (r_i1 r)) x)))))))).

(** Its fields *)
Lemma submitted_fields r x : let x' := submitted r x in
  v_bufs x' = upd (v_bufs x) (r_buf r) (Bio.set_disk 1 (v_bufs x (r_buf r))) ∧ v_free x' = v_free x ∧
  v_avail x' = upd (v_avail x) (v_avail_idx x mod NUM) (r_i0 r) ∧ v_avail_idx x' = u16 (v_avail_idx x + 1) ∧
  dv_next (v_dev x') = dv_next (v_dev x) ∧ dv_taken (v_dev x') = dv_taken (v_dev x) ∧ dv_disk (v_dev x') = dv_disk (v_dev x) ∧
  v_used x' = v_used x ∧ v_used_idx x' = v_used_idx x ∧ v_used_id x' = v_used_id x ∧ vdisk_lock x' = vdisk_lock x.
Proof.
  cbn. destruct (dv_write_ok VIRTIO_MMIO_QUEUE_NOTIFY 0 (v_dev x)) as (E1 & E2 & E3). split_and!; done.
Qed.

Definition idle (b n : Z) (a : stages) : Prop := ∀ r, r ∈ all a → r_buf r ≠ b ∧ r_block r ≠ n.
Definition add_q (r : req) (a : stages) : stages := mkStages (g_q a ++ [r]) (g_t a) (g_s a) (g_f a).

Lemma all_add_q r a : all (add_q r a) ≡ₚ r :: all a.
Proof. unfold all, pend, fin, add_q. cbn. solve_Permutation. Qed.

Lemma shape_submit l r x : shape l (idxs r) x → (∀ r', r' ∈ l → r_buf r' ≠ r_buf r ∧ r_block r' ≠ r_block r) →
  shape (r :: l) [] (submitted r x).
Proof.
  intros Hs Hidle. assert (Hc : claimed (r :: l) [] ≡ₚ claimed l (idxs r)) by (unfold claimed; cbn [map concat]; solve_Permutation).
  pose proof (sh_nodup _ _ _ Hs) as Hnd. unfold claimed in Hnd. apply NoDup_app in Hnd as (_ & Hd & Hnd).
  assert (Hne : r_i0 r ≠ r_i1 r ∧ r_i0 r ≠ r_i2 r ∧ r_i1 r ≠ r_i2 r).
  { unfold idxs in Hnd. rewrite !NoDup_cons in Hnd. set_solver. }
  split.
  - rewrite Hc. apply Hs.
  - intros i. rewrite Hc. apply Hs.
  - intros i Hi. rewrite (sh_free _ _ _ Hs i Hi : v_free (submitted r x) i = _). apply decide_ext. by rewrite Hc.
  - cbn [map]. constructor; [|apply Hs]. intros (r' & E & Hr')%list_elem_of_fmap. destruct (Hidle r' Hr'). congruence.
  - cbn [map]. constructor; [|apply Hs]. intros (r' & E & Hr')%list_elem_of_fmap. destruct (Hidle r' Hr'). congruence.
  - intros r' [->|Hr']%elem_of_cons.
    + destruct Hne as (N1 & N2 & N3). unfold chain. cbn. unfold upd. repeat (rewrite ?Z.eqb_refl; match goal with |- context [?u =? ?v] => destruct (Z.eqb_spec u v); [congruence|] end).
      rewrite ?Z.eqb_refl. done.
    + destruct (sh_chain _ _ _ Hs r' Hr') as (H0' & H1' & H2' & H3' & H4').
      assert (Hout : ∀ i, i ∈ idxs r' → i ≠ r_i0 r ∧ i ≠ r_i1 r ∧ i ≠ r_i2 r).
      { intros i Hi. assert (Hin : i ∈ claimed l []) by (apply elem_of_claimed; left; eauto).
        unfold claimed in Hin. rewrite app_nil_r in Hin. specialize (Hd i Hin). unfold idxs in Hd. set_solver. }
      destruct (Hout (r_i0 r')) as (? & ? & ?); [unfold idxs; set_solver|]. destruct (Hout (r_i1 r')) as (? & ? & ?); [unfold idxs; set_solver|].
      destruct (Hout (r_i2 r')) as (? & ? & ?); [unfold idxs; set_solver|]. split_and!; cbn; by rewrite !upd_ne.
Qed.

Lemma u16_mod v : u16 v mod NUM = v mod NUM.
Proof. unfold u16, NUM. zdm. Qed.

Lemma ginv_submit a r x : ginv a (idxs r) x → idle (r_buf r) (r_block r) a →
  ginv (add_q r a) [] (submitted r x).
Proof.
  intros Hg Hidle. pose proof (ginv_two _ _ _ Hg) as Htwo. rewrite all_length in Htwo. cbn [length idxs] in Htwo.
  destruct (submitted_fields r x) as (Eb & _ & Ea & Ei & E1 & E2 & _ & Eu1 & Eu2 & Eu3 & _). cbv zeta in *.
  assert (Hflag : ∀ r', flag (submitted r x) r' = if r_buf r' =? r_buf r then 1 else flag x r').
  { intros r'. unfold flag. rewrite Eb. unfold upd. by destruct (r_buf r' =? r_buf r). }
  split.
  - eapply shape_perm; [symmetry; apply all_add_q|done|]. apply shape_submit; [apply Hg|exact Hidle].
  - intros r' Hr'. rewrite Hflag. destruct (Z.eqb_spec (r_buf r') (r_buf r)) as [_|Hne]; [done|].
    apply (gi_busy _ _ _ Hg). unfold pend, add_q in *. cbn in Hr'. set_solver.
  - intros r' Hr'. rewrite Hflag. destruct (Z.eqb_spec (r_buf r') (r_buf r)) as [E|Hne]; [|by apply (gi_done _ _ _ Hg)].
    exfalso. destruct (Hidle r') as [Hn _]; [|done]. unfold all, fin. cbn in Hr'. set_solver.
  - rewrite E1, Ea. cbn [g_q add_q]. rewrite map_app. cbn [map]. apply ring_snoc; [apply Hg|rewrite length_map; lia|].
    rewrite length_map, (proj2 (gi_next _ _ _ Hg)). apply u16_mod.
  - rewrite E1, Ei. split; [apply Hg|]. cbn [g_q add_q]. rewrite (proj2 (gi_next _ _ _ Hg)), length_app. cbn [length]. unfold u16. zdm.
  - rewrite E2. apply Hg.
  - rewrite Eu1, Eu2. apply Hg.
  - rewrite Eu2, Eu3. apply Hg.
Qed.

(** rw_finish(): before the chain is freed *)
Definition drop_f (f1 f2 : list req) (a : stages) : stages := mkStages (g_q a) (g_t a) (g_s a) (f1 ++ f2).

Lemma ginv_finish a r f1 f2 x : ginv a [] x → g_f a = f1 ++ r :: f2 →
  ginv (drop_f f1 f2 a) (idxs r) (at_info_b (r_i0 r) None x).
Proof.
  intros Hg Ef. assert (Hall : all a ≡ₚ r :: all (drop_f f1 f2 a)) by (unfold all, pend, fin, drop_f; rewrite Ef; cbn; solve_Permutation).
  pose proof (shape_perm _ _ _ _ _ Hall (reflexivity []) (gi_shape _ _ _ Hg)) as Hs. set (l := all (drop_f f1 f2 a)) in *.
  assert (Hc : claimed (r :: l) [] ≡ₚ claimed l (idxs r)) by (unfold claimed; cbn [map concat]; solve_Permutation).
  assert (Hin : ∀ r', r' ∈ f1 ++ f2 → r' ∈ g_f a) by (intros r'; rewrite Ef; set_solver).
  split; try apply Hg; [|intros r' Hr'; apply (gi_done _ _ _ Hg); by apply Hin].
  fold l. split.
  - rewrite <- Hc. apply Hs.
  - intros i. rewrite <- Hc. apply Hs.
  - intros i Hi. cbn. rewrite (sh_free _ _ _ Hs i Hi). apply decide_ext. by rewrite Hc.
  - pose proof (sh_bufs _ _ _ Hs) as Hb. by apply NoDup_cons in Hb as [_ ?].
  - pose proof (sh_blocks _ _ _ Hs) as Hb. by apply NoDup_cons in Hb as [_ ?].
  - intros r' Hr'. destruct (sh_chain _ _ _ Hs r' ltac:(by right)) as (H0' & H1' & H2' & H3' & H4'). split_and!; try done.
    cbn. rewrite upd_ne; [done|]. intros E. pose proof (sh_nodup _ _ _ Hs) as Hnd. unfold claimed in Hnd. rewrite app_nil_r in Hnd. cbn [map concat] in Hnd.
    apply NoDup_app in Hnd as (_ & Hd & _). apply (Hd (r_i0 r)); [unfold idxs; set_solver|].
    assert (Hi : r_i0 r ∈ claimed l []) by (apply elem_of_claimed; left; exists r'; split; [done|rewrite <- E; unfold idxs; set_solver]).
    unfold claimed in Hi. by rewrite app_nil_r in Hi.
Qed.

(** The device takes an entry of the avail ring. *)
Definition take_q (r : req) (q : list req) (a : stages) : stages := mkStages q (g_t a ++ [r]) (g_s a) (g_f a).

Lemma ginv_take a r q x d : ginv a [] x → g_q a = r :: q → dv_next d = u16 (dv_next (v_dev x) + 1) →
  dv_taken d = dv_taken (v_dev x) ++ [v_avail x (dv_next (v_dev x) mod NUM)] → ginv (take_q r q a) [] (set_dev d x).
Proof.
  intros Hg Eq E1 E2. pose proof (gi_avail _ _ _ Hg) as Hr. rewrite Eq in Hr. cbn [map] in Hr. apply ring_tail in Hr as [Hi Hr].
  destruct (gi_next _ _ _ Hg) as [Hn Ha]. split; try apply Hg.
  - apply (shape_same _ _ x); [|done..]. eapply shape_perm; [|done|apply (gi_shape _ _ _ Hg)]. unfold all, pend, fin, take_q. rewrite Eq. cbn. solve_Permutation.
  - intros r' Hr'. apply (gi_busy _ _ _ Hg). unfold pend, take_q in *. cbn in Hr'. rewrite Eq. set_solver.
  - cbn. rewrite E1. eapply ring_mod; [|exact Hr]. by rewrite u16_mod.
  - cbn. rewrite E1, Ha, Eq. cbn [length]. unfold u16. zdm.
  - cbn. by rewrite E2, Hi, map_app, (gi_taken _ _ _ Hg).
Qed.

(** The device transfers the block of a request that it has taken: it follows the chain from descriptor [i],
    writes 0 to the status byte and puts the head of the chain into the used ring. *)
Definition served_disk (i : Z) x : Z → list Z :=
  let d1 := v_desc x (dd_next (v_desc x i)) in
  match dd_addr (v_desc x i), dd_addr d1 with
  | DHdr h, DData b =>
    if h_type h =? VIRTIO_BLK_T_OUT then upd (dv_disk (v_dev x)) (h_sector h / 2) (b_data (v_bufs x b)) else dv_disk (v_dev x)
  | _, _ => dv_disk (v_dev x)
  end.
Definition served_bufs (i : Z) x : Z → buf :=
  let d1 := v_desc x (dd_next (v_desc x i)) in
  match dd_addr (v_desc x i), dd_addr d1 with
  | DHdr h, DData b =>
    if h_type h =? VIRTIO_BLK_T_OUT then v_bufs x else upd (v_bufs x) b (set_data (dv_disk (v_dev x) (h_sector h / 2)) (v_bufs x b))
  | _, _ => v_bufs x
  end.
Definition served_st (i : Z) x : Z → Z :=
  match dd_addr (v_desc x (dd_next (v_desc x (dd_next (v_desc x i))))) with
  | DStatus j => upd (v_info_st x) j 0
  | _ => v_info_st x
  end.
Definition served (i : Z) (d : D) x : vdisk D :=
  mkV (vdisk_lock x) (v_desc x) (v_avail x) (v_avail_idx x) (u16 (v_used_id x + 1)) (upd (v_used x) (v_used_id x mod NUM) i)
    (v_free x) (v_used_idx x) (v_info_b x) (served_st i x) (served_bufs i x) d.

(** What the device may do: take an entry, transfer the block of an entry that it has taken, in any order *)
Inductive dev_step : vdisk D → vdisk D → Prop :=
| dev_take x d :
    dv_next (v_dev x) ≠ v_avail_idx x → dv_next d = u16 (dv_next (v_dev x) + 1) → dv_disk d = dv_disk (v_dev x) →
    dv_taken d = dv_taken (v_dev x) ++ [v_avail x (dv_next (v_dev x) mod NUM)] → dev_step x (set_dev d x)
| dev_serve x i t1 t2 d :
    dv_taken (v_dev x) = t1 ++ i :: t2 → dv_taken d = t1 ++ t2 → dv_next d = dv_next (v_dev x) →
    dv_disk d = served_disk i x → dev_step x (served i d x).

Definition serve_t (r : req) (t1 t2 : list req) (a : stages) : stages := mkStages (g_q a) (t1 ++ t2) (g_s a ++ [r]) (g_f a).

(** What a request transfers *)
Lemma served_eq x r d : chain x r →
  served (r_i0 r) d x =
    mkV (vdisk_lock x) (v_desc x) (v_avail x) (v_avail_idx x) (u16 (v_used_id x + 1)) (upd (v_used x) (v_used_id x mod NUM) (r_i0 r))
      (v_free x) (v_used_idx x) (v_info_b x) (v_info_st x)
      (if r_write r then v_bufs x else upd (v_bufs x) (r_buf r) (set_data (dv_disk (v_dev x) (r_block r)) (v_bufs x (r_buf r)))) d ∧
  served_disk (r_i0 r) x = if r_write r then upd (dv_disk (v_dev x)) (r_block r) (b_data (v_bufs x (r_buf r))) else dv_disk (v_dev x).
Proof.
  intros (H0' & H1' & H2' & H3' & H4'). unfold served, served_st, served_bufs, served_disk. rewrite H0'. cbn [dd_next dd_addr]. rewrite H1'.
  cbn [dd_next dd_addr]. rewrite H2'. cbn [dd_addr h_type h_sector]. rewrite <- H4', upd_id. split; [f_equal|]; by destruct (r_write r).
Qed.

Lemma ginv_serve a r t1 t2 x d : ginv a [] x → g_t a = t1 ++ r :: t2 → dv_next d = dv_next (v_dev x) →
  dv_taken d = map r_i0 (t1 ++ t2) → ginv (serve_t r t1 t2 a) [] (served (r_i0 r) d x).
Proof.
  intros Hg Et E1 E2. assert (Hall : all a ≡ₚ all (serve_t r t1 t2 a)) by (unfold all, pend, fin, serve_t; rewrite Et; cbn; solve_Permutation).
  assert (Hr : r ∈ all a) by (unfold all, pend; rewrite Et; set_solver).
  rewrite (proj1 (served_eq x r d (sh_chain _ _ _ (gi_shape _ _ _ Hg) r Hr))).
  pose proof (ginv_two _ _ _ Hg) as Htwo. rewrite all_length in Htwo. destruct (gi_uidx _ _ _ Hg) as [Hu1 Hu2].
  assert (Hflag : ∀ r' x', v_bufs x' = (if r_write r then v_bufs x else upd (v_bufs x) (r_buf r) (set_data (dv_disk (v_dev x) (r_block r)) (v_bufs x (r_buf r)))) →
    flag x' r' = flag x r').
  { intros r' x' Hb. unfold flag. rewrite Hb. destruct (r_write r); [done|]. unfold upd. by destruct (Z.eqb_spec (r_buf r') (r_buf r)) as [->|]. }
  split; try apply Hg.
  - apply (shape_same _ _ x); [|done..]. by eapply shape_perm; [exact Hall|done|apply (gi_shape _ _ _ Hg)].
  - intros r' Hr'. rewrite Hflag by done. apply (gi_busy _ _ _ Hg). unfold pend, serve_t in *. cbn in Hr'. rewrite Et. set_solver.
  - intros r' Hr'. rewrite Hflag by done. by apply (gi_done _ _ _ Hg).
  - cbn. rewrite E1. apply Hg.
  - cbn. rewrite E1. apply Hg.
  - cbn. by rewrite E2.
  - cbn. rewrite map_app. apply ring_snoc; [apply Hg|rewrite length_map; lia|by rewrite length_map].
  - cbn. split; [done|]. rewrite length_app, u16_mod, <- Zplus_mod_idemp_l, Hu2, Zplus_mod_idemp_l. cbn [length]. f_equal. lia.
Qed.

(** virtio_disk_intr() tells the thread that waits for a request. *)
Definition signalled (b : Z) x : vdisk D :=
  set_used_idx ((v_used_idx x + 1) mod NUM) (set_vbufs (upd (v_bufs x) b (Bio.set_disk 0 (v_bufs x b))) x).
Definition signal_s (r : req) (s : list req) (a : stages) : stages := mkStages (g_q a) (g_t a) s (g_f a ++ [r]).

Lemma NoDup_map_eq {A B} (f : A → B) l u v : NoDup (map f l) → u ∈ l → v ∈ l → f u = f v → u = v.
Proof.
  induction l as [|z l IH]; cbn [map]; [intros _ Hx; by apply not_elem_of_nil in Hx|]. intros [Hz Hnd]%NoDup_cons Hx Hy E.
  apply elem_of_cons in Hx as [->|Hx]; apply elem_of_cons in Hy as [->|Hy]; [done|..|by apply IH].
  - destruct Hz. apply list_elem_of_fmap. eauto.
  - destruct Hz. apply list_elem_of_fmap. eauto.
Qed.

Lemma ginv_signal a r s x : ginv a [] x → g_s a = r :: s →
  ginv (signal_s r s a) [] (signalled (r_buf r) x) ∧ v_used x (v_used_idx x) = r_i0 r ∧ chain x r ∧ v_used_idx x mod NUM ≠ v_used_id x mod NUM.
Proof.
  intros Hg Es. assert (Hall : all a ≡ₚ all (signal_s r s a)) by (unfold all, pend, fin, signal_s; rewrite Es; cbn; solve_Permutation).
  assert (Hr : r ∈ all a) by (unfold all, fin; rewrite Es; set_solver).
  pose proof (ginv_two _ _ _ Hg) as Htwo. rewrite all_length, Es in Htwo. cbn [length] in Htwo. destruct (gi_uidx _ _ _ Hg) as [Hu1 Hu2].
  rewrite Es in Hu2. cbn [length] in Hu2. pose proof (gi_used _ _ _ Hg) as Hring. rewrite Es in Hring. cbn [map] in Hring. apply ring_tail in Hring as [Hi Hring].
  assert (Hnd : NoDup (map r_buf (r :: pend a ++ s ++ g_f a))).
  { eapply NoDup_Permutation_proper; [|apply (sh_bufs _ _ _ (gi_shape _ _ _ Hg))].
    apply Permutation_map. unfold all, fin. rewrite Es. solve_Permutation. }
  cbn [map] in Hnd. apply NoDup_cons in Hnd as [Hrn _].
  assert (Hother : ∀ r', r' ∈ pend a ++ s ++ g_f a → flag (signalled (r_buf r) x) r' = flag x r').
  { intros r' Hr'. unfold flag. cbn. rewrite upd_ne; [done|]. intros E. apply Hrn. apply list_elem_of_fmap. by exists r'. }
  split_and!; [split; try apply Hg| |by apply (gi_shape _ _ _ Hg)|].
  - apply (shape_same _ _ x); [|done..]. by eapply shape_perm; [exact Hall|done|apply (gi_shape _ _ _ Hg)].
  - intros r' Hr'. cbn in Hr'. rewrite Hother by set_solver. apply (gi_busy _ _ _ Hg). rewrite Es. unfold pend in *. cbn in Hr'. set_solver.
  - intros r' [Hr'| ->%list_elem_of_singleton]%elem_of_app; [rewrite Hother by set_solver; by apply (gi_done _ _ _ Hg)|].
    unfold flag. cbn. by rewrite upd_eq.
  - cbn. eapply ring_mod; [|exact Hring]. by rewrite Zmod_mod.
  - cbn. split; [apply Z.mod_pos_bound; done|]. rewrite Zplus_mod_idemp_l, Hu2. f_equal. lia.
  - by rewrite Z.mod_small in Hi.
  - rewrite Hu2. unfold NUM in *. zdm.
Qed.

(** The requests in flight are determined by the driver's state. *)
Lemma chain_inj x r r' : chain x r → chain x r' → r_i0 r = r_i0 r' → r = r'.
Proof.
  destruct r as [i0 i1 i2 b w sec], r' as [i0' i1' i2' b' w' sec']. unfold chain. cbn. intros (A0 & A1 & _ & A3 & _) (B0 & B1 & _ & B3 & _) <-.
  rewrite A0 in B0. injection B0 as Ew Es <-. rewrite A1 in B1. injection B1 as -> _ <-.
  f_equal; [|done]. by destruct w, w'.
Qed.

Lemma ginv_unique a a' x r : ginv a [] x → ginv a' [] x → r ∈ all a → r ∈ all a'.
Proof.
  intros [Hs _ _ _ _ _ _ _] [Hs' _ _ _ _ _ _ _] Hr. pose proof (sh_chain _ _ _ Hs r Hr) as Hc.
  assert (Hin : r_i0 r ∈ claimed (all a) []) by (apply elem_of_claimed; left; exists r; split; [done|unfold idxs; set_solver]).
  pose proof (sh_range _ _ _ Hs _ Hin) as Hrange.
  assert (Hin' : r_i0 r ∈ claimed (all a') []).
  { pose proof (sh_free _ _ _ Hs' _ Hrange) as Hf. rewrite (sh_free _ _ _ Hs _ Hrange), decide_True in Hf by done. by destruct (decide _). }
  apply elem_of_claimed in Hin' as [(r' & Hr' & Hi)|Hi]; [|by apply not_elem_of_nil in Hi].
  pose proof (sh_chain _ _ _ Hs' r' Hr') as Hc'. assert (E : r_i0 r = r_i0 r').
  { destruct Hc as (A0 & _), Hc' as (_ & B1 & B2 & _). unfold idxs in Hi. apply elem_of_cons in Hi as [E|[E|E%list_elem_of_singleton]%elem_of_cons]; [done|..].
    - rewrite <- E, A0 in B1. done.
    - rewrite <- E, A0 in B2. done. }
  by rewrite (chain_inj x r r' Hc Hc' E).
Qed.

Lemma idle_unique a a' x b n : ginv a [] x → ginv a' [] x → idle b n a → idle b n a'.
Proof. intros Hg Hg' Hi r Hr. apply Hi. by eapply ginv_unique. Qed.

(** ** What a thread may rely on *)
Definition blk x (n : Z) : list Z := dv_disk (v_dev x) n.
Definition same (b n : Z) x x' : Prop := v_bufs x' b = Bio.set_disk (b_disk (v_bufs x' b)) (v_bufs x b) ∧ blk x' n = blk x n.
(** The transfer of a request *)
Definition moved (w : bool) (b n : Z) x x' : Prop :=
  if w then v_bufs x' b = Bio.set_disk (b_disk (v_bufs x' b)) (v_bufs x b) ∧ blk x' n = b_data (v_bufs x b)
  else v_bufs x' b = Bio.set_disk (b_disk (v_bufs x' b)) (set_data (blk x n) (v_bufs x b)) ∧ blk x' n = blk x n.

(** For the owner of buffer [b] and block [n]: without a request, neither changes; a request is there until its
    thread ends it, and its block is transferred once. *)
Definition rely (b n : Z) x x' : Prop := ∀ a, ginv a [] x → ∃ a', ginv a' [] x' ∧
  (idle b n a → idle b n a' ∧ v_bufs x' b = v_bufs x b ∧ blk x' n = blk x n) ∧
  (∀ r, r_buf r = b → r_block r = n →
     (r ∈ pend a → (r ∈ pend a' ∧ same b n x x') ∨ (r ∈ fin a' ∧ moved (r_write r) b n x x')) ∧
     (r ∈ fin a → r ∈ fin a' ∧ same b n x x')).

Lemma same_refl b n x : same b n x x.
Proof. split; [|done]. by destruct (v_bufs x b). Qed.

Lemma rely_refl b n x : rely b n x x.
Proof.
  intros a Hg. exists a. split; [done|]. split; [done|]. intros r _ _. pose proof (same_refl b n x). split; [by left|done].
Qed.

Lemma rely_trans b n x1 x2 x3 : rely b n x1 x2 → rely b n x2 x3 → rely b n x1 x3.
Proof.
  intros H12 H23 a Hg. destruct (H12 a Hg) as (a2 & Hg2 & Hi2 & Hr2). destruct (H23 a2 Hg2) as (a3 & Hg3 & Hi3 & Hr3).
  exists a3. split; [done|]. split.
  - intros Hi. destruct (Hi2 Hi) as (Hi' & E1 & E2). destruct (Hi3 Hi') as (Hi'' & E3 & E4). split; [done|]. by rewrite E3, E4, E1, E2.
  - intros r Hb Hn. destruct (Hr2 r Hb Hn) as [Hp2 Hf2], (Hr3 r Hb Hn) as [Hp3 Hf3]. unfold same, moved in *. split.
    + intros Hp. destruct (Hp2 Hp) as [(Hp' & E1 & E2)|(Hf & Hm)].
      * destruct (Hp3 Hp') as [(Hp'' & E3 & E4)|(Hf & Hm)]; [left; rewrite E3, E4, E1, E2; done|right; split; [done|]].
        destruct (r_write r), Hm as [E3 E4]; rewrite E3, E4, E1, ?E2; done.
      * destruct (Hf3 Hf) as (Hf' & E3 & E4). right. split; [done|]. destruct (r_write r), Hm as [E1 E2]; rewrite E3, E4, E1, E2; done.
    + intros Hf. destruct (Hf2 Hf) as (Hf' & E1 & E2). destruct (Hf3 Hf') as (Hf'' & E3 & E4). split; [done|]. by rewrite E3, E4, E1, E2.
Qed.

(** The device *)
Lemma idle_perm b n a a' : all a' ≡ₚ all a → idle b n a → idle b n a'.
Proof. intros Hp Hi r Hr. apply Hi. by rewrite <- Hp. Qed.

Lemma map_split {A B} (f : A → B) l l1 y l2 : map f l = l1 ++ y :: l2 →
  ∃ k1 z k2, l = k1 ++ z :: k2 ∧ map f k1 = l1 ∧ f z = y ∧ map f k2 = l2.
Proof.
  revert l. induction l1 as [|c l1 IH]; intros [|z l] E; cbn in E; try done.
  - injection E as <- <-. by exists [], z, l.
  - injection E as <- E. destruct (IH l E) as (k1 & z' & k2 & -> & <- & <- & <-). by exists (z :: k1), z', k2.
Qed.

(** Unchanged requests, for the owner of another buffer *)
Lemma rely_at b n x x' a a' : (idle b n a → idle b n a') → v_bufs x' b = v_bufs x b → blk x' n = blk x n →
  (∀ r, r_buf r = b → r_block r = n → (r ∈ pend a → r ∈ pend a') ∧ (r ∈ fin a → r ∈ fin a')) →
  (idle b n a → idle b n a' ∧ v_bufs x' b = v_bufs x b ∧ blk x' n = blk x n) ∧
  (∀ r, r_buf r = b → r_block r = n →
     (r ∈ pend a → (r ∈ pend a' ∧ same b n x x') ∨ (r ∈ fin a' ∧ moved (r_write r) b n x x')) ∧
     (r ∈ fin a → r ∈ fin a' ∧ same b n x x')).
Proof.
  intros Hi Hb Hn Hr. assert (Hsame : same b n x x') by (split; [rewrite Hb; by destruct (v_bufs x b)|done]).
  split; [intros Ha; split; [by apply Hi|done]|]. intros r Eb En. destruct (Hr r Eb En) as [Hp Hf]. split; [left|]; auto.
Qed.

Lemma pend_fin a x r : ginv a [] x → r ∈ pend a → r ∈ fin a → False.
Proof.
  intros Hg Hp Hf. pose proof (sh_bufs _ _ _ (gi_shape _ _ _ Hg)) as Hnd. unfold all in Hnd. rewrite map_app in Hnd.
  apply NoDup_app in Hnd as (_ & Hd & _). apply (Hd (r_buf r)); apply list_elem_of_fmap; eauto.
Qed.

Lemma rely_take b n x d : dv_next (v_dev x) ≠ v_avail_idx x → dv_next d = u16 (dv_next (v_dev x) + 1) → dv_disk d = dv_disk (v_dev x) →
  dv_taken d = dv_taken (v_dev x) ++ [v_avail x (dv_next (v_dev x) mod NUM)] → rely b n x (set_dev d x).
Proof.
  intros Hne E1 E2 E3 a Hg. destruct (gi_next _ _ _ Hg) as [Hr Ha]. destruct (g_q a) as [|r q] eqn:Eq.
  { exfalso. apply Hne. rewrite Ha. cbn. unfold u16. rewrite Z.add_0_r, Z.mod_small; done. }
  exists (take_q r q a). split; [by apply ginv_take|]. apply rely_at.
  - apply idle_perm. unfold all, pend, fin, take_q. rewrite Eq. cbn. solve_Permutation.
  - done.
  - unfold blk. cbn. by rewrite E2.
  - intros r' _ _. unfold pend, fin, take_q. rewrite Eq. cbn. split; [set_solver|done].
Qed.

Lemma rely_serve b n x i t1 t2 d : dv_taken (v_dev x) = t1 ++ i :: t2 → dv_taken d = t1 ++ t2 → dv_next d = dv_next (v_dev x) →
  dv_disk d = served_disk i x → rely b n x (served i d x).
Proof.
  intros Et Ed En Es a Hg. rewrite <- (gi_taken _ _ _ Hg) in Et. destruct (map_split _ _ _ _ _ Et) as (k1 & r & k2 & Ek & <- & <- & <-).
  assert (Hrp : r ∈ pend a) by (unfold pend; rewrite Ek; set_solver). assert (Hra : r ∈ all a) by (unfold all; set_solver).
  pose proof (sh_chain _ _ _ (gi_shape _ _ _ Hg) r Hra) as Hc. destruct (served_eq x r d Hc) as [Esx Esd].
  pose proof (ginv_serve a r k1 k2 x d Hg Ek En ltac:(by rewrite Ed, map_app)) as Hg'.
  exists (serve_t r k1 k2 a). split; [done|].
  assert (Hpf : ∀ r', (r' ∈ pend a → r' ≠ r → r' ∈ pend (serve_t r k1 k2 a)) ∧ (r' ∈ fin a → r' ∈ fin (serve_t r k1 k2 a)) ∧ r ∈ fin (serve_t r k1 k2 a)).
  { intros r'. unfold pend, fin, serve_t. rewrite Ek. cbn. set_solver. }
  assert (Hfar : r_buf r ≠ b → v_bufs (served (r_i0 r) d x) b = v_bufs x b).
  { intros Hb. rewrite Esx. cbn. destruct (r_write r); [done|]. by rewrite upd_ne. }
  assert (Hfarn : r_block r ≠ n → blk (served (r_i0 r) d x) n = blk x n).
  { intros Hn. unfold blk. rewrite Esx. cbn. rewrite Es, Esd. destruct (r_write r); [|done]. by rewrite upd_ne. }
  split.
  - intros Hi. destruct (Hi r Hra) as [Hb Hn]. split_and!; [|by apply Hfar|by apply Hfarn].
    eapply idle_perm; [|exact Hi]. unfold all, pend, fin, serve_t. rewrite Ek. cbn. solve_Permutation.
  - intros r' Eb Eblk. assert (Hother : r' ∈ all a → r' ≠ r → same b n x (served (r_i0 r) d x)).
    { intros Hr' Hne. split; [rewrite Hfar; [by destruct (v_bufs x b)|]|apply Hfarn].
      - intros E. apply Hne. apply (NoDup_map_eq r_buf (all a)); [apply Hg|done|done|congruence].
      - intros E. apply Hne. apply (NoDup_map_eq r_block (all a)); [apply Hg|done|done|congruence]. }
    destruct (Hpf r') as (Hp & Hf & Hfr). split.
    + intros Hr'. destruct (decide (r_i0 r' = r_i0 r)) as [E0|E0].
      * assert (r' = r) as ->. { eapply chain_inj; [|exact Hc|done]. apply (gi_shape _ _ _ Hg). unfold all. set_solver. }
        right. split; [done|]. unfold moved. rewrite Esx. unfold blk. cbn. rewrite Es, Esd, <- Eb, <- Eblk. destruct (r_write r).
        -- split; [by destruct (v_bufs x (r_buf r))|apply upd_eq].
        -- rewrite upd_eq. done.
      * left. assert (r' ≠ r) by congruence. split; [by apply Hp|]. apply Hother; [unfold all; set_solver|done].
    + intros Hr'. split; [by apply Hf|]. apply Hother; [unfold all; set_solver|]. intros ->. exact (pend_fin _ _ _ Hg Hrp Hr').
Qed.

(** virtio_disk_intr() *)
Lemma used_head a x : ginv a [] x → v_used_idx x mod NUM ≠ v_used_id x mod NUM →
  ∃ r s, g_s a = r :: s ∧ v_info_b x (v_used x (v_used_idx x)) = Some (r_buf r) ∧ v_info_st x (v_used x (v_used_idx x)) = 0 ∧
    ginv (signal_s r s a) [] (signalled (r_buf r) x).
Proof.
  intros Hg Hne. destruct (gi_uidx _ _ _ Hg) as [Hu1 Hu2]. destruct (g_s a) as [|r s] eqn:Es.
  { exfalso. apply Hne. rewrite Hu2. cbn. by rewrite Z.add_0_r. }
  destruct (ginv_signal a r s x Hg Es) as (Hg' & Hi & (_ & _ & _ & Hb & Hst) & _). exists r, s. by rewrite Hi.
Qed.

Lemma rely_signal b n b0 x : v_used_idx x mod NUM ≠ v_used_id x mod NUM → v_info_b x (v_used x (v_used_idx x)) = Some b0 →
  rely b n x (signalled b0 x).
Proof.
  intros Hne Hb0 a Hg. destruct (used_head a x Hg Hne) as (r & s & Es & Hb & _ & Hg'). rewrite Hb0 in Hb. injection Hb as ->.
  exists (signal_s r s a). split; [done|].
  assert (Hra : r ∈ all a) by (unfold all, fin; rewrite Es; set_solver).
  assert (Hsame : same b n x (signalled (r_buf r) x)).
  { split; [|done]. cbn. unfold upd. destruct (Z.eqb_spec b (r_buf r)) as [->|]; by destruct (v_bufs x _). }
  split.
  - intros Hi. destruct (Hi r Hra). split_and!; [|cbn; by rewrite upd_ne|done].
    eapply idle_perm; [|exact Hi]. unfold all, pend, fin, signal_s. rewrite Es. cbn. solve_Permutation.
  - intros r' _ _. unfold pend, fin, signal_s. rewrite Es. cbn. split; [intros Hp; left; done|]. intros Hf. split; [set_solver|done].
Qed.

(** Another thread: descriptors change hands, a request begins or ends *)
Lemma rely_io b n x x' : (∀ a, ginv a [] x → ginv a [] x') → v_bufs x' = v_bufs x → v_dev x' = v_dev x → rely b n x x'.
Proof.
  intros Hg Hb Hd a Ha. exists a. split; [by apply Hg|]. apply rely_at; [done|by rewrite Hb|unfold blk; by rewrite Hd|done].
Qed.

Lemma rely_submit b n x x' r : b ≠ r_buf r → n ≠ r_block r →
  (∀ a, ginv a [] x → ginv (add_q r a) [] x') → v_bufs x' b = v_bufs x b → blk x' n = blk x n → rely b n x x'.
Proof.
  intros Hb Hn Hg Eb En a Ha. exists (add_q r a). split; [by apply Hg|]. apply rely_at; [|done|done|].
  - intros Hi r'. rewrite all_add_q. intros [->|Hr']%elem_of_cons; [done|by apply Hi].
  - intros r' _ _. unfold pend, fin, add_q. cbn. set_solver.
Qed.

Lemma rely_finish b n x x' r : b ≠ r_buf r →
  (∀ a f1 f2, ginv a [] x → g_f a = f1 ++ r :: f2 → ginv (drop_f f1 f2 a) [] x') → (∀ a, ginv a [] x → r ∈ g_f a) →
  v_bufs x' = v_bufs x → v_dev x' = v_dev x → rely b n x x'.
Proof.
  intros Hb Hg Hr Eb Ed a Ha. destruct (list_elem_of_split _ _ (Hr a Ha)) as (f1 & f2 & Ef).
  exists (drop_f f1 f2 a). split; [by apply Hg|]. apply rely_at; [|by rewrite Eb|unfold blk; by rewrite Ed|].
  - intros Hi r' Hr'. apply Hi. revert Hr'. unfold all, pend, fin, drop_f. rewrite Ef. cbn. set_solver.
  - intros r' E _. unfold pend, fin, drop_f. rewrite Ef. cbn. split; [done|]. intros Hf. assert (r' ≠ r) by congruence. set_solver.
Qed.
End spec.
