(* ===== verification/VirtioRw.v ===== *)
(** virtio_disk.c: virtio_disk_rw() and virtio_disk_intr(), in turns with other threads and the device.

    The lemmas take the code step by step to the transitions of VirtioSpec.v; [own b n] is what the
    thread's own steps keep, the [rely] of all threads with other buffers. *)
From S2P Require Import Prelude Machine CString Spinlock Sched Sleeplock Bio Log Fs UserMem Shared Virtio VirtioSpec.

Section rw.
Context {P : Type} `{SchedOk P} `{!Caller P} `{!UserMem P}.
Context {D : Type} `{DeviceOk D}.
Abbreviation st := (P * vdisk D)%type.
Implicit Types x : vdisk D.

(** The thread holds the lock; nothing is said of the driver's state. *)
Definition anyx : vdisk D → Prop := λ _, True.
Definition anyeff : vdisk D → list Z → vdisk D → Prop := λ _ _ _, True.
Lemma any_plain : plain anyx anyeff.
Proof. split; done. Qed.

(** In order with whichever of the requests [S'] are in flight *)
Definition gall (S' : stages → Prop) (E : list Z) x : Prop := (∃ a, S' a) ∧ ∀ a, S' a → ginv a E x.

Lemma gall_one a E x : ginv a E x → gall (eq a) E x.
Proof. intros Hg. split; [by exists a|by intros ? <-]. Qed.

Section thread.
Context (x0 : vdisk D) (f : Z → option Z).
Abbreviation thr := (turn anyx anyeff x0 f).

Lemma thr_set tr q x x' : thr tr [] q x → vdisk_lock x' = vdisk_lock x → thr tr [] q x'.
Proof. intros Ht E. by apply (turn_step anyx anyeff x0 f tr [] [] q x x'). Qed.

(** alloc_desc() *)
Lemma wp_alloc_desc tr q x S' E (Q : Z → st → Prop) :
  thr tr [] q x → gall S' E x →
  (∀ i x', 0 ≤ i → thr tr [] q x' → gall S' (E ++ [i]) x' → (∃ g, x' = set_free g x) → Q i (q, x')) →
  Q (-1) (q, x) → wp alloc_desc Q (q, x).
Proof.
  intros Ht Hg HQ HQ1. unfold alloc_desc. assert (Hloop : ∀ k i, 0 ≤ i → i + Z.of_nat k = NUM → wp (alloc_desc_loop k i) Q (q, x)).
  { induction k as [|k IH]; intros i Hi Hk; cbn [alloc_desc_loop]; [by apply wp_ret|].
    apply wp_bind, wp_gets. cbn [snd]. destruct (Z.eqb_spec (v_free x i) 0) as [E0|E0]; [apply IH; lia|].
    apply wp_bind, wp_modify, wp_ret. apply HQ; [done|by eapply thr_set| |eauto].
    split; [apply Hg|]. intros a Ha. apply ginv_alloc; [by apply Hg|lia|done]. }
  by apply Hloop.
Qed.

(** free_desc() *)
Lemma wp_free_desc tr q x S' E1 E2 i (Q : unit → st → Prop) :
  thr tr [] q x → gall S' (E1 ++ i :: E2) x →
  (∀ q', thr tr [] q' (freed i x) → gall S' (E1 ++ E2) (freed i x) → Q () (q', freed i x)) → wp (free_desc i) Q (q, x).
Proof.
  intros Ht Hg HQ. destruct Hg as [[a0 Ha0] Hg]. destruct (freed_free _ _ _ _ _ (Hg a0 Ha0)) as [Hi Hf]. unfold free_desc. destruct (Z.leb_spec NUM i); [lia|].
  apply wp_bind, wp_gets. cbn [snd]. rewrite Hf. cbn. apply wp_bind, wp_modify, wp_bind, wp_modify.
  change (set_free _ _) with (freed i x). assert (Ht' : thr tr [] q (freed i x)) by (by eapply thr_set).
  eapply wp_turn_wakeup; [exact Ht'|]. intros q' Hq' _. apply HQ; [done|]. split; [by exists a0|]. intros a Ha. by apply ginv_freed, Hg.
Qed.

(** free_descs(): what alloc3_desc() gives back *)
Lemma wp_free_descs idx : ∀ tr q x S' E (Q : unit → st → Prop),
  thr tr [] q x → gall S' (idx ++ E) x →
  (∀ q' x', thr tr [] q' x' → gall S' E x' → v_bufs x' = v_bufs x → v_dev x' = v_dev x → Q () (q', x')) → wp (free_descs idx) Q (q, x).
Proof.
  induction idx as [|i idx IH]; intros tr q x S' E Q Ht Hg HQ; cbn [free_descs]; [by apply wp_ret, HQ|].
  apply wp_bind. eapply (wp_free_desc tr q x S' []); [done|exact Hg|]. intros q' Ht' Hg'. eapply IH; [exact Ht'|exact Hg'|].
  intros q2 x2 Ht2 Hg2 Eb Ed. by apply HQ.
Qed.

(** alloc3_desc() *)
Lemma wp_alloc3 tr q x S' (Q : option (list Z) → st → Prop) :
  thr tr [] q x → gall S' [] x →
  (∀ x' i0 i1 i2, thr tr [] q x' → gall S' [i0; i1; i2] x' → (∃ g, x' = set_free g x) → Q (Some [i0; i1; i2]) (q, x')) →
  (∀ q' x', thr tr [] q' x' → gall S' [] x' → v_bufs x' = v_bufs x → v_dev x' = v_dev x → Q None (q', x')) → wp alloc3_desc Q (q, x).
Proof.
  intros Ht Hg HQ HQ1. assert (Hstep : ∀ k idx x1, thr tr [] q x1 → gall S' idx x1 → (∃ g, x1 = set_free g x) → (length idx + k = 3)%nat →
    (∀ x2 idx2, length idx2 = 3%nat → thr tr [] q x2 → gall S' idx2 x2 → (∃ g, x2 = set_free g x) → Q (Some idx2) (q, x2)) → wp (alloc3_loop k idx) Q (q, x1)).
  { induction k as [|k IH]; intros idx x1 Ht1 Hg1 [g ->] Hk Hend; cbn [alloc3_loop]; [apply wp_ret, Hend; [lia|done|done|eauto]|].
    apply wp_bind. eapply wp_alloc_desc; [done|exact Hg1|..].
    - intros i x2 Hi Ht2 Hg2 [g2 ->]. destruct (Z.ltb_spec i 0); [lia|]. apply IH; [done|done|by exists g2|rewrite length_app; cbn; lia|done].
    - cbn [Z.ltb Z.compare]. apply wp_bind. eapply (wp_free_descs idx _ _ _ S' []); [done|by rewrite app_nil_r|].
      intros q' x' Ht' Hg' Eb Ed. apply wp_ret. by apply HQ1. }
  apply (Hstep 3%nat [] x); [done|done|exists (v_free x); by destruct x|done|].
  intros x2 idx2 Hlen Ht2 Hg2 Hx2. destruct idx2 as [|i0 [|i1 [|i2 [|]]]]; try done. by apply HQ.
Qed.

(** A read of a register *)
Lemma wp_R q x reg (Q : Z → st → Prop) :
  (∀ v d, dv_disk d = dv_disk (v_dev x) → dv_next d = dv_next (v_dev x) → dv_taken d = dv_taken (v_dev x) → Q v (q, set_dev d x)) →
  wp (R reg) Q (q, x).
Proof.
  intros HQ. unfold wp, R. destruct (dv_read_ok reg (v_dev x)) as (E1 & E2 & E3). destruct (mmio_read reg (v_dev x)) as [v d]. by apply HQ.
Qed.

(** rw_submit() *)
Lemma wp_putv q x g (Q : unit → st → Prop) : Q () (q, g x) → wp (putv g) Q (q, x).
Proof. done. Qed.

Lemma wp_submit q x b w sector i0 i1 i2 (Q : unit → st → Prop) :
  Q () (q, submitted (mkReq i0 i1 i2 b w sector) x) →
  wp (rw_submit b w sector i0 i1 i2) Q (q, x).
Proof.
  intros HQ. unfold rw_submit. do 8 apply wp_bind, wp_putv. apply wp_putv. exact HQ.
Qed.

(** rw_finish() *)
Lemma freed_flags j x i : dd_flags (v_desc (freed j x) i) = dd_flags (v_desc x i) ∧ dd_next (v_desc (freed j x) i) = dd_next (v_desc x i).
Proof. cbn. unfold upd. by destruct (Z.eqb_spec i j) as [->|]. Qed.

Definition finished (r : req) x : vdisk D := freed (r_i2 r) (freed (r_i1 r) (freed (r_i0 r) (at_info_b (r_i0 r) None x))).

Lemma ginv_finished a r f1 f2 x : ginv a [] x → g_f a = f1 ++ r :: f2 → ginv (drop_f f1 f2 a) [] (finished r x).
Proof.
  intros Hg Ef. apply (ginv_freed _ [] []), (ginv_freed _ [] [_]), (ginv_freed _ [] [_; _]). by apply ginv_finish.
Qed.

Lemma wp_finish tr q x a r f1 f2 (Q : unit → st → Prop) :
  thr tr [] q x → ginv a [] x → g_f a = f1 ++ r :: f2 →
  (∀ q', thr tr [] q' (finished r x) → Q () (q', finished r x)) → wp (rw_finish (r_i0 r)) Q (q, x).
Proof.
  intros Ht Hg Ef HQ. pose proof (ginv_finish a r f1 f2 x Hg Ef) as Hg1. unfold rw_finish. apply wp_bind, wp_putv.
  assert (Hr : r ∈ all a) by (unfold all, fin; rewrite Ef; set_solver).
  destruct (sh_chain _ _ _ (gi_shape _ _ _ Hg) r Hr) as (H0' & H1' & H2' & _).
  assert (Ht1 : thr tr [] q (at_info_b (r_i0 r) None x)) by (by eapply thr_set). unfold finished in HQ. set (x1 := at_info_b (r_i0 r) None x) in *.
  change (v_desc x) with (v_desc x1) in H0', H1', H2'. clearbody x1. change (Z.to_nat NUM) with 8%nat.
  cbn [free_chain]. apply wp_bind. eapply (wp_free_desc tr q x1 _ [] [r_i1 r; r_i2 r]); [done|exact (gall_one _ _ _ Hg1)|]. intros q2 Ht2 Hg2.
  apply wp_bind, wp_gets. cbn [snd]. destruct (freed_flags (r_i0 r) x1 (r_i0 r)) as [-> ->]. rewrite H0'. cbn [dd_flags dd_next].
  change (Z.land VRING_DESC_F_NEXT VRING_DESC_F_NEXT =? 0) with false. cbn [negb].
  apply wp_bind. eapply (wp_free_desc tr q2 _ _ [] [r_i2 r]); [done|exact Hg2|]. intros q3 Ht3 Hg3.
  apply wp_bind, wp_gets. cbn [snd]. destruct (freed_flags (r_i1 r) (freed (r_i0 r) x1) (r_i1 r)) as [-> ->], (freed_flags (r_i0 r) x1 (r_i1 r)) as [-> ->].
  rewrite H1'. cbn [dd_flags dd_next].
  replace (Z.land (Z.lor (if r_write r then 0 else VRING_DESC_F_WRITE) VRING_DESC_F_NEXT) VRING_DESC_F_NEXT =? 0) with false by (by destruct (r_write r)). cbn [negb].
  apply wp_bind. eapply (wp_free_desc tr q3 _ _ [] []); [done|exact Hg3|]. intros q4 Ht4 _.
  apply wp_bind, wp_gets. cbn [snd]. destruct (freed_flags (r_i2 r) (freed (r_i1 r) (freed (r_i0 r) x1)) (r_i2 r)) as [-> _].
  destruct (freed_flags (r_i1 r) (freed (r_i0 r) x1) (r_i2 r)) as [-> _], (freed_flags (r_i0 r) x1 (r_i2 r)) as [-> _].
  rewrite H2'. cbn [dd_flags].
  change (Z.land VRING_DESC_F_WRITE VRING_DESC_F_NEXT =? 0) with true. cbn [negb]. by apply wp_ret, HQ.
Qed.

End thread.

(** The loop of virtio_disk_intr(); [I] is what is known of the thread when it has called wakeup() for some buffers *)
Lemma wp_intr_loop (I : list Z → P → Prop) fuel : (∀ bs b q, I bs q → wp (sc_wakeup (CDiskBuf b)) (λ _ q', I (bs ++ [b]) q') q) →
  ∀ bs q x a (Q : unit → st → Prop), I bs q → ginv a [] x → (length (g_s a) ≤ fuel)%nat →
  (∀ q' x' a', I (bs ++ map r_buf (g_s a)) q' → vdisk_lock x' = vdisk_lock x → ginv a' [] x' → g_s a' = [] → g_q a' = g_q a → g_t a' = g_t a →
     (∀ b n, rely b n x x') → Q () (q', x')) →
  wp (intr_loop fuel) Q (q, x).
Proof.
  intros HI. induction fuel as [|fuel IH]; intros bs q x a Q Ht Hg Hlen HQ; cbn [intr_loop]; apply wp_bind, wp_gets; cbn [snd];
    (destruct (Z.eqb_spec (v_used_idx x mod NUM) (v_used_id x mod NUM)) as [E|E];
     [assert (Es : g_s a = []) by (destruct (g_s a) as [|r s] eqn:Es; [done|]; by destruct (ginv_signal a r s x Hg Es) as (_ & _ & _ & ?));
      apply wp_ret, (HQ q x a); try done; [by rewrite Es, app_nil_r|intros b n; apply rely_refl]|]);
    destruct (used_head a x Hg E) as (r & s & Es & Hb & Hst & Hg'); rewrite Es in Hlen; cbn [length] in Hlen; [lia|].
  rewrite Hst, Hb. cbn [Z.eqb negb]. apply wp_bind, wp_putv, wp_bind, wp_on_sched.
  eapply wp_mono; [by apply HI|]. intros [] q1 Hq1. apply wp_bind, wp_putv.
  change (set_used_idx _ _) with (signalled (r_buf r) x). eapply (IH _ q1 _ (signal_s r s a)); [done|done|cbn; lia|].
  intros q2 x2 a2 Ht2 Hl2 Hg2 Es2 Eq2 Et2 Hrely. rewrite <- app_assoc in Ht2. apply (HQ q2 x2 a2); try done; [by rewrite Es|]. intros b n. eapply rely_trans; [by apply rely_signal|apply Hrely].
Qed.

(** The requests that were in the used ring have been reported. *)
Lemma intr_reported a a' x x' r : ginv a [] x → ginv a' [] x' → g_s a' = [] → g_q a' = g_q a → g_t a' = g_t a →
  (∀ b n, rely b n x x') → r ∈ g_s a → b_disk (v_bufs x' (r_buf r)) = 0.
Proof.
  intros Hg Hg2 Es Eq Et Hr Hrs. apply (gi_done _ _ _ Hg2). assert (Hf : r ∈ fin a) by (unfold fin; set_solver).
  destruct (Hr (r_buf r) (r_block r) a Hg) as (a1 & Hg' & _ & Hreq). destruct (Hreq r eq_refl eq_refl) as [_ Hreq'].
  destruct (Hreq' Hf) as [Hf' _]. assert (Hin : r ∈ all a') by (eapply ginv_unique; [exact Hg'|exact Hg2|]; unfold all; set_solver).
  unfold all, fin in Hin. rewrite Es in Hin. cbn [app] in Hin. apply elem_of_app in Hin as [Hin|Hin]; [|done].
  exfalso. apply (pend_fin a x r Hg); [|done]. unfold pend in *. by rewrite Eq, Et in Hin.
Qed.

Lemma rely_lk b' n' x lk : rely b' n' x (set_vlock lk x).
Proof. apply rely_io; [|done|done]. intros a Hg. by apply ginv_lk. Qed.

(** virtio_disk_intr(); [J bs] is what is known of the process layer when wakeup() has been called for the buffers [bs], whatever locks are taken *)
Lemma wp_virtio_disk_intr (J : list Z → P → Prop) (p : P) x a (Q : unit → st → Prop) :
  J [] p → (∀ bs q h, J bs q → J bs (lset sc_hart h q)) →
  (∀ bs q b q', so_inv q → J bs q → sc_wakeup (CDiskBuf b) q = Ret () q' → J (bs ++ [b]) q') →
  so_inv p → lock_free (vdisk_lock x) → ginv a [] x →
  (∀ p' x' a', calm p p' → J (map r_buf (g_s a)) p' → vdisk_lock x' = vdisk_lock x → ginv a' [] x' → g_s a' = [] → g_q a' = g_q a → g_t a' = g_t a →
     (∀ b n, rely b n x x') → Q () (p', x')) →
  wp virtio_disk_intr Q (p, x).
Proof.
  intros HJ HJh HJw Hp Hl Hg HQ. unfold virtio_disk_intr. apply wp_bind. unfold on_lock at 1. apply wp_zoom.
  eapply wp_intro; [exact (acq_eq p (vdisk_lock x) Hl)|]. cbv beta iota. set (q := lset _ _ p).
  assert (Hin : within p q) by (split; unfold q; rewrite ?so_set_id, ?so_set_kill, ?so_get_set; try done;
    apply so_set_inv; [done|apply push_off_ok, so_hart_ok; done|apply tp_push_off]).
  set (lk := take_lock _ _). change (with_lk lk x) with (set_vlock lk x) in *. apply wp_bind.
  pose proof (ginv_two _ _ _ Hg) as Htwo. rewrite all_length in Htwo.
  apply (wp_intr_loop (λ bs q, within p q ∧ J bs q)) with (bs := []) (a := a); [|split; [done|by apply HJh]|by apply ginv_lk|change (Z.to_nat NUM) with 8%nat; lia|].
  { intros bs b q' [Hq' HJ']. assert (Hw : wp (sc_wakeup (CDiskBuf b)) (λ _ q'', within p q'') q') by (by eapply within_wakeup).
    apply wp_elim in Hw as ([] & q'' & E & Hq''). eapply wp_intro; [exact E|]. split; [done|]. by eapply (HJw bs q' b); [apply Hq'| |]. }
  intros q2 x2 a2 [Ht2 HJ2] Hl2 Hg2 Es Eq Et Hr. apply wp_bind, wp_R. intros v d E1 E2 E3. apply wp_bind, wp_putv.
  set (x3 := at_R _ _ _). destruct (dv_write_ok VIRTIO_MMIO_INTERRUPT_ACK (Z.land v 3) d) as (F1 & F2 & F3). cbv zeta in *.
  assert (Hdev : ∀ a', ginv a' [] x2 → ginv a' [] x3).
  { intros a' Ha'. apply (ginv_dev _ _ (set_dev d x2)); [|done|done]. by apply ginv_dev. }
  unfold on_lock. apply wp_zoom. change (lk_of x3) with (vdisk_lock x2). rewrite Hl2. change (vdisk_lock (set_vlock lk x)) with lk.
  assert (Hheld : lock_held (push_off (lget sc_hart p)) lk) by apply take_lock_held.
  pose proof (rel_eq q2 (lget sc_hart p) lk (so_hart_ok p Hp) (wi_hart _ _ Ht2) Hheld) as Erel.
  assert (Hc : calm p (lset sc_hart (settle (lget sc_hart p)) q2)).
  { assert (Hw : wp rel (λ _ s, calm p (fst s)) (q2, lk)) by (by apply (wp_rel p)). unfold wp in Hw. by rewrite Erel in Hw. }
  eapply wp_intro; [exact Erel|]. cbv beta iota. change (with_lk _ x3) with (set_vlock (mkSpinlock 0 (lname (vdisk_lock x)) None) x3).
  apply (HQ _ _ a2); try done; [by apply HJh|destruct Hl as [L1 L2]; cbn; destruct (vdisk_lock x); cbn in *; by subst|by apply ginv_lk, Hdev|].
  intros b n. eapply rely_trans; [apply rely_lk|]. eapply rely_trans; [apply Hr|]. intros a' Ha'. exists a'. split; [by apply ginv_lk, Hdev|].
  apply rely_at; [done|done| |done]. unfold blk. cbn. by rewrite F1, E1.
Qed.

(** ** In turns with the others *)
Definition others_rw (b n : Z) (s s' : st) : Prop := others anyx s s' ∧ rely b n (snd s) (snd s').
Definition own (b n : Z) x (bs : list Z) x' : Prop := bs = [] ∧ ∀ b' n', b' ≠ b → n' ≠ n → rely b' n' x x'.

Section owner.
Context (b n : Z) (x0 : vdisk D) (f : Z → option Z) (lim : nat).
Abbreviation thr := (turn anyx anyeff x0 f).
Abbreviation mine := (did (P := P) (own b n) x0).

Lemma mine_step tr x x' : mine tr x [] → own b n x [] x' → mine tr x' [].
Proof. intros Hd Ho. change [] with (@nil Z ++ []). by eapply did_step. Qed.

Lemma mine_lk tr x lk : mine tr x [] → mine tr (set_vlock lk x) [].
Proof. intros Hd. eapply mine_step; [exact Hd|]. split; [done|]. intros. apply rely_lk. Qed.

(** What the owner sees across a gap *)
Lemma rely_unlock x x2 lk1 lk3 : rely b n (set_vlock lk1 x) x2 → rely b n x (set_vlock lk3 x2).
Proof. intros Hr. eapply rely_trans; [apply rely_lk|]. eapply rely_trans; [exact Hr|apply rely_lk]. Qed.

Lemma serves_gap {A} c tr q x (Q : list (st * st) → A → st → Prop) (k : M st A) :
  thr tr [] q x → mine tr x [] →
  (∀ tr' q' x', length tr' = S (length tr) → thr tr' [] q' x' → mine tr' x' [] → rely b n x x' →
     serves (others_rw b n) lim Q tr' (k (q', x'))) →
  serves (others_rw b n) lim Q tr ((on_lock (sleep c);; k) (q, x)).
Proof.
  intros Ht Hd Hk. eapply (serves_sleep_in anyx anyeff any_plain x0); [by intros s s' [? _]|exact Ht|].
  intros q1 lk1 q2 x2 q3 lk3 [_ Hr] tr' Ht'. cbn [snd] in Hr. apply Hk; [unfold tr'; rewrite length_app; cbn; lia|exact Ht'| |].
  - apply mine_lk. unfold tr'. apply did_gap. by apply mine_lk.
  - exact (rely_unlock x x2 lk1 lk3 Hr).
Qed.

Lemma serves_alloc fuel : ∀ tr q x a (Q : list (st * st) → list Z → st → Prop),
  thr tr [] q x → mine tr x [] → ginv a [] x → idle b n a → (lim ≤ fuel + length tr)%nat →
  (∀ tr' q' xa x' a' i0 i1 i2, thr tr' [] q' x' → mine tr' xa [] → ginv a' [] xa → idle b n a' → (∃ g, x' = set_free g xa) →
     (∀ a'', ginv a'' [] xa → ginv a'' [i0; i1; i2] x') → v_bufs xa b = v_bufs x b → blk xa n = blk x n → Q tr' [i0; i1; i2] (q', x')) →
  serves (others_rw b n) lim Q tr (rw_alloc fuel (q, x)).
Proof.
  induction fuel as [|fuel IH]; intros tr q x a Q Ht Hd Hg Hi Hlim HQ; cbn [rw_alloc]; apply serves_step;
    (eapply (wp_alloc3 x0 f tr q x (λ a, ginv a [] x)); [done|split; [by exists a|done]|..]);
    [intros x' i0 i1 i2 Ht' [_ Hg'] Hx'; eapply HQ; done|intros q' x' Ht' [_ Hg'] Eb Ed|intros x' i0 i1 i2 Ht' [_ Hg'] Hx'; eapply HQ; done|intros q' x' Ht' [_ Hg'] Eb Ed].
  - cbn. lia.
  - assert (Hd' : mine tr x' []).
    { eapply mine_step; [exact Hd|]. split; [done|]. intros b' n' _ _. by apply rely_io. }
    apply serves_gap; [done|done|]. intros tr2 q2 x2 Hlen Ht2 Hd2 Hr.
    destruct (Hr a (Hg' a Hg)) as (a2 & Hg2 & Hi2 & _). destruct (Hi2 Hi) as (Hi2' & Eb2 & En2).
    eapply (IH tr2 q2 x2 a2); [done|done|done|done|lia|]. intros. eapply HQ; [done..|congruence|]. unfold blk in *. congruence.
Qed.

(** The request [r] of the thread, which was queued in [xs] *)
Section wait.
Context (xs : vdisk D) (a : stages) (r : req).
Hypothesis Hs : ginv a [] xs.
Hypothesis Hr : r ∈ pend a ∧ r_buf r = b ∧ r_block r = n.

Lemma wait_end x : rely b n xs x → b_disk (v_bufs x b) ≠ 1 → ∃ a', ginv a' [] x ∧ r ∈ g_f a' ∧ moved (r_write r) b n xs x.
Proof.
  intros Hx Hne. destruct Hr as (Hp & Hb & Hn). destruct (Hx a Hs) as (a' & Hg & _ & Hreq). destruct (Hreq r Hb Hn) as [Hreq' _].
  destruct (Hreq' Hp) as [[Hp' _]|[Hf Hm]].
  - destruct Hne. rewrite <- Hb. apply (gi_busy _ _ _ Hg). set_solver.
  - exists a'. split_and!; [done| |done]. unfold fin in Hf. apply elem_of_app in Hf as [Hf|Hf]; [|done].
    destruct Hne. rewrite <- Hb. apply (gi_busy _ _ _ Hg). set_solver.
Qed.

Lemma serves_rw_wait fuel : ∀ tr q x (Q : list (st * st) → unit → st → Prop),
  thr tr [] q x → mine tr x [] → rely b n xs x → (lim ≤ fuel + length tr)%nat →
  (∀ tr' q' x' a', thr tr' [] q' x' → mine tr' x' [] → ginv a' [] x' → r ∈ g_f a' → moved (r_write r) b n xs x' → Q tr' () (q', x')) →
  serves (others_rw b n) lim Q tr (rw_wait fuel b (q, x)).
Proof.
  induction fuel as [|fuel IH]; intros tr q x Q Ht Hd Hx Hlim HQ; cbn [rw_wait]; apply serves_step, wp_gets; cbn [snd];
    (destruct (Z.eqb_spec (b_disk (v_bufs x b)) 1) as [E|E]; [|destruct (wait_end x Hx E) as (a' & Hg & Hf & Hm); by eapply HQ]).
  - cbn. lia.
  - apply serves_gap; [done|done|]. intros tr2 q2 x2 Hlen Ht2 Hd2 Hr2. apply IH; [done|done|by eapply rely_trans|lia|done].
Qed.
End wait.
End owner.

(** What virtio_disk_rw() leaves: the lock is free, no request of the thread is left, the buffer and the block are the same, one of
    them transferred to the other, and all that the thread did was within the [rely] of the others. *)
Record transferred (w : bool) (b n : Z) (x0 : vdisk D) (f : Z → option Z) (tr : list (st * st)) (s : st) : Prop := {
  tf_thread : done_with anyx anyeff x0 f tr [] (fst s) (snd s);
  tf_inv : ∃ a, ginv a [] (snd s) ∧ idle b n a;
  tf_buf : v_bufs (snd s) b = Bio.set_disk 0 (if w then v_bufs x0 b else set_data (blk x0 n) (v_bufs x0 b));
  tf_block : blk (snd s) n = if w then b_data (v_bufs x0 b) else blk x0 n;
  tf_own : did (own b n) x0 tr (snd s) []
}.

Lemma own_submit b n xa x' r a : ginv a [] xa → idle b n a → r_buf r = b → r_block r = n →
  (∀ a'', ginv a'' [] xa → ginv a'' (idxs r) x') → (∃ g, x' = set_free g xa) → own b n xa [] (submitted r x').
Proof.
  intros Hg Hi Hb Hn Hall [g ->]. split; [done|]. intros b' n' Hb' Hn'.
  destruct (submitted_fields r (set_free g xa)) as (Eb & _ & _ & _ & _ & _ & Ed & _).
  apply (rely_submit _ _ _ _ r); [congruence|congruence| | |].
  - intros a'' Ha''. apply ginv_submit; [by apply Hall|]. rewrite Hb, Hn. by eapply idle_unique; [exact Hg|exact Ha''|].
  - rewrite Eb. cbn. apply upd_ne. congruence.
  - unfold blk. rewrite Ed. done.
Qed.

Lemma own_finish b n x a r : ginv a [] x → r ∈ g_f a → r_buf r = b → own b n x [] (finished r x).
Proof.
  intros Hg Hf Hb. split; [done|]. intros b' n' Hb' _. apply (rely_finish _ _ _ _ r); [congruence| | |done|done].
  - intros a' f1 f2 Hg' Ef. by eapply ginv_finished.
  - intros a' Hg'. assert (Hin : r ∈ all a') by (eapply ginv_unique; [exact Hg|exact Hg'|]; unfold all, fin; set_solver).
    pose proof (gi_done _ _ _ Hg r Hf) as E0. unfold all, fin in Hin.
    assert (Hc : r ∈ pend a' ++ g_s a' ∨ r ∈ g_f a') by set_solver. destruct Hc as [Hc|Hc]; [|done].
    rewrite (gi_busy _ _ _ Hg' r Hc) in E0. done.
Qed.

(** C12: virtio_disk_rw() transfers the block of its buffer, however other threads, the device and the interrupt handler
    run in between, as long as what they do is within [rely], for a block number below 2^31. Called without locks for a buffer with no
    request in flight, it never panics, gives up only after it was woken more than [fuel] times, and at the end a read has put the block into the buffer,
    a write the buffer into the block; its descriptors are free again, and each of its own steps was within the [rely] of every other thread. *)
Theorem virtio_disk_rw_correct fuel b n w (p : P) x a :
  so_inv p → noff (lget sc_hart p) = 0 → um_ok p → lock_free (vdisk_lock x) →
  ginv a [] x → idle b n a → b_blockno (v_bufs x b) = n → 0 ≤ n < 2 ^ 31 →
  serves (others_rw b n) fuel (λ tr _, transferred w b n x (um_byte p) tr) [] (virtio_disk_rw fuel b w (p, x)).
Proof.
  intros Hp Hn0 Ho Hl Hg Hi Hb Hn. unfold virtio_disk_rw. apply serves_step, wp_gets. cbn [snd].
  replace (u32 (b_blockno (v_bufs x b) * (BSIZE / 512))) with (2 * n) by (rewrite Hb; change (BSIZE / 512) with 2; rewrite u32_small; lia).
  apply serves_step. eapply (wp_take anyx anyeff any_plain x (um_byte p) [] []); [by apply done_with_start|].
  intros q lk Ht _. apply serves_bind. change (with_lk lk x) with (set_vlock lk x) in *.
  eapply (serves_alloc b n x (um_byte p) fuel fuel [] q _ a); [done|apply mine_lk; constructor|by apply ginv_lk|done|cbn; lia|].
  intros tr q2 xa x2 a2 i0 i1 i2 Ht2 Hd2 Hg2 Hi2 Hx2 Hall Eb En. cbv iota.
  set (r := mkReq i0 i1 i2 b w (2 * n)). assert (Hrb : r_block r = n) by (unfold r_block, r; cbn [r_sector]; zdm).
  apply serves_step, wp_submit. fold r. pose proof (own_submit b n xa x2 r a2 Hg2 Hi2 eq_refl Hrb Hall Hx2) as Hown.
  assert (Hgs : ginv (add_q r a2) [] (submitted r x2)) by (apply ginv_submit; [by apply Hall|by rewrite Hrb]).
  destruct (submitted_fields r x2) as (Esb & _ & _ & _ & _ & _ & Esd & _ & _ & _ & Esl).
  assert (Hrp : r ∈ pend (add_q r a2) ∧ r_buf r = b ∧ r_block r = n) by (split_and!; [unfold pend, add_q; cbn; set_solver|done|done]).
  apply serves_bind. eapply (serves_rw_wait b n x (um_byte p) fuel (submitted r x2) (add_q r a2) r Hgs Hrp fuel tr q2);
    [by eapply thr_set|by eapply mine_step|apply rely_refl|lia|].
  intros tr3 q3 x3 a3 Ht3 Hd3 Hg3 Hf3 Hm. destruct (list_elem_of_split _ _ Hf3) as (f1 & f2 & Ef).
  apply serves_step. change i0 with (r_i0 r). eapply wp_finish; [exact Ht3|exact Hg3|exact Ef|]. intros q4 Ht4.
  apply serves_wp. eapply (wp_give anyx anyeff any_plain x); [exact Ht4|]. intros p5 lk5 Hdw _.
  change (with_lk lk5 (finished r x3)) with (set_vlock lk5 (finished r x3)) in *.
  pose proof (gi_done _ _ _ Hg3 r Hf3) as Hflag. unfold flag in Hflag. change (r_buf r) with b in *. destruct Hx2 as [g ->]. cbn [v_bufs set_free v_dev] in *.
  unfold moved, blk in Hm. rewrite Esb, Esd, Hflag, upd_eq, Eb in Hm. change (r_write r) with w in Hm. unfold blk in En.
  split; cbn [fst snd].
  - exact Hdw.
  - exists (drop_f f1 f2 a3). split; [by apply ginv_lk, ginv_finished|]. intros r' Hr'.
    assert (Hperm : all a3 ≡ₚ r :: all (drop_f f1 f2 a3)) by (unfold all, pend, fin, drop_f; rewrite Ef; cbn; solve_Permutation).
    pose proof (sh_bufs _ _ _ (gi_shape _ _ _ Hg3)) as Hn1. pose proof (sh_blocks _ _ _ (gi_shape _ _ _ Hg3)) as Hn2.
    rewrite Hperm in Hn1, Hn2. cbn [map] in Hn1, Hn2. apply NoDup_cons in Hn1 as [Hn1 _]. apply NoDup_cons in Hn2 as [Hn2 _].
    split; intros E; [apply Hn1|apply Hn2]; apply list_elem_of_fmap; exists r'; split; try done; congruence.
  - cbn. destruct w, Hm as [-> _]; [done|]. by rewrite En.
  - unfold blk. cbn. destruct w, Hm as [_ ->]; [done|exact En].
  - apply mine_lk. eapply mine_step; [exact Hd3|]. by eapply own_finish.
Qed.

(** What the device does, taking an entry of the avail ring or transferring the block of one, is within the [rely] of every thread. *)
Theorem device_within b n x x' : dev_step x x' → rely b n x x'.
Proof. intros [x1 d E1 E2 E3 E4|x1 i t1 t2 d E1 E2 E3 E4]; [by apply rely_take|by eapply rely_serve]. Qed.
End rw.
