(* ===== verification/VirtioIntr.v ===== *)
(** virtio_disk.c: virtio_disk_intr() on the process layer of proc.c: which processes it wakes. *)
From S2P Require Import Prelude Machine CString Spinlock Kalloc PageTable Vm VmMap VmUser VmCopy Sched Proc ProcSpec Sleeplock Bio Log Fs UserMem Shared UserCopy Pipe ProcUser Virtio VirtioSpec VirtioRw.
From Stdlib Require Import FunctionalExtensionality.

(** ** The processes that wait for a buffer *)
(** wakeup() has been called for the buffers [bs]: process [i] is runnable if it sleeps in virtio_disk_rw() on one of them. *)
Definition told (bs : list Z) (i : Z) (x : proc) : proc :=
  if (0 <=? i) && (i <? NPROC) && bool_decide (p_state x = SLEEPING) && existsb (λ b, bool_decide (p_chan x = CDiskBuf b)) bs
  then set_state RUNNABLE x else x.

(** The process layer is as it was, but for that and the state of the hart. *)
Definition reported (bs : list Z) (p q : kst) : Prop := q = set_khart (k_hart q) (set_procs (λ i, told bs i (procs p i)) p).

Lemma told_nil i x : told [] i x = x.
Proof. unfold told. cbn [existsb]. by rewrite andb_false_r. Qed.

(** One more call of wakeup() *)
Lemma told_snoc bs b i x : all_entries (wake (CDiskBuf b)) i (told bs i x) = told (bs ++ [b]) i x.
Proof.
  unfold all_entries, entries, told. change (0 + Z.of_nat (Z.to_nat NPROC)) with NPROC. rewrite existsb_app. cbn [existsb].
  destruct ((0 <=? i) && (i <? NPROC)); [|done]. cbn [andb]. unfold wake. destruct (bool_decide_reflect (p_state x = SLEEPING)) as [Hs|Hs]; cbn [andb].
  - destruct (existsb _ bs); cbn [orb]; [by rewrite decide_False by (by intros [? _])|]. rewrite orb_false_r.
    destruct (bool_decide_reflect (p_chan x = CDiskBuf b)) as [Hc|Hc]; [by rewrite decide_True|]. by rewrite decide_False by (by intros [_ ?]).
  - by rewrite decide_False by (by intros [? _]).
Qed.

Lemma reported_start p : reported [] p p.
Proof.
  unfold reported. replace (λ i, told [] i (procs p i)) with (procs p) by (apply functional_extensionality; intros i; by rewrite told_nil).
  by rewrite set_procs_get, set_khart_get.
Qed.

Lemma reported_hart bs p q h : reported bs p q → reported bs p (lset sc_hart h q).
Proof. unfold reported. intros E. rewrite E. done. Qed.

Lemma reported_wakeup bs p q b q' : so_inv q → reported bs p q → sc_wakeup (CDiskBuf b) q = Ret () q' → reported (bs ++ [b]) p q'.
Proof.
  intros Hq Hr E. assert (Hw : wp (wakeup (CDiskBuf b)) (λ _ t, t = table (all_entries (wake (CDiskBuf b))) q) q) by (by apply wp_wakeup).
  unfold wp in Hw. change (wakeup (CDiskBuf b) q) with (sc_wakeup (CDiskBuf b) q) in Hw. rewrite E in Hw. subst q'. clear E Hq.
  unfold reported in *. remember (k_hart q) as hq eqn:Eh. clear Eh. subst q.
  replace (λ i, told (bs ++ [b]) i (procs p i)) with (λ i, all_entries (wake (CDiskBuf b)) i (told bs i (procs p i))); [done|].
  apply functional_extensionality. intros i. apply told_snoc.
Qed.

Lemma reported_procs bs p q i : reported bs p q → procs q i = told bs i (procs p i).
Proof. unfold reported. intros ->. done. Qed.

Lemma reported_rest bs p q : reported bs p q → pm_mem (k_pm q) = pm_mem (k_pm p) ∧ c_proc q = c_proc p.
Proof. unfold reported. intros ->. done. Qed.

Lemma told_rest bs i x : p_killed (told bs i x) = p_killed x ∧ p_trapframe (told bs i x) = p_trapframe x ∧ p_pagetable (told bs i x) = p_pagetable x.
Proof. unfold told. by destruct (_ && _). Qed.

(** A process that sleeps on one of the buffers is runnable, any other entry of the table is as it was. *)
Lemma told_sleeper bs i x b : 0 ≤ i < NPROC → p_state x = SLEEPING → p_chan x = CDiskBuf b → b ∈ bs → told bs i x = set_state RUNNABLE x.
Proof.
  intros Hi Hs Hc Hb. unfold told. destruct (Z.leb_spec 0 i), (Z.ltb_spec i NPROC); try lia. rewrite bool_decide_true by done. cbn [andb].
  replace (existsb _ bs) with true; [done|]. symmetry. apply existsb_exists. exists b. split; [by apply list_elem_of_In|]. by apply bool_decide_eq_true_2.
Qed.

(** ** The interrupt handler *)
Section intr.
Context `{Symbols} `{KernelBuf} {D : Type} `{DeviceOk D}.

Lemma wp_disk_intr (p : kst) (x : vdisk D) a (Q : unit → kst * vdisk D → Prop) :
  kst_ok p → lock_free (vdisk_lock x) → ginv a [] x →
  (∀ p' x' a', calm p p' → reported (map r_buf (g_s a)) p p' → vdisk_lock x' = vdisk_lock x → ginv a' [] x' → g_s a' = [] → g_q a' = g_q a → g_t a' = g_t a →
     (∀ b n, rely b n x x') → Q () (p', x')) →
  wp virtio_disk_intr Q (p, x).
Proof.
  intros Hp Hl Hg HQ. apply (wp_virtio_disk_intr (λ bs, reported bs p) p x a); [apply reported_start|intros bs q h; apply reported_hart| |done..].
  intros bs q b q'. apply reported_wakeup.
Qed.

(** C31: virtio_disk_intr(), in an interrupt that finds the driver unlocked, never panics, ends, and tells every thread whose request the device
    has finished: exactly the processes that sleep on the buffer of such a request become runnable, the rest of the process layer is as it was, those buffers are
    no longer the disk's, and the used ring is empty. The requests that the device has not finished stay as they are, and what the handler does is within the [rely] of every thread. *)
Theorem virtio_disk_intr_correct (p : kst) (x : vdisk D) a :
  kst_ok p → lock_free (vdisk_lock x) → ginv a [] x →
  wp virtio_disk_intr (λ _ '(p', x'), calm p p' ∧ lock_free (vdisk_lock x') ∧ reported (map r_buf (g_s a)) p p' ∧
    (∀ i r b, 0 ≤ i < NPROC → r ∈ g_s a → r_buf r = b → p_state (procs p i) = SLEEPING → p_chan (procs p i) = CDiskBuf b → p_state (procs p' i) = RUNNABLE) ∧
    (∃ a', ginv a' [] x' ∧ g_s a' = [] ∧ g_q a' = g_q a ∧ g_t a' = g_t a) ∧
    (∀ r, r ∈ g_s a → b_disk (v_bufs x' (r_buf r)) = 0) ∧ ∀ b n, rely b n x x') (p, x).
Proof.
  intros Hp Hl Hg. apply (wp_disk_intr p x a); [done..|]. intros p' x' a' Hc Hrep El Hg' Es Eq Et Hr.
  split_and!; [done|by rewrite El|done| |by exists a'| |done].
  - intros i r b Hi Hin Hb Hs Hch. rewrite (reported_procs _ _ _ _ Hrep), (told_sleeper _ _ _ b); [done|done|done|done|].
    rewrite <- Hb. apply list_elem_of_fmap. by exists r.
  - intros r. by eapply intr_reported.
Qed.
End intr.
