(* ===== verification/VirtioBoot.v ===== *)
(** virtio_disk.c: virtio_disk_init(), and the driver on the process layer of proc.c with a disk in memory. *)
From S2P Require Import Prelude Machine CString Spinlock Kalloc PageTable Vm VmMap VmUser VmCopy Sched Proc ProcSpec Sleeplock Bio Log Fs UserMem Shared UserCopy Pipe ProcUser Virtio VirtioSpec VirtioRw VirtioIntr.

Section init.
Context {P D : Type} `{Sched P} `{DeviceOk D}.
Abbreviation st := (P * vdisk D)%type.
Implicit Types x : vdisk D.

Definition no_requests : stages := mkStages [] [] [] [].

(** The registers of a virtio disk with a queue of [max] entries *)
Record virtio_regs (magic version id vendor max : Z) : Prop := {
  vr_magic d : fst (mmio_read VIRTIO_MMIO_MAGIC_VALUE d) = magic;
  vr_version d : fst (mmio_read VIRTIO_MMIO_VERSION d) = version;
  vr_id d : fst (mmio_read VIRTIO_MMIO_DEVICE_ID d) = id;
  vr_vendor d : fst (mmio_read VIRTIO_MMIO_VENDOR_ID d) = vendor;
  vr_max d : fst (mmio_read VIRTIO_MMIO_QUEUE_NUM_MAX d) = max
}.

(** The lock is initialised; besides it only registers have been touched *)
Definition quiet x x' : Prop := vdisk_lock x' = initlock "virtio_disk" ∧
  v_used_idx x' = v_used_idx x ∧ v_bufs x' = v_bufs x ∧ dv_disk (v_dev x') = dv_disk (v_dev x) ∧
  dv_next (v_dev x') = dv_next (v_dev x) ∧ dv_taken (v_dev x') = dv_taken (v_dev x).

Lemma wp_reg q x x' r v (Q : Z → st → Prop) : quiet x x' → (∀ d, fst (mmio_read r d) = v) →
  (∀ x'', quiet x x'' → Q v (q, x'')) → wp (R r) Q (q, x').
Proof.
  intros (Q0 & Q1 & Q2 & Q3 & Q4 & Q5) Hv HQ. unfold wp, R. destruct (dv_read_ok r (v_dev x')) as (E1 & E2 & E3). specialize (Hv (v_dev x')).
  destruct (mmio_read r (v_dev x')) as [v' d]. cbn [fst snd] in *. subst v'. apply HQ. split_and!; cbn; congruence.
Qed.

Lemma wp_feature q x x' r (Q : Z → st → Prop) : quiet x x' →
  (∀ v x'', quiet x x'' → Q v (q, x'')) → wp (R r) Q (q, x').
Proof.
  intros (Q0 & Q1 & Q2 & Q3 & Q4 & Q5) HQ. unfold wp, R. destruct (dv_read_ok r (v_dev x')) as (E1 & E2 & E3).
  destruct (mmio_read r (v_dev x')) as [v' d]. cbn [fst snd] in *. apply HQ. split_and!; cbn; congruence.
Qed.

Lemma wp_setreg q x x' r v (Q : unit → st → Prop) : quiet x x' →
  (∀ x'', quiet x x'' → Q () (q, x'')) → wp (set_R r v) Q (q, x').
Proof.
  intros (Q0 & Q1 & Q2 & Q3 & Q4 & Q5) HQ. destruct (dv_write_ok r v (v_dev x')) as (E1 & E2 & E3). cbv zeta in *. apply wp_modify. apply HQ. split_and!; cbn; congruence.
Qed.

Lemma wp_init_free q k : ∀ i x (Q : unit → st → Prop),
  (∀ g, (∀ j, i ≤ j < i + Z.of_nat k → g j = 1) → (∀ j, ¬ (i ≤ j < i + Z.of_nat k) → g j = v_free x j) → Q () (q, set_free g x)) →
  wp (init_free k i) Q (q, x).
Proof.
  induction k as [|k IH]; intros i x Q HQ; cbn [init_free].
  - apply wp_ret. replace x with (set_free (v_free x) x) by (by destruct x). apply HQ; [lia|done].
  - apply wp_bind, wp_modify. eapply IH. intros g Hin Hout. cbn [v_free set_free] in Hout.
    change (set_free g (set_free (upd (v_free x) i 1) x)) with (set_free g x). apply HQ.
    + intros j Hj. destruct (decide (j = i)) as [->|]; [|apply Hin; lia]. rewrite Hout by lia. apply upd_eq.
    + intros j Hj. rewrite Hout, upd_ne by lia. done.
Qed.

(** virtio_disk_init() with a legacy virtio disk that has a queue of at least NUM entries and nothing queued: the driver is ready, with every
    descriptor free, both rings empty and no request in flight; the disk and the buffers are as they were. *)
Theorem virtio_disk_init_correct pages (p : P) x max :
  virtio_regs 0x74726976 1 2 0x554d4551 max → NUM ≤ max → v_used_idx x = 0 → dv_next (v_dev x) = 0 → dv_taken (v_dev x) = [] →
  wp (virtio_disk_init pages) (λ _ '(p', x'), p' = p ∧ ginv no_requests [] x' ∧ vdisk_lock x' = initlock "virtio_disk" ∧
    v_bufs x' = v_bufs x ∧ dv_disk (v_dev x') = dv_disk (v_dev x)) (p, x).
Proof.
  intros [Hm Hv Hi Hve Hmax] Hge Hu Hn Ht. unfold virtio_disk_init. apply wp_bind, wp_modify.
  assert (Hq : quiet x (set_vlock (initlock "virtio_disk") x)) by done.
  apply wp_bind, (wp_reg _ x _ _ _ _ Hq Hm). intros x1 Hq1. apply wp_bind. rewrite Z.eqb_refl. cbn [negb].
  apply wp_bind, (wp_reg _ x _ _ _ _ Hq1 Hv). intros x2 Hq2. rewrite Z.eqb_refl. cbn [negb].
  apply wp_bind, (wp_reg _ x _ _ _ _ Hq2 Hi). intros x3 Hq3. rewrite Z.eqb_refl. cbn [negb].
  apply wp_bind, (wp_reg _ x _ _ _ _ Hq3 Hve). intros x4 Hq4. apply wp_ret. rewrite Z.eqb_refl. cbn [negb].
  apply wp_bind, (wp_setreg _ x _ _ _ _ Hq4). intros x5 Hq5. apply wp_bind, (wp_setreg _ x _ _ _ _ Hq5). intros x6 Hq6.
  apply wp_bind, (wp_feature _ x _ _ _ Hq6). intros features x7 Hq7. apply wp_bind, (wp_setreg _ x _ _ _ _ Hq7). intros x8 Hq8.
  apply wp_bind, (wp_setreg _ x _ _ _ _ Hq8). intros x9 Hq9. apply wp_bind, (wp_setreg _ x _ _ _ _ Hq9). intros x10 Hq10.
  apply wp_bind, (wp_setreg _ x _ _ _ _ Hq10). intros x11 Hq11. apply wp_bind, (wp_setreg _ x _ _ _ _ Hq11). intros x12 Hq12.
  apply wp_bind, (wp_reg _ x _ _ _ _ Hq12 Hmax). intros x13 Hq13. unfold NUM in Hge.
  destruct (Z.eqb_spec max 0); [lia|]. destruct (Z.ltb_spec max NUM); [unfold NUM in *; lia|].
  apply wp_bind, (wp_setreg _ x _ _ _ _ Hq13). intros x14 Hq14. apply wp_bind, wp_modify.
  assert (Hq15 : quiet x (clear_pages x14)) by exact Hq14. apply wp_bind, wp_modify.
  eapply wp_init_free. intros g Hg1 _. split; [done|]. destruct Hq15 as (L & U & B & Dk & N & T).
  destruct (dv_write_ok VIRTIO_MMIO_QUEUE_PFN (u32 (Z.shiftr pages PGSHIFT)) (v_dev (clear_pages x14))) as (E1 & E2 & E3). cbv zeta in *.
  split; [|split; [exact L|split; [exact B|cbn in E1, Dk |- *; congruence]]]. split; try done; cbn.
  - split; cbn; try done; [constructor| |constructor|constructor|].
    + intros i Hi'. by apply not_elem_of_nil in Hi'.
    + intros r Hr. by apply not_elem_of_nil in Hr.
  - intros r Hr. by apply not_elem_of_nil in Hr.
  - intros r Hr. by apply not_elem_of_nil in Hr.
  - cbn in *. rewrite E2, N, Hn. done.
  - cbn in *. by rewrite E3, T, Ht.
  - cbn in U. by rewrite U, Hu.
Qed.
End init.

(** ** A disk in memory, with the state of a request that the device has finished *)
Record ramdisk := mkRam { rd_blocks : Z → list Z; rd_next : Z; rd_taken : list Z }.
#[local] Instance ramdisk_device : Device ramdisk := {
  mmio_read r d :=
    (if r =? VIRTIO_MMIO_MAGIC_VALUE then 0x74726976
     else if r =? VIRTIO_MMIO_VERSION then 1
     else if r =? VIRTIO_MMIO_DEVICE_ID then 2
     else if r =? VIRTIO_MMIO_VENDOR_ID then 0x554d4551
     else if r =? VIRTIO_MMIO_QUEUE_NUM_MAX then 1024
     else 0, d);
  mmio_write r v d := d;
  dv_disk := rd_blocks;
  dv_next := rd_next
}.
#[local] Instance ramdisk_device_ok : DeviceOk ramdisk.
Proof. refine {| dv_taken := rd_taken |}; done. Defined.
#[local] Existing Instance syms8.
#[local] Existing Instance kbuf16.

Definition buf9 (n : Z) : buf := mkBuf 0 0 1 n (initsleeplock "buffer") 1 0 0 (repeat 0 (Z.to_nat BSIZE)).
Definition vdisk0 : vdisk ramdisk :=
  mkV (initlock "") (λ _, mkDesc DNull 0 0 0) (λ _, 0) 0 0 (λ _, 0) (λ _, 0) 0 (λ _, None) (λ _, 0) buf9
    (mkRam (λ n, repeat n (Z.to_nat BSIZE)) 0 []).
(** The state after virtio_disk_init() *)
Definition vdisk1 : vdisk ramdisk := set_vlock (initlock "virtio_disk") (set_free (λ i, if (0 <=? i) && (i <? 8) then 1 else 0) vdisk0).

Lemma regs0 : virtio_regs (D := ramdisk) 0x74726976 1 2 0x554d4551 1024.
Proof. by split. Qed.

Lemma vdisk1_ok : ginv no_requests [] vdisk1.
Proof.
  split; try done.
  - split; try done; [constructor| | |constructor|constructor|].
    + intros i Hi. by apply not_elem_of_nil in Hi.
    + intros i Hi. unfold NUM in Hi. cbn. destruct (Z.leb_spec 0 i), (Z.ltb_spec i 8); done || lia.
    + intros r Hr. by apply not_elem_of_nil in Hr.
  - intros r Hr. by apply not_elem_of_nil in Hr.
Qed.

Lemma virtio_disk_init_correct_witness :
  wp (virtio_disk_init (P := kst) 0x80020000) (λ _ '(p', x'), ginv no_requests [] x' ∧ v_bufs x' = buf9) (kst3, vdisk0).
Proof.
  eapply wp_mono; [apply (virtio_disk_init_correct 0x80020000 _ vdisk0 1024 regs0); [done..]|]. intros _ [p x] (_ & Hg & _ & Hb & _). by split.
Defined.

Lemma virtio_disk_rw_correct_witness : ∃ p : kst,
  serves (others_rw 3 3) 2 (λ tr _, transferred false 3 3 vdisk1 (um_byte p) tr) [] (Virtio.virtio_disk_rw 2 3 false (p, vdisk1)).
Proof.
  destruct proc8_ok as (p & Hp & Hn & Hu & _). exists p.
  apply (virtio_disk_rw_correct 2 3 3 false p vdisk1 no_requests);
    [exact Hp|exact Hn|exact Hu|done|exact vdisk1_ok|intros r Hr; by apply not_elem_of_nil in Hr|done|lia].
Defined.

(** A request for buffer 3: descriptors 0 to 2 are allocated, it is in the avail ring, taken, in the used ring. *)
Definition req3 : req := mkReq 0 1 2 3 false 6.
Definition alloc_at (i : Z) (x : vdisk ramdisk) : vdisk ramdisk := set_free (upd (v_free x) i 0) x.
Definition ram3 (next : Z) (taken : list Z) : ramdisk := mkRam (λ n, repeat n (Z.to_nat BSIZE)) next taken.
Definition vdisk2 : vdisk ramdisk := submitted req3 (alloc_at 2 (alloc_at 1 (alloc_at 0 vdisk1))).
Definition vdisk3 : vdisk ramdisk := set_dev (ram3 1 [0]) vdisk2.
Definition vdisk4 : vdisk ramdisk := served 0 (ram3 1 []) vdisk3.

Lemma vdisk2_ok : ginv (mkStages [req3] [] [] []) [] vdisk2.
Proof.
  apply (ginv_submit no_requests req3); [|intros r Hr; by apply not_elem_of_nil in Hr].
  apply (ginv_alloc _ [0; 1]); [|done..]. apply (ginv_alloc _ [0]); [|done..]. apply (ginv_alloc _ []); [|done..]. exact vdisk1_ok.
Qed.

Lemma device_within_witness : rely 3 3 vdisk2 vdisk3.
Proof. apply device_within. by apply dev_take. Defined.

Lemma vdisk4_ok : ginv (mkStages [] [] [req3] []) [] vdisk4.
Proof.
  apply (ginv_serve (mkStages [] [req3] [] []) req3 [] []); [|done..]. by apply (ginv_take _ req3 [] _ _ vdisk2_ok).
Qed.

(** Process 1 waits for buffer 3, process 2 for something else. *)
Definition kst_waits : kst := set_procs (upd procs3 1 (slot SLEEPING (CDiskBuf 3) 2)) kst3.

Lemma kst_waits_ok : kst_ok kst_waits.
Proof. split; [apply kst3_ok|by exists 0|]. intros i _. cbn. unfold upd, procs3. by repeat case_match. Qed.

Lemma virtio_disk_intr_correct_witness :
  wp virtio_disk_intr (λ _ '(p', x'), b_disk (v_bufs x' 3) = 0 ∧ p_state (procs p' 1) = RUNNABLE ∧ procs p' 2 = procs3 2) (kst_waits, vdisk4) ∧
  b_disk (v_bufs vdisk4 3) = 1.
Proof.
  split; [|done]. eapply wp_mono; [apply (virtio_disk_intr_correct kst_waits vdisk4 (mkStages [] [] [req3] [])); [apply kst_waits_ok|done|exact vdisk4_ok]|].
  intros _ [p' x'] (_ & _ & Hrep & Hw & _ & Hf & _). split; [apply (Hf req3); by left|]. split.
  - apply (Hw 1 req3 3); [done|by left|done..].
  - by rewrite (reported_procs _ _ _ 2 Hrep).
Defined.
