(* ===== verification/Trap.v ===== *)
(** trap.c and plic.c: interrupts, exceptions and system calls.

    [tst] is the whole kernel on one hart: the system state with the clock, the supervisor
    registers of the hart ([csr]; sstatus is part of [hart]) and the interrupt controller [C].  The disk is the driver of Virtio.v,
    whose buffers are those of the buffer cache.  [Vectors] are addresses of assembly routines and of usertrap().
    usertrapret() ends in a jump to userret(): the model returns the address it jumps to, with the arguments. *)
From S2P Require Import Prelude Machine CString Spinlock Kalloc PageTable Vm Sched Proc ProcSpec Sleeplock Bio Log Fs UserMem Shared UserCopy Pipe ProcUser Uart Printf Console ConsoleProc File Args Exec Sysfile Fork Sysproc Syscall Virtio.

(** memlayout.h, riscv.h *)
Definition PLIC_SENABLE (hart : Z) : Z := PLIC + 0x2080 + hart * 0x100.
Definition PLIC_SPRIORITY (hart : Z) : Z := PLIC + 0x201000 + hart * 0x2000.
Definition PLIC_SCLAIM (hart : Z) : Z := PLIC + 0x201004 + hart * 0x2000.
Definition SSTATUS_SPP : Z := Z.shiftl 1 8.
Definition SSTATUS_SPIE : Z := Z.shiftl 1 5.

(** The supervisor registers that trap.c uses *)
Record csr := mkCsr { sepc : Z; scause : Z; stval : Z; stvec : Z; sip : Z; csr_satp : Z }.
Definition set_sepc v c := mkCsr v (scause c) (stval c) (stvec c) (sip c) (csr_satp c).
Definition set_stvec v c := mkCsr (sepc c) (scause c) (stval c) v (sip c) (csr_satp c).
Definition set_sip v c := mkCsr (sepc c) (scause c) (stval c) (stvec c) v (csr_satp c).

(** The interrupt controller, by the addresses of its registers *)
Class Plic (C : Type) := { plic_read : Z → C → Z * C; plic_write : Z → Z → C → C }.

Class Vectors := { kernelvec : Z; uservec : Z; userret : Z; usertrap_addr : Z }.

Record tst (V U C : Type) := mkT {
  t_st : sys kst (vdisk V) U * clock;
  t_csr : csr;
  t_plic : C
}.
Arguments mkT {V U C}.
Arguments t_st {V U C}.
Arguments t_csr {V U C}.
Arguments t_plic {V U C}.

(** A C string constant *)
Definition cstr (s : string) : list Z := map (λ c, Z.of_N (Ascii.N_of_ascii c)) (String.list_ascii_of_string s).

Section trap.
Context {V U C : Type} `{Symbols} `{KernelBuf} `{!Driver kst (vdisk V)} `{!Device V} `{!Chip U} `{!Plic C} `{!Vectors}.
Context (name0 de0 pad0 : list Z) (forkret_addr : Z).
Abbreviation st := (tst V U C).

Definition on_st {A} (m : M (sys kst (vdisk V) U * clock) A) : M st A :=
  zoom t_st (λ y s, mkT y (t_csr s) (t_plic s)) m.
Definition on_tk {A} (m : M kst A) : M st A := on_st (on_kp m).
Definition t_k (s : st) : kst := f_p (y_fs (fst (t_st s))).
Definition on_tcons {A} (m : M (kst * cst U) A) : M st A := on_st (on_sys (on_console m)).
(** virtio_disk.c on the buffers of the buffer cache *)
Definition disk_get (y : sys kst (vdisk V) U) : kst * vdisk V :=
  let b := l_b (f_l (y_fs y)) in (b_p b, set_vbufs (bufs b) (b_d b)).
Definition disk_put : kst * vdisk V → sys kst (vdisk V) U → sys kst (vdisk V) U := λ '(p, x) y,
  let l := f_l (y_fs y) in set_fs (set_l (set_b (mkB p x (bc_lock (l_b l)) (v_bufs x)) l) (y_fs y)) y.
Definition on_disk {A} (m : M (kst * vdisk V) A) : M st A := on_st (on_sys (zoom disk_get disk_put m)).

(** riscv.h: reading and writing control registers *)
Definition r_csr (f : csr → Z) : M st Z := gets (λ s, f (t_csr s)).
Definition w_csr (f : csr → csr) : M st unit := modify (λ s, mkT (t_st s) (f (t_csr s)) (t_plic s)).
Definition r_sstatus : M st Z := gets (λ s, sstatus (k_hart (t_k s))).
Definition w_sstatus (v : Z) : M st unit := on_tk (on_hart (modify (set_sstatus v))).
Definition r_tp : M st Z := gets (λ s, tp (k_hart (t_k s))).

(** ** plic.c *)
Definition plic_get (a : Z) : M st Z := λ s, let '(v, c) := plic_read a (t_plic s) in Ret v (mkT (t_st s) (t_csr s) c).
Definition plic_set (a v : Z) : M st unit := modify (λ s, mkT (t_st s) (t_csr s) (plic_write a v (t_plic s))).

Definition plicinit : M st unit :=
  plic_set (PLIC + UART0_IRQ * 4) 1;;
  plic_set (PLIC + VIRTIO0_IRQ * 4) 1.

Definition plicinithart : M st unit :=
  hart ← r_tp;
  plic_set (PLIC_SENABLE hart) (Z.lor (Z.shiftl 1 UART0_IRQ) (Z.shiftl 1 VIRTIO0_IRQ));;
  plic_set (PLIC_SPRIORITY hart) 0.

Definition plic_claim : M st Z := hart ← r_tp; irq ← plic_get (PLIC_SCLAIM hart); mret (s32 irq).
Definition plic_complete (irq : Z) : M st unit := hart ← r_tp; plic_set (PLIC_SCLAIM hart) (u32 irq).

(** ** trap.c *)
Definition trapinithart : M st unit := w_csr (set_stvec kernelvec).

(** devintr(); [k] bounds how many characters uartintr() finds waiting *)
Definition devintr (fuel k : nat) : M st Z :=
  cause ← r_csr scause;
  if negb (Z.land cause 0x8000000000000000 =? 0) && (Z.land cause 0xff =? 9) then
    irq ← plic_claim;
    (if irq =? UART0_IRQ then on_tcons (uartintr fuel k)
     else if irq =? VIRTIO0_IRQ then on_disk virtio_disk_intr
     else if negb (irq =? 0) then on_tcons (printf fuel (cstr "unexpected interrupt irq=%d" ++ [10]) [AInt irq])
     else mret ());;
    when_ (negb (irq =? 0)) (plic_complete irq);;
    mret 1
  else if cause =? 0x8000000000000001 then
    hart ← r_tp;
    when_ (hart =? 0) (on_st (on_clock clockintr));;
    w_csr (λ c, set_sip (Z.land (sip c) (Z.lnot 2)) c);;
    mret 2
  else mret 0.

(** usertrapret(): the address of userret() in the trampoline page, TRAPFRAME, and satp of the process *)
Definition usertrapret : M st (Z * Z * Z) :=
  p ← on_tk my;
  on_tk (on_hart (modify intr_off));;
  w_csr (set_stvec (u64 (TRAMPOLINE + (uservec - trampoline))));;
  satp ← r_csr csr_satp;
  on_tk (put_tf p tf_kernel_satp satp);;
  x ← on_tk (getp p);
  on_tk (put_tf p tf_kernel_sp (u64 (p_kstack x + PGSIZE)));;
  on_tk (put_tf p tf_kernel_trap usertrap_addr);;
  hart ← r_tp;
  on_tk (put_tf p tf_kernel_hartid hart);;
  x ← r_sstatus;
  let x := Z.land x (Z.lnot SSTATUS_SPP) in
  let x := Z.lor x SSTATUS_SPIE in
  w_sstatus x;;
  epc ← on_tk (get_tf p tf_epc);
  w_csr (set_sepc epc);;
  x ← on_tk (getp p);
  mret (u64 (TRAMPOLINE + (userret - trampoline)), TRAPFRAME, MAKE_SATP (p_pagetable x)).

Definition unexpected (fuel : nat) (p : Z) : M st unit :=
  cause ← r_csr scause;
  x ← on_tk (getp p);
  on_tcons (printf fuel (cstr "usertrap(): unexpected scause %p pid=%d" ++ [10]) [ALong cause; AInt (p_pid x)]);;
  pc ← r_csr sepc;
  val ← r_csr stval;
  on_tcons (printf fuel (cstr "            sepc=%p stval=%p" ++ [10]) [ALong pc; ALong val]);;
  on_tk (putp p (set_killed 1)).

(** if(p->killed) exit(-1) *)
Definition exit_if_killed (fuel : nat) (p : Z) : M st unit :=
  x ← on_tk (getp p);
  when_ (negb (p_killed x =? 0)) (on_st (on_sys (exit fuel (-1)));; mret ()).

(** usertrap() once the user's pc is saved *)
Definition usertrap_rest (fuel k : nat) (p : Z) : M st (Z * Z * Z) :=
  cause ← r_csr scause;
  which_dev ←
    (if cause =? 8 then
       exit_if_killed fuel p;;
       epc ← on_tk (get_tf p tf_epc);
       on_tk (put_tf p tf_epc (u64 (epc + 4)));;
       on_tk (on_hart (modify intr_on));;
       on_st (syscall name0 de0 pad0 forkret_addr fuel);;
       mret 0
     else
       which_dev ← devintr fuel k;
       when_ (which_dev =? 0) (unexpected fuel p);;
       mret which_dev);
  exit_if_killed fuel p;;
  when_ (which_dev =? 2) (on_tk yield);;
  usertrapret.

Definition usertrap (fuel k : nat) : M st (Z * Z * Z) :=
  x ← r_sstatus;
  if negb (Z.land x SSTATUS_SPP =? 0) then panic "usertrap: not from user mode"
  else
    w_csr (set_stvec kernelvec);;
    p ← on_tk my;
    pc ← r_csr sepc;
    on_tk (put_tf p tf_epc pc);;
    usertrap_rest fuel k p.

Definition kerneltrap (fuel k : nat) : M st unit :=
  pc ← r_csr sepc;
  status ← r_sstatus;
  cause ← r_csr scause;
  if Z.land status SSTATUS_SPP =? 0 then panic "kerneltrap: not from supervisor mode"
  else
    h ← gets (λ s, k_hart (t_k s));
    if intr_get h then panic "kerneltrap: interrupts enabled"
    else
      which_dev ← devintr fuel k;
      (if which_dev =? 0 then
         on_tcons (printf fuel (cstr "scause %p" ++ [10]) [ALong cause]);;
         pc ← r_csr sepc;
         val ← r_csr stval;
         on_tcons (printf fuel (cstr "sepc=%p stval=%p" ++ [10]) [ALong pc; ALong val]);;
         panic "kerneltrap"
       else mret ());;
      running ← (if which_dev =? 2 then
                   mp ← on_tk myproc;
                   match mp with
                   | None => mret false
                   | Some _ =>
                     p ← on_tk my;
                     x ← on_tk (getp p);
                     mret (bool_decide (p_state x = RUNNING))
                   end
                 else mret false);
      when_ running (on_tk yield);;
      w_csr (set_sepc pc);;
      w_sstatus status.
End trap.
