(* ===== verification/TrapSpec.v ===== *)
(** trap.c: an interrupt is invisible to the code it interrupts.

    A disk interrupt in the kernel or in user mode reports the finished requests and returns to the instruction
    it came from, with the registers that kernelvec and sret use restored; so does a timer interrupt, although the process
    gives up the processor in between. *)
From S2P Require Import Prelude Machine CString Spinlock Kalloc PageTable Vm Sched Proc ProcSpec Sleeplock Bio Log Fs UserMem Shared UserCopy Pipe ProcUser Uart Printf Console ConsoleProc File Args Exec Sysfile Fork Sysproc Syscall Virtio VirtioSpec VirtioRw VirtioIntr Trap.

(** ** yield() *)
Lemma yield_eq i s : kst_ok s → noff (k_hart s) = 0 → c_proc s = Some i → 0 ≤ i < NPROC →
  ∃ s1 k, yield s = Wait (WSwtch (p_chan (procs s i))) s1 k ∧ p_state (procs s1 i) = RUNNABLE ∧ c_proc s1 = Some i ∧
    ∀ s2, one_lock i s2 → lock_held (k_hart s2) (p_lock (procs s2 i)) → ∃ s3, k s2 = Ret () s3 ∧ tp (k_hart s3) = tp (k_hart s2).
Proof.
  intros Hok Hn Hc Hi. destruct Hok as [Hh _ Hl]. pose proof (Hl i Hi) as Hli. unfold yield. rewrite (bind_Ret _ _ _ _ _ (myproc_eq s Hh)), Hc.
  cbn [deref]. rewrite (bind_Ret (mret i) _ _ _ _ eq_refl). set (s0 := set_khart (settle (k_hart s)) s).
  destruct (wp_elim _ _ _ (on_plock_acquire i s0 (λ _ t, t = _) Hli eq_refl)) as ([] & ? & E & ->). rewrite (bind_Ret _ _ _ _ _ E). clear E.
  rewrite (bind_Ret (putp i (set_state RUNNABLE)) _ _ _ _ eq_refl). set (s1 := set_procs _ _).
  assert (Ho : one_lock i s1).
  { split; [|apply intr_get_push_off|exact Hc]. change (noff (push_off (settle (k_hart s))) = 1). rewrite noff_push_off, noff_settle. lia. }
  assert (Hp : procs s1 i = set_state RUNNABLE (set_plock (take_lock (push_off (settle (k_hart s))) (p_lock (procs s i))) (procs s i))).
  { unfold s1. cbn [procs set_procs]. by rewrite !upd_eq. }
  assert (Hheld : lock_held (k_hart s1) (p_lock (procs s1 i))) by (rewrite Hp; by split).
  exists s1. eexists. split; [|split; [by rewrite Hp|split; [exact Hc|]]].
  - unfold mbind, M_bind. rewrite (sched_switch i s1 Ho Hheld) by (by rewrite Hp). rewrite Hp. cbn [obind p_chan set_state set_plock]. reflexivity.
  - intros s2 [Hn2 Hi2 Hc2] [Hl1 Hl2]. cbn [obind].
    destruct (pop_last (set_intena (intena (k_hart s1)) (k_hart s2)) Hn2 Hi2) as (h3 & E & _ & Ht & _).
    unfold on_plock, zoom. cbn [set_khart set_pm k_hart k_pm pm_set_hart pm_hart procs]. unfold release, holding. cbn [procs]. rewrite Hl1, Hl2.
    rewrite bool_decide_eq_true_2 by done. cbn [negb andb Z.eqb]. cbv zeta. unfold zoom. cbn [fst]. rewrite E. cbn [zoomo].
    eexists. split; [reflexivity|]. exact Ht.
Qed.

(** ** clockintr() *)
Definition tick (c : clock) : clock := mkClock (tickslock c) (u32 (ticks c + 1)).

Lemma wp_clockintr (s : kst) c (Q : unit → kst * clock → Prop) :
  kst_ok s → lock_free (tickslock c) →
  (∀ s', kst_ok s' → k_hart s' = settle (k_hart s) → c_proc s' = c_proc s →
     (∀ i, p_state (procs s i) ≠ SLEEPING → p_state (procs s' i) = p_state (procs s i)) → Q () (s', tick c)) →
  wp clockintr Q (s, c).
Proof.
  intros Hs Hl HQ. unfold clockintr. apply wp_bind. unfold on_lock. apply wp_zoom. cbn [lk_of clock_locked].
  eapply wp_intro; [exact (acq_eq s (tickslock c) Hl)|]. cbv beta iota. cbn [lget lset sc_hart kst_sched with_lk].
  apply wp_bind, wp_modify, wp_bind, wp_on_sched. set (s1 := set_khart (push_off (k_hart s)) s).
  assert (Hs1 : kst_ok s1) by (destruct Hs as [Hh Hc Hlk]; split; [by apply push_off_ok|exact Hc|exact Hlk]).
  apply (wp_wakeup CTicks s1); [exact Hs1|]. apply wp_zoom.
  set (s2 := table (all_entries (wake CTicks)) s1).
  assert (Hh2 : k_hart s2 = push_off (k_hart s)).
  { change (k_hart s2) with (settle (k_hart s1)). change (k_hart s1) with (push_off (k_hart s)). apply settle_push_off. apply Hs. }
  eapply wp_intro; [apply (rel_eq s2 (k_hart s)); [apply Hs|exact Hh2|apply take_lock_held]|]. cbv beta iota.
  assert (Hend : Q () (set_khart (settle (k_hart s)) s2, tick c)).
  { apply HQ.
    - assert (Hs2 : kst_ok s2) by (apply kst_ok_table; [|done]; intros i; apply entries_keeps, wake_lock).
      destruct Hs2 as [_ Hc2 Hl2]. split; [apply settle_ok, Hs|exact Hc2|exact Hl2].
    - done.
    - done.
    - intros i Hi. change (p_state (all_entries (wake CTicks) i (procs s i)) = p_state (procs s i)).
      unfold all_entries, entries, wake. destruct (_ && _); [|done]. rewrite decide_False; [done|]. by intros [? _]. }
  destruct c as [[l n o] t], Hl as [E1 E2]. cbn in E1, E2. subst. exact Hend.
Qed.

(** ** The parts of the kernel *)
Section spec.
Context {V U C : Type} `{Symbols} `{KernelBuf} `{!Driver kst (vdisk V)} `{!Device V} `{!DeviceOk V} `{!Chip U} `{!Plic C} `{!Vectors}.
Context (name0 de0 pad0 : list Z) (forkret_addr : Z).
Abbreviation st := (tst V U C).

Definition vd (s : st) : vdisk V := snd (disk_get (fst (t_st s))).
Definition set_tk (k : kst) (s : st) : st := mkT (set_yproc k (fst (t_st s)), snd (t_st s)) (t_csr s) (t_plic s).
Definition set_td (k : kst) (x : vdisk V) (s : st) : st := mkT (disk_put (k, x) (fst (t_st s)), snd (t_st s)) (t_csr s) (t_plic s).

Lemma wp_on_tk {A} (m : M kst A) (Q : A → st → Prop) s : wp m (λ a k, Q a (set_tk k s)) (t_k s) → wp (on_tk m) Q s.
Proof.
  intros Hw. unfold on_tk, on_st, on_kp, on_sys, on_k, on_proc. do 3 apply wp_zoom. eapply wp_mono; [exact Hw|].
  intros a k HQ. destruct s as [[y c] r pl]. exact HQ.
Qed.

Lemma wp_on_disk {A} (m : M (kst * vdisk V) A) (Q : A → st → Prop) s :
  wp m (λ a '(k, x), Q a (set_td k x s)) (t_k s, vd s) → wp (on_disk m) Q s.
Proof.
  intros Hw. unfold on_disk, on_st, on_sys. do 3 apply wp_zoom. eapply wp_mono; [exact Hw|].
  intros a [k x] HQ. destruct s as [[y c] r pl]. exact HQ.
Qed.

Lemma set_td_fields k x (s : st) :
  t_k (set_td k x s) = k ∧ vd (set_td k x s) = x ∧ t_csr (set_td k x s) = t_csr s ∧ t_plic (set_td k x s) = t_plic s ∧ snd (t_st (set_td k x s)) = snd (t_st s).
Proof. split_and!; try done. cbn. by destruct x. Qed.

(** What is not the process layer or the registers *)
Definition same_rest (s s' : st) : Prop := vd s' = vd s ∧ t_plic s' = t_plic s ∧ snd (t_st s') = snd (t_st s).

Lemma same_rest_trans s1 s2 s3 : same_rest s1 s2 → same_rest s2 s3 → same_rest s1 s3.
Proof. intros (A1 & A2 & A3) (B1 & B2 & B3). split_and!; congruence. Qed.

(** A disk interrupt is pending at the interrupt controller. *)
Definition disk_irq (s : st) (c : C) : Prop :=
  Z.land (scause (t_csr s)) 0x8000000000000000 ≠ 0 ∧ Z.land (scause (t_csr s)) 0xff = 9 ∧
  plic_read (PLIC_SCLAIM (tp (k_hart (t_k s)))) (t_plic s) = (VIRTIO0_IRQ, c).

(** What the interrupt handler of the disk does: the requests that the device has finished are reported, their threads are woken, and the controller is told. *)
Record disk_done (a : stages) (c : C) (s s' : st) : Prop := {
  dd_told i : procs (t_k s') i = told (map r_buf (g_s a)) i (procs (t_k s) i);
  dd_queue : ∃ a', ginv a' [] (vd s') ∧ g_s a' = [] ∧ g_q a' = g_q a ∧ g_t a' = g_t a;
  dd_bufs r : r ∈ g_s a → b_disk (v_bufs (vd s') (r_buf r)) = 0;
  dd_rely b n : rely b n (vd s) (vd s');
  dd_plic : t_plic s' = plic_write (PLIC_SCLAIM (tp (k_hart (t_k s)))) VIRTIO0_IRQ c;
  dd_clock : snd (t_st s') = snd (t_st s)
}.

(** It returns to the same process and memory, with the locks as they were. *)
Record disk_served (a : stages) (c : C) (s s' : st) : Prop := {
  ds_done : disk_done a c s s';
  ds_calm : calm (t_k s) (t_k s');
  ds_proc : pm_mem (k_pm (t_k s')) = pm_mem (k_pm (t_k s)) ∧ c_proc (t_k s') = c_proc (t_k s)
}.

(** Around it only the process layer's memory and hart and the registers change. *)
Lemma disk_done_frame a c s s1 s2 s3 : disk_done a c s1 s2 → same_rest s s1 → same_rest s2 s3 →
  procs (t_k s1) = procs (t_k s) → procs (t_k s3) = procs (t_k s2) → tp (k_hart (t_k s1)) = tp (k_hart (t_k s)) → disk_done a c s s3.
Proof.
  intros [Hi Hq Hb Hr Hp Hc] (V1 & L1 & C1) (V2 & L2 & C2) P1 P2 T. split; rewrite ?V2, ?P2; try done.
  - intros i. by rewrite Hi, P1.
  - intros b n. rewrite <- V1. apply Hr.
  - by rewrite L2, Hp, T.
  - by rewrite C2, Hc.
Qed.

Lemma wp_devintr_disk fuel k s c a (Q : Z → st → Prop) :
  kst_ok (t_k s) → disk_irq s c → ginv a [] (vd s) → lock_free (vdisk_lock (vd s)) →
  (∀ s', disk_served a c s s' → t_csr s' = t_csr s → Q 1 s') → wp (devintr fuel k) Q s.
Proof.
  intros Hk (Hc1 & Hc2 & Hp) Hg Hl HQ. unfold devintr. apply wp_bind, wp_gets. cbv beta.
  destruct (Z.eqb_spec (Z.land (scause (t_csr s)) 0x8000000000000000) 0) as [E|_]; [done|]. rewrite Hc2. cbn [negb andb Z.eqb Pos.eqb].
  unfold plic_claim. apply wp_bind, wp_bind, wp_gets, wp_bind. unfold plic_get. eapply wp_intro; [rewrite Hp; reflexivity|]. cbv beta.
  apply wp_ret. change (s32 VIRTIO0_IRQ) with 1. cbn [Z.eqb Pos.eqb]. apply wp_bind. change (1 =? UART0_IRQ) with false. change (1 =? VIRTIO0_IRQ) with true. cbv iota.
  set (s1 := mkT (t_st s) (t_csr s) c). apply wp_on_disk.
  apply (wp_disk_intr (t_k s1) (vd s1) a); [exact Hk|exact Hl|exact Hg|]. intros p' x' a' Hcalm Hrep El Hg' Es Eq Et Hr.
  destruct (set_td_fields p' x' s1) as (F1 & F2 & F3 & F4 & F5). set (s2 := set_td p' x' s1) in *.
  cbn [when_ negb]. apply wp_bind. unfold plic_complete. apply wp_bind, wp_gets, wp_modify, wp_ret.
  assert (Htp : tp (k_hart p') = tp (k_hart (t_k s))).
  { pose proof (cm_hart _ _ Hcalm) as Hh. rewrite <- (tp_settle (k_hart p')). cbn [lget sc_hart kst_sched] in Hh. rewrite Hh. apply tp_settle. }
  apply HQ; [|exact F3]. split.
  - split.
    + intros i. change (procs (t_k s2) i = told (map r_buf (g_s a)) i (procs (t_k s) i)). rewrite F1. by apply reported_procs.
    + change (vd (mkT _ _ _)) with (vd s2). rewrite F2. by exists a'.
    + intros r. change (vd (mkT _ _ _)) with (vd s2). rewrite F2. by eapply intr_reported.
    + intros b n. change (vd (mkT _ _ _)) with (vd s2). rewrite F2. apply Hr.
    + cbn [t_plic]. rewrite F4. cbn [t_plic s1]. change (t_k s2) with (t_k s2). rewrite F1, Htp. done.
    + exact F5.
  - change (calm (t_k s) (t_k s2)). by rewrite F1.
  - change (pm_mem (k_pm (t_k s2)) = pm_mem (k_pm (t_k s)) ∧ c_proc (t_k s2) = c_proc (t_k s)). rewrite F1. by eapply reported_rest.
Qed.

(** Writing back the sstatus that is there *)
Lemma wp_w_sstatus v (Q : unit → st → Prop) s : sstatus (k_hart (t_k s)) = v → Q () s → wp (w_sstatus v) Q s.
Proof.
  intros Hv HQ. unfold w_sstatus. apply wp_on_tk. unfold on_hart. apply wp_zoom, wp_modify.
  replace (set_tk _ s) with s; [done|]. destruct s as [[y c] r pl]. unfold set_tk, t_k in *. cbn [t_st t_csr t_plic fst snd] in *. f_equal. f_equal.
  replace (set_sstatus v (k_hart (f_p (y_fs y)))) with (k_hart (f_p (y_fs y))) by (rewrite <- Hv; by destruct (k_hart _)).
  rewrite set_khart_get. destruct y as [[[[p d lk bf] ? ? ? ? ? ? ? ?] ? ? ?] ? ? ? ? ?]. done.
Qed.

Lemma settle_sstatus h : sstatus (settle h) = sstatus h.
Proof. unfold settle. by destruct (noff h =? 0). Qed.

Lemma calm_sstatus (p p' : kst) : calm p p' → sstatus (k_hart p') = sstatus (k_hart p).
Proof.
  intros Hc. pose proof (cm_hart _ _ Hc) as Hh. cbn [lget sc_hart kst_sched] in Hh. by rewrite <- settle_sstatus, Hh, settle_sstatus.
Qed.

(** A disk interrupt in the kernel: kerneltrap() does not panic, reports every request that the device has finished, tells
    the interrupt controller, keeps the other requests and all locks in order, and returns with sepc and sstatus as they were, so that the
    interrupted code goes on. *)
Theorem kerneltrap_disk fuel k s c a :
  kst_ok (t_k s) → disk_irq s c → ginv a [] (vd s) → lock_free (vdisk_lock (vd s)) →
  Z.land (sstatus (k_hart (t_k s))) SSTATUS_SPP ≠ 0 → intr_get (k_hart (t_k s)) = false →
  wp (kerneltrap fuel k) (λ _ s', disk_served a c s s' ∧ t_csr s' = t_csr s ∧ sstatus (k_hart (t_k s')) = sstatus (k_hart (t_k s))) s.
Proof.
  intros Hk Hirq Hg Hl Hspp Hint. unfold kerneltrap. apply wp_bind, wp_gets, wp_bind, wp_gets, wp_bind, wp_gets. cbv beta.
  destruct (Z.eqb_spec (Z.land (sstatus (k_hart (t_k s))) SSTATUS_SPP) 0) as [E|_]; [done|]. apply wp_bind, wp_gets. rewrite Hint.
  apply wp_bind. eapply wp_devintr_disk; [done|exact Hirq|exact Hg|done|]. intros s' Hs' Hcsr. cbn [Z.eqb Pos.eqb].
  apply wp_bind, wp_ret, wp_bind, wp_ret, wp_bind, wp_ret, wp_bind, wp_modify. rewrite <- Hcsr.
  replace (mkT _ _ _) with s' by (by destruct s' as [y [] pl]).
  pose proof (calm_sstatus _ _ (ds_calm _ _ _ _ Hs')) as Hst. apply wp_w_sstatus; [done|]. done.
Qed.

(** The process is switched back to after yield(); the traps taken since then have changed the supervisor registers. *)
Definition resumed (s s' : st) : Prop :=
  ∃ i, c_proc (t_k s) = Some i ∧ one_lock i (t_k s') ∧ lock_held (k_hart (t_k s')) (p_lock (procs (t_k s') i)).

(** What kerneltrap() has done at the switch of a timer interrupt on a hart *)
Definition preempted (s s1 : st) : Prop :=
  (∀ i, c_proc (t_k s) = Some i → p_state (procs (t_k s1) i) = RUNNABLE) ∧
  ticks (snd (t_st s1)) = (if tp (k_hart (t_k s)) =? 0 then u32 (ticks (snd (t_st s)) + 1) else ticks (snd (t_st s))) ∧
  sip (t_csr s1) = Z.land (sip (t_csr s)) (Z.lnot 2).

Lemma wp_devintr_timer fuel k s (Q : Z → st → Prop) :
  kst_ok (t_k s) → scause (t_csr s) = 0x8000000000000001 → lock_free (tickslock (snd (t_st s))) →
  (∀ s', kst_ok (t_k s') → noff (k_hart (t_k s')) = noff (k_hart (t_k s)) → c_proc (t_k s') = c_proc (t_k s) →
     (∀ i, p_state (procs (t_k s) i) ≠ SLEEPING → p_state (procs (t_k s') i) = p_state (procs (t_k s) i)) →
     snd (t_st s') = (if tp (k_hart (t_k s)) =? 0 then tick (snd (t_st s)) else snd (t_st s)) →
     sip (t_csr s') = Z.land (sip (t_csr s)) (Z.lnot 2) → Q 2 s') → wp (devintr fuel k) Q s.
Proof.
  intros Hk Hc Hl HQ. unfold devintr. apply wp_bind, wp_gets. cbv beta. rewrite Hc. change (negb _ && _) with false. cbv iota.
  change (_ =? 0x8000000000000001) with true. cbv iota. apply wp_bind, wp_gets. cbv beta. apply wp_bind.
  destruct (Z.eqb_spec (tp (k_hart (t_k s))) 0) as [E|E]; cbn [when_].
  - unfold on_st, on_clock. apply wp_zoom, wp_zoom. destruct s as [[y ck] r pl]. cbn [t_st fst snd] in *.
    apply (wp_clockintr (t_k (mkT (y, ck) r pl))); [exact Hk|exact Hl|]. intros k' Hk' Hh Hc' Hst. apply wp_bind, wp_modify, wp_ret. apply HQ; try done.
    cbn. change (noff (k_hart k') = noff (k_hart (f_p (y_fs y)))). rewrite Hh. apply noff_settle.
  - apply wp_ret, wp_bind, wp_modify, wp_ret. by apply HQ.
Qed.

(** yield() of the running process, in turns *)
Lemma serves_yield i s tr n (Q : list (st * st) → unit → st → Prop) :
  kst_ok (t_k s) → noff (k_hart (t_k s)) = 0 → c_proc (t_k s) = Some i → 0 ≤ i < NPROC →
  (∀ s1 s2 s3, p_state (procs (t_k s1) i) = RUNNABLE → snd (t_st s1) = snd (t_st s) → t_csr s1 = t_csr s →
     Q (tr ++ [(s1, s2)]) () s3) →
  serves resumed n Q tr (on_tk yield s).
Proof.
  intros Hk Hn Hc Hi HQ. destruct (yield_eq i (t_k s) Hk Hn Hc Hi) as (k1 & k & E & Hst & Hc1 & Hcont).
  destruct s as [[y c] r pl]. unfold on_tk, on_st, on_kp, on_sys, on_k, on_proc, zoom. cbn [t_st fst snd]. change (t_k (mkT (y, c) r pl)) with (f_p (y_fs y)) in *.
  rewrite E. cbn [zoomo serves]. intros [[y2 c2] r2 pl2] (j & Hj & Ho & Hl). assert (j = i) as -> by (change (c_proc k1 = Some j) in Hj; congruence).
  cbn [t_st fst snd]. destruct (Hcont _ Ho Hl) as (k3 & E3 & _). change (t_k (mkT (y2, c2) r2 pl2)) with (f_p (y_fs y2)) in E3. rewrite E3. cbn [zoomo serves].
  apply HQ; done.
Qed.

(** myproc(), which leaves the hart settled *)
Lemma wp_tmyproc s (Q : option Z → st → Prop) : kst_ok (t_k s) →
  Q (c_proc (t_k s)) (set_tk (set_khart (settle (k_hart (t_k s))) (t_k s)) s) → wp (on_tk myproc) Q s.
Proof. intros Hk HQ. apply wp_on_tk. apply wp_myproc; [apply Hk|exact HQ]. Qed.

Lemma settled_ok s : kst_ok s → kst_ok (set_khart (settle (k_hart s)) s).
Proof. intros [Hh Hc Hl]. split; [by apply settle_ok|exact Hc|exact Hl]. Qed.

Lemma wp_tmy s i (Q : Z → st → Prop) : kst_ok (t_k s) → c_proc (t_k s) = Some i →
  Q i (set_tk (set_khart (settle (k_hart (t_k s))) (t_k s)) s) → wp (on_tk my) Q s.
Proof.
  intros Hk Hc HQ. apply wp_on_tk. unfold my. apply wp_bind, wp_myproc; [apply Hk|]. rewrite Hc. by apply wp_ret.
Qed.

(** C15: a timer interrupt in the kernel: kerneltrap() advances the clock on hart 0, acknowledges the interrupt, and if a process is running there, yields once, with the process runnable;
    whatever traps have been taken when it is switched back to, it returns with sepc and sstatus as they were at the interrupt. *)
Theorem kerneltrap_timer fuel k s i :
  kst_ok (t_k s) → noff (k_hart (t_k s)) = 0 → c_proc (t_k s) = Some i → scause (t_csr s) = 0x8000000000000001 → lock_free (tickslock (snd (t_st s))) →
  Z.land (sstatus (k_hart (t_k s))) SSTATUS_SPP ≠ 0 → intr_get (k_hart (t_k s)) = false →
  serves resumed 0 (λ tr _ s', sepc (t_csr s') = sepc (t_csr s) ∧ sstatus (k_hart (t_k s')) = sstatus (k_hart (t_k s)) ∧
    (p_state (procs (t_k s) i) = RUNNING → ∃ s1 s2, tr = [(s1, s2)] ∧ preempted s s1)) [] (kerneltrap fuel k s).
Proof.
  intros Hk Hn Hc Hcause Hl Hspp Hint. unfold kerneltrap. apply serves_step, wp_gets, serves_step, wp_gets, serves_step, wp_gets. cbv beta.
  destruct (Z.eqb_spec (Z.land (sstatus (k_hart (t_k s))) SSTATUS_SPP) 0) as [E|_]; [done|]. apply serves_step, wp_gets. rewrite Hint.
  apply serves_step. eapply wp_devintr_timer; [done..|]. intros s1 Hk1 Hn1 Hc1 Hst1 Hck Hsip. cbn [Z.eqb Pos.eqb].
  apply serves_step, wp_ret, serves_step. apply wp_bind, wp_tmyproc; [done|]. rewrite Hc1, Hc.
  set (s2 := set_tk _ s1). assert (Hk2 : kst_ok (t_k s2)) by (by apply settled_ok).
  apply wp_bind, (wp_tmy s2 i); [done|change (c_proc (t_k s2)) with (c_proc (t_k s1)); by rewrite Hc1|].
  set (s3 := set_tk _ s2). assert (Hk3 : kst_ok (t_k s3)) by (by apply settled_ok).
  apply wp_bind, wp_on_tk, wp_gets, wp_ret. change (set_tk (t_k s3) s3) with (set_tk (t_k s3) s3). set (s4 := set_tk (t_k s3) s3).
  change (procs (t_k s3) i) with (procs (t_k s1) i). assert (Hi : 0 ≤ i < NPROC).
  { destruct (ko_proc _ Hk) as (j & Hj & Hr). rewrite Hc in Hj. by injection Hj as ->. }
  assert (Hend : ∀ tr s', (p_state (procs (t_k s) i) = RUNNING → ∃ s1 s2, tr = [(s1, s2)] ∧ preempted s s1) →
    serves resumed 0 (λ tr (_ : unit) s', sepc (t_csr s') = sepc (t_csr s) ∧ sstatus (k_hart (t_k s')) = sstatus (k_hart (t_k s)) ∧
      (p_state (procs (t_k s) i) = RUNNING → ∃ s1 s2, tr = [(s1, s2)] ∧ preempted s s1)) tr
      ((w_csr (set_sepc (sepc (t_csr s)));; w_sstatus (sstatus (k_hart (t_k s)))) s')).
  { intros tr s' Ht. apply serves_wp, wp_bind, wp_modify. unfold w_sstatus. apply wp_on_tk. unfold on_hart. apply wp_zoom, wp_modify. done. }
  destruct (bool_decide (p_state (procs (t_k s1) i) = RUNNING)) eqn:Er; cbn [when_].
  - apply serves_bind. eapply (serves_yield i s4); [exact Hk3| |change (c_proc (t_k s4)) with (c_proc (t_k s1)); by rewrite Hc1|done|].
    { change (noff (k_hart (t_k s4))) with (noff (settle (settle (k_hart (t_k s1))))). by rewrite !noff_settle, Hn1. }
    intros t1 t2 t3 Hrun Hck' Hcsr'. apply Hend. intros _. exists t1, t2. split; [done|]. split; [|split].
    + intros j Hj. rewrite Hc in Hj. by injection Hj as <-.
    + rewrite Hck'. change (snd (t_st s4)) with (snd (t_st s1)). rewrite Hck. by destruct (_ =? _).
    + rewrite Hcsr'. exact Hsip.
  - apply serves_bind. cbn [serves]. apply Hend. intros Hrun. apply bool_decide_eq_false in Er. destruct Er. rewrite Hst1; [done|by rewrite Hrun].
Qed.

(** ** Returning to user space *)
Definition tf_addr (s : st) (i : Z) : Z := p_trapframe (procs (t_k s) i).
Definition tf_val (s : st) (i reg : Z) : Z := load64 (pm_mem (k_pm (t_k s))) (tf_addr s i + reg).

(** What usertrapret() sets up *)
Record returns_to_user (s s' : st) (i : Z) (r : Z * Z * Z) : Prop := {
  rt_jump : r = (u64 (TRAMPOLINE + (userret - trampoline)), TRAPFRAME, MAKE_SATP (p_pagetable (procs (t_k s) i)));
  rt_procs : procs (t_k s') = procs (t_k s);
  rt_epc : sepc (t_csr s') = tf_val s i tf_epc;
  rt_vec : stvec (t_csr s') = u64 (TRAMPOLINE + (uservec - trampoline));
  rt_mode : Z.testbit (sstatus (k_hart (t_k s'))) 8 = false ∧ Z.testbit (sstatus (k_hart (t_k s'))) 5 = true;
  rt_off : intr_get (k_hart (t_k s')) = false;
  rt_kernel : tf_val s' i tf_kernel_satp = csr_satp (t_csr s) ∧ tf_val s' i tf_kernel_sp = u64 (p_kstack (procs (t_k s) i) + PGSIZE) ∧
    tf_val s' i tf_kernel_trap = usertrap_addr ∧ tf_val s' i tf_kernel_hartid = tp (k_hart (t_k s));
  rt_rest : same_rest s s';
  rt_mem x : (x < tf_addr s i ∨ tf_addr s i + 40 ≤ x ∨ tf_addr s i + 24 ≤ x < tf_addr s i + 32) →
    pm_mem (k_pm (t_k s')) x = pm_mem (k_pm (t_k s)) x
}.

Lemma wp_put_tf s i reg v (Q : unit → st → Prop) :
  (∀ s', pm_mem (k_pm (t_k s')) = store64 (pm_mem (k_pm (t_k s))) (tf_addr s i + reg) v → procs (t_k s') = procs (t_k s) →
     k_hart (t_k s') = k_hart (t_k s) → t_csr s' = t_csr s → same_rest s s' ∧ c_proc (t_k s') = c_proc (t_k s) ∧ (kst_ok (t_k s) → kst_ok (t_k s')) → Q () s') →
  wp (on_tk (put_tf i reg v)) Q s.
Proof.
  intros HQ. apply wp_on_tk. unfold put_tf. apply wp_bind, wp_gets. unfold on_pm. apply wp_zoom, wp_modify. apply HQ; [done..|].
  split_and!; [done..|]. by intros [Hh Hc Hl].
Qed.

Lemma wp_usertrapret s i (Q : Z * Z * Z → st → Prop) :
  kst_ok (t_k s) → c_proc (t_k s) = Some i → 0 ≤ csr_satp (t_csr s) < 2 ^ 64 → 0 ≤ usertrap_addr < 2 ^ 64 → 0 ≤ tp (k_hart (t_k s)) < 2 ^ 64 →
  (∀ r s', returns_to_user s s' i r → Q r s') → wp usertrapret Q s.
Proof.
  intros Hk Hc Hsatp Hut Htp HQ. unfold usertrapret. apply wp_bind, (wp_tmy s i); [done|done|]. set (s1 := set_tk _ s).
  apply wp_bind, wp_on_tk. unfold on_hart at 1. apply wp_zoom, wp_modify. set (s2 := set_tk _ s1). apply wp_bind, wp_modify, wp_bind, wp_gets. cbv beta.
  set (s3 := mkT (t_st s2) _ _). change (csr_satp (t_csr s3)) with (csr_satp (t_csr s)).
  apply wp_bind, wp_put_tf. intros s4 Hm4 Hp4 Hh4 Hr4 [R4 _]. apply wp_bind, wp_on_tk, wp_gets. set (s5 := set_tk (t_k s4) s4).
  apply wp_bind, wp_put_tf. intros s6 Hm6 Hp6 Hh6 Hr6 [R6 _]. apply wp_bind, wp_put_tf. intros s7 Hm7 Hp7 Hh7 Hr7 [R7 _]. apply wp_bind, wp_gets. cbv beta.
  apply wp_bind, wp_put_tf. intros s8 Hm8 Hp8 Hh8 Hr8 [R8 _].
  change (procs (t_k s3)) with (procs (t_k s)) in Hp4. change (procs (t_k s5)) with (procs (t_k s4)) in Hp6. rewrite Hp4 in Hp6. rewrite Hp6 in Hp7. rewrite Hp7 in Hp8.
  change (k_hart (t_k s3)) with (intr_off (settle (k_hart (t_k s)))) in Hh4. change (k_hart (t_k s5)) with (k_hart (t_k s4)) in Hh6.
  rewrite Hh4 in Hh6. rewrite Hh6 in Hh7. rewrite Hh7 in Hh8.
  unfold tf_addr in Hm4, Hm6, Hm7, Hm8. change (procs (t_k s3)) with (procs (t_k s)) in Hm4. change (procs (t_k s5)) with (procs (t_k s4)) in Hm6.
  rewrite Hp4 in Hm6. rewrite Hp6 in Hm7. rewrite Hp7 in Hm8. change (pm_mem (k_pm (t_k s3))) with (pm_mem (k_pm (t_k s))) in Hm4.
  change (pm_mem (k_pm (t_k s5))) with (pm_mem (k_pm (t_k s4))) in Hm6. rewrite Hm4 in Hm6. rewrite Hm6 in Hm7. rewrite Hm7 in Hm8.
  assert (Et : tp (k_hart (t_k s7)) = tp (k_hart (t_k s))) by (rewrite Hh7; cbn; apply tp_settle). rewrite Et in Hm8.
  clear Hm4 Hm6 Hm7. apply wp_bind, wp_gets. cbv beta. rewrite Hh8. apply wp_bind. unfold w_sstatus. apply wp_on_tk. unfold on_hart. apply wp_zoom, wp_modify.
  set (s9 := set_tk _ s8). apply wp_bind, wp_on_tk. unfold get_tf. apply wp_bind, wp_gets, wp_gets. set (s10 := set_tk _ s9).
  apply wp_bind, wp_modify, wp_bind, wp_on_tk, wp_gets, wp_ret. set (s11 := set_tk _ _). change (procs (t_k s9)) with (procs (t_k s8)).
  change (pm_mem (k_pm (t_k s9))) with (pm_mem (k_pm (t_k s8))). apply HQ.
  set (ta := p_trapframe (procs (t_k s) i)) in *. set (m := pm_mem (k_pm (t_k s))) in *.
  assert (Hmem : pm_mem (k_pm (t_k s11)) = pm_mem (k_pm (t_k s8))) by done.
  assert (Hpr : procs (t_k s11) = procs (t_k s)) by exact Hp8.
  split.
  - match goal with |- context [p_pagetable ?f] => change f with (procs (t_k s11) i) end. by rewrite Hpr.
  - exact Hpr.
  - change (sepc (t_csr s11)) with (load64 (pm_mem (k_pm (t_k s8))) (p_trapframe (procs (t_k s8) i) + tf_epc)). rewrite Hp8, Hm8. fold ta.
    unfold tf_val, tf_addr. fold ta m. unfold tf_kernel_satp, tf_kernel_sp, tf_kernel_trap, tf_kernel_hartid, tf_epc.
    rewrite !load64_store64_ne by lia. done.
  - change (stvec (t_csr s11)) with (stvec (t_csr s8)). by rewrite Hr8, Hr7, Hr6; change (t_csr s5) with (t_csr s4); rewrite Hr4.
  - change (sstatus (k_hart (t_k s11))) with (Z.lor (Z.land (sstatus (intr_off (settle (k_hart (t_k s))))) (Z.lnot SSTATUS_SPP)) SSTATUS_SPIE).
    split; rewrite Z.lor_spec, Z.land_spec; [|by rewrite orb_true_r]. by rewrite andb_false_r.
  - rewrite intr_get_bit. change (sstatus (k_hart (t_k s11))) with (Z.lor (Z.land (sstatus (intr_off (settle (k_hart (t_k s))))) (Z.lnot SSTATUS_SPP)) SSTATUS_SPIE).
    rewrite Z.lor_spec, Z.land_spec. pose proof (intr_get_off (settle (k_hart (t_k s)))) as Hoff. rewrite intr_get_bit in Hoff. by rewrite Hoff.
  - unfold tf_val, tf_addr. rewrite Hpr, Hmem, Hm8. fold ta. unfold tf_kernel_satp, tf_kernel_sp, tf_kernel_trap, tf_kernel_hartid.
    split_and!.
    + rewrite !load64_store64_ne by lia. by apply load64_store64_eq.
    + rewrite !load64_store64_ne by lia. apply load64_store64_eq. apply u64_range.
    + rewrite load64_store64_ne by lia. by apply load64_store64_eq.
    + by apply load64_store64_eq.
  - apply (same_rest_trans s s4); [exact R4|]. apply (same_rest_trans s4 s6); [exact R6|]. apply (same_rest_trans s6 s7); [exact R7|exact R8].
  - intros x Hx. unfold tf_addr in Hx. fold ta in Hx. rewrite Hmem, Hm8. unfold store64, tf_kernel_satp, tf_kernel_sp, tf_kernel_trap, tf_kernel_hartid.
    rewrite !store_out by lia. done.
Qed.

(** usertrapret() sends later traps to the trampoline, leaves the next instruction, the user's page table and user mode
    with interrupts enabled for sret, and writes to the trapframe only what uservec needs: the user's registers there are as they were. *)
Theorem usertrapret_correct s i :
  kst_ok (t_k s) → c_proc (t_k s) = Some i → 0 ≤ csr_satp (t_csr s) < 2 ^ 64 → 0 ≤ usertrap_addr < 2 ^ 64 → 0 ≤ tp (k_hart (t_k s)) < 2 ^ 64 →
  wp usertrapret (λ r s', returns_to_user s s' i r) s.
Proof. intros. by eapply wp_usertrapret. Qed.

(** ** Traps from user space *)
Lemma wp_exit_if fuel i s (Q : unit → st → Prop) :
  p_killed (procs (t_k s) i) = 0 → Q () s → wp (exit_if_killed fuel i) Q s.
Proof.
  intros Hkill HQ. unfold exit_if_killed. apply wp_bind, wp_on_tk, wp_gets. cbv beta. rewrite Hkill. cbn [when_ negb Z.eqb].
  apply wp_ret. replace (set_tk _ s) with s; [done|]. destruct s as [[y c] r pl]. by destruct y as [[[[p d lk bf] ? ? ? ? ? ? ? ?] ? ? ?] ? ? ? ? ?].
Qed.

(** The entry of usertrap(): the trap is from user mode, and its pc goes to the trapframe *)
Record entered (s s' : st) (i : Z) : Prop := {
  en_ok : kst_ok (t_k s');
  en_proc : c_proc (t_k s') = Some i;
  en_procs : procs (t_k s') = procs (t_k s);
  en_hart : k_hart (t_k s') = settle (k_hart (t_k s));
  en_csr : t_csr s' = set_stvec kernelvec (t_csr s);
  en_mem : pm_mem (k_pm (t_k s')) = store64 (pm_mem (k_pm (t_k s))) (tf_addr s i + tf_epc) (sepc (t_csr s));
  en_rest : same_rest s s'
}.

Lemma wp_usertrap fuel k s i (Q : Z * Z * Z → st → Prop) :
  kst_ok (t_k s) → c_proc (t_k s) = Some i → Z.land (sstatus (k_hart (t_k s))) SSTATUS_SPP = 0 →
  (∀ s', entered s s' i → wp (usertrap_rest name0 de0 pad0 forkret_addr fuel k i) Q s') → wp (usertrap name0 de0 pad0 forkret_addr fuel k) Q s.
Proof.
  intros Hk Hc Hspp HQ. unfold usertrap. apply wp_bind, wp_gets. cbv beta. rewrite Hspp. cbn [negb Z.eqb].
  apply wp_bind, wp_modify, wp_bind, (wp_tmy _ i); [exact Hk|exact Hc|]. set (s1 := set_tk _ _). apply wp_bind, wp_gets. cbv beta.
  apply wp_bind, wp_put_tf. intros s' Hm Hp Hh Hr (Hrest & Hc' & Hok). apply HQ. split; try done.
  { apply Hok. change (t_k s1) with (set_khart (settle (k_hart (t_k s))) (t_k s)). by apply settled_ok. }
  by rewrite Hc'.
Qed.

(** What the user's program sees of a trap: it goes on at [pc], in its page table, with its memory and saved registers
    but those of [reg] as they were *)
Record back_to_user (s s' : st) (i pc : Z) (keep : Z → Prop) (r : Z * Z * Z) : Prop := {
  bu_jump : r = (u64 (TRAMPOLINE + (userret - trampoline)), TRAPFRAME, MAKE_SATP (p_pagetable (procs (t_k s) i)));
  bu_pc : sepc (t_csr s') = pc;
  bu_mode : Z.testbit (sstatus (k_hart (t_k s'))) 8 = false ∧ Z.testbit (sstatus (k_hart (t_k s'))) 5 = true;
  bu_vec : stvec (t_csr s') = u64 (TRAMPOLINE + (uservec - trampoline));
  bu_mem x : keep x → pm_mem (k_pm (t_k s')) x = pm_mem (k_pm (t_k s)) x
}.

(** All but the kernel's part of the trapframe: its first 40 bytes, which hold the kernel's registers and the user's pc *)
Definition user_part (s : st) (i x : Z) : Prop := x < tf_addr s i ∨ tf_addr s i + 40 ≤ x.

(** C16: a disk interrupt in user mode is invisible to the program: usertrap() goes back to the
    instruction that was interrupted, in user mode, with the same page table, memory and saved registers. When it does, the requests that the disk has finished are reported: their
    buffers are no longer the disk's, exactly the processes that sleep on one of these buffers have become runnable, and the interrupt controller has been told; nothing is done to the other
    requests, the other processes and the clock. *)
Theorem usertrap_disk fuel k s c a i :
  kst_ok (t_k s) → c_proc (t_k s) = Some i → p_killed (procs (t_k s) i) = 0 → disk_irq s c → ginv a [] (vd s) → lock_free (vdisk_lock (vd s)) →
  Z.land (sstatus (k_hart (t_k s))) SSTATUS_SPP = 0 → scause (t_csr s) ≠ 8 → 0 ≤ sepc (t_csr s) < 2 ^ 64 →
  0 ≤ csr_satp (t_csr s) < 2 ^ 64 → 0 ≤ usertrap_addr < 2 ^ 64 → 0 ≤ tp (k_hart (t_k s)) < 2 ^ 64 →
  wp (usertrap name0 de0 pad0 forkret_addr fuel k)
    (λ r s', back_to_user s s' i (sepc (t_csr s)) (user_part s i) r ∧ disk_done a c s s') s.
Proof.
  intros Hk Hc Hkill (Hq1 & Hq2 & Hq3) Hg Hl Hspp Hcause Hpc Hsatp Hut Htp. apply (wp_usertrap fuel k s i); [done..|]. intros s1 Hen.
  pose proof (en_csr _ _ _ Hen) as Hr. pose proof (en_rest _ _ _ Hen) as Hrest. destruct Hrest as (Hv & Hpl & _).
  unfold usertrap_rest. apply wp_bind, wp_gets. cbv beta. rewrite Hr. change (scause (set_stvec kernelvec (t_csr s))) with (scause (t_csr s)).
  destruct (Z.eqb_spec (scause (t_csr s)) 8) as [E|_]; [done|]. apply wp_bind, wp_bind.
  assert (Htp1 : tp (k_hart (t_k s1)) = tp (k_hart (t_k s))) by (rewrite (en_hart _ _ _ Hen); apply tp_settle).
  apply (wp_devintr_disk fuel k s1 c a); [apply (en_ok _ _ _ Hen)| |by rewrite Hv..|].
  { unfold disk_irq. rewrite Hr, Hpl, Htp1. by split_and!. }
  intros s2 Hds Hr2. cbn [when_ Z.eqb Pos.eqb]. apply wp_bind, wp_ret, wp_ret.
  destruct (ds_proc _ _ _ _ Hds) as (Hm2 & Hc2). pose proof (dd_told _ _ _ _ (ds_done _ _ _ _ Hds) i) as Hpi. rewrite (en_procs _ _ _ Hen) in Hpi.
  destruct (told_rest (map r_buf (g_s a)) i (procs (t_k s) i)) as (Tk & Tt & Tp). rewrite <- Hpi in Tk, Tt, Tp.
  apply wp_bind, wp_exit_if; [by rewrite Tk|]. cbn [when_ Z.eqb Pos.eqb]. apply wp_bind, wp_ret.
  pose proof (ds_calm _ _ _ _ Hds) as Hcalm.
  assert (Htp2 : tp (k_hart (t_k s2)) = tp (k_hart (t_k s))).
  { pose proof (cm_hart _ _ Hcalm) as Hh. cbn [lget sc_hart kst_sched] in Hh. rewrite <- (tp_settle (k_hart (t_k s2))), Hh, tp_settle. exact Htp1. }
  assert (Hta : tf_addr s2 i = tf_addr s i) by exact Tt.
  assert (Hmem : pm_mem (k_pm (t_k s2)) = store64 (pm_mem (k_pm (t_k s))) (tf_addr s i + tf_epc) (sepc (t_csr s))) by (rewrite Hm2; apply (en_mem _ _ _ Hen)).
  apply (wp_usertrapret s2 i); [apply (cm_inv _ _ Hcalm)|by rewrite Hc2, (en_proc _ _ _ Hen)|by rewrite Hr2, Hr|done|by rewrite Htp2|].
  intros r s3 [Hj Hp3 Hep Hvec Hmode _ _ R3 Hkeep]. split; [split; [|rewrite Hep|done|done|]|].
  - by rewrite Hj, Tp.
  - unfold tf_val. rewrite Hta, Hmem. by apply load64_store64_eq.
  - intros x Hx. unfold user_part in Hx. rewrite Hkeep by (rewrite Hta; lia). rewrite Hmem. unfold store64, tf_epc. rewrite store_out by lia. done.
  - by apply (disk_done_frame a c s s1 s2 s3 (ds_done _ _ _ _ Hds)); [apply (en_rest _ _ _ Hen)| |apply (en_procs _ _ _ Hen)|..].
Qed.

(** *** System calls *)
Lemma wp_on_st_bind {A B} (m : M (sys kst (vdisk V) U * clock) A) (f : A → M (sys kst (vdisk V) U * clock) B) (Q : B → st → Prop) s :
  wp (on_st m) (λ a s', wp (on_st (f a)) Q s') s → wp (on_st (x ← m; f x)) Q s.
Proof.
  unfold wp, on_st, zoom, mbind, M_bind. destruct (m (t_st s)) as [a y| | |]; cbn [zoomo obind]; try done.
  intros Hw. cbn [t_st] in Hw. destruct (f a y); exact Hw.
Qed.

(** What a system call needs the process to be when it returns *)
Record call_done (s s' : st) (i : Z) : Prop := {
  cd_ok : kst_ok (t_k s');
  cd_proc : c_proc (t_k s') = Some i;
  cd_killed : p_killed (procs (t_k s') i) = 0;
  cd_tf : tf_addr s' i = tf_addr s i;
  cd_satp : csr_satp (t_csr s') = csr_satp (t_csr s);
  cd_tp : 0 ≤ tp (k_hart (t_k s')) < 2 ^ 64
}.

(** The kernel at the start of a system call: the pc that the process will go back to is the next instruction. *)
Record calling (s s' : st) (i : Z) : Prop := {
  cl_ok : kst_ok (t_k s');
  cl_proc : c_proc (t_k s') = Some i;
  cl_procs : procs (t_k s') = procs (t_k s);
  cl_tp : tp (k_hart (t_k s')) = tp (k_hart (t_k s));
  cl_csr : t_csr s' = set_stvec kernelvec (t_csr s);
  cl_mem : pm_mem (k_pm (t_k s')) =
    store64 (store64 (pm_mem (k_pm (t_k s))) (tf_addr s i + tf_epc) (sepc (t_csr s))) (tf_addr s i + tf_epc) (u64 (sepc (t_csr s) + 4))
}.

Lemma intr_on_ok h : noff h = 0 → hart_ok (intr_on h).
Proof. intros Hn. split; change (noff (intr_on h)) with (noff h); lia. Qed.

Lemma wp_usertrap_call fuel k s i c (Q : Z * Z * Z → st → Prop) :
  kst_ok (t_k s) → noff (k_hart (t_k s)) = 0 → c_proc (t_k s) = Some i → p_killed (procs (t_k s) i) = 0 →
  Z.land (sstatus (k_hart (t_k s))) SSTATUS_SPP = 0 → scause (t_csr s) = 8 → 0 ≤ sepc (t_csr s) < 2 ^ 64 →
  call_of (s32 (tf_val s i tf_a7)) = Some c → 0 ≤ csr_satp (t_csr s) < 2 ^ 64 → 0 ≤ usertrap_addr < 2 ^ 64 →
  (∀ s1, calling s s1 i → wp (on_st (do_call name0 de0 pad0 forkret_addr fuel c)) (λ v s2, call_done s s2 i ∧
     ∀ r s3, back_to_user s2 s3 i (tf_val s2 i tf_epc) (λ x, user_part s i x ∧ (x < tf_addr s i + tf_a0 ∨ tf_addr s i + tf_a0 + 8 ≤ x)) r →
       (0 ≤ v < 2 ^ 64 → tf_val s3 i tf_a0 = v) → Q r s3) s1) →
  wp (usertrap name0 de0 pad0 forkret_addr fuel k) Q s.
Proof.
  intros Hk Hn Hc Hkill Hspp Hcause Hpc Ha7 Hsatp Hut HQ. apply (wp_usertrap fuel k s i); [done..|]. intros s1 Hen.
  pose proof (en_csr _ _ _ Hen) as Hr. unfold usertrap_rest. apply wp_bind, wp_gets. cbv beta. rewrite Hr.
  change (scause (set_stvec kernelvec (t_csr s))) with (scause (t_csr s)). rewrite Hcause. cbn [Z.eqb Pos.eqb].
  apply wp_bind, wp_bind, wp_exit_if; [by rewrite (en_procs _ _ _ Hen)|]. apply wp_bind, wp_on_tk. unfold get_tf. apply wp_bind, wp_gets, wp_gets.
  set (s2 := set_tk _ s1). change (set_tk (t_k s1) s1) with s2.
  assert (Eta : p_trapframe (procs (t_k s1) i) = tf_addr s i) by (by rewrite (en_procs _ _ _ Hen)). rewrite Eta, (en_mem _ _ _ Hen).
  rewrite load64_store64_eq by done. apply wp_bind, wp_put_tf. intros s3 Hm3 Hp3 Hh3 Hr3 (_ & Hc3 & Hok3).
  apply wp_bind, wp_on_tk. unfold on_hart. apply wp_zoom, wp_modify. set (s4 := set_tk _ s3).
  assert (Hn3 : noff (k_hart (t_k s3)) = 0).
  { rewrite Hh3. change (k_hart (t_k s2)) with (k_hart (t_k s1)). by rewrite (en_hart _ _ _ Hen), noff_settle. }
  assert (Hcl : calling s s4 i).
  { split.
    - destruct (Hok3 (en_ok _ _ _ Hen)) as [_ Hc' Hl']. split; [by apply intr_on_ok|exact Hc'|exact Hl'].
    - change (c_proc (t_k s3) = Some i). rewrite Hc3. apply (en_proc _ _ _ Hen).
    - change (procs (t_k s3) = procs (t_k s)). rewrite Hp3. apply (en_procs _ _ _ Hen).
    - change (tp (k_hart (t_k s3)) = tp (k_hart (t_k s))). rewrite Hh3. change (k_hart (t_k s2)) with (k_hart (t_k s1)). rewrite (en_hart _ _ _ Hen). apply tp_settle.
    - change (t_csr s3 = set_stvec kernelvec (t_csr s)). by rewrite Hr3.
    - change (pm_mem (k_pm (t_k s3)) = store64 (store64 (pm_mem (k_pm (t_k s))) (tf_addr s i + tf_epc) (sepc (t_csr s))) (tf_addr s i + tf_epc) (u64 (sepc (t_csr s) + 4))).
      rewrite Hm3. change (pm_mem (k_pm (t_k s2))) with (pm_mem (k_pm (t_k s1))). rewrite (en_mem _ _ _ Hen).
      change (tf_addr s2 i) with (p_trapframe (procs (t_k s1) i)). by rewrite Eta. }
  apply wp_bind. unfold syscall. apply wp_on_st_bind. apply (wp_tmy s4 i); [apply Hcl..|].
  set (s5 := set_tk _ s4). apply wp_on_st_bind. apply (wp_on_tk (get_tf i tf_a7)). unfold get_tf. apply wp_bind, wp_gets, wp_gets.
  assert (Ha : s32 (load64 (pm_mem (k_pm (t_k s5))) (p_trapframe (procs (t_k s5) i) + tf_a7)) = s32 (tf_val s i tf_a7)).
  { change (pm_mem (k_pm (t_k s5))) with (pm_mem (k_pm (t_k s4))). change (p_trapframe (procs (t_k s5) i)) with (p_trapframe (procs (t_k s4) i)).
    rewrite (cl_mem _ _ _ Hcl), (cl_procs _ _ _ Hcl). unfold tf_val. fold (tf_addr s i). unfold tf_epc, tf_a7. by rewrite !load64_store64_ne by lia. }
  rewrite Ha, Ha7. set (s6 := set_tk (t_k s5) s5).
  assert (Hcl6 : calling s s6 i).
  { destruct Hcl as [Hok4 Hc4 Hp4 Ht4 Hr4 Hm4]. split; [by apply (settled_ok (t_k s4))|exact Hc4|exact Hp4|rewrite <- Ht4; apply tp_settle|exact Hr4|exact Hm4]. }
  apply wp_on_st_bind. eapply wp_mono; [exact (HQ s6 Hcl6)|]. intros v s7 [[Hok7 Hc7 Hkill7 Htf7 Hsatp7 Htp7] HQ'].
  apply (wp_put_tf s7 i tf_a0 v). intros s8 Hm8 Hp8 Hh8 Hr8 (_ & Hc8 & Hok8).
  apply wp_ret, wp_bind, wp_exit_if; [by rewrite Hp8|]. cbn [when_ Z.eqb]. apply wp_bind, wp_ret.
  assert (Eta8 : tf_addr s8 i = tf_addr s i) by (unfold tf_addr in *; by rewrite Hp8).
  apply (wp_usertrapret s8 i); [by apply Hok8|by rewrite Hc8|by rewrite Hr8, Hsatp7|done|by rewrite Hh8|].
  intros r s9 [Hj Hp9 Hep Hvec Hmode _ _ _ Hkeep]. rewrite Htf7 in Hm8. apply (HQ' r s9).
  - split; [by rewrite Hj, Hp8| |done|done|].
    + rewrite Hep. unfold tf_val. rewrite Eta8, Htf7, Hm8. apply load64_store64_ne. unfold tf_a0, tf_epc. lia.
    + unfold user_part. intros x [Hx1 Hx2]. rewrite Hkeep by (rewrite Eta8; lia). rewrite Hm8. unfold store64, tf_a0 in *. by rewrite store_out by lia.
  - intros Hv. unfold tf_val. replace (tf_addr s9 i) with (tf_addr s i) by (unfold tf_addr; rewrite Hp9; by symmetry).
    unfold load64. rewrite (load_ext 8 _ (pm_mem (k_pm (t_k s8)))).
    + rewrite Hm8. by apply load64_store64_eq.
    + intros j Hj'. apply Hkeep. rewrite Eta8. unfold tf_a0 in *. right. left. lia.
Qed.

(** C17: a system call from user mode: for getpid(), usertrap() goes back to the instruction after the ecall in user mode, with the
    process's pid in a0, and the page table, the memory and the other saved registers as they were. *)
Theorem usertrap_getpid fuel k s i :
  kst_ok (t_k s) → noff (k_hart (t_k s)) = 0 → c_proc (t_k s) = Some i → p_killed (procs (t_k s) i) = 0 →
  Z.land (sstatus (k_hart (t_k s))) SSTATUS_SPP = 0 → scause (t_csr s) = 8 → 0 ≤ sepc (t_csr s) < 2 ^ 64 →
  s32 (tf_val s i tf_a7) = 11 → 0 ≤ csr_satp (t_csr s) < 2 ^ 64 → 0 ≤ usertrap_addr < 2 ^ 64 → 0 ≤ tp (k_hart (t_k s)) < 2 ^ 64 →
  0 ≤ p_pid (procs (t_k s) i) < 2 ^ 31 →
  wp (usertrap name0 de0 pad0 forkret_addr fuel k) (λ r s',
    back_to_user s s' i (u64 (sepc (t_csr s) + 4)) (λ x, user_part s i x ∧ (x < tf_addr s i + tf_a0 ∨ tf_addr s i + tf_a0 + 8 ≤ x)) r ∧
    tf_val s' i tf_a0 = p_pid (procs (t_k s) i)) s.
Proof.
  intros Hk Hn Hc Hkill Hspp Hcause Hpc Ha7 Hsatp Hut Htp Hpid. apply (wp_usertrap_call fuel k s i SYS_getpid);
    [exact Hk|exact Hn|exact Hc|exact Hkill|exact Hspp|exact Hcause|exact Hpc|by rewrite Ha7|exact Hsatp|exact Hut|].
  intros s1 [Hok1 Hc1 Hp1 Ht1 Hr1 Hm1]. cbn [do_call]. unfold sys_getpid. apply wp_on_st_bind. apply (wp_tmy s1 i); [done|done|].
  set (s2 := set_tk _ s1). apply wp_on_st_bind. apply (wp_on_tk (getp i)), wp_gets. set (s3 := set_tk (t_k s2) s2).
  unfold on_st. apply wp_zoom, wp_ret. change (procs (t_k s2) i) with (procs (t_k s1) i). rewrite Hp1.
  match goal with |- call_done _ ?x _ ∧ _ => replace x with s3 by (by destruct s3) end.
  assert (Hta : tf_addr s3 i = tf_addr s i) by (unfold tf_addr; change (procs (t_k s3)) with (procs (t_k s1)); by rewrite Hp1).
  assert (Hm3 : pm_mem (k_pm (t_k s3)) = pm_mem (k_pm (t_k s1))) by done. split.
  - split; [by apply (settled_ok (t_k s1))|exact Hc1| |exact Hta| |].
    + change (p_killed (procs (t_k s1) i) = 0). by rewrite Hp1.
    + change (csr_satp (t_csr s1) = csr_satp (t_csr s)). by rewrite Hr1.
    + change (0 ≤ tp (settle (k_hart (t_k s1))) < 2 ^ 64). by rewrite tp_settle, Ht1.
  - intros r s4 [Hj Hep Hmode Hvec Hkeep] Hv. split; [|apply Hv; lia]. split; [|rewrite Hep|done|done|].
    + rewrite Hj. change (procs (t_k s3)) with (procs (t_k s1)). by rewrite Hp1.
    + unfold tf_val. rewrite Hta, Hm3, Hm1. apply load64_store64_eq, u64_range.
    + intros x Hx. rewrite (Hkeep x Hx), Hm3, Hm1. destruct Hx as [Hx _]. unfold user_part in Hx. unfold store64, tf_epc. by rewrite !store_out by lia.
Qed.
End spec.
