(* ===== verification/TrapBoot.v ===== *)
(** trap.c: a concrete kernel in the midst of a trap, for the witnesses of TrapSpec.v.

    The processes are those of [kst3], of which 0 runs, and process 3, which waits for buffer 3; the disk is the ramdisk of VirtioBoot.v, on which a
    request for buffer 3 is done; the interrupt controller reports the disk. *)
From S2P Require Import Prelude Machine CString Spinlock Kalloc PageTable Vm VmMap VmUser VmCopy Sched Proc ProcSpec Sleeplock Bio Log Fs UserMem Shared UserCopy Pipe ProcUser Uart Printf Console ConsoleSpec ConsoleProc File Args Exec Sysfile Fork Sysproc Syscall Bcache FsCodec FsView FsAlloc FsInode FsFile FsBoot FsDir FileSpec Virtio VirtioSpec VirtioRw VirtioIntr VirtioBoot Trap TrapSpec.

#[local] Existing Instance syms8.
#[local] Existing Instance kbuf16.
#[local] Existing Instance ramdisk_device.
#[local] Existing Instance ramdisk_device_ok.
#[local] Existing Instance idle_chip.
#[local] Instance driver3 : Driver kst (vdisk ramdisk) := virtio_driver 3.

(** The controller keeps what was written to it; its claim register says that the disk waits. *)
#[local] Instance plic_disk : Plic (list (Z * Z)) := {
  plic_read a c := (if a =? PLIC_SCLAIM 0 then VIRTIO0_IRQ else 0, c);
  plic_write a v c := c ++ [(a, v)]
}.
#[local] Instance vectors3 : Vectors := {
  kernelvec := 0x80005000; uservec := 0x80007000; userret := 0x80007090; usertrap_addr := 0x80002000
}.

(** A trap with the cause and sstatus, of a process whose a7 is 11 *)
Definition kst_trap (sst : Z) : kst :=
  mkK (mkPmem (mkHart 0 sst 0 0) (initlock "kmem") 0 (store64 (λ _, 0) tf_a7 11)) (Some 0) (upd procs3 3 (ProcSpec.slot SLEEPING (CDiskBuf 3) 4)) (initlock "nextpid") 4 (Some 0).
Definition trap3 (cause sst : Z) : tst ramdisk (list Z) (list (Z * Z)) :=
  mkT (mkSys (mkFs (mkL (mkB (kst_trap sst) vdisk4 (initlock "bcache") (v_bufs vdisk4)) (initlock "log") 2 30 0 0 ROOTDEV 0 (λ _, 0))
         sb3 (initlock "icache") (λ _, ip17))
       (initlock "ftable") (λ _, file3 0) (λ _, pipe8) (console1 0 0) (λ _, mkDevsw None None), mkClock (initlock "time") 41)
    (mkCsr 0x1000 cause 0 0 2 (2 ^ 63)) [].

Lemma kst_trap_ok sst : kst_ok (kst_trap sst).
Proof. split; [by split|by exists 0|]. intros i _. cbn. unfold upd, procs3. by repeat case_match. Qed.

Definition disk_cause : Z := 0x8000000000000009.
Definition timer_cause : Z := 0x8000000000000001.
Definition one_done : stages := mkStages [] [] [req3] [].

Lemma trap3_disk sst : disk_irq (trap3 disk_cause sst) [].
Proof. by split_and!. Qed.

Lemma trap3_ginv cause sst : ginv one_done [] (vd (trap3 cause sst)).
Proof. exact vdisk4_ok. Qed.

Lemma kerneltrap_disk_witness :
  wp (kerneltrap 5 5) (λ _ s', b_disk (v_bufs (vd s') 3) = 0 ∧ t_plic s' = [(PLIC_SCLAIM 0, 1)] ∧ sepc (t_csr s') = 0x1000) (trap3 disk_cause 256).
Proof.
  eapply wp_mono; [apply (kerneltrap_disk 5 5 (trap3 disk_cause 256) [] one_done);
    [apply kst_trap_ok|apply trap3_disk|apply trap3_ginv|by split|discriminate|reflexivity]|].
  intros _ s' ([[_ _ Hf _ Hp _] _ _] & Hr & _). split; [apply (Hf req3); by left|]. split; [exact Hp|by rewrite Hr].
Defined.

Lemma kerneltrap_timer_witness :
  serves resumed 0 (λ tr _ s', sepc (t_csr s') = 0x1000 ∧ ∃ s1 s2, tr = [(s1, s2)] ∧ ticks (snd (t_st s1)) = 42) [] (kerneltrap 5 5 (trap3 timer_cause 256)).
Proof.
  eapply serves_mono; [apply (kerneltrap_timer 5 5 (trap3 timer_cause 256) 0);
    [apply kst_trap_ok|reflexivity|reflexivity|reflexivity|by split|discriminate|reflexivity]|].
  intros tr [] s' (Hpc & _ & Hp). split; [exact Hpc|]. destruct (Hp eq_refl) as (s1 & s2 & -> & _ & Ht & _). by exists s1, s2.
Defined.

Lemma usertrapret_correct_witness :
  wp usertrapret (λ r s', sepc (t_csr s') = 0 ∧ snd (fst r) = TRAPFRAME) (trap3 8 0).
Proof.
  eapply wp_mono; [apply (usertrapret_correct (trap3 8 0) 0); [apply kst_trap_ok|done..]|].
  intros r s' [Hj _ Hpc _ _ _ _ _ _]. by rewrite Hpc, Hj.
Defined.

Lemma usertrap_disk_witness :
  wp (usertrap [] [] [] 0 5 5) (λ _ s', sepc (t_csr s') = 0x1000 ∧ b_disk (v_bufs (vd s') 3) = 0 ∧ t_plic s' = [(PLIC_SCLAIM 0, 1)] ∧
    p_state (procs (t_k s') 3) = RUNNABLE) (trap3 disk_cause 0).
Proof.
  eapply wp_mono; [apply (usertrap_disk [] [] [] 0 5 5 (trap3 disk_cause 0) [] one_done 0);
    [apply kst_trap_ok|done|done|apply trap3_disk|apply trap3_ginv|done..]|].
  intros r s' [Hb [Ht _ Hf _ Hp _]]. split; [apply (bu_pc _ _ _ _ _ _ Hb)|]. split; [apply (Hf req3); by left|]. split; [exact Hp|].
  rewrite Ht. reflexivity.
Defined.

Lemma usertrap_getpid_witness :
  wp (usertrap [] [] [] 0 5 5) (λ _ s', sepc (t_csr s') = 0x1004 ∧ tf_val s' 0 tf_a0 = 1) (trap3 8 0).
Proof.
  eapply wp_mono; [apply (usertrap_getpid [] [] [] 0 5 5 (trap3 8 0) 0); [apply kst_trap_ok|done..]|].
  intros r s' [Hb Hv]. split; [apply (bu_pc _ _ _ _ _ _ Hb)|exact Hv].
Defined.
