(* ===== verification/KvmBoot.v ===== *)
(** The kernel's page table, as main() builds it: kinit(), kvminit(), kvminithart() and procinit() (vm.c, proc.c).

    The map is a list of regions, in the order in which the code adds them. *)
From S2P Require Import Prelude Machine CString Spinlock Kalloc PageTable Vm VmMap VmUser Sched Proc ProcSpec Fork.

(** ** Regions *)
Record region := mkRegion { rg_va : Z; rg_pa : Z; rg_n : Z; rg_perm : Z }.
Definition rg_end (r : region) : Z := rg_va r + rg_n r * PGSIZE.
Definition in_region (r : region) (vb : Z) : bool := (rg_va r <=? vb) && (vb <? rg_end r).

(** The entry for an address *)
Fixpoint kview (rs : list region) (vb : Z) : Z :=
  match rs with
  | [] => 0
  | r :: rs => if in_region r vb then map_pte (rg_pa r + (PGROUNDDOWN vb - rg_va r)) (rg_perm r) else kview rs vb
  end.

Definition sane (r : region) : Prop :=
  rg_va r mod PGSIZE = 0 ∧ 0 ≤ rg_va r ∧ 0 < rg_n r ∧ rg_end r ≤ MAXVA ∧ 0 ≤ rg_pa r ∧ rg_pa r + rg_n r * PGSIZE ≤ 2 ^ 56 ∧ 0 ≤ rg_perm r < 1024.
Definition apart (r r' : region) : Prop := rg_end r ≤ rg_va r' ∨ rg_end r' ≤ rg_va r.

Lemma kview_apart rs r vb : Forall (apart r) rs → in_region r vb = true → kview rs vb = 0.
Proof.
  intros Hr Hin. induction Hr as [|r' rs Ha _ IH]; cbn [kview]; [done|]. unfold in_region, apart in *.
  destruct (Z.leb_spec (rg_va r') vb), (Z.ltb_spec vb (rg_end r')); cbn; try done. apply andb_true_iff in Hin. lia.
Qed.

Lemma kview_snoc rs r vb :
  Forall (apart r) rs →
  kview (rs ++ [r]) vb = if in_region r vb then map_pte (rg_pa r + (PGROUNDDOWN vb - rg_va r)) (rg_perm r) else kview rs vb.
Proof.
  induction rs as [|r' rs IH]; intros Hr; cbn [kview app]; [done|]. apply Forall_cons in Hr as [Ha Hr]. rewrite IH by done.
  destruct (in_region r vb) eqn:E; [|done]. unfold in_region, apart in *.
  destruct (Z.leb_spec (rg_va r') vb), (Z.ltb_spec vb (rg_end r')); cbn; try done. apply andb_true_iff in E. lia.
Qed.

(** The tables on the way to an address, by its number of 2 MB blocks *)
Lemma on_path_block vb q path : vb / 2 ^ 21 = q → 0 ≤ vb < 2 ^ 39 → on_path vb path → path = [q / 512] ∨ path = [q / 512; q mod 512].
Proof.
  intros <- Hvb. unfold on_path. rewrite !PX_eq by lia. change (2 ^ (12 + 9 * 2)) with (2 ^ 30). change (2 ^ (12 + 9 * 1)) with (2 ^ 21).
  replace (vb / 2 ^ 30 mod 512) with (vb / 2 ^ 21 / 512); [done|]. rewrite Z.div_div by lia. change (2 ^ 21 * 512) with (2 ^ 30).
  rewrite Z.mod_small; [done|]. zdm.
Qed.

(** A zeroed page is a table without others below it. *)
Lemma root_only m root path p : (∀ i, 0 ≤ i < 512 → load64 m (root + 8 * i) = 0) → path_ok path → node m root path = Some p → path = [] ∧ p = root.
Proof.
  intros Hz [Hf _] Hn. destruct path as [|i path]; [by simplify_eq/=|]. apply Forall_cons in Hf as [Hi _]. cbn in Hn. unfold child in Hn. by rewrite Hz in Hn.
Qed.

Section boot.
Context `{Symbols}.

(** The paths of the tables that the kernel's mappings may need: those of the regions and of the addresses just after them *)
Definition table_paths : list (list Z) :=
  [] :: [[0]; [2]; [255]; [256]; [0; 16]; [0; 96]; [0; 97]; [0; 98]; [0; 128]; [255; 511]; [256; 0]] ++ map (λ j, [2; j]) (seqZ 0 65).

(** The table at [root] maps just the regions, and no page of [B] is lost: it is free or a table or one of [ps]. *)
Record kmap (B : list Z) (rs : list region) (ps : list Z) (s : pmem) (l : list Z) (root : Z) : Prop := {
  km_inv : vm_inv s l root;
  km_view : ∀ vb, 0 ≤ vb < MAXVA → pview (pm_mem s) root vb = kview rs vb;
  km_paths : ∀ path, path_ok path → is_Some (node (pm_mem s) root path) → path ∈ table_paths;
  km_all : ∀ p, p ∈ B → owned s l root p ∨ p ∈ ps
}.

(** With more pages than the tables and the stacks need, memory does not run out. *)
Lemma no_exhaustion B ps s root :
  NoDup B → (∀ path, path_ok path → is_Some (node (pm_mem s) root path) → path ∈ table_paths) →
  (∀ p, p ∈ B → owned s [] root p ∨ p ∈ ps) → (length B ≤ 77 + length ps)%nat.
Proof.
  intros Hnd Hp Hall. assert (Hsub : B ⊆ omap (node (pm_mem s) root) table_paths ++ ps).
  { intros p [[Hin|(path & Hok & Hn)]|Hin]%Hall; [by apply elem_of_nil in Hin| |by apply elem_of_app; right].
    apply elem_of_app. left. apply list_elem_of_omap. exists path. split; [apply Hp; [done|by exists p]|done]. }
  apply (NoDup_submseteq _ _ Hnd), submseteq_length in Hsub. rewrite length_app in Hsub.
  assert (∀ (f : list Z → option Z) l, (length (omap f l) ≤ length l)%nat) as Hom by (intros f; induction l as [|x l IH]; cbn; [lia|]; destruct (f x); cbn; lia).
  specialize (Hom (node (pm_mem s) root) table_paths). change (length table_paths) with 77%nat in Hom. lia.
Qed.

Lemma block_paths q : q ∈ [16; 96; 97; 98; 128; 131071; 131072] ∨ 1024 ≤ q ≤ 1088 → [q / 512] ∈ table_paths ∧ [q / 512; q mod 512] ∈ table_paths.
Proof.
  intros [Hq|Hq].
  - rewrite !elem_of_cons, elem_of_nil in Hq.
    destruct Hq as [->|[->|[->|[->|[->|[->|[->|[]]]]]]]]; split; apply (bool_decide_unpack _); vm_compute; done.
  - replace (q / 512) with 2 by zdm. replace (q mod 512) with (q - 1024) by zdm. split; [apply (bool_decide_unpack _); vm_compute; done|].
    unfold table_paths. apply elem_of_cons. right. apply elem_of_app. right. apply list_elem_of_In, in_map_iff. exists (q - 1024).
    split; [done|]. apply list_elem_of_In, elem_of_seqZ. lia.
Qed.

Lemma on_table_path vb path :
  0 ≤ vb < 2 ^ 39 → vb / 2 ^ 21 ∈ [16; 96; 97; 98; 128; 131071; 131072] ∨ 1024 ≤ vb / 2 ^ 21 ≤ 1088 → on_path vb path → path ∈ table_paths.
Proof. intros Hvb [H1 H2]%block_paths Hon. by destruct (on_path_block vb _ path eq_refl Hvb Hon) as [->| ->]. Qed.

Definition paths_ok (r : region) : Prop := ∀ vb path, rg_va r ≤ vb ≤ rg_end r → on_path vb path → path ∈ table_paths.

Lemma wp_kvmmap B rs r ps v l (Q : unit → kvm → Prop) :
  kmap B rs ps (kv_pm v) l (kernel_pagetable v) → sane r → paths_ok r → Forall (apart r) rs → NoDup B → (77 + length ps < length B)%nat →
  (∀ s' l', kmap B (rs ++ [r]) ps s' l' (kernel_pagetable v) →
     (∀ p, owned s' l' (kernel_pagetable v) p ↔ owned (kv_pm v) l (kernel_pagetable v) p) →
     Q () (mkKvm s' (kernel_pagetable v) (satp v))) →
  wp (kvmmap (rg_va r) (rg_pa r) (rg_n r * PGSIZE) (rg_perm r)) Q v.
Proof.
  intros [Hi Hv Hpt Hall] (Hal & Hva & Hn & Hmax & Hpa & Hpa' & Hperm) Hpr Hr Hnd Hroom HQ. unfold kvmmap. unfold rg_end, paths_ok, rg_end in *.
  assert (Hnew : ∀ k s' l', 0 ≤ k ≤ rg_n r → mapped (kernel_pagetable v) (rg_va r) (rg_pa r) (rg_perm r) k (kv_pm v) l s' l' →
    (∀ path, path_ok path → is_Some (node (pm_mem s') (kernel_pagetable v) path) → path ∈ table_paths) ∧
    (∀ p, p ∈ B → owned s' l' (kernel_pagetable v) p ∨ p ∈ ps)).
  { intros k s' l' Hk [_ _ Ho _ _ Had]. assert (0 < PGSIZE) by done. split.
    - intros path Hok Hnode. destruct (Had path Hok Hnode) as [|(vb & Hvb & Hon)]; [by apply Hpt|]. eapply (Hpr vb); [nia|done].
    - intros p Hin. rewrite Ho. by apply Hall. }
  wp_steps. apply wp_zoom. eapply wp_mappages; [done..| | |].
  - intros vb Hvb. rewrite Hv by lia. rewrite (kview_apart rs r); [done|done|]. unfold in_region, rg_end. apply andb_true_iff. lia.
  - intros s' l' Hm. pose proof Hm as [Hi' Hv' Ho _ _ _]. destruct (Hnew (rg_n r) _ _ ltac:(lia) Hm) as [Hpt' Hall']. cbn. apply (HQ s' l'); [|done].
    split; [done| |done|done]. intros vb Hvb. rewrite Hv', kview_snoc, Hv by done. done.
  - intros k s' Hk Hm. exfalso. destruct (Hnew k _ _ ltac:(lia) Hm) as [Hpt' Hall']. pose proof (no_exhaustion B ps s' _ Hnd Hpt' Hall'). lia.
Qed.

(** ** kvminit() *)
Definition RW : Z := Z.lor PTE_R PTE_W.
Definition RX : Z := Z.lor PTE_R PTE_X.
(** The devices, the kernel's text, its data with the rest of RAM, the trampoline *)
Definition kernel_regions : list region := [
  mkRegion UART0 UART0 1 RW;
  mkRegion VIRTIO0 VIRTIO0 1 RW;
  mkRegion CLINT CLINT 16 RW;
  mkRegion PLIC PLIC 1024 RW;
  mkRegion KERNBASE KERNBASE ((etext - KERNBASE) / PGSIZE) RX;
  mkRegion etext etext ((PHYSTOP - etext) / PGSIZE) RW;
  mkRegion TRAMPOLINE trampoline 1 RX].

Context `{!SymbolsOk} (Hend : 0 < end_) (Hroom : PGROUNDUP end_ + 142 * PGSIZE ≤ PHYSTOP).

Lemma etext_range : KERNBASE < etext < PHYSTOP ∧ etext mod PGSIZE = 0.
Proof.
  pose proof tramp_lo. pose proof tramp_etext. pose proof etext_aligned. pose proof etext_end. pose proof end_physTOP.
  destruct (PGROUNDUP_bounds end_) as [Hb _]; [lia|unfold PGSIZE, PHYSTOP, KERNBASE in *; lia|]. assert (0 < PGSIZE) by done. lia.
Qed.

Lemma text_pages : u64 (etext - KERNBASE) = (etext - KERNBASE) / PGSIZE * PGSIZE.
Proof. destruct etext_range as [? Hm]. rewrite u64_small by (unfold PHYSTOP, KERNBASE in *; lia). unfold PGSIZE, KERNBASE in *. zdm. Qed.

Lemma data_pages : u64 (PHYSTOP - etext) = (PHYSTOP - etext) / PGSIZE * PGSIZE.
Proof. destruct etext_range as [? Hm]. rewrite u64_small by (unfold PHYSTOP, KERNBASE in *; lia). unfold PGSIZE, PHYSTOP, KERNBASE in *. zdm. Qed.

Lemma text_end : rg_end (mkRegion KERNBASE KERNBASE ((etext - KERNBASE) / PGSIZE) RX) = etext.
Proof. unfold rg_end. cbn. destruct etext_range as [? Hm]. unfold PGSIZE, KERNBASE in *. zdm. Qed.

Lemma data_end : rg_end (mkRegion etext etext ((PHYSTOP - etext) / PGSIZE) RW) = PHYSTOP.
Proof. unfold rg_end. cbn. destruct etext_range as [? Hm]. unfold PGSIZE, PHYSTOP, KERNBASE in *. zdm. Qed.

(** The regions are in range, and any two of them are apart. *)
Lemma regions_bounds r : r ∈ kernel_regions → sane r.
Proof.
  destruct etext_range as [Ht Ha]. pose proof text_end as He. pose proof data_end as Hd. pose proof tramp_lo. pose proof tramp_etext.
  unfold rg_end in He, Hd. cbn in He, Hd. unfold kernel_regions. rewrite !elem_of_cons, elem_of_nil.
  assert (0 < (etext - KERNBASE) / PGSIZE) by (unfold PGSIZE, KERNBASE in *; zdm).
  assert (0 < (PHYSTOP - etext) / PGSIZE) by (unfold PGSIZE, PHYSTOP, KERNBASE in *; zdm).
  assert (0 ≤ RW < 1024 ∧ 0 ≤ RX < 1024) as [? ?] by done.
  assert (MAXVA = 2 ^ 38) by done. unfold PHYSTOP, KERNBASE in Ht, Hd.
  intros [->|[->|[->|[->|[->|[->|[->|[]]]]]]]]; unfold sane, rg_end; cbn [rg_va rg_pa rg_n rg_perm]; try done; rewrite ?He, ?Hd; split_and!; try done; try lia;
    unfold PHYSTOP, KERNBASE, PGSIZE in *; lia.
Qed.

(** [i] regions are mapped, and the next one is. *)
Lemma regions_apart i r : kernel_regions !! i = Some r → Forall (apart r) (take i kernel_regions).
Proof.
  destruct etext_range as [Ht Ha]. pose proof text_end as He. pose proof data_end as Hd. unfold rg_end in He, Hd. cbn in He, Hd.
  assert (MAXVA = 2 ^ 38) by done. unfold kernel_regions.
  do 7 (destruct i as [|i]; [intros [= <-]; cbn [take]; repeat apply Forall_cons_2; try apply Forall_nil_2; unfold apart, rg_end; cbn [rg_va rg_pa rg_n]; rewrite ?He, ?Hd;
    unfold UART0, VIRTIO0, CLINT, PLIC, PHYSTOP, KERNBASE, TRAMPOLINE, PGSIZE in *; lia|]).
  intros Hi. apply lookup_lt_Some in Hi. cbn in Hi. lia.
Qed.

Lemma regions_paths r : r ∈ kernel_regions → paths_ok r.
Proof.
  destruct etext_range as [Ht Ha]. pose proof text_end as He. pose proof data_end as Hd. unfold kernel_regions. rewrite !elem_of_cons, elem_of_nil.
  intros [->|[->|[->|[->|[->|[->|[->|[]]]]]]]]; intros vb path; rewrite ?He, ?Hd; unfold rg_end; cbn [rg_va rg_n]; intros Hvb; apply on_table_path;
    unfold UART0, VIRTIO0, CLINT, PLIC, TRAMPOLINE, MAXVA, PHYSTOP, KERNBASE, PGSIZE in *; change (Z.shiftl 1 (9 + 9 + 9 + 12 - 1)) with (2 ^ 38) in *;
    rewrite ?elem_of_cons, ?elem_of_nil; zdm.
Qed.

(** The next of the regions is mapped. *)
Lemma wp_region B i va pa n sz perm v l (Q : unit → kvm → Prop) :
  kernel_regions !! i = Some (mkRegion va pa n perm) → sz = n * PGSIZE → NoDup B → (77 < length B)%nat →
  kmap B (take i kernel_regions) [] (kv_pm v) l (kernel_pagetable v) →
  (∀ s' l', kmap B (take (S i) kernel_regions) [] s' l' (kernel_pagetable v) → Q () (mkKvm s' (kernel_pagetable v) (satp v))) →
  wp (kvmmap va pa sz perm) Q v.
Proof.
  intros Hi -> Hnd HB Hm HQ. assert (Hin : mkRegion va pa n perm ∈ kernel_regions) by (by eapply list_elem_of_lookup_2).
  eapply (wp_kvmmap B _ (mkRegion va pa n perm) []); [exact Hm|by apply regions_bounds|by apply regions_paths|by apply regions_apart|done|cbn; lia|].
  intros s' l' Hm' _. apply (HQ s' l'). by rewrite (take_S_r _ _ _ Hi).
Qed.

Lemma wp_kvminit s l pt sa (Q : unit → kvm → Prop) :
  kinv s l → (77 < length l)%nat →
  (∀ s' l' root, kmap l kernel_regions [] s' l' root → Q () (mkKvm s' root sa)) → wp kvminit Q (mkKvm s pt sa).
Proof.
  intros Hk HB HQ. pose proof (ki_nodup _ _ Hk) as Hnd. unfold kvminit. wp_steps. apply wp_zoom. eapply wp_kalloc; [exact Hk|intros ->; cbn in HB; lia|].
  intros p l' s' El Hk' Hp Hnin _. cbv beta. apply wp_bind, wp_modify, wp_bind, wp_zoom. unfold do_memset. apply wp_modify. cbv beta.
  set (m1 := memset (pm_mem s') p 0 PGSIZE). destruct (empty_table m1 p Hp) as (Hwf & Ht & Hv).
  { intros i Hi. apply load_memset_0; unfold PGSIZE; lia. }
  assert (Hm : kmap l [] [] (set_mem m1 s') l' p).
  { split; [split; cbn [set_mem pm_mem]; [|done|by intros q ->%Ht]|intros vb _; apply Hv| |].
    - destruct Hk' as [? ? ? Hfl ? ?]. split; simpl; auto; [by apply memset_ok|].
      eapply (free_list_only_page (pm_mem s')); [apply only_page_memset|apply Hp|done..].
    - intros path Hok [q Hq]. cbn [set_mem pm_mem] in Hq. destruct (root_only m1 p path q) as [-> _]; [|done|done|left].
      intros i Hi. apply load_memset_0; unfold PGSIZE; lia.
    - rewrite El. intros q [->|Hq]%elem_of_cons; left; [right; exists []; split; [apply path_ok_nil|done]|by left]. }
  rewrite text_pages, data_pages.
  apply wp_bind. eapply (wp_region l 0 _ _ _ _ _ _ l' _ eq_refl eq_refl); [done|done|exact Hm|clear Hm; intros s1 l1 Hm].
  apply wp_bind. eapply (wp_region l 1 _ _ _ _ _ _ l1 _ eq_refl eq_refl); [done|done|exact Hm|clear Hm; intros s2 l2 Hm].
  apply wp_bind. eapply (wp_region l 2 _ _ _ _ _ _ l2 _ eq_refl eq_refl); [done|done|exact Hm|clear Hm; intros s3 l3 Hm].
  apply wp_bind. eapply (wp_region l 3 _ _ _ _ _ _ l3 _ eq_refl eq_refl); [done|done|exact Hm|clear Hm; intros s4 l4 Hm].
  apply wp_bind. eapply (wp_region l 4 _ _ _ _ _ _ l4 _ eq_refl eq_refl); [done|done|exact Hm|clear Hm; intros s5 l5 Hm].
  apply wp_bind. eapply (wp_region l 5 _ _ _ _ _ _ l5 _ eq_refl eq_refl); [done|done|exact Hm|clear Hm; intros s6 l6 Hm].
  eapply (wp_region l 6 _ _ _ _ _ _ l6 _ eq_refl eq_refl); [done|done|exact Hm|]. intros s7 l7 Hm7. by eapply HQ.
Qed.

(** ** procinit() *)
Definition stack_at (i : nat) (p : Z) : region := mkRegion (KSTACK (Z.of_nat i)) p 1 RW.
Definition stacks (ps : list Z) : list region := imap stack_at ps.

Lemma stack_sane i p : (i < 64)%nat → page_ok p → sane (stack_at i p).
Proof.
  intros Hi (Hal & _ & Hp & Hp0). assert (MAXVA = 2 ^ 38) by done. unfold sane, stack_at, rg_end. cbn [rg_va rg_pa rg_n rg_perm].
  unfold KSTACK, TRAMPOLINE, PHYSTOP, KERNBASE, PGSIZE in *. split_and!; try done; zdm.
Qed.

Lemma stack_paths i p : (i < 64)%nat → paths_ok (stack_at i p).
Proof.
  intros Hi vb path. unfold stack_at, rg_end. cbn [rg_va rg_n]. intros Hvb. assert (MAXVA = 2 ^ 38) by done.
  apply on_table_path; unfold KSTACK, TRAMPOLINE, PGSIZE in *; rewrite ?elem_of_cons, ?elem_of_nil; zdm.
Qed.

Lemma stack_apart i p ps : (i < 64)%nat → (length ps ≤ i)%nat → Forall (apart (stack_at i p)) (kernel_regions ++ stacks ps).
Proof.
  intros Hi Hps. assert (MAXVA = 2 ^ 38) by done. apply Forall_app. split.
  - pose proof text_end as He. pose proof data_end as Hd. destruct etext_range as [Ht _]. unfold kernel_regions.
    repeat apply Forall_cons_2; try apply Forall_nil_2; unfold apart; rewrite ?He, ?Hd; unfold stack_at, rg_end; cbn [rg_va rg_n];
      unfold UART0, VIRTIO0, CLINT, PLIC, KSTACK, TRAMPOLINE, PHYSTOP, KERNBASE, PGSIZE in *; lia.
  - apply Forall_forall. intros r Hr. apply list_elem_of_lookup_1 in Hr as [j Hj]. unfold stacks in Hj. rewrite list_lookup_imap in Hj.
    destruct (ps !! j) as [q|] eqn:Ej; [|done]. injection Hj as <-. apply lookup_lt_Some in Ej.
    unfold apart, stack_at, rg_end. cbn [rg_va rg_n]. unfold KSTACK, PGSIZE. lia.
Qed.

(** The page below a stack *)
Lemma guard_apart i q ps : 0 ≤ i < 64 → length ps = 64%nat → Forall (apart (mkRegion (KSTACK i - PGSIZE) q 1 RW)) (kernel_regions ++ stacks ps).
Proof.
  intros Hi Hps. assert (MAXVA = 2 ^ 38) by done. apply Forall_app. split.
  - pose proof text_end as He. pose proof data_end as Hd. destruct etext_range as [Ht _]. unfold kernel_regions.
    repeat apply Forall_cons_2; try apply Forall_nil_2; unfold apart; rewrite ?He, ?Hd; unfold rg_end; cbn [rg_va rg_n];
      unfold UART0, VIRTIO0, CLINT, PLIC, KSTACK, TRAMPOLINE, PHYSTOP, KERNBASE, PGSIZE in *; lia.
  - apply Forall_forall. intros r Hr. apply list_elem_of_lookup_1 in Hr as [j Hj]. unfold stacks in Hj. rewrite list_lookup_imap in Hj.
    destruct (ps !! j) as [p|] eqn:Ej; [|done]. injection Hj as <-. apply lookup_lt_Some in Ej.
    unfold apart, stack_at, rg_end. cbn [rg_va rg_n]. unfold KSTACK, PGSIZE. lia.
Qed.

Abbreviation bst := (kst * (Z * Z))%type.

(** [length ps] stacks have been set up. *)
Record booting (B ps : list Z) (x : bst) (l : list Z) (root : Z) : Prop := {
  bo_root : fst (snd x) = root;
  bo_map : kmap B (kernel_regions ++ stacks ps) ps (k_pm (fst x)) l root;
  bo_nodup : NoDup ps;
  bo_pages : Forall (λ p, page_ok p ∧ ¬ owned (k_pm (fst x)) l root p) ps;
  bo_procs : ∀ i, (i < length ps)%nat → p_lock (procs (fst x) (Z.of_nat i)) = initlock "proc" ∧ p_kstack (procs (fst x) (Z.of_nat i)) = KSTACK (Z.of_nat i)
}.

(** kalloc() takes a page from the boot state. *)
Lemma kmap_kalloc B rs ps s p l s1 root :
  kmap B rs ps s (p :: l) root → kinv s1 l → only_page p (pm_mem s) (pm_mem s1) →
  kmap B rs (ps ++ [p]) s1 l root ∧ page_ok p ∧ ¬ owned s1 l root p ∧ owned s (p :: l) root p ∧ (∀ q, owned s1 l root q → owned s (p :: l) root q).
Proof.
  intros [Hi Hv Hp Hall] Hk Ho. destruct (kalloc_vm_inv s p l s1 root Hi Hk Ho) as (Hst & Hi1 & Hnt).
  assert (Hown : ∀ q, owned s (p :: l) root q ↔ q = p ∨ owned s1 l root q).
  { intros q. unfold owned. rewrite (st_tree _ _ _ Hst), elem_of_cons. tauto. }
  assert (Hno : ¬ owned s1 l root p).
  { intros [Hin|Hin]; [|done]. pose proof (ki_nodup _ _ (vi_kinv _ _ _ Hi)) as Hnd. by apply NoDup_cons in Hnd as [? _]. }
  split_and!; [split; [done| | |]| |done|left; left|intros q Hq; apply Hown; by right].
  - intros vb Hvb. by rewrite (st_view _ _ _ Hst), Hv.
  - intros path Hok Hn. apply Hp; [done|]. by rewrite <- (st_node _ _ _ Hst path Hok).
  - intros q Hq. rewrite elem_of_app, list_elem_of_singleton. destruct (Hall q Hq) as [[->|]%Hown|]; auto.
  - apply (owned_aligned s (p :: l) root); [done|left; left].
Qed.

Lemma wp_procinit_loop B k ps x l root (Q : unit → bst → Prop) :
  booting B ps x l root → (length ps + k = 64)%nat → NoDup B → (141 < length B)%nat →
  (∀ ps' x' l', booting B ps' x' l' root → length ps' = 64%nat → snd x' = snd x → Q () x') →
  wp (procinit_loop k (Z.of_nat (length ps))) Q x.
Proof.
  revert ps x l. induction k as [|k IH]; intros ps x l Hb Hlen Hnd HB HQ; cbn [procinit_loop].
  - apply wp_ret. apply (HQ ps x l); [done|lia|done].
  - destruct x as [s [pt sa]]. destruct Hb as [Hr Hm Hps Hpg Hpr]. cbn [fst snd] in *. subst pt.
    apply wp_bind. unfold on_kst. apply wp_zoom. unfold putp. apply wp_modify. cbn [fst]. apply wp_bind, wp_zoom. unfold on_pm. apply wp_zoom.
    cbn [set_procs k_pm fst]. eapply wp_kalloc; [apply (vi_kinv _ _ _ (km_inv _ _ _ _ _ _ Hm))| |].
    { intros ->. exfalso. pose proof (no_exhaustion B ps _ root Hnd (km_paths _ _ _ _ _ _ Hm) (km_all _ _ _ _ _ _ Hm)). lia. }
    intros p l' s1 -> Hk' Hp Hnin Ho. destruct (kmap_kalloc B _ ps _ p l' s1 root Hm Hk' Ho) as (Hm1 & Hpok & Hno & Hown & Hsub).
    cbv beta. destruct (Z.eqb_spec p 0) as [E|_]; [destruct Hpok as (_ & _ & _ & ?); lia|]. apply wp_bind. unfold on_kvm. apply wp_zoom.
    cbn [set_procs set_pm k_pm fst snd]. change PGSIZE with (rg_n (stack_at (length ps) p) * PGSIZE).
    eapply (wp_kvmmap B _ (stack_at (length ps) p)); [exact Hm1|apply stack_sane; [lia|done]|apply stack_paths; lia|apply stack_apart; lia|done|rewrite length_app; cbn; lia|].
    intros s2 l2 Hm2 Hown2. cbn [kv_pm kernel_pagetable satp] in *. apply wp_bind, wp_zoom. unfold putp. apply wp_modify. cbn [fst snd set_procs set_pm procs].
    replace (Z.of_nat (length ps) + 1) with (Z.of_nat (length (ps ++ [p]))) by (rewrite length_app; cbn; lia).
    eapply IH; [|rewrite length_app; cbn; lia|done|done|].
    + assert (Hpps : p ∉ ps). { intros Hin. rewrite Forall_forall in Hpg. by destruct (Hpg p Hin) as [_ Hn]. }
      split; cbn [fst snd k_pm set_procs set_pm procs]; [done| | | |].
      * unfold stacks in *. rewrite imap_app. cbn [imap]. rewrite Nat.add_0_r, app_assoc. exact Hm2.
      * apply NoDup_app. split_and!; [done|intros q Hq ->%list_elem_of_singleton; done|apply NoDup_singleton].
      * apply Forall_app. split; [|apply Forall_singleton; split; [done|by rewrite Hown2]].
        eapply Forall_impl; [exact Hpg|]. intros q [Hq Hn]. split; [done|]. rewrite Hown2. intros Hq'. by apply Hn, Hsub.
      * intros i Hi. rewrite length_app in Hi. cbn in Hi. destruct (decide (i = length ps)) as [->|Hne].
        -- rewrite !upd_eq. done.
        -- rewrite !upd_ne by lia. apply Hpr. lia.
    + intros ps' x' l3 Hb' Hl' Hs'. by apply (HQ ps' x' l3).
Qed.

(** main(): from kinit() to procinit() *)
Definition boot_memory : M bst unit :=
  on_kst (on_pm kinit);;
  on_kvm kvminit;;
  on_kvm kvminithart;;
  procinit.

Lemma length_boot_pages : (142 ≤ length boot_pages)%nat.
Proof.
  unfold boot_pages. rewrite length_rev. assert (∀ k p, length (page_range k p) = k) as E by (induction k as [|k IH]; intros p; cbn; by rewrite ?IH).
  rewrite E. pose proof end_physTOP. destruct (PGROUNDUP_bounds end_) as [Hb Hm]; [lia|unfold PGSIZE, PHYSTOP, KERNBASE in *; lia|].
  unfold PGSIZE, PHYSTOP, KERNBASE in *. zdm.
Qed.

(** C6: the kernel builds its page table, and does not run out of memory. From the state in which main() starts, if 142 pages of RAM lie after the kernel's data, kinit(), kvminit(), kvminithart() and procinit()
    return, without a panic. Then the table in satp maps, of all virtual addresses, exactly these: the UART, the disk, the CLINT, the PLIC, the kernel's text (read and execute) and
    the rest of RAM (read and write), each to itself, the trampoline page, and for each of the 64 processes a stack of
    one page, on a page of its own that is neither free nor a table; the page below each stack is not mapped. *)
Theorem kernel_page_table (s : kst) pt sa :
  boot_state (k_pm s) →
  wp boot_memory (λ _ x, ∃ root l ps,
    snd x = (root, MAKE_SATP root) ∧ kinv (k_pm (fst x)) l ∧
    length ps = 64%nat ∧ NoDup ps ∧ (∀ p, p ∈ ps → page_ok p ∧ (p ∉ l) ∧ ~ in_tree (pm_mem (k_pm (fst x))) root p) ∧
    (∀ va, 0 ≤ va < MAXVA → pview (pm_mem (k_pm (fst x))) root va = kview (kernel_regions ++ stacks ps) va) ∧
    (∀ i, 0 ≤ i < NPROC → p_kstack (procs (fst x) i) = KSTACK i ∧
       ∀ va, KSTACK i - PGSIZE ≤ va < KSTACK i → pview (pm_mem (k_pm (fst x))) root va = 0)) (s, (pt, sa)).
Proof.
  intros Hb. unfold boot_memory. apply wp_bind. unfold on_kst, on_pm. apply wp_zoom, wp_zoom. cbn [fst].
  apply wp_kinit; [pose proof end_physTOP; lia|done|]. intros s1 Hk. cbv beta. pose proof length_boot_pages as HB. pose proof (ki_nodup _ _ Hk) as Hnd.
  apply wp_bind. unfold on_kvm at 1. apply wp_zoom. cbn [set_pm k_pm]. eapply wp_kvminit; [exact Hk|lia|]. intros s2 l2 root Hm. cbn [kv_pm kernel_pagetable satp].
  apply wp_bind. unfold on_kvm at 1, kvminithart. apply wp_zoom, wp_modify. cbn [set_pm k_pm kv_pm kernel_pagetable satp].
  unfold procinit. apply wp_bind. unfold on_kst. apply wp_zoom, wp_modify. apply wp_bind. change (Z.to_nat NPROC) with 64%nat. change 0 with (Z.of_nat (length (@nil Z))).
  eapply (wp_procinit_loop boot_pages 64 []); [|done|done|lia|].
  { split; cbn [fst snd stacks imap k_pm set_pidlock set_pm]; [done|by rewrite app_nil_r|constructor|constructor|cbn; lia]. }
  intros ps x l [Hr Hm' Hps Hpg Hpr] Hlen Hsnd. destruct x as [s' [pt' sa']]. cbn [fst snd] in *. subst pt'. injection Hsnd as ->.
  unfold on_kvm, kvminithart. apply wp_zoom, wp_modify. cbn [fst snd set_pm k_pm kv_pm kernel_pagetable satp procs pm_mem].
  exists root, l, ps. rewrite Forall_forall in Hpg. split_and!; [done|apply Hm'|done|done| |apply Hm'|].
  - intros p Hp. destruct (Hpg p Hp) as [Hok Hno]. unfold owned in Hno. tauto.
  - intros i Hi. unfold NPROC in Hi. destruct (Hpr (Z.to_nat i)) as [_ Hst]; [lia|]. rewrite Z2Nat.id in Hst by lia. split; [done|].
    intros va Hva. assert (MAXVA = 2 ^ 38) by done. rewrite (km_view _ _ _ _ _ _ Hm') by (unfold KSTACK, TRAMPOLINE, PGSIZE in *; lia).
    apply (kview_apart _ (mkRegion (KSTACK i - PGSIZE) 0 1 RW)); [|unfold in_region, rg_end; cbn [rg_va rg_n]; apply andb_true_iff; lia].
    by apply guard_apart.
Qed.
End boot.

(** A kernel of 36 KB of text and 64 KB of data *)
Definition syms_boot : Symbols := {| end_ := KERNBASE + 0x19010; etext := KERNBASE + 0x9000; trampoline := KERNBASE + 0x8000 |}.

Lemma syms_boot_ok : @SymbolsOk syms_boot.
Proof. split; vm_compute; done. Qed.

Lemma kernel_page_table_witness :
  ∃ x root, @boot_memory syms_boot (set_pm pmem3 kst3, (0, 0)) = Ret () x ∧ snd x = (root, MAKE_SATP root) ∧
    pview (pm_mem (k_pm (fst x))) root (UART0 + 5) = map_pte UART0 RW ∧ pview (pm_mem (k_pm (fst x))) root 0x1000 = 0.
Proof.
  destruct (wp_elim _ _ _ (@kernel_page_table syms_boot syms_boot_ok ltac:(vm_compute; done) ltac:(vm_compute; done) (set_pm pmem3 kst3) 0 0 pmem3_boot))
    as ([] & x & E & root & l & ps & Hs & _ & Hlen & _ & _ & Hv & _).
  exists x, root. split; [exact E|]. split; [exact Hs|]. rewrite !Hv by (vm_compute; split; congruence). split.
  - reflexivity.
  - do 64 (destruct ps as [|? ps]; [discriminate Hlen|]). destruct ps; [|discriminate Hlen]. reflexivity.
Defined.
