(* ===== verification/Start.v ===== *)
(** start.c: machine mode, before main() and at each timer interrupt.

    [mach] has the control registers of one hart that start() writes and the registers that timervec uses.  Memory is here a map
    from addresses to 64-bit words: the registers of the CLINT, which are memory-mapped, and mscratch0. *)
From S2P Require Import Prelude Machine.

(** memlayout.h, riscv.h *)
Definition CLINT_MTIMECMP (hartid : Z) : Z := CLINT + 0x4000 + 8 * hartid.
Definition CLINT_MTIME : Z := CLINT + 0xBFF8.
Definition MSTATUS_MPP_MASK : Z := Z.shiftl 3 11.
Definition MSTATUS_MPP_S : Z := Z.shiftl 1 11.
Definition MSTATUS_MIE : Z := Z.shiftl 1 3.
Definition SIE_SEIE : Z := Z.shiftl 1 9.
Definition SIE_STIE : Z := Z.shiftl 1 5.
Definition SIE_SSIE : Z := Z.shiftl 1 1.
Definition MIE_MTIE : Z := Z.shiftl 1 7.

(** The modes of the processor: user, supervisor, machine *)
Inductive mode := U_mode | S_mode | M_mode.

Record mach := mkMach {
  mhartid : Z; mstatus : Z; mepc : Z; m_satp : Z; medeleg : Z; mideleg : Z; m_sie : Z; m_sip : Z; mie : Z; mscratch : Z; mtvec : Z;
  m_tp : Z; a0 : Z; a1 : Z; a2 : Z; a3 : Z; pc : Z; cur : mode; words : Z → Z
}.

Definition w_mstatus (x : Z) : M mach unit := modify (λ s, mkMach (mhartid s) x (mepc s) (m_satp s) (medeleg s) (mideleg s) (m_sie s) (m_sip s) (mie s) (mscratch s) (mtvec s) (m_tp s) (a0 s) (a1 s) (a2 s) (a3 s) (pc s) (cur s) (words s)).
Definition w_mepc (x : Z) : M mach unit := modify (λ s, mkMach (mhartid s) (mstatus s) x (m_satp s) (medeleg s) (mideleg s) (m_sie s) (m_sip s) (mie s) (mscratch s) (mtvec s) (m_tp s) (a0 s) (a1 s) (a2 s) (a3 s) (pc s) (cur s) (words s)).
Definition w_satp (x : Z) : M mach unit := modify (λ s, mkMach (mhartid s) (mstatus s) (mepc s) x (medeleg s) (mideleg s) (m_sie s) (m_sip s) (mie s) (mscratch s) (mtvec s) (m_tp s) (a0 s) (a1 s) (a2 s) (a3 s) (pc s) (cur s) (words s)).
Definition w_medeleg (x : Z) : M mach unit := modify (λ s, mkMach (mhartid s) (mstatus s) (mepc s) (m_satp s) x (mideleg s) (m_sie s) (m_sip s) (mie s) (mscratch s) (mtvec s) (m_tp s) (a0 s) (a1 s) (a2 s) (a3 s) (pc s) (cur s) (words s)).
Definition w_mideleg (x : Z) : M mach unit := modify (λ s, mkMach (mhartid s) (mstatus s) (mepc s) (m_satp s) (medeleg s) x (m_sie s) (m_sip s) (mie s) (mscratch s) (mtvec s) (m_tp s) (a0 s) (a1 s) (a2 s) (a3 s) (pc s) (cur s) (words s)).
Definition w_sie (x : Z) : M mach unit := modify (λ s, mkMach (mhartid s) (mstatus s) (mepc s) (m_satp s) (medeleg s) (mideleg s) x (m_sip s) (mie s) (mscratch s) (mtvec s) (m_tp s) (a0 s) (a1 s) (a2 s) (a3 s) (pc s) (cur s) (words s)).
Definition w_mie (x : Z) : M mach unit := modify (λ s, mkMach (mhartid s) (mstatus s) (mepc s) (m_satp s) (medeleg s) (mideleg s) (m_sie s) (m_sip s) x (mscratch s) (mtvec s) (m_tp s) (a0 s) (a1 s) (a2 s) (a3 s) (pc s) (cur s) (words s)).
Definition w_mscratch (x : Z) : M mach unit := modify (λ s, mkMach (mhartid s) (mstatus s) (mepc s) (m_satp s) (medeleg s) (mideleg s) (m_sie s) (m_sip s) (mie s) x (mtvec s) (m_tp s) (a0 s) (a1 s) (a2 s) (a3 s) (pc s) (cur s) (words s)).
Definition w_mtvec (x : Z) : M mach unit := modify (λ s, mkMach (mhartid s) (mstatus s) (mepc s) (m_satp s) (medeleg s) (mideleg s) (m_sie s) (m_sip s) (mie s) (mscratch s) x (m_tp s) (a0 s) (a1 s) (a2 s) (a3 s) (pc s) (cur s) (words s)).
Definition w_tp (x : Z) : M mach unit := modify (λ s, mkMach (mhartid s) (mstatus s) (mepc s) (m_satp s) (medeleg s) (mideleg s) (m_sie s) (m_sip s) (mie s) (mscratch s) (mtvec s) x (a0 s) (a1 s) (a2 s) (a3 s) (pc s) (cur s) (words s)).
Definition r_mhartid : M mach Z := gets mhartid.
Definition r_mstatus : M mach Z := gets mstatus.
Definition r_sie : M mach Z := gets m_sie.
Definition r_mie : M mach Z := gets mie.

(** Loads and stores of 64 bits *)
Definition ld (a : Z) : M mach Z := gets (λ s, words s a).
Definition sd (a v : Z) : M mach unit := modify (λ s, mkMach (mhartid s) (mstatus s) (mepc s) (m_satp s) (medeleg s) (mideleg s) (m_sie s) (m_sip s) (mie s) (mscratch s) (mtvec s) (m_tp s) (a0 s) (a1 s) (a2 s) (a3 s) (pc s) (cur s) (upd (words s) a v)).

(** The instruction mret: to mepc, in the mode of MPP; MIE gets MPIE (bit 7), which becomes 1, and MPP becomes user mode. *)
Definition mode_of (mpp : Z) : mode := if mpp =? 0 then U_mode else if mpp =? 1 then S_mode else M_mode.
Definition mret_status (x : Z) : Z :=
  let y := Z.land x (Z.lnot (Z.lor MSTATUS_MPP_MASK MSTATUS_MIE)) in
  Z.lor (Z.lor y (Z.shiftl 1 7)) (if Z.testbit x 7 then MSTATUS_MIE else 0).
Definition mret_ : M mach unit := modify (λ s,
  mkMach (mhartid s) (mret_status (mstatus s)) (mepc s) (m_satp s) (medeleg s) (mideleg s) (m_sie s) (m_sip s) (mie s) (mscratch s) (mtvec s) (m_tp s) (a0 s) (a1 s) (a2 s) (a3 s)
    (mepc s) (mode_of (Z.shiftr (Z.land (mstatus s) MSTATUS_MPP_MASK) 11)) (words s)).

Section start.
(** The addresses of mscratch0, main() and timervec *)
Context (mscratch0 main_addr timervec_addr : Z).

(** timerinit() *)
Definition interval : Z := 1000000.
Definition scratch (id : Z) : Z := mscratch0 + 8 * (32 * id).
Definition timerinit : M mach unit :=
  id ← r_mhartid;
  let id := s32 id in
  now ← ld CLINT_MTIME;
  sd (CLINT_MTIMECMP id) (u64 (now + interval));;
  sd (scratch id + 8 * 4) (CLINT_MTIMECMP id);;
  sd (scratch id + 8 * 5) interval;;
  w_mscratch (scratch id);;
  w_mtvec timervec_addr;;
  x ← r_mstatus;
  w_mstatus (Z.lor x MSTATUS_MIE);;
  x ← r_mie;
  w_mie (Z.lor x MIE_MTIE).

(** start() *)
Definition start : M mach unit :=
  x ← r_mstatus;
  let x := Z.land x (Z.lnot MSTATUS_MPP_MASK) in
  let x := Z.lor x MSTATUS_MPP_S in
  w_mstatus x;;
  w_mepc main_addr;;
  w_satp 0;;
  w_medeleg 0xffff;;
  w_mideleg 0xffff;;
  x ← r_sie;
  w_sie (Z.lor (Z.lor (Z.lor x SIE_SEIE) SIE_STIE) SIE_SSIE);;
  timerinit;;
  id ← r_mhartid;
  w_tp (s32 id);;
  mret_.
End start.

(** kernelvec.S: timervec, instruction by instruction *)
Definition set_a (x0 x1 x2 x3 scr : Z) (s : mach) : mach :=
  mkMach (mhartid s) (mstatus s) (mepc s) (m_satp s) (medeleg s) (mideleg s) (m_sie s) (m_sip s) (mie s) scr (mtvec s) (m_tp s) x0 x1 x2 x3 (pc s) (cur s) (words s).
Definition swap_a0_mscratch : M mach unit := modify (λ s, set_a (mscratch s) (a1 s) (a2 s) (a3 s) (a0 s) s).
Definition set_a1 (v : Z) : M mach unit := modify (λ s, set_a (a0 s) v (a2 s) (a3 s) (mscratch s) s).
Definition set_a2 (v : Z) : M mach unit := modify (λ s, set_a (a0 s) (a1 s) v (a3 s) (mscratch s) s).
Definition set_a3 (v : Z) : M mach unit := modify (λ s, set_a (a0 s) (a1 s) (a2 s) v (mscratch s) s).
(** Only the bit of software interrupts, SSIP, can be written in sip. *)
Definition csrw_sip (v : Z) : M mach unit := modify (λ s,
  mkMach (mhartid s) (mstatus s) (mepc s) (m_satp s) (medeleg s) (mideleg s) (m_sie s) (Z.lor (Z.land (m_sip s) (Z.lnot 2)) (Z.land v 2)) (mie s) (mscratch s) (mtvec s) (m_tp s) (a0 s) (a1 s) (a2 s) (a3 s) (pc s) (cur s) (words s)).

Definition timervec : M mach unit :=
  swap_a0_mscratch;;
  s ← get; sd (a0 s) (a1 s);;
  s ← get; sd (a0 s + 8) (a2 s);;
  s ← get; sd (a0 s + 16) (a3 s);;
  s ← get; v ← ld (a0 s + 32); set_a1 v;;
  s ← get; v ← ld (a0 s + 40); set_a2 v;;
  s ← get; v ← ld (a1 s); set_a3 v;;
  s ← get; set_a3 (u64 (a3 s + a2 s));;
  s ← get; sd (a1 s) (a3 s);;
  set_a1 2;;
  s ← get; csrw_sip (a1 s);;
  s ← get; v ← ld (a0 s + 16); set_a3 v;;
  s ← get; v ← ld (a0 s + 8); set_a2 v;;
  s ← get; v ← ld (a0 s); set_a1 v;;
  swap_a0_mscratch;;
  mret_.

(** A machine-mode interrupt: pc goes to mepc, the mode to MPP, MIE to MPIE, and MIE becomes 0. *)
Definition mode_bits (m : mode) : Z := match m with U_mode => 0 | S_mode => 1 | M_mode => 3 end.
Definition trap_status (x : Z) (m : mode) : Z :=
  let y := Z.land x (Z.lnot (Z.lor (Z.lor MSTATUS_MPP_MASK MSTATUS_MIE) (Z.shiftl 1 7))) in
  Z.lor (Z.lor y (Z.shiftl (mode_bits m) 11)) (if Z.testbit x 3 then Z.shiftl 1 7 else 0).
Definition mtrap : M mach unit := modify (λ s,
  mkMach (mhartid s) (trap_status (mstatus s) (cur s)) (pc s) (m_satp s) (medeleg s) (mideleg s) (m_sie s) (m_sip s) (mie s) (mscratch s) (mtvec s) (m_tp s) (a0 s) (a1 s) (a2 s) (a3 s)
    (mtvec s) M_mode (words s)).

(** ** Bits of mstatus *)
Lemma shiftl_bit a k i : 0 ≤ k → 0 ≤ i → Z.testbit (Z.shiftl a k) i = (k <=? i) && Z.testbit a (i - k).
Proof.
  intros Hk Hi. rewrite Z.shiftl_spec by done. destruct (Z.leb_spec k i); [done|]. by rewrite Z.testbit_neg_r by lia.
Qed.

Lemma one_bit i : 0 ≤ i → Z.testbit 1 i = (i =? 0).
Proof. intros Hi. destruct (Z.eqb_spec i 0) as [->|]; [done|]. apply Z.bits_above_log2; [done|]. change (Z.log2 1) with 0. lia. Qed.

Lemma three_bit i : 0 ≤ i → Z.testbit 3 i = (i <? 2).
Proof.
  intros Hi. destruct (Z.ltb_spec i 2); [assert (i = 0 ∨ i = 1) as [->| ->] by lia; done|]. apply Z.bits_above_log2; [done|]. change (Z.log2 3) with 1. lia.
Qed.

(** MPP of a status *)
Definition mpp (x : Z) : Z := Z.shiftr (Z.land x MSTATUS_MPP_MASK) 11.
Lemma mpp_bits x : mpp x = Z.b2z (Z.testbit x 11) + 2 * Z.b2z (Z.testbit x 12).
Proof.
  unfold mpp, MSTATUS_MPP_MASK. apply Z.bits_inj'. intros i Hi. rewrite Z.shiftr_spec, Z.land_spec, shiftl_bit by lia. replace (i + 11 - 11) with i by lia.
  rewrite three_bit by lia. destruct (Z.leb_spec 11 (i + 11)); [|lia]. cbn [andb]. destruct (Z.ltb_spec i 2).
  - assert (i = 0 ∨ i = 1) as [->| ->] by lia; rewrite andb_true_r; cbn [Z.add Pos.add]; change (0 + 11) with 11; change (1 + 11) with 12;
      by destruct (Z.testbit x 11), (Z.testbit x 12).
  - rewrite andb_false_r. symmetry. destruct (Z.testbit x 11), (Z.testbit x 12); cbn [Z.b2z]; try (by rewrite Z.testbit_0_l);
      apply Z.bits_above_log2; try done; match goal with |- Z.log2 ?n < _ => let v := eval vm_compute in (Z.log2 n) in change (Z.log2 n) with v end; lia.
Qed.

Lemma start_status x : mpp (Z.lor (Z.lor (Z.land x (Z.lnot MSTATUS_MPP_MASK)) MSTATUS_MPP_S) MSTATUS_MIE) = 1.
Proof. rewrite mpp_bits, !Z.lor_spec, !Z.land_spec, !Z.lnot_spec by lia. by destruct (Z.testbit x 11), (Z.testbit x 12). Qed.

Lemma trap_mode x m : mode_of (mpp (trap_status x m)) = m.
Proof.
  unfold trap_status. rewrite mpp_bits, !Z.lor_spec, !Z.land_spec, !Z.lnot_spec by lia. by destruct m, (Z.testbit x 3), (Z.testbit x 11), (Z.testbit x 12).
Qed.

(** A trap and mret leave all bits but those of MPP and MPIE. *)
Lemma trap_return x m i : 0 ≤ i → i ≠ 7 → i ≠ 11 → i ≠ 12 → Z.testbit (mret_status (trap_status x m)) i = Z.testbit x i.
Proof.
  intros Hi H7 H11 H12.
  assert (Hmask : Z.testbit MSTATUS_MPP_MASK i = false).
  { unfold MSTATUS_MPP_MASK. rewrite shiftl_bit by lia. destruct (Z.leb_spec 11 i); [|done]. cbn [andb]. rewrite three_bit by lia. destruct (Z.ltb_spec (i - 11) 2); [lia|done]. }
  assert (Hbit : ∀ k, 0 ≤ k → Z.testbit (Z.shiftl 1 k) i = (i =? k)).
  { intros k Hk. rewrite shiftl_bit by lia. destruct (Z.leb_spec k i), (Z.eqb_spec i k); cbn [andb]; try lia; [by subst; rewrite Z.sub_diag|].
    rewrite one_bit by lia. destruct (Z.eqb_spec (i - k) 0); [lia|done]. }
  assert (Hmode : Z.testbit (Z.shiftl (mode_bits m) 11) i = false).
  { destruct m; cbn [mode_bits]; [by rewrite Z.shiftl_0_l, Z.testbit_0_l|rewrite Hbit by lia; by destruct (Z.eqb_spec i 11)|exact Hmask]. }
  unfold mret_status. rewrite !Z.lor_spec, Z.land_spec, Z.lnot_spec, Z.lor_spec, Hmask, Hbit by lia.
  assert (Ht7 : Z.testbit (trap_status x m) 7 = Z.testbit x 3).
  { unfold trap_status. rewrite !Z.lor_spec, Z.land_spec, Z.lnot_spec by lia. by destruct m, (Z.testbit x 3), (Z.testbit x 7). }
  rewrite Ht7. unfold MSTATUS_MIE. rewrite (Hbit 3) by lia. unfold trap_status. rewrite !Z.lor_spec, Z.land_spec, Z.lnot_spec, !Z.lor_spec, Hmask, Hmode by lia.
  unfold MSTATUS_MIE. rewrite (Hbit 3), (Hbit 7) by lia. destruct (Z.eqb_spec i 7); [done|]. destruct (Z.eqb_spec i 3) as [->|].
  - destruct (Z.testbit x 3); by rewrite ?Hbit, ?Z.testbit_0_l, ?andb_false_r.
  - destruct (Z.testbit x 3); rewrite ?Hbit, ?Z.testbit_0_l by lia; cbn [negb orb andb]; rewrite ?orb_false_r, ?andb_true_r; try done;
      destruct (Z.eqb_spec i 7), (Z.eqb_spec i 3); try done; by rewrite ?orb_false_r, ?andb_true_r.
Qed.

(** One operation at a time, with the fields of the state simplified *)
Ltac mach_step :=
  lazymatch goal with
  | |- wp (mbind _ _) _ _ => apply wp_bind
  | |- wp (modify _) _ _ => apply wp_modify
  | |- wp (gets _) _ _ => apply wp_gets
  | |- wp get _ _ => apply wp_get
  end;
  cbn [mhartid mstatus mepc m_satp medeleg mideleg m_sie m_sip mie mscratch mtvec m_tp a0 a1 a2 a3 pc cur words set_a].

Section timer.
Context (mscratch0 main_addr timervec_addr : Z).
Hypotheses (Hlow : KERNBASE ≤ mscratch0) (Hhigh : mscratch0 + 8 * (32 * NCPU) ≤ PHYSTOP).

(** What timervec relies on *)
Record timer_ok (id : Z) (s : mach) : Prop := {
  to_hart : mhartid s = id;
  to_scratch : mscratch s = scratch mscratch0 id;
  to_vec : mtvec s = timervec_addr;
  to_cmp : words s (scratch mscratch0 id + 32) = CLINT_MTIMECMP id;
  to_interval : words s (scratch mscratch0 id + 40) = interval;
  to_on : Z.testbit (mie s) 7 = true
}.

Lemma scratch_apart id : 0 ≤ id < NCPU → CLINT_MTIMECMP id < scratch mscratch0 id ∧ CLINT_MTIME < scratch mscratch0 id.
Proof. intros Hid. unfold CLINT_MTIMECMP, CLINT_MTIME, scratch, CLINT, KERNBASE, NCPU in *. lia. Qed.

(** C28: start() hands the hart over to main(). Whatever the control registers were, start() ends with the hart in supervisor mode at
    main(), without paging, with all interrupts and exceptions delegated, supervisor interrupts enabled in sie, its number in tp, the timer's first interrupt
    a tenth of a second away, and all that timervec needs in place, in the scratch area of this hart alone. *)
Theorem start_correct (s : mach) :
  0 ≤ mhartid s < NCPU →
  wp (start mscratch0 main_addr timervec_addr) (λ _ s', let id := mhartid s in
    cur s' = S_mode ∧ pc s' = main_addr ∧ m_satp s' = 0 ∧ medeleg s' = 0xffff ∧ mideleg s' = 0xffff ∧ m_tp s' = id ∧
    (∀ i, i = 1 ∨ i = 5 ∨ i = 9 → Z.testbit (m_sie s') i = true) ∧ timer_ok id s' ∧
    words s' (CLINT_MTIMECMP id) = u64 (words s CLINT_MTIME + interval) ∧
    (∀ a, words s' a ≠ words s a → a = CLINT_MTIMECMP id ∨ scratch mscratch0 id ≤ a < scratch mscratch0 id + 8 * 32)) s.
Proof.
  intros Hid. destruct (scratch_apart _ Hid) as [Ha _]. unfold start, timerinit, r_mstatus, r_mhartid, r_sie, r_mie, w_mstatus, w_mepc, w_satp, w_medeleg, w_mideleg, w_sie, w_mie, w_mscratch, w_mtvec, w_tp, sd, ld, mret_.
  repeat mach_step.
  rewrite !(s32_small (mhartid s)) by (unfold NCPU in *; lia). fold (mpp (Z.lor (Z.lor (Z.land (mstatus s) (Z.lnot MSTATUS_MPP_MASK)) MSTATUS_MPP_S) MSTATUS_MIE)).
  rewrite start_status. split_and!; try done.
  - intros i Hi. rewrite !Z.lor_spec. destruct Hi as [->|[->| ->]]; cbn; by rewrite ?orb_true_r.
  - split; cbn [mhartid mstatus mepc m_satp medeleg mideleg m_sie m_sip mie mscratch mtvec m_tp a0 a1 a2 a3 pc cur words set_a]; try done.
    + rewrite upd_ne by lia. apply upd_eq.
    + apply upd_eq.
    + rewrite Z.lor_spec. apply orb_true_r.
  - rewrite !upd_ne by lia. apply upd_eq.
  - intros a Hne. destruct (Z.eq_dec a (CLINT_MTIMECMP (mhartid s))) as [|H1]; [by left|right].
    destruct (Z.le_gt_cases (scratch mscratch0 (mhartid s)) a), (Z.lt_ge_cases a (scratch mscratch0 (mhartid s) + 8 * 32)); try done; exfalso; apply Hne; by rewrite !upd_ne by lia.
Qed.

(** C21: the timer interrupt is invisible to the code it interrupts. In any state with the timer set up, in user or supervisor mode, a timer interrupt and timervec end with the same pc, mode and
    registers; mstatus differs at most in MPP and MPIE; a supervisor software interrupt is pending; the next timer interrupt is an interval later; and
    memory has changed only in the compare register and in three words of this hart's scratch area, so that the timer is again set up. *)
Theorem timervec_correct (id : Z) (s : mach) :
  timer_ok id s → 0 ≤ id < NCPU →
  wp (mtrap;; timervec) (λ _ s',
    pc s' = pc s ∧ cur s' = cur s ∧ m_tp s' = m_tp s ∧ a0 s' = a0 s ∧ a1 s' = a1 s ∧ a2 s' = a2 s ∧ a3 s' = a3 s ∧
    m_satp s' = m_satp s ∧ m_sie s' = m_sie s ∧ (∀ i, 0 ≤ i → i ≠ 7 → i ≠ 11 → i ≠ 12 → Z.testbit (mstatus s') i = Z.testbit (mstatus s) i) ∧
    Z.testbit (m_sip s') 1 = true ∧ timer_ok id s' ∧
    words s' (CLINT_MTIMECMP id) = u64 (words s (CLINT_MTIMECMP id) + interval) ∧
    (∀ a, words s' a ≠ words s a → a = CLINT_MTIMECMP id ∨ scratch mscratch0 id ≤ a < scratch mscratch0 id + 8 * 3)) s.
Proof.
  intros [Hh Hs Hv Hc Hi Ho] Hid. destruct (scratch_apart _ Hid) as [Ha _]. unfold timervec, mtrap, sd, ld, swap_a0_mscratch, set_a1, set_a2, set_a3, csrw_sip, mret_.
  repeat mach_step.
  rewrite Hs. set (sc := scratch mscratch0 id) in *.
  assert (E32 : ∀ (f : Z → Z) x y z, upd (upd (upd f sc x) (sc + 8) y) (sc + 16) z (sc + 32) = f (sc + 32)) by (intros; by rewrite !upd_ne by lia).
  assert (E40 : ∀ (f : Z → Z) x y z, upd (upd (upd f sc x) (sc + 8) y) (sc + 16) z (sc + 40) = f (sc + 40)) by (intros; by rewrite !upd_ne by lia).
  rewrite !E32, !E40, Hc, Hi. rewrite !(upd_ne _ (CLINT_MTIMECMP id)) by lia.
  fold (mpp (trap_status (mstatus s) (cur s))). rewrite trap_mode. split_and!; try done.
  - rewrite upd_ne by lia. rewrite upd_ne by lia. by rewrite upd_eq.
  - rewrite upd_ne by lia. by rewrite upd_eq.
  - by rewrite upd_eq.
  - intros i H0 H7 H11 H12. by apply trap_return.
  - rewrite Z.lor_spec. apply orb_true_r.
  - split; cbn [mhartid mstatus mepc m_satp medeleg mideleg m_sie m_sip mie mscratch mtvec m_tp a0 a1 a2 a3 pc cur words set_a]; try done; rewrite !upd_ne by lia; done.
  - rewrite upd_eq. by rewrite !upd_ne by lia.
  - intros a Hne. destruct (Z.eq_dec a (CLINT_MTIMECMP id)) as [|H1]; [by left|right].
    destruct (Z.le_gt_cases sc a), (Z.lt_ge_cases a (sc + 8 * 3)); try done; exfalso; apply Hne; by rewrite !upd_ne by lia.
Qed.
End timer.

(** Hart 1 after reset, with mscratch0 above the kernel *)
Definition reset1 : mach := mkMach 1 0x1888 0 7 0 0 0 0 0 0 0 0 11 22 33 44 0 M_mode (λ a, if a =? CLINT_MTIME then 5000 else 0).

Lemma start_correct_witness :
  ∃ s', start 0x80010000 0x80001000 0x80005000 reset1 = Ret () s' ∧ cur s' = S_mode ∧ timer_ok 0x80010000 0x80005000 1 s' ∧ words s' (CLINT_MTIMECMP 1) = 1005000.
Proof.
  destruct (wp_elim _ _ _ (start_correct 0x80010000 0x80001000 0x80005000 ltac:(vm_compute; discriminate) reset1 ltac:(vm_compute; split; congruence)))
    as ([] & s' & E & Hc & _ & _ & _ & _ & _ & _ & Ht & Hw & _).
  exists s'. split; [exact E|]. split; [exact Hc|]. split; [exact Ht|exact Hw].
Defined.

(** The same hart later, running a user program *)
Definition later1 : mach :=
  mkMach 1 0x22 0 8 0xffff 0xffff 0x222 0 0x80 (scratch 0x80010000 1) 0x80005000 1 11 22 33 44 0x1234 U_mode
    (λ a, if a =? CLINT_MTIMECMP 1 then 1005000 else if a =? scratch 0x80010000 1 + 32 then CLINT_MTIMECMP 1 else if a =? scratch 0x80010000 1 + 40 then interval else 0).

Lemma timervec_correct_witness :
  ∃ s', (mtrap;; timervec) later1 = Ret () s' ∧ pc s' = 0x1234 ∧ cur s' = U_mode ∧ a1 s' = 22 ∧ words s' (CLINT_MTIMECMP 1) = 2005000.
Proof.
  destruct (wp_elim _ _ _ (timervec_correct 0x80010000 0x80005000 ltac:(vm_compute; discriminate) 1 later1
      ltac:(split; reflexivity) ltac:(vm_compute; split; congruence)))
    as ([] & s' & E & Hp & Hc & _ & _ & Ha & _ & _ & _ & _ & _ & _ & _ & Hw & _).
  exists s'. split; [exact E|]. split; [exact Hp|]. split; [exact Hc|]. split; [exact Ha|exact Hw].
Defined.
