(* ===== verification/Main.v ===== *)
(** main.c: how the kernel starts on each hart.

    The state is that of Trap.v with the global kernel_pagetable and main()'s flag started.  The memory part, from kinit() to procinit(), is
    boot_memory of KvmBoot.v, whose theorem covers it. *)
From S2P Require Import Prelude Machine CString Spinlock Kalloc PageTable Vm Sched Proc ProcSpec Sleeplock Bio Log Fs UserMem Shared UserCopy Pipe ProcUser Uart Printf Console ConsoleProc File Args Exec Sysfile Fork Sysproc Syscall Virtio Trap KvmBoot.

Record kernel (V U C : Type) := mkKernel { n_t : tst V U C; n_pagetable : Z; started : Z }.
Arguments mkKernel {V U C}.
Arguments n_t {V U C}.
Arguments n_pagetable {V U C}.
Arguments started {V U C}.

Section main.
Context {V U C : Type} `{Symbols} `{KernelBuf} `{!Driver kst (vdisk V)} `{!Device V} `{!Chip U} `{!Plic C} `{!Vectors}.
Context (name0 : list Z) (forkret_addr disk_pages : Z).
Abbreviation st := (kernel V U C).

Definition on_t {A} (m : M (tst V U C) A) : M st A := zoom n_t (λ t s, mkKernel t (n_pagetable s) (started s)) m.
Definition set_satp (v : Z) (c : csr) : csr := mkCsr (sepc c) (scause c) (stval c) (stvec c) (sip c) v.
(** The process layer with kernel_pagetable and satp *)
Definition set_tk (k : kst) (t : tst V U C) : tst V U C := mkT (set_yproc k (fst (t_st t)), snd (t_st t)) (t_csr t) (t_plic t).
Definition on_memory {A} (m : M (kst * (Z * Z)) A) : M st A :=
  zoom (λ s, (t_k (n_t s), (n_pagetable s, csr_satp (t_csr (n_t s)))))
       (λ '(k, (pt, sa)) s, let t := set_tk k (n_t s) in mkKernel (mkT (t_st t) (set_satp sa (t_csr t)) (t_plic t)) pt (started s)) m.

(** What hart 0 does *)
Definition main_first (fuel : nat) : M st unit :=
  on_t (on_tcons consoleinit;; on_st (on_sys console_devsw));;
  on_t (on_tcons printfinit);;
  on_t (on_tcons (printf fuel [10] []));;
  on_t (on_tcons (printf fuel (cstr "xv6 kernel is booting" ++ [10]) []));;
  on_t (on_tcons (printf fuel [10] []));;
  on_memory boot_memory;;
  on_t (on_st (on_clock trapinit));;
  on_t trapinithart;;
  on_t plicinit;;
  on_t plicinithart;;
  on_t (on_st (on_sys (on_fs (on_b binit))));;
  on_t (on_st (on_sys (on_fs iinit)));;
  on_t (on_st (on_sys fileinit));;
  on_t (on_disk (virtio_disk_init disk_pages));;
  on_t (on_st (on_sys (userinit name0 forkret_addr fuel)));;
  modify (λ s, mkKernel (n_t s) (n_pagetable s) 1).

(** while(started == 0): each turn is a Wait, in which the other harts run. *)
Fixpoint wait_started (turns : nat) : M st unit := λ s,
  if started s =? 0 then
    Wait WSpin s (λ s, match turns with O => NoFuel | S turns => wait_started turns s end)
  else Ret () s.

(** What the other harts do *)
Definition main_other (fuel turns : nat) : M st unit :=
  wait_started turns;;
  hart ← on_t r_tp;
  on_t (on_tcons (printf fuel (cstr "hart %d starting" ++ [10]) [AInt hart]));;
  on_memory (on_kvm kvminithart);;
  on_t trapinithart;;
  on_t plicinithart.

(** main() *)
Definition main (fuel turns : nat) : M st unit :=
  hart ← on_t r_tp;
  (if s32 hart =? 0 then main_first fuel else main_other fuel turns);;
  on_t (on_tk (scheduler turns)).
End main.
