(* ===== verification/User.v ===== *)
(** User programs: sequential code that makes system calls.

    A [prog] is a program up to its next system call: it has ended, it makes a call and goes on with the answer, it
    runs a loop, or it exits.  An answer is the int that the call returns and the bytes that it
    stores in the caller's memory. *)
From Stdlib Require Import FunctionalExtensionality.
From S2P Require Import Prelude Machine CString Printf Uprintf.

(** user.h: the system calls *)
Inductive ucall : Type :=
| Uread (fd n : Z)
| Uwrite (fd : Z) (bs : list Z)
| Uopen (path : list Z) (mode : Z)
| Uclose (fd : Z)
| Udup (fd : Z)
| Ufstat (fd : Z)
| Upipe
| Ufork
| Uwait
| Uexec (path : list Z) (argv : list (list Z))
| Uchdir (path : list Z)
| Usleep (n : Z)
| Ugetpid
| Ukill (pid : Z)
| Umknod (path : list Z) (major minor : Z)
| Uunlink (path : list Z)
| Ulink (old new : list Z)
| Umkdir (path : list Z).

Definition ans : Type := Z * list Z.

Inductive prog (A : Type) : Type :=
| PRet (a : A)
| PCall (c : ucall) (k : ans → prog A)
| PIter (T B : Type) (f : T → prog (T + B)) (s : T) (k : B → prog A)
| PExit (st : Z).
Arguments PRet {A} a.
Arguments PCall {A} c k.
Arguments PIter {A} T B f s k.
Arguments PExit {A} st.

Fixpoint prog_bind {A B} (f : A → prog B) (m : prog A) : prog B :=
  match m with
  | PRet a => f a
  | PCall c k => PCall c (λ a, prog_bind f (k a))
  | PIter T C g s k => PIter T C g s (λ b, prog_bind f (k b))
  | PExit st => PExit st
  end.
#[global] Instance prog_mret : MRet prog := λ A a, PRet a.
#[global] Instance prog_mbind : MBind prog := λ A B f m, prog_bind f m.

(** A loop: its body ends in [inl] to go on and in [inr] to leave. *)
Definition iter {T B} (f : T → prog (T + B)) (s : T) : prog B := PIter T B f s PRet.
Definition unfold_iter {A T B} (f : T → prog (T + B)) (s : T) (k : B → prog A) : prog A :=
  r ← f s;
  match r with inl s => PIter T B f s k | inr b => k b end.

Definition read (fd n : Z) : prog ans := PCall (Uread fd n) PRet.
Definition write (fd : Z) (bs : list Z) : prog Z := PCall (Uwrite fd bs) (λ a, PRet (fst a)).
Definition open (path : list Z) (mode : Z) : prog Z := PCall (Uopen path mode) (λ a, PRet (fst a)).
Definition close (fd : Z) : prog Z := PCall (Uclose fd) (λ a, PRet (fst a)).
Definition dup (fd : Z) : prog Z := PCall (Udup fd) (λ a, PRet (fst a)).
Definition fstat (fd : Z) : prog ans := PCall (Ufstat fd) PRet.
Definition pipe_ : prog ans := PCall Upipe PRet.
Definition fork_ : prog Z := PCall Ufork (λ a, PRet (fst a)).
Definition wait_ : prog Z := PCall Uwait (λ a, PRet (fst a)).
Definition exec_ (path : list Z) (argv : list (list Z)) : prog Z := PCall (Uexec path argv) (λ a, PRet (fst a)).
Definition chdir (path : list Z) : prog Z := PCall (Uchdir path) (λ a, PRet (fst a)).
Definition sleep_ (n : Z) : prog Z := PCall (Usleep n) (λ a, PRet (fst a)).
Definition getpid : prog Z := PCall Ugetpid (λ a, PRet (fst a)).
Definition kill (pid : Z) : prog Z := PCall (Ukill pid) (λ a, PRet (fst a)).
Definition mknod (path : list Z) (major minor : Z) : prog Z := PCall (Umknod path major minor) (λ a, PRet (fst a)).
Definition unlink (path : list Z) : prog Z := PCall (Uunlink path) (λ a, PRet (fst a)).
Definition link (old new : list Z) : prog Z := PCall (Ulink old new) (λ a, PRet (fst a)).
Definition mkdir (path : list Z) : prog Z := PCall (Umkdir path) (λ a, PRet (fst a)).
Definition exit_ {A} (st : Z) : prog A := PExit st.

Fixpoint for_each {A} (l : list A) (body : A → prog unit) : prog unit :=
  match l with [] => mret () | x :: l => body x;; for_each l body end.

(** printf.c: putc() writes one byte, and vprintf() calls it for the characters of the output. *)
Definition putc_ (fd c : Z) : prog unit := write fd [c];; mret ().
Definition formatted (fmt : list Z) (ap : list arg) : list Z :=
  match vprintf collect 0 fmt ap [] with Ret _ out => out | _ => [] end.
Definition fprintf (fd : Z) (fmt : list Z) (ap : list arg) : prog unit := for_each (formatted fmt ap) (putc_ fd).

(** An int in memory *)
Definition int_bytes (v : Z) : list Z := map (λ i, u32 v / 256 ^ i mod 256) (seqZ 0 4).
Definition bytes_int (bs : list Z) : Z := s32 (fold_right (λ b v, b + 256 * v) 0 bs).
(** The int at an address where a call has stored some bytes *)
Definition stored_int (old : Z) (bs : list Z) : Z := bytes_int (bs ++ drop (length bs) (int_bytes old)).

(** The string at a pointer, as exec() and open() read it: at most a page *)
Definition arg_string (m : mem) (p : Z) : list Z := cstr (Z.to_nat PGSIZE) m p.

Lemma cstr_bytes n m p l : (length l < n)%nat → (∀ i c, l !! i = Some c → m (p + Z.of_nat i) = c ∧ c ≠ 0) → m (p + Z.of_nat (length l)) = 0 → cstr n m p = l.
Proof.
  revert n p. induction l as [|c l IH]; intros n p Hn Hl Hz; (destruct n as [|n]; [cbn in Hn; lia|]); cbn [cstr].
  - cbn in Hz. rewrite Z.add_0_r in Hz. by rewrite Hz.
  - destruct (Hl 0%nat c eq_refl) as [H0 Hc]. cbn in H0. rewrite Z.add_0_r in H0. rewrite H0. destruct (Z.eqb_spec c 0); [done|]. f_equal. apply IH.
    + cbn in Hn. lia.
    + intros i d Hd. destruct (Hl (S i) d Hd) as [H1 H2]. split; [|done]. rewrite <- H1. f_equal. lia.
    + rewrite <- Hz. f_equal. cbn. lia.
Qed.

(** A C string constant *)
Definition str (s : string) : list Z := map (λ c, Z.of_N (Ascii.N_of_ascii c)) (String.list_ascii_of_string s).

(** A table of descriptors: the lowest that is free, and how many are *)
Fixpoint first_none {A} (l : list (option A)) : option nat :=
  match l with [] => None | None :: _ => Some 0%nat | Some _ :: l => S <$> first_none l end.
Fixpoint nfree {A} (l : list (option A)) : nat :=
  match l with [] => 0%nat | None :: l => S (nfree l) | Some _ :: l => nfree l end.

Lemma first_none_some {A} (l : list (option A)) : (0 < nfree l)%nat → ∃ n, first_none l = Some n ∧ l !! n = Some None.
Proof.
  induction l as [|[x|] l IH]; cbn; intros Hn; [lia| |by exists 0%nat]. destruct (IH Hn) as (n & -> & H). by exists (S n).
Qed.

Lemma nfree_insert {A} (l : list (option A)) n x : l !! n = Some None → nfree l = S (nfree (<[n := Some x]> l)).
Proof. revert n. induction l as [|[y|] l IH]; intros [|n] H; simplify_eq/=; [by apply IH|done|]. f_equal. by apply IH. Qed.

Lemma nfree_move {A} (l : list (option A)) n x y : l !! n = Some (Some x) → nfree (<[n := Some y]> l) = nfree l.
Proof. revert n. induction l as [|[z|] l IH]; intros [|n] H; simplify_eq/=; [done|by apply IH|]. f_equal. by apply IH. Qed.

(** ** Programs that run alone

    [runs Q X p e]: every run of [p] in the environment [e] ends, without waiting forever, and returns a value and an environment in [Q]
    or exits with a status and an environment in [X].  The environment says which answers a call may have; a
    child that is forked to run another program, as its next call, does so while its parent waits. *)
Class Env (E : Type) := {
  answers : ucall → E → ans → E → Prop;
  spawned : list Z → list (list Z) → E → E
}.

Section runs.
Context {E A : Type} `{!Env E} (Q : A → E → Prop) (X : Z → E → Prop).

Inductive runs : prog A → E → Prop :=
| runs_ret a e : Q a e → runs (PRet a) e
| runs_call c k e :
    (∃ a e', answers c e a e') → (∀ a e', answers c e a e' → runs (k a) e') → runs (PCall c k) e
| runs_fork k e path argv kk :
    k (0, []) = PCall (Uexec path argv) kk → (∀ pid, 0 < pid → runs (k (pid, [])) (spawned path argv e)) → runs (PCall Ufork k) e
| runs_iter T B f s k e : runs (unfold_iter f s k) e → runs (PIter T B f s k) e
| runs_exit st e : X st e → runs (PExit st) e.
End runs.

Lemma runs_mono {E A} `{!Env E} (Q Q' : A → E → Prop) (X X' : Z → E → Prop) p e :
  runs Q X p e → (∀ a e, Q a e → Q' a e) → (∀ st e, X st e → X' st e) → runs Q' X' p e.
Proof.
  intros Hr HQ HX. induction Hr as [a e H|c k e Ha H IH|k e path argv kk Hk H IH|T B f s k e H IH|st e H].
  - by apply runs_ret, HQ.
  - by apply runs_call.
  - by eapply runs_fork.
  - by apply runs_iter.
  - by apply runs_exit, HX.
Qed.

Lemma prog_bind_assoc {A B C} (f : A → prog B) (g : B → prog C) (m : prog A) :
  prog_bind g (prog_bind f m) = prog_bind (λ a, prog_bind g (f a)) m.
Proof.
  induction m as [A a|A c k IH|A T D h IHh s k IH|A st]; cbn [prog_bind]; [done| | |done]; f_equal; apply functional_extensionality; intros x; apply IH.
Qed.

Lemma prog_bind_ret {A} (m : prog A) : prog_bind PRet m = m.
Proof. induction m as [A a|A c k IH|A T D h IHh s k IH|A st]; cbn [prog_bind]; [done| | |done]; f_equal; apply functional_extensionality; intros x; apply IH. Qed.

Lemma runs_bind {E A B} `{!Env E} (Q : B → E → Prop) X (f : A → prog B) (m : prog A) e :
  runs (λ a e, runs Q X (f a) e) X m e → runs Q X (prog_bind f m) e.
Proof.
  intros Hr. induction Hr as [a e H|c k e Ha H IH|k e path argv kk Hk H IH|T D h s k e H IH|st e H]; cbn [prog_bind].
  - done.
  - by apply runs_call.
  - eapply runs_fork; [by rewrite Hk|done].
  - apply runs_iter. unfold unfold_iter, mbind, prog_mbind in *. rewrite prog_bind_assoc in IH.
    replace (λ r, match r with inl s => _ | inr b => _ end) with (λ a : T + D, prog_bind f match a with inl s0 => PIter T D h s0 k | inr b => k b end); [done|].
    apply functional_extensionality. by intros [x|x].
  - by apply runs_exit.
Qed.

Lemma runs_one {E A} `{!Env E} (Q : A → E → Prop) X c (k : ans → prog A) e a e' :
  answers c e a e' → (∀ b e2, answers c e b e2 → b = a ∧ e2 = e') → runs Q X (k a) e' → runs Q X (PCall c k) e.
Proof. intros Ha Hd Hr. apply runs_call; [by exists a, e'|]. intros b e2 Hb. by destruct (Hd b e2 Hb) as [-> ->]. Qed.

(** A loop on what is left of a list *)
Lemma runs_loop {E A T B} `{!Env E} (Q : A → E → Prop) X (f : T → prog (T + B)) s (k : B → prog A) e :
  runs (λ r e, match r with inl s => runs Q X (PIter T B f s k) e | inr b => runs Q X (k b) e end) X (f s) e → runs Q X (PIter T B f s k) e.
Proof. intros Hr. apply runs_iter. unfold unfold_iter. apply runs_bind. eapply runs_mono; [exact Hr| |done]. by intros [x|x] e'. Qed.

(** *** Streams: descriptors that are read and written, and the programs that are run *)
Record streams := mkStr { s_in : Z → list Z; s_out : Z → list Z; s_ran : list (list Z * list (list Z)) }.
Definition take_in (fd : Z) (k : nat) (e : streams) : streams := mkStr (upd (s_in e) fd (drop k (s_in e fd))) (s_out e) (s_ran e).
Definition put_out (fd : Z) (bs : list Z) (e : streams) : streams := mkStr (s_in e) (upd (s_out e) fd (s_out e fd ++ bs)) (s_ran e).

(** read() of pipes and files gives some of what there is, and nothing only at the end. *)
Inductive stream_answers : ucall → streams → ans → streams → Prop :=
| sa_read fd n e k : 0 < n → (0 < k)%nat → Z.of_nat k ≤ n → (k ≤ length (s_in e fd))%nat →
    stream_answers (Uread fd n) e (Z.of_nat k, take k (s_in e fd)) (take_in fd k e)
| sa_eof fd n e : s_in e fd = [] → stream_answers (Uread fd n) e (0, []) e
| sa_write fd bs e : stream_answers (Uwrite fd bs) e (Z.of_nat (length bs), []) (put_out fd bs e)
| sa_wait pid e : 0 < pid → stream_answers Uwait e (pid, []) e.
#[global] Instance streams_env : Env streams := {|
  answers := stream_answers;
  spawned path argv e := mkStr (s_in e) (s_out e) (s_ran e ++ [(path, argv)])
|}.

Lemma runs_write {A} (Q : A → streams → Prop) X fd bs k e :
  runs Q X (k (Z.of_nat (length bs), [])) (put_out fd bs e) → runs Q X (PCall (Uwrite fd bs) k) e.
Proof. apply runs_one; [constructor|]. intros b e2 Hb. by inversion Hb; subst. Qed.

Lemma put_out_put fd bs bs' e : put_out fd bs' (put_out fd bs e) = put_out fd (bs ++ bs') e.
Proof. unfold put_out. cbn [s_in s_out s_ran]. by rewrite upd_eq, upd_upd, app_assoc. Qed.

Lemma put_out_nil fd e : put_out fd [] e = e.
Proof. unfold put_out. rewrite app_nil_r. destruct e as [i o r]. cbn. by rewrite upd_id. Qed.

Lemma runs_print {A} (Q : A → streams → Prop) X fd l (k : unit → prog A) e :
  runs Q X (k ()) (put_out fd l e) → runs Q X (prog_bind k (for_each l (putc_ fd))) e.
Proof.
  revert e. induction l as [|c l IH]; intros e Hr; [by rewrite put_out_nil in Hr|]. cbn. apply runs_write. apply IH. by rewrite put_out_put.
Qed.

Lemma runs_printf {A} (Q : A → streams → Prop) X fd fmt ap (k : unit → prog A) e :
  runs Q X (k ()) (put_out fd (formatted fmt ap) e) → runs Q X (prog_bind k (fprintf fd fmt ap)) e.
Proof. apply runs_print. Qed.
