(* ===== verification/Pool.v ===== *)
(** The processes of a program, as it sees the kernel: their code and descriptors, the pipes between them, what was printed.

    The calls are those of programs that fork and use pipes: pipe.c's piperead() and pipewrite(), sysfile.c's
    descriptors, proc.c's fork() and exit().  A step of the world is a step of one of its processes, any of them:
    that is how the scheduler runs them.  A process that has to wait has no step.
    The system has room for the processes, files and pipes; the descriptors of a process are bounded as in the kernel. *)
From S2P Require Import Prelude Machine Pipe User.

Inductive desc : Type := DConsole | DPipeR (j : nat) | DPipeW (j : nat).
#[global] Instance desc_eq_dec : EqDecision desc.
Proof. solve_decision. Defined.

Record uproc := mkU { u_code : prog unit; u_fds : list (option desc) }.
Record world := mkW { w_procs : list uproc; w_pipes : list (list Z); w_out : list Z }.

(** The pids that allocpid() gave to the processes of the program; other programs may have got some in between. *)
Class Pids := pid_of : nat → positive.

(** The descriptors of a process: argfd(), fdalloc() *)
Definition fd_of (fds : list (option desc)) (fd : Z) : option desc := if 0 <=? fd then mjoin (fds !! Z.to_nat fd) else None.
Definition is_free (d : option desc) : bool := match d with None => true | _ => false end.
Definition free_fd (fds : list (option desc)) : option nat := fst <$> list_find (λ d, Is_true (is_free d)) fds.
Definition open_in (d : desc) (p : uproc) : bool := bool_decide (Some d ∈ u_fds p).
Definition is_open (d : desc) (w : world) : bool := existsb (open_in d) (w_procs w).

(** fdalloc() of the two ends of a new pipe *)
Definition pipe_fds (j : nat) (fds : list (option desc)) : option (nat * nat * list (option desc)) :=
  match free_fd fds with
  | None => None
  | Some r =>
    let fds := <[r := Some (DPipeR j)]> fds in
    match free_fd fds with
    | None => None
    | Some w => Some (r, w, <[w := Some (DPipeW j)]> fds)
    end
  end.

Definition set_proc (i : nat) (p : uproc) (w : world) : world := mkW (<[i := p]> (w_procs w)) (w_pipes w) (w_out w).
Definition set_pipe (j : nat) (q : list Z) (w : world) : world := mkW (w_procs w) (<[j := q]> (w_pipes w)) (w_out w).

Section step.
Context `{Pids} (i : nat).
(** The call of process [i] is answered. *)
Definition answer (fds : list (option desc)) (k : ans → prog unit) (r : Z) (bs : list Z) (w : world) : world :=
  set_proc i (mkU (k (r, bs)) fds) w.

Definition do_read (fds : list (option desc)) (fd n : Z) (k : ans → prog unit) (w : world) : option world :=
  match fd_of fds fd with
  | Some (DPipeR j) =>
    match w_pipes w !! j with
    | Some [] => if is_open (DPipeW j) w then None else Some (answer fds k 0 [] w)
    | Some q =>
      let bs := take (Z.to_nat n) q in
      Some (answer fds k (Z.of_nat (length bs)) bs (set_pipe j (drop (Z.to_nat n) q) w))
    | None => None
    end
  | Some DConsole => None
  | _ => Some (answer fds k (-1) [] w)
  end.

(** When a pipe becomes full the call goes on with what is left. *)
Definition do_write (fds : list (option desc)) (fd : Z) (bs : list Z) (k : ans → prog unit) (w : world) : option world :=
  let n := Z.of_nat (length bs) in
  match fd_of fds fd with
  | Some (DPipeW j) =>
    match w_pipes w !! j with
    | Some q =>
      let room := (Z.to_nat PIPESIZE - length q)%nat in
      if decide (length bs ≤ room)%nat then Some (answer fds k n [] (set_pipe j (q ++ bs) w))
      else if decide (room = 0%nat) then (if is_open (DPipeR j) w then None else Some (answer fds k (-1) [] w))
      else
        let k' (a : ans) := k (if fst a <? 0 then a else (n, [])) in
        Some (set_proc i (mkU (PCall (Uwrite fd (drop room bs)) k') fds) (set_pipe j (q ++ take room bs) w))
    | None => None
    end
  | Some DConsole => Some (mkW (w_procs (answer fds k n [] w)) (w_pipes w) (w_out w ++ bs))
  | _ => Some (answer fds k (-1) [] w)
  end.

Definition do_pipe (fds : list (option desc)) (k : ans → prog unit) (w : world) : option world :=
  let j := length (w_pipes w) in
  match pipe_fds j fds with
  | Some (r, x, fds) =>
    let w := answer fds k 0 [Z.of_nat r; Z.of_nat x] w in Some (mkW (w_procs w) (w_pipes w ++ [[]]) (w_out w))
  | None => Some (answer fds k (-1) [] w)
  end.

(** fork(): the child has copies of the descriptors, and the answer 0. *)
Definition do_fork (fds : list (option desc)) (k : ans → prog unit) (w : world) : option world :=
  let pid := Z.pos (pid_of (length (w_procs w))) in
  let w := answer fds k pid [] w in
  Some (mkW (w_procs w ++ [mkU (k (0, [])) fds]) (w_pipes w) (w_out w)).

Definition do_call (c : ucall) (fds : list (option desc)) (k : ans → prog unit) (w : world) : option world :=
  match c with
  | Uread fd n => do_read fds fd n k w
  | Uwrite fd bs => do_write fds fd bs k w
  | Uclose fd =>
    match fd_of fds fd with
    | Some _ => Some (answer (<[Z.to_nat fd := None]> fds) k 0 [] w)
    | None => Some (answer fds k (-1) [] w)
    end
  | Udup fd =>
    match fd_of fds fd, free_fd fds with
    | Some d, Some n => Some (answer (<[n := Some d]> fds) k (Z.of_nat n) [] w)
    | _, _ => Some (answer fds k (-1) [] w)
    end
  | Upipe => do_pipe fds k w
  | Ufork => do_fork fds k w
  | Usleep n => Some (answer fds k 0 [] w)
  | Ugetpid => Some (answer fds k (Z.pos (pid_of i)) [] w)
  | _ => None
  end.

Definition step_at (w : world) : option world :=
  match w_procs w !! i with
  | Some (mkU (PCall c k) fds) => do_call c fds k w
  | Some (mkU (PIter T B f s k) fds) => Some (set_proc i (mkU (unfold_iter f s k) fds) w)
  | Some (mkU (PExit _) fds) => Some (set_proc i (mkU (PRet ()) ((λ _, None) <$> fds)) w)
  | _ => None
  end.
End step.

Definition wstep `{Pids} (w w' : world) : Prop := ∃ i, step_at i w = Some w'.
Definition exited (p : uproc) : bool := match u_code p with PRet _ => true | _ => false end.

(** The descriptors a process starts with: console as 0, 1 and 2 *)
Definition std_fds : list (option desc) := replicate 3 (Some DConsole) ++ replicate (Z.to_nat NOFILE - 3) None.
Definition start (p : prog unit) : world := mkW [mkU p std_fds] [] [].

(** A scheduler: the next process that can run, round robin *)
Fixpoint run `{Pids} (fuel : nat) (i : nat) (w : world) : world :=
  match fuel with
  | O => w
  | S fuel =>
    let i := if decide (i < length (w_procs w))%nat then i else 0%nat in
    match step_at i w with Some w' => run fuel (S i) w' | None => run fuel (S i) w end
  end.

Lemma run_steps `{Pids} fuel i w : ∃ m, nsteps wstep m w (run fuel i w).
Proof.
  revert i w. induction fuel as [|fuel IH]; intros i w; cbn [run]; [exists 0%nat; constructor|]. destruct (step_at _ w) as [w'|] eqn:E; [|apply IH].
  destruct (IH (S (if decide (i < length (w_procs w))%nat then i else 0%nat)) w') as [m Hm]. exists (S m). econstructor; [by eexists|exact Hm].
Qed.
