(* ===== verification/Chain.v ===== *)
(** Chains of processes: each forks at most one child and sends to it through a pipe.

    The scheduler may run the processes in any order.  In a chain that makes no difference: what a process does depends only on
    what it reads, so that it can be worked out one process after the other ([lnext], [check]), and every run of
    the world does just that.  Process [k] makes pipe [k], reads pipe [k - 1] and writes pipe [k], in units of 4 bytes. *)
From S2P Require Import Prelude Machine Pipe User Pool.

(** ** A process on its own *)
Record conf := mkConf {
  c_code : prog unit;
  c_fds : list (option desc);
  c_inp : list Z;        (* what it has still to read from its pipe *)
  c_sent : list Z;       (* what it has written to its pipe *)
  c_prt : list Z;        (* what it has printed *)
  c_fresh : bool;        (* it has not read anything yet *)
  c_piped : bool;        (* it has made its pipe *)
  c_forked : bool        (* it has forked *)
}.
Definition at_code (p : prog unit) (fds : list (option desc)) (c : conf) : conf :=
  mkConf p fds (c_inp c) (c_sent c) (c_prt c) (c_fresh c) (c_piped c) (c_forked c).
Definition goes (kk : ans → prog unit) (r : Z) (bs : list Z) (c : conf) : conf := at_code (kk (r, bs)) (c_fds c) c.
Definition has_read (c : conf) : conf :=
  mkConf (c_code c) (c_fds c) (drop 4 (c_inp c)) (c_sent c) (c_prt c) false (c_piped c) (c_forked c).
Definition has_sent (bs : list Z) (c : conf) : conf :=
  mkConf (c_code c) (c_fds c) (c_inp c) (c_sent c ++ bs) (c_prt c) (c_fresh c) (c_piped c) (c_forked c).
Definition has_printed (bs : list Z) (c : conf) : conf :=
  mkConf (c_code c) (c_fds c) (c_inp c) (c_sent c) (c_prt c ++ bs) (c_fresh c) (c_piped c) (c_forked c).
Definition has_piped (c : conf) : conf :=
  mkConf (c_code c) (c_fds c) (c_inp c) (c_sent c) (c_prt c) (c_fresh c) true (c_forked c).
Definition has_forked (c : conf) : conf :=
  mkConf (c_code c) (c_fds c) (c_inp c) (c_sent c) (c_prt c) (c_fresh c) (c_piped c) true.

(** The child, which will read [o] *)
Definition child (c : conf) (kk : ans → prog unit) (o : list Z) : conf := mkConf (kk (0, [])) (c_fds c) o [] [] true false false.

Section chain.
Context `{Pids}.

(** Its next call, answered when its input is there *)
Definition lcall (k : nat) (c : conf) (call : ucall) (kk : ans → prog unit) : option conf :=
  match call with
  | Uread fd n =>
    match fd_of (c_fds c) fd with
    | Some (DPipeR j) =>
      if decide (S j = k ∧ n = 4 ∧ (4 ≤ length (c_inp c))%nat) then Some (has_read (goes kk 4 (take 4 (c_inp c)) c)) else None
    | _ => None
    end
  | Uwrite fd bs =>
    match fd_of (c_fds c) fd with
    | Some (DPipeW j) =>
      if decide (j = k ∧ length bs = 4%nat ∧ c_forked c = true) then Some (has_sent bs (goes kk 4 [] c)) else None
    | Some DConsole =>
      if decide (c_sent c = [] ∧ c_fresh c = false) then Some (has_printed bs (goes kk (Z.of_nat (length bs)) [] c)) else None
    | _ => None
    end
  | Uclose fd =>
    match fd_of (c_fds c) fd with
    | Some _ => Some (at_code (kk (0, [])) (<[Z.to_nat fd := None]> (c_fds c)) c)
    | None => None
    end
  | Upipe =>
    match pipe_fds k (c_fds c) with
    | Some (r, x, fds) =>
      if decide (c_piped c = false ∧ c_fresh c = false) then Some (has_piped (at_code (kk (0, [Z.of_nat r; Z.of_nat x])) fds c)) else None
    | None => None
    end
  | Ufork => if decide (c_forked c = false ∧ c_piped c = true) then Some (has_forked (goes kk (Z.pos (pid_of (S k))) [] c)) else None
  | Usleep _ => Some (goes kk 0 [] c)
  | _ => None
  end.

Definition lnext (k : nat) (c : conf) : option conf :=
  match c_code c with
  | PRet _ => None
  | PCall call kk => lcall k c call kk
  | PIter T B f s kk => Some (at_code (unfold_iter f s kk) (c_fds c) c)
  | PExit _ => Some (at_code (PRet ()) ((λ _, None) <$> c_fds c) c)
  end.

(** What holds of a process all the time; [o] is all that it will have sent in the end. *)
Definition good (k : nat) (c : conf) (o : list Z) : Prop :=
  (length (c_sent c) mod 4 = 0 ∧ length (c_inp c) mod 4 = 0 ∧ length o ≤ Z.to_nat PIPESIZE)%nat ∧
  (c_forked c = false → c_sent c = []) ∧ (c_piped c = false → c_forked c = false) ∧
  (c_fresh c = true → c_prt c = [] ∧ c_piped c = false) ∧
  (c_piped c = true → c_sent c ≠ o → Some (DPipeW k) ∈ c_fds c).
#[global] Instance good_dec k c o : Decision (good k c o).
Proof. unfold good. apply _. Defined.

(** From here on the process, and the children it has yet to make, take [n] steps and print [p]. *)
Inductive will : nat → conf → list Z → nat → list Z → Prop :=
| will_end k c : c_code c = PRet () → good k c (c_sent c) → will k c (c_sent c) 0 []
| will_step k c c' o n p bs :
    good k c o → lnext k c = Some c' → (∀ kk, c_code c ≠ PCall Ufork kk) → c_prt c' = c_prt c ++ bs →
    will k c' o n p → will k c o (S n) (bs ++ p)
| will_fork k c c' kk o o' n n' p p' :
    good k c o → lnext k c = Some c' → c_code c = PCall Ufork kk →
    will k c' o n p → will (S k) (child c kk o) o' n' p' → will k c o (S (n + n')) (p ++ p').

Lemma will_good k c o n p : will k c o n p → good k c o.
Proof. by destruct 1. Qed.

(** ** Working out a chain *)
Fixpoint final_sent (fuel k : nat) (c : conf) : option (list Z) :=
  match fuel with
  | O => None
  | S fuel => match lnext k c with Some c' => final_sent fuel k c' | None => Some (c_sent c) end
  end.

Definition forks (p : prog unit) : option (ans → prog unit) := match p with PCall Ufork kk => Some kk | _ => None end.
Definition ended (p : prog unit) : bool := match p with PRet _ => true | _ => false end.

Fixpoint check (fuel k : nat) (c : conf) (o : list Z) : option (nat * list Z) :=
  match fuel with
  | O => None
  | S fuel =>
    if decide (good k c o) then
      match lnext k c with
      | None => if ended (c_code c) && bool_decide (o = c_sent c) then Some (0%nat, []) else None
      | Some c' =>
        match check fuel k c' o with
        | None => None
        | Some (n, p) =>
          match forks (c_code c) with
          | Some kk =>
            match final_sent fuel (S k) (child c kk o) with
            | None => None
            | Some o' =>
              match check fuel (S k) (child c kk o) o' with
              | None => None
              | Some (n', p') => Some (S (n + n'), p ++ p')
              end
            end
          | None =>
            let bs := drop (length (c_prt c)) (c_prt c') in
            if decide (c_prt c' = c_prt c ++ bs) then Some (S n, bs ++ p) else None
          end
        end
      end
    else None
  end.

Lemma check_will fuel k c o n p : check fuel k c o = Some (n, p) → will k c o n p.
Proof.
  revert k c o n p. induction fuel as [|fuel IH]; intros k c o n p E; [done|]. cbn [check] in E.
  destruct (decide (good k c o)) as [Hg|]; [|done]. destruct (lnext k c) as [c'|] eqn:El.
  - destruct (check fuel k c' o) as [[n1 p1]|] eqn:E1; [|done]. destruct (forks (c_code c)) as [kk|] eqn:Ef.
    + destruct (final_sent _ _ _) as [o'|]; [|done]. destruct (check fuel (S k) _ o') as [[n2 p2]|] eqn:E2; [|done]. injection E as <- <-.
      eapply will_fork; [done|done| |by apply IH|by apply IH]. unfold forks in Ef. by repeat case_match; simplify_eq.
    + destruct (decide _) as [Hp|]; [|done]. injection E as <- <-. eapply will_step; [done|done| |done|by apply IH].
      intros kk Hk. by rewrite Hk in Ef.
  - destruct (ended (c_code c)) eqn:Ee; [|done]. destruct (bool_decide_reflect (o = c_sent c)) as [->|]; [|done]. injection E as <- <-.
    apply will_end; [|done]. unfold ended in Ee. destruct (c_code c) as [[]| | |]; done.
Qed.

(** ** The world of a chain *)
Record ent := mkE { e_c : conf; e_o : list Z; e_n : nat; e_p : list Z }.
Definition proc_of (e : ent) : uproc := mkU (c_code (e_c e)) (c_fds (e_c e)).

(** Pipe [k] holds what process [k] has sent and its child has not read. *)
Definition pipe_holds (e : ent) (next : option ent) (q : list Z) : Prop :=
  match next with
  | Some e' => ∃ u, e_o e = u ++ c_inp (e_c e') ∧ c_sent (e_c e) = u ++ q ∧ (u = [] → c_fresh (e_c e') = true)
  | None => q = []
  end.

Record chain_inv (w : world) (es : list ent) (n : nat) (out : list Z) : Prop := {
  ci_procs : w_procs w = proc_of <$> es;
  ci_will k e : es !! k = Some e → will k (e_c e) (e_o e) (e_n e) (e_p e);
  ci_forked k e : es !! k = Some e → (c_forked (e_c e) = true ↔ is_Some (es !! S k));
  ci_piped k : is_Some (w_pipes w !! k) ↔ ∃ e, es !! k = Some e ∧ c_piped (e_c e) = true;
  ci_pipe k q e : w_pipes w !! k = Some q → es !! k = Some e → pipe_holds e (es !! S k) q;
  ci_out : w_out w = concat ((λ e, c_prt (e_c e)) <$> es);
  ci_n : sum_list (e_n <$> es) = n;
  ci_all : concat ((λ e, c_prt (e_c e) ++ e_p e) <$> es) = out
}.

Lemma sum_list_insert (l : list nat) i x y : l !! i = Some x → (sum_list (<[i := y]> l) + x = sum_list l + y)%nat.
Proof. revert i. induction l as [|z l IH]; intros [|i] E; simplify_eq/=; [lia|]. specialize (IH i E). lia. Qed.

Lemma concat_insert {A} (l : list (list A)) i x : l !! i = Some x → concat (<[i := x]> l) = concat l.
Proof. intros E. by rewrite list_insert_id. Qed.

Lemma lookup_upd (es : list ent) i e' k : (∃ e, es !! i = Some e) → <[i := e']> es !! k = if decide (k = i) then Some e' else es !! k.
Proof.
  intros [e E]. destruct (decide (k = i)) as [->|Hne]; [|by apply list_lookup_insert_ne]. apply list_lookup_insert_eq. by eapply lookup_lt_Some.
Qed.

(** A step of process [i] that does not fork *)
Lemma chain_upd w w' es i e e' n m out :
  chain_inv w es n out → es !! i = Some e → w_procs w' = <[i := proc_of e']> (w_procs w) →
  will i (e_c e') (e_o e') (e_n e') (e_p e') → c_forked (e_c e') = c_forked (e_c e) → e_n e = S (e_n e') → n = S m →
  c_prt (e_c e') ++ e_p e' = c_prt (e_c e) ++ e_p e →
  (∀ k, is_Some (w_pipes w' !! k) ↔ ∃ x, (if decide (k = i) then Some e' else es !! k) = Some x ∧ c_piped (e_c x) = true) →
  (∀ k q x, w_pipes w' !! k = Some q → (if decide (k = i) then Some e' else es !! k) = Some x →
     pipe_holds x (if decide (S k = i) then Some e' else es !! S k) q) →
  w_out w' = concat ((λ e, c_prt (e_c e)) <$> <[i := e']> es) →
  chain_inv w' (<[i := e']> es) m out.
Proof.
  intros [Hp Hw Hf Hpd Hq Ho Hn Ha] He Hp' Hw' Hf' Hn' Hm Hprt Hpd' Hq' Ho'.
  assert (Hl : ∃ e, es !! i = Some e) by eauto. split.
  - by rewrite Hp', Hp, list_fmap_insert.
  - intros k x. rewrite (lookup_upd es i e' k Hl). destruct (decide (k = i)) as [->|]; [intros [= <-]; done|apply Hw].
  - intros k x. rewrite !(lookup_upd es i e' _ Hl). destruct (decide (k = i)) as [->|]; destruct (decide (S _ = i)) as [E|]; try lia.
    + intros [= <-]. rewrite Hf'. by apply Hf.
    + intros Hx. subst i. rewrite (Hf k x Hx). split; [by eauto|]. intros _. by exists e.
    + apply Hf.
  - intros k. rewrite (lookup_upd es i e' k Hl). apply Hpd'.
  - intros k q x. rewrite !(lookup_upd es i e' _ Hl). apply Hq'.
  - done.
  - rewrite list_fmap_insert. pose proof (sum_list_insert (e_n <$> es) i (e_n e) (e_n e')) as Hs. rewrite list_lookup_fmap, He in Hs. specialize (Hs eq_refl). lia.
  - rewrite list_fmap_insert, concat_insert; [done|]. rewrite list_lookup_fmap, He. cbn. by rewrite Hprt.
Qed.

(** ... and that leaves the pipes and the output alone *)
Lemma chain_quiet w es i e c' n out m p :
  chain_inv w es n out → es !! i = Some e → will i c' (e_o e) m p → e_n e = S m → e_p e = p →
  c_inp c' = c_inp (e_c e) → c_sent c' = c_sent (e_c e) → c_prt c' = c_prt (e_c e) → c_fresh c' = c_fresh (e_c e) →
  c_piped c' = c_piped (e_c e) → c_forked c' = c_forked (e_c e) →
  chain_inv (set_proc i (mkU (c_code c') (c_fds c')) w) (<[i := mkE c' (e_o e) m p]> es) (pred n) out.
Proof.
  intros HI He Hw Hn Hp Ei Es Ep Ef Epd Efk. pose proof HI as [_ _ _ Hpd Hq Ho Hsum _].
  eapply (chain_upd w _ es i e); [done|done|done|done|done|done| |cbn; by rewrite Ep, Hp| | |].
  - pose proof (sum_list_insert (e_n <$> es) i (e_n e) 0) as Hs. rewrite list_lookup_fmap, He in Hs. specialize (Hs eq_refl). lia.
  - intros k. change (w_pipes _) with (w_pipes w). rewrite Hpd. destruct (decide (k = i)) as [->|]; [|done]. rewrite He. split.
    + intros (x & [= <-] & Hx). eexists. split; [done|]. cbn. by rewrite Epd.
    + intros (x & [= <-] & Hx). exists e. split; [done|]. cbn in Hx. by rewrite <- Epd.
  - intros k q x Hqk Hx. change (w_pipes w !! k = Some q) in Hqk. destruct (decide (k = i)) as [->|Hk].
    + injection Hx as <-. rewrite decide_False by lia. pose proof (Hq i q e Hqk He) as Hh. unfold pipe_holds in *. destruct (es !! S i); [|done]. cbn [e_c e_o]. by rewrite Es.
    + pose proof (Hq k q x Hqk Hx) as Hh. destruct (decide (S k = i)) as [E|]; [|done]. subst i. rewrite He in Hh.
      destruct Hh as (u & H1 & H2 & H3). exists u. cbn [e_c]. rewrite Ei, Ef. done.
  - cbn [w_out set_proc]. rewrite Ho, list_fmap_insert, concat_insert; [done|]. rewrite list_lookup_fmap, He. cbn. by rewrite Ep.
Qed.

Lemma lnext_sent k c c' : lnext k c = Some c' → c_sent c `prefix_of` c_sent c'.
Proof.
  unfold lnext, lcall. intros E. repeat (case_match; simplify_eq/=; try done). by eexists.
Qed.

Lemma will_sent k c o n p : will k c o n p → c_sent c `prefix_of` o ∧ (length o mod 4 = 0)%nat ∧ (n = 0%nat → c_sent c = o).
Proof.
  induction 1 as [k c Hc Hg|k c c' o n p bs Hg El Hf Hb Hw [IH1 [IH2 _]]|k c c' kk o o' n n' p p' Hg El Hc Hw [IH1 [IH2 _]] Hw' _].
  - split_and!; [done|apply Hg|done].
  - split_and!; [|done|done]. etrans; [by eapply lnext_sent|done].
  - split_and!; [|done|done]. etrans; [by eapply lnext_sent|done].
Qed.

Section cases.
Context (w : world) (es : list ent) (n : nat) (out : list Z) (i : nat) (e : ent).
Hypothesis HI : chain_inv w es n out.
Hypothesis He : es !! i = Some e.

Definition moves : Prop := ∃ w' es', step_at i w = Some w' ∧ chain_inv w' es' (pred n) out.

Lemma proc_at : w_procs w !! i = Some (mkU (c_code (e_c e)) (c_fds (e_c e))).
Proof. rewrite (ci_procs _ _ _ _ HI), list_lookup_fmap, He. done. Qed.

Lemma chain_pos m : e_n e = S m → n = S (pred n).
Proof.
  intros Hn. pose proof (ci_n _ _ _ _ HI) as Hsum. pose proof (sum_list_insert (e_n <$> es) i (e_n e) 0) as Hs.
  rewrite list_lookup_fmap, He in Hs. specialize (Hs eq_refl). lia.
Qed.

(** Processes further on, when this one has sent nothing *)
Lemma none_after k x : c_sent (e_c e) = [] → es !! k = Some x → (i < k)%nat → c_prt (e_c x) = [].
Proof.
  intros Hs Hx Hk. destruct (es !! S i) as [e1|] eqn:E1; [|apply lookup_ge_None_1 in E1; apply lookup_lt_Some in Hx; lia].
  assert (Hfk : c_forked (e_c e) = true) by (by apply (ci_forked _ _ _ _ HI i e He); rewrite E1).
  pose proof (will_good _ _ _ _ _ (ci_will _ _ _ _ HI i e He)) as (_ & _ & Hpf & _).
  assert (Hpd : c_piped (e_c e) = true) by (destruct (c_piped (e_c e)); [done|]; by rewrite Hpf in Hfk).
  destruct (proj2 (ci_piped _ _ _ _ HI i)) as [q Hq]; [by exists e|].
  pose proof (ci_pipe _ _ _ _ HI i q e Hq He) as Hh. rewrite E1 in Hh. destruct Hh as (u & _ & Hu & Hfr). rewrite Hs in Hu. symmetry in Hu. apply app_nil in Hu as [-> _].
  pose proof (will_good _ _ _ _ _ (ci_will _ _ _ _ HI (S i) e1 E1)) as (_ & _ & Hpf1 & Hfr1 & _). destruct (Hfr1 (Hfr eq_refl)) as [Hprt Hpd1].
  destruct (decide (k = S i)) as [->|Hne]; [by rewrite E1 in Hx; simplify_eq|].
  assert (Hfk1 : c_forked (e_c e1) = true).
  { apply (ci_forked _ _ _ _ HI (S i) e1 E1). apply lookup_lt_is_Some. apply lookup_lt_Some in Hx. lia. }
  by rewrite Hpf1 in Hfk1.
Qed.

(** The output grows at its end. *)
Lemma print_end bs x : c_sent (e_c e) = [] → c_prt (e_c x) = c_prt (e_c e) ++ bs →
  w_out w ++ bs = concat ((λ e, c_prt (e_c e)) <$> <[i := x]> es).
Proof.
  intros Hs Hx. rewrite (ci_out _ _ _ _ HI). pose proof (lookup_lt_Some _ _ _ He) as Hlt.
  assert (Hd : ∀ y, concat ((λ e, c_prt (e_c e)) <$> <[i := y]> es) = concat ((λ e, c_prt (e_c e)) <$> take i es) ++ c_prt (e_c y)).
  { intros y. rewrite insert_take_drop by done. rewrite fmap_app, fmap_cons, concat_app. cbn [concat]. f_equal.
    rewrite (concat_nil (_ <$> drop (S i) es)), app_nil_r; [done|]. intros k z Hz. rewrite list_lookup_fmap, lookup_drop in Hz.
    destruct (es !! (S i + k)%nat) as [y'|] eqn:Ey; [|done]. injection Hz as <-. eapply (none_after (S i + k)); [done|done|lia]. }
  rewrite Hd, Hx, app_assoc. f_equal. rewrite <- Hd. by rewrite list_insert_id.
Qed.

Lemma move_quiet c' m p bs :
  will i c' (e_o e) m p → e_n e = S m → e_p e = bs ++ p → c_prt c' = c_prt (e_c e) ++ bs →
  c_inp c' = c_inp (e_c e) → c_sent c' = c_sent (e_c e) → c_prt c' = c_prt (e_c e) → c_fresh c' = c_fresh (e_c e) →
  c_piped c' = c_piped (e_c e) → c_forked c' = c_forked (e_c e) →
  step_at i w = Some (set_proc i (mkU (c_code c') (c_fds c')) w) → moves.
Proof.
  intros Hw Hn Hp Hb Ei Es Ep Ef Epd Efk Hst. eexists. eexists. split; [exact Hst|]. eapply (chain_quiet w es i e c'); try done.
  rewrite Hp. rewrite Ep in Hb. rewrite <- (app_nil_r (c_prt (e_c e))) in Hb at 1. apply app_inv_head in Hb. by rewrite <- Hb.
Qed.

Lemma move_print fd bs kk m p :
  c_code (e_c e) = PCall (Uwrite fd bs) kk → fd_of (c_fds (e_c e)) fd = Some DConsole → c_sent (e_c e) = [] →
  will i (has_printed bs (goes kk (Z.of_nat (length bs)) [] (e_c e))) (e_o e) m p → e_n e = S m → e_p e = bs ++ p → moves.
Proof.
  intros Hc Hfd Hs Hw Hn Hp. set (c' := has_printed _ _) in *. eexists. exists (<[i := mkE c' (e_o e) m p]> es). split.
  { unfold step_at. rewrite proc_at, Hc. cbn [do_call]. unfold do_write. rewrite Hfd. reflexivity. }
  pose proof HI as [_ _ _ Hpd Hq Ho _ _]. eapply (chain_upd w _ es i e); [done|done|done|done|done|done|by eapply chain_pos| | | |].
  - cbn. rewrite Hp. by rewrite app_assoc.
  - intros k. cbn [w_pipes]. rewrite Hpd. destruct (decide (k = i)) as [->|]; [|done]. rewrite He. split; intros (x & [= <-] & Hx); eauto.
  - intros k q x Hqk Hx. cbn [w_pipes] in Hqk. destruct (decide (k = i)) as [->|Hk].
    + injection Hx as <-. rewrite decide_False by lia. pose proof (Hq i q e Hqk He) as Hh. unfold pipe_holds in *. by destruct (es !! S i).
    + pose proof (Hq k q x Hqk Hx) as Hh. destruct (decide (S k = i)) as [E|]; [|done]. subst i. by rewrite He in Hh.
  - cbn [w_out]. by apply print_end.
Qed.
Lemma piped_same e' k : c_piped (e_c e') = c_piped (e_c e) →
  is_Some (w_pipes w !! k) ↔ ∃ x, (if decide (k = i) then Some e' else es !! k) = Some x ∧ c_piped (e_c x) = true.
Proof.
  intros Hp. rewrite (ci_piped _ _ _ _ HI k). destruct (decide (k = i)) as [->|]; [|done]. rewrite He.
  split; intros (x & [= <-] & Hx); eexists; (split; [done|congruence]).
Qed.

(** The pipe from the parent *)
Lemma read_pipe_at j : i = S j → ∃ q e0 u, w_pipes w !! j = Some q ∧ es !! j = Some e0 ∧
  e_o e0 = u ++ c_inp (e_c e) ∧ c_sent (e_c e0) = u ++ q ∧ (u = [] → c_fresh (e_c e) = true) ∧ (length q mod 4 = 0)%nat ∧
  q `prefix_of` c_inp (e_c e) ∧ c_piped (e_c e0) = true.
Proof.
  intros ->. destruct (es !! j) as [e0|] eqn:E0; [|apply lookup_ge_None_1 in E0; apply lookup_lt_Some in He; lia].
  pose proof (ci_will _ _ _ _ HI j e0 E0) as Hw0. pose proof (will_good _ _ _ _ _ Hw0) as ((Hm0 & _) & _ & Hpf & _).
  assert (Hfk : c_forked (e_c e0) = true) by (by apply (ci_forked _ _ _ _ HI j e0 E0); rewrite He).
  assert (Hpd : c_piped (e_c e0) = true) by (destruct (c_piped (e_c e0)); [done|]; by rewrite Hpf in Hfk).
  destruct (proj2 (ci_piped _ _ _ _ HI j)) as [q Hq]; [by exists e0|].
  pose proof (ci_pipe _ _ _ _ HI j q e0 Hq E0) as Hh. rewrite He in Hh. destruct Hh as (u & Ho & Hs & Hf).
  destruct (will_sent _ _ _ _ _ Hw0) as (Hpre & Hmo & _).
  pose proof (will_good _ _ _ _ _ (ci_will _ _ _ _ HI (S j) e He)) as ((_ & Hmi & _) & _).
  exists q, e0, u. split_and!; try done.
  - rewrite Ho, length_app in Hmo. rewrite Hs, length_app in Hm0. apply Nat.Div0.mod_divides in Hmi as [x Hx]. apply Nat.Div0.mod_divides in Hmo as [y Hy].
    apply Nat.Div0.mod_divides in Hm0 as [z Hz]. apply Nat.Div0.mod_divides. exists (z - (y - x))%nat. lia.
  - rewrite Ho, Hs in Hpre. by apply prefix_app_inv in Hpre.
Qed.

Lemma move_read fd kk j m p :
  c_code (e_c e) = PCall (Uread fd 4) kk → fd_of (c_fds (e_c e)) fd = Some (DPipeR j) → i = S j → (4 ≤ length (c_inp (e_c e)))%nat →
  will i (has_read (goes kk 4 (take 4 (c_inp (e_c e))) (e_c e))) (e_o e) m p → e_n e = S m → e_p e = p →
  moves ∨ (step_at i w = None ∧ ∃ e0, es !! j = Some e0 ∧ e_n e0 ≠ 0%nat).
Proof.
  intros Hc Hfd Hi H4 Hw Hn Hp. destruct (read_pipe_at j Hi) as (q & e0 & u & Hq & E0 & Ho & Hs & Hf & Hmq & Hpre & Hpd).
  set (c' := has_read _) in *. assert (Hst : step_at i w = do_read i (c_fds (e_c e)) fd 4 kk w) by (unfold step_at; by rewrite proc_at, Hc).
  unfold do_read in Hst. rewrite Hfd, Hq in Hst. pose proof (ci_will _ _ _ _ HI j e0 E0) as Hw0. destruct q as [|b q].
  - right. assert (Hne : c_sent (e_c e0) ≠ e_o e0).
    { rewrite Hs, Ho. intros E. apply app_inv_head in E. by rewrite <- E in H4; cbn in H4; lia. }
    split; [|exists e0; split; [done|]; intros E; by destruct (will_sent _ _ _ _ _ Hw0) as (_ & _ & Hz); apply Hne, Hz].
    rewrite Hst. pose proof (will_good _ _ _ _ _ Hw0) as (_ & _ & _ & _ & Hop).
    replace (is_open (DPipeW j) w) with true; [done|]. symmetry. unfold is_open. apply existsb_exists. exists (proc_of e0). split.
    + apply list_elem_of_In. rewrite (ci_procs _ _ _ _ HI). apply list_elem_of_fmap. exists e0. split; [done|]. by eapply list_elem_of_lookup_2.
    + unfold open_in. apply bool_decide_eq_true. by apply Hop.
  - left. destruct Hpre as [rest Hr]. cbn [length] in Hmq. destruct q as [|b1 [|b2 [|b3 q]]]; try (by exfalso; cbn in Hmq; lia).
    cbn [app] in Hr. eexists. exists (<[i := mkE c' (e_o e) m p]> es). split; [exact Hst|].
    change (Z.to_nat 4) with 4%nat. cbn [take drop]. set (w' := answer _ _ _ _ _ _).
    assert (Hpp : w_pipes w' = <[j := q]> (w_pipes w)) by done.
    eapply (chain_upd w w' es i e); [done|done| |done|done|done|by eapply chain_pos|by rewrite Hp| | |].
    { unfold w', c', proc_of, answer. cbn [w_procs set_proc set_pipe e_c]. unfold has_read, goes, at_code. cbn [c_code c_fds]. by rewrite Hr. }
    + intros k. rewrite Hpp. rewrite <- (piped_same (mkE c' (e_o e) m p) k eq_refl). destruct (decide (k = j)) as [->|].
      * rewrite list_lookup_insert_eq by (by eapply lookup_lt_Some). rewrite Hq. by split; eauto.
      * by rewrite list_lookup_insert_ne.
    + intros k q' x Hqk Hx. rewrite Hpp in Hqk. destruct (decide (k = j)) as [->|Hkj].
      * rewrite list_lookup_insert_eq in Hqk by (by eapply lookup_lt_Some). injection Hqk as <-. rewrite decide_False in Hx by lia. rewrite E0 in Hx. injection Hx as <-.
        rewrite decide_True by lia. exists (u ++ [b; b1; b2; b3]). cbn [e_c e_o c' has_read c_inp]. rewrite Ho, Hs. unfold c', has_read. cbn [c_inp e_c]. unfold goes, at_code. cbn [c_inp]. rewrite Hr. cbn [drop].
        split_and!; [by rewrite <- app_assoc|by rewrite <- app_assoc|]. intros E. apply app_nil in E as [_ E]. done.
      * rewrite list_lookup_insert_ne in Hqk by done. destruct (decide (k = i)) as [->|Hki].
        -- injection Hx as <-. rewrite decide_False by lia. pose proof (ci_pipe _ _ _ _ HI i q' e Hqk He) as Hh. unfold pipe_holds in *. by destruct (es !! S i).
        -- rewrite decide_False by lia. by apply (ci_pipe _ _ _ _ HI k).
    + unfold w'. cbn [w_out answer set_proc set_pipe]. rewrite (ci_out _ _ _ _ HI), list_fmap_insert, concat_insert; [done|]. by rewrite list_lookup_fmap, He.
Qed.
Lemma move_write fd bs kk m p :
  c_code (e_c e) = PCall (Uwrite fd bs) kk → fd_of (c_fds (e_c e)) fd = Some (DPipeW i) → length bs = 4%nat → c_forked (e_c e) = true →
  will i (has_sent bs (goes kk 4 [] (e_c e))) (e_o e) m p → e_n e = S m → e_p e = p → moves.
Proof.
  intros Hc Hfd Hl Hfk Hw Hn Hp. set (c' := has_sent _ _) in *.
  pose proof (will_good _ _ _ _ _ (ci_will _ _ _ _ HI i e He)) as ((_ & _ & Hsz) & _ & Hpf & _).
  assert (Hpd : c_piped (e_c e) = true) by (destruct (c_piped (e_c e)); [done|]; by rewrite Hpf in Hfk).
  destruct (proj2 (ci_piped _ _ _ _ HI i)) as [q Hq]; [by exists e|].
  destruct (proj1 (ci_forked _ _ _ _ HI i e He) Hfk) as [e1 E1].
  pose proof (ci_pipe _ _ _ _ HI i q e Hq He) as Hh. rewrite E1 in Hh. destruct Hh as (u & Ho & Hs & Hf).
  assert (Hroom : (length bs ≤ Z.to_nat PIPESIZE - length q)%nat).
  { destruct (will_sent _ _ _ _ _ Hw) as ([z Hz] & _). change (c_sent c') with (c_sent (e_c e) ++ bs) in Hz. rewrite Hs in Hz. apply (f_equal length) in Hz.
    rewrite !length_app in Hz. lia. }
  eexists. exists (<[i := mkE c' (e_o e) m p]> es). split.
  { unfold step_at. rewrite proc_at, Hc. cbn [do_call]. unfold do_write. rewrite Hfd, Hq, decide_True by done. reflexivity. }
  rewrite Hl. change (Z.of_nat 4) with 4. set (w' := answer _ _ _ _ _ _). assert (Hpp : w_pipes w' = <[i := q ++ bs]> (w_pipes w)) by done.
  eapply (chain_upd w w' es i e); [done|done|done|done|done|done|by eapply chain_pos|by rewrite Hp| | |].
  - intros k. rewrite Hpp, <- (piped_same (mkE c' (e_o e) m p) k eq_refl). destruct (decide (k = i)) as [->|].
    + rewrite list_lookup_insert_eq by (by eapply lookup_lt_Some). rewrite Hq. by split; eauto.
    + by rewrite list_lookup_insert_ne.
  - intros k q' x Hqk Hx. rewrite Hpp in Hqk. destruct (decide (k = i)) as [->|Hki].
    + rewrite list_lookup_insert_eq in Hqk by (by eapply lookup_lt_Some). injection Hqk as <-. injection Hx as <-. rewrite decide_False, E1 by lia.
      exists u. cbn [e_c e_o]. split_and!; [done| |done]. change (c_sent c') with (c_sent (e_c e) ++ bs). by rewrite Hs, app_assoc.
    + rewrite list_lookup_insert_ne in Hqk by done. pose proof (ci_pipe _ _ _ _ HI k q' x Hqk Hx) as Hh.
      destruct (decide (S k = i)) as [E|]; [|done]. subst i. by rewrite He in Hh.
  - unfold w'. cbn [w_out answer set_proc set_pipe]. rewrite (ci_out _ _ _ _ HI), list_fmap_insert, concat_insert; [done|]. by rewrite list_lookup_fmap, He.
Qed.

Lemma earlier_piped k : (k < i)%nat → is_Some (w_pipes w !! k).
Proof.
  intros Hk. apply (ci_piped _ _ _ _ HI). destruct (lookup_lt_is_Some_2 es k) as [x Hx]; [apply lookup_lt_Some in He; lia|]. exists x. split; [done|].
  assert (Hfk : c_forked (e_c x) = true) by (apply (ci_forked _ _ _ _ HI k x Hx), lookup_lt_is_Some_2; apply lookup_lt_Some in He; lia).
  pose proof (will_good _ _ _ _ _ (ci_will _ _ _ _ HI k x Hx)) as (_ & _ & Hpf & _). destruct (c_piped (e_c x)); [done|]. by rewrite Hpf in Hfk.
Qed.

Lemma pipe_index : c_piped (e_c e) = false → length (w_pipes w) = i.
Proof.
  intros Hp. apply Nat.le_antisymm.
  - apply lookup_ge_None_1. destruct (w_pipes w !! i) as [q|] eqn:Eq; [|done]. destruct (proj1 (ci_piped _ _ _ _ HI i)) as (x & Hx & Hx'); [by rewrite Eq|]. congruence.
  - destruct (decide (i = 0)%nat) as [->|]; [lia|]. destruct (earlier_piped (pred i)) as [q Hq]; [lia|]. apply lookup_lt_Some in Hq. lia.
Qed.

Lemma move_pipe kk r x fds m p :
  c_code (e_c e) = PCall Upipe kk → pipe_fds i (c_fds (e_c e)) = Some (r, x, fds) → c_piped (e_c e) = false →
  will i (has_piped (at_code (kk (0, [Z.of_nat r; Z.of_nat x])) fds (e_c e))) (e_o e) m p → e_n e = S m → e_p e = p → moves.
Proof.
  intros Hc Hfd Hpd Hw Hn Hp. set (c' := has_piped _) in *. pose proof (pipe_index Hpd) as Hi.
  eexists. exists (<[i := mkE c' (e_o e) m p]> es). split.
  { unfold step_at. rewrite proc_at, Hc. cbn [do_call]. unfold do_pipe. rewrite Hi, Hfd. reflexivity. }
  cbn [w_procs w_pipes w_out answer set_proc]. set (w' := mkW _ _ _).
  assert (Hfk : es !! S i = None).
  { destruct (es !! S i) eqn:E; [|done]. pose proof (will_good _ _ _ _ _ (ci_will _ _ _ _ HI i e He)) as (_ & _ & Hpf & _).
    pose proof (proj2 (ci_forked _ _ _ _ HI i e He)) as Hfk. rewrite E, (Hpf Hpd) in Hfk. discriminate Hfk. by eexists. }
  eapply (chain_upd w w' es i e); [done|done|done|done|done|done|by eapply chain_pos|by rewrite Hp| | |].
  - intros k. unfold w'. cbn [w_pipes]. destruct (decide (k = i)) as [->|Hne].
    + rewrite lookup_app_r, Hi, Nat.sub_diag by lia. split; [intros _; by eexists|by eexists].
    + rewrite <- (ci_piped _ _ _ _ HI k), !lookup_lt_is_Some, length_app, Hi. cbn. lia.
  - intros k q' y Hqk Hx. unfold w' in Hqk. cbn [w_pipes] in Hqk. destruct (decide (k = i)) as [->|Hne].
    + rewrite lookup_app_r, Hi, Nat.sub_diag in Hqk by lia. injection Hqk as <-. injection Hx as <-. rewrite decide_False by lia. by rewrite Hfk.
    + rewrite lookup_app_l in Hqk by (apply lookup_lt_Some in Hqk; rewrite length_app in Hqk; cbn in Hqk; lia).
      pose proof (ci_pipe _ _ _ _ HI k q' y Hqk Hx) as Hh. destruct (decide (S k = i)) as [E|]; [|done]. rewrite E, He in Hh. exact Hh.
  - unfold w'. cbn [w_out]. rewrite (ci_out _ _ _ _ HI), list_fmap_insert, concat_insert; [done|]. by rewrite list_lookup_fmap, He.
Qed.

Lemma concat_last {A} (l : list (list A)) k y : length l = S k → concat (<[k := y]> l) = concat (take k l) ++ y.
Proof.
  intros Hl. rewrite insert_take_drop by lia. rewrite concat_app. cbn [concat]. rewrite drop_ge by lia. by rewrite app_nil_r.
Qed.

Lemma app_same {A} (l k : list A) : l = l ++ k → k = [].
Proof. intros E. rewrite <- (app_nil_r l) in E at 1. by apply app_inv_head in E. Qed.

(** The entries of parent and child after fork() *)
Lemma fork_lookup e' e2 k : length es = S i → (<[i := e']> es ++ [e2]) !! k =
  if decide (k = i) then Some e' else if decide (k = S i) then Some e2 else es !! k.
Proof.
  intros Hl. destruct (decide (k = S i)) as [->|Hne].
  - rewrite decide_False by lia. rewrite lookup_app_r by (rewrite length_insert; lia). by rewrite length_insert, Hl, Nat.sub_diag.
  - destruct (decide (k = i)) as [->|Hne2]; [rewrite lookup_app_l by (rewrite length_insert; lia); apply list_lookup_insert_eq; lia|].
    destruct (decide (k < i)%nat); [rewrite lookup_app_l by (rewrite length_insert; lia); by apply list_lookup_insert_ne|].
    rewrite !lookup_ge_None_2; [done|lia|rewrite length_app, length_insert; cbn; lia].
Qed.

Lemma move_fork kk m p m' p' o' :
  c_code (e_c e) = PCall Ufork kk → c_forked (e_c e) = false → c_piped (e_c e) = true →
  will i (has_forked (goes kk (Z.pos (pid_of (S i))) [] (e_c e))) (e_o e) m p → will (S i) (child (e_c e) kk (e_o e)) o' m' p' →
  e_n e = S (m + m') → e_p e = p ++ p' → moves.
Proof.
  intros Hc Hfk Hpd Hw Hw' Hn Hp. set (c' := has_forked _) in *. set (c2 := child _ _ _) in *. set (e' := mkE c' (e_o e) m p). set (e2 := mkE c2 o' m' p').
  assert (Hlen : length es = S i).
  { apply Nat.le_antisymm; [|apply lookup_lt_Some in He; lia]. apply lookup_ge_None_1. destruct (es !! S i) eqn:E; [|done].
    pose proof (proj2 (ci_forked _ _ _ _ HI i e He)) as Hk. rewrite E, Hfk in Hk. discriminate Hk. by eexists. }
  pose proof (fork_lookup e' e2) as Hlk. pose proof HI as [Hp0 Hw0 Hf0 Hpd0 Hq0 Ho0 Hn0 Ha0]. pose proof (chain_pos _ Hn) as Hpos.
  assert (Hlp : length (w_procs w) = S i) by (by rewrite Hp0, length_fmap).
  pose proof (will_good _ _ _ _ _ (Hw0 i e He)) as (_ & Hsent & _). specialize (Hsent Hfk).
  eexists. exists (<[i := e']> es ++ [e2]). split.
  { unfold step_at. rewrite proc_at, Hc. cbn [do_call]. unfold do_fork. rewrite Hlp. reflexivity. }
  cbn [w_procs w_pipes w_out answer set_proc]. split; cbn [w_procs w_pipes w_out].
  - by rewrite Hp0, fmap_app, list_fmap_insert.
  - intros k x. rewrite Hlk by done. destruct (decide (k = i)) as [->|]; [by intros [= <-]|]. destruct (decide (k = S i)) as [->|]; [by intros [= <-]|apply Hw0].
  - intros k x. rewrite !Hlk by done. destruct (decide (k = i)) as [->|].
    + intros [= <-]. rewrite decide_False, decide_True by lia. by split; [eexists|].
    + destruct (decide (k = S i)) as [->|].
      * intros [= <-]. rewrite !decide_False by lia. rewrite lookup_ge_None_2 by lia. by split; [|intros [? ?]].
      * intros Hx. rewrite (Hf0 k x Hx). destruct (decide (S k = i)) as [E|].
        -- rewrite E, He. by split; eexists.
        -- by rewrite decide_False by lia.
  - intros k. rewrite Hlk, Hpd0 by done. destruct (decide (k = i)) as [->|].
    + rewrite He. by split; intros (x & [= <-] & Hx); eexists.
    + destruct (decide (k = S i)) as [->|]; [|done]. rewrite lookup_ge_None_2 by lia. split; [by intros (? & ? & _)|by intros (x & [= <-] & ?)].
  - intros k q x Hq. rewrite !Hlk by done. destruct (decide (k = i)) as [->|].
    + intros [= <-]. rewrite decide_False, decide_True by lia. pose proof (Hq0 i q e Hq He) as Hh. rewrite lookup_ge_None_2 in Hh by lia. cbn in Hh. subst q.
      exists []. cbn. by rewrite Hsent.
    + destruct (decide (k = S i)) as [->|].
      * intros _. exfalso. destruct (proj1 (Hpd0 (S i))) as (y & Hy & _); [by eexists|]. apply lookup_lt_Some in Hy. lia.
      * intros Hx. pose proof (Hq0 k q x Hq Hx) as Hh. destruct (decide (S k = i)) as [E|]; [rewrite E, He in Hh; exact Hh|]. by rewrite decide_False by lia.
  - rewrite Ho0, fmap_app, concat_app, list_fmap_insert, concat_insert; [by rewrite app_nil_r|]. by rewrite list_lookup_fmap, He.
  - rewrite fmap_app, list_fmap_insert, sum_list_with_app. pose proof (sum_list_insert (e_n <$> es) i (e_n e) m) as Hs. rewrite list_lookup_fmap, He in Hs. specialize (Hs eq_refl).
    cbn. lia.
  - rewrite fmap_app, list_fmap_insert, concat_app, <- Ha0. cbn [fmap list_fmap concat].
    rewrite (concat_last _ i) by (by rewrite length_fmap). rewrite <- (list_insert_id ((λ e, c_prt (e_c e) ++ e_p e) <$> es) i (c_prt (e_c e) ++ e_p e)) at 2 by (by rewrite list_lookup_fmap, He).
    rewrite (concat_last _ i) by (by rewrite length_fmap). cbn. rewrite Hp, app_nil_r. by rewrite !app_assoc.
Qed.

(** Process [i] can move, or it waits for its parent. *)
Lemma chain_step_at : e_n e ≠ 0%nat → moves ∨ (step_at i w = None ∧ ∃ j e0, i = S j ∧ es !! j = Some e0 ∧ e_n e0 ≠ 0%nat).
Proof.
  intros Hn. pose proof (ci_will _ _ _ _ HI i e He) as Hw. inversion Hw as [k c Hc Hg Ek Ec Eo En Ep|k c c' o m p bs Hg El Hf Hb Hw' Ek Ec Eo En Ep|k c c' kk o o' m m' p p' Hg El Hc Hw1 Hw2 Ek Ec Eo En Ep]; subst.
  { by rewrite <- En in Hn. }
  - unfold lnext in El. destruct (c_code (e_c e)) as [a|c kk|T B f s kk|st] eqn:Hcode; [done| |injection El as <-|injection El as <-].
    2,3: left; eapply move_quiet; [exact Hw'|done|done|exact Hb|done..|]; unfold step_at; by rewrite proc_at, Hcode.
    unfold lcall in El. destruct c as [fd sz|fd bs0|path mode|fd|fd|fd| | | |path argv|path|sz| | | | | |]; try done.
    + destruct (fd_of (c_fds (e_c e)) fd) as [[|j|j]|] eqn:Efd; try done. destruct (decide _) as [(Hj & -> & H4)|]; [|done]. injection El as <-.
      apply app_same in Hb as ->. destruct (move_read fd kk j m p) as [|(Hst & e0 & E0 & Hn0)]; try done; [by left|]. right. split; [done|]. by exists j, e0.
    + left. destruct (fd_of (c_fds (e_c e)) fd) as [[|j|j]|] eqn:Efd; try done; destruct (decide _) as [Hd|]; try done; injection El as <-.
      * destruct Hd as (Hs & Hfr). apply app_inv_head in Hb as <-. by eapply (move_print fd bs0 kk m p).
      * destruct Hd as (-> & Hl & Hfk). apply app_same in Hb as ->. by eapply (move_write fd bs0 kk m p).
    + left. destruct (fd_of (c_fds (e_c e)) fd) as [d|] eqn:Efd; [|done]. injection El as <-.
      eapply move_quiet; [exact Hw'|done|done|exact Hb|done..|]. unfold step_at. rewrite proc_at, Hcode. cbn [do_call]. by rewrite Efd.
    + left. destruct (pipe_fds i (c_fds (e_c e))) as [[[r x] fds]|] eqn:Efd; [|done]. destruct (decide _) as [(Hpd & Hfr)|]; [|done]. injection El as <-.
      apply app_same in Hb as ->. by eapply (move_pipe kk r x fds m p).
    + by destruct (Hf kk).
    + left. injection El as <-. eapply move_quiet; [exact Hw'|done|done|exact Hb|done..|]. unfold step_at. by rewrite proc_at, Hcode.
  - left. unfold lnext in El. rewrite Hc in El. cbn [lcall] in El. destruct (decide _) as [(Hfk & Hpd)|]; [|done]. injection El as <-.
    by eapply (move_fork kk m p m' p' o').
Qed.
End cases.

(** ** Runs of a chain *)
(** Every step leads to a world of the chain with one step less to go. *)
Lemma chain_step w w' es n out : chain_inv w es n out → wstep w w' → ∃ es', n = S (pred n) ∧ chain_inv w' es' (pred n) out.
Proof.
  intros HI [i Hst]. destruct (es !! i) as [e|] eqn:He.
  - assert (Hn : e_n e ≠ 0%nat).
    { intros Hn. pose proof (ci_will _ _ _ _ HI i e He) as Hw. inversion Hw as [k c Hc| |]; subst; [|congruence..].
      unfold step_at in Hst. rewrite (proc_at w es n out i e HI He), Hc in Hst. done. }
    destruct (e_n e) as [|m] eqn:En; [done|]. pose proof (chain_pos _ _ _ _ _ _ HI He m En) as Hpos.
    destruct (chain_step_at w es n out i e HI He) as [(w1 & es1 & E1 & HI1)|[E _]]; [by rewrite En| |congruence]. exists es1. split; [done|]. congruence.
  - unfold step_at in Hst. rewrite (ci_procs _ _ _ _ HI), list_lookup_fmap, He in Hst. done.
Qed.

Lemma sum_list_0 (l : list nat) : sum_list l = 0%nat → ∀ k x, l !! k = Some x → x = 0%nat.
Proof. induction l as [|y l IH]; intros Hs [|k] x Hx; simplify_eq/=; [lia|]. eapply IH; [lia|done]. Qed.

Lemma first_active (es : list ent) : sum_list (e_n <$> es) ≠ 0%nat →
  ∃ i e, es !! i = Some e ∧ e_n e ≠ 0%nat ∧ ∀ j e0, (j < i)%nat → es !! j = Some e0 → e_n e0 = 0%nat.
Proof.
  induction es as [|e es IH]; intros Hs; [done|]. destruct (decide (e_n e = 0%nat)) as [E|E].
  - destruct IH as (i & e1 & H1 & H2 & H3); [cbn in Hs; lia|]. exists (S i), e1. split_and!; [done|done|].
    intros [|j] e0 Hj H0; [by injection H0 as <-|]. apply (H3 j e0); [lia|done].
  - exists 0%nat, e. split_and!; [done|done|]. intros j e0 Hj. lia.
Qed.

(** With steps to go, some process can move. *)
Lemma chain_progress w es n out : chain_inv w es n out → n ≠ 0%nat → ∃ w', wstep w w'.
Proof.
  intros HI Hn. destruct (first_active es) as (i & e & He & Hne & Hb); [by rewrite (ci_n _ _ _ _ HI)|].
  destruct (chain_step_at w es n out i e HI He Hne) as [(w1 & _ & E1 & _)|(_ & j & e0 & -> & E0 & Hn0)]; [by exists w1, i|].
  exfalso. apply Hn0. by apply (Hb j); [lia|].
Qed.

(** With none to go, all have exited and all is printed. *)
Lemma chain_end w es out : chain_inv w es 0 out → w_out w = out ∧ Forall (λ p, exited p = true) (w_procs w).
Proof.
  intros HI. pose proof HI as [Hp Hw _ _ _ Ho Hn Ha]. assert (Hz : ∀ k e, es !! k = Some e → c_code (e_c e) = PRet () ∧ e_p e = []).
  { intros k e He. assert (E : e_n e = 0%nat) by (apply (sum_list_0 _ Hn k); by rewrite list_lookup_fmap, He).
    pose proof (Hw k e He) as Hwe. rewrite E in Hwe. inversion Hwe; subst; [by split|congruence..]. }
  split.
  - rewrite Ho, <- Ha. f_equal. apply list_eq. intros k. rewrite !list_lookup_fmap. destruct (es !! k) as [e|] eqn:E; [|done]. cbn.
    destruct (Hz k e E) as [_ ->]. by rewrite app_nil_r.
  - rewrite Hp. apply Forall_fmap, Forall_lookup_2. intros k e He. unfold compose, exited, proc_of. cbn. by destruct (Hz k e He) as [-> _].
Qed.

(** What is printed stays printed. *)
Lemma step_prints w w' : wstep w w' → w_out w `prefix_of` w_out w'.
Proof.
  intros [i Hst]. unfold step_at, do_call, do_read, do_write, do_pipe, do_fork in Hst. repeat (case_match; simplify_eq/=; try done). by eexists.
Qed.

(** Every run of a chain: it never gets stuck, takes the same number of steps, and prints the same. *)
Lemma chain_runs w es n out : chain_inv w es n out →
  ∀ w' m, nsteps wstep m w w' → (m ≤ n)%nat ∧ w_out w' `prefix_of` out ∧
    ((∃ w'', wstep w' w'') ∨ (m = n ∧ w_out w' = out ∧ Forall (λ p, exited p = true) (w_procs w'))).
Proof.
  intros HI w' m Hm. revert es n HI. induction Hm as [w|m w w1 w' Hst Hm IH]; intros es n HI.
  - assert (Hpre : ∀ k w es, chain_inv w es k out → w_out w `prefix_of` out).
    { induction k as [|k IHk]; intros v vs Hv; [by destruct (chain_end _ _ _ Hv) as [-> _]|].
      destruct (chain_progress _ _ _ _ Hv ltac:(lia)) as [v' Hv']. destruct (chain_step _ _ _ _ _ Hv Hv') as (vs' & _ & HI'). etrans; [by apply step_prints|by eapply IHk]. }
    split_and!; [lia|by eapply Hpre|]. destruct (decide (n = 0%nat)) as [->|]; [right|left; by eapply chain_progress].
    split; [done|]. by eapply chain_end.
  - destruct (chain_step _ _ _ _ _ HI Hst) as (es' & Hpos & HI'). destruct (IH es' (pred n) HI') as (H1 & H2 & H3). split_and!; [lia|done|].
    destruct H3 as [H3|(-> & H4)]; [by left|]. right. split; [lia|done].
Qed.

(** The world with one process *)
Definition lone (p : prog unit) (fds : list (option desc)) : conf := mkConf p fds [] [] [] false false false.

Lemma chain_start p fds fuel n out o :
  check fuel 0 (lone p fds) o = Some (n, out) → chain_inv (mkW [mkU p fds] [] []) [mkE (lone p fds) o n out] n out.
Proof.
  intros E. apply check_will in E. split.
  - done.
  - intros [|k] e He; [|done]. by injection He as <-.
  - intros [|k] e He; [|done]. injection He as <-. split; [done|by intros [? ?]].
  - intros k. split; [by intros [? ?]|]. by intros (e & He & Hp); destruct k; [injection He as <-|].
  - done.
  - done.
  - cbn. lia.
  - cbn. by rewrite app_nil_r.
Qed.

(** ** What was printed before does not matter. *)
Definition after_out (h : list Z) (w : world) : world := mkW (w_procs w) (w_pipes w) (h ++ w_out w).

Lemma step_after i h w : step_at i (after_out h w) = after_out h <$> step_at i w.
Proof.
  unfold step_at, do_call, do_read, do_write, do_pipe, do_fork. cbn [w_procs w_pipes w_out after_out].
  change (is_open ?d (after_out h w)) with (is_open d w).
  repeat (case_match; simplify_eq/=; try done). unfold after_out. cbn. by rewrite app_assoc.
Qed.

Lemma nsteps_after h m w w' : nsteps wstep m (after_out h w) w' → ∃ w1, w' = after_out h w1 ∧ nsteps wstep m w w1.
Proof.
  revert w. induction m as [|m IH]; intros w Hm; [inversion Hm; subst; exists w; split; [done|constructor]|].
  inversion Hm as [|? ? w2 ? [i Hst] Hm']; subst. rewrite step_after in Hst. destruct (step_at i w) as [w3|] eqn:E; [|done]. injection Hst as <-.
  destruct (IH w3 Hm') as (w1 & -> & H1). exists w1. split; [done|]. econstructor; [by exists i|done].
Qed.

(** A process alone that prints [l] *)
Lemma lone_prints l fds rest out0 m w :
  fd_of fds 1 = Some DConsole → nsteps wstep m (mkW [mkU (for_each l (putc_ 1);; rest) fds] [] out0) w →
  (∃ k, m = k ∧ (k < length l)%nat ∧ w = mkW [mkU (for_each (drop k l) (putc_ 1);; rest) fds] [] (out0 ++ take k l)) ∨
  ∃ k, m = (length l + k)%nat ∧ nsteps wstep k (mkW [mkU rest fds] [] (out0 ++ l)) w.
Proof.
  intros Hfd. revert out0 m. induction l as [|c l IH]; intros out0 m Hm.
  - right. exists m. split; [done|]. by rewrite app_nil_r.
  - destruct m as [|m].
    + left. exists 0%nat. inversion Hm; subst. rewrite app_nil_r. split_and!; [done|cbn; lia|done].
    + inversion Hm as [|? ? w2 ? [i Hst] Hm']; subst. destruct i as [|i]; [|done]. unfold step_at in Hst. cbn in Hst. unfold do_write in Hst. rewrite Hfd in Hst. injection Hst as <-.
      cbn in Hm'. destruct (IH (out0 ++ [c]) m Hm') as [(k & -> & Hk & ->)|(k & -> & Hk)].
      * left. exists (S k). split_and!; [done|cbn; lia|]. cbn [drop take]. by rewrite <- app_assoc.
      * right. exists k. split; [done|]. by rewrite <- app_assoc in Hk.
Qed.

(** A chain worked out from its first process *)
Definition forecast (fuel : nat) (p : prog unit) : option (nat * list Z) :=
  match final_sent fuel 0 (lone p std_fds) with
  | Some o => check fuel 0 (lone p std_fds) o
  | None => None
  end.

Lemma forecast_inv fuel p out : snd <$> forecast fuel p = Some out → ∃ es n, chain_inv (start p) es n out.
Proof.
  unfold forecast. intros E. destruct (final_sent _ _ _) as [o|]; [|done]. destruct (check _ _ _ o) as [[n out']|] eqn:Ec; [|done]. injection E as ->.
  eexists. exists n. by eapply chain_start.
Qed.
End chain.
