(* ===== verification/Primes.v ===== *)
(** primes.c: a sieve of processes connected by pipes. *)
From Stdlib Require Import Znumtheory.
From S2P Require Import Prelude Machine Printf Uprintf Pipe User Pool Chain.

Definition Pipe_Read_Id : nat := 0.
Definition Pipe_Write_Id : nat := 1.

(** [uninit] is what a local variable or array holds before it is written. *)
Section primes.
Context (uninit : Z).
Definition pipe_end (p : list Z) (n : nat) : Z := nth n p uninit.

Definition block_close (fd : Z) : prog unit :=
  iter (λ _, r ← close fd; mret (if r =? -1 then inl () else inr ())) ().

Definition read_int (fd old : Z) : prog Z := r ← read fd 4; mret (stored_int old (snd r)).

(** The loop at __read *)
Definition read_loop (fd w elem tag elem2 : Z) : prog unit :=
  iter (λ elem2,
    sleep_ 1;;
    elem2 ← read_int fd elem2;
    if elem2 =? -1 then
      write w (int_bytes elem2);;
      block_close fd;;
      block_close w;;
      sleep_ tag;;
      mret (inr ())
    else
      (if negb (Z.rem elem2 elem =? 0) then write w (int_bytes elem2);; mret () else mret ());;
      mret (inl elem2)) elem2.

(** while(1){ r = pipe(p) ... } *)
Definition pipe_loop : prog (list Z) :=
  iter (λ _,
    r ← pipe_;
    if fst r =? 0 then mret (inr (snd r))
    else fprintf 1 (str "failed to create" ++ [10]) [];; sleep_ 10;; mret (inl ())) ().

(** concurrent_prime_recur(); in the child it calls itself, as the last thing it does. *)
Definition concurrent_prime_recur (pip_read_fd tag : Z) : prog unit :=
  iter (λ '(pip_read_fd, tag),
    elem ← read_int pip_read_fd uninit;
    if elem =? -1 then sleep_ tag;; block_close pip_read_fd;; mret (inr ())
    else
      fprintf 1 (str "prime %d" ++ [10]) [AInt elem];;
      sleep_ 1;;
      elem2 ← read_int pip_read_fd uninit;
      if elem2 =? -1 then sleep_ tag;; block_close pip_read_fd;; mret (inr ())
      else
        p ← pipe_loop;
        a ← fork_;
        if a =? 0 then
          block_close (pipe_end p Pipe_Write_Id);;
          mret (inl (pipe_end p Pipe_Read_Id, tag + 1))
        else
          block_close (pipe_end p Pipe_Read_Id);;
          write (pipe_end p Pipe_Write_Id) (int_bytes elem2);;
          read_loop pip_read_fd (pipe_end p Pipe_Write_Id) elem tag elem2;;
          mret (inr ())) (pip_read_fd, tag).

Definition concurrent_prime (num : Z) : prog unit :=
  r ← pipe_;
  let p := snd r in
  a ← fork_;
  if a =? 0 then
    block_close (pipe_end p Pipe_Write_Id);;
    concurrent_prime_recur (pipe_end p Pipe_Read_Id) 1
  else
    block_close (pipe_end p Pipe_Read_Id);;
    fprintf 1 (str "prime %d" ++ [10]) [AInt 2];;
    for_each (seqZ 3 (num - 2)) (λ i,
      (if negb (Z.rem i 2 =? 0) then write (pipe_end p Pipe_Write_Id) (int_bytes i);; mret () else mret ());;
      sleep_ 1;; mret ());;
    write (pipe_end p Pipe_Write_Id) (int_bytes (-1));;
    block_close (pipe_end p Pipe_Write_Id).

(** main() with the number that atoi() has found in argv[1], if there is one *)
Definition primes_main (arg : option Z) : prog unit :=
  match arg with
  | Some num =>
    fprintf 1 (str "num is %d" ++ [10]) [AInt num];;
    (if negb (num =? -1) then concurrent_prime (if 35 <? num then 35 else num) else mret ());;
    exit_ 0
  | None => exit_ 0
  end.
End primes.

(** ** What is printed *)
Definition primeb (n : Z) : bool := (1 <? n) && forallb (λ d, negb (n mod d =? 0)) (seqZ 2 (n - 2)).
Definition prime_lines (n : Z) : list Z :=
  concat (map (λ p, formatted (str "prime %d" ++ [10]) [AInt p]) (filter (λ p, Is_true (primeb p)) (seqZ 2 (n - 1)))).
Definition expected (num : Z) : list Z :=
  formatted (str "num is %d" ++ [10]) [AInt num] ++ (if num =? -1 then [] else prime_lines (Z.max 2 (Z.min num 35))).

Lemma primeb_spec n : primeb n = true ↔ Z.prime n.
Proof.
  unfold primeb, Z.prime. rewrite andb_true_iff, Z.ltb_lt, forallb_forall. split.
  - intros [H1 Hd]. split; [done|]. intros d Hr Hdiv. specialize (Hd d). rewrite <- list_elem_of_In, elem_of_seqZ in Hd.
    specialize (Hd ltac:(lia)). apply Z.mod_divide in Hdiv; [|lia]. by rewrite Hdiv in Hd.
  - intros [H1 Hd]. split; [done|]. intros d Hin. apply list_elem_of_In, elem_of_seqZ in Hin. apply negb_true_iff, Z.eqb_neq.
    intros E. apply (Hd d); [lia|]. apply Z.mod_divide; lia.
Qed.

(** The processes worked out one after the other *)
Definition sieve (u n : Z) : prog unit := concurrent_prime u n;; exit_ 0.
Section primes.
Context `{Pids}.
Lemma forecast_all u : forallb (λ n, bool_decide (snd <$> forecast 1000 (sieve u n) = Some (prime_lines n))) (seqZ 2 34) = true.
Proof. vm_compute. reflexivity. Qed.

Lemma sieve_small u n : n ≤ 2 → sieve u n = sieve u 2.
Proof. intros Hn. unfold sieve, concurrent_prime. by rewrite seqZ_nil by lia. Qed.

(** The chain of the sieve *)
Lemma sieve_chain u n : n ≤ 35 → ∃ es k, chain_inv (start (sieve u n)) es k (prime_lines (Z.max 2 n)).
Proof.
  intros Hn. assert (Hs : ∃ k, 2 ≤ k ≤ 35 ∧ sieve u n = sieve u k ∧ Z.max 2 n = k).
  { destruct (Z.le_gt_cases n 2); [exists 2; rewrite sieve_small by done; split_and!; [lia..|done|lia]|exists n; split_and!; [lia..|done|lia]]. }
  destruct Hs as (k & Hk & -> & ->). pose proof (forecast_all u) as Hf. rewrite forallb_forall in Hf.
  specialize (Hf k ltac:(apply list_elem_of_In, elem_of_seqZ; lia)). apply bool_decide_eq_true in Hf. exact (forecast_inv _ _ _ Hf).
Qed.

(** C10: primes prints the primes. Whatever the number given, and however the scheduler runs the processes of the sieve, with its pipes and forks:
    there is a bound on the number of steps, so that it ends; in no state is it stuck while a process has not exited; what it has printed so far is always the start of the line with
    the number, followed by the primes up to the number or 35 in order, each on its line (2 is printed in any case); when all processes have exited, just that is printed.
    No read() returns too little and no pipe is ever full. *)
Theorem primes_correct (u num : Z) :
  ∃ bound, ∀ m w, nsteps wstep m (start (primes_main u (Some num))) w →
    (m ≤ bound)%nat ∧ w_out w `prefix_of` expected num ∧
    ((∃ w', wstep w w') ∨ (w_out w = expected num ∧ Forall (λ p, exited p = true) (w_procs w))).
Proof.
  set (h := formatted (str "num is %d" ++ [10]) [AInt num]).
  set (rest := ((if negb (num =? -1) then concurrent_prime u (if 35 <? num then 35 else num) else mret ());; exit_ 0) : prog unit).
  assert (Hrest : ∃ es k, chain_inv (start rest) es k (if num =? -1 then [] else prime_lines (Z.max 2 (Z.min num 35)))).
  { unfold rest. destruct (num =? -1); cbn [negb].
    - by apply (forecast_inv 3).
    - replace (Z.min num 35) with (if 35 <? num then 35 else num) by (destruct (Z.ltb_spec 35 num); lia).
      apply sieve_chain. destruct (Z.ltb_spec 35 num); lia. }
  destruct Hrest as (es & k & HI). exists (length h + k)%nat. intros m w Hm.
  destruct (lone_prints h std_fds rest [] m w eq_refl Hm) as [(j & -> & Hj & ->)|(j & -> & Hj)].
  - split_and!; [lia| |left; exists (mkW [mkU (for_each (drop (S j) h) (putc_ 1);; rest) std_fds] [] (take (S j) h)), 0%nat].
    + cbn [w_out app]. unfold expected. fold h. exists (drop j h ++ (if num =? -1 then [] else prime_lines (Z.max 2 (Z.min num 35)))). by rewrite app_assoc, take_drop.
    + destruct (lookup_lt_is_Some_2 h j Hj) as [c Hc]. erewrite drop_S, take_S_r by done. done.
  - change (mkW [mkU rest std_fds] [] ([] ++ h)) with (mkW (w_procs (start rest)) (w_pipes (start rest)) h) in Hj.
    replace (mkW _ _ h) with (after_out h (start rest)) in Hj by (unfold after_out; cbn; by rewrite app_nil_r).
    destruct (nsteps_after h j _ _ Hj) as (w1 & -> & Hj1). destruct (chain_runs _ _ _ _ HI w1 j Hj1) as (H1 & H2 & H3). split_and!; [lia| |].
    + cbn [w_out after_out]. unfold expected. fold h. by apply prefix_app.
    + destruct H3 as [[w2 [i Hi]]|(-> & H4 & H5)]; [left; exists (after_out h w2), i; by rewrite step_after, Hi|]. right.
      split; [|exact H5]. cbn [w_out after_out]. by rewrite H4.
Qed.
End primes.
