(* ===== verification/Xargs.v ===== *)
(** xargs.c: runs a command with the words of its input as further arguments.

    Memory is byte memory; [buff] is what malloc() returns for the buffer of 512 bytes, which goes back to the allocator at the end: the allocator is Umalloc.v's subject.  Strings are read from memory when exec() is called, at most a page of each. *)
From S2P Require Import Prelude Machine CString Printf Uprintf User.

(** ** Cmd *)
Definition Cmd_max_arg_cnt : Z := 10.
Record Cmd := mkCmd { args : list Z; arg_cnt : Z }.
Definition set_arg (cmd : Cmd) (p : Z) : Cmd := mkCmd (<[Z.to_nat (arg_cnt cmd) := p]> (args cmd)) (arg_cnt cmd).

(** The loop of Cmd_make() and Cmd_append_make(), over an array of pointers *)
Fixpoint Cmd_fill (cmd : Cmd) (append : list Z) : Cmd :=
  match append with
  | [] => cmd
  | p :: append =>
    if (arg_cnt cmd <? Cmd_max_arg_cnt) && negb (p =? 0) then Cmd_fill (mkCmd (args (set_arg cmd p)) (u8 (arg_cnt cmd + 1))) append
    else cmd
  end.
Definition Cmd_append_make (cmd : Cmd) (append : list Z) : Cmd := set_arg (Cmd_fill cmd append) 0.
Definition Cmd_make (argv : list Z) : Cmd := Cmd_append_make (mkCmd (replicate 11 0) 0) argv.
Definition Cmd_append_one_make (cmd : Cmd) (append : Z) : Cmd := Cmd_append_make cmd [append; 0].

(** exec(): the pointers up to the NULL *)
Fixpoint upto_null (l : list Z) : list Z := match l with [] => [] | p :: l => if p =? 0 then [] else p :: upto_null l end.

Definition Cmd_exec_in_child_process (m : mem) (cmd : Cmd) : prog Z :=
  if nth 0 (args cmd) 0 =? 0 then
    fprintf 1 (str "invalid cmd" ++ [10]) [];;
    mret 0
  else
    pid ← fork_;
    if pid =? 0 then
      exec_ (arg_string m (nth 0 (args cmd) 0)) (arg_string m <$> upto_null (args cmd));;
      exit_ 0
    else
      wait_;;
      mret 1.

(** ** xargs() *)
Definition Mode_OneShot : Z := 0.
Definition Mode_EachLine : Z := 1.
Definition is_sep (c : Z) : bool := (c =? 10) || (c =? 42) || (c =? 32).

Record xst := mkX { x_m : mem; vc_i : Z; begin : Z; x_cmd : Cmd; cmd1 : Cmd }.

Section xargs.
Context (buff : Z).

(** A separator *)
Definition xargs_word (mode c : Z) (s : xst) : prog xst :=
  let m := upd (x_m s) (buff + vc_i s) 0 in
  let i := vc_i s + 1 in
  if mode =? Mode_EachLine then
    if (c =? 10) || (c =? 42) then
      let cmd1 := Cmd_append_one_make (cmd1 s) (buff + begin s) in
      Cmd_exec_in_child_process m cmd1;;
      mret (mkX m i i (x_cmd s) (x_cmd s))
    else if 1 <? i - begin s then mret (mkX m i i (x_cmd s) (Cmd_append_one_make (cmd1 s) (buff + begin s)))
    else mret (mkX m i i (x_cmd s) (cmd1 s))
  else if mode =? Mode_OneShot then mret (mkX m i i (Cmd_append_one_make (x_cmd s) (buff + begin s)) (cmd1 s))
  else mret (mkX m i i (x_cmd s) (cmd1 s)).

(** while((n = read(fd, &buf, sizeof(char))) > 0): what n is in the end *)
Definition xargs_loop (mode fd : Z) (s : xst) : prog (Z * xst) :=
  iter (λ s,
    r ← read fd 1;
    let c := nth 0 (snd r) 0 in
    if 0 <? fst r then
      if is_sep c then s ← xargs_word mode c s; mret (inl s)
      else mret (inl (mkX (upd (x_m s) (buff + vc_i s) c) (vc_i s + 1) (begin s) (x_cmd s) (cmd1 s)))
    else mret (inr (fst r, s))) s.

(** The memory when it is done; what Vec_char_free() does to the allocator's headers in front of the buffer is left out. *)
Definition xargs (m : mem) (cmd : Cmd) (mode fd : Z) : prog mem :=
  r ← xargs_loop mode fd (mkX m 0 0 cmd cmd);
  let s := snd r in
  if fst r <? 0 then
    fprintf 1 (str "wc: read error" ++ [10]) [];;
    exit_ 1
  else if mode =? Mode_OneShot then Cmd_exec_in_child_process (x_m s) (x_cmd s);; mret (x_m s)
  else mret (x_m s).

Definition xargs_main (m : mem) (argv : list Z) : prog unit :=
  xargs m (Cmd_make (tail argv)) Mode_OneShot 0;;
  exit_ 0.
End xargs.

(** ** What it does *)
(** The words of the input: every separator ends one, which may be empty; what follows the last separator is no word. *)
Fixpoint words_of (cur inp : list Z) : list (list Z) :=
  match inp with
  | [] => []
  | c :: inp => if is_sep c then cur :: words_of [] inp else words_of (cur ++ [c]) inp
  end.
(** "a b*" then "c" *)
Example words3 : words_of [] [97; 32; 98; 42; 99] = [[97]; [98]].
Proof. reflexivity. Qed.

(** *** Cmd as the list of its arguments *)
Definition pack (l : list Z) : Cmd := mkCmd (l ++ replicate (11 - length l) 0) (Z.of_nat (length l)).

Lemma set_arg_pack l p : (length l ≤ 10)%nat → args (set_arg (pack l) p) = (l ++ [p]) ++ replicate (10 - length l) 0.
Proof.
  intros Hl. unfold set_arg, pack. cbn [args arg_cnt]. rewrite Nat2Z.id, insert_app_r_alt, Nat.sub_diag by lia.
  replace (11 - length l)%nat with (S (10 - length l)) by lia. cbn. by rewrite <- app_assoc.
Qed.

Lemma Cmd_fill_pack l ps : (length l ≤ 10)%nat → Forall (λ p, p ≠ 0) ps →
  Cmd_fill (pack l) ps = pack (take 10 (l ++ ps)) ∧ Cmd_fill (pack l) (ps ++ [0]) = pack (take 10 (l ++ ps)).
Proof.
  revert l. induction ps as [|p ps IH]; intros l Hl Hps.
  - rewrite app_nil_r, take_ge by lia. cbn. split; [done|]. by rewrite andb_false_r.
  - apply Forall_cons in Hps as [Hp Hps]. cbn [Cmd_fill app]. change (arg_cnt (pack l)) with (Z.of_nat (length l)). unfold Cmd_max_arg_cnt.
    destruct (Z.ltb_spec (Z.of_nat (length l)) 10) as [Hlt|Hge]; cbn [andb].
    + destruct (Z.eqb_spec p 0) as [|_]; [done|]. cbn [negb].
      replace (mkCmd _ _) with (pack (l ++ [p])); [replace (l ++ p :: ps) with ((l ++ [p]) ++ ps) by (by rewrite <- app_assoc); apply IH; [rewrite length_app; cbn; lia|done]|].
      unfold pack at 1. rewrite set_arg_pack by lia. rewrite length_app. cbn [length]. f_equal; [f_equal; f_equal; lia|].
      unfold u8. rewrite Z.mod_small by lia. lia.
    + assert (length l = 10%nat) as E by lia. rewrite take_app_le, take_ge by lia. done.
Qed.

Lemma Cmd_append_pack l ps : (length l ≤ 10)%nat → Forall (λ p, p ≠ 0) ps →
  Cmd_append_make (pack l) ps = pack (take 10 (l ++ ps)) ∧ Cmd_append_make (pack l) (ps ++ [0]) = pack (take 10 (l ++ ps)).
Proof.
  intros Hl Hps. destruct (Cmd_fill_pack l ps Hl Hps) as [H1 H2]. unfold Cmd_append_make. rewrite H1, H2. set (k := take 10 _).
  assert (Hk : (length k ≤ 10)%nat) by (unfold k; rewrite length_take; lia).
  assert (E : set_arg (pack k) 0 = pack k); [|by rewrite E].
  transitivity (mkCmd (args (set_arg (pack k) 0)) (arg_cnt (pack k))); [done|]. rewrite set_arg_pack by done. unfold pack. f_equal.
  rewrite <- app_assoc. f_equal. replace (11 - length k)%nat with (S (10 - length k)) by lia. done.
Qed.

Lemma upto_null_pack l : Forall (λ p, p ≠ 0) l → (length l ≤ 10)%nat → upto_null (args (pack l)) = l.
Proof.
  intros Hl Hn. unfold pack. cbn [args]. replace (11 - length l)%nat with (S (10 - length l)) by lia. cbn [replicate]. generalize (replicate (10 - length l) 0).
  intros z. clear Hn. induction Hl as [|p l Hp _ IH]; [done|]. cbn [app upto_null]. destruct (Z.eqb_spec p 0); [done|]. by rewrite IH.
Qed.

(** *** Strings in memory *)
Lemma cstr_upd n m p len x v : cstring m p len → ¬ (p ≤ x ≤ p + len) → cstr n (upd m x v) p = cstr n m p ∧ cstring (upd m x v) p len.
Proof.
  intros (Hl & Hz & Hnz) Hx. split.
  - revert p len Hl Hz Hnz Hx. induction n as [|n IH]; intros p len Hl Hz Hnz Hx; [done|]. cbn [cstr]. rewrite upd_ne by lia.
    destruct (Z.eqb_spec (m p) 0) as [|Hp]; [done|]. f_equal. apply (IH (p + 1) (len - 1)); [|by replace (p + 1 + (len - 1)) with (p + len) by lia| |lia].
    + destruct (decide (len = 0)) as [->|]; [|lia]. by rewrite Z.add_0_r in Hz.
    + intros i Hi. replace (p + 1 + i) with (p + (i + 1)) by lia. apply Hnz. lia.
  - split_and!; [done| |].
    + by rewrite upd_ne by lia.
    + intros i Hi. rewrite upd_ne by lia. by apply Hnz.
Qed.

(** *** The loop *)
Section spec.
Context (buff : Z).
Hypothesis Hbuff : 0 < buff.

(** A string that the rest of the input, stored from [i] on, does not touch *)
Definition settled (m : mem) (i p : Z) : Prop := ∃ len, cstring m p len ∧ (p + len < buff + i ∨ buff + 512 ≤ p).

Lemma settled_upd m i p v : settled m i p → 0 ≤ i < 512 →
  settled (upd m (buff + i) v) (i + 1) p ∧ arg_string (upd m (buff + i) v) p = arg_string m p.
Proof.
  intros (len & Hs & Hd) Hi. destruct (cstr_upd (Z.to_nat PGSIZE) m p len (buff + i) v Hs) as [E Hs']; [destruct Hs; lia|]. split; [|exact E].
  exists len. split; [done|]. lia.
Qed.

(** The loop has stored [cur] from [begin] on, and the arguments [ps] stand for the strings [ws]. *)
Record at_word (s : xst) (cur : list Z) (ps : list Z) (ws : list (list Z)) : Prop := {
  aw_begin : 0 ≤ begin s ∧ vc_i s = begin s + Z.of_nat (length cur);
  aw_cur i c : cur !! i = Some c → x_m s (buff + begin s + Z.of_nat i) = c ∧ c ≠ 0;
  aw_args : x_cmd s = pack (take 10 ps);
  aw_ptrs : Forall (λ p, p ≠ 0) ps;
  aw_settled : Forall (settled (x_m s) (begin s)) ps;
  aw_words : arg_string (x_m s) <$> ps = ws
}.

Lemma settled_later m i j p : settled m i p → i ≤ j → settled m j p.
Proof. intros (len & Hs & Hd) Hj. exists len. split; [done|lia]. Qed.

Lemma arg_strings_upd m i ps v : Forall (settled m i) ps → 0 ≤ i < 512 → arg_string (upd m (buff + i) v) <$> ps = arg_string m <$> ps.
Proof. intros Hf Hi. induction Hf as [|p ps Hp _ IH]; [done|]. cbn. rewrite IH. f_equal. by apply settled_upd. Qed.

Lemma at_word_char s cur ps ws c :
  at_word s cur ps ws → c ≠ 0 → vc_i s < 512 →
  at_word (mkX (upd (x_m s) (buff + vc_i s) c) (vc_i s + 1) (begin s) (x_cmd s) (cmd1 s)) (cur ++ [c]) ps ws.
Proof.
  intros [[Hb Hi] Hc Ha Hp Hs Hw] Hnz Hlt. assert (Hs' : Forall (settled (x_m s) (vc_i s)) ps) by (eapply Forall_impl; [exact Hs|]; intros p Hp'; eapply settled_later; [done|lia]).
  split; cbn [x_m vc_i begin x_cmd]; [rewrite length_app; cbn; lia| |done|done| |].
  - intros i d Hd. destruct (decide (i = length cur)) as [->|Hne].
    + rewrite lookup_app_r, Nat.sub_diag in Hd by lia. injection Hd as <-. split; [|done]. replace (buff + begin s + Z.of_nat (length cur)) with (buff + vc_i s) by lia. apply upd_eq.
    + rewrite lookup_app_l in Hd by (apply lookup_lt_Some in Hd; rewrite length_app in Hd; cbn in Hd; lia). pose proof (lookup_lt_Some _ _ _ Hd).
      rewrite upd_ne by lia. by apply Hc.
  - rewrite Forall_forall in Hs |- *. intros p Hin. destruct (Hs p Hin) as (len & Hcs & Hd). exists len. split; [|lia].
    apply (cstr_upd 0); [done|]. destruct Hcs. lia.
  - rewrite arg_strings_upd by (done || lia). done.
Qed.

Lemma at_word_sep s cur ps ws c1 :
  at_word s cur ps ws → vc_i s < 512 →
  at_word (mkX (upd (x_m s) (buff + vc_i s) 0) (vc_i s + 1) (vc_i s + 1) (Cmd_append_one_make (x_cmd s) (buff + begin s)) c1)
    [] (ps ++ [buff + begin s]) (ws ++ [cur]).
Proof.
  intros [[Hb Hi] Hc Ha Hp Hs Hw] Hlt. assert (Hs' : Forall (settled (x_m s) (vc_i s)) ps) by (eapply Forall_impl; [exact Hs|]; intros p Hp'; eapply settled_later; [done|lia]).
  split; cbn [x_m vc_i begin x_cmd].
  - cbn. lia.
  - done.
  - rewrite Ha. unfold Cmd_append_one_make. change [buff + begin s; 0] with ([buff + begin s] ++ [0]).
    rewrite (proj2 (Cmd_append_pack (take 10 ps) [buff + begin s] ltac:(rewrite length_take; lia) ltac:(repeat constructor; lia))). f_equal.
    destruct (decide (length ps ≤ 10)%nat); [by rewrite (take_ge ps) by lia|]. rewrite take_app_le by (rewrite length_take; lia). by rewrite take_take, take_app_le by lia.
  - apply Forall_app. split; [done|]. repeat constructor. lia.
  - apply Forall_app. split.
    + rewrite Forall_forall in Hs' |- *. intros p Hin. apply (settled_upd _ _ _ 0 (Hs' p Hin)). lia.
    + repeat constructor. exists (Z.of_nat (length cur)). split; [|lia]. split_and!; [lia| |].
      * replace (buff + begin s + Z.of_nat (length cur)) with (buff + vc_i s) by lia. apply upd_eq.
      * intros i Hr. rewrite upd_ne by lia. destruct (lookup_lt_is_Some_2 cur (Z.to_nat i)) as [d Hd]; [lia|]. destruct (Hc _ _ Hd) as [E Hnz]. rewrite Z2Nat.id in E by lia. by rewrite E.
  - rewrite fmap_app, arg_strings_upd, Hw by (done || lia). f_equal. cbn. f_equal. unfold arg_string. apply cstr_bytes.
    + change (Z.to_nat PGSIZE) with 4096%nat. lia.
    + intros i d Hd. pose proof (lookup_lt_Some _ _ _ Hd). rewrite upd_ne by lia. by apply Hc.
    + replace (buff + begin s + Z.of_nat (length cur)) with (buff + vc_i s) by lia. apply upd_eq.
Qed.

Definition drained (fd : Z) (e : streams) : streams := mkStr (upd (s_in e) fd []) (s_out e) (s_ran e).

Lemma drained_take fd k e : drained fd (take_in fd k e) = drained fd e.
Proof. unfold drained, take_in. cbn. by rewrite upd_upd. Qed.

(** read() of one byte *)
Lemma runs_read1 {A} (Q : A → streams → Prop) X fd k e :
  (s_in e fd = [] → runs Q X (k (0, [])) e) → (∀ c l, s_in e fd = c :: l → runs Q X (k (1, [c])) (take_in fd 1 e)) →
  runs Q X (PCall (Uread fd 1) k) e.
Proof.
  intros H0 H1. destruct (s_in e fd) as [|c l] eqn:E.
  - apply runs_call; [eexists; eexists; by apply sa_eof|]. intros a e' Ha. inversion Ha; subst; [|by apply H0]. rewrite E in *. cbn in *. lia.
  - apply runs_call; [eexists; eexists; apply (sa_read fd 1 e 1); rewrite ?E; cbn; lia|]. intros a e' Ha. inversion Ha as [fd' n e0 j Hn Hj Hjn Hl| | |]; subst; [|congruence].
    assert (j = 1%nat) as -> by lia. rewrite E. by eapply H1.
Qed.

Lemma runs_words {A} (Q : A → streams → Prop) X fd inp s cur ps ws e k :
  at_word s cur ps ws → vc_i s + Z.of_nat (length inp) ≤ 512 → Forall (λ c, c ≠ 0) inp → s_in e fd = inp →
  (∀ s' cur' ps', at_word s' cur' ps' (ws ++ words_of cur inp) → runs Q X (k (0, s')) (drained fd e)) →
  runs Q X (prog_bind k (xargs_loop buff Mode_OneShot fd s)) e.
Proof.
  revert s cur ps ws e. induction inp as [|c inp IH]; intros s cur ps ws e Hs Hlen Hnz Hin HQ; unfold xargs_loop, iter; cbn [prog_bind]; apply runs_loop; cbn; apply runs_read1.
  - intros _. cbn. apply runs_ret. rewrite app_nil_r in HQ. specialize (HQ s cur ps Hs).
    replace (drained fd e) with e in HQ; [exact HQ|]. unfold drained. rewrite <- Hin, upd_id. by destruct e.
  - intros c l E. by rewrite Hin in E.
  - intros E. by rewrite Hin in E.
  - intros c' l E. rewrite Hin in E. injection E as <- <-. apply Forall_cons in Hnz as [Hc Hnz]. cbn [length] in Hlen. cbn [words_of] in HQ.
    assert (Hin' : s_in (take_in fd 1 e) fd = inp) by (cbn; rewrite upd_eq, Hin; done).
    rewrite <- (drained_take fd 1 e) in HQ. cbn. destruct (is_sep c).
    + cbn. apply runs_ret. eapply (IH _ [] (ps ++ [buff + begin s]) (ws ++ [cur])); [|cbn; lia|done|done|].
      * apply at_word_sep; [done|lia].
      * intros s' cur' ps'. rewrite <- app_assoc. apply HQ.
    + cbn. apply runs_ret. eapply (IH _ (cur ++ [c]) ps ws); [|cbn; lia|done|done|exact HQ].
      apply at_word_char; [done|done|lia].
Qed.
End spec.

(** The strings at the pointers of argv[1], ... *)
Definition given (m : mem) (argv : list Z) : list (list Z) := arg_string m <$> tail argv.

(** C19: xargs runs its command once with the words of the input. When the input is at most 512 bytes without NUL, and argv's strings lie outside the buffer,
    main() reads it to its end, forks, and the child runs the program with the arguments given to xargs followed by the words of the input,
    cut off after ten; xargs waits for it and exits with 0, having printed nothing. *)
Theorem xargs_correct (buff : Z) (m : mem) (argv inp : list Z) (e : streams) (prog0 : list Z) (rest : list (list Z)) :
  0 < buff → s_in e 0 = inp → Forall (λ c, c ≠ 0) inp → (length inp ≤ 512)%nat →
  Forall (λ p, p ≠ 0 ∧ ∃ len, cstring m p len ∧ (p + len < buff ∨ buff + 512 ≤ p)) (tail argv) →
  take 10 (given m argv ++ words_of [] inp) = prog0 :: rest →
  runs (λ _ _, False) (λ st e', st = 0 ∧ s_ran e' = s_ran e ++ [(prog0, prog0 :: rest)] ∧ s_out e' = s_out e ∧ s_in e' 0 = [])
    (xargs_main buff m argv) e.
Proof.
  intros Hbuff Hin Hnz Hlen Hargv Hall. unfold xargs_main, xargs, mbind, prog_mbind. rewrite prog_bind_assoc.
  assert (Hptrs : Forall (λ p, p ≠ 0) (tail argv)) by (eapply Forall_impl; [exact Hargv|]; by intros p [? _]).
  eapply (runs_words buff Hbuff _ _ 0 inp _ [] (tail argv) (given m argv)); [|cbn; lia|done|done|].
  { split; cbn [x_m vc_i begin x_cmd]; [cbn; lia|done| |done| |done].
    - unfold Cmd_make. by apply (Cmd_append_pack [] (tail argv)); [cbn; lia|].
    - eapply Forall_impl; [exact Hargv|]. intros p [_ (len & Hs & Hd)]. exists len. split; [done|lia]. }
  intros s cur ps [_ _ Ha Hp _ Hw]. cbn. change (Mode_OneShot =? Mode_OneShot) with true. cbn. unfold Cmd_exec_in_child_process. rewrite Ha.
  assert (Hk : arg_string (x_m s) <$> take 10 ps = prog0 :: rest) by (rewrite <- Hall, <- Hw; by rewrite fmap_take).
  assert (Htk : Forall (λ p, p ≠ 0) (take 10 ps)) by (by apply Forall_take).
  destruct (take 10 ps) as [|p0 pr] eqn:Et; [done|]. injection Hk as Hk1 Hk2.
  assert (Hup : upto_null (args (pack (p0 :: pr))) = p0 :: pr) by (apply upto_null_pack; [done|rewrite <- Et, length_take; lia]).
  change (nth 0 (args (pack (p0 :: pr))) 0) with p0. apply Forall_cons in Htk as [Hp0 _]. destruct (Z.eqb_spec p0 0) as [|_]; [done|].
  rewrite Hup. cbn. eapply runs_fork; [reflexivity|]. intros pid Hpid. cbn. destruct (Z.eqb_spec pid 0) as [|_]; [lia|]. cbn.
  apply runs_call; [exists (1, []); eexists; by constructor|]. intros a e' Hw'. inversion Hw'; subst. cbn. apply runs_exit. split_and!; [done| |done|done].
  done.
Qed.

(** "echo hi", with "a b" and a new line on the input *)
Definition mem_echo : mem := λ x, nth (Z.to_nat (x - 100)) (str "xargs" ++ [0] ++ str "echo" ++ [0] ++ str "hi" ++ [0]) 0.
Lemma echo_string p len : 100 ≤ p → 0 ≤ len < 20 → p + len < 200 → mem_echo (p + len) = 0 →
  forallb (λ i, negb (mem_echo (p + i) =? 0)) (seqZ 0 len) = true → cstring mem_echo p len.
Proof.
  intros Hp Hl Hb Hz Hf. split_and!; [lia|done|]. intros i Hi. rewrite forallb_forall in Hf. specialize (Hf i).
  rewrite <- list_elem_of_In, elem_of_seqZ in Hf. specialize (Hf ltac:(lia)). by apply negb_true_iff, Z.eqb_neq in Hf.
Qed.

Lemma xargs_correct_witness :
  runs (λ _ _, False) (λ st e', st = 0 ∧ s_ran e' = [(str "echo", [str "echo"; str "hi"; str "a"; str "b"])])
    (xargs_main 1000 mem_echo [100; 106; 111]) (mkStr (λ _, str "a b" ++ [10]) (λ _, []) []).
Proof.
  eapply runs_mono; [apply (xargs_correct 1000 mem_echo [100; 106; 111] (str "a b" ++ [10]) _ (str "echo") [str "hi"; str "a"; str "b"]);
    [lia|reflexivity|repeat constructor; discriminate|cbn; lia| |vm_compute; reflexivity]|done|].
  - repeat constructor; try discriminate; [exists 4|exists 2]; (split; [apply echo_string; [lia|lia|lia|reflexivity|reflexivity]|left; lia]).
  - intros st e' (-> & Hr & _). by rewrite Hr.
Defined.

(** *** The buffer *)
Lemma runs_stores {A} (Q : A → streams → Prop) X buff fd inp s e k :
  Forall (λ c, is_sep c = false) inp → s_in e fd = inp →
  (∀ m, (∀ i c, inp !! i = Some c → m (buff + vc_i s + Z.of_nat i) = c) → (∀ x, x < buff + vc_i s → m x = x_m s x) →
     runs Q X (k (0, mkX m (vc_i s + Z.of_nat (length inp)) (begin s) (x_cmd s) (cmd1 s))) (drained fd e)) →
  runs Q X (prog_bind k (xargs_loop buff Mode_OneShot fd s)) e.
Proof.
  revert s e. induction inp as [|c inp IH]; intros s e Hsep Hin HQ; unfold xargs_loop, iter; cbn [prog_bind]; apply runs_loop; cbn; apply runs_read1.
  - intros _. cbn. apply runs_ret. specialize (HQ (x_m s) ltac:(done) ltac:(done)).
    replace (drained fd e) with e in HQ by (unfold drained; rewrite <- Hin, upd_id; by destruct e). cbn in HQ. rewrite Z.add_0_r in HQ. by destruct s.
  - intros c l E. by rewrite Hin in E.
  - intros E. by rewrite Hin in E.
  - intros c' l E. rewrite Hin in E. injection E as <- <-. apply Forall_cons in Hsep as [Hc Hsep].
    assert (Hin' : s_in (take_in fd 1 e) fd = inp) by (cbn; rewrite upd_eq, Hin; done).
    rewrite <- (drained_take fd 1 e) in HQ. cbn. rewrite Hc. cbn. apply runs_ret. apply IH; [done|done|]. cbn [x_m vc_i begin x_cmd cmd1].
    intros m Hm Hlow. replace (vc_i s + 1 + Z.of_nat (length inp)) with (vc_i s + Z.of_nat (length (c :: inp))) by (cbn; lia). apply HQ.
    + intros [|i] d Hd; [injection Hd as <-|].
      * rewrite Z.add_0_r, Hlow by lia. apply upd_eq.
      * rewrite <- (Hm i d Hd). f_equal. lia.
    + intros x Hx. rewrite Hlow by lia. apply upd_ne. lia.
Qed.

(** C39: the buffer of xargs is not bounded: with any input without separators the byte at offset [i] of the input is stored at [buff + i],
    also past the 512 bytes that were allocated. *)
Theorem xargs_overflow (buff : Z) (m : mem) (cmd : Cmd) (inp : list Z) (e : streams) (i : nat) (c : Z) :
  s_in e 0 = inp → Forall (λ c, is_sep c = false) inp → inp !! i = Some c →
  runs (λ m' _, m' (buff + Z.of_nat i) = c) (λ _ _, False) (xargs buff m cmd Mode_OneShot 0) e.
Proof.
  intros Hin Hsep Hi. unfold xargs, mbind, prog_mbind. apply runs_stores with (inp := inp); [done|done|]. cbn [vc_i x_cmd begin cmd1].
  intros m' Hm _. assert (Hc : m' (buff + Z.of_nat i) = c) by (rewrite <- (Hm i c Hi); f_equal; lia).
  cbn. change (Mode_OneShot =? Mode_OneShot) with true. cbn. unfold Cmd_exec_in_child_process. destruct (nth 0 (args cmd) 0 =? 0).
  - unfold mbind, prog_mbind. rewrite prog_bind_assoc. apply runs_printf. cbn. by apply runs_ret.
  - cbn. eapply runs_fork; [reflexivity|]. intros pid Hpid. cbn. destruct (Z.eqb_spec pid 0) as [|_]; [lia|]. cbn.
    apply runs_call; [exists (1, []); eexists; by constructor|]. intros a e' Hw'. inversion Hw'; subst. cbn. by apply runs_ret.
Qed.

(** 513 bytes: the last goes past the buffer. *)
Lemma xargs_overflow_witness :
  runs (λ m' _, m' (1000 + 512) = 120) (λ _ _, False) (xargs 1000 mem_echo (Cmd_make [106]) Mode_OneShot 0) (mkStr (λ _, replicate 513 120) (λ _, []) []).
Proof. apply (xargs_overflow 1000 mem_echo (Cmd_make [106]) (replicate 513 120) _ 512 120); [reflexivity|by apply Forall_replicate|reflexivity]. Defined.
