(* ===== verification/Ulib.v ===== *)
(** ulib.c: strings and memory in user programs.

    A string that is only read is the list of bytes from its pointer on: after its last byte comes a NUL.
    What is written is byte memory, as in CString.v, whose copying loops are those of memmove() here. *)
From Stdlib Require Import FunctionalExtensionality.
From S2P Require Import Prelude Machine CString Printf Uprintf User.

(** ** Strings *)
Fixpoint strcmp (p q : list Z) : Z :=
  match p with
  | [] => 0 - hd 0 q
  | c :: p => if negb (c =? 0) && (c =? hd 0 q) then strcmp p (tail q) else c - hd 0 q
  end.

Fixpoint strlen (s : list Z) : Z :=
  match s with
  | [] => 0
  | c :: s => if c =? 0 then 0 else 1 + strlen s
  end.

(** What strchr() returns: the string from the character on, or NULL *)
Fixpoint strchr (s : list Z) (c : Z) : option (list Z) :=
  match s with
  | [] => None
  | x :: s' => if x =? 0 then None else if x =? c then Some s else strchr s' c
  end.

Fixpoint atoi_loop (n : Z) (s : list Z) : Z :=
  match s with
  | [] => n
  | c :: s => if (48 <=? c) && (c <=? 57) then atoi_loop (s32 (n * 10 + c - 48)) s else n
  end.
Definition atoi (s : list Z) : Z := atoi_loop 0 s.

(** ** Memory *)
Fixpoint strcpy (fuel : nat) (m : mem) (s t : Z) : option mem :=
  match fuel with
  | O => None
  | S fuel =>
    let c := m t in
    let m := upd m s c in
    if c =? 0 then Some m else strcpy fuel m (s + 1) (t + 1)
  end.

Definition memset (m : mem) (dst c n : Z) : mem := memset_loop (Z.to_nat (u32 n)) m dst c 0.

(** [n] is an int here. *)
Definition memmove (m : mem) (vdst vsrc n : Z) : mem :=
  if vdst <? vsrc then memmove_up (Z.to_nat n) m vdst vsrc
  else memmove_down (Z.to_nat n) m (vdst + n) (vsrc + n).
Definition memcpy (m : mem) (dst src n : Z) : mem := memmove m dst src (s32 n).
Definition memcmp (m : mem) (s1 s2 n : Z) : Z := memcmp_loop (Z.to_nat (u32 n)) m s1 s2.

(** ** With system calls *)
Definition gets (m : mem) (buf max : Z) : prog mem :=
  r ← iter (λ '(m, i),
    if i + 1 <? max then
      r ← read 0 1;
      if fst r <? 1 then mret (inr (m, i))
      else
        let c := nth 0 (snd r) 0 in
        let m := upd m (buf + i) c in
        mret (if (c =? 10) || (c =? 13) then inr (m, i + 1) else inl (m, i + 1))
    else mret (inr (m, i))) (m, 0);
  mret (upd (fst r) (buf + snd r) 0).

Definition O_RDONLY : Z := 0.
(** The result and the bytes of the struct stat *)
Definition stat (n : list Z) : prog ans :=
  fd ← open n O_RDONLY;
  if fd <? 0 then mret (-1, [])
  else
    r ← fstat fd;
    close fd;;
    mret r.

(** ** Facts *)
Definition plain (s : list Z) : Prop := Forall (λ c, 0 < c < 256) s.

Lemma strcmp_zero p q : plain p → plain q → strcmp p q = 0 ↔ p = q.
Proof.
  intros Hp. revert q. induction Hp as [|c p Hc Hp IH]; intros q Hq; cbn [strcmp].
  - destruct Hq as [|d q Hd Hq]; cbn [hd]; [done|]. split; [lia|done].
  - destruct (Z.eqb_spec c 0) as [->|_]; [lia|]. cbn [negb andb]. destruct Hq as [|d q Hd Hq]; cbn [hd tail].
    + destruct (Z.eqb_spec c 0); [lia|]. split; [lia|done].
    + destruct (Z.eqb_spec c d) as [->|Hne]; [|split; [lia|congruence]]. rewrite (IH q Hq). split; congruence.
Qed.

Lemma strlen_plain s rest : plain s → strlen (s ++ 0 :: rest) = Z.of_nat (length s).
Proof.
  intros Hs. induction Hs as [|c s Hc Hs IH]; [done|]. cbn [app strlen length]. destruct (Z.eqb_spec c 0); [lia|]. rewrite IH. lia.
Qed.

(** The memmove() of the user library and the one of the kernel agree: although they decide differently in which direction
    to copy, both copy the source as it was, for every overlap. *)
Theorem memmove_agree m dst src n : 0 ≤ n < 2 ^ 31 → memmove m dst src n = CString.memmove m dst src n.
Proof.
  intros Hn. apply functional_extensionality. intros x. rewrite memmove_spec by lia. unfold memmove. destruct (Z.ltb_spec dst src) as [Hl|Hl].
  - rewrite memmove_up_spec by lia. by rewrite Z2Nat.id by lia.
  - replace (dst + n) with (dst + Z.of_nat (Z.to_nat n)) at 1 by lia. replace (src + n) with (src + Z.of_nat (Z.to_nat n)) by lia.
    rewrite memmove_down_spec by lia. by rewrite Z2Nat.id by lia.
Qed.
Lemma memmove_agree_witness : memmove (λ x, x) 10 8 4 13 = CString.memmove (λ x, x) 10 8 4 13 ∧ memmove (λ x, x) 10 8 4 13 = 11.
Proof. split; [by rewrite (memmove_agree (λ x, x) 10 8 4) by lia|reflexivity]. Defined.

(** *** Numbers *)
Lemma number_nonneg ds : Forall (λ d, 0 ≤ d < 10) ds → 0 ≤ number 10 ds.
Proof. induction 1 as [|d ds Hd _ IH]; cbn; lia. Qed.

Lemma atoi_digits ds n rest : Forall (λ d, 0 ≤ d < 10) ds → 0 ≤ n → n * 10 ^ Z.of_nat (length ds) + number 10 ds < 2 ^ 31 →
  hd 0 rest < 48 → atoi_loop n (map (Z.add 48) (rev ds) ++ rest) = n * 10 ^ Z.of_nat (length ds) + number 10 ds.
Proof.
  intros Hds. revert n. induction ds as [|d ds IH] using rev_ind; intros n Hn Hb Hr.
  - cbn. destruct rest as [|c rest]; [cbn; lia|]. cbn [atoi_loop hd] in *. destruct (Z.leb_spec 48 c); [lia|]. cbn. lia.
  - apply Forall_app in Hds as [Hds Hd]. apply Forall_cons in Hd as [Hd _].
    assert (En : ∀ l, number 10 (l ++ [d]) = number 10 l + 10 ^ Z.of_nat (length l) * d).
    { induction l as [|x l IHl]; [cbn; lia|]. cbn [app number length]. rewrite IHl. replace (Z.of_nat (S (length l))) with (Z.succ (Z.of_nat (length l))) by lia. rewrite Z.pow_succ_r by lia. lia. }
    rewrite rev_app_distr. cbn [rev app map atoi_loop]. destruct (Z.leb_spec 48 (48 + d)); [|lia]. destruct (Z.leb_spec (48 + d) 57); [|lia]. cbn [andb].
    rewrite length_app in Hb |- *. cbn [length] in *. rewrite En in Hb |- *. replace (Z.of_nat (length ds + 1)) with (Z.succ (Z.of_nat (length ds))) in Hb |- * by lia.
    rewrite Z.pow_succ_r in Hb |- * by lia. pose proof (number_nonneg ds Hds). assert (Hp : 1 ≤ 10 ^ Z.of_nat (length ds)) by (pose proof (Z.pow_pos_nonneg 10 (Z.of_nat (length ds))); lia).
    assert (Hsm : n * 10 + d < 2 ^ 31) by nia.
    replace (n * 10 + (48 + d) - 48) with (n * 10 + d) by lia. rewrite s32_small by lia. rewrite IH by (done || nia). nia.
Qed.

(** "%d" prints its argument with printint(). *)
Lemma vprintf_d n ap out out' : Uprintf.printint collect (s32 n) 10 true out = Ret () out' → vprintf collect 0 (str "%d") (AInt n :: ap) out = Ret () out'.
Proof.
  intros E. change (str "%d") with [PERCENT; 100]. cbn [vprintf]. change (0 =? 0) with true. change (PERCENT =? PERCENT) with true. change (PERCENT =? 0) with false. cbv iota.
  unfold directive. change (100 =? 100) with true. cbv iota. unfold mbind, M_bind. cbn [va_int]. unfold mret, M_ret. cbn [obind fst snd]. rewrite E. done.
Qed.

(** C37: atoi() reads what printf("%d") prints: for every int that is not negative, vprintf() of the format "%d" with that int as the first argument returns
    and has printed characters from which atoi() gets the int back, whatever follows them that is less than a digit. *)
Theorem atoi_printf (n : Z) (ap : list arg) (rest : list Z) : 0 ≤ n < 2 ^ 31 → hd 0 rest < 48 →
  ∃ out, vprintf collect 0 (str "%d") (AInt n :: ap) [] = Ret () out ∧ atoi (out ++ rest) = n.
Proof.
  intros Hn Hr. destruct (printint_decimal n []) as (ds & E & _ & Hall & Hnum & _ & _); [lia|]. eexists. split; [apply vprintf_d; rewrite s32_small by lia; exact E|].
  destruct (Z.ltb_spec n 0); [lia|]. cbn [app]. unfold atoi. rewrite atoi_digits; [|done|lia|rewrite Hnum; lia|done]. rewrite Hnum. lia.
Qed.
Lemma atoi_printf_witness : ∃ out, vprintf collect 0 (str "%d") [AInt 2147483647; AInt 7] [] = Ret () out ∧ atoi (out ++ [10]) = 2147483647.
Proof. apply (atoi_printf 2147483647 [AInt 7] [10]); [lia|cbn; lia]. Defined.

(** atoi() of a number that is too large *)
Example atoi_wraps : atoi (str "4294967295") = -1.
Proof. reflexivity. Qed.
