(* ===== verification/Find.v ===== *)
(** find.c and ls.c: walking directories.

    A char array is the list of its bytes, a store replaces bytes of it; a string is what comes before the first NUL.
    find() recurses on [fuel], which is how deep the directories may be nested. *)
From S2P Require Import Prelude Machine CString Printf Uprintf Sched Sleeplock Bio Log Fs User Ulib.

Definition store (off : Z) (bs buf : list Z) : list Z :=
  take (Z.to_nat off) buf ++ bs ++ drop (Z.to_nat off + length bs) buf.
Fixpoint c_str (l : list Z) : list Z :=
  match l with
  | [] => []
  | c :: l => if c =? 0 then [] else c :: c_str l
  end.
Definition SLASH : Z := 47.

(** ** The bytes of struct stat and struct dirent *)
Definition le (bs : list Z) : Z := fold_right (λ b v, b + 256 * v) 0 bs.
Definition st_ino (st : list Z) : Z := le (take 4 (drop 4 st)).
Definition st_type (st : list Z) : Z := s16 (le (take 2 (drop 8 st))).
Definition st_size (st : list Z) : Z := le (take 8 (drop 16 st)).
Definition de_inum (de : list Z) : Z := le (take 2 de).
Definition de_name (de : list Z) : list Z := take (Z.to_nat DIRSIZ) (drop 2 de).

(** ** fmtname() *)
(** for(p = path + strlen(path); p >= path && *p != '/'; p--), over the characters from the last one on *)
Fixpoint back_to_slash (r acc : list Z) : list Z :=
  match r with
  | [] => acc
  | c :: r => if c =? SLASH then acc else back_to_slash r (c :: acc)
  end.
Definition fmtname (fill : Z) (path : list Z) : list Z :=
  let p := back_to_slash (rev path) [] in
  if DIRSIZ <=? strlen p then p
  else c_str (store (strlen p) (replicate (Z.to_nat (DIRSIZ - strlen p)) fill) (store 0 p (replicate (Z.to_nat (DIRSIZ + 1)) 0))).

Section walk.
Context (uninit : list Z).   (* what an array on the stack holds *)

Definition no_end : prog unit := iter (λ _, mret (inl ())) ().

(** The line of a file: both programs print it *)
Definition file_line (fmt : list Z) (fill : Z) (path st : list Z) (size : arg) : prog unit :=
  fprintf 1 fmt [AStr (Some (fmtname fill path)); AInt (st_type st); AInt (s32 (st_ino st)); size].

(** The entry that has been read, with the path in buf *)
Definition find_entry (rec : list Z → prog unit) (target buf : list Z) : prog unit :=
  let path := c_str buf in
  r ← stat path;
  if fst r <? 0 then fprintf 1 (str "ls: cannot stat %s" ++ [10]) [AStr (Some path)]
  else
    let st := snd r in
    (if strcmp (fmtname 0 path) target =? 0 then
       if st_type st =? T_FILE then fprintf 1 (str "file:%s" ++ [10]) [AStr (Some path)]
       else if st_type st =? T_DIR then fprintf 1 (str "dir :%s" ++ [10]) [AStr (Some path)]
       else mret ()
     else mret ());;
    (if negb (strcmp (fmtname 0 path) (str "..") =? 0) && negb (strcmp (fmtname 0 path) (str ".") =? 0) && (st_type st =? T_DIR)
     then rec path
     else mret ()).

(** The loop over the entries of a directory; [entry] is done for those in use. *)
Definition dir_loop (entry : list Z → prog unit) (fd p : Z) (buf : list Z) : prog unit :=
  iter (λ buf,
    r ← read fd sizeof_dirent;
    if fst r =? sizeof_dirent then
      let de := snd r in
      if de_inum de =? 0 then mret (inl buf)
      else
        let buf := store (p + DIRSIZ) [0] (store p (de_name de) buf) in
        entry buf;;
        mret (inl buf)
    else mret (inr ())) buf.

(** switch(st.type) *)
Definition walk_body (fmt : list Z) (fill : Z) (entry : list Z → prog unit) (path : list Z) (fd : Z) (st : list Z) : prog unit :=
  if st_type st =? T_FILE then file_line fmt fill path st (ALong (st_size st))
  else if st_type st =? T_DIR then
    if 512 <? strlen path + 1 + DIRSIZ + 1 then fprintf 1 (str "ls: path too long" ++ [10]) []
    else
      let buf := store 0 (path ++ [0]) uninit in
      let p := strlen (c_str buf) in
      dir_loop entry fd (p + 1) (store p [SLASH] buf)
  else mret ().

(** find() and ls() differ in the line of a file and in what they do with an entry. *)
Definition walk (fmt : list Z) (fill : Z) (entry : list Z → prog unit) (path : list Z) : prog unit :=
  fd ← open path 0;
  if fd <? 0 then fprintf 2 (str "ls: cannot open %s" ++ [10]) [AStr (Some path)]
  else
    r ← fstat fd;
    if fst r <? 0 then fprintf 2 (str "ls: cannot stat %s" ++ [10]) [AStr (Some path)];; close fd;; mret ()
    else walk_body fmt fill entry path fd (snd r);; close fd;; mret ().

Fixpoint find (fuel : nat) (path target : list Z) : prog unit :=
  match fuel with
  | O => no_end
  | S fuel => walk (str "%s %d %d %l" ++ [10]) 0 (find_entry (λ path, find fuel path target) target) path
  end.

Definition find_main (fuel : nat) (argv : list (list Z)) : prog unit :=
  match tail argv with
  | [] => find fuel (str ".") (str "a")
  | l => for_each l (λ a, find fuel a [])
  end;;
  exit_ 0.

(** ls() *)
Definition ls_entry (buf : list Z) : prog unit :=
  let path := c_str buf in
  r ← stat path;
  if fst r <? 0 then fprintf 1 (str "ls: cannot stat %s" ++ [10]) [AStr (Some path)]
  else file_line (str "%s %d %d %d" ++ [10]) 32 path (snd r) (AInt (s32 (st_size (snd r)))).
Definition ls (path : list Z) : prog unit := walk (str "%s %d %d %l" ++ [10]) 32 ls_entry path.
Definition ls_main (argv : list (list Z)) : prog unit :=
  match tail argv with
  | [] => ls (str ".")
  | l => for_each l ls
  end;;
  exit_ 0.
End walk.
