(* ===== verification/FindSpec.v ===== *)
(** find.c: what it prints.

    The environment is a file system that does not change, as a function from paths to files, and the descriptors of the
    process: find() keeps one open for every directory that it is in. *)
From S2P Require Import Prelude Machine CString Printf Uprintf Sched Sleeplock Bio Log Fs User Ulib Find.

(** ** Files by their paths *)
Definition bytes_le (n : nat) (v : Z) : list Z := map (λ i, v / 256 ^ i mod 256) (seqZ 0 (Z.of_nat n)).
Record fnode := mkNode { fn_type : Z; fn_ino : Z; fn_size : Z; fn_ents : list (list Z) }.
Definition stat_bytes (x : fnode) : list Z :=
  bytes_le 4 1 ++ bytes_le 4 (fn_ino x) ++ bytes_le 2 (fn_type x) ++ bytes_le 2 1 ++ bytes_le 4 0 ++ bytes_le 8 (fn_size x).

Record fenv := mkF { e_fds : list (option (list Z * nat)); e_out : Z → list Z }.
Definition set_fds (l : list (option (list Z * nat))) (e : fenv) : fenv := mkF l (e_out e).
Definition print (fd : Z) (bs : list Z) (e : fenv) : fenv := mkF (e_fds e) (upd (e_out e) fd (e_out e fd ++ bs)).
Definition fd_at (e : fenv) (fd : Z) : option (list Z * nat) := if 0 <=? fd then mjoin (e_fds e !! Z.to_nat fd) else None.

(** ** Trees *)
Inductive ent (T : Type) : Type :=
| EFree (name : list Z)               (* no file *)
| ELink (name : list Z) (ino : Z)     (* . and .. *)
| ESub (name : list Z) (t : T).

Arguments EFree {T} name.
Arguments ELink {T} name ino.
Arguments ESub {T} name t.

Inductive tree : Type :=
| TFile (ino size : Z)
| TDev (ino : Z)
| TDir (ino size : Z) (es : list (ent tree)).

Definition tree_ino (t : tree) : Z := match t with TFile i _ => i | TDev i => i | TDir i _ _ => i end.
Definition padded (name : list Z) : list Z := name ++ replicate (14 - length name) 0.
Definition dirent (e : ent tree) : list Z :=
  match e with
  | EFree name => [0; 0] ++ name
  | ELink name i => bytes_le 2 i ++ padded name
  | ESub name t => bytes_le 2 (tree_ino t) ++ padded name
  end.
Definition node_of (t : tree) : fnode :=
  match t with
  | TFile i sz => mkNode T_FILE i sz []
  | TDev i => mkNode T_DEVICE i 0 []
  | TDir i sz es => mkNode T_DIR i sz (dirent <$> es)
  end.

Definition name_ok (name : list Z) : Prop := plain name ∧ Forall (λ c, c ≠ SLASH) name ∧ (1 ≤ length name ≤ 14)%nat.
Definition sub_path (path name : list Z) : list Z := path ++ [SLASH] ++ name.

Section fs.
Context (fs : list Z → option fnode).

(** open(), fstat(), read() of one directory entry, close() and write() *)
Definition fs_answer (c : ucall) (e : fenv) : option (ans * fenv) :=
  match c with
  | Uopen path _ =>
    match fs path, first_none (e_fds e) with
    | Some _, Some n => Some ((Z.of_nat n, []), set_fds (<[n := Some (path, 0%nat)]> (e_fds e)) e)
    | _, _ => Some ((-1, []), e)
    end
  | Ufstat fd =>
    match fd_at e fd with
    | Some (path, _) => match fs path with Some x => Some ((0, stat_bytes x), e) | None => None end
    | None => Some ((-1, []), e)
    end
  | Uread fd n =>
    match fd_at e fd with
    | Some (path, off) =>
      match fs path with
      | Some x =>
        match fn_ents x !! off with
        | Some de => if n =? sizeof_dirent then Some ((sizeof_dirent, de), set_fds (<[Z.to_nat fd := Some (path, S off)]> (e_fds e)) e) else None
        | None => Some ((0, []), e)
        end
      | None => None
      end
    | None => Some ((-1, []), e)
    end
  | Uclose fd =>
    match fd_at e fd with
    | Some _ => Some ((0, []), set_fds (<[Z.to_nat fd := None]> (e_fds e)) e)
    | None => Some ((-1, []), e)
    end
  | Uwrite fd bs => Some ((Z.of_nat (length bs), []), print fd bs e)
  | _ => None
  end.

#[local] Instance fs_env : Env fenv := {| answers c e a e' := fs_answer c e = Some (a, e'); spawned _ _ e := e |}.

(** The files at and below [path] are those of the tree, and the paths fit in find()'s buffer. *)
Fixpoint agrees (path : list Z) (t : tree) : Prop :=
  fs path = Some (node_of t) ∧ 0 < tree_ino t < 2 ^ 16 ∧
  match t with
  | TFile _ sz => 0 ≤ sz < 2 ^ 64
  | TDev _ => True
  | TDir _ sz es =>
    0 ≤ sz < 2 ^ 64 ∧ (length path + 16 ≤ 512)%nat ∧
    fold_right and True (map (λ e,
      match e with
      | EFree name => length name = 14%nat
      | ELink name i => name_ok name ∧ (name = str "." ∨ name = str "..") ∧ 0 < i < 2 ^ 16 ∧
          ∃ sz ents, 0 ≤ sz < 2 ^ 64 ∧ fs (sub_path path name) = Some (mkNode T_DIR i sz ents)
      | ESub name t => name_ok name ∧ name ≠ str "." ∧ name ≠ str ".." ∧ agrees (sub_path path name) t
      end) es)
  end.

Fixpoint height (t : tree) : nat :=
  match t with
  | TDir _ _ es => S (fold_right max 0%nat (map (λ e, match e with ESub _ t => height t | ELink _ _ => 1%nat | EFree _ => 0%nat end) es))
  | _ => 1
  end.

(** The lines for the files below [path] whose name is the target, directory by directory *)
Definition hit (t : tree) (path : list Z) : list Z :=
  match t with
  | TFile _ _ => str "file:" ++ path ++ [10]
  | TDir _ _ _ => str "dir :" ++ path ++ [10]
  | TDev _ => []
  end.
Definition named (target name line : list Z) : list Z := if decide (name = target) then line else [].
Fixpoint below (target path : list Z) (t : tree) : list Z :=
  match t with
  | TDir _ _ es =>
    concat (map (λ e,
      match e with
      | EFree _ => []
      | ELink name _ => named target name (str "dir :" ++ sub_path path name ++ [10])
      | ESub name t => named target name (hit t (sub_path path name)) ++ below target (sub_path path name) t
      end) es)
  | _ => []
  end.
End fs.

(** ** Bytes *)
Lemma le_bytes n v : 0 ≤ v < 256 ^ Z.of_nat n → le (bytes_le n v) = v.
Proof.
  revert v. induction n as [|n IH]; intros v Hv; [change (256 ^ Z.of_nat 0) with 1 in Hv; change (le (bytes_le 0 v)) with 0; lia|]. unfold bytes_le. replace (Z.of_nat (S n)) with (Z.succ (Z.of_nat n)) in * by lia.
  rewrite Z.pow_succ_r in Hv by lia. rewrite seqZ_cons by lia. cbn [map le fold_right]. rewrite Z.pow_0_r, Z.div_1_r.
  replace (fold_right _ 0 _) with (le (bytes_le n (v / 256))).
  - rewrite IH; [|split; [apply Z.div_pos; lia|apply Z.div_lt_upper_bound; lia]]. pose proof (Z.div_mod v 256). lia.
  - unfold le, bytes_le. f_equal. replace (Z.pred (Z.succ (Z.of_nat n))) with (Z.of_nat n) by lia. replace (Z.succ 0) with (0 + 1) by lia.
    rewrite <- (fmap_add_seqZ 1 0). change (fmap ?f ?l) with (map f l). rewrite map_map. apply map_ext_in. intros i Hi%list_elem_of_In%elem_of_seqZ.
    rewrite Z.add_comm, Z.pow_add_r, Z.pow_1_r, Z.mul_comm by lia. by rewrite Z.div_div by lia.
Qed.

Lemma length_le n v : length (bytes_le n v) = n.
Proof. unfold bytes_le. rewrite length_map, length_seqZ. lia. Qed.

Lemma take_bytes n v l : take n (bytes_le n v ++ l) = bytes_le n v.
Proof. rewrite take_app_le by (by rewrite length_le). apply take_ge. by rewrite length_le. Qed.
Lemma drop_bytes n k v l : (n ≤ k)%nat → drop k (bytes_le n v ++ l) = drop (k - n) l.
Proof. intros Hk. rewrite drop_app_ge by (by rewrite length_le). by rewrite length_le. Qed.

Lemma stat_fields x : 0 < fn_ino x < 2 ^ 16 → 0 ≤ fn_type x < 2 ^ 15 → 0 ≤ fn_size x < 2 ^ 64 →
  st_type (stat_bytes x) = fn_type x ∧ st_ino (stat_bytes x) = fn_ino x ∧ st_size (stat_bytes x) = fn_size x.
Proof.
  intros Hi Ht Hs. unfold st_type, st_ino, st_size, stat_bytes. split_and!.
  - rewrite drop_bytes by lia. rewrite drop_bytes by lia. change (8 - 4 - 4)%nat with 0%nat. rewrite drop_0, take_bytes, le_bytes by (cbn; lia).
    unfold s16. rewrite Z.mod_small; lia.
  - rewrite drop_bytes by lia. change (4 - 4)%nat with 0%nat. rewrite drop_0, take_bytes, le_bytes by (cbn; lia). done.
  - do 5 (rewrite drop_bytes by lia). change (16 - 4 - 4 - 2 - 2 - 4)%nat with 0%nat. rewrite drop_0.
    rewrite <- (app_nil_r (bytes_le 8 _)), take_bytes, le_bytes by (cbn; lia). done.
Qed.

Lemma length_padded name : (length name ≤ 14)%nat → length (padded name) = 14%nat.
Proof. intros Hl. unfold padded. rewrite length_app, length_replicate. lia. Qed.

Lemma dirent_used i name : 0 < i < 2 ^ 16 → name_ok name →
  de_inum (bytes_le 2 i ++ padded name) = i ∧ de_name (bytes_le 2 i ++ padded name) = padded name.
Proof.
  intros Hi (_ & _ & Hl). unfold de_inum, de_name. rewrite take_bytes, drop_bytes, le_bytes by (cbn; lia). split; [done|].
  rewrite Nat.sub_diag, drop_0. apply take_ge. by rewrite length_padded by lia.
Qed.

(** ** Strings *)
Lemma c_str_plain s rest : plain s → c_str (s ++ 0 :: rest) = s.
Proof. intros Hs. induction Hs as [|c s Hc Hs IH]; [done|]. cbn. destruct (Z.eqb_spec c 0); [lia|]. by rewrite IH. Qed.

Lemma strlen_all s : plain s → strlen s = Z.of_nat (length s).
Proof. intros Hs. induction Hs as [|c s Hc Hs IH]; [done|]. cbn [strlen length]. destruct (Z.eqb_spec c 0); [lia|]. rewrite IH. lia. Qed.

Lemma back_to_slash_app r acc rest : Forall (λ c, c ≠ SLASH) r → back_to_slash (r ++ SLASH :: rest) acc = rev r ++ acc.
Proof.
  intros Hr. revert acc. induction Hr as [|c r Hc Hr IH]; intros acc; [done|]. cbn [app back_to_slash]. destruct (Z.eqb_spec c SLASH); [done|].
  rewrite IH. cbn. by rewrite <- app_assoc.
Qed.

Lemma fmtname_sub path name : name_ok name → fmtname 0 (sub_path path name) = name.
Proof.
  intros (Hp & Hs & Hl). unfold fmtname, sub_path. rewrite rev_app_distr. cbn [rev app]. rewrite <- app_assoc. cbn [app].
  rewrite back_to_slash_app by (by apply Forall_rev). rewrite rev_involutive, app_nil_r, strlen_all by done. unfold DIRSIZ.
  destruct (Z.leb_spec 14 (Z.of_nat (length name))); [done|]. unfold store. change (Z.to_nat 0) with 0%nat. rewrite take_0. cbn [app]. rewrite Nat.add_0_l.
  rewrite Nat2Z.id, take_app_le, take_ge by lia. replace (Z.to_nat (14 - Z.of_nat (length name))) with (S (13 - length name)) by lia. cbn [replicate app]. by apply c_str_plain.
Qed.

(** An entry's path in buf *)
Definition buf_ok (path buf : list Z) : Prop := length buf = 512%nat ∧ ∃ rest, buf = (path ++ [SLASH]) ++ rest.

Lemma store_length off bs buf : (Z.to_nat off + length bs ≤ length buf)%nat → length (store off bs buf) = length buf.
Proof. intros Hl. unfold store. rewrite !length_app, length_take, length_drop. lia. Qed.

Lemma store_prefix l rest bs : store (Z.of_nat (length l)) bs (l ++ rest) = (l ++ bs) ++ drop (length bs) rest.
Proof. unfold store. rewrite Nat2Z.id, take_app_le, take_ge by lia. rewrite drop_app_ge by lia. rewrite <- app_assoc. do 3 f_equal. lia. Qed.

Lemma buf_start path uninit : plain path → (length path + 16 ≤ 512)%nat → length uninit = 512%nat →
  strlen (c_str (store 0 (path ++ [0]) uninit)) = Z.of_nat (length path) ∧
  buf_ok path (store (Z.of_nat (length path)) [SLASH] (store 0 (path ++ [0]) uninit)).
Proof.
  intros Hp Hl Hu. assert (E : store 0 (path ++ [0]) uninit = path ++ 0 :: drop (length path + 1) uninit).
  { unfold store. cbn [Z.to_nat take app]. rewrite length_app, <- app_assoc. cbn. done. }
  rewrite E, c_str_plain by done. rewrite strlen_all by done. split; [done|]. rewrite store_prefix. split.
  - rewrite !length_app, length_drop. cbn. rewrite length_drop. lia.
  - by eexists.
Qed.

Lemma buf_entry path buf name : buf_ok path buf → plain path → (length path + 16 ≤ 512)%nat → name_ok name →
  let buf' := store (Z.of_nat (length path) + 1 + DIRSIZ) [0] (store (Z.of_nat (length path) + 1) (padded name) buf) in
  buf_ok path buf' ∧ c_str buf' = sub_path path name.
Proof.
  intros [Hlen [rest ->]] Hp Hl (Hn & Hs & Hnl) buf'. rewrite length_app in Hlen.
  assert (E : buf' = ((path ++ [SLASH]) ++ padded name) ++ 0 :: drop 15 rest).
  { unfold buf', DIRSIZ. replace (Z.of_nat (length path) + 1) with (Z.of_nat (length (path ++ [SLASH]))) by (rewrite length_app; cbn; lia).
    rewrite store_prefix. replace (Z.of_nat (length (path ++ [SLASH])) + 14) with (Z.of_nat (length ((path ++ [SLASH]) ++ padded name)))
      by (rewrite (length_app (path ++ [SLASH])), length_padded by lia; lia).
    rewrite store_prefix, <- app_assoc. f_equal. cbn. rewrite length_padded by lia. by rewrite drop_drop. }
  rewrite E. split.
  - split; [|eexists; by rewrite <- app_assoc]. rewrite !length_app in *. cbn [length] in *. rewrite length_drop, length_padded by lia. lia.
  - unfold sub_path, padded. rewrite (app_assoc (path ++ [SLASH])), <- app_assoc. rewrite <- (app_assoc path).
    assert (Hpl : plain (path ++ [SLASH] ++ name)) by (apply Forall_app; split; [done|]; apply Forall_app; split; [by repeat constructor|done]).
    destruct (14 - length name)%nat; by apply c_str_plain.
Qed.

(** ** Descriptors *)
Lemma fd_at_nat e n : fd_at e (Z.of_nat n) = mjoin (e_fds e !! n).
Proof. unfold fd_at. destruct (Z.leb_spec 0 (Z.of_nat n)); [|lia]. by rewrite Nat2Z.id. Qed.

Section spec.
Context (fs : list Z → option fnode) (uninit : list Z).
Hypothesis Huninit : length uninit = 512%nat.
#[local] Existing Instance fs_env.
Abbreviation frun := (runs (E := fenv) (Env0 := fs_env fs)).

Lemma runs_fs {A} (Q : A → fenv → Prop) X c k e a e' : fs_answer fs c e = Some (a, e') → frun Q X (k a) e' → frun Q X (PCall c k) e.
Proof. intros Ha. apply runs_one; [exact Ha|]. intros b e2 Hb. cbn in Hb. rewrite Ha in Hb. by injection Hb. Qed.

Lemma fs_prints {A} (Q : A → fenv → Prop) X fd l (k : unit → prog A) e :
  frun Q X (k ()) (print fd l e) → frun Q X (prog_bind k (for_each l (putc_ fd))) e.
Proof.
  revert e. induction l as [|c l IH]; intros e Hr.
  - replace (print fd [] e) with e in Hr; [done|]. unfold print. rewrite app_nil_r, upd_id. by destruct e.
  - cbn. eapply runs_fs; [reflexivity|]. apply IH. replace (print fd l _) with (print fd (c :: l) e); [done|].
    unfold print. cbn [e_fds e_out]. by rewrite upd_eq, upd_upd, <- app_assoc.
Qed.

Definition quiet (out : list Z) (e : fenv) : fenv := print 1 out e.
Lemma quiet_nil e : quiet [] e = e.
Proof. unfold quiet, print. rewrite app_nil_r, upd_id. by destruct e. Qed.
Lemma quiet_quiet a b e : quiet b (quiet a e) = quiet (a ++ b) e.
Proof. unfold quiet, print. cbn [e_fds e_out]. by rewrite upd_eq, upd_upd, <- app_assoc. Qed.
Lemma quiet_fds a e : e_fds (quiet a e) = e_fds e.
Proof. done. Qed.

(** open(), and close() after whatever leaves the descriptors as they were *)
Lemma run_open {A} (Q : A → fenv → Prop) X path k e x : fs path = Some x → (0 < nfree (e_fds e))%nat →
  (∀ n, e_fds e !! n = Some None → frun Q X (k (Z.of_nat n, [])) (set_fds (<[n := Some (path, 0%nat)]> (e_fds e)) e)) →
  frun Q X (PCall (Uopen path 0) k) e.
Proof.
  intros Hx Hn Hk. destruct (first_none_some _ Hn) as (n & Hf & Hl). eapply runs_fs; [cbn; by rewrite Hx, Hf|]. by apply Hk.
Qed.

Lemma run_close {A} (Q : A → fenv → Prop) X n d k e e' : e_fds e !! n = Some (Some d) → e' = set_fds (<[n := None]> (e_fds e)) e →
  frun Q X (k (0, [])) e' → frun Q X (PCall (Uclose (Z.of_nat n)) k) e.
Proof. intros Hl -> Hk. eapply runs_fs; [cbn; rewrite fd_at_nat, Hl; cbn; by rewrite Nat2Z.id|done]. Qed.

Lemma fds_restore e n d : e_fds e !! n = Some None → set_fds (<[n := None]> (<[n := Some d]> (e_fds e))) e = e.
Proof. intros Hl. rewrite list_insert_insert, decide_True by done. rewrite list_insert_id by done. by destruct e. Qed.

Lemma run_stat {A} (Q : A → fenv → Prop) X path (k : ans → prog A) e x : fs path = Some x → (0 < nfree (e_fds e))%nat →
  frun Q X (k (0, stat_bytes x)) e → frun Q X (prog_bind k (stat path)) e.
Proof.
  intros Hx Hn Hk. unfold stat. cbn. apply (run_open _ _ path _ e x); [done|done|]. intros n Hl. cbn. destruct (Z.ltb_spec (Z.of_nat n) 0); [lia|]. cbn.
  assert (Hl' : <[n := Some (path, 0%nat)]> (e_fds e) !! n = Some (Some (path, 0%nat))) by (apply list_lookup_insert_eq; by eapply lookup_lt_Some).
  eapply runs_fs; [cbn; rewrite fd_at_nat; cbn; rewrite Hl'; cbn; by rewrite Hx|]. cbn.
  eapply run_close; [exact Hl'| |exact Hk]. symmetry. exact (fds_restore e n (path, 0%nat) Hl).
Qed.

(** ** The loop over a directory *)
Definition at_off (n : nat) (path : list Z) (off : nat) (e : fenv) : fenv := set_fds (<[n := Some (path, off)]> (e_fds e)) e.

Definition in_use (en : ent tree) : bool := match en with EFree _ => false | _ => true end.
Definition ent_name (en : ent tree) : list Z := match en with EFree name => name | ELink name _ => name | ESub name _ => name end.
Definition ent_ok (en : ent tree) : Prop :=
  match en with
  | EFree name => length name = 14%nat
  | ELink name i => name_ok name ∧ 0 < i < 2 ^ 16
  | ESub name t => name_ok name ∧ 0 < tree_ino t < 2 ^ 16
  end.

Lemma read_entry en : ent_ok en → length (dirent en) = 16%nat ∧
  if in_use en then de_inum (dirent en) ≠ 0 ∧ de_name (dirent en) = padded (ent_name en) ∧ name_ok (ent_name en) else de_inum (dirent en) = 0.
Proof.
  destruct en as [name|name i|name t]; cbn [ent_ok in_use dirent ent_name].
  - intros Hl. split; [cbn; by rewrite Hl|done].
  - intros [Hn Hi]. destruct (dirent_used i name Hi Hn) as [E1 E2]. pose proof Hn as (_ & _ & Hl). rewrite length_app, length_le, length_padded, E1 by lia. split_and!; [done|lia|done|done].
  - intros [Hn Hi]. destruct (dirent_used (tree_ino t) name Hi Hn) as [E1 E2]. pose proof Hn as (_ & _ & Hl). rewrite length_app, length_le, length_padded, E1 by lia. split_and!; [done|lia|done|done].
Qed.

(** [entry] prints [out en] for the entries in use and leaves the descriptors as they were. *)
Lemma run_dir {A} (Q : A → fenv → Prop) X (entry : list Z → prog unit) (out : ent tree → list Z) n path x es e0 k off done_ todo buf e :
  fs path = Some x → fn_ents x = dirent <$> es → plain path → (length path + 16 ≤ 512)%nat →
  es = done_ ++ todo → off = length done_ → e = at_off n path off (quiet (concat (map out done_)) e0) → e_fds e0 !! n = Some None →
  (∀ en, en ∈ es → ent_ok en ∧ (in_use en = false → out en = [])) →
  (∀ B (Q' : B → fenv → Prop) (kk : unit → prog B) en buf off e, en ∈ es → in_use en = true → c_str buf = sub_path path (ent_name en) →
     e_fds e = <[n := Some (path, off)]> (e_fds e0) → frun Q' X (kk ()) (quiet (out en) e) → frun Q' X (prog_bind kk (entry buf)) e) →
  buf_ok path buf →
  (∀ off, frun Q X (k ()) (at_off n path off (quiet (concat (map out es)) e0))) →
  frun Q X (prog_bind k (dir_loop entry (Z.of_nat n) (Z.of_nat (length path) + 1) buf)) e.
Proof.
  intros Hx Hes Hp Hl16 -> -> -> Hn0 Hok Hentry Hbuf Hk. revert done_ buf Hok Hentry Hbuf Hk Hes. induction todo as [|en todo IH]; intros done_ buf Hok Hentry Hbuf Hk Hes;
    unfold dir_loop, iter; cbn [prog_bind]; apply runs_loop; cbn.
  - eapply runs_fs.
    { cbn. rewrite fd_at_nat. cbn. rewrite list_lookup_insert_eq by (by eapply lookup_lt_Some). cbn. rewrite Hx, Hes, app_nil_r, lookup_ge_None_2 by (by rewrite length_fmap). reflexivity. }
    cbn. apply runs_ret. rewrite app_nil_r in Hk. apply Hk.
  - assert (Hin : en ∈ done_ ++ en :: todo) by set_solver. destruct (Hok en Hin) as [Hen Hquiet]. destruct (read_entry en Hen) as [Hlen Huse].
    eapply runs_fs.
    { cbn. rewrite fd_at_nat. cbn. rewrite list_lookup_insert_eq by (by eapply lookup_lt_Some). cbn. rewrite Hx, Hes, fmap_app, lookup_app_r by (by rewrite length_fmap).
      rewrite length_fmap, Nat.sub_diag. cbn. rewrite Nat2Z.id. reflexivity. }
    cbn [fst snd]. rewrite Z.eqb_refl. set (e1 := set_fds _ _).
    assert (He1 : e1 = at_off n path (length (done_ ++ [en])) (quiet (concat (map out done_)) e0)).
    { unfold e1, at_off, set_fds. cbn [e_fds e_out quiet print]. rewrite list_insert_insert, decide_True by done. rewrite length_app. cbn [length]. by rewrite Nat.add_1_r. }
    assert (Hsplit : ∀ l, (done_ ++ [en]) ++ l = done_ ++ en :: l) by (intros l; by rewrite <- app_assoc).
    destruct (in_use en) eqn:Eu.
    + destruct Huse as (Hi & Hname & Hnok). destruct (Z.eqb_spec (de_inum (dirent en)) 0) as [|_]; [done|]. rewrite Hname.
      destruct (buf_entry path buf (ent_name en) Hbuf Hp Hl16 Hnok) as [Hbuf' Hstr]. set (buf' := store _ _ (store _ _ buf)) in *.
      eapply Hentry; [exact Hin|done|exact Hstr|rewrite He1; reflexivity|]. apply runs_ret.
      replace (quiet (out en) e1) with (at_off n path (length (done_ ++ [en])) (quiet (concat (map out (done_ ++ [en]))) e0)).
      * rewrite <- (Hsplit todo) in *. by apply IH.
      * rewrite He1, map_app, concat_app. cbn [map concat]. rewrite app_nil_r, <- quiet_quiet. done.
    + destruct (Z.eqb_spec (de_inum (dirent en)) 0) as [_|]; [|done]. apply runs_ret.
      replace e1 with (at_off n path (length (done_ ++ [en])) (quiet (concat (map out (done_ ++ [en]))) e0)).
      * rewrite <- (Hsplit todo) in *. by apply IH.
      * rewrite He1, map_app, concat_app. cbn [map concat]. by rewrite (Hquiet eq_refl), !app_nil_r.
Qed.

(** ** A walk of one file or directory *)
Lemma run_walk {A} (Q : A → fenv → Prop) X fmt fill entry path x (k : unit → prog A) e : fs path = Some x → (0 < nfree (e_fds e))%nat →
  (∀ n (kk : unit → prog A), e_fds e !! n = Some None →
     (∀ off out, frun Q X (k ()) (quiet out e) → frun Q X (kk ()) (at_off n path off (quiet out e))) →
     frun Q X (prog_bind kk (walk_body uninit fmt fill entry path (Z.of_nat n) (stat_bytes x))) (at_off n path 0 e)) →
  frun Q X (prog_bind k (walk uninit fmt fill entry path)) e.
Proof.
  intros Hx Hn Hbody. unfold walk. cbn [mbind prog_mbind prog_bind open]. apply (run_open _ _ path _ e _ Hx Hn). intros n Hfd.
  cbn [mbind prog_mbind prog_bind fst snd]. destruct (Z.ltb_spec (Z.of_nat n) 0); [lia|].
  assert (Hlt : (n < length (e_fds e))%nat) by (by eapply lookup_lt_Some).
  cbn [mbind prog_mbind prog_bind fstat]. eapply runs_fs; [cbn; rewrite fd_at_nat; cbn; rewrite list_lookup_insert_eq by done; cbn; by rewrite Hx|].
  cbn [mbind prog_mbind prog_bind fst snd]. change (0 <? 0) with false. cbv iota. rewrite prog_bind_assoc. apply (Hbody n _ Hfd).
  intros off out Hk. cbn [mbind prog_mbind prog_bind close]. eapply run_close; [cbn; by apply list_lookup_insert_eq| |cbn; exact Hk].
  unfold at_off, set_fds. cbn [e_fds e_out quiet print]. rewrite list_insert_insert, decide_True by done. rewrite list_insert_id by done. done.
Qed.

Lemma run_walk_dir {A} (Q : A → fenv → Prop) X fmt fill (entry : list Z → prog unit) (out : ent tree → list Z) path ino size es (k : unit → prog A) e :
  fs path = Some (mkNode T_DIR ino size (dirent <$> es)) → 0 < ino < 2 ^ 16 → 0 ≤ size < 2 ^ 64 → plain path → (length path + 16 ≤ 512)%nat →
  (0 < nfree (e_fds e))%nat →
  (∀ en, en ∈ es → ent_ok en ∧ (in_use en = false → out en = [])) →
  (∀ B (Q' : B → fenv → Prop) (kk : unit → prog B) en buf e', en ∈ es → in_use en = true → c_str buf = sub_path path (ent_name en) →
     S (nfree (e_fds e')) = nfree (e_fds e) → frun Q' X (kk ()) (quiet (out en) e') → frun Q' X (prog_bind kk (entry buf)) e') →
  frun Q X (k ()) (quiet (concat (map out es)) e) →
  frun Q X (prog_bind k (walk uninit fmt fill entry path)) e.
Proof.
  intros Hx Hi Hs Hp Hl Hn Hok Hentry Hk. apply (run_walk _ _ _ _ _ path _ _ _ Hx Hn). intros n kk Hfd Hkk. unfold walk_body.
  destruct (stat_fields (mkNode T_DIR ino size (dirent <$> es))) as (-> & _ & _); [done|done|done|]. cbn [fn_type]. change (T_DIR =? T_FILE) with false. change (T_DIR =? T_DIR) with true. cbv iota.
  rewrite strlen_all by done. destruct (Z.ltb_spec 512 (Z.of_nat (length path) + 1 + DIRSIZ + 1)); [unfold DIRSIZ in *; lia|].
  destruct (buf_start path uninit Hp Hl Huninit) as [Hst Hbuf]. cbv zeta. rewrite Hst.
  eapply (run_dir _ _ entry out n path _ es e _ 0 [] es); [exact Hx|done|done|done|done|done| |done|exact Hok| |done|].
  - cbn [map concat]. by rewrite quiet_nil.
  - intros B Q' kk' en buf off e' Hin Hu Hstr Hfds Hr. apply (Hentry B Q' kk' en buf e' Hin Hu Hstr); [|done]. rewrite Hfds.
    by rewrite (nfree_insert (e_fds e) n (path, off) Hfd).
  - intros off. by apply Hkk.
Qed.

(** ** find() *)
Lemma vprintf_lit l fmt ap out : Forall (λ c, c ≠ PERCENT) l → vprintf collect 0 (l ++ fmt) ap out = vprintf collect 0 fmt ap (out ++ l).
Proof.
  intros Hl. revert out. induction Hl as [|c l Hc _ IH]; intros out; [by rewrite app_nil_r|]. cbn [app vprintf]. change (0 =? 0) with true. cbv iota.
  destruct (Z.eqb_spec c PERCENT); [done|]. rewrite (bind_Ret (collect c) _ out () (out ++ [c]) eq_refl), IH. by rewrite <- app_assoc.
Qed.

Lemma string_fmt l p : Forall (λ c, c ≠ PERCENT) l → formatted (l ++ [PERCENT; 115; 10]) [AStr (Some p)] = l ++ p ++ [10].
Proof.
  intros Hl. unfold formatted. rewrite vprintf_lit by done. cbn [app vprintf]. change (PERCENT =? PERCENT) with true. change (0 =? 0) with true. change (PERCENT =? 0) with false. cbv iota.
  unfold directive. cbn [Z.eqb Pos.eqb va_str]. rewrite (bind_Ret _ _ l [] (l ++ p)); [transitivity ((l ++ p) ++ [10]); [reflexivity|by rewrite <- app_assoc]|].
  unfold mbind, M_bind, mret, M_ret. cbn [obind fst snd default]. by rewrite collect_putcs.
Qed.

Lemma file_fmt path : formatted (str "file:%s" ++ [10]) [AStr (Some path)] = str "file:" ++ path ++ [10].
Proof. apply (string_fmt (str "file:") path). by repeat constructor. Qed.
Lemma dir_fmt path : formatted (str "dir :%s" ++ [10]) [AStr (Some path)] = str "dir :" ++ path ++ [10].
Proof. apply (string_fmt (str "dir :") path). by repeat constructor. Qed.

(** What find() prints *)
Definition find_lines (target path : list Z) (t : tree) : list Z :=
  match t with
  | TFile i sz => formatted (str "%s %d %d %l" ++ [10]) [AStr (Some (fmtname 0 path)); AInt T_FILE; AInt (s32 i); ALong sz]
  | _ => below target path t
  end.

Definition finds (fuel : nat) (target : list Z) : Prop := ∀ B (Q : B → fenv → Prop) X (k : unit → prog B) path t e,
  agrees fs path t → plain path → (height t ≤ fuel)%nat → (height t ≤ nfree (e_fds e))%nat →
  frun Q X (k ()) (quiet (find_lines target path t) e) → frun Q X (prog_bind k (find uninit fuel path target)) e.

Definition is_link (name : list Z) : Prop := name = str "." ∨ name = str "..".
#[local] Instance is_link_dec name : Decision (is_link name).
Proof. unfold is_link. apply _. Defined.

Lemma str_plain (s : string) : forallb (λ c, (0 <? c) && (c <? 256)) (str s) = true → plain (str s).
Proof. intros Hf. unfold plain. rewrite forallb_forall in Hf. apply Forall_forall. intros c Hc. apply list_elem_of_In in Hc. specialize (Hf c Hc). lia. Qed.

(** An entry: [x] is the file there, [rec] what find() does with it if it is a directory *)
Lemma run_entry {A} (Q : A → fenv → Prop) X (kk : unit → prog A) rec target name path buf x line more e :
  fs (sub_path path name) = Some x → (0 < nfree (e_fds e))%nat → c_str buf = sub_path path name → name_ok name → plain target →
  0 < fn_ino x < 2 ^ 16 → 0 ≤ fn_type x < 2 ^ 15 → 0 ≤ fn_size x < 2 ^ 64 →
  line = (if fn_type x =? T_FILE then str "file:" ++ sub_path path name ++ [10] else if fn_type x =? T_DIR then str "dir :" ++ sub_path path name ++ [10] else []) →
  (¬ is_link name → fn_type x = T_DIR →
     ∀ e', e_fds e' = e_fds e → frun Q X (kk ()) (quiet more e') → frun Q X (prog_bind kk (rec (sub_path path name))) e') →
  (is_link name ∨ fn_type x ≠ T_DIR → more = []) →
  frun Q X (kk ()) (quiet (named target name line ++ more) e) →
  frun Q X (prog_bind kk (find_entry rec target buf)) e.
Proof.
  intros Hx Hn Hbuf Hok Htg Hi Ht Hs -> Hrec Hmore Hk. unfold find_entry. rewrite Hbuf. cbv zeta. unfold mbind, prog_mbind. rewrite prog_bind_assoc.
  apply (run_stat _ _ _ _ e x Hx Hn). cbn [fst snd]. change (0 <? 0) with false. cbv iota. destruct (stat_fields x Hi Ht Hs) as (-> & _ & _).
  rewrite fmtname_sub by done. rewrite prog_bind_assoc. pose proof Hok as (Hpn & _ & _).
  set (line := if fn_type x =? T_FILE then _ else _) in *.
  assert (Hrest : ∀ e', e_fds e' = e_fds e → frun Q X (kk ()) (quiet more e') →
    frun Q X (prog_bind kk (if negb (strcmp name (str "..") =? 0) && negb (strcmp name (str ".") =? 0) && (fn_type x =? T_DIR) then rec (sub_path path name) else mret ())) e').
  { intros e' He' Hr. destruct (negb (strcmp name (str "..") =? 0) && negb (strcmp name (str ".") =? 0) && (fn_type x =? T_DIR)) eqn:Eb.
    - apply andb_true_iff in Eb as [Eb Ed]. apply andb_true_iff in Eb as [E1 E2]. apply negb_true_iff, Z.eqb_neq in E1, E2. apply Z.eqb_eq in Ed.
      apply Hrec; [|done|done|done]. intros [->| ->]; [by apply E2|by apply E1].
    - cbn. rewrite Hmore, quiet_nil in Hr; [done|]. apply andb_false_iff in Eb as [Eb|Eb]; [|right; by apply Z.eqb_neq].
      left. apply andb_false_iff in Eb as [Eb|Eb]; apply negb_false_iff, Z.eqb_eq, strcmp_zero in Eb; try done; try (by apply str_plain); [by right|by left]. }
  unfold named in Hk. destruct (Z.eqb_spec (strcmp name target) 0) as [E|E].
  - apply strcmp_zero in E; [|done|done]. rewrite decide_True in Hk by done. rewrite <- quiet_quiet in Hk.
    unfold line in Hk. destruct (fn_type x =? T_FILE); [|destruct (fn_type x =? T_DIR)].
    + apply fs_prints. apply Hrest; [done|]. by rewrite file_fmt.
    + apply fs_prints. apply Hrest; [done|]. by rewrite dir_fmt.
    + cbn [prog_bind mret prog_mret]. rewrite quiet_nil in Hk. by apply Hrest.
  - rewrite decide_False in Hk by (intros ->; by apply E, strcmp_zero). cbn [prog_bind mret prog_mret]. apply Hrest; [done|exact Hk].
Qed.

(** *** Directories *)
Definition entry_lines (target path : list Z) (en : ent tree) : list Z :=
  match en with
  | EFree _ => []
  | ELink name _ => named target name (str "dir :" ++ sub_path path name ++ [10])
  | ESub name t => named target name (hit t (sub_path path name)) ++ below target (sub_path path name) t
  end.

Lemma in_and {B} (f : B → Prop) l x : fold_right and True (map f l) → x ∈ l → f x.
Proof. induction l as [|y l IH]; intros Hf Hin; [by apply not_elem_of_nil in Hin|]. destruct Hf as [Hy Hf]. apply elem_of_cons in Hin as [->|Hin]; [done|by apply IH]. Qed.

Lemma in_max {B} (f : B → nat) l x : x ∈ l → (f x ≤ fold_right max 0%nat (map f l))%nat.
Proof. induction l as [|y l IH]; intros Hin; [by apply not_elem_of_nil in Hin|]. cbn. apply elem_of_cons in Hin as [->|Hin]; [lia|]. specialize (IH Hin). lia. Qed.

Lemma sub_plain path name : plain path → name_ok name → plain (sub_path path name).
Proof. intros Hp (Hn & _). apply Forall_app. split; [done|]. constructor; [done|exact Hn]. Qed.

Lemma agrees_at path t : agrees fs path t → fs path = Some (node_of t) ∧ 0 < tree_ino t < 2 ^ 16.
Proof. by destruct t; intros (? & ? & _). Qed.

Lemma node_type t : 0 ≤ fn_type (node_of t) < 2 ^ 15 ∧ fn_ino (node_of t) = tree_ino t.
Proof. by destruct t. Qed.
Lemma node_size path t : agrees fs path t → 0 ≤ fn_size (node_of t) < 2 ^ 64.
Proof. destruct t; cbn; tauto || lia. Qed.
Lemma height_pos t : (1 ≤ height t)%nat.
Proof. destruct t; cbn; lia. Qed.

Lemma finds_all fuel target : plain target → finds fuel target.
Proof.
  intros Htg. induction fuel as [|fuel IH]; intros B Q X k path t e Hag Hp Hh Hn Hk; [pose proof (height_pos t); lia|].
  cbn [find]. destruct (agrees_at _ _ Hag) as [Hx Hi]. pose proof (height_pos t) as H1. destruct (node_type t) as [Hty Hino]. pose proof (node_size _ _ Hag) as Hsz.
  destruct t as [i sz|i|i sz es].
  1,2: eapply run_walk; [exact Hx|lia|]; intros n kk Hfd Hkk; unfold walk_body;
    destruct (stat_fields _ ltac:(rewrite Hino; exact Hi) Hty Hsz) as (Et & Hsi & Hss); rewrite Et.
  - cbn [node_of fn_type fn_ino fn_size] in *. change (T_FILE =? T_FILE) with true. cbv iota. unfold file_line. rewrite Hsi, Hss, Et. apply fs_prints. exact (Hkk 0%nat _ Hk).
  - cbn [node_of fn_type]. change (T_DEVICE =? T_FILE) with false. change (T_DEVICE =? T_DIR) with false. cbv iota. cbn [prog_bind mret prog_mret].
    specialize (Hkk 0%nat [] Hk). by rewrite quiet_nil in Hkk.
  - cbn [agrees] in Hag. destruct Hag as (_ & _ & Hs & Hl & Hes). cbn [height] in Hh, Hn.
    eapply (run_walk_dir _ _ _ _ _ (entry_lines target path) path i sz es); [exact Hx|exact Hi|exact Hs|done|done|lia| | |exact Hk].
    + intros en Hin. pose proof (in_and _ es en Hes Hin) as He. destruct en as [name|name j|name t]; cbn [ent_ok in_use]; [by split|split; [tauto|done]|].
      destruct He as (Hnm & _ & _ & Ht). destruct (agrees_at _ _ Ht) as [_ Hti]. by split.
    + intros B' Q' kk en buf e' Hin Hu Hstr Hfree Hr. pose proof (in_and _ es en Hes Hin) as He.
      pose proof (in_max (λ e, match e with ESub _ t => height t | ELink _ _ => 1%nat | EFree _ => 0%nat end) es en Hin) as Hmx.
      destruct en as [name|name j|name t]; [done| |]; cbn [ent_name entry_lines] in *.
      * destruct He as (Hnm & Hlk & Hj & sz' & ents & Hsz' & Hsub). eapply (run_entry _ _ kk _ target name path buf _ _ []); [exact Hsub|lia|done|done|done|exact Hj|done|exact Hsz'|reflexivity| |done|].
        -- intros Hno. by destruct Hno.
        -- by rewrite app_nil_r.
      * destruct He as (Hnm & Hd1 & Hd2 & Hag'). destruct (agrees_at _ _ Hag') as [Hx' Hi']. destruct (node_type t) as [Hty' Hino']. pose proof (height_pos t).
        eapply (run_entry _ _ kk _ target name path buf _ (hit t (sub_path path name)) (below target (sub_path path name) t));
          [exact Hx'|lia|done|done|done|by rewrite Hino'|exact Hty'|by eapply node_size|by destruct t| | |exact Hr].
        -- intros _ Hdir e2 He2 Hr2. apply (IH B' Q' X kk (sub_path path name) t e2); [done|by apply sub_plain|lia|rewrite He2; lia|]. by destruct t.
        -- intros [[->| ->]|Hnd]; [done|done|]. by destruct t.
Qed.

(** C18: find prints exactly the paths of the files and directories below a directory whose name is the target. If the files below
    [path] are those of the tree, of names and paths that fit, and there are as many free descriptors as directories may be nested, find() ends,
    prints a line for each such entry, in the order of the directories and each directory before what is in it, follows
    every directory but . and .., and closes all that it has opened. *)
Theorem find_correct fuel target path t e :
  agrees fs path t → plain path → plain target → (height t ≤ fuel)%nat → (height t ≤ nfree (e_fds e))%nat →
  frun (λ _ e', e' = quiet (find_lines target path t) e) (λ _ _, False) (find uninit fuel path target) e.
Proof.
  intros Hag Hp Htg Hh Hn. pose proof (finds_all fuel target Htg unit (λ _ e', e' = quiet (find_lines target path t) e) (λ _ _, False) PRet path t e Hag Hp Hh Hn) as Hr.
  rewrite prog_bind_ret in Hr. apply Hr. by apply runs_ret.
Qed.

(** *** find_main() *)
Lemma below_nothing fuel path t : (height t ≤ fuel)%nat → agrees fs path t → below [] path t = [].
Proof.
  revert path t. induction fuel as [|fuel IH]; intros path t Hh Hag; [pose proof (height_pos t); lia|]. destruct t as [| |i sz es]; [done|done|].
  cbn [agrees height] in *. destruct Hag as (_ & _ & _ & _ & Hes). cbn [below]. apply concat_nil. intros k x Hk.
  apply list_elem_of_lookup_2, list_elem_of_In, in_map_iff in Hk as (en & <- & Hin%list_elem_of_In). pose proof (in_and _ es en Hes Hin) as He.
  pose proof (in_max (λ e, match e with ESub _ t => height t | ELink _ _ => 1%nat | EFree _ => 0%nat end) es en Hin) as Hmx.
  assert (Hne : ∀ name l, name_ok name → named [] name l = []) by (intros name l (_ & _ & Hl); unfold named; rewrite decide_False; [done|]; intros ->; cbn in Hl; lia).
  destruct en as [name|name j|name t]; [done|apply Hne, He|]. destruct He as (Hnm & _ & _ & Hag'). rewrite Hne, (IH (sub_path path name) t) by (done || lia). done.
Qed.

Definition is_dir (t : tree) : bool := match t with TDir _ _ _ => true | _ => false end.

(** C40: find with arguments finds nothing. main() passes its arguments on as directories and the empty string as the target: whatever directories are
    named, with whatever files below them, it prints nothing at all and exits with 0. *)
Theorem find_main_prints_nothing fuel argv e :
  argv ≠ [] → Forall (λ path, plain path ∧ ∃ t, agrees fs path t ∧ is_dir t = true ∧ (height t ≤ fuel)%nat ∧ (height t ≤ nfree (e_fds e))%nat) argv →
  frun (λ _ _, False) (λ st e', st = 0 ∧ e' = e) (find_main uninit fuel (str "find" :: argv)) e.
Proof.
  intros Hne Hargs. unfold find_main. cbn [tail]. destruct argv as [|a argv]; [done|]. clear Hne.
  assert (Hall : ∀ l, Forall (λ path, plain path ∧ ∃ t, agrees fs path t ∧ is_dir t = true ∧ (height t ≤ fuel)%nat ∧ (height t ≤ nfree (e_fds e))%nat) l →
    frun (λ (_ : unit) _, False) (λ st e', st = 0 ∧ e' = e) (for_each l (λ a, find uninit fuel a []);; exit_ 0) e); [|by apply (Hall (a :: argv))].
  clear - Huninit. induction l as [|path l IH]; intros Hl; [by apply runs_exit|]. apply Forall_cons in Hl as [(Hp & t & Hag & Hd & Hh & Hn) Hl].
  cbn [for_each]. unfold mbind, prog_mbind. rewrite prog_bind_assoc. apply (finds_all fuel [] ltac:(constructor) _ _ _ _ path t); [done..|].
  replace (find_lines [] path t) with (below [] path t) by (by destruct t). rewrite (below_nothing fuel), quiet_nil by done. by apply IH.
Qed.
End spec.

(** ** A directory "d" with a file "a" and a directory "b" that has a file "a" *)
Definition tree_b : tree := TDir 4 48 [ELink (str ".") 4; ELink (str "..") 2; ESub (str "a") (TFile 5 7)].
Definition tree_d : tree := TDir 2 80 [ELink (str ".") 2; ELink (str "..") 1; ESub (str "a") (TFile 3 100); EFree (replicate 14 0); ESub (str "b") tree_b].
Definition fs_d (path : list Z) : option fnode :=
  if decide (path = str "d") then Some (node_of tree_d)
  else if decide (path = str "d/a") then Some (node_of (TFile 3 100))
  else if decide (path = str "d/b") then Some (node_of tree_b)
  else if decide (path = str "d/b/a") then Some (node_of (TFile 5 7))
  else if decide (path = str "d/." ∨ path = str "d/b/..") then Some (mkNode T_DIR 2 80 [])
  else if decide (path = str "d/..") then Some (mkNode T_DIR 1 1024 [])
  else if decide (path = str "d/b/.") then Some (mkNode T_DIR 4 48 [])
  else None.
Definition fds_d : list (option (list Z * nat)) := replicate 3 (Some (str "console", 0%nat)) ++ replicate 13 None.

Lemma agrees_d : agrees fs_d (str "d") tree_d.
Proof.
  cbn [agrees tree_d tree_b map fold_right]. split_and!; try done; try (cbn; lia).
  all: try (by left). all: try (by right).
  all: try (by (exists 80; eexists; split; [lia|reflexivity])). all: try (by (exists 1024; eexists; split; [lia|reflexivity])). all: try (by (exists 48; eexists; split; [lia|reflexivity])).
  all: unfold name_ok, plain; split_and!; try (cbn; lia); repeat constructor; try discriminate; cbn; lia.
Qed.

Lemma find_correct_witness :
  runs (Env0 := fs_env fs_d) (λ _ e', e' = quiet (str "file:d/a" ++ [10] ++ str "file:d/b/a" ++ [10]) (mkF fds_d (λ _, []))) (λ _ _, False)
    (find (replicate 512 7) 5 (str "d") (str "a")) (mkF fds_d (λ _, [])).
Proof.
  apply (find_correct fs_d (replicate 512 7) eq_refl 5 (str "a") (str "d") tree_d); [apply agrees_d|by repeat constructor|by repeat constructor|cbn; lia|cbn; lia].
Defined.

Lemma find_main_prints_nothing_witness :
  runs (Env0 := fs_env fs_d) (λ _ _, False) (λ st e', st = 0 ∧ e' = mkF fds_d (λ _, []))
    (find_main (replicate 512 7) 5 [str "find"; str "d"]) (mkF fds_d (λ _, [])).
Proof.
  apply (find_main_prints_nothing fs_d (replicate 512 7) eq_refl 5 [str "d"]); [done|]. constructor; [|done].
  split; [by repeat constructor|]. exists tree_d. split_and!; [apply agrees_d|done|cbn; lia|cbn; lia].
Defined.
