(* ===== verification/ShRun.v ===== *)
(** sh.c: running commands.

    runcmd() runs a command in the process that calls it and never returns.  The memory is the one that parsecmd() leaves, in which the words of the
    command are NUL-terminated. *)
From S2P Require Import Prelude Machine CString Printf Uprintf User Ulib Sh.

Definition sh_panic {A} (s : string) : prog A := fprintf 2 (str "%s" ++ [10]) [AStr (Some (str s))];; exit_ 1.

Definition fork1 : prog Z :=
  pid ← fork_;
  if pid =? -1 then sh_panic "fork" else mret pid.

Definition word_string (m : mem) (w : word) : list Z := arg_string m (fst w).

Fixpoint runcmd (m : mem) (c : cmd) : prog unit :=
  match c with
  | EXEC [] => exit_ 1
  | EXEC (w :: argv) =>
    exec_ (word_string m w) (word_string m <$> w :: argv);;
    fprintf 2 (str "exec %s failed" ++ [10]) [AStr (Some (word_string m w))];;
    exit_ 0
  | REDIR c file mode fd =>
    close fd;;
    r ← open (word_string m file) mode;
    if r <? 0 then
      fprintf 2 (str "open %s failed" ++ [10]) [AStr (Some (word_string m file))];;
      exit_ 1
    else runcmd m c
  | LIST lc rc =>
    a ← fork1;
    if a =? 0 then runcmd m lc
    else
      wait_;;
      runcmd m rc
  | PIPE lc rc =>
    r ← pipe_;
    if fst r <? 0 then sh_panic "pipe"
    else
      let p0 := nth 0 (snd r) 0 in
      let p1 := nth 1 (snd r) 0 in
      a ← fork1;
      if a =? 0 then
        close 1;;
        dup p1;;
        close p0;;
        close p1;;
        runcmd m lc
      else
        a ← fork1;
        if a =? 0 then
          close 0;;
          dup p0;;
          close p0;;
          close p1;;
          runcmd m rc
        else
          close p0;;
          close p1;;
          wait_;;
          wait_;;
          exit_ 0
  | BACK c =>
    a ← fork1;
    if a =? 0 then runcmd m c else exit_ 0
  end.

(** getcmd(): the result and the memory, with the line in buf *)
Definition getcmd (m : mem) (buf nbuf : Z) : prog (Z * mem) :=
  fprintf 2 (str "$ ") [];;
  m ← gets (Ulib.memset m buf 0 nbuf) buf nbuf;
  mret (if m buf =? 0 then (-1, m) else (0, m)).

Definition sh_never : prog unit := iter (λ _, mret (inl ())) ().

(** What the child does with the line *)
Definition run_line (m : mem) (buf : Z) : prog unit :=
  let len := Z.of_nat (length (arg_string m buf)) in
  match parsecmd m buf len with
  | Ret (c, m) _ => runcmd m c
  | Panic msg _ =>
    match leftovers m buf len with
    | Some s => fprintf 2 (str "leftovers: %s" ++ [10]) [AStr (Some (arg_string m s))]
    | None => mret ()
    end;;
    sh_panic msg
  | _ => sh_never
  end.

Definition sh_main (m : mem) (buf : Z) : prog unit :=
  iter (λ _,
    fd ← open (str "console") O_RDWR;
    if fd <? 0 then mret (inr ())
    else if 3 <=? fd then close fd;; mret (inr ())
    else mret (inl ())) ();;
  iter (λ m,
    r ← getcmd m buf 100;
    let m := snd r in
    if fst r <? 0 then mret (inr ())
    else if (m buf =? 99) && (m (buf + 1) =? 100) && (m (buf + 2) =? 32) then
      let m := upd m (buf + Z.of_nat (length (arg_string m buf)) - 1) 0 in
      r ← chdir (arg_string m (buf + 3));
      (if r <? 0 then fprintf 2 (str "cannot cd %s" ++ [10]) [AStr (Some (arg_string m (buf + 3)))] else mret ());;
      mret (inl m)
    else
      a ← fork1;
      if a =? 0 then run_line m buf;; mret (inl m)
      else
        wait_;;
        mret (inl m)) m;;
  exit_ 0.

(** ** What a command launches

    [launches p fds n l n']: the process that runs [p] with the descriptors [fds], and the processes that it forks, make the pipes
    [n] to [n' - 1] and run the programs [l], each with its arguments and descriptors.  Files can be opened. *)
Inductive odesc : Type := OConsole | OPipeR (n : nat) | OPipeW (n : nat) | OFile (path : list Z) (mode : Z).
Definition launched : Type := list Z * list (list Z) * list (option odesc).

Inductive launches : prog unit → list (option odesc) → nat → list launched → nat → Prop :=
| l_exec path argv k fds n : launches (PCall (Uexec path argv) k) fds n [(path, argv, fds)] n
| l_exit st fds n : launches (PExit st) fds n [] n
| l_fork k fds n l1 n1 l2 n2 :
    launches (k (0, [])) fds n l1 n1 → (∀ pid, 0 < pid → launches (k (pid, [])) fds n1 l2 n2) → launches (PCall Ufork k) fds n (l1 ++ l2) n2
| l_wait k fds n l n' : (∀ pid, 0 < pid → launches (k (pid, [])) fds n l n') → launches (PCall Uwait k) fds n l n'
| l_pipe k fds r w n l n' :
    first_none fds = Some r → first_none (<[r := Some (OPipeR n)]> fds) = Some w →
    launches (k (0, [Z.of_nat r; Z.of_nat w])) (<[w := Some (OPipeW n)]> (<[r := Some (OPipeR n)]> fds)) (S n) l n' → launches (PCall Upipe k) fds n l n'
| l_close i d k fds n l n' :
    fds !! i = Some (Some d) → launches (k (0, [])) (<[i := None]> fds) n l n' → launches (PCall (Uclose (Z.of_nat i)) k) fds n l n'
| l_dup i d j k fds n l n' :
    fds !! i = Some (Some d) → first_none fds = Some j → launches (k (Z.of_nat j, [])) (<[j := Some d]> fds) n l n' →
    launches (PCall (Udup (Z.of_nat i)) k) fds n l n'
| l_write i d bs k fds n l n' :
    fds !! i = Some (Some d) → launches (k (Z.of_nat (length bs), [])) fds n l n' → launches (PCall (Uwrite (Z.of_nat i) bs) k) fds n l n'
| l_open path mode j k fds n l n' :
    first_none fds = Some j → launches (k (Z.of_nat j, [])) (<[j := Some (OFile path mode)]> fds) n l n' → launches (PCall (Uopen path mode) k) fds n l n'.

(** It is one list. *)
Lemma launches_det p fds n l1 n1 l2 n2 : launches p fds n l1 n1 → launches p fds n l2 n2 → l1 = l2 ∧ n1 = n2.
Proof.
  intros H. revert l2 n2. induction H as [| |k fds n l1 n1 l2 n2 H1 IH1 H2 IH2|k fds n l n' H IH|k fds r w n l n' Hr Hw H IH|i d k fds n l n' Hi H IH|i d j k fds n l n' Hi Hj H IH|i d bs k fds n l n' Hi H IH|path mode j k fds n l n' Hj H IH];
    intros l2' n2' H'; inversion H'; subst; try done.
  - destruct (IH1 _ _ ltac:(eassumption)) as [-> ->]. destruct (IH2 1 ltac:(lia) l3 n2') as [-> ->]; [|done]. eauto with lia.
  - apply (IH 1); [lia|]. eauto with lia.
  - simplify_eq. eauto.
  - simplify_eq. eauto.
  - simplify_eq. eauto.
  - simplify_eq. eauto.
  - simplify_eq. eauto.
Qed.

(** ** The programs of a command

    [expected txt c fds n]: the programs that [c] should run when it starts with the descriptors [fds] and the next pipe is [n];
    [txt] are the words of the command. *)
Fixpoint pipes (c : cmd) : nat :=
  match c with
  | EXEC _ => 0
  | REDIR c _ _ _ | BACK c => pipes c
  | PIPE l r => S (pipes l + pipes r)
  | LIST l r => pipes l + pipes r
  end.

Fixpoint expected (txt : word → list Z) (c : cmd) (fds : list (option odesc)) (n : nat) : list launched :=
  match c with
  | EXEC [] => []
  | EXEC (w :: argv) => [(txt w, txt <$> w :: argv, fds)]
  | REDIR c file mode fd => expected txt c (<[Z.to_nat fd := Some (OFile (txt file) mode)]> fds) n
  | PIPE l r =>
    expected txt l (<[1%nat := Some (OPipeW n)]> fds) (S n) ++ expected txt r (<[0%nat := Some (OPipeR n)]> fds) (S n + pipes l)
  | LIST l r => expected txt l fds n ++ expected txt r fds (n + pipes l)
  | BACK c => expected txt c fds n
  end.

(** Redirections are of standard input and output. *)
Fixpoint std_redirs (c : cmd) : Prop :=
  match c with
  | EXEC _ => True
  | REDIR c _ _ fd => (fd = 0 ∨ fd = 1) ∧ std_redirs c
  | PIPE l r | LIST l r => std_redirs l ∧ std_redirs r
  | BACK c => std_redirs c
  end.

Lemma launches_fork1 (k : Z → prog unit) fds n l1 n1 l2 n2 :
  launches (k 0) fds n l1 n1 → (∀ pid, 0 < pid → launches (k pid) fds n1 l2 n2) → launches (mbind k fork1) fds n (l1 ++ l2) n2.
Proof.
  intros H1 H2. apply (l_fork _ _ _ l1 n1); [done|]. intros pid Hp. cbn [fst]. destruct (Z.eqb_spec pid (-1)); [lia|]. by apply H2.
Qed.

Lemma launches_close i d (k : Z → prog unit) fds n l n' :
  fds !! i = Some (Some d) → launches (k 0) (<[i := None]> fds) n l n' → launches (mbind k (close (Z.of_nat i))) fds n l n'.
Proof. intros Hi Hl. by apply (l_close i d). Qed.

Lemma launches_dup i d j (k : Z → prog unit) fds n l n' :
  fds !! i = Some (Some d) → first_none fds = Some j → launches (k (Z.of_nat j)) (<[j := Some d]> fds) n l n' →
  launches (mbind k (dup (Z.of_nat i))) fds n l n'.
Proof. intros Hi Hj Hl. by apply (l_dup i d j). Qed.

Lemma launches_wait (k : Z → prog unit) fds n l n' :
  (∀ pid, 0 < pid → launches (k pid) fds n l n') → launches (mbind k wait_) fds n l n'.
Proof. intros H. apply l_wait. intros pid Hp. by apply H. Qed.

(** Standard input, output and error and the rest of a table *)
Abbreviation std a b c rest := (Some a :: Some b :: Some c :: rest).

Lemma two_free {A} (rest : list (option A)) (x : A) :
  (2 ≤ nfree rest)%nat →
  ∃ r w, first_none rest = Some r ∧ first_none (<[r := Some x]> rest) = Some w ∧ rest !! r = Some None ∧ rest !! w = Some None ∧ r ≠ w.
Proof.
  intros Hn. destruct (first_none_some rest) as (r & Hr & Er); [lia|]. pose proof (nfree_insert rest r x Er) as Hi.
  destruct (first_none_some (<[r := Some x]> rest)) as (w & Hw & Ew); [lia|].
  assert (r ≠ w). { intros <-. rewrite list_lookup_insert_eq in Ew; [done|]. by eapply lookup_lt_Some. }
  rewrite list_lookup_insert_ne in Ew by done. by exists r, w.
Qed.

Lemma put_both {A} (rest : list (option A)) r w x y :
  rest !! r = Some None → rest !! w = Some None → r ≠ w → <[w := None]> (<[r := None]> (<[w := Some y]> (<[r := Some x]> rest))) = rest.
Proof.
  intros Hr Hw Hne. apply list_eq. intros i. destruct (decide (i = w)) as [->|Hiw].
  - rewrite list_lookup_insert_eq; [done|]. rewrite !length_insert. by eapply lookup_lt_Some.
  - rewrite list_lookup_insert_ne by done. destruct (decide (i = r)) as [->|Hir].
    + rewrite list_lookup_insert_eq; [done|]. rewrite !length_insert. by eapply lookup_lt_Some.
    + by rewrite !list_lookup_insert_ne by done.
Qed.

(** The ends of a new pipe in a child, closed after one of them was put in place of [i]; and in the parent *)
Lemma launches_pipe (k : ans → prog unit) x y z rest r w n l n' :
  first_none rest = Some r → first_none (<[r := Some (OPipeR n)]> rest) = Some w →
  launches (k (0, [Z.of_nat (3 + r); Z.of_nat (3 + w)])) (std x y z (<[w := Some (OPipeW n)]> (<[r := Some (OPipeR n)]> rest))) (S n) l n' →
  launches (mbind k pipe_) (std x y z rest) n l n'.
Proof.
  intros Hr Hw H. apply (l_pipe _ _ (3 + r) (3 + w)); [by cbn; rewrite Hr| |done].
  change (S <$> (S <$> (S <$> first_none (<[r := Some (OPipeR n)]> rest))) = Some (3 + w)%nat). by rewrite Hw.
Qed.

Section pipe.
Context (rest : list (option odesc)) (r w : nat) (u v : odesc).
Hypotheses (Hr : rest !! r = Some None) (Hw : rest !! w = Some None) (Hne : r ≠ w).

Definition with_pipe : list (option odesc) := <[w := Some v]> (<[r := Some u]> rest).

Lemma with_pipe_r : with_pipe !! r = Some (Some u).
Proof. unfold with_pipe. rewrite list_lookup_insert_ne by done. apply list_lookup_insert_eq. by eapply lookup_lt_Some. Qed.

Lemma with_pipe_w : with_pipe !! w = Some (Some v).
Proof. apply list_lookup_insert_eq. rewrite length_insert. by eapply lookup_lt_Some. Qed.

Lemma close_both (p : prog unit) x y z n l n' :
  launches p (std x y z rest) n l n' → launches (close (Z.of_nat (3 + r));; close (Z.of_nat (3 + w));; p) (std x y z with_pipe) n l n'.
Proof.
  intros H. apply (launches_close _ u); [exact with_pipe_r|]. apply (launches_close _ v).
  - change (<[r := None]> with_pipe !! w = Some (Some v)). rewrite list_lookup_insert_ne by done. exact with_pipe_w.
  - change (launches p (std x y z (<[w := None]> (<[r := None]> with_pipe))) n l n'). unfold with_pipe. by rewrite put_both.
Qed.

Lemma close_out (p : prog unit) x y z n l n' :
  launches p (std x v z rest) n l n' →
  launches (close 1;; dup (Z.of_nat (3 + w));; close (Z.of_nat (3 + r));; close (Z.of_nat (3 + w));; p) (std x y z with_pipe) n l n'.
Proof.
  intros H. apply (launches_close 1 y); [done|]. apply (launches_dup _ v 1); [exact with_pipe_w|done|]. by apply close_both.
Qed.

Lemma close_in (p : prog unit) x y z n l n' :
  launches p (std u y z rest) n l n' →
  launches (close 0;; dup (Z.of_nat (3 + r));; close (Z.of_nat (3 + r));; close (Z.of_nat (3 + w));; p) (std x y z with_pipe) n l n'.
Proof.
  intros H. apply (launches_close 0 x); [done|]. apply (launches_dup _ u 0); [exact with_pipe_r|done|]. by apply close_both.
Qed.
End pipe.

Lemma runcmd_launch txt m c x y z rest n :
  (2 ≤ nfree rest)%nat → std_redirs c → (∀ w, w ∈ words c → word_string m w = txt w) →
  launches (runcmd m c) (std x y z rest) n (expected txt c (std x y z rest) n) (n + pipes c).
Proof.
  intros Hfree. revert x y n. induction c as [argv|c IH file mode fd|lc IHl rc IHr|lc IHl rc IHr|c IH]; intros x y n Hred Htxt; cbn [runcmd expected pipes].
  - rewrite Nat.add_0_r. destruct argv as [|w argv]; [apply l_exit|]. cbn [words] in Htxt.
    replace (txt <$> w :: argv) with (word_string m <$> w :: argv).
    + rewrite <- (Htxt w) by left. apply l_exec.
    + apply Forall_fmap_ext_1. by apply Forall_forall.
  - destruct Hred as [Hfd Hred]. cbn [words] in Htxt. rewrite <- (Htxt file) by set_solver.
    assert (∀ w, w ∈ words c → word_string m w = txt w) as Htxt' by set_solver.
    destruct Hfd as [->| ->].
    + apply (launches_close 0 x); [done|]. eapply (l_open _ _ 0); [done|]. by apply IH.
    + apply (launches_close 1 y); [done|]. eapply (l_open _ _ 1); [done|]. by apply IH.
  - destruct Hred as [Hl Hrr]. cbn [words] in Htxt. destruct (two_free rest (OPipeR n) Hfree) as (r & w & Hr & Hw & Er & Ew & Hne).
    apply (launches_pipe _ _ _ _ _ r w); [done|done|]. cbn [fst snd nth]. rewrite Z.ltb_irrefl.
    replace (n + S (pipes lc + pipes rc))%nat with (S n + pipes lc + pipes rc)%nat by lia.
    apply launches_fork1 with (n1 := (S n + pipes lc)%nat).
    { cbn [Z.eqb]. apply close_out; [done..|]. apply IHl; set_solver. }
    intros pid Hp. destruct (Z.eqb_spec pid 0); [lia|]. rewrite <- (app_nil_r (expected txt rc _ _)).
    eapply launches_fork1.
    { cbn [Z.eqb]. apply close_in; [done..|]. apply IHr; set_solver. }
    intros pid' Hp'. destruct (Z.eqb_spec pid' 0); [lia|]. apply close_both; [done..|].
    do 2 (apply launches_wait; intros ? ?). apply l_exit.
  - destruct Hred as [Hl Hrr]. cbn [words] in Htxt. rewrite Nat.add_assoc. eapply launches_fork1.
    { cbn [Z.eqb]. apply IHl; set_solver. }
    intros pid Hp. destruct (Z.eqb_spec pid 0); [lia|]. apply launches_wait. intros ? ?. apply IHr; set_solver.
  - cbn [words] in Htxt. rewrite <- (app_nil_r (expected txt c _ _)). eapply launches_fork1.
    { cbn [Z.eqb]. by apply IH. }
    intros pid Hp. destruct (Z.eqb_spec pid 0); [lia|]. apply l_exit.
Qed.

Lemma launches_print fmt ap (p : prog unit) x y z rest n l n' :
  launches p (std x y z rest) n l n' → launches (fprintf 2 fmt ap;; p) (std x y z rest) n l n'.
Proof.
  intros Hp. unfold fprintf. generalize (formatted fmt ap) as bs. induction bs as [|c bs IH]; [exact Hp|]. by apply (l_write 2 z).
Qed.

Lemma launches_panic msg x y z rest n : launches (sh_panic msg) (std x y z rest) n [] n.
Proof. apply launches_print, l_exit. Qed.

(** ** The commands that the parser returns *)
Definition gives {A} (p : M Z A) (Q : A → Prop) : Prop := ∀ s a s', p s = Ret a s' → Q a.

Lemma gives_bind {A B} (p : M Z A) (f : A → M Z B) P Q : gives p P → (∀ a, P a → gives (f a) Q) → gives (mbind f p) Q.
Proof. intros Hp Hf s b s'. m_unfold. destruct (p s) as [a s1| | |] eqn:E; intros H; try done. by eapply Hf; [eapply Hp|]. Qed.

Lemma gives_skip {A B} (p : M Z A) (f : A → M Z B) Q : (∀ a, gives (f a) Q) → gives (mbind f p) Q.
Proof. intros Hf. apply (gives_bind _ _ (λ _, True)); [done|]. intros a _. apply Hf. Qed.

Lemma gives_ret {A} (a : A) (Q : A → Prop) : Q a → gives (mret a) Q.
Proof. intros HQ s b s'. m_unfold. intros H. by injection H as <- _. Qed.

Lemma gives_none {A} (Q : A → Prop) : gives no_fuel Q.
Proof. done. Qed.

Lemma gives_panic {A} msg (Q : A → Prop) : gives (panic msg) Q.
Proof. done. Qed.

Create HintDb gives discriminated.
#[export] Hint Resolve gives_none gives_panic : gives.

Definition std_fds (rs : list redir) : Prop := Forall (λ r, snd r = 0 ∨ snd r = 1) rs.

Lemma std_redirs_foldl c rs : std_redirs c → std_fds rs → std_redirs (foldl redircmd c rs).
Proof. revert c. induction rs as [|[[w mode] fd] rs IH]; intros c Hc Hrs; [done|]. inversion Hrs; subst. by apply IH. Qed.

Section gives.
Context (m : mem) (es : Z).

Lemma gives_redirs_loop k rs : std_fds rs → gives (parseredirs_loop m es k rs) std_fds.
Proof.
  revert rs. induction k as [|k IH]; intros rs Hrs; cbn [parseredirs_loop]; apply gives_skip; intros [|]; auto using gives_ret with gives.
  apply gives_skip. intros t. apply gives_skip. intros w. destruct (negb _); [auto with gives|]. apply IH.
  repeat case_match; try done; apply Forall_app; (split; [done|]); apply Forall_singleton; cbn; auto.
Qed.

Lemma gives_redirs : gives (parseredirs m es) std_fds.
Proof. apply gives_skip. intros s. apply gives_redirs_loop. constructor. Qed.

Lemma gives_exec_loop k argv rs : std_fds rs → gives (parseexec_loop m es k argv rs) std_redirs.
Proof.
  revert argv rs. induction k as [|k IH]; intros argv rs Hrs; cbn [parseexec_loop]; apply gives_skip; intros [|];
    try (apply gives_ret; by apply std_redirs_foldl); apply gives_skip; intros t;
    (destruct (_ =? 0); [apply gives_ret; by apply std_redirs_foldl|]); (destruct (negb _); [auto with gives|]); cbn zeta;
    (destruct (_ <=? _); [auto with gives|]); [auto with gives|].
  apply (gives_bind _ _ std_fds); [apply gives_redirs|]. intros rs' Hrs'. apply IH. by apply Forall_app.
Qed.

Lemma gives_back k c : std_redirs c → gives (parseback m es k c) std_redirs.
Proof.
  revert c. induction k as [|k IH]; intros c Hc; cbn [parseback]; apply gives_skip; intros [|]; auto using gives_ret with gives.
  apply gives_skip. intros _. by apply IH.
Qed.

Lemma gives_parse fuel :
  gives (parseline m es fuel) std_redirs ∧ gives (parsepipe m es fuel) std_redirs ∧
  gives (parseexec m es fuel) std_redirs ∧ gives (parseblock m es fuel) std_redirs.
Proof.
  induction fuel as [|fuel (IHl & IHp & IHe & IHb)]; [by split_and!|]. cbn [parseline parsepipe parseexec parseblock]. split_and!.
  - apply (gives_bind _ _ std_redirs); [done|]. intros c Hc. apply gives_skip. intros s.
    apply (gives_bind _ _ std_redirs); [by apply gives_back|]. intros c' Hc'. apply gives_skip. intros [|]; [|by apply gives_ret].
    apply gives_skip. intros _. apply (gives_bind _ _ std_redirs); [done|]. intros r Hr. by apply gives_ret.
  - apply (gives_bind _ _ std_redirs); [done|]. intros c Hc. apply gives_skip. intros [|]; [|by apply gives_ret].
    apply gives_skip. intros _. apply (gives_bind _ _ std_redirs); [done|]. intros r Hr. by apply gives_ret.
  - apply gives_skip. intros [|]; [done|]. apply (gives_bind _ _ std_fds); [apply gives_redirs|]. intros rs Hrs.
    apply gives_skip. intros s. by apply gives_exec_loop.
  - apply gives_skip. intros b. destruct (negb b); [auto with gives|]. apply gives_skip. intros _.
    apply (gives_bind _ _ std_redirs); [done|]. intros c Hc. apply gives_skip. intros b'. destruct (negb b'); [auto with gives|].
    apply gives_skip. intros _. apply (gives_bind _ _ std_fds); [apply gives_redirs|]. intros rs Hrs. apply gives_ret.
    by apply std_redirs_foldl.
Qed.
End gives.

Lemma parsecmd_redirs m s len c m' s' : parsecmd m s len = Ret (c, m') s' → std_redirs c.
Proof.
  intros E. apply bind_Ret_inv in E as (c1 & s1 & E1 & E). apply bind_Ret_inv in E as (b & s2 & E2 & E).
  apply bind_Ret_inv in E as (s3 & s4 & E3 & E). destruct (negb _); [done|]. injection E as -> _ _.
  by eapply (proj1 (gives_parse m (s + len) _)).
Qed.

Lemma cstr_cstring n m p len : cstring m p len → len < Z.of_nat n → cstr n m p = map (λ i, m (p + i)) (seqZ 0 len).
Proof.
  intros (Hl & Hz & Hnz) Hn. replace (seqZ 0 len) with (seqZ 0 (Z.of_nat (Z.to_nat len))) by (f_equal; lia). apply cstr_bytes.
  - rewrite length_map, length_seqZ. lia.
  - intros i b Hb. apply list_lookup_fmap_Some in Hb as (j & -> & Hj). apply lookup_seqZ in Hj as [-> Hi]. split; [f_equal; lia|].
    apply Hnz. lia.
  - rewrite length_map, length_seqZ. by replace (p + _) with (p + len) by lia.
Qed.

(** The bytes of a word in the line *)
Definition word_text (m : mem) (w : word) : list Z := map (λ i, m (fst w + i)) (seqZ 0 (snd w - fst w)).

(** C13: the shell runs the programs of the line. For a NUL-terminated line shorter than a page, with standard input, output
    and error open and two more descriptors free, the child that runs it either reports a syntax error and runs
    nothing, or it and its descendants run exactly the programs of the parsed
    command, in order: each has the words of the line as its path and arguments, a program on a side of a pipe has that
    end of the pipe as its standard output or input, redirections are applied after that, and no descriptor of a pipe stays open in any of them. *)
Theorem run_line_launches m buf len x y z rest n :
  cstring m buf len → len < PGSIZE → (2 ≤ nfree rest)%nat →
  ∃ l n', launches (run_line m buf) (std x y z rest) n l n' ∧
    (∀ l2 n2, launches (run_line m buf) (std x y z rest) n l2 n2 → l2 = l ∧ n2 = n') ∧
    ((∃ c m' s', parsecmd m buf len = Ret (c, m') s' ∧ l = expected (word_text m) c (std x y z rest) n ∧ n' = (n + pipes c)%nat) ∨
     (∃ msg s', parsecmd m buf len = Panic msg s' ∧ l = [] ∧ n' = n)).
Proof.
  intros Hs Hlen Hfree. enough (∃ l n', launches (run_line m buf) (std x y z rest) n l n' ∧
    ((∃ c m' s', parsecmd m buf len = Ret (c, m') s' ∧ l = expected (word_text m) c (std x y z rest) n ∧ n' = (n + pipes c)%nat) ∨
     (∃ msg s', parsecmd m buf len = Panic msg s' ∧ l = [] ∧ n' = n))) as (l & n' & Hl & Hd).
  { exists l, n'. split; [done|]. split; [|done]. intros l2 n2 Hl2. by eapply launches_det. }
  unfold run_line. assert (Z.of_nat (length (arg_string m buf)) = len) as ->.
  { unfold arg_string. rewrite (cstr_cstring _ m buf len Hs) by (unfold PGSIZE in *; lia). rewrite length_map, length_seqZ. destruct Hs. lia. }
  destruct (parsecmd_ends m buf len Hs) as [(c & m' & s' & E)|(msg & s' & E)]; rewrite E.
  - exists (expected (word_text m) c (std x y z rest) n), (n + pipes c)%nat. split; [|left; by exists c, m', s'].
    apply runcmd_launch; [done|by eapply parsecmd_redirs|]. intros w Hw.
    destruct (parsecmd_word m buf len c m' s' Hs E w Hw) as (Hb & He & Hc & Hm). unfold word_string, arg_string, word_text.
    rewrite (cstr_cstring _ m' (fst w) (snd w - fst w)) by (done || (unfold PGSIZE in *; lia)). apply map_ext_in. intros i Hi.
    apply list_elem_of_In, elem_of_seqZ in Hi. apply Hm. lia.
  - exists [], n. split; [|right; by exists msg, s']. destruct (leftovers m buf len); [apply launches_print|]; apply launches_panic.
Qed.

(** The shell's own descriptors: the console three times *)
Definition sh_fds : list (option odesc) := repeat (Some OConsole) 3 ++ repeat None 13.

Lemma run_line_launches_witness :
  launches (run_line line1 0) sh_fds 0
    [(str "cat", [str "cat"], [Some (OFile (str "x") O_RDONLY); Some (OPipeW 0); Some OConsole] ++ repeat None 13);
     (str "wc", [str "wc"], [Some (OPipeR 0); Some OConsole; Some OConsole] ++ repeat None 13)] 1.
Proof.
  destruct (run_line_launches line1 0 8 OConsole OConsole OConsole (repeat None 13) 0) as (l & n' & Hl & _ & [(c & m' & s' & E & -> & ->)|(msg & s' & E & _ & _)]).
  - exact line1_ok.
  - unfold PGSIZE. lia.
  - cbn. lia.
  - rewrite parsecmd1 in E. injection E as <- _ _. exact Hl.
  - rewrite parsecmd1 in E. discriminate.
Defined.
