(* ===== verification/Coreutils.v ===== *)
(** The small user programs: cat, echo, wc, grep's main(), rm, mkdir, ln, kill, sleep, zombie, init, stressfs, forktest, pingpong.

    main() has the strings of its argument vector.  A char array is the list of its bytes; read() stores at its start. *)
From S2P Require Import Prelude Machine CString Printf Uprintf Grep User Ulib.

Definition fill (bs buf : list Z) : list Z := bs ++ drop (length bs) buf.
Definition argc (argv : list (list Z)) : Z := Z.of_nat (length argv).

(** for(i = 1; i < argc; i++) over the rest of the arguments, which a break leaves *)
Fixpoint for_args (argv : list (list Z)) (body : list Z → prog bool) : prog unit :=
  match argv with
  | [] => mret ()
  | a :: argv => b ← body a; if (b : bool) then for_args argv body else mret ()
  end.

(** ** cat.c *)
Definition cat (buf : list Z) (fd : Z) : prog (list Z) :=
  r ← iter (λ buf,
    r ← read fd 512;
    let n := fst r in
    let buf := fill (snd r) buf in
    if 0 <? n then
      w ← write 1 (take (Z.to_nat n) buf);
      if negb (w =? n) then fprintf 2 (str "cat: write error" ++ [10]) [];; exit_ 1
      else mret (inl buf)
    else mret (inr (n, buf))) buf;
  if fst r <? 0 then fprintf 2 (str "cat: read error" ++ [10]) [];; exit_ 1
  else mret (snd r).

Fixpoint cat_args (buf : list Z) (argv : list (list Z)) : prog unit :=
  match argv with
  | [] => exit_ 0
  | a :: argv =>
    fd ← open a 0;
    if fd <? 0 then fprintf 2 (str "cat: cannot open %s" ++ [10]) [AStr (Some a)];; exit_ 1
    else
      buf ← cat buf fd;
      close fd;;
      cat_args buf argv
  end.

Definition cat_main (argv : list (list Z)) : prog unit :=
  let buf := replicate 512 0 in
  if argc argv <=? 1 then cat buf 0;; exit_ 0
  else cat_args buf (tail argv).

(** ** wc.c *)
Record counts := mkCounts { wc_l : Z; wc_w : Z; wc_c : Z; inword : bool }.
Definition wc_set : list Z := [32; 13; 9; 10; 11].   (* " \r\t\n\v" *)
Definition wc_char (s : counts) (b : Z) : counts :=
  let c := s32 (wc_c s + 1) in
  let l := if b =? 10 then s32 (wc_l s + 1) else wc_l s in
  match strchr wc_set b with
  | Some _ => mkCounts l (wc_w s) c false
  | None => if inword s then mkCounts l (wc_w s) c true else mkCounts l (s32 (wc_w s + 1)) c true
  end.

Definition wc (buf : list Z) (fd : Z) (name : list Z) : prog (list Z) :=
  r ← iter (λ s,
    let '(buf, cnt) := s in
    r ← read fd 512;
    let n := fst r in
    let buf := fill (snd r) buf in
    if 0 <? n then mret (inl (buf, foldl wc_char cnt (take (Z.to_nat n) buf)))
    else mret (inr (n, buf, cnt))) (buf, mkCounts 0 0 0 false);
  let '(n, buf, cnt) := r in
  if n <? 0 then fprintf 1 (str "wc: read error" ++ [10]) [];; exit_ 1
  else
    fprintf 1 (str "%d %d %d %s" ++ [10]) [AInt (wc_l cnt); AInt (wc_w cnt); AInt (wc_c cnt); AStr (Some name)];;
    mret buf.

Fixpoint wc_args (buf : list Z) (argv : list (list Z)) : prog unit :=
  match argv with
  | [] => exit_ 0
  | a :: argv =>
    fd ← open a 0;
    if fd <? 0 then fprintf 1 (str "wc: cannot open %s" ++ [10]) [AStr (Some a)];; exit_ 1
    else
      buf ← wc buf fd a;
      close fd;;
      wc_args buf argv
  end.

Definition wc_main (argv : list (list Z)) : prog unit :=
  let buf := replicate 512 0 in
  if argc argv <=? 1 then wc buf 0 [];; exit_ 0
  else wc_args buf (tail argv).

(** ** grep.c: grep() with its system calls; the part of the buffer in use is the state of its loop. *)
Fixpoint grep_write (fuel : nat) (pattern p : list Z) : prog (list Z) :=
  match fuel with
  | O => mret p
  | S fuel =>
    match Grep.strchr p NL with
    | Some (line, rest) =>
      (if re_match pattern line then write 1 (line ++ [NL]);; mret () else mret ());;
      grep_write fuel pattern rest
    | None => mret p
    end
  end.

Definition grep_fd (pattern : list Z) (fd : Z) : prog unit :=
  iter (λ p,
    r ← read fd (BUFSIZE - Z.of_nat (length p) - 1);
    if 0 <? fst r then
      let p := p ++ snd r in
      p ← grep_write (S (length p)) pattern p;
      mret (inl p)
    else mret (inr ())) [].

Definition grep_main (argv : list (list Z)) : prog unit :=
  match tail argv with
  | [] => fprintf 2 (str "usage: grep pattern [file ...]" ++ [10]) [];; exit_ 1
  | [pattern] => grep_fd pattern 0;; exit_ 0
  | pattern :: files =>
    for_each files (λ a,
      fd ← open a 0;
      if fd <? 0 then fprintf 1 (str "grep: cannot open %s" ++ [10]) [AStr (Some a)];; exit_ 1
      else grep_fd pattern fd;; close fd;; mret ());;
    exit_ 0
  end.

(** ** echo.c *)
Fixpoint echo_args (argv : list (list Z)) : prog unit :=
  match argv with
  | [] => mret ()
  | a :: argv =>
    write 1 a;;
    (match argv with [] => write 1 [10] | _ => write 1 (str " ") end);;
    echo_args argv
  end.
Definition echo_main (argv : list (list Z)) : prog unit := echo_args (tail argv);; exit_ 0.

(** ** rm.c, mkdir.c, ln.c, kill.c, sleep.c, zombie.c *)
Definition rm_main (argv : list (list Z)) : prog unit :=
  if argc argv <? 2 then fprintf 2 (str "Usage: rm files..." ++ [10]) [];; exit_ 1
  else
    for_args (tail argv) (λ a,
      r ← unlink a;
      if r <? 0 then fprintf 2 (str "rm: %s failed to delete" ++ [10]) [AStr (Some a)];; mret false
      else mret true);;
    exit_ 0.

Definition mkdir_main (argv : list (list Z)) : prog unit :=
  if argc argv <? 2 then fprintf 2 (str "Usage: mkdir files..." ++ [10]) [];; exit_ 1
  else
    for_args (tail argv) (λ a,
      r ← mkdir a;
      if r <? 0 then fprintf 2 (str "mkdir: %s failed to create" ++ [10]) [AStr (Some a)];; mret false
      else mret true);;
    exit_ 0.

Definition ln_main (argv : list (list Z)) : prog unit :=
  match argv with
  | [_; old; new] =>
    r ← link old new;
    (if r <? 0 then fprintf 2 (str "link %s %s: failed" ++ [10]) [AStr (Some old); AStr (Some new)] else mret ());;
    exit_ 0
  | _ => fprintf 2 (str "Usage: ln old new" ++ [10]) [];; exit_ 1
  end.

Definition kill_main (argv : list (list Z)) : prog unit :=
  if argc argv <? 2 then fprintf 2 (str "usage: kill pid..." ++ [10]) [];; exit_ 1
  else for_each (tail argv) (λ a, kill (atoi a);; mret ());; exit_ 0.

Definition sleep_main (argv : list (list Z)) : prog unit :=
  match tail argv with
  | a :: _ => sleep_ (atoi a);; exit_ 0
  | [] => write 1 (str "error" ++ [10]);; exit_ 0
  end.

Definition zombie_main : prog unit :=
  pid ← fork_;
  (if 0 <? pid then sleep_ 5;; mret () else mret ());;
  exit_ 0.

(** ** init.c *)
Definition O_RDWR : Z := 0x002.
Definition O_CREATE : Z := 0x200.
Definition CONSOLE : Z := 1.

Definition init_main : prog unit :=
  fd ← open (str "console") O_RDWR;
  (if fd <? 0 then mknod (str "console") CONSOLE 0;; open (str "console") O_RDWR;; mret () else mret ());;
  dup 0;;
  dup 0;;
  iter (λ _ : unit,
    fprintf 1 (str "init: starting sh" ++ [10]) [];;
    pid ← fork_;
    if pid <? 0 then fprintf 1 (str "init: fork failed" ++ [10]) [];; exit_ 1
    else if pid =? 0 then
      exec_ (str "sh") [str "sh"];;
      fprintf 1 (str "init: exec sh failed" ++ [10]) [];;
      exit_ 1
    else
      iter (λ _ : unit,
        wpid ← wait_;
        if wpid =? pid then mret (inr ())
        else if wpid <? 0 then fprintf 1 (str "init: wait returned an error" ++ [10]) [];; exit_ 1
        else mret (inl ())) ();;
      mret (inl ())) ().

(** ** stressfs.c, forktest.c *)
Fixpoint stress_forks (k : nat) (i : Z) : prog Z :=
  match k with
  | O => mret i
  | S k => pid ← fork_; if 0 <? pid then mret i else stress_forks k (i + 1)
  end.

Definition stressfs_main : prog unit :=
  fprintf 1 (str "stressfs starting" ++ [10]) [];;
  let data := replicate 512 97 in
  i ← stress_forks 4 0;
  fprintf 1 (str "write %d" ++ [10]) [AInt i];;
  let path := str "stressfs" ++ [u8 (48 + i)] in
  fd ← open path (Z.lor O_CREATE O_RDWR);
  for_each (seqZ 0 20) (λ _, write fd data;; mret ());;
  close fd;;
  fprintf 1 (str "read" ++ [10]) [];;
  fd ← open path O_RDONLY;
  for_each (seqZ 0 20) (λ _, read fd 512;; mret ());;
  close fd;;
  wait_;;
  exit_ 0.

Definition FORKTEST_N : Z := 1000.
Definition forktest : prog unit :=
  write 1 (str "fork test" ++ [10]);;
  n ← iter (λ n,
    if n <? FORKTEST_N then
      pid ← fork_;
      if pid <? 0 then mret (inr n)
      else if pid =? 0 then exit_ 0
      else mret (inl (n + 1))
    else mret (inr n)) 0;
  if n =? FORKTEST_N then write 1 (str "fork claimed to work N times!" ++ [10]);; exit_ 1
  else
    iter (λ n,
      if 0 <? n then
        r ← wait_;
        if r <? 0 then write 1 (str "wait stopped early" ++ [10]);; exit_ 1 else mret (inl (n - 1))
      else mret (inr ())) n;;
    r ← wait_;
    if negb (r =? -1) then write 1 (str "wait got too many" ++ [10]);; exit_ 1
    else write 1 (str "fork test OK" ++ [10]);; mret ().
Definition forktest_main : prog unit := forktest;; exit_ 0.

(** ** pingpong.c *)
(** [uninit] is what p and p2 hold when pipe() fails. *)
Definition pingpong_main (uninit : Z) : prog unit :=
  p ← pipe_;
  p2 ← pipe_;
  let rd p := nth 0 (snd p) uninit in
  let wr p := nth 1 (snd p) uninit in
  pid ← fork_;
  if negb (pid =? 0) then
    write (wr p) (str " ");;
    read (rd p2) 1;;
    me ← getpid;
    fprintf 1 (str "<%d>:received pong" ++ [10]) [AInt me];;
    exit_ 0
  else
    read (rd p) 1;;
    me ← getpid;
    fprintf 1 (str "<%d>:received ping" ++ [10]) [AInt me];;
    write (wr p2) (str " ");;
    exit_ 0.
