(* ===== verification/CoreutilsSpec.v ===== *)
(** cat, wc and grep on files: what they print.

    The environment has the files of the system, by path, and for each descriptor what is left to read.  read() gives some of that, at most what was asked for, and
    nothing only at the end; open() fails when there is no file. *)
From S2P Require Import Prelude Machine CString Printf Uprintf Grep User Ulib Coreutils.

Record files := mkFiles { f_left : list (option (list Z)); f_out : Z → list Z }.
Definition set_left (l : list (option (list Z))) (e : files) : files := mkFiles l (f_out e).
Definition put (fd : Z) (bs : list Z) (e : files) : files := mkFiles (f_left e) (upd (f_out e) fd (f_out e fd ++ bs)).

Inductive file_answers (fs : list Z → option (list Z)) : ucall → files → ans → files → Prop :=
| fa_open path mode l i e : fs path = Some l → first_none (f_left e) = Some i →
    file_answers fs (Uopen path mode) e (Z.of_nat i, []) (set_left (<[i := Some l]> (f_left e)) e)
| fa_missing path mode e : fs path = None → file_answers fs (Uopen path mode) e (-1, []) e
| fa_read i l n k e : f_left e !! i = Some (Some l) → (0 < k)%nat → Z.of_nat k ≤ n → (k ≤ length l)%nat →
    file_answers fs (Uread (Z.of_nat i) n) e (Z.of_nat k, take k l) (set_left (<[i := Some (drop k l)]> (f_left e)) e)
| fa_eof i n e : f_left e !! i = Some (Some []) → file_answers fs (Uread (Z.of_nat i) n) e (0, []) e
| fa_write fd bs e : file_answers fs (Uwrite fd bs) e (Z.of_nat (length bs), []) (put fd bs e)
| fa_close i l e : f_left e !! i = Some (Some l) → file_answers fs (Uclose (Z.of_nat i)) e (0, []) (set_left (<[i := None]> (f_left e)) e).

Lemma put_put fd a b e : put fd b (put fd a e) = put fd (a ++ b) e.
Proof. unfold put. cbn. by rewrite upd_eq, upd_upd, app_assoc. Qed.

Lemma put_nil fd e : put fd [] e = e.
Proof. unfold put. rewrite app_nil_r, upd_id. by destruct e. Qed.

(** The environment after descriptor [i] was read to its end *)
Definition at_end (i : nat) (e : files) : files := set_left (<[i := Some []]> (f_left e)) e.

Section env.
Context (fs : list Z → option (list Z)).
#[local] Instance files_env : Env files := {| answers := file_answers fs; spawned _ _ e := e |}.
Context {A : Type} (Q : A → files → Prop) (X : Z → files → Prop).

Lemma run_write fd bs k e : runs Q X (k (Z.of_nat (length bs), [])) (put fd bs e) → runs Q X (PCall (Uwrite fd bs) k) e.
Proof. apply runs_one; [constructor|]. intros b e2 Hb. by inversion Hb; subst. Qed.

Lemma run_printf fd fmt ap (k : unit → prog A) e :
  runs Q X (k ()) (put fd (formatted fmt ap) e) → runs Q X (prog_bind k (fprintf fd fmt ap)) e.
Proof.
  unfold fprintf. generalize (formatted fmt ap) as l. intros l. revert e. induction l as [|c l IH]; intros e Hr; [by rewrite put_nil in Hr|].
  cbn. apply run_write, IH. by rewrite put_put.
Qed.

Lemma run_read i l n k e :
  f_left e !! i = Some (Some l) → 0 < n →
  (l = [] → runs Q X (k (0, [])) e) →
  (∀ a b, l = a ++ b → a ≠ [] → Z.of_nat (length a) ≤ n →
     runs Q X (k (Z.of_nat (length a), a)) (set_left (<[i := Some b]> (f_left e)) e)) →
  runs Q X (PCall (Uread (Z.of_nat i) n) k) e.
Proof.
  intros Hi Hn H0 H1. apply runs_call.
  - destruct l as [|c l]; [by exists (0, []), e; constructor|]. eexists _, _. apply (fa_read _ i (c :: l) n 1); [done|lia|lia|cbn; lia].
  - intros a e' Ha. inversion Ha; subst.
    + assert (i0 = i) as -> by lia. rewrite Hi in *. simplify_eq. replace (Z.of_nat k0) with (Z.of_nat (length (take k0 l0))) by (rewrite length_take; lia).
      apply H1; [by rewrite take_drop|intros E; apply (f_equal length) in E; rewrite length_take in E; cbn in E; lia|rewrite length_take; lia].
    + assert (i0 = i) as -> by lia. rewrite Hi in *. simplify_eq. by apply H0.
Qed.

Lemma run_opened path mode k e l i :
  fs path = Some l → first_none (f_left e) = Some i → runs Q X (k (Z.of_nat i, [])) (set_left (<[i := Some l]> (f_left e)) e) →
  runs Q X (PCall (Uopen path mode) k) e.
Proof.
  intros Hp Hf. apply runs_one; [by constructor|]. intros b e2 Hb. inversion Hb; simplify_eq. done.
Qed.

Lemma run_missing path mode k e : fs path = None → runs Q X (k (-1, [])) e → runs Q X (PCall (Uopen path mode) k) e.
Proof. intros Hp. apply runs_one; [by constructor|]. intros b e2 Hb. inversion Hb; simplify_eq. done. Qed.

Lemma run_close0 i l k e :
  f_left e !! i = Some (Some l) → runs Q X (k (0, [])) (set_left (<[i := None]> (f_left e)) e) → runs Q X (PCall (Uclose (Z.of_nat i)) k) e.
Proof.
  intros Hi. apply runs_one; [by econstructor|]. intros b e2 Hb. inversion Hb; subst. assert (i0 = i) as -> by lia. done.
Qed.

Lemma run_grep_write fuel pattern p out left out' (k : list Z → prog A) :
  grep_lines fuel pattern p out = Some (left, out') →
  ∃ o, out' = out ++ o ∧ ∀ e, runs Q X (k left) (put 1 o e) → runs Q X (prog_bind k (grep_write fuel pattern p)) e.
Proof.
  revert p out. induction fuel as [|fuel IH]; intros p out; cbn [grep_lines grep_write]; [done|].
  destruct (Grep.strchr p NL) as [[line rest]|].
  - intros H. destruct (IH _ _ H) as (o & -> & Ho). destruct (re_match pattern line).
    + exists ((line ++ [NL]) ++ o). split; [by rewrite <- !app_assoc|]. intros e Hr. cbn. apply run_write, Ho. by rewrite put_put.
    + exists o. split; [done|]. intros e Hr. cbn. by apply Ho.
  - intros [= -> ->]. exists []. split; [by rewrite app_nil_r|]. intros e Hr. by rewrite put_nil in Hr.
Qed.
End env.

Section loops.
Context (fs : list Z → option (list Z)).
#[local] Instance loops_env : Env files := files_env fs.
Context {A : Type} (Q : A → files → Prop) (X : Z → files → Prop).

(** A loop that reads [l] to its end, a chunk in each round: [P] is its invariant. *)
Lemma run_drain {T B} (f : T → prog (T + B)) (K : B → prog A) i (P : T → list Z → files → Prop) l s e :
  P s l e → f_left e !! i = Some (Some l) →
  (∀ s l e, P s l e → f_left e !! i = Some (Some l) → ∃ n g, 0 < n ∧ f s = PCall (Uread (Z.of_nat i) n) g ∧
     (l = [] → runs (λ r e, match r with inl _ => False | inr b => runs Q X (K b) e end) X (g (0, [])) e) ∧
     (∀ a b, l = a ++ b → a ≠ [] → runs (λ r e, match r with inl s => P s b e ∧ f_left e !! i = Some (Some b) | inr _ => False end) X
        (g (Z.of_nat (length a), a)) (set_left (<[i := Some b]> (f_left e)) e))) →
  runs Q X (PIter T B f s K) e.
Proof.
  intros HP Hi Hf. remember (length l) as len eqn:El. revert l s e HP Hi El. induction (lt_wf len) as [len _ IH]. intros l s e HP Hi ->.
  apply runs_loop. destruct (Hf s l e HP Hi) as (n & g & Hn & -> & H0 & H1). eapply run_read; [exact Hi|done| |].
  - intros El. eapply runs_mono; [by apply H0| |done]. by intros [s'|b] e'.
  - intros a b -> Ha _. eapply runs_mono; [by apply (H1 a b)| |done]. intros [s'|x] e' He; [|done]. destruct He as [HP' Hi'].
    apply (IH (length b)) with (l := b); [|done|done|done]. rewrite length_app. destruct a; [done|cbn; lia].
Qed.

Lemma left_set i b e l : f_left e !! i = Some (Some l) → f_left (set_left (<[i := Some b]> (f_left e)) e) !! i = Some (Some b).
Proof. intros Hi. apply list_lookup_insert_eq. by eapply lookup_lt_Some. Qed.

(** What the loops keep: the output so far, and that only the descriptor changes *)
Definition so_far (i : nat) (e0 : files) (out l : list Z) (e : files) : Prop := e = put 1 out (set_left (<[i := Some l]> (f_left e0)) e0).

Lemma so_far_start i e l : f_left e !! i = Some (Some l) → so_far i e [] l e.
Proof. intros Hi. unfold so_far. rewrite put_nil, list_insert_id by done. by destruct e. Qed.

Lemma so_far_next i e0 out out' l l' e :
  so_far i e0 out l e → so_far i e0 (out ++ out') l' (put 1 out' (set_left (<[i := Some l']> (f_left e)) e)).
Proof. intros ->. unfold so_far. rewrite <- put_put. unfold put, set_left. cbn. by rewrite list_insert_insert_eq. Qed.

Lemma run_cat i l buf (k : list Z → prog A) e :
  f_left e !! i = Some (Some l) → (∀ buf', runs Q X (k buf') (put 1 l (at_end i e))) → runs Q X (prog_bind k (cat buf (Z.of_nat i))) e.
Proof.
  intros Hi Hk. cbn. apply (run_drain _ _ i (λ _ l' e', ∃ out, l = out ++ l' ∧ so_far i e out l' e') l); [|done|].
  - exists []. split; [done|]. by apply so_far_start.
  - intros buf' l' e' (out & -> & He) Hl'. eexists 512, _. split; [lia|]. split; [reflexivity|]. split.
    + intros ->. cbn. apply runs_ret. cbn. rewrite app_nil_r in Hk. rewrite He. apply Hk.
    + intros a b -> Ha. cbn. destruct (Z.ltb_spec 0 (Z.of_nat (length a))); [|destruct a; [done|cbn in *; lia]].
      apply run_write. unfold fill. rewrite Nat2Z.id, take_app_length, Z.eqb_refl. cbn. apply runs_ret. split; [|by eapply left_set].
      exists (out ++ a). split; [by rewrite app_assoc|]. by eapply so_far_next.
Qed.

Lemma run_wc i l buf name (k : list Z → prog A) e :
  f_left e !! i = Some (Some l) →
  (∀ buf', let s := foldl wc_char (mkCounts 0 0 0 false) l in
     runs Q X (k buf') (put 1 (formatted (str "%d %d %d %s" ++ [10]) [AInt (wc_l s); AInt (wc_w s); AInt (wc_c s); AStr (Some name)]) (at_end i e))) →
  runs Q X (prog_bind k (wc buf (Z.of_nat i) name)) e.
Proof.
  intros Hi Hk. cbn. apply (run_drain _ _ i (λ s l' e', ∃ seen, l = seen ++ l' ∧ snd s = foldl wc_char (mkCounts 0 0 0 false) seen ∧ so_far i e [] l' e') l); [|done|].
  - exists []. split; [done|]. split; [done|]. by apply so_far_start.
  - intros [buf' cnt] l' e' (seen & -> & Hc & He) Hl'. eexists 512, _. split; [lia|]. split; [reflexivity|]. split.
    + intros ->. cbn. apply runs_ret. cbn in Hc |- *. rewrite prog_bind_assoc. apply run_printf. cbn. rewrite app_nil_r in Hk.
      rewrite Hc. specialize (Hk (fill [] buf')). unfold so_far in He. rewrite put_nil in He. rewrite He. exact Hk.
    + intros a b -> Ha. cbn. destruct (Z.ltb_spec 0 (Z.of_nat (length a))); [|destruct a; [done|cbn in *; lia]]. cbn. apply runs_ret.
      split; [|by eapply left_set]. exists (seen ++ a). split; [by rewrite app_assoc|]. cbn in Hc |- *. unfold fill.
      rewrite Nat2Z.id, take_app_length, foldl_app, Hc. split; [done|]. pose proof (so_far_next i e [] [] (a ++ b) b e' He) as Hn. by rewrite put_nil in Hn.
Qed.

Lemma run_grep i l pattern (k : unit → prog A) e :
  f_left e !! i = Some (Some l) → nonul l → Z.of_nat (longest 0 l) < BUFSIZE - 1 →
  runs Q X (k ()) (put 1 (matching pattern [] l) (at_end i e)) → runs Q X (prog_bind k (grep_fd pattern (Z.of_nat i))) e.
Proof.
  intros Hi Hnul Hlong Hk. cbn. apply (run_drain _ _ i (λ p l' e', ∃ out, matching pattern [] l = out ++ matching pattern p l' ∧ nonul p ∧ nonl p ∧ nonul l' ∧
    Z.of_nat (longest (length p) l') < BUFSIZE - 1 ∧ so_far i e out l' e') l); [|done|].
  - exists []. split_and!; [done|constructor|constructor|done|done|by apply so_far_start].
  - intros p l' e' (out & Hm & Hp & Hn & Hl & Hg & He) Hl'. pose proof (longest_ge (length p) l') as Hge.
    eexists (BUFSIZE - Z.of_nat (length p) - 1), _. split; [lia|]. split; [reflexivity|]. split.
    + intros ->. cbn. apply runs_ret. rewrite Hm in Hk. cbn [matching] in Hk. rewrite app_nil_r in Hk. by rewrite He.
    + intros a b -> Ha. cbn -[grep_write]. destruct (Z.ltb_spec 0 (Z.of_nat (length a))); [|destruct a; [done|cbn in *; lia]].
      apply Forall_app in Hl as [Hla Hlb].
      destruct (grep_lines_spec (S (length (p ++ a))) pattern (p ++ a) [] b) as (left & o & E & Hnl & Hnn & Hmm & Hlg); [by apply Forall_app|lia|].
      pose proof (longest_run 0 p (a ++ b) Hn) as Hlr. rewrite <- app_assoc in Hlg, Hmm. rewrite matching_run in Hmm by done. cbn [app Nat.add] in *.
      match goal with |- runs ?Q ?X _ _ => destruct (run_grep_write fs Q X _ _ _ _ _ _ (λ p, PRet (inl p)) E) as (o' & Ho & Hw) end.
      cbn [app] in Ho. subst o'. apply Hw, runs_ret. split; [|by eapply left_set]. exists (out ++ o).
      split_and!; [|done|done|done|lia|by eapply so_far_next]. by rewrite Hm, <- app_assoc, <- Hmm.
Qed.
End loops.

(** ** What wc counts *)
Definition count_lines (l : list Z) : Z := Z.of_nat (length (filter (λ c, c = 10) l)).
Definition blank (c : Z) : bool := existsb (Z.eqb c) wc_set.
(** A word starts at [i]: there is a byte that is not blank, and a blank or nothing before it. *)
Definition word_at (l : list Z) (i : nat) : bool :=
  match l !! i with
  | Some c => negb (blank c) && (match i with O => true | S j => default true (blank <$> l !! j) end)
  | None => false
  end.
Definition count_words (l : list Z) : Z := Z.of_nat (length (List.filter (word_at l) (seq 0 (length l)))).

Lemma strchr_blank b : (match strchr wc_set b with Some _ => true | None => false end) = blank b.
Proof.
  unfold blank, wc_set. cbn [strchr existsb]. rewrite !(Z.eqb_sym b). destruct (32 =? b), (13 =? b), (9 =? b), (10 =? b), (11 =? b); done.
Qed.

Lemma s32_succ x : s32 (s32 x + 1) = s32 (x + 1).
Proof.
  unfold s32. f_equal.
  replace ((x + 2 ^ 31) mod 2 ^ 32 - 2 ^ 31 + 1 + 2 ^ 31) with ((x + 2 ^ 31) mod 2 ^ 32 + 1) by lia.
  rewrite Zplus_mod_idemp_l. f_equal. lia.
Qed.

Lemma word_at_app l c i : (i < length l)%nat → word_at (l ++ [c]) i = word_at l i.
Proof. intros Hi. unfold word_at. rewrite lookup_app_l by done. destruct i as [|j]; [done|]. by rewrite lookup_app_l by lia. Qed.

Lemma count_words_app l c :
  count_words (l ++ [c]) = count_words l + (if negb (blank c) && default true (blank <$> last l) then 1 else 0).
Proof.
  unfold count_words. rewrite length_app, seq_app, List.filter_app, length_app. cbn [length seq Nat.add].
  rewrite (List.filter_ext_in (word_at (l ++ [c])) (word_at l)) by (intros i Hi; apply in_seq in Hi; apply word_at_app; lia).
  assert (word_at (l ++ [c]) (length l) = negb (blank c) && default true (blank <$> last l)) as E.
  { unfold word_at. rewrite lookup_app_r, Nat.sub_diag by lia. cbn. rewrite last_lookup. destruct l as [|d l]; [done|]. cbn [length pred].
    by rewrite lookup_app_l by (cbn; lia). }
  cbn [List.filter]. rewrite E. destruct (negb _ && _); cbn [length]; lia.
Qed.

Lemma count_lines_app l c : count_lines (l ++ [c]) = count_lines l + (if c =? 10 then 1 else 0).
Proof.
  unfold count_lines. rewrite filter_app, length_app, filter_cons, filter_nil.
  destruct (Z.eqb_spec c 10); [rewrite decide_True by done|rewrite decide_False by done]; cbn; lia.
Qed.

Lemma wc_counts l :
  foldl wc_char (mkCounts 0 0 0 false) l =
    mkCounts (s32 (count_lines l)) (s32 (count_words l)) (s32 (Z.of_nat (length l))) (negb (default true (blank <$> last l))).
Proof.
  induction l as [|c l IH] using rev_ind; [done|]. rewrite foldl_app, IH. cbn [foldl]. unfold wc_char. cbn [wc_l wc_w wc_c inword].
  rewrite count_lines_app, count_words_app, last_snoc, length_app, Nat2Z.inj_add, !s32_succ. cbn [length fmap option_fmap option_map default].
  pose proof (strchr_blank c) as Hb.
  replace (if c =? 10 then s32 (count_lines l + 1) else s32 (count_lines l)) with (s32 (count_lines l + (if c =? 10 then 1 else 0)))
    by (destruct (c =? 10); f_equal; lia).
  destruct (strchr wc_set c); rewrite <- Hb; cbn [negb andb]; [by rewrite Z.add_0_r|].
  destruct (default true (blank <$> last l)); cbn; [done|by rewrite Z.add_0_r].
Qed.

(** ** The programs on their arguments *)
(** The files that are there, up to the first that is not *)
Fixpoint found (fs : list Z → option (list Z)) (paths : list (list Z)) : list (list Z * list Z) * option (list Z) :=
  match paths with
  | [] => ([], None)
  | p :: paths =>
    match fs p with
    | Some l => let '(r, missing) := found fs paths in ((p, l) :: r, missing)
    | None => ([], Some p)
    end
  end.
Definition status (missing : option (list Z)) : Z := match missing with Some _ => 1 | None => 0 end.
(** What a program reports about the file it could not open *)
Definition report (fmt : string) (missing : option (list Z)) : list Z :=
  match missing with Some p => formatted (str fmt ++ [10]) [AStr (Some p)] | None => [] end.

Definition opened (i : nat) (l : list Z) (e : files) : files := set_left (<[i := Some l]> (f_left e)) e.

Lemma first_none_at {A} (l : list (option A)) i : first_none l = Some i → l !! i = Some None.
Proof.
  revert i. induction l as [|[x|] l IH]; intros i; cbn; [done| |by intros [= <-]].
  destruct (first_none l) as [j|]; cbn; [|done]. intros [= <-]. by apply IH.
Qed.

Lemma opened_at i l e : first_none (f_left e) = Some i → f_left (opened i l e) !! i = Some (Some l).
Proof. intros Hi. apply list_lookup_insert_eq. eapply lookup_lt_Some. by apply first_none_at. Qed.

Section mains.
Context (fs : list Z → option (list Z)).
#[local] Instance mains_env : Env files := files_env fs.

(** close() after the file was read *)
Lemma run_closed {A} (Q : A → files → Prop) X i l o (k : ans → prog A) e :
  first_none (f_left e) = Some i → runs Q X (k (0, [])) (put 1 o e) →
  runs Q X (PCall (Uclose (Z.of_nat i)) k) (put 1 o (at_end i (opened i l e))).
Proof.
  intros Hi Hr. apply (run_close0 fs _ _ i []).
  - cbn. rewrite list_insert_insert_eq. by apply (opened_at i []).
  - unfold set_left, put, at_end, opened, set_left in *. cbn. rewrite !list_insert_insert_eq, list_insert_id; [done|]. by apply first_none_at.
Qed.

Lemma run_report {A} (Q : A → files → Prop) (X : Z → files → Prop) fd fmt p e :
  X 1 (put fd (report fmt (Some p)) e) → runs Q X (prog_bind (λ _, PExit 1) (fprintf fd (str fmt ++ [10]) [AStr (Some p)])) e.
Proof. intros HX. apply run_printf. by apply runs_exit. Qed.

Lemma run_cat_args i buf paths (X : Z → files → Prop) e :
  first_none (f_left e) = Some i →
  (let '(r, missing) := found fs paths in X (status missing) (put 2 (report "cat: cannot open %s" missing) (put 1 (concat (snd <$> r)) e))) →
  runs (λ (_ : unit) _, False) X (cat_args buf paths) e.
Proof.
  revert buf e. induction paths as [|p paths IH]; intros buf e Hi HX; cbn [cat_args found] in *.
  - apply runs_exit. by rewrite !put_nil in HX.
  - destruct (fs p) as [l|] eqn:Ep.
    + eapply run_opened; [done|done|]. cbn. destruct (Z.ltb_spec (Z.of_nat i) 0); [lia|]. apply (run_cat fs _ _ i l); [by apply opened_at|].
      intros buf'. cbn. apply run_closed; [done|]. apply IH; [done|]. destruct (found fs paths) as [r m]. cbn in HX. by rewrite put_put.
    + apply run_missing; [done|]. cbn -[str fprintf]. apply run_report. by rewrite put_nil in HX.
Qed.

Definition wc_line (name l : list Z) : list Z :=
  formatted (str "%d %d %d %s" ++ [10]) [AInt (s32 (count_lines l)); AInt (s32 (count_words l)); AInt (s32 (Z.of_nat (length l))); AStr (Some name)].

Lemma run_wc_args i buf paths (X : Z → files → Prop) e :
  first_none (f_left e) = Some i →
  (let '(r, missing) := found fs paths in
   X (status missing) (put 1 (concat (map (λ x, wc_line (fst x) (snd x)) r) ++ report "wc: cannot open %s" missing) e)) →
  runs (λ (_ : unit) _, False) X (wc_args buf paths) e.
Proof.
  revert buf e. induction paths as [|p paths IH]; intros buf e Hi HX; cbn [wc_args found] in *.
  - apply runs_exit. by rewrite put_nil in HX.
  - destruct (fs p) as [l|] eqn:Ep.
    + eapply run_opened; [done|done|]. cbn. destruct (Z.ltb_spec (Z.of_nat i) 0); [lia|]. apply (run_wc fs _ _ i l); [by apply opened_at|].
      intros buf'. cbn. rewrite wc_counts. apply run_closed; [done|]. apply IH; [done|]. destruct (found fs paths) as [r m]. cbn in HX.
      by rewrite put_put, app_assoc.
    + apply run_missing; [done|]. cbn -[str fprintf]. by apply run_report.
Qed.

Lemma run_grep_args i pattern paths (X : Z → files → Prop) e :
  first_none (f_left e) = Some i → (∀ p l, fs p = Some l → nonul l ∧ Z.of_nat (longest 0 l) < BUFSIZE - 1) →
  (let '(r, missing) := found fs paths in
   X (status missing) (put 1 (concat (map (λ x, matching pattern [] (snd x)) r) ++ report "grep: cannot open %s" missing) e)) →
  runs (λ (_ : unit) _, False) X
    (for_each paths (λ a,
      fd ← open a 0;
      if fd <? 0 then fprintf 1 (str "grep: cannot open %s" ++ [10]) [AStr (Some a)];; exit_ 1
      else grep_fd pattern fd;; close fd;; mret ());;
    exit_ 0) e.
Proof.
  intros Hi Hok. revert e Hi. induction paths as [|p paths IH]; intros e Hi HX; cbn [for_each found] in *.
  - apply runs_exit. by rewrite put_nil in HX.
  - destruct (fs p) as [l|] eqn:Ep.
    + eapply run_opened; [done|done|]. cbn. destruct (Z.ltb_spec (Z.of_nat i) 0); [lia|]. destruct (Hok p l Ep) as [Hn Hl].
      rewrite !prog_bind_assoc. apply (run_grep fs _ _ i l); [by apply opened_at|done|done|].
      cbn. apply run_closed; [done|]. apply IH; [done|]. destruct (found fs paths) as [r m]. cbn in HX. by rewrite put_put, app_assoc.
    + apply run_missing; [done|]. cbn -[str fprintf]. rewrite !prog_bind_assoc. by apply run_report.
Qed.

(** Cat copies. Without arguments it writes to its standard output just what its standard input has, however read() cuts it into pieces, and
    exits with 0; with file names it writes the contents of the files one after the other, leaving no descriptor open, up to the first
    that cannot be opened: then it reports that file and exits with 1. *)
Theorem cat_correct name paths l i e :
  f_left e !! 0%nat = Some (Some l) → first_none (f_left e) = Some i →
  runs (λ (_ : unit) _, False)
    (λ st e', st = 0 ∧ e' = put 1 l (at_end 0 e)) (cat_main [name]) e ∧
  (paths ≠ [] → runs (λ (_ : unit) _, False)
    (λ st e', let '(r, missing) := found fs paths in
      st = status missing ∧ e' = put 2 (report "cat: cannot open %s" missing) (put 1 (concat (snd <$> r)) e))
    (cat_main (name :: paths)) e).
Proof.
  intros Hl Hi. split.
  - apply (run_cat fs _ _ 0 l); [done|]. intros buf. apply runs_exit. split; reflexivity.
  - intros Hne. destruct paths as [|p paths]; [done|]. unfold cat_main, argc. destruct (Z.leb_spec (Z.of_nat (length (name :: p :: paths))) 1); [cbn [length] in *; lia|].
    apply (run_cat_args i); [done|]. cbn [tail]; by destruct (found fs (p :: paths)).
Qed.

(** C22: wc counts. For standard input, or for each file of its arguments up to the first that cannot be opened, it
    prints on a line the number of newlines, the number of words, which are the places where a byte that is not blank follows a blank or starts the input, and the number of
    bytes, each modulo 2^32 as an int, with the name: how read() cuts the input, even in the middle of a word, makes no difference. *)
Theorem wc_correct name paths l i e :
  f_left e !! 0%nat = Some (Some l) → first_none (f_left e) = Some i →
  runs (λ (_ : unit) _, False)
    (λ st e', st = 0 ∧ e' = put 1 (wc_line [] l) (at_end 0 e)) (wc_main [name]) e ∧
  (paths ≠ [] → runs (λ (_ : unit) _, False)
    (λ st e', let '(r, missing) := found fs paths in
      st = status missing ∧ e' = put 1 (concat (map (λ x, wc_line (fst x) (snd x)) r) ++ report "wc: cannot open %s" missing) e)
    (wc_main (name :: paths)) e).
Proof.
  intros Hl Hi. split.
  - apply (run_wc fs _ _ 0 l); [done|]. intros buf. rewrite wc_counts. apply runs_exit. split; reflexivity.
  - intros Hne. destruct paths as [|p paths]; [done|]. unfold wc_main, argc. destruct (Z.leb_spec (Z.of_nat (length (name :: p :: paths))) 1); [cbn [length] in *; lia|].
    apply (run_wc_args i); [done|]. cbn [tail]; by destruct (found fs (p :: paths)).
Qed.

(** C27: grep prints exactly the matching lines. For standard input, or for its files up to the first that cannot be opened, if
    there is no NUL and no line of 1023 bytes or more, the main program of grep ends and prints the lines that end in a newline and match the
    pattern, in order, however read() cuts the input into pieces; a last line without a newline is never printed. *)
Theorem grep_main_correct name pattern paths l i e :
  f_left e !! 0%nat = Some (Some l) → first_none (f_left e) = Some i →
  (∀ x, x = l ∨ (∃ p, fs p = Some x) → nonul x ∧ Z.of_nat (longest 0 x) < BUFSIZE - 1) →
  runs (λ (_ : unit) _, False)
    (λ st e', st = 0 ∧ e' = put 1 (matching pattern [] l) (at_end 0 e)) (grep_main [name; pattern]) e ∧
  (paths ≠ [] → runs (λ (_ : unit) _, False)
    (λ st e', let '(r, missing) := found fs paths in
      st = status missing ∧ e' = put 1 (concat (map (λ x, matching pattern [] (snd x)) r) ++ report "grep: cannot open %s" missing) e)
    (grep_main (name :: pattern :: paths)) e).
Proof.
  intros Hl Hi Hok. split.
  - destruct (Hok l (or_introl eq_refl)). apply (run_grep fs _ _ 0 l); [done|done|done|]. by apply runs_exit.
  - intros Hne. destruct paths as [|p paths]; [done|]. cbn [grep_main tail]. apply (run_grep_args i); [done| |].
    + intros q x Hx. apply Hok. right. by exists q.
    + cbn [tail]; by destruct (found fs (p :: paths)).
Qed.
End mains.

(** Two files, and "b c" on standard input *)
Definition two_files (p : list Z) : option (list Z) :=
  if decide (p = str "x") then Some (str "a b" ++ [10]) else if decide (p = str "y") then Some (str "cab") else None.
Definition shell_env : files := mkFiles ([Some (str "b c" ++ [10]); Some []; Some []] ++ replicate 13 None) (λ _, []).

Lemma cat_correct_witness :
  @runs files unit (mains_env two_files) (λ _ _, False) (λ st e', st = 1 ∧ f_out e' 1 = str "a b" ++ [10] ++ str "cab" ∧ f_out e' 2 = str "cat: cannot open z" ++ [10])
    (cat_main [str "cat"; str "x"; str "y"; str "z"]) shell_env.
Proof.
  eapply runs_mono; [apply (proj2 (cat_correct two_files (str "cat") [str "x"; str "y"; str "z"] (str "b c" ++ [10]) 3 shell_env eq_refl eq_refl)); discriminate|done|].
  intros st e' [-> ->]. split_and!; vm_compute; reflexivity.
Defined.

Lemma wc_correct_witness :
  @runs files unit (mains_env two_files) (λ _ _, False) (λ st e', st = 0 ∧ f_out e' 1 = str "1 2 4 x" ++ [10] ++ str "0 1 3 y" ++ [10])
    (wc_main [str "wc"; str "x"; str "y"]) shell_env.
Proof.
  eapply runs_mono; [apply (proj2 (wc_correct two_files (str "wc") [str "x"; str "y"] (str "b c" ++ [10]) 3 shell_env eq_refl eq_refl)); discriminate|done|].
  intros st e' [-> ->]. split_and!; vm_compute; reflexivity.
Defined.

Lemma two_files_short x : x = str "b c" ++ [10] ∨ (∃ p, two_files p = Some x) → nonul x ∧ Z.of_nat (longest 0 x) < BUFSIZE - 1.
Proof.
  intros [->|[p Hp]]; [split; [repeat constructor; discriminate|reflexivity]|]. unfold two_files in Hp.
  destruct (decide _); [injection Hp as <-; split; [repeat constructor; discriminate|reflexivity]|].
  destruct (decide _); [injection Hp as <-; split; [repeat constructor; discriminate|reflexivity]|done].
Qed.

Lemma grep_main_correct_witness :
  @runs files unit (mains_env two_files) (λ _ _, False) (λ st e', st = 0 ∧ f_out e' 1 = str "a b" ++ [10])
    (grep_main [str "grep"; str "b$"; str "x"; str "y"]) shell_env.
Proof.
  eapply runs_mono; [apply (proj2 (grep_main_correct two_files (str "grep") (str "b$") [str "x"; str "y"] (str "b c" ++ [10]) 3 shell_env eq_refl eq_refl two_files_short)); discriminate|done|].
  intros st e' [-> ->]. split_and!; vm_compute; reflexivity.
Defined.
