(* ===== verification/Pingpong.v ===== *)
(** pingpong.c: a byte goes to the child and back, in every schedule.

    [stage n w]: the world [w] is on the way of the program, with [n] steps to go.  Parent and child may be scheduled in any
    order, but one of them nearly always waits for the other. *)
From S2P Require Import Prelude Machine Printf Uprintf User Pool Coreutils.

Section pingpong.
Context `{Pids} (uninit : Z).

(** What the processes print: the child is process 1, the parent process 0. *)
Definition ping : list Z := formatted (str "<%d>:received ping" ++ [10]) [AInt (Z.pos (pid_of 1))].
Definition pong : list Z := formatted (str "<%d>:received pong" ++ [10]) [AInt (Z.pos (pid_of 0))].

(** *** The code that is left *)
Definition print_then (l : list Z) (rest : prog unit) : prog unit := for_each l (putc_ 1);; rest.
Definition parent_pid : prog unit := me ← getpid; fprintf 1 (str "<%d>:received pong" ++ [10]) [AInt me];; exit_ 0.
Definition parent_read : prog unit := read 5 1;; parent_pid.
Definition parent_write : prog unit := write 4 (str " ");; parent_read.
Definition child_write : prog unit := write 6 (str " ");; exit_ 0.
Definition child_pid : prog unit := me ← getpid; fprintf 1 (str "<%d>:received ping" ++ [10]) [AInt me];; child_write.
Definition child_read : prog unit := read 3 1;; child_pid.
Definition go_on (p p2 : ans) : prog unit :=
  pid ← fork_;
  if negb (pid =? 0) then
    write (nth 1 (snd p) uninit) (str " ");;
    read (nth 0 (snd p2) uninit) 1;;
    parent_pid
  else
    read (nth 0 (snd p) uninit) 1;;
    me ← getpid;
    fprintf 1 (str "<%d>:received ping" ++ [10]) [AInt me];;
    write (nth 1 (snd p2) uninit) (str " ");;
    exit_ 0.

(** *** Descriptors: the first pipe is 3 and 4, the second 5 and 6. *)
Definition fds1 : list (option desc) := <[4%nat := Some (DPipeW 0)]> (<[3%nat := Some (DPipeR 0)]> std_fds).
Definition fds2 : list (option desc) := <[6%nat := Some (DPipeW 1)]> (<[5%nat := Some (DPipeR 1)]> fds1).
Definition no_fds : list (option desc) := (λ _, None) <$> fds2.

(** The child exits, with a step to go, or has exited. *)
Definition leaving (n : nat) (p : uproc) : Prop := n = 1%nat ∧ p = mkU (exit_ 0) fds2 ∨ n = 0%nat ∧ p = mkU (PRet ()) no_fds.

Inductive stage : nat → world → Prop :=
| st_start : stage (11 + length ping + length pong) (start (pingpong_main uninit))
| st_pipe : stage (10 + length ping + length pong) (mkW [mkU (p2 ← pipe_; go_on (0, [3; 4]) p2) fds1] [[]] [])
| st_pipes : stage (9 + length ping + length pong) (mkW [mkU (go_on (0, [3; 4]) (0, [5; 6])) fds2] [[]; []] [])
| st_forked : stage (8 + length ping + length pong) (mkW [mkU parent_write fds2; mkU child_read fds2] [[]; []] [])
| st_sent : stage (7 + length ping + length pong) (mkW [mkU parent_read fds2; mkU child_read fds2] [str " "; []] [])
| st_got : stage (6 + length ping + length pong) (mkW [mkU parent_read fds2; mkU child_pid fds2] [[]; []] [])
| st_ping l t : l ++ t = ping →
    stage (5 + length t + length pong) (mkW [mkU parent_read fds2; mkU (print_then t child_write) fds2] [[]; []] l)
| st_answered n p : leaving n p → stage (n + (3 + length pong)) (mkW [mkU parent_read fds2; p] [[]; str " "] ping)
| st_back n p : leaving n p → stage (n + (2 + length pong)) (mkW [mkU parent_pid fds2; p] [[]; []] ping)
| st_pong n p l t : leaving n p → l ++ t = pong →
    stage (n + (1 + length t)) (mkW [mkU (print_then t (exit_ 0)) fds2; p] [[]; []] (ping ++ l))
| st_end n p : leaving n p → stage n (mkW [mkU (PRet ()) no_fds; p] [[]; []] (ping ++ pong)).

#[local] Opaque formatted.

(** A step of the child on its way out *)
Lemma leaving_step n p p0 pipes out w' :
  leaving n p → step_at 1 (mkW [p0; p] pipes out) = Some w' → ∃ m p', n = S m ∧ leaving m p' ∧ w' = mkW [p0; p'] pipes out.
Proof. intros [[-> ->]|[-> ->]] E; [|done]. injection E as <-. exists 0%nat. eexists. split; [done|]. split; [by right|done]. Qed.

Lemma by_step n m i w w1 w' : step_at i w = Some w' → stage m w1 → step_at i w = Some w1 → n = S m → ∃ k, n = S k ∧ stage k w'.
Proof. intros Hi Hm E ->. exists m. split; [done|]. rewrite Hi in E. by injection E as ->. Qed.

(** Every step leads to a stage with one step less to go. *)
Lemma stage_step n w w' : stage n w → wstep w w' → ∃ m, n = S m ∧ stage m w'.
Proof.
  intros Hs [i Hi]. destruct Hs as [| | | | | |l t E|k p Hk|k p Hk|k p l t Hk E|k p Hk]; destruct i as [|[|i]]; try done;
    try (destruct (leaving_step _ _ _ _ _ _ Hk Hi) as (m & p' & -> & Hp & ->); eexists; split; [reflexivity|]).
  - by apply (by_step _ _ _ _ _ _ Hi st_pipe).
  - by apply (by_step _ _ _ _ _ _ Hi st_pipes).
  - by apply (by_step _ _ _ _ _ _ Hi st_forked).
  - by apply (by_step _ _ _ _ _ _ Hi st_sent).
  - by apply (by_step _ _ _ _ _ _ Hi st_got).
  - by apply (by_step _ _ _ _ _ _ Hi (st_ping [] ping eq_refl)).
  - destruct t as [|c t].
    + rewrite app_nil_r in E. subst l. by apply (by_step _ _ _ _ _ _ Hi (st_answered 1 _ (or_introl (conj eq_refl eq_refl)))).
    + assert (E' : (l ++ [c]) ++ t = ping) by (by rewrite <- app_assoc). by apply (by_step _ _ _ _ _ _ Hi (st_ping _ t E')).
  - apply (by_step _ _ _ _ _ _ Hi (st_back _ _ Hk)); [done|lia].
  - exact (st_answered _ _ Hp).
  - apply (by_step _ _ _ _ _ _ Hi (st_pong _ _ [] pong Hk eq_refl)); [by rewrite app_nil_r|lia].
  - exact (st_back _ _ Hp).
  - destruct t as [|c t].
    + rewrite app_nil_r in E. subst l. apply (by_step _ _ _ _ _ _ Hi (st_end _ _ Hk)); [done|cbn; lia].
    + assert (E' : (l ++ [c]) ++ t = pong) by (by rewrite <- app_assoc).
      apply (by_step _ _ _ _ _ _ Hi (st_pong _ _ _ t Hk E')); [by rewrite app_assoc|cbn; lia].
  - exact (st_pong _ _ _ _ Hp E).
  - exact (st_end _ _ Hp).
Qed.

(** At each stage what was printed is a start of the two lines, and some process can move or both have exited with the lines printed. *)
Lemma stage_here n w : stage n w → w_out w `prefix_of` ping ++ pong ∧
  ((∃ w', wstep w w') ∨ (n = 0%nat ∧ w_out w = ping ++ pong ∧ Forall (λ p, exited p = true) (w_procs w))).
Proof.
  destruct 1 as [| | | | | |l t E|k p Hk|k p Hk|k p l t Hk E|k p Hk]; (split; [cbn [w_out start]|]);
    try (by apply prefix_nil); try (by apply prefix_app_r); try reflexivity.
  1-3: left; eexists; by exists 0%nat.
  - left. eexists. by exists 0%nat.
  - left. eexists. by exists 1%nat.
  - left. eexists. by exists 1%nat.
  - rewrite <- E. exists (t ++ pong). by rewrite app_assoc.
  - left. destruct t as [|c t]; eexists; by exists 1%nat.
  - left. eexists. by exists 0%nat.
  - left. eexists. by exists 0%nat.
  - apply prefix_app. by exists t.
  - left. destruct t as [|c t]; eexists; by exists 0%nat.
  - destruct Hk as [[-> ->]|[-> ->]]; [left; eexists; by exists 1%nat|right]. split_and!; [done..|]. by repeat constructor.
Qed.

Lemma stage_steps m n w w' : stage n w → nsteps wstep m w w' → ∃ k, n = (m + k)%nat ∧ stage k w'.
Proof.
  intros Hs Hm. revert n Hs. induction Hm as [w|m w w1 w' Hw Hm IH]; intros n Hs; [by exists n|].
  destruct (stage_step _ _ _ Hs Hw) as (n1 & -> & Hs1). destruct (IH n1 Hs1) as (k & -> & Hk). by exists k.
Qed.
End pingpong.

(** C35: ping comes before pong. Whatever pids the two processes of pingpong get and however the scheduler runs them, the program never gets stuck before both have
    exited, which takes 11 steps (system calls and exits) besides the write() of each character; it prints the child's line, with the child's pid, and then the
    parent's, with the parent's pid: the printing of one is never interleaved with the other's. The lines are what the code prints, "<pid>:received ping";
    the test of the lab wants "pid: received ping" (see the findings). *)
Theorem pingpong_correct `{Pids} (uninit : Z) m w :
  nsteps wstep m (start (pingpong_main uninit)) w →
  (m ≤ 11 + length (ping ++ pong))%nat ∧ w_out w `prefix_of` ping ++ pong ∧
  ((∃ w', wstep w w') ∨ (m = 11 + length (ping ++ pong))%nat ∧ w_out w = ping ++ pong ∧ Forall (λ p, exited p = true) (w_procs w)).
Proof.
  intros Hm. destruct (stage_steps uninit _ _ _ _ (st_start uninit) Hm) as (k & Ek & Hk).
  destruct (stage_here uninit k w Hk) as [Hp Hor]. rewrite length_app. split; [lia|]. split; [done|].
  destruct Hor as [?|(-> & Ho & Hx)]; [by left|right]. split; [lia|done].
Qed.

(** Started by the shell as process 3, with 5 for the child, round robin *)
Definition pids35 : Pids := λ i, match i with O => 3 | _ => 5 end%positive.

Definition world35 : world := run (H := pids35) 200 0 (start (pingpong_main 0)).

Lemma pingpong_correct_witness : nsteps (wstep (H := pids35)) 47 (start (pingpong_main 0)) world35 ∧
  w_out world35 = str "<5>:received ping" ++ [10] ++ str "<3>:received pong" ++ [10] ∧ Forall (λ p, exited p = true) (w_procs world35).
Proof.
  assert (Hr : ∃ m, nsteps (wstep (H := pids35)) m (start (pingpong_main 0)) world35) by exact (run_steps (H := pids35) 200 0 (start (pingpong_main 0))).
  destruct Hr as [m Hm].
  destruct (pingpong_correct (H := pids35) 0 m world35 Hm) as (_ & _ & [[w' [i Hi]]|(Em & Ho & Hx)]).
  - exfalso. assert (Hn : step_at (H := pids35) 0 world35 = None ∧ step_at (H := pids35) 1 world35 = None ∧ length (w_procs world35) = 2%nat) by (split_and!; vm_compute; reflexivity).
    destruct Hn as (H0 & H1 & Hl). destruct i as [|[|i]]; [congruence|congruence|]. unfold step_at in Hi. rewrite lookup_ge_None_2 in Hi by (rewrite Hl; clear; lia). discriminate Hi.
  - replace m with 47%nat in Hm by (rewrite Em; vm_compute; reflexivity). split; [exact Hm|]. split; [rewrite Ho; vm_compute; reflexivity|exact Hx].
Defined.
